(* ===== verification/_CoqProject ===== *)
-Q . S2P
Prelude.v
PyValue.v
Sha256.v
RuntimeProtocol.v
ProfileProtocol.v
SinkState.v
TraceSink.v
SinkSteps.v
SinkLemmas.v
SinkInvariant.v
SinkControl.v
SinkTheorems.v
SinkReach.v
SinkFrame.v
SinkSnapshot.v
SinkLiveness.v
SinkProps.v
SinkProducers.v
Hooks.v
HooksInterface.v
LifecycleBridge.v
BridgeInvariant.v
BridgeSteps.v
BridgeProps.v
ProfileLedger.v
ProfileAccounting.v
Evidence.v
WorkerAdapter.v
BridgeInterface.v
SchedulerAdapter.v
SchedulerInvariant.v
SchedulerProps.v
ObserverFactory.v
Observers.v
Normalizer.v
EpisodeNormalizer.v
Binary64.v
JsonValue.v
PhaseEvaluation.v
RecoveryDecomposition.v
Trace.v
LegacyTrace.v
CausalAttribution.v
CaseRecords.v
SpanGraph.v
CaseBundle.v
TraceLoom.v
DevelopmentCase.v
CaseBundleProps.v
BlindViews.v
BlindScoring.v
BlindScoringProps.v
BlindResult.v
NullCalibration.v
Workload.v
ExecutionPlan.v
ResourceLedger.v
BaselineAnalysis.v
CampaignDecision.v
