(* ===== verification/Prelude.v ===== *)
(** * Request lifecycle causal profiler: verification development

    The program (src/src/vllm_request_lifecycle_profiler) records what happens to
    a request inside a serving engine.  Runtime call sites hand event and edge
    drafts to a fail-open facade ([RuntimeLifecycleHooks]); the facade owns a
    bounded exporter ([JsonlTraceSink]) whose producers validate, number and queue
    records and whose writer thread writes them to a shard file; the lifecycle
    bridge turns scheduler callbacks into base events; a profile ledger numbers the
    KV-recovery evidence; the worker and scheduler adapters, built by a factory,
    follow a transfer from preemption to the first compute and write its rows;
    observers feed the bridge; a normalizer decides whether the records of a
    finished run prove one recovery; and offline analyses attribute a bottleneck
    to a span, decompose a recovery, test an intervention, rank the phases that became
    longer, and score a blind case of matched runs for its root cause, with a noise floor
    that a calibration measured.  The workload of the campaign and the plan of its
    service lifecycles are computed before any run; afterwards a ledger of ownership is
    rebuilt from the recorded events of each run, and the campaign is decided.

    ** Files, in dependency order

    - [Prelude]: exceptions ([exn]), results ([res]), the state and exception monad
      [M], strings, counting lemmas, the tactics [inv_ok] and [bool_prop].
    - [PyValue]: the Python objects that reach a record ([pyval]) and what the
      source does with them: [==], [in], [isinstance], truth, decimal text, the
      identifier patterns, canonical JSON, UTF-8.  [Sha256]: hashlib.sha256.
    - [RuntimeProtocol]: runtime_protocol.py, every validator and the five record
      builders.  [ProfileProtocol]: kv_recovery_profile_protocol.py, the same for
      the profile shard.
    - [SinkState], [TraceSink], [SinkSteps]: [JsonlTraceSink] of runtime_hooks.py.
      [SinkState] is the state (the base lane and the optional profile lane have one
      record type [Lane]); [TraceSink] has one definition per method; [SinkSteps]
      cuts the writer thread and [close] into the sections between which another
      thread can run and interleaves them with producers ([step]).
    - [SinkLemmas], [SinkInvariant], [SinkControl], [SinkTheorems], [SinkReach]: the
      invariant [Inv] of every reachable configuration: bookkeeping per lane,
      position of the writer, contents of the shard, completion claim.
      [SinkFrame], [SinkSnapshot]: the profile snapshot partitions the allocated
      numbers.  [SinkLiveness]: the measure [rank] of the writer.
    - [SinkProps], [SinkProducers]: the properties of the exporter.
    - [Hooks]: [RuntimeTraceConfig.from_env], [NullTraceSink] and the facade, forks
      included.  [HooksInterface]: the type class [LifecycleHooks] (what a client
      calls on the facade) with its laws [LifecycleHooksLaws], the facade's instance
      [LiveHooks], and [Recorded], which logs the accepted calls of any instance.
    - [LifecycleBridge], [BridgeInvariant], [BridgeSteps], [BridgeProps]:
      [RuntimeBaseLifecycleBridge] of kv_recovery_runtime.py over any
      [LifecycleHooks]: methods in a monad of computations that may give up, weakest
      preconditions over the log, the invariant, the properties of every run.
    - [ProfileLedger]: [BoundedKVRecoveryProfileLedger] of kv_recovery_runtime.py.
      [ProfileAccounting]: the class [ProfileCounts], how many losses the hooks have
      counted and whether they still take calls, with its laws for the exporter and for
      the ledger.
    - [Evidence]: the objects the adapters share: the type classes [EvidenceWorld]
      (the hooks and the ledger as an adapter calls them) and [RuntimeABI] (the
      host's value types), the log of what they accepted and of what was reported lost
      (an entry holds what the counters of [ProfileAccounting] say of it), weakest
      preconditions over it; [ExporterWorld] is the real exporter and ledger.
    - [WorkerAdapter]: [KVRecoveryWorkerEvidenceAdapter].  [BridgeInterface]: the
      class [BaseLifecycleBridge], what the scheduler adapter calls on the bridge,
      with the bridge of [LifecycleBridge] as an instance.  [SchedulerAdapter],
      [SchedulerInvariant], [SchedulerProps]: [KVRecoverySchedulerAdapter], its
      invariant over the log, its properties.  [ObserverFactory]:
      [KVRecoveryObserverFactoryAdapter], which builds and closes both adapters.
    - [Observers]: issue19_lifecycle.py and native_event_bus.py.
    - [Normalizer], [EpisodeNormalizer]: [normalize_h2d_recovery] and
      [normalize_kv_recovery_episode] of kv_recovery_runtime.py, which validate the
      parsed records of a finished run.
    - [Binary64]: Python's [float], with the order, subtraction and [sorted] of
      floats.  [JsonValue]: the values that [json.loads] returns, numbers of both types
      and their comparison.  [RecoveryDecomposition]: kv_recovery.py.  [Trace]:
      trace.py.  [LegacyTrace]: legacy_trace.py.  [CausalAttribution]:
      causal_attribution.py.
    - blind_attribution.py: [CaseRecords], the records of a validated bundle;
      [SpanGraph], the search for cycles of the lifecycle edges and the union of
      overlapping spans; [CaseBundle], every validator down to [validate_case_bundle],
      which returns the records it read; [CaseBundleProps], what an accepted bundle
      satisfies; [BlindViews], the five comparison views and the noise floor;
      [BlindScoring], [score_case] with its bootstrap; [BlindScoringProps], what a
      published cause rests on; [BlindResult], the recheck of a result, of whichever
      method, before it is written.  [DevelopmentCase]: the bundle of the repository's
      fixture, to which the theorems are applied.
    - [TraceLoom]: traceloom_adapter.py over the type class [Connection], a SQLite
      connection as the adapter queries it; [BlindScoring] calls it for the links of a
      run.
    - [PhaseEvaluation]: m0_evaluation.py.  [NullCalibration]: preblind_calibration.py,
      which calls the noise floor of [BlindViews].
    - [Workload]: oasst1_workload.py, from parsed conversation trees to the requests of
      the repetitions.  [ExecutionPlan]: issue19_m0.py, the lifecycles of these requests
      and the gates before a run.
    - [ResourceLedger], [BaselineAnalysis]: .benchmarks/run_issue19_m0_baseline.py, the
      ledger of resources and the analyses of a run with faults and of its control.
      [CampaignDecision]: the comparison of both, the decision, and the same decision in
      issue19_public_artifacts.py.

    ** What the theorems show

    - Records: what an accepted event, edge, profile row or summary satisfies
      ([build_event_record_sound], [build_edge_record_iff], ...); the encoder is
      canonical and frames lines; identifiers determine their sequence number.
    - Exporter, for every interleaving of producers, closers and the writer: counts
      reconcile ([reachable_accounting]); bounds of the queue ([reachable_bounds]);
      the order of pending records ([reachable_order]); the first completion claim is final
      ([claim_final]); a claimed complete shard is the file its summary describes
      ([committed_shard_sound]); after [close] began the writer reaches its end
      ([close_terminates]); nothing is admitted after it ([closing_rejects_producers]).
    - Facade: tracing is on only when configured completely; a forked child is
      detached and every query in it answers its default ([from_env_enabled_iff],
      [fork_child_isolated]).
    - Bridge, for every sequence of runtime callbacks and every behaviour of the
      hooks: bounded and agreeing tables, no dangling edge or span, recovery
      boundaries in order and linked, no exception, exact retirement.
    - Ledger: refinement of the list of attempts ([ledger_refines]) and the partition
      of their numbers ([ledger_partition]).
    - Adapters, for every sequence of host callbacks: a receipt or an admission stands
      for a chain of rows in the log ([worker_receipt_grounded],
      [scheduler_admission_grounded]); what is given up is reported as lost, and
      counted as such as long as the profile takes calls ([worker_no_silent_loss],
      [scheduler_conservation]); the block rows pass the
      protocol's validators ([prepared_rows_accepted]); an engine failure closes
      every adapter of the factory, each on the ledger of its own process
      ([engine_failure_closes]).
    - Observers: bounded tables that report accepted events only, exact counts.
    - Normalizers: what the records of an accepted transfer or episode prove
      ([h2d_recovery_sound], [kv_recovery_episode_sound]).
    - Blind attribution: what an accepted bundle satisfies ([case_bundle_sound]); the
      search accepts the acyclic graphs exactly ([acyclic_edges_iff]); the overlap check
      compares with the measure of the union ([overlap_accounting_iff]); a view shows
      the fields it is to show and depends on no other ([view_isolation]); a resolved link stands on rows
      that are unique in the database ([explicit_links_resolved]); a cause is published
      only from clean evidence and, among medians that are numbers, has the greatest
      ([published_grounded]); a result
      that is written is consistent with itself ([method_result_sound]); a calibration
      stands on matched runs and its floor bounds their noise ([calibration_sound],
      [noise_floor_max]), and its arms on complete recordings ([calibration_arm_grounded]).
    - Phase evaluation: among differences that are numbers, a ranking lists the longer phases,
      the greatest difference first; an abstention publishes nothing ([evaluate_case_sound]).
    - Campaign: the repetitions partition a pool of the longest candidates
      ([repetitions_partition]); with enough distinct trees, dealing, projection and plan
      succeed, and the lifecycles are the repetitions ([execution_plan_total]); the capacity
      gate passes when one full request fits ([capacity_gate_iff]); M0 may run only after
      every check ([readiness_grounded]); a complete ledger accounts for every resource
      ([ledger_sound]), and a correct run lost none but with the worker
      that was killed ([correct_run]); the campaign decides
      for the treatment on eight of ten valid pairs ([go_decision]), and so does the public
      export ([public_decision_agrees]).
    - Offline analyses: the timelines a decomposition accepts and the sign of its
      latencies ([decompose_kv_recovery_iff], [decomposition_bounds]); what an
      attribution means and that the order of a trace is irrelevant
      ([attribution_grounded], [trace_order_free]); the counts of the fault matrix
      ([fault_matrix_exact]); the legacy format ([legacy_roundtrip]); support for a
      cause only with a matched control ([causal_support_iff]).

    ** Bounds and fuel

    Integers of Python are [Z]; where the code limits them (uint64 times and
    sequence numbers, uint32 epochs) the limit is in the definitions.  The loop of
    [os.write] has the number of bytes of the record as fuel: each pass writes at
    least one byte or raises.  The writer of a configuration ends within [rank]
    steps.  Decimal conversion has the digits of the number as fuel.  The search for
    cycles has a number of frames, which is the recursion limit of the interpreter and
    not an artefact: running out of it is the [RecursionError] of the code.  All other
    recursion is structural.

    ** Not modelled

    In records, floats and text beyond code point 255; tuples are lists of values; the
    identity of UUIDs (an exporter's identifier is an argument); logging handlers; the
    operating system's descriptors, [atexit] and the writer start gate; the injected
    write function beyond its results; torn reads of the lock-free fast path of
    [close]; a child forked inside a step (the facade's theorem covers the child).
    Offline, [sorted] is a stable insertion sort, which is what Python returns for
    keys that are not NaN, and the theorems assume it where it matters; the readers
    of JSON files are left out, since their work is [json.loads].
    Of the blind attribution, the draws of the seeded generator are an argument, so the
    theorems hold for every stream of them, and so are the clock readings of
    [timed_score_case] and the parser of timestamps; [sum] of floats is the left fold of
    the Python versions the project is tested on; the lists of keys in two messages and
    the files are left out.  Of the TraceLoom adapter, opening the database is left out.
    Of the evaluation and calibration, the CSV and JSON readers are left out; of the
    workload, git, the pointer file, the download and the tokenizer, whose lengths are an
    argument; of the campaign, the inspection of the environment, which runs git and other
    interpreters, the driver of the service (processes, signals, sockets, HTTP), the
    median and spread of the summary's latencies, and the files it writes; of the public
    export, the redaction by regular expressions and the walk over the file tree.  The text of floats and containers and [int] of
    a text are arguments where a definition needs them.
    The shared workloads, the control middleware, plugin installation, the launcher, the
    other benchmark scripts, the repository scripts and the paper's asset
    exporter are glue around subprocesses, file trees and third-party packages, and are
    left out. *)

From Stdlib Require Import ZArith Lia Ascii String.
From stdpp Require Import base decidable list strings gmap sets sorting.

#[global] Open Scope string_scope.
#[global] Open Scope list_scope.
#[global] Open Scope Z_scope.

(** ** Exceptions and fallible computations

    A Python call either returns or raises.  [exn] has one constructor for each
    exception class that the modelled code raises or that a modelled builtin
    raises; the string is the message given by the code. *)
Inductive exn :=
| ProtocolValidationError (msg : string)
| ValueError (msg : string)
| TypeError
| AttributeError
| KeyError (key : string)
| IndexError
| ZeroDivisionError
| OverflowError (msg : string)
| OSError (msg : string)
| AssertionError
| RuntimeError (msg : string)
| CaseValidationError (msg : string)
| TraceLoomAdapterError (msg : string)
| CalibrationValidationError (msg : string).

Inductive res (A : Type) :=
| Ok (a : A)
| Raise (e : exn).
Arguments Ok {_} _.
Arguments Raise {_} _.

#[export] Instance res_ret : MRet res := @Ok.
#[export] Instance res_bind : MBind res := λ A B f m,
  match m with Ok a => f a | Raise e => Raise e end.

(** [ensure b e] is [if not b: raise e]. *)
Definition ensure (b : bool) (e : exn) : res unit :=
  if b then Ok tt else Raise e.

Definition is_ok {A} (r : res A) : bool :=
  match r with Ok _ => true | Raise _ => false end.

(** [for x in l: f(x)] where [f] only validates. *)
Fixpoint res_iter {A} (f : A → res unit) (l : list A) : res unit :=
  match l with
  | [] => Ok tt
  | x :: l' => f x ;; res_iter f l'
  end.

Lemma bind_ok {A B} (m : res A) (f : A → res B) b :
  m ≫= f = Ok b ↔ ∃ a, m = Ok a ∧ f a = Ok b.
Proof. destruct m; simpl; split; [by eauto|by intros (?&[= ->]&?)|done|by intros (?&?&?)]. Qed.

Lemma ensure_ok b e u : ensure b e = Ok u ↔ b = true.
Proof. destruct b, u; simpl; naive_solver. Qed.

Lemma ret_ok {A} (a b : A) : (mret a : res A) = Ok b ↔ a = b.
Proof. unfold mret, res_ret. split; [by intros [= ->]|by intros ->]. Qed.

Lemma res_iter_ok {A} (f : A → res unit) l u :
  res_iter f l = Ok u ↔ Forall (λ x, f x = Ok tt) l.
Proof.
  destruct u. induction l as [|x l IH]; cbn [res_iter]; [naive_solver|].
  rewrite bind_ok, Forall_cons. setoid_rewrite IH. split.
  - intros ([] & ? & ?); eauto.
  - intros [??]; eauto.
Qed.

Lemma is_ok_spec {A} (r : res A) : is_ok r = true ↔ ∃ a, r = Ok a.
Proof. destruct r; simpl; split; [by eauto|done|done|by intros [? ?]]. Qed.

(** ** State and exceptions

    Methods that mutate their object are state passing functions: the state
    after an exception keeps the mutations made before it. *)
Definition M (S A : Type) : Type := S → res A * S.

#[export] Instance M_ret {S} : MRet (M S) := λ A a s, (Ok a, s).
#[export] Instance M_bind {S} : MBind (M S) := λ A B f m s,
  match m s with
  | (Ok a, s') => f a s'
  | (Raise e, s') => (Raise e, s')
  end.

Lemma M_run {S A B} (m : M S A) (f : A → M S B) s :
  (m ≫= f) s = match m s with
               | (Ok a, s') => f a s'
               | (Raise e, s') => (Raise e, s')
               end.
Proof. done. Qed.

Definition get {S} : M S S := λ s, (Ok s, s).
Definition modify {S} (f : S → S) : M S unit := λ s, (Ok tt, f s).
Definition raise {S A} (e : exn) : M S A := λ s, (Raise e, s).
Definition lift {S A} (r : res A) : M S A := λ s, (r, s).

(** [try: m  except Exception: h]. *)
Definition try_except {S A} (m h : M S A) : M S A := λ s,
  match m s with
  | (Ok a, s') => (Ok a, s')
  | (Raise _, s') => h s'
  end.

(** ** Strings

    A Python [str] is a Rocq [string] whose characters are the code points 0 to
    255; text with code points above 255 is outside the model. *)

Definition str_in (s : string) (l : list string) : bool := existsb (String.eqb s) l.

Lemma str_in_spec s l : str_in s l = true ↔ s ∈ l.
Proof.
  unfold str_in. rewrite existsb_exists. split.
  - intros (x & Hx & ->%String.eqb_eq). by apply list_elem_of_In.
  - intros H. exists s. split; [by apply list_elem_of_In|apply String.eqb_refl].
Qed.

Lemma str_in_spec_false s l : str_in s l = false ↔ s ∉ l.
Proof. rewrite <- str_in_spec. destruct (str_in s l); naive_solver. Qed.

Fixpoint str_forall (p : ascii → bool) (s : string) : bool :=
  match s with
  | EmptyString => true
  | String c s' => p c && str_forall p s'
  end.

Fixpoint str_take (n : nat) (s : string) : string :=
  match n, s with
  | S n', String c s' => String c (str_take n' s')
  | _, _ => EmptyString
  end.

Fixpoint str_drop (n : nat) (s : string) : string :=
  match n, s with
  | S n', String _ s' => str_drop n' s'
  | _, _ => s
  end.

Lemma str_app_cons c s1 s2 : String c s1 +:+ s2 = String c (s1 +:+ s2).
Proof. done. Qed.

Lemma str_length_app s1 s2 :
  String.length (s1 +:+ s2) = (String.length s1 + String.length s2)%nat.
Proof. induction s1 as [|c s1 IH]; simpl; [done|]. by rewrite IH. Qed.

Lemma str_forall_app p s1 s2 :
  str_forall p (s1 +:+ s2) = str_forall p s1 && str_forall p s2.
Proof. induction s1 as [|c s1 IH]; simpl; [done|]. by rewrite IH, andb_assoc. Qed.

Lemma str_forall_impl (p q : ascii → bool) s :
  (∀ c, p c = true → q c = true) → str_forall p s = true → str_forall q s = true.
Proof.
  intros Hpq. induction s as [|c s IH]; simpl; [done|].
  rewrite !andb_true_iff. intros [??]. auto.
Qed.

Lemma str_take_app n s1 s2 :
  String.length s1 = n → str_take n (s1 +:+ s2) = s1.
Proof.
  intros <-. induction s1 as [|c s1 IH]; simpl; [by destruct s2|]. by rewrite IH.
Qed.

Lemma str_drop_app n s1 s2 :
  String.length s1 = n → str_drop n (s1 +:+ s2) = s2.
Proof. intros <-. induction s1; simpl; [by destruct s2|done]. Qed.

Lemma str_take_drop n s : str_take n s +:+ str_drop n s = s.
Proof. revert s. induction n as [|n IH]; intros [|c s]; simpl; try done.
  exact (f_equal (String c) (IH s)).
Qed.

Lemma str_take_length_min n s : String.length (str_take n s) = Nat.min n (String.length s).
Proof.
  revert s. induction n as [|n IH]; intros [|c s]; simpl; try done. by rewrite IH.
Qed.

Lemma str_drop_drop n m s : str_drop m (str_drop n s) = str_drop (n + m) s.
Proof.
  revert s. induction n as [|n IH]; intros s; [done|].
  destruct s as [|c s]; simpl; [by destruct m|apply IH].
Qed.

Lemma str_prefix_app s1 s2 : String.prefix s1 (s1 +:+ s2) = true.
Proof.
  induction s1 as [|c s1 IH]; simpl; [by destruct s2|].
  destruct (ascii_dec c c); [done|congruence].
Qed.

Lemma str_app_assoc s1 s2 s3 : (s1 +:+ s2) +:+ s3 = s1 +:+ (s2 +:+ s3).
Proof. induction s1 as [|c s1 IH]; [done|]. by rewrite !str_app_cons, IH. Qed.

Lemma str_app_nil_r s : s +:+ "" = s.
Proof. induction s as [|c s IH]; [done|]. by rewrite str_app_cons, IH. Qed.

Lemma str_app_inj_l s s1 s2 : s +:+ s1 = s +:+ s2 → s1 = s2.
Proof. induction s as [|c s IH]; [done|]. rewrite !str_app_cons. intros [=]. auto. Qed.

Fixpoint str_concat (sep : string) (l : list string) : string :=
  match l with
  | [] => ""
  | [x] => x
  | x :: l' => x +:+ sep +:+ str_concat sep l'
  end.

Lemma str_forall_concat p sep l :
  str_forall p sep = true → Forall (λ s, str_forall p s = true) l →
  str_forall p (str_concat sep l) = true.
Proof.
  intros Hsep. induction 1 as [|x l Hx Hl IH]; [done|].
  destruct l as [|y l]; [done|].
  change (str_concat sep (x :: y :: l)) with (x +:+ sep +:+ str_concat sep (y :: l)).
  by rewrite !str_forall_app, Hx, Hsep, IH.
Qed.

(** ** Lists and counters *)

Definition sum_list_Z (l : list Z) : Z := foldr Z.add 0 l.

Lemma sum_list_Z_app l1 l2 : sum_list_Z (l1 ++ l2) = sum_list_Z l1 + sum_list_Z l2.
Proof. induction l1; simpl in *; lia. Qed.

Lemma sum_list_Z_nonneg l : Forall (λ x, 0 ≤ x) l → 0 ≤ sum_list_Z l.
Proof. induction 1; simpl; lia. Qed.

(** [sum(1 for x in l if p(x))]. *)
Definition count_if {A} (p : A → bool) (l : list A) : Z :=
  sum_list_Z (map (λ x, if p x then 1 else 0) l).

Lemma count_if_app {A} (p : A → bool) l1 l2 :
  count_if p (l1 ++ l2) = count_if p l1 + count_if p l2.
Proof. unfold count_if. by rewrite map_app, sum_list_Z_app. Qed.

Lemma count_if_cons {A} (p : A → bool) x l :
  count_if p (x :: l) = (if p x then 1 else 0) + count_if p l.
Proof. done. Qed.

Lemma count_if_nil {A} (p : A → bool) : count_if p [] = 0.
Proof. done. Qed.

Lemma count_if_nonneg {A} (p : A → bool) l : 0 ≤ count_if p l.
Proof. induction l as [|x l IH]; [done|]. rewrite count_if_cons. destruct (p x); lia. Qed.

Lemma count_if_le_length {A} (p : A → bool) l : count_if p l ≤ Z.of_nat (length l).
Proof.
  induction l as [|x l IH]; [done|]. rewrite count_if_cons.
  cbn [length]. destruct (p x); lia.
Qed.

Lemma count_if_ext {A} (p q : A → bool) l :
  Forall (λ x, p x = q x) l → count_if p l = count_if q l.
Proof. induction 1 as [|x l Hx _ IH]; [done|]. by rewrite !count_if_cons, Hx, IH. Qed.

Lemma count_if_all {A} (p : A → bool) l :
  Forall (λ x, p x = true) l → count_if p l = Z.of_nat (length l).
Proof.
  induction 1 as [|x l Hx _ IH]; [done|].
  rewrite count_if_cons, Hx, IH. cbn [length]. lia.
Qed.

(** ** Slices of a list *)

Lemma StronglySorted_take_drop {A} (R : A → A → Prop) n m l :
  StronglySorted R l → StronglySorted R (take n (drop m l)).
Proof.
  intros Hl.
  assert (∀ l, StronglySorted R l → StronglySorted R (drop m l)) as Hd.
  { clear. induction m as [|m IH]; intros [|x l] Hl; simpl; try done.
    apply IH. by inversion Hl. }
  assert (∀ l, StronglySorted R l → StronglySorted R (take n l)) as Ht.
  { clear. induction n as [|n IH]; intros [|x l] Hl; simpl; try constructor.
    - apply IH. by inversion Hl.
    - apply Forall_take. by inversion Hl. }
  auto.
Qed.

(** The chunks of a list, put together *)
Lemma chunks_concat {A} (m : nat) (l : list A) n :
  (length l ≤ n * m)%nat → concat (map (λ i, take m (drop (i * m) l)) (seq 0 n)) = l.
Proof.
  revert l. induction n as [|n IH]; intros l Hl; [by destruct l; [|simpl in Hl; lia]|].
  rewrite <- cons_seq, <- fmap_S_seq. cbn [map concat]. rewrite map_map.
  trans (take m l ++ drop m l); [|apply take_drop]. f_equal.
  rewrite <- (IH (drop m l)) by (rewrite length_drop; lia).
  f_equal. apply map_ext. intros i. by rewrite drop_drop.
Qed.

Lemma slice_map {A B} (f : A → B) n m l : map f (take n (drop m l)) = take n (drop m (map f l)).
Proof. trans (take n (map f (drop m l))); [apply (fmap_take f)|f_equal; apply (fmap_drop f)]. Qed.

(** ** Hints and tactics *)

Create HintDb rlp.
#[export] Hint Resolve count_if_nonneg count_if_le_length sum_list_Z_nonneg : rlp.

Create Rewrite HintDb rlp_ok.
#[export] Hint Rewrite @bind_ok @ensure_ok @ret_ok @res_iter_ok : rlp_ok.
Create Rewrite HintDb rlp_count.
#[export] Hint Rewrite @count_if_app @count_if_cons @count_if_nil @length_app
  sum_list_Z_app : rlp_count.

(** Split a hypothesis [c = Ok _] of a chain of binds into its steps. *)
Ltac inv_ok :=
  repeat match goal with
  | H : ensure _ _ = Ok _ |- _ => apply ensure_ok in H
  | H : _ ≫= _ = Ok _ |- _ => apply bind_ok in H as (? & ? & ?)
  | H : res_iter _ _ = Ok _ |- _ => apply res_iter_ok in H
  | H : mret _ = Ok _ |- _ => apply ret_ok in H
  | H : Ok _ = Ok _ |- _ => injection H as H
  | H : Raise _ = Ok _ |- _ => discriminate H
  | u : unit |- _ => destruct u
  | p : (_ * _)%type |- _ => destruct p
  end; subst.

(** Case analysis of the conditional a hypothesis is stuck on. *)
Ltac case_if_in H :=
  match type of H with
  | context [if ?b then _ else _] => destruct b eqn:?
  | context [match ?x with _ => _ end] => destruct x eqn:?
  end.

Ltac bool_prop :=
  repeat match goal with
  | H : _ && _ = true |- _ => apply andb_true_iff in H as [? ?]
  | H : _ || _ = false |- _ => apply orb_false_iff in H as [? ?]
  | H : negb _ = true |- _ => apply negb_true_iff in H
  | H : negb _ = false |- _ => apply negb_false_iff in H
  | H : String.eqb _ _ = true |- _ => apply String.eqb_eq in H
  | H : String.eqb _ _ = false |- _ => apply String.eqb_neq in H
  | H : Z.leb _ _ = true |- _ => apply Z.leb_le in H
  | H : Z.leb _ _ = false |- _ => apply Z.leb_gt in H
  | H : Z.ltb _ _ = true |- _ => apply Z.ltb_lt in H
  | H : Z.ltb _ _ = false |- _ => apply Z.ltb_ge in H
  | H : Z.eqb _ _ = true |- _ => apply Z.eqb_eq in H
  | H : Z.eqb _ _ = false |- _ => apply Z.eqb_neq in H
  | H : Nat.eqb _ _ = true |- _ => apply Nat.eqb_eq in H
  | H : str_in _ _ = true |- _ => apply str_in_spec in H
  | H : str_in _ _ = false |- _ => apply str_in_spec_false in H
  end.

(** ** Options and lists of results *)

Definition is_some_b {A} (o : option A) : bool :=
  match o with Some _ => true | None => false end.

Fixpoint res_mapM {A B} (f : A → res B) (l : list A) : res (list B) :=
  match l with
  | [] => Ok []
  | x :: l => y ← f x; ys ← res_mapM f l; Ok (y :: ys)
  end.

(** [for x in l: acc = f(x, acc)] *)
Fixpoint res_foldM {A S} (f : A → S → res S) (l : list A) (acc : S) : res S :=
  match l with [] => Ok acc | x :: l => acc ← f x acc; res_foldM f l acc end.

Lemma res_mapM_ok {A B} (f : A → res B) l l' :
  res_mapM f l = Ok l' ↔ Forall2 (λ x y, f x = Ok y) l l'.
Proof.
  revert l'. induction l as [|x l IH]; intros l'; cbn [res_mapM].
  - split; [intros [= <-]; constructor|by inversion 1].
  - split.
    + intros Hl. inv_ok. constructor; [done|by apply IH].
    + inversion 1 as [|? y ? ys Hx Hl]; subst. rewrite Hx. simpl.
      by rewrite (proj2 (IH ys) Hl).
Qed.

(** ** Loops *)

Lemma res_mapM_total {A B} (f : A → res B) (P : A → B → Prop) l :
  Forall (λ x, ∃ y, f x = Ok y ∧ P x y) l → ∃ l', res_mapM f l = Ok l' ∧ Forall2 P l l'.
Proof.
  induction 1 as [|x l (y & Hy & Hp) _ (l' & Hl & Hall)]; [by exists []|].
  exists (y :: l'). cbn [res_mapM]. rewrite Hy. simpl. rewrite Hl. split; [done|by constructor].
Qed.

Lemma res_foldM_app {A S} (f : A → S → res S) l1 l2 a b :
  res_foldM f (l1 ++ l2) a = Ok b ↔ ∃ m, res_foldM f l1 a = Ok m ∧ res_foldM f l2 m = Ok b.
Proof.
  revert a. induction l1 as [|x l1 IH]; intros a; cbn [res_foldM app].
  - split; [by eexists|]. by intros (? & [= ->] & ?).
  - rewrite bind_ok. setoid_rewrite bind_ok. setoid_rewrite IH. naive_solver.
Qed.

(** A quantity that every pass of a loop preserves *)
Lemma res_foldM_kept {A S T} (f : A → S → res S) (g : S → T) (P : A → Prop) l a b :
  (∀ x a b, f x a = Ok b → P x → g b = g a) → res_foldM f l a = Ok b → Forall P l → g b = g a.
Proof.
  intros Hf H Hl. revert a H. induction Hl as [|x l Hx _ IH]; intros a H; cbn [res_foldM] in H.
  - by injection H as ->.
  - apply bind_ok in H as (m & Hm & H). etrans; [by apply IH|by eapply Hf].
Qed.

(** A property of the last state of a loop that every pass needs of the state before *)
Lemma res_foldM_back {A S} (f : A → S → res S) (good : S → Prop) (P : A → Prop) l a b :
  (∀ x a b, f x a = Ok b → good b → good a ∧ P x) → res_foldM f l a = Ok b → good b → good a ∧ Forall P l.
Proof.
  intros Hf. revert a. induction l as [|x l IH]; intros a H Hb; cbn [res_foldM] in H.
  - injection H as <-. split; [done|constructor].
  - apply bind_ok in H as (a' & Hx & H). destruct (IH _ H Hb) as [Ha' Hl].
    destruct (Hf _ _ _ Hx Ha') as [Ha Hp]. split; [done|by constructor].
Qed.

(** ** Sorting

    [sorted(...)] as a stable insertion sort, for a test [before] of the strict order *)
Section stable_sort.
Context {A : Type} (before : A → A → bool).

Fixpoint insert_before (x : A) (l : list A) : list A :=
  match l with
  | [] => [x]
  | y :: l => if before x y then x :: y :: l else y :: insert_before x l
  end.

Definition stable_sort (l : list A) : list A := foldl (λ acc x, insert_before x acc) [] l.

Lemma insert_before_Permutation x l : insert_before x l ≡ₚ x :: l.
Proof.
  induction l as [|y l IH]; simpl; [done|]. destruct (before x y); [done|].
  rewrite IH. apply Permutation_swap.
Qed.

Lemma foldl_insert_before l acc : foldl (λ acc x, insert_before x acc) acc l ≡ₚ acc ++ l.
Proof.
  revert acc. induction l as [|x l IH]; intros acc; simpl; [by rewrite app_nil_r|].
  rewrite IH, insert_before_Permutation. by rewrite <- Permutation_middle.
Qed.

Lemma stable_sort_Permutation l : stable_sort l ≡ₚ l.
Proof. apply foldl_insert_before. Qed.

(** A list that is in order stays as it is. *)
Lemma stable_sort_id l : StronglySorted (λ x y, before y x = false) l → stable_sort l = l.
Proof.
  unfold stable_sort. assert (∀ x acc, Forall (λ y, before x y = false) acc → insert_before x acc = acc ++ [x]) as Hi.
  { induction 1 as [|y acc Hy _ IH]; simpl; [done|]. by rewrite Hy, IH. }
  change l with ([] ++ l) at 1 3. generalize (@nil A). induction l as [|x l IH]; intros acc H.
  - by rewrite app_nil_r.
  - simpl. rewrite Hi.
    + rewrite IH; rewrite <- app_assoc; done.
    + apply Forall_forall. intros y Hy. eapply StronglySorted_app_1_elem_of in H; [exact H|done|by left].
Qed.

(** The result is sorted for every order that [before] decides. *)
Context (R : relation A) `{!Transitive R}.
Context (Hbefore : ∀ x y, before x y = true → R x y) (Hafter : ∀ x y, before x y = false → R y x).

Lemma insert_before_sorted x l : StronglySorted R l → StronglySorted R (insert_before x l).
Proof.
  induction 1 as [|y l Hl IH Hy]; simpl; [by repeat constructor|]. destruct (before x y) eqn:E.
  - apply Hbefore in E. constructor; [by constructor|]. constructor; [done|].
    eapply Forall_impl; [exact Hy|]. intros z Hz. by transitivity y.
  - constructor; [done|]. rewrite insert_before_Permutation. constructor; [by apply Hafter|done].
Qed.

Lemma stable_sort_sorted l : StronglySorted R (stable_sort l).
Proof.
  unfold stable_sort. assert (∀ acc, StronglySorted R acc →
    StronglySorted R (foldl (λ acc x, insert_before x acc) acc l)) as H; [|apply H; constructor].
  induction l as [|x l IH]; intros acc Hacc; simpl; [done|]. by apply IH, insert_before_sorted.
Qed.
End stable_sort.
