(* ===== verification/PyValue.v ===== *)
(** * Python values, decimal numerals, identifier patterns and JSON

    The objects the profiler builds records from ([pyval]), the operations of
    the language and of its standard library that the source applies to them
    (dict lookup, [==], [isinstance], [in], [str(int)], [int(str)], the [re]
    patterns of runtime_protocol.py and kv_recovery_profile_protocol.py, and
    [json.dumps] with [sort_keys], compact separators and
    [ensure_ascii=False]).  Two properties of the encoder are proved: it is
    canonical (the insertion order of a dict is irrelevant) and it is a line
    encoder (no newline inside the text). *)

From Stdlib Require Import ZArith Lia Ascii String.
From stdpp Require Import base list strings gmap sorting.
From S2P Require Import Prelude.

#[local] Set Warnings "-register-all".

(** ** Values

    [PList] stands for lists and tuples, [PDict] keeps insertion order,
    [POther] is an object of any other type: the modelled checks reject it and
    [json.dumps] raises [TypeError] on it. *)
Inductive pyval :=
| PNone
| PBool (b : bool)
| PInt (z : Z)
| PStr (s : string)
| PList (l : list pyval)
| PDict (d : list (string * pyval))
| POther.

Section pyval_ind.
  Context (P : pyval → Prop).
  Context (HNone : P PNone) (HBool : ∀ b, P (PBool b)) (HInt : ∀ z, P (PInt z)).
  Context (HStr : ∀ s, P (PStr s)) (HOther : P POther).
  Context (HList : ∀ l, Forall P l → P (PList l)).
  Context (HDict : ∀ d, Forall (λ kv, P kv.2) d → P (PDict d)).

Fixpoint pyval_ind' (v : pyval) : P v :=
    match v with
    | PNone => HNone
    | PBool b => HBool b
    | PInt z => HInt z
    | PStr s => HStr s
    | POther => HOther
    | PList l => HList l
        ((fix go l : Forall P l :=
          match l with
          | [] => Forall_nil_2 _
          | x :: l' => Forall_cons_2 _ _ _ (pyval_ind' x) (go l')
          end) l)
    | PDict d => HDict d
        ((fix go d : Forall (λ kv, P kv.2) d :=
          match d with
          | [] => Forall_nil_2 _
          | kv :: d' => Forall_cons_2 _ _ _ (pyval_ind' kv.2) (go d')
          end) d)
    end.
End pyval_ind.

Definition pydict : Type := list (string * pyval).

(** ** Dictionaries *)

Fixpoint dict_find (d : pydict) (k : string) : option pyval :=
  match d with
  | [] => None
  | (k', v) :: d' => if String.eqb k k' then Some v else dict_find d' k
  end.

(** [d.get(k)] *)
Definition dict_get (d : pydict) (k : string) : pyval := default PNone (dict_find d k).

(** [d[k]] *)
Definition dict_getitem (d : pydict) (k : string) : res pyval :=
  match dict_find d k with Some v => Ok v | None => Raise (KeyError k) end.

Definition dict_keys (d : pydict) : list string := map fst d.

(** [set(d) == ks] *)
Definition keys_are (d : pydict) (ks : list string) : bool :=
  forallb (λ k, str_in k ks) (dict_keys d) && forallb (λ k, str_in k (dict_keys d)) ks.

(** ** Type tests and comparisons with constants *)

Definition is_none (v : pyval) : bool := match v with PNone => true | _ => false end.
Definition is_str (v : pyval) : bool := match v with PStr _ => true | _ => false end.
Definition is_bool (v : pyval) : bool := match v with PBool _ => true | _ => false end.
(** [isinstance(v, int)]: [bool] is a subclass of [int]. *)
Definition is_int (v : pyval) : bool :=
  match v with PInt _ | PBool _ => true | _ => false end.
(** [type(v) is int] *)
Definition is_exact_int (v : pyval) : bool := match v with PInt _ => true | _ => false end.

(** [v == s] for a string constant. *)
Definition eq_str (v : pyval) (s : string) : bool :=
  match v with PStr s' => String.eqb s' s | _ => false end.

(** [v == z] for an integer constant: [True == 1] and [False == 0]. *)
Definition eq_int (v : pyval) (z : Z) : bool :=
  match v with
  | PInt z' => z' =? z
  | PBool b => (if b then 1 else 0) =? z
  | _ => false
  end.

(** [v in {s1, ..., sn}]: hashing a list or a dict raises [TypeError]. *)
Definition in_strs (v : pyval) (l : list string) : res bool :=
  match v with
  | PStr s => Ok (str_in s l)
  | PList _ | PDict _ => Raise TypeError
  | _ => Ok false
  end.

(** [bool(v)] *)
Definition truthy (v : pyval) : bool :=
  match v with
  | PNone => false
  | PBool b => b
  | PInt z => negb (z =? 0)
  | PStr s => negb (String.eqb s EmptyString)
  | PList l => match l with [] => false | _ => true end
  | PDict d => match d with [] => false | _ => true end
  | POther => true
  end.

Lemma eq_str_spec v s : eq_str v s = true ↔ v = PStr s.
Proof.
  destruct v; simpl; try (split; [done|by intros [=]]).
  rewrite String.eqb_eq. naive_solver.
Qed.

Lemma in_strs_ok v l b :
  in_strs v l = Ok b → b = true → ∃ s, v = PStr s ∧ s ∈ l.
Proof.
  destruct v; simpl; intros [= <-] Hb; try done.
  apply str_in_spec in Hb. eauto.
Qed.

(** ** Decimal numerals *)

Definition code (c : ascii) : Z := Z.of_N (N_of_ascii c).
Definition chr (z : Z) : ascii := ascii_of_N (Z.to_N z).
Definition digit (d : Z) : ascii := chr (48 + d).

Fixpoint dec_digits (fuel : nat) (z : Z) (acc : string) : string :=
  match fuel with
  | O => acc
  | S fuel' =>
      if z <? 10 then String (digit z) acc
      else dec_digits fuel' (z / 10) (String (digit (z mod 10)) acc)
  end.

(** The fuel bounds the number of decimal digits by the number of bits. *)
Definition dec_fuel (z : Z) : nat := S (Z.to_nat (Z.log2 z)).

(** [str(z)] *)
Definition str_of_Z (z : Z) : string :=
  if z <? 0 then "-" +:+ dec_digits (dec_fuel (- z)) (- z) EmptyString
  else dec_digits (dec_fuel z) z EmptyString.

(** [int(s)] for a string of digits. *)
Fixpoint int_of_digits (acc : Z) (s : string) : Z :=
  match s with
  | EmptyString => acc
  | String c s' => int_of_digits (acc * 10 + (code c - 48)) s'
  end.

Definition is_digit (c : ascii) : bool := (48 <=? code c) && (code c <=? 57).
Definition is_hex_char (c : ascii) : bool :=
  is_digit c || ((97 <=? code c) && (code c <=? 102)).

Lemma code_chr z : 0 ≤ z < 256 → code (chr z) = z.
Proof.
  intros Hz. unfold code, chr. rewrite N_ascii_embedding; [lia|].
  apply N2Z.inj_lt. rewrite Z2N.id; lia.
Qed.

Lemma code_digit d : 0 ≤ d < 10 → code (digit d) = 48 + d.
Proof. intros. unfold digit. apply code_chr. lia. Qed.

Lemma is_digit_digit d : 0 ≤ d < 10 → is_digit (digit d) = true.
Proof. intros. unfold is_digit. rewrite code_digit by lia. lia. Qed.

Lemma dec_fuel_step z : 10 ≤ z → (dec_fuel (z / 10) < dec_fuel z)%nat.
Proof.
  intros Hz. unfold dec_fuel.
  assert (Z.log2 (z / 10) < Z.log2 z); [|pose proof (Z.log2_nonneg (z / 10)); lia].
  assert (1 ≤ z / 10) by (apply Z.div_le_lower_bound; lia).
  assert (Z.log2 (2 * (z / 10)) ≤ Z.log2 z).
  { apply Z.log2_le_mono. pose proof (Z.mul_div_le z 10). lia. }
  rewrite Z.log2_double in * by lia. lia.
Qed.

(** Induction over the digits of a numeral, most significant digit last. *)
Lemma dec_digits_ind (P : Z → string → string → Prop) :
  (∀ z acc, 0 ≤ z < 10 → P z acc (String (digit z) acc)) →
  (∀ z acc out, 10 ≤ z → P (z / 10) (String (digit (z mod 10)) acc) out → P z acc out) →
  ∀ fuel z acc, 0 ≤ z → (dec_fuel z ≤ fuel)%nat → P z acc (dec_digits fuel z acc).
Proof.
  intros Hbase Hstep fuel. induction fuel as [|fuel IH]; intros z acc Hz Hf.
  - unfold dec_fuel in Hf. lia.
  - cbn [dec_digits]. destruct (z <? 10) eqn:E.
    + apply Hbase. lia.
    + apply Hstep; [lia|]. apply IH; [apply Z.div_pos; lia|].
      pose proof (dec_fuel_step z). lia.
Qed.

Lemma dec_digits_parse z :
  0 ≤ z → int_of_digits 0 (dec_digits (dec_fuel z) z EmptyString) = z.
Proof.
  intros Hz.
  apply (dec_digits_ind (λ z acc out, int_of_digits 0 out = int_of_digits z acc));
    [| |done|done].
  - intros d acc Hd. cbn [int_of_digits]. rewrite code_digit by lia. f_equal. lia.
  - intros y acc out Hy ->. cbn [int_of_digits].
    pose proof (Z.mod_pos_bound y 10). rewrite code_digit by lia. f_equal.
    pose proof (Z_div_mod_eq_full y 10). lia.
Qed.

Lemma dec_digits_all_digits z :
  0 ≤ z → str_forall is_digit (dec_digits (dec_fuel z) z EmptyString) = true.
Proof.
  intros Hz.
  cut (str_forall is_digit EmptyString = true →
       str_forall is_digit (dec_digits (dec_fuel z) z EmptyString) = true); [auto|].
  apply (dec_digits_ind (λ _ acc out, str_forall is_digit acc = true →
                                      str_forall is_digit out = true)); [| |done|done].
  - intros d acc Hd Ha. cbn [str_forall]. by rewrite is_digit_digit, Ha by lia.
  - intros y acc out Hy Hrec Ha. apply Hrec. cbn [str_forall].
    pose proof (Z.mod_pos_bound y 10). by rewrite is_digit_digit, Ha by lia.
Qed.

Lemma dec_digits_length k z :
  0 ≤ z < 10 ^ Z.of_nat (S k) →
  (String.length (dec_digits (dec_fuel z) z EmptyString) ≤ S k)%nat.
Proof.
  intros Hz. set (out := dec_digits _ _ _).
  cut (∀ k, z < 10 ^ Z.of_nat (S k) →
        (String.length out ≤ S k + String.length EmptyString)%nat).
  { intros H. specialize (H k). simpl in H. lia. }
  apply (dec_digits_ind (λ z acc out, ∀ k, z < 10 ^ Z.of_nat (S k) →
           (String.length out ≤ S k + String.length acc)%nat)); [| |lia|done].
  - intros. cbn [String.length]. lia.
  - intros y acc o Hy Hrec [|j] Hj; [simpl in Hj; lia|].
    specialize (Hrec j). cbn [String.length] in Hrec.
    enough (y / 10 < 10 ^ Z.of_nat (S j)) by (apply Hrec in H; lia).
    apply Z.div_lt_upper_bound; [lia|].
    rewrite (Nat2Z.inj_succ (S j)), Z.pow_succ_r in Hj by lia. lia.
Qed.

Lemma dec_digits_head z :
  0 < z → ∃ c s, dec_digits (dec_fuel z) z EmptyString = String c s ∧
                 is_digit c = true ∧ code c ≠ 48.
Proof.
  intros Hz. cut (0 < z → ∃ c s, dec_digits (dec_fuel z) z EmptyString = String c s ∧
                 is_digit c = true ∧ code c ≠ 48); [auto|].
  apply (dec_digits_ind (λ z _ out, 0 < z → ∃ c s, out = String c s ∧
           is_digit c = true ∧ code c ≠ 48)); [| |lia|done].
  - intros d acc Hd Hpos. eexists _, _. split; [done|].
    rewrite is_digit_digit, code_digit by lia. split; [done|lia].
  - intros y acc o Hy Hrec _. apply Hrec. apply Z.div_str_pos. lia.
Qed.

(** ** Identifier patterns *)

(** [^[0-9a-f]{n}$] with [fullmatch]. *)
Definition hex_match (n : nat) (s : string) : bool :=
  (String.length s =? n)%nat && str_forall is_hex_char s.

(** [(0|[1-9][0-9]{0,19})] *)
Definition dec20_match (s : string) : bool :=
  match s with
  | EmptyString => false
  | String c s' =>
      if code c =? 48 then String.eqb s' EmptyString
      else is_digit c && str_forall is_digit s' && (String.length s' <=? 19)%nat
  end.

(** [^[0-9a-f]{32}:<kind>:(0|[1-9][0-9]{0,19})$]: the four canonical identifier
    patterns [_EVENT_ID], [_SPAN_ID], [_HANDOFF_ID], [_TRANSFER_ID] and
    [_PROFILE_RECORD_ID] differ in the kind letter only. *)
Definition decimal_id_match (kind : string) (s : string) : bool :=
  let tag := ":" +:+ kind +:+ ":" in
  hex_match 32 (str_take 32 s)
  && String.prefix tag (str_drop 32 s)
  && dec20_match (str_drop (String.length tag) (str_drop 32 s)).

(** [s.rsplit(":", 1)[1]] *)
Fixpoint rsplit_last (cur s : string) : string :=
  match s with
  | EmptyString => cur
  | String c s' => if Ascii.eqb c ":" then rsplit_last s' s' else rsplit_last cur s'
  end.

Lemma dec20_match_str_of_Z z : 0 ≤ z < 2 ^ 64 → dec20_match (str_of_Z z) = true.
Proof.
  intros Hz. unfold str_of_Z. rewrite (proj2 (Z.ltb_ge z 0)) by lia.
  destruct (Z.eq_dec z 0) as [->|Hne]; [done|].
  destruct (dec_digits_head z) as (c & s & E & Hd & Hc); [lia|].
  pose proof (dec_digits_all_digits z ltac:(lia)) as Hall.
  pose proof (dec_digits_length 19 z ltac:(lia)) as Hlen.
  rewrite E in *. cbn [str_forall String.length dec20_match] in *.
  rewrite (proj2 (Z.eqb_neq _ _) Hc). apply andb_true_iff in Hall as [_ ->].
  rewrite Hd. simpl. apply Nat.leb_le. lia.
Qed.

Lemma dec20_match_digits s : dec20_match s = true → str_forall is_digit s = true.
Proof.
  destruct s as [|c s]; simpl; [done|]. destruct (code c =? 48) eqn:E; intros H.
  - bool_prop. subst. simpl. unfold is_digit. rewrite E. done.
  - bool_prop. by rewrite H, H1.
Qed.

Lemma dec20_match_length s : dec20_match s = true → (String.length s ≤ 20)%nat.
Proof.
  destruct s as [|c s]; simpl; [done|]. destruct (code c =? 48); intros H; bool_prop.
  - subst. simpl. lia.
  - apply Nat.leb_le in H0. lia.
Qed.

Lemma rsplit_last_digits cur s : str_forall is_digit s = true → rsplit_last cur s = cur.
Proof.
  revert cur. induction s as [|c s IH]; intros cur; simpl; [done|].
  intros H. bool_prop. destruct (Ascii.eqb c ":") eqn:E; [|auto].
  apply Ascii.eqb_eq in E. subst. done.
Qed.

Lemma rsplit_last_app cur p s :
  str_forall is_digit s = true → rsplit_last cur (p +:+ ":" +:+ s) = s.
Proof.
  revert cur. induction p as [|c p IH]; intros cur Hs.
  - simpl. by apply rsplit_last_digits.
  - rewrite str_app_cons. cbn [rsplit_last].
    destruct (Ascii.eqb c ":"); by apply IH.
Qed.

(** An identifier built by the source is a canonical identifier, and its
    sequence number is read back by [int(value.rsplit(":", 1)[1])]. *)
Definition make_id (owner kind : string) (seq : Z) : string :=
  owner +:+ ":" +:+ kind +:+ ":" +:+ str_of_Z seq.

Lemma hex_match_length n s : hex_match n s = true → String.length s = n.
Proof. unfold hex_match. intros H. by bool_prop. Qed.

Lemma make_id_match owner kind seq :
  hex_match 32 owner = true → 0 ≤ seq < 2 ^ 64 →
  decimal_id_match kind (make_id owner kind seq) = true.
Proof.
  intros Ho Hs. unfold decimal_id_match, make_id.
  pose proof (hex_match_length _ _ Ho) as Hlen.
  rewrite str_take_app, str_drop_app, Ho by done.
  rewrite <- !(str_app_assoc ":"), <- (str_app_assoc (":" +:+ kind)).
  rewrite str_prefix_app, str_drop_app by done.
  by rewrite dec20_match_str_of_Z.
Qed.

Lemma make_id_prefix owner kind seq :
  String.prefix (owner +:+ ":" +:+ kind +:+ ":") (make_id owner kind seq) = true.
Proof.
  unfold make_id. rewrite <- !(str_app_assoc ":"), <- (str_app_assoc (":" +:+ kind)).
  rewrite <- !str_app_assoc. apply str_prefix_app.
Qed.

Lemma str_of_Z_nonneg z : 0 ≤ z → str_of_Z z = dec_digits (dec_fuel z) z EmptyString.
Proof. intros Hz. unfold str_of_Z. by rewrite (proj2 (Z.ltb_ge z 0)). Qed.

Lemma make_id_sequence cur owner kind seq :
  0 ≤ seq → int_of_digits 0 (rsplit_last cur (make_id owner kind seq)) = seq.
Proof.
  intros Hs. unfold make_id. rewrite <- !(str_app_assoc ":"), <- (str_app_assoc owner).
  rewrite !str_app_assoc, <- (str_app_assoc ":" kind), <- (str_app_assoc owner).
  rewrite str_of_Z_nonneg by done.
  rewrite rsplit_last_app by by apply dec_digits_all_digits.
  by apply dec_digits_parse.
Qed.

Lemma make_id_inj owner kind seq1 seq2 :
  0 ≤ seq1 → 0 ≤ seq2 → make_id owner kind seq1 = make_id owner kind seq2 → seq1 = seq2.
Proof.
  intros H1 H2 E. rewrite <- (make_id_sequence EmptyString owner kind seq1), E by done.
  by apply make_id_sequence.
Qed.

Lemma decimal_id_length kind s :
  decimal_id_match kind s = true →
  (String.length s ≤ 32 + (2 + String.length kind) + 20)%nat.
Proof.
  unfold decimal_id_match. intros H. bool_prop.
  apply hex_match_length in H. apply dec20_match_length in H0.
  rewrite <- (str_take_drop 32 s), str_length_app, H.
  rewrite <- (str_take_drop (String.length (":" +:+ kind +:+ ":")) (str_drop 32 s)).
  rewrite str_length_app.
  assert (∀ n t, String.length (str_take n t) ≤ n)%nat as Ht.
  { intros n. induction n as [|n IH]; intros [|c t]; simpl; try lia. specialize (IH t). lia. }
  pose proof (Ht (String.length (":" +:+ kind +:+ ":")) (str_drop 32 s)).
  rewrite !str_length_app in *. simpl in *. lia.
Qed.

(** [^issue2:[a-z0-9_.-]+:[a-z0-9_.-]+$] and [^[a-z][a-z0-9_]{0,47}$] *)
Definition is_lower (c : ascii) : bool := (97 <=? code c) && (code c <=? 122).
Definition is_key_char (c : ascii) : bool := is_lower c || is_digit c || (code c =? 95).
Definition is_evidence_char (c : ascii) : bool :=
  is_key_char c || (code c =? 46) || (code c =? 45).

Definition metadata_key_match (s : string) : bool :=
  match s with
  | EmptyString => false
  | String c s' => is_lower c && str_forall is_key_char s' && (String.length s' <=? 47)%nat
  end.

Fixpoint split_colon (s : string) : option (string * string) :=
  match s with
  | EmptyString => None
  | String c s' =>
      if Ascii.eqb c ":" then Some (EmptyString, s')
      else p ← split_colon s'; Some (String c p.1, p.2)
  end.

Definition issue2_evidence_match (s : string) : bool :=
  String.prefix "issue2:" s &&
  match split_colon (str_drop 7 s) with
  | Some (a, b) =>
      str_forall is_evidence_char a && str_forall is_evidence_char b
      && negb (String.eqb a EmptyString) && negb (String.eqb b EmptyString)
  | None => false
  end.

(** [s.isascii() and s.isprintable()] *)
Definition is_printable_ascii (c : ascii) : bool := (32 <=? code c) && (code c <=? 126).
Definition printable_ascii (s : string) : bool := str_forall is_printable_ascii s.

(** ** JSON *)

Definition hex_digit (d : Z) : ascii := chr (if d <? 10 then 48 + d else 87 + d).

Definition backslash (c : ascii) : string := String (chr 92) (String c EmptyString).

(** The escapes of [json.dumps] with [ensure_ascii=False]. *)
Definition json_escape (c : ascii) : string :=
  let n := code c in
  if n =? 34 then backslash (chr 34)
  else if n =? 92 then backslash (chr 92)
  else if n =? 10 then backslash "n"
  else if n =? 13 then backslash "r"
  else if n =? 9 then backslash "t"
  else if n =? 12 then backslash "f"
  else if n =? 8 then backslash "b"
  else if n <? 32 then
    backslash "u" +:+ "00"
    +:+ String (hex_digit (n / 16)) (String (hex_digit (n mod 16)) EmptyString)
  else String c EmptyString.

Fixpoint json_escapes (s : string) : string :=
  match s with
  | EmptyString => EmptyString
  | String c s' => json_escape c +:+ json_escapes s'
  end.

Definition quote : string := String (chr 34) EmptyString.
Definition json_string (s : string) : string := quote +:+ json_escapes s +:+ quote.

Definition key_le {A} (x y : string * A) : Prop := String.le x.1 y.1.
#[export] Instance key_le_dec {A} : RelDecision (@key_le A).
Proof. intros x y. unfold key_le. apply _. Defined.
#[export] Instance key_le_trans {A} : Transitive (@key_le A).
Proof. intros x y z. unfold key_le. apply transitivity. Qed.
#[export] Instance key_le_total {A} : Total (@key_le A).
Proof. intros x y. unfold key_le. apply total, _. Qed.

Definition json_item (kv : string * string) : string := json_string kv.1 +:+ ":" +:+ kv.2.

(** [json.dumps(v, ensure_ascii=False, separators=(",", ":"), sort_keys=True)];
    [None] is [TypeError]. *)
Fixpoint json_dumps (v : pyval) : option string :=
  match v with
  | PNone => Some "null"
  | PBool b => Some (if b then "true" else "false")
  | PInt z => Some (str_of_Z z)
  | PStr s => Some (json_string s)
  | PList l =>
      items ← mapM json_dumps l;
      Some ("[" +:+ str_concat "," items +:+ "]")
  | PDict d =>
      items ← mapM (λ kv, s ← json_dumps kv.2; Some (kv.1, s)) d;
      Some ("{" +:+ str_concat "," (json_item <$> merge_sort key_le items) +:+ "}")
  | POther => None
  end.

(** [s.encode("utf-8")]; the result is the byte string. *)
Fixpoint utf8_encode (s : string) : string :=
  match s with
  | EmptyString => EmptyString
  | String c s' =>
      if code c <? 128 then String c (utf8_encode s')
      else String (chr (192 + code c / 64))
             (String (chr (128 + code c mod 64)) (utf8_encode s'))
  end.

(** A character that is not a control character; in particular not a newline. *)
Definition no_control (c : ascii) : bool := 32 <=? code c.

Lemma code_bound c : 0 ≤ code c < 256.
Proof.
  unfold code. pose proof (N_ascii_bounded c). lia.
Qed.

Lemma hex_digit_no_control d : 0 ≤ d < 16 → no_control (hex_digit d) = true.
Proof.
  intros Hd. unfold no_control, hex_digit.
  destruct (d <? 10) eqn:E; rewrite code_chr; lia.
Qed.

Lemma json_escape_no_control c : str_forall no_control (json_escape c) = true.
Proof.
  pose proof (code_bound c). unfold json_escape, backslash. cbv zeta.
  repeat (case_match; [done|]). case_match; bool_prop.
  - rewrite !str_forall_app. cbn [str_forall].
    assert (0 ≤ code c / 16 < 16).
    { split; [apply Z.div_pos; lia|apply Z.div_lt_upper_bound; lia]. }
    rewrite !hex_digit_no_control by (try apply Z.mod_pos_bound; lia). done.
  - cbn. unfold no_control. rewrite andb_true_r. by apply Z.leb_le.
Qed.

Lemma json_string_no_control s : str_forall no_control (json_string s) = true.
Proof.
  unfold json_string. rewrite !str_forall_app. cbn [str_forall quote].
  assert (str_forall no_control (json_escapes s) = true) as ->; [|done].
  induction s as [|c s IH]; [done|]. cbn [json_escapes].
  by rewrite str_forall_app, json_escape_no_control, IH.
Qed.

Lemma digit_no_control c : is_digit c = true → no_control c = true.
Proof. unfold is_digit, no_control. lia. Qed.

Lemma str_of_Z_no_control z : str_forall no_control (str_of_Z z) = true.
Proof.
  unfold str_of_Z. destruct (z <? 0) eqn:E; bool_prop; rewrite ?str_forall_app;
    simpl; (eapply str_forall_impl; [apply digit_no_control|]);
    apply dec_digits_all_digits; lia.
Qed.

(** Every character of the JSON text of a value is a printable one: a record is
    one line. *)
Lemma json_dumps_no_control v s :
  json_dumps v = Some s → str_forall no_control s = true.
Proof.
  revert s. induction v as [| | | | |l IH|d IH] using pyval_ind'; intros out; simpl; try done.
  - by intros [= <-].
  - destruct b; by intros [= <-].
  - intros [= <-]. apply str_of_Z_no_control.
  - intros [= <-]. apply json_string_no_control.
  - intros (items & Hi & [= <-])%bind_Some.
    rewrite !str_forall_app. cbn [str_forall].
    rewrite str_forall_concat; [done|done|].
    apply mapM_Some_1 in Hi.
    induction Hi as [|v s l items Hv _ IHl]; [done|].
    inversion IH; subst. constructor; auto.
  - intros (items & Hi & [= <-])%bind_Some.
    rewrite !str_forall_app. cbn [str_forall].
    rewrite str_forall_concat; [done|done|].
    apply Forall_forall. intros ? (kv & -> & Hkv)%list_elem_of_fmap.
    rewrite merge_sort_Permutation in Hkv.
    apply mapM_Some_1 in Hi. unfold json_item.
    rewrite !str_forall_app, json_string_no_control. simpl.
    induction Hi as [|kv' s d items Hv _ IHl]; [by apply elem_of_nil in Hkv|].
    inversion IH; subst. apply elem_of_cons in Hkv as [->|Hkv]; [|by apply IHl].
    apply bind_Some in Hv as (s' & Hs' & [= <-]). simpl. eauto.
Qed.

(** The text does not depend on the insertion order of a dict. *)
Lemma json_dumps_canonical d1 d2 :
  NoDup (dict_keys d1) → d1 ≡ₚ d2 → json_dumps (PDict d1) = json_dumps (PDict d2).
Proof.
  intros Hnd Hp. simpl.
  set (f := λ kv : string * pyval, s ← json_dumps kv.2; Some (kv.1, s)).
  assert (∀ d items, mapM f d = Some items → items.*1 = d.*1) as Hkeys.
  { intros d items Hi%mapM_Some_1. induction Hi as [|kv it d items Hv _ IH]; [done|].
    apply bind_Some in Hv as (s & _ & [= <-]). rewrite !fmap_cons. by f_equal. }
  assert (match mapM f d1, mapM f d2 with
          | Some i1, Some i2 => i1 ≡ₚ i2 | None, None => True | _, _ => False end) as Hm.
  { clear Hnd Hkeys. induction Hp as [|x a b _ IH|x y a|a b c _ IH1 _ IH2]; simpl.
    - done.
    - destruct (f x); simpl; [|by destruct (mapM f a), (mapM f b)].
      destruct (mapM f a), (mapM f b); simpl; try done. by constructor.
    - destruct (f x), (f y); simpl; try done; destruct (mapM f a); simpl; try done.
      constructor.
    - destruct (mapM f a), (mapM f b), (mapM f c); try done. by etrans. }
  destruct (mapM f d1) as [i1|] eqn:E1, (mapM f d2) as [i2|] eqn:E2; try done.
  simpl. do 5 f_equal.
  apply (StronglySorted_unique_strong key_le).
  - intros [k1 s1] [k2 s2]. rewrite !merge_sort_Permutation. unfold key_le. simpl.
    intros H1 H2 L1 L2. assert (k1 = k2) as -> by by apply (anti_symm String.le).
    rewrite <- Hm in H2. assert (NoDup i1.*1) as Hn by by rewrite (Hkeys _ _ E1).
    f_equal. apply list_elem_of_lookup in H1 as [a Ha].
    apply list_elem_of_lookup in H2 as [b Hb].
    assert (a = b) as ->; [|naive_solver].
    eapply (NoDup_lookup i1.*1); [done|by rewrite list_lookup_fmap, Ha|
                                        by rewrite list_lookup_fmap, Hb].
  - apply StronglySorted_merge_sort; apply _.
  - apply StronglySorted_merge_sort; apply _.
  - by rewrite !merge_sort_Permutation.
Qed.

Lemma utf8_no_control s :
  str_forall no_control s = true → str_forall no_control (utf8_encode s) = true.
Proof.
  induction s as [|c s IH]; [done|]. cbn [utf8_encode str_forall].
  intros H. bool_prop. pose proof (code_bound c). case_match; bool_prop.
  - cbn [str_forall]. by rewrite H, IH.
  - assert (0 ≤ code c / 64 < 4).
    { split; [apply Z.div_pos; lia|apply Z.div_lt_upper_bound; lia]. }
    pose proof (Z.mod_pos_bound (code c) 64).
    cbn [str_forall]. rewrite IH by done. unfold no_control.
    rewrite !code_chr by lia. lia.
Qed.

#[global] Arguments json_dumps : simpl never.
#[global] Arguments str_of_Z : simpl never.
#[global] Arguments hex_match : simpl never.
#[global] Arguments decimal_id_match : simpl never.
#[global] Arguments make_id : simpl never.
#[global] Arguments utf8_encode : simpl never.
