(* ===== verification/Sha256.v ===== *)
(** * SHA-256

    [hashlib.sha256(data).hexdigest()] as the source uses it for trace ids,
    logical block ids, wait set ids and shard content digests: FIPS 180-4 over
    byte strings, executable, with the published test vectors.  An incremental
    hash object is represented by the bytes given to it so far. *)

From Stdlib Require Import ZArith Lia Ascii String.
From stdpp Require Import base list strings.
From S2P Require Import Prelude PyValue.

Definition w32 (x : Z) : Z := Z.land x 0xffffffff.
Definition rotr (n x : Z) : Z := w32 (Z.lor (Z.shiftr x n) (Z.shiftl x (32 - n))).
Definition add32 (l : list Z) : Z := w32 (sum_list_Z l).

(** The round constants and the initial state are the first 32 fractional bits of
    the cube roots of the first 64 primes and of the square roots of the first
    8; they are computed from that description. *)
Definition is_prime (n : Z) : bool :=
  forallb (λ d, negb (n mod Z.of_nat d =? 0)) (seq 2 (Z.to_nat n - 2)).

Definition primes : list Z :=
  Eval vm_compute in List.filter is_prime (map Z.of_nat (seq 2 310)).

(** Integer cube root by bisection on the bits below [2 ^ bits]. *)
Fixpoint icbrt (bits : nat) (root n : Z) : Z :=
  match bits with
  | O => root
  | S bits' =>
      let r := root + 2 ^ Z.of_nat bits' in
      icbrt bits' (if r * r * r <=? n then r else root) n
  end.

Definition K256 : list Z :=
  Eval vm_compute in map (λ p, w32 (icbrt 36 0 (p * 2 ^ 96))) (take 64 primes).

Definition H256 : list Z :=
  Eval vm_compute in map (λ p, w32 (Z.sqrt (p * 2 ^ 64))) (take 8 primes).

Definition nth_word (i : nat) (l : list Z) : Z := default 0 (l !! i).

(** The message schedule, most recent word first. *)
Fixpoint schedule (n : nat) (rev_w : list Z) : list Z :=
  match n with
  | O => rev_w
  | S n' =>
      let x := nth_word 14 rev_w in
      let y := nth_word 1 rev_w in
      let s0 := Z.lxor (Z.lxor (rotr 7 x) (rotr 18 x)) (Z.shiftr x 3) in
      let s1 := Z.lxor (Z.lxor (rotr 17 y) (rotr 19 y)) (Z.shiftr y 10) in
      schedule n' (add32 [nth_word 15 rev_w; s0; nth_word 6 rev_w; s1] :: rev_w)
  end.

Definition round (st : list Z) (kw : Z * Z) : list Z :=
  match st with
  | [a; b; c; d; e; f; g; h] =>
      let s1 := Z.lxor (Z.lxor (rotr 6 e) (rotr 11 e)) (rotr 25 e) in
      let ch := Z.lxor (Z.land e f) (Z.land (Z.lxor e 0xffffffff) g) in
      let t1 := add32 [h; s1; ch; kw.1; kw.2] in
      let s0 := Z.lxor (Z.lxor (rotr 2 a) (rotr 13 a)) (rotr 22 a) in
      let maj := Z.lxor (Z.lxor (Z.land a b) (Z.land a c)) (Z.land b c) in
      [add32 [t1; s0; maj]; a; b; c; w32 (d + t1); e; f; g]
  | _ => st
  end.

Definition compress (st : list Z) (block : list Z) : list Z :=
  let w := rev (schedule 48 (rev block)) in
  zip_with (λ x y, w32 (x + y)) st (foldl round st (zip K256 w)).

(** Big-endian 32-bit words of a byte list whose length is a multiple of 4. *)
Fixpoint words (bytes : list Z) : list Z :=
  match bytes with
  | a :: b :: c :: d :: rest => (((a * 256 + b) * 256 + c) * 256 + d) :: words rest
  | _ => []
  end.

Fixpoint blocks (fuel : nat) (ws : list Z) : list (list Z) :=
  match fuel, ws with
  | S fuel', _ :: _ => take 16 ws :: blocks fuel' (drop 16 ws)
  | _, _ => []
  end.

Definition be64 (n : Z) : list Z :=
  map (λ i, Z.land (Z.shiftr n (8 * Z.of_nat i)) 255) [7; 6; 5; 4; 3; 2; 1; 0]%nat.

Definition pad (bytes : list Z) : list Z :=
  let n := Z.of_nat (List.length bytes) in
  bytes ++ [128] ++ replicate (Z.to_nat ((55 - n) mod 64)) 0 ++ be64 (8 * n).

Fixpoint bytes_of_string (s : string) : list Z :=
  match s with EmptyString => [] | String c s' => code c :: bytes_of_string s' end.

(** Each padded block has 16 words, so the number of words is enough fuel. *)
Definition sha256_words (s : string) : list Z :=
  let ws := words (pad (bytes_of_string s)) in
  foldl compress H256 (blocks (List.length ws) ws).

(** [n] hexadecimal digits of [z], most significant first. *)
Fixpoint hex_digits (n : nat) (z : Z) (acc : string) : string :=
  match n with
  | O => acc
  | S n' => hex_digits n' (z / 16) (String (hex_digit (z mod 16)) acc)
  end.

Definition sha256_hexdigest (s : string) : string :=
  String.concat EmptyString (map (λ w, hex_digits 8 w EmptyString) (sha256_words s)).

Example sha256_empty :
  sha256_hexdigest EmptyString =
  "e3b0c44298fc1c149afbf4c8996fb92427ae41e4649b934ca495991b7852b855".
Proof. vm_compute. reflexivity. Qed.

Example sha256_abc :
  sha256_hexdigest "abc" =
  "ba7816bf8f01cfea414140de5dae2223b00361a396177a9cb410ff61f20015ad".
Proof. vm_compute. reflexivity. Qed.

Example sha256_two_blocks :
  sha256_hexdigest "abcdbcdecdefdefgefghfghighijhijkijkljklmklmnlmnomnopnopq" =
  "248d6a61d20638b8e5c026930c3e6039a33ce45964ff2167f6ecedd419db06c1".
Proof. vm_compute. reflexivity. Qed.

(** ** A digest is 64 lowercase hexadecimal characters *)

Lemma hex_digit_hex d : 0 ≤ d < 16 → is_hex_char (hex_digit d) = true.
Proof.
  intros Hd. unfold is_hex_char, is_digit, hex_digit.
  destruct (d <? 10) eqn:E; rewrite !code_chr by lia; lia.
Qed.

Lemma hex_digits_hex n z acc :
  str_forall is_hex_char acc = true →
  str_forall is_hex_char (hex_digits n z acc) = true ∧
  String.length (hex_digits n z acc) = (n + String.length acc)%nat.
Proof.
  revert z acc. induction n as [|n IH]; intros z acc Ha; simpl; [done|].
  destruct (IH (z / 16) (String (hex_digit (z mod 16)) acc)) as [H1 H2].
  - cbn [str_forall]. rewrite hex_digit_hex by (apply Z.mod_pos_bound; lia). done.
  - split; [done|]. rewrite H2. cbn [String.length]. lia.
Qed.

Lemma sha256_words_length s : List.length (sha256_words s) = 8%nat.
Proof.
  unfold sha256_words. generalize (blocks (List.length (words (pad (bytes_of_string s))))
    (words (pad (bytes_of_string s)))) as bs.
  assert (List.length H256 = 8%nat) as Hst by done. revert Hst.
  generalize H256 as st. intros st Hst bs. revert st Hst.
  induction bs as [|b bs IH]; intros st Hst; simpl; [done|].
  apply IH. unfold compress. rewrite length_zip_with, Hst.
  assert (∀ kws st, List.length st = 8%nat → List.length (foldl round st kws) = 8%nat) as ->.
  { induction kws as [|kw kws IHk]; intros st' H'; simpl; [done|]. apply IHk.
    by do 9 (destruct st' as [|? st']; try discriminate H'). }
  - done.
  - done.
Qed.

Lemma sha256_hexdigest_hex s : hex_match 64 (sha256_hexdigest s) = true.
Proof.
  unfold sha256_hexdigest. pose proof (sha256_words_length s) as Hl.
  revert Hl. generalize (sha256_words s) as ws. intros ws Hl.
  do 9 (destruct ws as [|? ws]; try discriminate Hl).
  unfold hex_match. cbn [map String.concat].
  rewrite !str_length_app, !str_forall_app.
  rewrite !(λ z, proj2 (hex_digits_hex 8 z EmptyString eq_refl)).
  rewrite !(λ z, proj1 (hex_digits_hex 8 z EmptyString eq_refl)). done.
Qed.

Lemma str_take_length n s :
  (n ≤ String.length s)%nat → String.length (str_take n s) = n.
Proof.
  revert s. induction n as [|n IH]; intros [|c s]; simpl; try lia.
  intros H. rewrite IH; lia.
Qed.

Lemma str_forall_take p n s : str_forall p s = true → str_forall p (str_take n s) = true.
Proof.
  intros H. rewrite <- (str_take_drop n s), str_forall_app in H. by bool_prop.
Qed.

(** [hexdigest()[:32]], the form of every trace id the source derives. *)
Lemma sha256_take_hex s : hex_match 32 (str_take 32 (sha256_hexdigest s)) = true.
Proof.
  pose proof (sha256_hexdigest_hex s) as H. unfold hex_match in *. bool_prop.
  rewrite str_take_length, str_forall_take by (done || lia). done.
Qed.
