(* ===== verification/RuntimeProtocol.v ===== *)
(** * runtime_protocol.py: the frozen v1alpha1 record builders

    Constants and rosters, the scope/event registry, the draft data classes,
    the field validators and the five record builders.  Every definition has
    the name of the function or constant it models.  Fields annotated [str]
    are strings; fields annotated [int] are Python objects ([pyval]), because
    the validators discriminate [bool] from [int]. *)

From Stdlib Require Import ZArith Lia Ascii String.
From stdpp Require Import base list strings gmap sorting.
From S2P Require Import Prelude PyValue Sha256.

(** ** Constants (lines 20-60) *)

Definition SCHEMA_VERSION := "rlp.trace/v1alpha1".
Definition KV_RECOVERY_COMMUNICATION_MODE := "issue2:kv-recovery-v1alpha1".
Definition KV_RECOVERY_H2D_EVIDENCE := KV_RECOVERY_COMMUNICATION_MODE +:+ ":h2d_restore".
Definition PARENT_API_MAJOR : Z := 1.
Definition CLOCK_SOURCE := "CLOCK_MONOTONIC".
Definition DATA_CAPACITY_RECORDS : Z := 4096.
Definition RESERVED_CAPACITY_RECORDS : Z := 64.
Definition MAX_RECORD_BYTES : Z := 4096.
Definition MAX_QUEUED_BYTES : Z := 17039360.
Definition MAX_BATCH_RECORDS : Z := 128.
Definition MAX_BATCH_BYTES : Z := 262144.
Definition WRITE_INTERVAL_MS : Z := 100.
Definition CLOSE_TIMEOUT_MS : Z := 2000.
Definition MAX_METADATA_BYTES : Z := 1024.

Definition EXPORTER_LIMITS : pydict :=
  [("data_capacity_records", PInt DATA_CAPACITY_RECORDS);
   ("reserved_capacity_records", PInt RESERVED_CAPACITY_RECORDS);
   ("max_record_bytes", PInt MAX_RECORD_BYTES);
   ("max_queued_bytes", PInt MAX_QUEUED_BYTES);
   ("max_batch_records", PInt MAX_BATCH_RECORDS);
   ("max_batch_bytes", PInt MAX_BATCH_BYTES);
   ("write_interval_ms", PInt WRITE_INTERVAL_MS);
   ("close_timeout_ms", PInt CLOSE_TIMEOUT_MS);
   ("shard_ownership", PStr "one_process_one_append_only_shard")].

Definition _UINT32_MAX : Z := 2 ^ 32 - 1.
Definition _UINT64_MAX : Z := 2 ^ 64 - 1.
Definition _HEX32 := hex_match 32.
Definition _HEX40 := hex_match 40.
Definition _HEX64 := hex_match 64.
Definition _METADATA_KEY := metadata_key_match.
Definition _EVENT_ID := decimal_id_match "e".
Definition _SPAN_ID := decimal_id_match "s".
Definition _HANDOFF_ID := decimal_id_match "h".
Definition _ISSUE_2_EVIDENCE := issue2_evidence_match.
Definition _TRANSFER_ID := decimal_id_match "t".

(** ** Closed rosters (lines 62-140) *)

Definition SCOPES := ["root_request"; "engine_sample"; "response"].
Definition COMPONENTS :=
  ["frontend"; "tokenizer"; "engine_client"; "engine_core"; "output_processor";
   "response"; "transport"; "external_evidence"].
Definition EDGE_KINDS :=
  ["program_order"; "data_dependency"; "submission"; "parent_child";
   "transport_handoff"; "correlated_same_clock_domain"].
Definition EVIDENCE_SOURCES :=
  ["instrumented_execution_context"; "engine_submission"; "lifecycle_creation";
   "engine_output_handoff"; "engine_abort_handoff"; "transport_send_await"].
Definition LOSS_REASONS :=
  ["serialization_failure"; "queue_overflow"; "writer_failure"; "close_timeout"].
Definition UNSUPPORTED_REASONS :=
  ["parallel_sampling"; "beam_search"; "pooling"; "streaming_input"; "cross_host";
   "response_boundary_uninstrumented"; "communication_subtype_unfrozen";
   "zero_compute_prefix_hit"; "kv_connector_enabled"; "heterogeneous_kv_cache";
   "frontend_stop_string"; "multimodal_input"; "prompt_embeds";
   "encoder_decoder_model"; "batched_prompts"].
Definition _FORBIDDEN_METADATA_KEYS :=
  ["api_key"; "authorization"; "client_ip"; "generated_text"; "input_text";
   "messages"; "output_text"; "prompt"; "prompt_text"; "raw_model_output";
   "raw_output"; "request_body"; "token"; "token_ids"].

(** ** Registry of (scope, event) owners (lines 142-230) *)

Definition registry : Type := gmap (string * string) string.

(** [_register(scope, component, *events)] *)
Definition _register (scope component : string) (events : list string)
    (m : gmap (string * string) string) : gmap (string * string) string :=
  foldl (λ m event, <[(scope, event) := component]> m) m events.

Definition _COMPONENT_BY_SCOPE_EVENT : gmap (string * string) string :=
  _register "response" "transport" ["delivery_started"; "delivery_done"; "stream_done"]
  (_register "response" "response"
     ["serialization_started"; "serialization_done"; "cancelled"; "error";
      "cleanup_started"; "cleanup_done"]
  (_register "engine_sample" "external_evidence"
     ["communication_started"; "communication_done"; "request_finished_observed";
      "request_preempted_observed"; "request_kv_reclaimed_observed"]
  (_register "engine_sample" "output_processor" ["first_token"; "output_batch_ready"]
  (_register "engine_sample" "engine_client" ["queued"]
  (_register "engine_sample" "engine_core"
     ["requeued"; "admission_started"; "scheduled"; "resumed"; "prefill_started";
      "prefill_done"; "decode_started"; "decode_done"; "preempted"; "generation_done";
      "aborted"; "cancelled"; "error"; "cleanup_started"; "cleanup_done";
      "resource_acquired"; "resource_transfer_pending"; "resource_released";
      "resource_policy_retained"; "resource_invalidated"]
  (_register "root_request" "output_processor" ["output_ready"]
  (_register "root_request" "engine_client" ["submitted"]
  (_register "root_request" "tokenizer" ["tokenization_started"; "tokenization_done"]
  (_register "root_request" "frontend"
     ["received"; "render_started"; "render_done"; "request_done"; "cancelled";
      "error"; "unsupported_mode"; "cleanup_started"; "cleanup_done"]
   ∅))))))))).

Definition EVENT_NAMES : list string :=
  map (λ kv : (string * string) * string, kv.1.2) (map_to_list _COMPONENT_BY_SCOPE_EVENT).
Definition ABNORMAL_TERMINALS := ["aborted"; "cancelled"; "error"].
Definition TERMINAL_EVENTS :=
  ["request_done"; "generation_done"; "stream_done"] ++ ABNORMAL_TERMINALS.
Definition SPAN_START_EVENTS :=
  ["render_started"; "tokenization_started"; "queued"; "requeued"; "admission_started";
   "prefill_started"; "decode_started"; "communication_started";
   "serialization_started"; "delivery_started"; "cleanup_started"].
Definition SPAN_END_EVENTS :=
  ["render_done"; "tokenization_done"; "admission_started"; "scheduled"; "resumed";
   "prefill_done"; "decode_done"; "communication_done"; "serialization_done";
   "delivery_done"; "stream_done"; "cleanup_done"; "preempted"].

(** ** Data classes (lines 273-323) *)

Definition raise_if (b : bool) (msg : string) : res unit :=
  ensure (negb b) (ProtocolValidationError msg).

Record RuntimeProvenance := mkProvenance {
  profiler_parent_commit : string;
  runtime_core_commit : string;
  device_plugin_commit : string }.

(** [RuntimeProvenance.__post_init__] *)
Definition RuntimeProvenance_post_init (p : RuntimeProvenance) : res unit :=
  res_iter (λ nv : string * string,
    raise_if (negb (_HEX40 nv.2))
      (nv.1 +:+ " must be 40 lowercase hexadecimal characters"))
    [("profiler_parent_commit", profiler_parent_commit p);
     ("runtime_core_commit", runtime_core_commit p);
     ("device_plugin_commit", device_plugin_commit p)].

Record EventDraft := mkEventDraft {
  ev_trace_id : string;
  ev_lifecycle_id : string;
  ev_parent_lifecycle_id : option string;
  ev_scope : string;
  ev_component : string;
  ev_event_name : string;
  ev_timestamp_ns : pyval;
  ev_preemption_epoch : pyval;
  ev_start_span_id : option string;
  ev_end_span_id : option string;
  ev_closing_span_ids : list string;
  ev_sample_index : pyval;
  ev_handoff_index : pyval;
  ev_chunk_index : pyval;
  ev_handoff_id : option string;
  ev_metadata : option pydict }.

Record EdgeDraft := mkEdgeDraft {
  ed_trace_id : string;
  ed_from_event_id : string;
  ed_to_event_id : string;
  ed_edge_kind : string;
  ed_evidence_source : string }.

Record RecordRef := mkRecordRef { record_id : string; record_seq : Z }.

#[export] Instance RecordRef_eq_dec : EqDecision RecordRef.
Proof. solve_decision. Defined.

(** ** Clock domain (lines 334-348) *)

(** [8-4-4-4-12] lowercase hexadecimal digits. *)
Definition boot_uuid_match (s : string) : bool :=
  let d n := String.eqb (str_take 1 (str_drop n s)) "-" in
  let h n k := hex_match k (str_take k (str_drop n s)) in
  (String.length s =? 36)%nat
  && h 0%nat 8%nat && d 8%nat && h 9%nat 4%nat && d 13%nat && h 14%nat 4%nat
  && d 18%nat && h 19%nat 4%nat && d 23%nat && h 24%nat 12%nat.

(** [s.removesuffix(newline)] *)
Fixpoint remove_newline_suffix (s : string) : string :=
  match s with
  | EmptyString => EmptyString
  | String c EmptyString => if code c =? 10 then EmptyString else s
  | String c s' => String c (remove_newline_suffix s')
  end.

(** [str(uuid.UUID(x))] is the identity on a lowercase dashed UUID, so the
    second canonicality test of the source never fires. *)
Definition derive_clock_domain_id (boot_id_text : pyval) : res string :=
  match boot_id_text with
  | PStr text =>
      let canonical := remove_newline_suffix text in
      raise_if (negb (boot_uuid_match canonical))
        "boot ID is not a canonical lowercase UUID" ;;
      Ok (str_take 32 (sha256_hexdigest
            (canonical +:+ String (chr 0) EmptyString +:+ CLOCK_SOURCE)))
  | _ => Raise (ProtocolValidationError "boot ID must be text")
  end.

(** ** Canonical encoding (lines 357-371) *)

Definition newline : string := String (chr 10) EmptyString.

Definition canonical_json_line (record : pydict) : res string :=
  match json_dumps (PDict record) with
  | None => Raise (ProtocolValidationError "record is not deterministic JSON")
  | Some rendered =>
      let encoded := utf8_encode rendered +:+ newline in
      raise_if (MAX_RECORD_BYTES <? Z.of_nat (String.length encoded))
        "encoded record exceeds 4096 bytes" ;;
      Ok encoded
  end.

(** ** Primitive validators (lines 1028-1069) *)

Definition _require_hex32 (field_name : string) (value : pyval) : res unit :=
  raise_if (match value with PStr s => negb (_HEX32 s) | _ => true end)
    (field_name +:+ " must be 32 lowercase hexadecimal characters").

Definition int_of (v : pyval) : Z :=
  match v with PInt z => z | PBool true => 1 | _ => 0 end.

Definition _require_uint (field_name : string) (value : pyval) (maximum : Z) : res unit :=
  raise_if (is_bool value || negb (is_int value))
    (field_name +:+ " must be an unsigned integer") ;;
  raise_if ((int_of value <? 0) || (maximum <? int_of value))
    (field_name +:+ " is out of range").

Definition _validate_optional_uint (field_name : string) (value : pyval) (maximum : Z)
    : res unit :=
  if is_none value then Ok tt else _require_uint field_name value maximum.

Definition _required_metadata_uint (metadata : pydict) (key : string) : res Z :=
  let value := dict_get metadata key in
  raise_if (is_bool value || negb (is_int value)) ("metadata requires uint64 " +:+ key) ;;
  _require_uint ("metadata." +:+ key) value _UINT64_MAX ;;
  Ok (int_of value).

Definition _validate_decimal_id (field_name : string) (value : option string)
    (pattern : string → bool) (kind : string) (maximum_bytes maximum_sequence : Z)
    : res unit :=
  let bad := ProtocolValidationError
    (field_name +:+ " is not a canonical " +:+ kind +:+ " ID") in
  match value with
  | None => Raise bad
  | Some value =>
      ensure (pattern value) bad ;;
      raise_if (maximum_bytes <? Z.of_nat (String.length value))
        (field_name +:+ " exceeds the byte limit") ;;
      _require_uint (field_name +:+ " sequence")
        (PInt (int_of_digits 0 (rsplit_last value value))) maximum_sequence
  end.

(** ** Event validation (lines 615-1025) *)

(** The text of an object in an f-string.  The text of a container is not
    modelled: such a value is refused by the unsigned integer test that
    follows every use. *)
Definition py_format (v : pyval) : string :=
  match v with
  | PNone => "None"
  | PBool b => if b then "True" else "False"
  | PInt z => str_of_Z z
  | PStr s => s
  | PList _ | PDict _ | POther => "<object>"
  end.

Definition opt_eqb (o : option string) (s : string) : bool :=
  match o with Some s' => String.eqb s' s | None => false end.

Definition _validate_lifecycle_identity (draft : EventDraft) : res unit :=
  let root_id := ev_trace_id draft +:+ ":r" in
  (if String.eqb (ev_scope draft) "root_request" then
     raise_if (negb (String.eqb (ev_lifecycle_id draft) root_id)
               || is_some_b (ev_parent_lifecycle_id draft))
       "root lifecycle identity is invalid"
   else if String.eqb (ev_scope draft) "engine_sample" then
     raise_if (is_none (ev_sample_index draft))
       "engine lifecycle requires sample_index" ;;
     let expected := ev_trace_id draft +:+ ":e:" +:+ py_format (ev_sample_index draft) in
     raise_if (negb (String.eqb (ev_lifecycle_id draft) expected)
               || negb (opt_eqb (ev_parent_lifecycle_id draft) root_id))
       "engine lifecycle identity is invalid"
   else
     let expected := ev_trace_id draft +:+ ":s" in
     raise_if (negb (String.eqb (ev_lifecycle_id draft) expected)
               || negb (opt_eqb (ev_parent_lifecycle_id draft) root_id))
       "response lifecycle identity is invalid") ;;
  res_iter (λ value : option string,
    raise_if (match value with
              | Some s => 96 <? Z.of_nat (String.length s)
              | None => false
              end) "lifecycle ID exceeds 96 bytes")
    [Some (ev_lifecycle_id draft); ev_parent_lifecycle_id draft].

(** [tuple(sorted(set(l))) == l] *)
Definition sorted_unique (l : list string) : bool :=
  bool_decide (merge_sort String.le (remove_dups l) = l).

Definition _validate_span_fields (draft : EventDraft) (process_uuid : string) : res unit :=
  let closing := ev_closing_span_ids draft in
  raise_if ((16 <? Z.of_nat (List.length closing)) || negb (sorted_unique closing))
    "closing_span_ids must be sorted, unique, and bounded" ;;
  res_iter (λ span_id : option string,
    match span_id with
    | None => Ok tt
    | Some _ => _validate_decimal_id "span_id" span_id _SPAN_ID "span" 55 _UINT64_MAX
    end) (map Some closing ++ [ev_start_span_id draft; ev_end_span_id draft]) ;;
  raise_if (match ev_start_span_id draft with
            | Some s => negb (String.prefix (process_uuid +:+ ":s:") s)
            | None => false
            end) "span creator must match the start emitter" ;;
  if str_in (ev_event_name draft) ABNORMAL_TERMINALS then
    raise_if (is_some_b (ev_start_span_id draft) || is_some_b (ev_end_span_id draft))
      "abnormal terminals use closing_span_ids, not singular span fields"
  else
    raise_if (match closing with [] => false | _ => true end)
      "non-abnormal events require an empty closing_span_ids array" ;;
    raise_if (negb (Bool.eqb (is_some_b (ev_start_span_id draft))
                        (str_in (ev_event_name draft) SPAN_START_EVENTS)))
      "start_span_id does not match event boundary" ;;
    raise_if (negb (Bool.eqb (is_some_b (ev_end_span_id draft))
                        (str_in (ev_event_name draft) SPAN_END_EVENTS)))
      "end_span_id does not match event boundary".

Definition indexed_handoff_events := ["output_batch_ready"; "output_ready"].
Definition chunk_events :=
  ["serialization_started"; "serialization_done"; "delivery_started"; "delivery_done";
   "stream_done"].

Definition _validate_handoff_and_chunk (draft : EventDraft) : res unit :=
  (if str_in (ev_event_name draft) indexed_handoff_events then
     raise_if (is_none (ev_handoff_index draft)) "handoff event requires handoff_index" ;;
     let expected := ev_trace_id draft +:+ ":h:" +:+ py_format (ev_handoff_index draft) in
     raise_if (negb (opt_eqb (ev_handoff_id draft) expected)) "handoff_id is not canonical"
   else if String.eqb (ev_event_name draft) "serialization_started" then
     raise_if (negb (is_none (ev_handoff_index draft)))
       "serialization_started requires a null handoff_index" ;;
     _validate_decimal_id "handoff_id" (ev_handoff_id draft) _HANDOFF_ID "handoff" 55
       _UINT32_MAX ;;
     raise_if (match ev_handoff_id draft with
               | Some s => negb (String.prefix (ev_trace_id draft +:+ ":h:") s)
               | None => true
               end) "handoff_id belongs to a different trace"
   else
     raise_if (negb (is_none (ev_handoff_index draft)) || is_some_b (ev_handoff_id draft))
       "non-handoff event contains handoff fields") ;;
  if str_in (ev_event_name draft) chunk_events then
    raise_if (negb (String.eqb (ev_scope draft) "response")
              || is_none (ev_chunk_index draft))
      "response chunk event requires chunk_index"
  else
    raise_if (negb (is_none (ev_chunk_index draft)))
      "non-chunk event contains chunk_index".

(** One entry of the metadata loop. *)
Definition validate_metadata_item (kv : string * pyval) : res unit :=
  raise_if (negb (_METADATA_KEY kv.1)) "metadata key is not bounded ASCII" ;;
  raise_if (str_in kv.1 _FORBIDDEN_METADATA_KEYS)
    "metadata contains forbidden payload data" ;;
  match kv.2 with
  | PNone | PBool _ => Ok tt
  | PInt _ => _require_uint ("metadata." +:+ kv.1) kv.2 _UINT64_MAX
  | PStr s =>
      raise_if (negb (printable_ascii s)) "metadata string must be printable ASCII" ;;
      raise_if (128 <? Z.of_nat (String.length s)) "metadata string exceeds 128 bytes"
  | _ => Raise (ProtocolValidationError "metadata value type is not frozen")
  end.

Definition _validate_metadata (metadata : option pydict) : res pydict :=
  match metadata with
  | None => Ok []
  | Some metadata =>
      res_iter validate_metadata_item metadata ;;
      match json_dumps (PDict metadata) with
      | None => Raise TypeError
      | Some rendered =>
          raise_if (MAX_METADATA_BYTES <? Z.of_nat (String.length (utf8_encode rendered)))
            "metadata exceeds 1024 encoded bytes" ;;
          Ok metadata
      end
  end.

(** [not isinstance(v, str) or not v] *)
Definition not_nonempty_str (v : pyval) : bool := negb (is_str v) || negb (truthy v).

Definition expected_transition (event_name : string) : pyval :=
  dict_get [("resource_acquired", PStr "acquire");
            ("resource_transfer_pending", PStr "transfer_pending");
            ("resource_released", PStr "release");
            ("resource_policy_retained", PStr "policy_retain");
            ("resource_invalidated", PStr "invalidate")] event_name.

(** Lines 852-887. *)
Definition validate_resource_metadata (draft : EventDraft) (metadata : pydict) : res unit :=
  if String.prefix "resource_" (ev_event_name draft) then
    raise_if (negb (keys_are metadata
      ["runtime_request_id"; "resource_type"; "resource_id"; "resource_transition";
       "resource_units"; "worker_generation"])) "resource metadata keys differ" ;;
    raise_if (match expected_transition (ev_event_name draft) with
              | PStr t => negb (eq_str (dict_get metadata "resource_transition") t)
              | _ => true
              end) "resource transition/event mismatch" ;;
    res_iter (λ key, raise_if (not_nonempty_str (dict_get metadata key))
      ("resource metadata " +:+ key +:+ " is invalid"))
      ["runtime_request_id"; "resource_type"; "resource_id"; "worker_generation"] ;;
    raise_if (negb (is_int (dict_get metadata "resource_units"))
              || negb ((1 <=? int_of (dict_get metadata "resource_units"))
                       && (int_of (dict_get metadata "resource_units") <=? _UINT64_MAX)))
      "resource metadata resource_units is invalid"
  else Ok tt.

Definition native_event_keys (event_name : string) : option (list string) :=
  if String.eqb event_name "request_finished_observed" then
    Some ["runtime_request_id"; "session_present"; "prompt_tokens"; "output_tokens";
          "sequence_tokens"; "kv_blocks"; "kv_reclaim_deferred"; "finished_reason"]
  else if String.eqb event_name "request_preempted_observed" then
    Some ["runtime_request_id"; "session_present"; "num_preemptions"; "kv_blocks";
          "kv_reclaim_deferred"]
  else if String.eqb event_name "request_kv_reclaimed_observed" then
    Some ["runtime_request_id"; "session_present"; "kv_blocks"; "reclaim_path"]
  else None.

(** Lines 889-946. *)
Definition validate_native_metadata (draft : EventDraft) (metadata : pydict) : res unit :=
  match native_event_keys (ev_event_name draft) with
  | None => Ok tt
  | Some expected_native_keys =>
      raise_if (negb (keys_are metadata expected_native_keys))
        "native lifecycle metadata keys differ" ;;
      raise_if (not_nonempty_str (dict_get metadata "runtime_request_id"))
        "native lifecycle request ID is invalid" ;;
      raise_if (negb (is_bool (dict_get metadata "session_present")))
        "native lifecycle session flag is invalid" ;;
      res_iter (λ key, _required_metadata_uint metadata key ;; Ok tt)
        (filter (λ key, key ∉ ["runtime_request_id"; "session_present";
                               "kv_reclaim_deferred"; "finished_reason"; "reclaim_path"])
           expected_native_keys) ;;
      raise_if (str_in "kv_reclaim_deferred" expected_native_keys
                && negb (is_bool (dict_get metadata "kv_reclaim_deferred")))
        "native lifecycle deferred flag is invalid" ;;
      (if String.eqb (ev_event_name draft) "request_finished_observed" then
         raise_if (negb (int_of (dict_get metadata "sequence_tokens") =?
                         int_of (dict_get metadata "prompt_tokens")
                         + int_of (dict_get metadata "output_tokens")))
           "native lifecycle token counts differ" ;;
         raise_if (not_nonempty_str (dict_get metadata "finished_reason"))
           "native lifecycle finish reason is invalid"
       else Ok tt) ;;
      (if String.eqb (ev_event_name draft) "request_kv_reclaimed_observed" then
         b ← in_strs (dict_get metadata "reclaim_path") ["immediate"; "deferred"];
         raise_if (negb b) "native lifecycle reclaim path is invalid"
       else Ok tt)
  end.

(** [metadata.get(key) not in roster] *)
Definition raise_not_in (metadata : pydict) (key : string) (roster : list string)
    (msg : string) : res unit :=
  b ← in_strs (dict_get metadata key) roster;
  raise_if (negb b) msg.

(** Lines 948-1004: admission metadata of the root [received] event. *)
Definition validate_received_metadata (draft : EventDraft) (metadata : pydict) : res unit :=
  if String.eqb (ev_scope draft) "root_request"
     && String.eqb (ev_event_name draft) "received" then
    raise_if (negb (eq_int (dict_get metadata "sampling_n") 1))
      "received metadata requires sampling_n" ;;
    raise_if (negb (eq_int (dict_get metadata "prompt_count") 1))
      "received metadata requires prompt_count" ;;
    res_iter (λ ke : string * string,
      raise_if (negb (eq_str (dict_get metadata ke.1) ke.2))
        ("received metadata requires " +:+ ke.1))
      [("model_mode", "decoder_only"); ("frontend_stop_mode", "none");
       ("communication_mode", "none")] ;;
    raise_not_in metadata "entry_mode" ["openai_http"; "async_llm"; "llm_engine"]
      "received entry_mode is unsupported" ;;
    raise_not_in metadata "input_mode" ["text"; "pretokenized"]
      "received input_mode is unsupported" ;;
    raise_not_in metadata "response_mode" ["streaming"; "non_streaming"; "none"]
      "received response_mode is unsupported" ;;
    raise_if (eq_str (dict_get metadata "entry_mode") "openai_http"
              && eq_str (dict_get metadata "response_mode") "none")
      "OpenAI entry requires a response mode" ;;
    raise_if (negb (eq_str (dict_get metadata "entry_mode") "openai_http")
              && negb (eq_str (dict_get metadata "response_mode") "none"))
      "direct entry requires response_mode=none" ;;
    raise_not_in metadata "kv_cache_mode" ["disabled"; "local_homogeneous"]
      "received kv_cache_mode is unsupported" ;;
    let cache_block_size := dict_get metadata "cache_block_size_tokens" in
    if eq_str (dict_get metadata "kv_cache_mode") "local_homogeneous" then
      raise_if (is_bool cache_block_size || negb (is_int cache_block_size)
                || (int_of cache_block_size <? 1))
        "local homogeneous KV requires cache_block_size_tokens"
    else
      raise_if (negb (is_none cache_block_size))
        "disabled KV forbids cache_block_size_tokens"
  else Ok tt.

Definition cleanup_component_of (scope : string) : pyval :=
  dict_get [("root_request", PStr "frontend_request");
            ("engine_sample", PStr "engine_request");
            ("response", PStr "response_stream")] scope.

(** Lines 1005-1025. *)
Definition validate_phase_metadata (draft : EventDraft) (metadata : pydict) : res unit :=
  let name := ev_event_name draft in
  (if String.eqb name "unsupported_mode" then
     raise_not_in metadata "reason_code" UNSUPPORTED_REASONS
       "unsupported_mode requires frozen reason_code"
   else Ok tt) ;;
  (if str_in name ["cleanup_started"; "cleanup_done"] then
     raise_if (match cleanup_component_of (ev_scope draft) with
               | PStr e => negb (eq_str (dict_get metadata "cleanup_component") e)
               | _ => true
               end) "cleanup_component does not match scope"
   else Ok tt) ;;
  (if str_in name ["scheduled"; "resumed"] then
     total ← _required_metadata_uint metadata "prompt_tokens_total";
     cached ← _required_metadata_uint metadata "prompt_tokens_cached";
     to_compute ← _required_metadata_uint metadata "prompt_tokens_to_compute";
     raise_if ((total <? 1) || (total <=? cached) || negb (to_compute =? total - cached))
       "prompt token counters do not reconcile"
   else Ok tt) ;;
  (if str_in name ["prefill_done"; "preempted"] then
     _required_metadata_uint metadata "prompt_tokens_computed" ;;
     chunks ← _required_metadata_uint metadata "prefill_chunk_count";
     raise_if (chunks <? 1) "prefill_chunk_count must be positive"
   else Ok tt) ;;
  (if String.eqb name "generation_done" then
     generated ← _required_metadata_uint metadata "generated_tokens_total";
     raise_if (generated <? 1) "generated_tokens_total must be positive"
   else Ok tt).

Definition _validate_event_metadata (draft : EventDraft) (metadata : pydict) : res unit :=
  validate_resource_metadata draft metadata ;;
  validate_native_metadata draft metadata ;;
  validate_received_metadata draft metadata ;;
  validate_phase_metadata draft metadata.

Definition _validate_kv_recovery_communication_metadata
    (draft : EventDraft) (metadata : pydict) : res unit :=
  let done := String.eqb (ev_event_name draft) "communication_done" in
  let common_keys := ["operation"; "direction"; "transfer_id"; "block_set_id";
                      "recovery_profile"; "communication_mapping"; "rank"] in
  raise_if (negb (keys_are metadata (common_keys ++ if done then ["bytes_moved"] else [])))
    "recovery communication metadata keys differ" ;;
  raise_if (negb (eq_str (dict_get metadata "operation") "h2d_restore"))
    "recovery operation is not h2d_restore" ;;
  raise_if (negb (eq_str (dict_get metadata "direction") "h2d"))
    "recovery direction is not h2d" ;;
  raise_if (match dict_get metadata "transfer_id" with
            | PStr s => negb (_TRANSFER_ID s) | _ => true end)
    "recovery transfer_id is invalid" ;;
  raise_if (match dict_get metadata "block_set_id" with
            | PStr s => negb (_HEX64 s) | _ => true end)
    "recovery metadata block_set_id is invalid" ;;
  raise_if (negb (eq_str (dict_get metadata "recovery_profile") "rlp.kv-recovery/v1alpha1"))
    "recovery profile ID is invalid" ;;
  raise_if (negb (eq_str (dict_get metadata "communication_mapping")
                         KV_RECOVERY_COMMUNICATION_MODE))
    "communication mapping ID is invalid" ;;
  raise_if (negb (eq_int (dict_get metadata "rank") 0))
    "recovery communication requires rank zero" ;;
  if done then
    moved ← _required_metadata_uint metadata "bytes_moved";
    raise_if (moved <? 1) "bytes_moved must be positive"
  else Ok tt.

Definition _validate_event_draft (draft : EventDraft) (process_uuid : string)
    (timestamp_ns : pyval) (communication_mode : string) : res unit :=
  _require_hex32 "trace_id" (PStr (ev_trace_id draft)) ;;
  _require_uint "timestamp_ns" timestamp_ns _UINT64_MAX ;;
  raise_if (negb (str_in (ev_scope draft) SCOPES)) "scope is not frozen" ;;
  raise_if (negb (str_in (ev_component draft) COMPONENTS)) "component is not frozen" ;;
  raise_if (negb (str_in (ev_event_name draft) EVENT_NAMES)) "event_name is not frozen" ;;
  raise_if (negb (opt_eqb (_COMPONENT_BY_SCOPE_EVENT !! (ev_scope draft, ev_event_name draft))
                          (ev_component draft)))
    "component/event/scope ownership mismatch" ;;
  let is_communication := String.prefix "communication_" (ev_event_name draft) in
  raise_if (is_communication
            && negb (String.eqb communication_mode KV_RECOVERY_COMMUNICATION_MODE))
    "communication event mode is not active" ;;
  raise_if (negb is_communication
            && negb (str_in communication_mode ["none"; KV_RECOVERY_COMMUNICATION_MODE]))
    "communication_mode is not implemented" ;;
  _validate_lifecycle_identity draft ;;
  _validate_optional_uint "preemption_epoch" (ev_preemption_epoch draft) _UINT32_MAX ;;
  _validate_optional_uint "sample_index" (ev_sample_index draft) _UINT32_MAX ;;
  _validate_optional_uint "handoff_index" (ev_handoff_index draft) _UINT32_MAX ;;
  _validate_optional_uint "chunk_index" (ev_chunk_index draft) _UINT32_MAX ;;
  (if String.eqb (ev_scope draft) "engine_sample" then
     raise_if (is_none (ev_preemption_epoch draft) || is_none (ev_sample_index draft))
       "engine events require preemption_epoch and sample_index"
   else
     raise_if (negb (is_none (ev_preemption_epoch draft))
               || negb (is_none (ev_sample_index draft)))
       "non-engine events forbid preemption_epoch and sample_index") ;;
  _validate_span_fields draft process_uuid ;;
  _validate_handoff_and_chunk draft ;;
  metadata ← _validate_metadata (ev_metadata draft);
  _validate_event_metadata draft metadata ;;
  if is_communication then _validate_kv_recovery_communication_metadata draft metadata
  else Ok tt.

(** ** Record builders (lines 374-612) *)

Definition py_opt_str (o : option string) : pyval :=
  match o with Some s => PStr s | None => PNone end.

Definition build_process_start_record (process_uuid : string) (pid started_timestamp_ns : pyval)
    (clock_domain_id : string) (provenance : RuntimeProvenance) : res pydict :=
  _require_hex32 "process_uuid" (PStr process_uuid) ;;
  _require_uint "pid" pid _UINT32_MAX ;;
  _require_uint "started_timestamp_ns" started_timestamp_ns _UINT64_MAX ;;
  _require_hex32 "clock_domain_id" (PStr clock_domain_id) ;;
  Ok [("schema_version", PStr SCHEMA_VERSION);
      ("record_type", PStr "process_start");
      ("process_uuid", PStr process_uuid);
      ("pid", pid);
      ("started_timestamp_ns", started_timestamp_ns);
      ("clock_source", PStr CLOCK_SOURCE);
      ("clock_domain_id", PStr clock_domain_id);
      ("profiler_parent_commit", PStr (profiler_parent_commit provenance));
      ("runtime_core_commit", PStr (runtime_core_commit provenance));
      ("device_plugin_commit", PStr (device_plugin_commit provenance));
      ("parent_api_major", PInt PARENT_API_MAJOR);
      ("limits", PDict EXPORTER_LIMITS)].

Definition event_id_of (process_uuid : string) (seq : Z) : string :=
  make_id process_uuid "e" seq.
Definition edge_id_of (process_uuid : string) (seq : Z) : string :=
  make_id process_uuid "g" seq.
Definition loss_id_of (process_uuid : string) (seq : Z) : string :=
  make_id process_uuid "l" seq.

Definition build_event_record (draft : EventDraft) (process_uuid clock_domain_id : string)
    (record_seq : Z) (default_timestamp_ns : Z) (communication_mode : string)
    : res (pydict * RecordRef) :=
  _require_hex32 "process_uuid" (PStr process_uuid) ;;
  _require_hex32 "clock_domain_id" (PStr clock_domain_id) ;;
  _require_uint "record_seq" (PInt record_seq) _UINT64_MAX ;;
  let timestamp_ns := if is_none (ev_timestamp_ns draft) then PInt default_timestamp_ns
                      else ev_timestamp_ns draft in
  _validate_event_draft draft process_uuid timestamp_ns communication_mode ;;
  let event_id := event_id_of process_uuid record_seq in
  Ok ([("schema_version", PStr SCHEMA_VERSION);
       ("record_type", PStr "event");
       ("process_uuid", PStr process_uuid);
       ("record_seq", PInt record_seq);
       ("event_id", PStr event_id);
       ("trace_id", PStr (ev_trace_id draft));
       ("lifecycle_id", PStr (ev_lifecycle_id draft));
       ("parent_lifecycle_id", py_opt_str (ev_parent_lifecycle_id draft));
       ("scope", PStr (ev_scope draft));
       ("component", PStr (ev_component draft));
       ("event_name", PStr (ev_event_name draft));
       ("timestamp_ns", timestamp_ns);
       ("clock_domain_id", PStr clock_domain_id);
       ("preemption_epoch", ev_preemption_epoch draft);
       ("start_span_id", py_opt_str (ev_start_span_id draft));
       ("end_span_id", py_opt_str (ev_end_span_id draft));
       ("closing_span_ids", PList (map PStr (ev_closing_span_ids draft)));
       ("sample_index", ev_sample_index draft);
       ("handoff_index", ev_handoff_index draft);
       ("chunk_index", ev_chunk_index draft);
       ("handoff_id", py_opt_str (ev_handoff_id draft));
       ("metadata", PDict (default [] (ev_metadata draft)))],
      mkRecordRef event_id record_seq).

Definition build_edge_record (draft : EdgeDraft) (process_uuid : string) (record_seq : Z)
    (communication_mode : string) : res (pydict * RecordRef) :=
  raise_if (negb (str_in communication_mode ["none"; KV_RECOVERY_COMMUNICATION_MODE]))
    "communication_mode is not implemented" ;;
  _require_hex32 "process_uuid" (PStr process_uuid) ;;
  _require_hex32 "trace_id" (PStr (ed_trace_id draft)) ;;
  _require_uint "record_seq" (PInt record_seq) _UINT64_MAX ;;
  _validate_decimal_id "from_event_id" (Some (ed_from_event_id draft)) _EVENT_ID "event" 55
    _UINT64_MAX ;;
  _validate_decimal_id "to_event_id" (Some (ed_to_event_id draft)) _EVENT_ID "event" 55
    _UINT64_MAX ;;
  raise_if (String.eqb (ed_from_event_id draft) (ed_to_event_id draft))
    "an edge cannot be a self-edge" ;;
  raise_if (negb (str_in (ed_edge_kind draft) EDGE_KINDS)) "edge_kind is not frozen" ;;
  (if str_in (ed_evidence_source draft) EVIDENCE_SOURCES then Ok tt
   else if _ISSUE_2_EVIDENCE (ed_evidence_source draft) then
     raise_if (negb (String.eqb communication_mode KV_RECOVERY_COMMUNICATION_MODE)
               || negb (String.eqb (ed_evidence_source draft) KV_RECOVERY_H2D_EVIDENCE)
               || negb (String.eqb (ed_edge_kind draft) "data_dependency"))
       "issue-2 evidence is forbidden outside the frozen recovery mapping"
   else Raise (ProtocolValidationError "evidence_source is not frozen")) ;;
  raise_if (64 <? Z.of_nat (String.length (ed_evidence_source draft)))
    "evidence_source exceeds 64 bytes" ;;
  let edge_id := edge_id_of process_uuid record_seq in
  Ok ([("schema_version", PStr SCHEMA_VERSION);
       ("record_type", PStr "edge");
       ("process_uuid", PStr process_uuid);
       ("record_seq", PInt record_seq);
       ("edge_id", PStr edge_id);
       ("trace_id", PStr (ed_trace_id draft));
       ("from_event_id", PStr (ed_from_event_id draft));
       ("to_event_id", PStr (ed_to_event_id draft));
       ("edge_kind", PStr (ed_edge_kind draft));
       ("evidence_source", PStr (ed_evidence_source draft))],
      mkRecordRef edge_id record_seq).

(** Validate a list of named unsigned integers in order. *)
Definition require_uints (l : list (string * Z)) : res unit :=
  res_iter (λ nv : string * Z, _require_uint nv.1 (PInt nv.2) _UINT64_MAX) l.

Definition build_loss_interval_record (process_uuid : string) (loss_interval_seq : Z)
    (reason : string) (first_dropped_record_seq last_dropped_record_seq : Z)
    (event_count edge_count : Z)
    (first_observed_timestamp_ns last_observed_timestamp_ns : Z) : res pydict :=
  _require_hex32 "process_uuid" (PStr process_uuid) ;;
  _require_uint "loss_interval_seq" (PInt loss_interval_seq) _UINT64_MAX ;;
  raise_if (negb (str_in reason LOSS_REASONS)) "loss reason is not frozen" ;;
  require_uints [("first_dropped_record_seq", first_dropped_record_seq);
                 ("last_dropped_record_seq", last_dropped_record_seq);
                 ("event_count", event_count);
                 ("edge_count", edge_count);
                 ("first_observed_timestamp_ns", first_observed_timestamp_ns);
                 ("last_observed_timestamp_ns", last_observed_timestamp_ns)] ;;
  let dropped_count := event_count + edge_count in
  _require_uint "dropped_count" (PInt dropped_count) _UINT64_MAX ;;
  raise_if (last_dropped_record_seq <? first_dropped_record_seq)
    "loss interval is inverted" ;;
  raise_if (last_observed_timestamp_ns <? first_observed_timestamp_ns)
    "loss observation timestamps are inverted" ;;
  raise_if (negb (dropped_count =? last_dropped_record_seq - first_dropped_record_seq + 1))
    "loss interval counts do not reconcile" ;;
  Ok [("schema_version", PStr SCHEMA_VERSION);
      ("record_type", PStr "loss_interval");
      ("process_uuid", PStr process_uuid);
      ("loss_interval_seq", PInt loss_interval_seq);
      ("loss_interval_id", PStr (loss_id_of process_uuid loss_interval_seq));
      ("reason", PStr reason);
      ("first_dropped_record_seq", PInt first_dropped_record_seq);
      ("last_dropped_record_seq", PInt last_dropped_record_seq);
      ("dropped_count", PInt dropped_count);
      ("event_count", PInt event_count);
      ("edge_count", PInt edge_count);
      ("first_observed_timestamp_ns", PInt first_observed_timestamp_ns);
      ("last_observed_timestamp_ns", PInt last_observed_timestamp_ns)].

Definition CLOSE_OUTCOMES := ["drained"; "timeout"; "writer_failure"].

Definition build_process_summary_record (process_uuid : string)
    (ended_timestamp_ns : pyval) (attempted_data_count written_event_count written_edge_count
     written_loss_interval_count dropped_data_count dropped_control_count
     writer_failure_count : Z) (close_outcome content_sha256 : string) : res pydict :=
  _require_hex32 "process_uuid" (PStr process_uuid) ;;
  _require_uint "ended_timestamp_ns" ended_timestamp_ns _UINT64_MAX ;;
  require_uints [("attempted_data_count", attempted_data_count);
                 ("written_event_count", written_event_count);
                 ("written_edge_count", written_edge_count);
                 ("written_loss_interval_count", written_loss_interval_count);
                 ("dropped_data_count", dropped_data_count);
                 ("dropped_control_count", dropped_control_count);
                 ("writer_failure_count", writer_failure_count)] ;;
  raise_if (negb (str_in close_outcome CLOSE_OUTCOMES)) "close_outcome is not frozen" ;;
  raise_if (negb (_HEX64 content_sha256)) "content_sha256 is not lowercase SHA-256" ;;
  raise_if (negb (attempted_data_count =?
                  written_event_count + written_edge_count + dropped_data_count))
    "process summary counts do not reconcile" ;;
  let some_data := negb (attempted_data_count =? 0) in
  Ok [("schema_version", PStr SCHEMA_VERSION);
      ("record_type", PStr "process_summary");
      ("process_uuid", PStr process_uuid);
      ("ended_timestamp_ns", ended_timestamp_ns);
      ("attempted_data_count", PInt attempted_data_count);
      ("written_event_count", PInt written_event_count);
      ("written_edge_count", PInt written_edge_count);
      ("written_loss_interval_count", PInt written_loss_interval_count);
      ("dropped_data_count", PInt dropped_data_count);
      ("dropped_control_count", PInt dropped_control_count);
      ("first_data_record_seq", if some_data then PInt 0 else PNone);
      ("last_data_record_seq", if some_data then PInt (attempted_data_count - 1) else PNone);
      ("writer_failure_count", PInt writer_failure_count);
      ("close_outcome", PStr close_outcome);
      ("content_sha256", PStr content_sha256)].

(** ** Helper lemmas *)

#[global] Arguments _validate_decimal_id : simpl never.
#[global] Arguments _require_uint : simpl never.
#[global] Arguments _require_hex32 : simpl never.
#[global] Arguments _required_metadata_uint : simpl never.
#[global] Arguments raise_if : simpl never.
#[global] Arguments sorted_unique : simpl never.
#[global] Arguments event_id_of : simpl never.
#[global] Opaque _COMPONENT_BY_SCOPE_EVENT EVENT_NAMES.

Lemma raise_if_ok b msg u : raise_if b msg = Ok u ↔ b = false.
Proof. unfold raise_if. rewrite ensure_ok. by rewrite negb_true_iff. Qed.
#[export] Hint Rewrite raise_if_ok : rlp_ok.
#[global] Arguments str_in : simpl never.

(** Prove [c1 ;; c2 = Ok _] step by step. *)
Ltac bind_step := cbv beta zeta; apply bind_ok; exists tt; split; cbv beta zeta.

(** [inv_ok] extended with the validators' [raise_if]. *)
Ltac inv_res :=
  repeat (progress inv_ok || match goal with
  | H : raise_if _ _ = Ok _ |- _ => apply raise_if_ok in H
  end).

Definition uint64 (z : Z) : Prop := 0 ≤ z ≤ _UINT64_MAX.

Lemma _require_uint_ok f v m u :
  _require_uint f v m = Ok u ↔ ∃ z, v = PInt z ∧ 0 ≤ z ≤ m.
Proof.
  unfold _require_uint. split.
  - intros H. inv_res. destruct v; simpl in *; try discriminate.
    bool_prop. eauto.
  - intros (z & -> & Hz). destruct u. simpl.
    rewrite (proj2 (Z.ltb_ge z 0)), (proj2 (Z.ltb_ge m z)) by lia. done.
Qed.

Lemma _require_hex32_ok f v u : _require_hex32 f v = Ok u ↔ ∃ s, v = PStr s ∧ _HEX32 s = true.
Proof.
  unfold _require_hex32. rewrite raise_if_ok. split.
  - destruct v; simpl; try done. intros ?%negb_false_iff. eauto.
  - intros (s & -> & ->). done.
Qed.

(** [inv_res] extended with the primitive validators. *)
Ltac inv_valid :=
  repeat (progress inv_res || match goal with
  | H : _require_uint _ _ _ = Ok _ |- _ => apply _require_uint_ok in H as (? & ? & ?)
  | H : _require_hex32 _ _ = Ok _ |- _ => apply _require_hex32_ok in H as (? & ? & ?)
  end).

Lemma _validate_optional_uint_ok f v m u :
  _validate_optional_uint f v m = Ok u ↔ v = PNone ∨ ∃ z, v = PInt z ∧ 0 ≤ z ≤ m.
Proof.
  unfold _validate_optional_uint. destruct v; simpl;
    try (rewrite _require_uint_ok; split; [by right|by intros [?|?]]).
  destruct u. split; [by left|done].
Qed.

Lemma require_uints_ok l u :
  require_uints l = Ok u ↔ Forall (λ nv, uint64 nv.2) l.
Proof.
  unfold require_uints. rewrite res_iter_ok.
  split; intros H; (eapply Forall_impl; [exact H|]); intros [n z]; simpl.
  - rewrite _require_uint_ok. intros (? & [= <-] & ?). done.
  - intros. apply _require_uint_ok. eauto.
Qed.

Lemma _validate_decimal_id_ok f v p k mb ms u :
  _validate_decimal_id f v p k mb ms = Ok u ↔
  ∃ s, v = Some s ∧ p s = true ∧ Z.of_nat (String.length s) ≤ mb ∧
       0 ≤ int_of_digits 0 (rsplit_last s s) ≤ ms.
Proof.
  unfold _validate_decimal_id. destruct v as [s|]; [|split; [done|by intros (?&?&?)]]. split.
  - intros H. inv_valid. simplify_eq. bool_prop. eauto 10.
  - intros (? & [= <-] & Hp & Hl & Hs). rewrite Hp. simpl.
    rewrite (proj2 (Z.ltb_ge _ _)) by lia. simpl. apply _require_uint_ok. eauto.
Qed.

Lemma _required_metadata_uint_ok md k z :
  _required_metadata_uint md k = Ok z ↔ dict_get md k = PInt z ∧ uint64 z.
Proof.
  unfold _required_metadata_uint, uint64. split.
  - intros H. inv_valid. by rewrite H0.
  - intros [E Hz]. rewrite E. simpl. assert (is_ok (_require_uint ("metadata." +:+ k)
      (PInt z) _UINT64_MAX) = true) as Hok.
    { apply is_ok_spec. exists tt. apply _require_uint_ok. eauto. }
    destruct (_require_uint _ _ _); done.
Qed.

Lemma opt_eqb_spec o s : opt_eqb o s = true ↔ o = Some s.
Proof. destruct o; simpl; [rewrite String.eqb_eq; split; congruence|done]. Qed.

Lemma is_some_b_spec {A} (o : option A) : is_some_b o = true ↔ is_Some o.
Proof. destruct o; simpl; split; try done; by intros [? ?]. Qed.

Lemma sorted_unique_NoDup l : sorted_unique l = true → NoDup l.
Proof.
  unfold sorted_unique. intros E%bool_decide_eq_true. rewrite <- E, merge_sort_Permutation.
  apply NoDup_remove_dups.
Qed.

(** An identifier made from a sequence number passes every validator that is
    given its kind. *)
Lemma make_id_validates f owner kind label seq u :
  hex_match 32 owner = true → String.length kind = 1%nat → uint64 seq →
  _validate_decimal_id f (Some (make_id owner kind seq)) (decimal_id_match kind) label 55
    _UINT64_MAX = Ok u.
Proof.
  intros Ho Hk Hs. unfold uint64, _UINT64_MAX in *. apply _validate_decimal_id_ok.
  eexists. split; [done|].
  assert (decimal_id_match kind (make_id owner kind seq) = true) as Hm
    by (apply make_id_match; [done|lia]).
  split; [done|]. split.
  - apply decimal_id_length in Hm. lia.
  - rewrite make_id_sequence; lia.
Qed.

(** ** Specification of an accepted event *)

(** Metadata an event may carry: bounded keys, none of the payload keys, and
    scalar values that are unsigned 64-bit integers or short printable text. *)
Definition metadata_value_wf (v : pyval) : Prop :=
  match v with
  | PNone | PBool _ => True
  | PInt z => uint64 z
  | PStr s => printable_ascii s = true ∧ Z.of_nat (String.length s) ≤ 128
  | _ => False
  end.

Definition metadata_wf (md : pydict) : Prop :=
  Forall (λ kv : string * pyval,
    _METADATA_KEY kv.1 = true ∧ (kv.1 ∉ _FORBIDDEN_METADATA_KEYS) ∧ metadata_value_wf kv.2) md
  ∧ ∃ text, json_dumps (PDict md) = Some text ∧
            Z.of_nat (String.length (utf8_encode text)) ≤ MAX_METADATA_BYTES.

Definition identity_wf (d : EventDraft) : Prop :=
  let root := ev_trace_id d +:+ ":r" in
  match ev_scope d with
  | "root_request" =>
      ev_lifecycle_id d = root ∧ ev_parent_lifecycle_id d = None ∧
      ev_preemption_epoch d = PNone ∧ ev_sample_index d = PNone
  | "engine_sample" =>
      ∃ epoch i, ev_preemption_epoch d = PInt epoch ∧ ev_sample_index d = PInt i ∧
        0 ≤ epoch ≤ _UINT32_MAX ∧ 0 ≤ i ≤ _UINT32_MAX ∧
        ev_lifecycle_id d = ev_trace_id d +:+ ":e:" +:+ str_of_Z i ∧
        ev_parent_lifecycle_id d = Some root
  | _ =>
      ev_scope d = "response" ∧
      ev_lifecycle_id d = ev_trace_id d +:+ ":s" ∧ ev_parent_lifecycle_id d = Some root ∧
      ev_preemption_epoch d = PNone ∧ ev_sample_index d = PNone
  end.

Definition spans_wf (d : EventDraft) (process_uuid : string) : Prop :=
  (if str_in (ev_event_name d) ABNORMAL_TERMINALS
   then ev_start_span_id d = None ∧ ev_end_span_id d = None ∧
        NoDup (ev_closing_span_ids d) ∧ (List.length (ev_closing_span_ids d) ≤ 16)%nat ∧
        Forall (λ s, _SPAN_ID s = true) (ev_closing_span_ids d)
   else ev_closing_span_ids d = [] ∧
        (is_Some (ev_start_span_id d) ↔ ev_event_name d ∈ SPAN_START_EVENTS) ∧
        (is_Some (ev_end_span_id d) ↔ ev_event_name d ∈ SPAN_END_EVENTS)) ∧
  ∀ s, ev_start_span_id d = Some s →
       _SPAN_ID s = true ∧ String.prefix (process_uuid +:+ ":s:") s = true.

Record event_wf (d : EventDraft) (process_uuid mode : string) (ts : pyval) : Prop := {
  ewf_trace : _HEX32 (ev_trace_id d) = true;
  ewf_time : ∃ t, ts = PInt t ∧ uint64 t;
  ewf_owner : _COMPONENT_BY_SCOPE_EVENT !! (ev_scope d, ev_event_name d)
              = Some (ev_component d);
  ewf_mode : mode = "none" ∨ mode = KV_RECOVERY_COMMUNICATION_MODE;
  ewf_communication : String.prefix "communication_" (ev_event_name d) = true →
                      mode = KV_RECOVERY_COMMUNICATION_MODE;
  ewf_identity : identity_wf d;
  ewf_spans : spans_wf d process_uuid;
  ewf_metadata : metadata_wf (default [] (ev_metadata d)) }.

Lemma validate_metadata_item_ok kv u :
  validate_metadata_item kv = Ok u →
  _METADATA_KEY kv.1 = true ∧ (kv.1 ∉ _FORBIDDEN_METADATA_KEYS) ∧ metadata_value_wf kv.2.
Proof.
  destruct kv as [k v]. unfold validate_metadata_item. cbn [fst snd]. intros H. inv_valid.
  bool_prop. split; [done|]. split; [done|].
  destruct v; inv_valid; simpl; try done; simplify_eq; bool_prop; done.
Qed.

Lemma _validate_metadata_ok md r :
  _validate_metadata md = Ok r → r = default [] md ∧ metadata_wf r.
Proof.
  unfold _validate_metadata, metadata_wf. destruct md as [md|]; simpl; intros H; inv_valid.
  - destruct (json_dumps (PDict md)) as [t|] eqn:E; inv_valid. bool_prop.
    split; [done|]. split; [|by eauto].
    eapply Forall_impl; [exact H|]. intros [k v] Hkv. exact (validate_metadata_item_ok _ _ Hkv).
  - split; [done|]. split; [by constructor|]. eexists. split; [reflexivity|]. done.
Qed.

Lemma _validate_lifecycle_identity_ok d u :
  ev_scope d ∈ SCOPES → _validate_lifecycle_identity d = Ok u →
  let root := ev_trace_id d +:+ ":r" in
  (ev_scope d = "root_request" ∧ ev_lifecycle_id d = root ∧ ev_parent_lifecycle_id d = None)
  ∨ (ev_scope d = "engine_sample" ∧ ev_sample_index d ≠ PNone ∧
     ev_lifecycle_id d = ev_trace_id d +:+ ":e:" +:+ py_format (ev_sample_index d) ∧
     ev_parent_lifecycle_id d = Some root)
  ∨ (ev_scope d = "response" ∧ ev_lifecycle_id d = ev_trace_id d +:+ ":s" ∧
     ev_parent_lifecycle_id d = Some root).
Proof.
  unfold _validate_lifecycle_identity, SCOPES. intros Hs H. inv_valid. clear H0.
  rewrite !elem_of_cons, elem_of_nil in Hs.
  destruct Hs as [E|[E|[E|[]]]]; rewrite E in *; simpl in H; inv_valid; bool_prop;
    repeat match goal with H : opt_eqb _ _ = true |- _ => apply opt_eqb_spec in H end.
  - left. by destruct (ev_parent_lifecycle_id d).
  - right; left. split; [done|]. split; [|done]. by intros E'; rewrite E' in H.
  - by right; right.
Qed.

Lemma _validate_span_fields_ok d p u :
  _validate_span_fields d p = Ok u → spans_wf d p.
Proof.
  unfold _validate_span_fields, spans_wf. intros H. inv_valid. bool_prop.
  rewrite Forall_app, Forall_fmap, !Forall_cons in H0. destruct H0 as (Hc & Hstart & _).
  split.
  - case_match; inv_valid; bool_prop.
    + split; [by destruct (ev_start_span_id d)|].
      split; [by destruct (ev_end_span_id d)|].
      split; [by apply sorted_unique_NoDup|]. split; [lia|].
      eapply Forall_impl; [exact Hc|]. simpl. intros s Hs.
      apply _validate_decimal_id_ok in Hs as (? & [= <-] & ? & _). done.
    + split; [by destruct (ev_closing_span_ids d)|].
      repeat match goal with H : Bool.eqb _ _ = true |- _ => apply Bool.eqb_prop in H end.
      rewrite <- !str_in_spec, <- !is_some_b_spec.
      by rewrite H4, H5.
  - intros s Es. rewrite Es in *. apply _validate_decimal_id_ok in Hstart as (? & [= <-] & ? & _).
    by bool_prop.
Qed.

(** Reading [identity_wf] off the three validator outcomes. *)
Lemma identity_wf_intro d u1 u2 u3 :
  ev_scope d ∈ SCOPES →
  _validate_lifecycle_identity d = Ok u1 →
  _validate_optional_uint "preemption_epoch" (ev_preemption_epoch d) _UINT32_MAX = Ok u2 →
  _validate_optional_uint "sample_index" (ev_sample_index d) _UINT32_MAX = Ok u3 →
  (if String.eqb (ev_scope d) "engine_sample"
   then is_none (ev_preemption_epoch d) || is_none (ev_sample_index d) = false
   else negb (is_none (ev_preemption_epoch d)) || negb (is_none (ev_sample_index d)) = false) →
  identity_wf d.
Proof.
  intros Hs Hid He Hi Hb. unfold identity_wf.
  apply _validate_optional_uint_ok in He. apply _validate_optional_uint_ok in Hi.
  apply _validate_lifecycle_identity_ok in Hid; [|done]. cbv zeta in Hid.
  destruct Hid as [(E & H1 & H2)|[(E & H1 & H2 & H3)|(E & H1 & H2)]];
    rewrite E in *; simpl in Hb; bool_prop.
  - by destruct (ev_preemption_epoch d), (ev_sample_index d).
  - destruct He as [He|(e & He & Hel)]; [by rewrite He in *|].
    destruct Hi as [Hi|(i & Hi & Hil)]; [done|].
    rewrite He, Hi in *. eauto 10.
  - by destruct (ev_preemption_epoch d), (ev_sample_index d).
Qed.

Lemma _validate_event_draft_sound d p ts mode u :
  _validate_event_draft d p ts mode = Ok u → event_wf d p mode ts.
Proof.
  unfold _validate_event_draft. intros H. inv_valid. bool_prop.
  repeat match goal with
  | H : opt_eqb _ _ = true |- _ => apply opt_eqb_spec in H
  | H : _validate_metadata _ = Ok _ |- _ => apply _validate_metadata_ok in H as [-> ?]
  | H : _validate_span_fields _ _ = Ok _ |- _ => apply _validate_span_fields_ok in H
  end.
  match goal with H : PStr _ = PStr _ |- _ => injection H as ? end. subst.
  constructor; [assumption|eexists; split; [reflexivity|assumption]|assumption| | | |
                assumption|assumption].
  - match goal with H : _ && negb (str_in mode _) = false |- _ =>
      destruct (String.prefix "communication_" (ev_event_name d)) eqn:Ec end;
      simpl in *; bool_prop; [by right|].
    match goal with H : mode ∈ _ |- _ =>
      rewrite !elem_of_cons, elem_of_nil in H; destruct H as [?|[?|[]]]; auto end.
  - intros Ec. rewrite Ec in *. simpl in *. by bool_prop.
  - eapply identity_wf_intro; eauto.
    destruct (String.eqb (ev_scope d) "engine_sample"); by inv_res.
Qed.

(** ** Properties *)

(** [canonical_json_line] frames records: an accepted record is encoded as
    one line of at most 4096 bytes whose only control character is the final
    newline, so lines of a shard can be split at newlines. *)
Theorem canonical_json_line_framing record line :
  canonical_json_line record = Ok line →
  ∃ body, line = body +:+ newline ∧ str_forall no_control body = true ∧
          Z.of_nat (String.length line) ≤ MAX_RECORD_BYTES.
Proof.
  unfold canonical_json_line. intros H.
  destruct (json_dumps (PDict record)) as [t|] eqn:E; [|done]. inv_res. bool_prop.
  exists (utf8_encode t). split; [done|]. split; [|done].
  by apply utf8_no_control, json_dumps_no_control with (PDict record).
Qed.

Lemma canonical_json_line_framing_witness :
  ∃ body, "{"  +:+ json_string "k" +:+ ":1}" +:+ newline = body +:+ newline ∧
    str_forall no_control body = true ∧
    Z.of_nat (String.length ("{" +:+ json_string "k" +:+ ":1}" +:+ newline)) ≤ MAX_RECORD_BYTES.
Proof.
  apply (canonical_json_line_framing [("k", PInt 1)]). vm_compute. reflexivity.
Defined.

(** [canonical_json_line] is canonical: two records with the same items give
    the same bytes, whatever the insertion order of their keys. *)
Theorem canonical_json_line_order record1 record2 :
  NoDup (dict_keys record1) → record1 ≡ₚ record2 →
  canonical_json_line record1 = canonical_json_line record2.
Proof.
  intros Hnd Hp. unfold canonical_json_line. by rewrite (json_dumps_canonical _ _ Hnd Hp).
Qed.

Lemma canonical_json_line_order_witness :
  canonical_json_line [("b", PInt 1); ("a", PNone)] =
  canonical_json_line [("a", PNone); ("b", PInt 1)].
Proof.
  apply canonical_json_line_order; [vm_compute; repeat constructor; set_solver|].
  apply Permutation_swap.
Defined.

(** C8. Every event record [build_event_record] accepts satisfies the event
    specification [event_wf]: owner registered for the (scope, event) pair,
    canonical lifecycle identity with epoch and sample exactly on engine
    events, span fields matching the event's boundary role, communication
    events only in the recovery mode, and payload-free bounded metadata. *)
Theorem build_event_record_sound d uuid clock seq default_ts mode record ref :
  build_event_record d uuid clock seq default_ts mode = Ok (record, ref) →
  event_wf d uuid mode
    (if is_none (ev_timestamp_ns d) then PInt default_ts else ev_timestamp_ns d) ∧
  ref = mkRecordRef (event_id_of uuid seq) seq ∧
  dict_get record "event_id" = PStr (record_id ref).
Proof.
  unfold build_event_record. intros H. inv_valid.
  split; [|done]. by eapply _validate_event_draft_sound.
Qed.

Definition example_trace := "0123456789abcdef0123456789abcdef".
Definition example_uuid := "ffffffffffffffffffffffffffffffff".
Definition example_draft : EventDraft :=
  mkEventDraft example_trace (example_trace +:+ ":e:0") (Some (example_trace +:+ ":r"))
    "engine_sample" "engine_core" "scheduled" (PInt 5) (PInt 0) None
    (Some (example_uuid +:+ ":s:7")) [] (PInt 0) PNone PNone None
    (Some [("prompt_tokens_total", PInt 8); ("prompt_tokens_cached", PInt 3);
           ("prompt_tokens_to_compute", PInt 5)]).

Lemma build_event_record_sound_witness :
  ∃ record ref, build_event_record example_draft example_uuid example_trace 3 9 "none"
                = Ok (record, ref) ∧ event_wf example_draft example_uuid "none" (PInt 5).
Proof.
  eexists _, _. split; [vm_compute; reflexivity|].
  eapply (build_event_record_sound example_draft example_uuid example_trace 3 9 "none").
  vm_compute. reflexivity.
Defined.

(** Event identifiers round trip: the id of an accepted event is a canonical
    event id for [build_edge_record]'s endpoint validator, and its suffix is the
    record sequence number, so ids of one process are injective. *)
Theorem event_id_roundtrip d uuid clock seq default_ts mode record ref field :
  build_event_record d uuid clock seq default_ts mode = Ok (record, ref) →
  _validate_decimal_id field (Some (record_id ref)) _EVENT_ID "event" 55 _UINT64_MAX = Ok tt ∧
  int_of_digits 0 (rsplit_last (record_id ref) (record_id ref)) = seq ∧
  (∀ seq', 0 ≤ seq' → event_id_of uuid seq' = record_id ref → seq' = seq).
Proof.
  unfold build_event_record. intros H. inv_valid. simplify_eq. simpl.
  match goal with H : _HEX32 _ = true, H' : 0 ≤ _ ≤ _ |- _ => idtac end.
  split; [|split].
  - apply make_id_validates; done.
  - apply make_id_sequence. lia.
  - intros seq' Hs E. eapply make_id_inj; [done|idtac|done]. lia.
Qed.

Lemma event_id_roundtrip_witness :
  int_of_digits 0 (rsplit_last (event_id_of example_uuid 3) (event_id_of example_uuid 3)) = 3.
Proof.
  destruct (build_event_record example_draft example_uuid example_trace 3 9 "none")
    as [[record ref]|] eqn:E; [|vm_compute in E; discriminate E].
  pose proof (event_id_roundtrip _ _ _ _ _ _ _ _ "from_event_id" E) as (_ & H & _).
  vm_compute in E. injection E as _ <-. exact H.
Defined.

(** The endpoints an edge may join: canonical event ids with a 64-bit sequence. *)
Definition event_ref_wf (s : string) : Prop :=
  _EVENT_ID s = true ∧ uint64 (int_of_digits 0 (rsplit_last s s)).

Record edge_wf (d : EdgeDraft) (uuid mode : string) (seq : Z) : Prop := {
  gwf_mode : mode ∈ ["none"; KV_RECOVERY_COMMUNICATION_MODE];
  gwf_process : _HEX32 uuid = true;
  gwf_trace : _HEX32 (ed_trace_id d) = true;
  gwf_seq : uint64 seq;
  gwf_from : event_ref_wf (ed_from_event_id d);
  gwf_to : event_ref_wf (ed_to_event_id d);
  gwf_irreflexive : ed_from_event_id d ≠ ed_to_event_id d;
  gwf_kind : ed_edge_kind d ∈ EDGE_KINDS;
  gwf_evidence : ed_evidence_source d ∈ EVIDENCE_SOURCES ∨
    (mode = KV_RECOVERY_COMMUNICATION_MODE ∧
     ed_evidence_source d = KV_RECOVERY_H2D_EVIDENCE ∧
     ed_edge_kind d = "data_dependency") }.

Lemma event_ref_ok f s u :
  _validate_decimal_id f (Some s) _EVENT_ID "event" 55 _UINT64_MAX = Ok u ↔ event_ref_wf s.
Proof.
  rewrite _validate_decimal_id_ok. unfold event_ref_wf, uint64. split.
  - intros (? & [= <-] & ? & _ & ?). done.
  - intros [Hm Hs]. eexists. split; [done|]. split; [done|]. split; [|done].
    apply decimal_id_length in Hm. simpl in Hm. lia.
Qed.

Lemma evidence_length e :
  e ∈ EVIDENCE_SOURCES ∨ e = KV_RECOVERY_H2D_EVIDENCE → Z.of_nat (String.length e) ≤ 64.
Proof.
  unfold EVIDENCE_SOURCES. rewrite !elem_of_cons, elem_of_nil.
  intros [[->|[->|[->|[->|[->|[->|[]]]]]]]| ->]; vm_compute; discriminate.
Qed.

(** [build_edge_record] accepts exactly the edges of [edge_wf]: distinct
    canonical endpoints, a frozen kind, and either a frozen evidence source or
    the H2D recovery evidence on a data dependency in the recovery mode. *)
Theorem build_edge_record_iff d uuid seq mode :
  is_ok (build_edge_record d uuid seq mode) = true ↔ edge_wf d uuid mode seq.
Proof.
  rewrite is_ok_spec. split.
  - intros [[record ref] H]. unfold build_edge_record in H. inv_valid. bool_prop.
    repeat match goal with
    | H : PStr _ = PStr _ |- _ => injection H as ?
    | H : PInt _ = PInt _ |- _ => injection H as ?
    | H : _validate_decimal_id _ _ _EVENT_ID _ _ _ = Ok _ |- _ => apply event_ref_ok in H
    end. subst.
    constructor; try assumption.
    destruct (str_in (ed_evidence_source d) EVIDENCE_SOURCES) eqn:E; [left; by bool_prop|].
    right. destruct (_ISSUE_2_EVIDENCE _); inv_res. by bool_prop.
  - intros [Hm Hp Ht Hs Hf Hto Hne Hk He]. unfold build_edge_record.
    eexists. bind_step; [by apply raise_if_ok, negb_false_iff, str_in_spec|].
    bind_step; [apply _require_hex32_ok; eauto|].
    bind_step; [apply _require_hex32_ok; eauto|].
    bind_step; [apply _require_uint_ok; eauto|].
    bind_step; [by apply event_ref_ok|].
    bind_step; [by apply event_ref_ok|].
    bind_step; [by apply raise_if_ok, String.eqb_neq|].
    bind_step; [by apply raise_if_ok, negb_false_iff, str_in_spec|].
    bind_step.
    { destruct (str_in (ed_evidence_source d) EVIDENCE_SOURCES) eqn:E; [done|]. bool_prop.
      destruct He as [He|(-> & -> & ->)]; [done|]. by vm_compute. }
    bind_step; [|reflexivity].
    apply raise_if_ok, Z.ltb_ge, evidence_length. naive_solver.
Qed.

(** [build_loss_interval_record] accepts exactly the reconciled intervals: a
    frozen reason, 64-bit fields, ordered bounds and timestamps, and as many
    dropped events and edges as the interval has sequence numbers. *)
Theorem build_loss_interval_record_iff uuid lseq reason first last ev ed t1 t2 :
  is_ok (build_loss_interval_record uuid lseq reason first last ev ed t1 t2) = true ↔
  _HEX32 uuid = true ∧ uint64 lseq ∧ reason ∈ LOSS_REASONS ∧
  Forall uint64 [first; last; ev; ed; t1; t2] ∧
  first ≤ last ∧ t1 ≤ t2 ∧ ev + ed = last - first + 1 ∧ ev + ed ≤ _UINT64_MAX.
Proof.
  rewrite is_ok_spec. unfold build_loss_interval_record. split.
  - intros [record H]. inv_valid. bool_prop.
    repeat match goal with
    | H : PStr _ = PStr _ |- _ => injection H as ?
    | H : PInt _ = PInt _ |- _ => injection H as ?
    | H : require_uints _ = Ok _ |- _ => apply require_uints_ok in H
    end. subst.
    repeat split; try done; try lia.
    rewrite !Forall_cons in *. by destruct_and!.
  - intros (Hu & Hl & Hr & Hf & H1 & H2 & H3 & H4). rewrite !Forall_cons in Hf.
    destruct_and!. unfold uint64 in *.
    eexists. bind_step; [apply _require_hex32_ok; eauto|].
    bind_step; [apply _require_uint_ok; eauto|].
    bind_step; [by apply raise_if_ok, negb_false_iff, str_in_spec|].
    bind_step.
    { apply require_uints_ok. rewrite !Forall_cons. unfold uint64. simpl. split_and!; try lia; by constructor. }
    bind_step; [apply _require_uint_ok; eexists; split; [done|lia]|].
    bind_step; [apply raise_if_ok; lia|].
    bind_step; [apply raise_if_ok; lia|].
    bind_step; [apply raise_if_ok; lia|reflexivity].
Qed.

(** [build_process_summary_record] accepts exactly the summaries whose ledger
    reconciles: attempted = written events + written edges + dropped. *)
Theorem build_process_summary_record_iff uuid ended att we wd wl dd dc wf outcome digest :
  is_ok (build_process_summary_record uuid ended att we wd wl dd dc wf outcome digest) = true ↔
  _HEX32 uuid = true ∧ (∃ t, ended = PInt t ∧ uint64 t) ∧
  Forall uint64 [att; we; wd; wl; dd; dc; wf] ∧
  outcome ∈ CLOSE_OUTCOMES ∧ _HEX64 digest = true ∧ att = we + wd + dd.
Proof.
  rewrite is_ok_spec. unfold build_process_summary_record. split.
  - intros [record H]. inv_valid. bool_prop.
    repeat match goal with
    | H : PStr _ = PStr _ |- _ => injection H as ?
    | H : require_uints _ = Ok _ |- _ => apply require_uints_ok in H
    end. subst.
    rewrite !Forall_cons in *. destruct_and!.
    split_and!; try done; try (by constructor). by eexists; split.
  - intros (Hu & (t & -> & Ht) & Hf & Ho & Hd & E). rewrite !Forall_cons in Hf. destruct_and!.
    eexists. bind_step; [apply _require_hex32_ok; eauto|].
    bind_step; [apply _require_uint_ok; eauto|].
    bind_step.
    { apply require_uints_ok. rewrite !Forall_cons. simpl. split_and!; try done; by constructor. }
    bind_step; [by apply raise_if_ok, negb_false_iff, str_in_spec|].
    bind_step; [by apply raise_if_ok, negb_false_iff|].
    bind_step; [apply raise_if_ok; lia|reflexivity].
Qed.
