(* ===== verification/ProfileProtocol.v ===== *)
(** * kv_recovery_profile_protocol.py: records of the KV-recovery profile shard

    Constants, the profile configuration, the closed field rosters, the
    validators of the four data record types and the five record builders.  The
    validators shared by name with runtime_protocol.py ([_require_uint]) are the
    ones of this module, which raise [ValueError]. *)

From Stdlib Require Import ZArith Lia Ascii String.
From stdpp Require Import base list strings gmap sorting.
From S2P Require Import Prelude PyValue Sha256 RuntimeProtocol.

(** ** Constants (lines 23-74) *)

Definition PROFILE_ID := "rlp.kv-recovery/v1alpha1".
Definition COMMUNICATION_MODE := "issue2:kv-recovery-v1alpha1".
Definition MAX_PROFILE_DATA_RECORDS : Z := 4096.
Definition MAX_PROFILE_RECORD_BYTES : Z := 4096.
Definition MAX_METADATA_BYTES : Z := 1024.
Definition MAX_LOGICAL_BLOCKS_PER_BLOCK_SET : Z := 4096.
Definition MAX_BLOCK_ROWS_PER_CHUNK : Z := 64.
Definition MAX_TRANSFER_RECORDS_PER_LIFECYCLE : Z := 4096.
Definition MAX_TRANSFER_IDS_PER_WAIT_SET : Z := 4096.
Definition MAX_WAIT_SET_ROWS_PER_CHUNK : Z := 64.
Definition MAX_WAIT_SETS_PER_PROCESS_SHARD : Z := 64.
Definition MAX_REQUEUE_OBSERVATIONS_PER_EPISODE : Z := 64.
Definition MAX_RUNTIME_REQUEST_ID_BYTES : Z := 128.

Definition PROFILE_LIMITS : pydict :=
  [("data_capacity_records", PInt DATA_CAPACITY_RECORDS);
   ("reserved_capacity_records", PInt RESERVED_CAPACITY_RECORDS);
   ("max_record_bytes", PInt MAX_PROFILE_RECORD_BYTES);
   ("max_queued_bytes", PInt MAX_QUEUED_BYTES);
   ("max_batch_records", PInt MAX_BATCH_RECORDS);
   ("max_batch_bytes", PInt MAX_BATCH_BYTES);
   ("write_interval_ms", PInt WRITE_INTERVAL_MS);
   ("close_timeout_ms", PInt CLOSE_TIMEOUT_MS);
   ("max_metadata_bytes", PInt MAX_METADATA_BYTES);
   ("max_logical_blocks_per_block_set", PInt MAX_LOGICAL_BLOCKS_PER_BLOCK_SET);
   ("max_block_rows_per_chunk", PInt MAX_BLOCK_ROWS_PER_CHUNK);
   ("max_transfer_records_per_lifecycle", PInt MAX_TRANSFER_RECORDS_PER_LIFECYCLE);
   ("max_transfer_ids_per_wait_set", PInt MAX_TRANSFER_IDS_PER_WAIT_SET);
   ("max_wait_set_rows_per_chunk", PInt MAX_WAIT_SET_ROWS_PER_CHUNK);
   ("max_wait_sets_per_process_shard", PInt MAX_WAIT_SETS_PER_PROCESS_SHARD);
   ("max_requeue_observations_per_episode", PInt MAX_REQUEUE_OBSERVATIONS_PER_EPISODE);
   ("max_runtime_request_id_bytes", PInt MAX_RUNTIME_REQUEST_ID_BYTES);
   ("shard_ownership", PStr "one_process_one_append_only_profile_shard")].

(** The [Literal] types [ProfileRecordType] and [LossReason]. *)
Definition ProfileRecordType :=
  ["block_set_chunk"; "wait_set_chunk"; "transfer_event"; "recovery_event"].
Definition LossReason :=
  ["serialization_failure"; "queue_overflow"; "writer_failure"; "close_timeout"].

Definition _PROFILE_RECORD_ID := decimal_id_match "k".

(** ** Data classes (lines 76-134) *)

Definition raise_v (b : bool) (msg : string) : res unit := ensure (negb b) (ValueError msg).

Definition _require_hex (value : pyval) (len : nat) (field_name : string) : res unit :=
  raise_v (match value with PStr s => negb (hex_match len s) | _ => true end)
    (field_name +:+ " must be lowercase hexadecimal chars").

Record KVRecoveryProfileConfig := mkProfileConfig {
  pc_run_id : string;
  pc_spec_name : string;
  pc_profile_id : string;
  pc_communication_mode : string;
  pc_implementation_family : string;
  pc_connector_name : string;
  pc_rank : Z;
  pc_world_size : Z }.

#[export] Instance KVRecoveryProfileConfig_eq_dec : EqDecision KVRecoveryProfileConfig.
Proof. solve_decision. Defined.

(** [KVRecoveryProfileConfig.__post_init__] *)
Definition KVRecoveryProfileConfig_post_init (c : KVRecoveryProfileConfig) : res unit :=
  _require_hex (PStr (pc_run_id c)) 32 "run_id" ;;
  raise_v (negb (String.eqb (pc_profile_id c) PROFILE_ID)) "profile_id is not supported" ;;
  raise_v (negb (String.eqb (pc_communication_mode c) COMMUNICATION_MODE))
    "communication_mode is not supported" ;;
  raise_v (negb (String.eqb (pc_implementation_family c) "runtime_core_offloading_connector"))
    "implementation_family is outside profile v1alpha1" ;;
  raise_v (negb (String.eqb (pc_connector_name c) "OffloadingConnector"))
    "connector_name is outside profile v1alpha1" ;;
  raise_v (negb (String.eqb (pc_spec_name c) "TieringOffloadingSpec"))
    "spec_name is not supported" ;;
  raise_v (negb (pc_rank c =? 0) || negb (pc_world_size c =? 1))
    "profile v1alpha1 requires rank=0 and world_size=1".

(** [KVRecoveryProfileConfig(run_id=run_id)] before validation. *)
Definition default_profile_config (run_id : string) : KVRecoveryProfileConfig :=
  mkProfileConfig run_id "TieringOffloadingSpec" PROFILE_ID COMMUNICATION_MODE
    "runtime_core_offloading_connector" "OffloadingConnector" 0 1.

Record ProfileRecordRef := mkProfileRecordRef {
  pr_record_type : string;
  pr_record_seq : Z;
  pr_record_id : string;
  pr_timestamp_ns : Z;
  pr_record : pydict }.

Record ProfileRecord := mkProfileRecord {
  prec_record_type : string;
  prec_record_seq : Z;
  prec_record_id : string;
  prec_timestamp_ns : Z;
  prec_fields : pydict }.

(** Counts by profile record type. *)
Abbreviation type_counts := (gmap string Z).

Record ProfileLossInterval := mkProfileLoss {
  pl_reason : string;
  pl_first_record_seq : Z;
  pl_last_record_seq : Z;
  pl_counts : type_counts;
  pl_first_timestamp_ns : Z;
  pl_last_timestamp_ns : Z }.

(** [ProfileLossInterval.dropped_count] *)
Definition dropped_count (l : ProfileLossInterval) : Z :=
  pl_last_record_seq l - pl_first_record_seq l + 1.

(** ** Primitive validators (lines 137-220) *)

Definition _is_uint (value : pyval) (maximum : Z) : bool :=
  match value with PInt z => (0 <=? z) && (z <=? maximum) | _ => false end.

Definition _require_uint (value : pyval) (maximum : Z) (field_name : string) : res Z :=
  raise_v (negb (_is_uint value maximum))
    (field_name +:+ " is outside its unsigned integer domain") ;;
  Ok (int_of value).

Definition _require_ascii (value : pyval) (field_name : string) (minimum maximum : Z)
    : res unit :=
  raise_v (match value with
           | PStr s => negb (printable_ascii s)
                       || negb ((minimum <=? Z.of_nat (String.length s))
                                && (Z.of_nat (String.length s) <=? maximum))
           | _ => true
           end) (field_name +:+ " must be bounded printable ASCII").

Definition _require_event_id (value : pyval) (field_name : string) : res unit :=
  raise_v (match value with PStr s => negb (_EVENT_ID s) | _ => true end)
    (field_name +:+ " must be a canonical base event ID").

Definition _require_nullable_event_id (value : pyval) (field_name : string) : res unit :=
  if is_none value then Ok tt else _require_event_id value field_name.

Definition _require_profile_record_id (value : pyval) (field_name : string) : res unit :=
  raise_v (match value with PStr s => negb (_PROFILE_RECORD_ID s) | _ => true end)
    (field_name +:+ " must be a canonical profile record ID").

Definition _require_nullable_profile_record_id (value : pyval) (field_name : string)
    : res unit :=
  if is_none value then Ok tt else _require_profile_record_id value field_name.

Definition _require_exact_fields (fields : pydict) (required : list string)
    (record_type : string) : res unit :=
  raise_v (negb (keys_are fields required))
    (record_type +:+ " fields differ from the closed roster").

Definition _bounded_line (record : pydict) : res string :=
  raw ← canonical_json_line record;
  raise_v (MAX_PROFILE_RECORD_BYTES <? Z.of_nat (String.length raw))
    "profile record exceeds max_record_bytes" ;;
  Ok raw.

Definition profile_record_line (record : pydict) : res string := _bounded_line record.

(** ** Field rosters (lines 260-316) *)

Definition _REQUEST_FIELDS :=
  ["trace_id"; "engine_lifecycle_id"; "runtime_request_id"; "request_id_kind";
   "sample_index"; "recovery_epoch"; "episode_id"].
Definition _BLOCK_FIELDS :=
  ["block_set_id"; "chunk_index"; "chunk_count"; "total_block_count"; "blocks"].
Definition _WAIT_FIELDS :=
  ["operation"; "wait_set_id"; "chunk_index"; "chunk_count"; "total_transfer_count";
   "transfer_ids"].
Definition _TRANSFER_FIELDS :=
  ["transfer_id"; "connector_job_id"; "rank"; "world_size"; "operation"; "direction";
   "src_medium"; "dst_medium"; "block_set_id"; "transfer_phase"; "bytes_moved";
   "device_duration_ns"; "success"; "failure_code"].
Definition _RECOVERY_FIELDS :=
  ["stage"; "occurrence"; "base_event_id"; "base_admission_started_event_id";
   "from_profile_event_id"; "transfer_id"; "block_set_id"; "bytes_moved";
   "requeue_reason"; "compute_kind"; "child_observation_kind"; "base_association_kind";
   "base_association_evidence"; "request_status_before"; "request_status_after"].

(** ** Field validators (lines 319-641) *)

(** [v not in roster] as the test of a raise. *)
Definition raise_unless_in (v : pyval) (roster : list string) (msg : string) : res unit :=
  b ← in_strs v roster;
  raise_v (negb b) msg.

Definition str_or (v : pyval) : string := match v with PStr s => s | _ => EmptyString end.

Definition _validate_request_fields (fields : pydict) : res unit :=
  let f := dict_get fields in
  _require_hex (f "trace_id") 32 "trace_id" ;;
  sample_index ← _require_uint (f "sample_index") _UINT32_MAX "sample_index";
  raise_v (negb (sample_index =? 0)) "profile v1alpha1 requires sample_index=0" ;;
  raise_v (negb (eq_str (f "engine_lifecycle_id") (str_or (f "trace_id") +:+ ":e:0")))
    "engine_lifecycle_id does not match trace/sample" ;;
  _require_ascii (f "runtime_request_id") "runtime_request_id" 1
    MAX_RUNTIME_REQUEST_ID_BYTES ;;
  raise_v (negb (eq_str (f "request_id_kind") "engine_internal"))
    "request_id_kind must be engine_internal" ;;
  if is_none (f "recovery_epoch") then
    raise_v (negb (is_none (f "episode_id")))
      "episode_id must be null when recovery_epoch is null"
  else
    epoch ← _require_uint (f "recovery_epoch") _UINT32_MAX "recovery_epoch";
    raise_v (epoch <? 1) "recovery_epoch must be positive" ;;
    raise_v (negb (eq_str (f "episode_id")
      (str_or (f "engine_lifecycle_id") +:+ ":k:" +:+ str_of_Z epoch)))
      "episode_id does not match lifecycle/epoch".

Definition _validate_chunk (index count total : pyval) (field : string) : res unit :=
  index ← _require_uint index _UINT32_MAX "chunk_index";
  count ← _require_uint count _UINT32_MAX "chunk_count";
  total ← _require_uint total _UINT32_MAX field;
  raise_v ((count <? 1) || (count <=? index) || (total <? 1))
    "chunk identity/count is invalid".

(** [coordinate <= previous] on pairs. *)
Definition pair_le (a b : Z * Z) : bool :=
  (a.1 <? b.1) || ((a.1 =? b.1) && (a.2 <=? b.2)).

(** The loop over block rows; the state is [previous] and [logical_ids]. *)
Fixpoint validate_block_rows (previous : option (Z * Z)) (logical_ids : list string)
    (blocks : list pyval) : res unit :=
  match blocks with
  | [] => Ok tt
  | PDict block :: rest =>
      raise_v (negb (keys_are block ["group_index"; "logical_ordinal"; "logical_block_id"]))
        "block row differs from the closed roster" ;;
      group ← _require_uint (dict_get block "group_index") _UINT32_MAX "group_index";
      ordinal ← _require_uint (dict_get block "logical_ordinal") _UINT64_MAX "logical_ordinal";
      _require_hex (dict_get block "logical_block_id") 32 "logical_block_id" ;;
      let logical_id := str_or (dict_get block "logical_block_id") in
      raise_v (match previous with Some p => pair_le (group, ordinal) p | None => false end)
        "block rows are not strictly canonical" ;;
      raise_v (str_in logical_id logical_ids) "logical_block_id is duplicated" ;;
      validate_block_rows (Some (group, ordinal)) (logical_id :: logical_ids) rest
  | _ :: _ => Raise (ValueError "block row differs from the closed roster")
  end.

(** [not isinstance(v, (tuple, list)) or not 1 <= len(v) <= 64] *)
Definition bounded_array (v : pyval) (msg : string) : res (list pyval) :=
  match v with
  | PList l =>
      raise_v (negb ((1 <=? Z.of_nat (List.length l)) && (Z.of_nat (List.length l) <=? 64)))
        msg ;;
      Ok l
  | _ => Raise (ValueError msg)
  end.

Definition _validate_block_fields (fields : pydict) : res unit :=
  let f := dict_get fields in
  _require_hex (f "block_set_id") 64 "block_set_id" ;;
  _validate_chunk (f "chunk_index") (f "chunk_count") (f "total_block_count")
    "total_block_count" ;;
  raise_v (MAX_LOGICAL_BLOCKS_PER_BLOCK_SET <? int_of (f "total_block_count"))
    "block set exceeds its frozen bound" ;;
  blocks ← bounded_array (f "blocks") "blocks must be a nonempty bounded array";
  validate_block_rows None [] blocks.

(** The loop over wait members; the state is [previous]. *)
Fixpoint validate_wait_members (process_uuid : string) (previous : option string)
    (transfer_ids : list pyval) : res unit :=
  match transfer_ids with
  | [] => Ok tt
  | PStr transfer_id :: rest =>
      raise_v (negb (_TRANSFER_ID transfer_id)) "wait member is not a canonical transfer_id" ;;
      raise_v (negb (String.prefix (process_uuid +:+ ":t:") transfer_id))
        "wait member belongs to another process" ;;
      raise_v (match previous with Some p => String.leb transfer_id p | None => false end)
        "wait members are not strictly sorted and unique" ;;
      validate_wait_members process_uuid (Some transfer_id) rest
  | _ :: _ => Raise (ValueError "wait member is not a canonical transfer_id")
  end.

Definition _validate_wait_fields (fields : pydict) (process_uuid : string) : res unit :=
  let f := dict_get fields in
  raise_v (negb (eq_str (f "operation") "transfer_wait"))
    "wait operation must be transfer_wait" ;;
  _require_hex (f "wait_set_id") 64 "wait_set_id" ;;
  _validate_chunk (f "chunk_index") (f "chunk_count") (f "total_transfer_count")
    "total_transfer_count" ;;
  raise_v (MAX_TRANSFER_IDS_PER_WAIT_SET <? int_of (f "total_transfer_count"))
    "wait set exceeds its frozen bound" ;;
  transfer_ids ← bounded_array (f "transfer_ids")
    "transfer_ids must be a nonempty bounded array";
  validate_wait_members process_uuid None transfer_ids.

(** [not isinstance(v, str) or not _TRANSFER_ID.fullmatch(v)] *)
Definition not_transfer_id (v : pyval) : bool :=
  match v with PStr s => negb (_TRANSFER_ID s) | _ => true end.

Definition FAILURE_CODES :=
  ["submit_rejected"; "transfer_failed"; "cancelled"; "timeout"; "size_unavailable";
   "unclassified"].

(** Lines 504-533: the completion fields of a transfer phase. *)
Definition validate_transfer_phase (f : string → pyval) : res unit :=
  if eq_str (f "transfer_phase") "submit" then
    raise_v (existsb (λ name, negb (is_none (f name)))
               ["bytes_moved"; "device_duration_ns"; "success"; "failure_code"])
      "submit fields must retain their null wire values"
  else if eq_str (f "transfer_phase") "done" then
    raise_v (negb (is_bool (f "success"))) "done success must be Boolean" ;;
    (if truthy (f "success") then
       bytes_moved ← _require_uint (f "bytes_moved") _UINT64_MAX "bytes_moved";
       raise_v ((bytes_moved <? 1) || negb (is_none (f "failure_code")))
         "successful done requires positive bytes and no failure"
     else
       raise_unless_in (f "failure_code") FAILURE_CODES
         "failed done requires a closed failure_code") ;;
    raise_v (negb (is_none (f "device_duration_ns"))
             && (negb (_is_uint (f "device_duration_ns") _UINT64_MAX)
                 || (int_of (f "device_duration_ns") <? 1)))
      "device_duration_ns must be null or positive uint64"
  else Raise (ValueError "transfer_phase is not submit|done").

Definition _validate_transfer_fields (fields : pydict) (process_uuid : string) : res unit :=
  let f := dict_get fields in
  raise_v (not_transfer_id (f "transfer_id")) "transfer_id is not canonical" ;;
  raise_v (negb (String.prefix (process_uuid +:+ ":t:") (str_or (f "transfer_id"))))
    "transfer_id belongs to another process" ;;
  _require_uint (f "connector_job_id") _UINT64_MAX "connector_job_id" ;;
  raise_v (negb (eq_int (f "rank") 0) || negb (eq_int (f "world_size") 1))
    "profile v1alpha1 transfer requires rank 0/world 1" ;;
  raise_unless_in (f "operation") ["d2h_preserve"; "h2d_restore"]
    "transfer operation is not in the closed roster" ;;
  let '(direction, src, dst) :=
    if eq_str (f "operation") "d2h_preserve" then ("d2h", "device_hbm", "host_cpu")
    else ("h2d", "host_cpu", "device_hbm") in
  raise_v (negb (eq_str (f "direction") direction) || negb (eq_str (f "src_medium") src)
           || negb (eq_str (f "dst_medium") dst))
    "transfer direction/media do not match the operation" ;;
  _require_hex (f "block_set_id") 64 "block_set_id" ;;
  validate_transfer_phase f.

Definition RECOVERY_STAGES :=
  ["preempt"; "restore_start"; "restore_done"; "scheduler_wakeup"; "requeue"; "admission";
   "first_prefill_or_decode"].
Definition BASE_STAGES :=
  ["preempt"; "restore_start"; "restore_done"; "admission"; "first_prefill_or_decode"].
Definition REQUEUE_REASONS :=
  ["lora_capacity"; "prefill_throttled"; "token_budget"; "encoder_budget";
   "block_capacity"; "unclassified"].

(** Lines 553-596: occurrence, base and profile associations of a stage. *)
Definition validate_recovery_links (stage : string) (f : string → pyval) : res unit :=
  occurrence ← _require_uint (f "occurrence") _UINT32_MAX "occurrence";
  (if String.eqb stage "requeue" then
     raise_v (MAX_REQUEUE_OBSERVATIONS_PER_EPISODE <=? occurrence)
       "requeue occurrence exceeds its frozen bound"
   else
     raise_v (negb (occurrence =? 0)) "unique recovery stages require occurrence=0") ;;
  _require_nullable_event_id (f "base_event_id") "base_event_id" ;;
  _require_nullable_event_id (f "base_admission_started_event_id")
    "base_admission_started_event_id" ;;
  _require_nullable_profile_record_id (f "from_profile_event_id") "from_profile_event_id" ;;
  (if str_in stage BASE_STAGES then
     raise_v (is_none (f "base_event_id")) "stage requires an exact base_event_id"
   else
     raise_v (negb (is_none (f "base_event_id"))) "profile-only stage forbids base_event_id") ;;
  (if String.eqb stage "preempt" then
     raise_v (negb (is_none (f "from_profile_event_id")))
       "preempt starts the profile predecessor chain"
   else
     raise_v (is_none (f "from_profile_event_id"))
       "non-preempt stage requires from_profile_event_id") ;;
  raise_v (negb (Bool.eqb (String.eqb stage "admission")
                          (negb (is_none (f "base_admission_started_event_id")))))
    "base admission ID is required only for admission".

(** Lines 597-612: transfer identity of a stage. *)
Definition validate_recovery_transfer (stage : string) (f : string → pyval) : res unit :=
  if String.eqb stage "preempt" then
    raise_v (negb (is_none (f "transfer_id")) || negb (is_none (f "block_set_id"))
             || negb (is_none (f "bytes_moved"))) "preempt precedes transfer identity"
  else
    raise_v (not_transfer_id (f "transfer_id"))
      "recovery stage requires a canonical transfer_id" ;;
    _require_hex (f "block_set_id") 64 "block_set_id" ;;
    if String.eqb stage "restore_start" then
      raise_v (negb (is_none (f "bytes_moved"))) "restore_start bytes_moved must be null"
    else
      moved ← _require_uint (f "bytes_moved") _UINT64_MAX "bytes_moved";
      raise_v (moved <? 1) "post-restore stage requires positive bytes_moved".

(** Lines 613-641: requeue reason, compute child and request status. *)
Definition validate_recovery_tail (stage : string) (f : string → pyval) : res unit :=
  (if String.eqb stage "requeue" then
     raise_unless_in (f "requeue_reason") REQUEUE_REASONS
       "requeue_reason is not in the closed roster"
   else
     raise_v (negb (is_none (f "requeue_reason")))
       "requeue_reason is required only for requeue") ;;
  (if String.eqb stage "first_prefill_or_decode" then
     b ← in_strs (f "compute_kind") ["prefill"; "decode"];
     raise_v (negb b
              || negb (eq_str (f "child_observation_kind") "worker_model_forward_entry")
              || negb (eq_str (f "base_association_kind") "phase_child_observation")
              || negb (eq_str (f "base_association_evidence")
                              "instrumented_execution_context"))
       "first compute child association is incomplete"
   else
     raise_v (existsb (λ name, negb (is_none (f name)))
                ["compute_kind"; "child_observation_kind"; "base_association_kind";
                 "base_association_evidence"])
       "compute child fields are required only at first compute") ;;
  res_iter (λ name, if is_none (f name) then Ok tt else _require_ascii (f name) name 1 64)
    ["request_status_before"; "request_status_after"].

Definition _validate_recovery_fields (fields : pydict) : res unit :=
  let f := dict_get fields in
  raise_unless_in (f "stage") RECOVERY_STAGES
    "recovery stage is not in the seven-stage roster" ;;
  let stage := str_or (f "stage") in
  validate_recovery_links stage f ;;
  validate_recovery_transfer stage f ;;
  validate_recovery_tail stage f.

(** ** Record builders *)

Definition build_profile_start_record (process_uuid : string) (pid started_timestamp_ns : pyval)
    (clock_domain_id : string) (provenance : RuntimeProvenance)
    (config : KVRecoveryProfileConfig) : res pydict :=
  _require_hex (PStr process_uuid) 32 "process_uuid" ;;
  pid ← _require_uint pid _UINT32_MAX "pid";
  started ← _require_uint started_timestamp_ns _UINT64_MAX "started_timestamp_ns";
  _require_hex (PStr clock_domain_id) 32 "clock_domain_id" ;;
  let record :=
    [("schema", PStr (pc_profile_id config));
     ("record_type", PStr "profile_start");
     ("process_uuid", PStr process_uuid);
     ("pid", PInt pid);
     ("started_timestamp_ns", PInt started);
     ("clock_source", PStr "CLOCK_MONOTONIC");
     ("clock_domain_id", PStr clock_domain_id);
     ("profile_id", PStr (pc_profile_id config));
     ("run_id", PStr (pc_run_id config));
     ("profiler_parent_commit", PStr (profiler_parent_commit provenance));
     ("runtime_core_commit", PStr (runtime_core_commit provenance));
     ("device_plugin_commit", PStr (device_plugin_commit provenance));
     ("base_trace_schema", PStr SCHEMA_VERSION);
     ("rank", PInt (pc_rank config));
     ("world_size", PInt (pc_world_size config));
     ("implementation_family", PStr (pc_implementation_family config));
     ("connector_name", PStr (pc_connector_name config));
     ("spec_name", PStr (pc_spec_name config));
     ("communication_mode", PStr (pc_communication_mode config));
     ("limits", PDict PROFILE_LIMITS)] in
  _bounded_line record ;;
  Ok record.

Definition profile_record_id (process_uuid : string) (seq : Z) : string :=
  make_id process_uuid "k" seq.

(** [required] of [build_profile_data_record]. *)
Definition required_fields (record_type : string) : list string :=
  if String.eqb record_type "wait_set_chunk" then _WAIT_FIELDS
  else _REQUEST_FIELDS ++
    (if String.eqb record_type "block_set_chunk" then _BLOCK_FIELDS
     else if String.eqb record_type "transfer_event" then _TRANSFER_FIELDS
     else _RECOVERY_FIELDS).

Definition validate_profile_fields (record_type process_uuid : string) (fields : pydict)
    : res unit :=
  _require_exact_fields fields (required_fields record_type) record_type ;;
  (if String.eqb record_type "wait_set_chunk" then Ok tt
   else _validate_request_fields fields) ;;
  if String.eqb record_type "block_set_chunk" then _validate_block_fields fields
  else if String.eqb record_type "wait_set_chunk" then
    _validate_wait_fields fields process_uuid
  else if String.eqb record_type "transfer_event" then
    _validate_transfer_fields fields process_uuid
  else _validate_recovery_fields fields.

(** The keys of [fields] never clash with the envelope: the rosters are closed
    and disjoint from it, so [**fields] appends. *)
Definition build_profile_data_record (record_type process_uuid : string) (record_seq : Z)
    (timestamp_ns : pyval) (clock_domain_id : string) (config : KVRecoveryProfileConfig)
    (fields : pydict) : res (pydict * ProfileRecordRef) :=
  raise_v (negb (str_in record_type ProfileRecordType))
    "record_type is not in the profile data roster" ;;
  _require_hex (PStr process_uuid) 32 "process_uuid" ;;
  seq ← _require_uint (PInt record_seq) _UINT64_MAX "record_seq";
  ts ← _require_uint timestamp_ns _UINT64_MAX "timestamp_ns";
  let record_id := profile_record_id process_uuid seq in
  validate_profile_fields record_type process_uuid fields ;;
  _require_hex (PStr clock_domain_id) 32 "clock_domain_id" ;;
  let record :=
    [("schema", PStr (pc_profile_id config));
     ("record_type", PStr record_type);
     ("process_uuid", PStr process_uuid);
     ("record_seq", PInt seq);
     ("record_id", PStr record_id);
     ("run_id", PStr (pc_run_id config));
     ("timestamp_ns", PInt ts);
     ("clock_domain_id", PStr clock_domain_id);
     ("profile_id", PStr (pc_profile_id config))] ++ fields in
  _bounded_line record ;;
  Ok (record, mkProfileRecordRef record_type seq record_id ts record).

(** [counts[name]] *)
Definition count_of (counts : type_counts) (name : string) : Z := default 0 (counts !! name).

(** [set(counts) != expected_keys] *)
Definition counts_keys_differ (counts : type_counts) : bool :=
  negb (bool_decide (dom counts = (list_to_set ProfileRecordType : gset string))).

(** [sorted(expected_keys)] *)
Definition sorted_types :=
  ["block_set_chunk"; "recovery_event"; "transfer_event"; "wait_set_chunk"].

(** [sum(counts.values())] over the four record types. *)
Definition counts_sum (counts : type_counts) : Z :=
  sum_list_Z (map (count_of counts) sorted_types).

Definition require_counts (counts : type_counts) : res unit :=
  res_iter (λ name,
    _require_uint (PInt (count_of counts name)) _UINT64_MAX (name +:+ "_count") ;; Ok tt)
    sorted_types.

Definition profile_loss_record (process_uuid : string) (config : KVRecoveryProfileConfig)
    (loss_interval_seq : Z) (l : ProfileLossInterval) : pydict :=
  [("schema", PStr (pc_profile_id config));
   ("record_type", PStr "loss_interval");
   ("process_uuid", PStr process_uuid);
   ("profile_id", PStr (pc_profile_id config));
   ("loss_interval_seq", PInt loss_interval_seq);
   ("loss_interval_id", PStr (make_id process_uuid "l" loss_interval_seq));
   ("reason", PStr (pl_reason l));
   ("first_dropped_record_seq", PInt (pl_first_record_seq l));
   ("last_dropped_record_seq", PInt (pl_last_record_seq l));
   ("dropped_count", PInt (dropped_count l));
   ("block_set_chunk_count", PInt (count_of (pl_counts l) "block_set_chunk"));
   ("wait_set_chunk_count", PInt (count_of (pl_counts l) "wait_set_chunk"));
   ("transfer_event_count", PInt (count_of (pl_counts l) "transfer_event"));
   ("recovery_event_count", PInt (count_of (pl_counts l) "recovery_event"));
   ("first_observed_timestamp_ns", PInt (pl_first_timestamp_ns l));
   ("last_observed_timestamp_ns", PInt (pl_last_timestamp_ns l))].

(** The keyword arguments of the source are the fields of the interval. *)
Definition build_profile_loss_interval_record (process_uuid : string)
    (config : KVRecoveryProfileConfig) (loss_interval_seq : Z) (l : ProfileLossInterval)
    : res pydict :=
  raise_v (negb (str_in (pl_reason l) LossReason))
    "profile loss reason is outside the closed roster" ;;
  raise_v (counts_keys_differ (pl_counts l)) "profile loss category roster differs" ;;
  require_counts (pl_counts l) ;;
  first ← _require_uint (PInt (pl_first_record_seq l)) _UINT64_MAX "first_dropped_record_seq";
  last ← _require_uint (PInt (pl_last_record_seq l)) _UINT64_MAX "last_dropped_record_seq";
  raise_v ((last <? first) || negb (counts_sum (pl_counts l) =? last - first + 1))
    "profile loss interval counts do not reconcile" ;;
  _require_hex (PStr process_uuid) 32 "process_uuid" ;;
  _require_uint (PInt loss_interval_seq) _UINT64_MAX "loss_interval_seq" ;;
  _require_uint (PInt (pl_first_timestamp_ns l)) _UINT64_MAX "first_observed_timestamp_ns" ;;
  _require_uint (PInt (pl_last_timestamp_ns l)) _UINT64_MAX "last_observed_timestamp_ns" ;;
  let record := profile_loss_record process_uuid config loss_interval_seq l in
  _bounded_line record ;;
  Ok record.

Definition PROFILE_CLOSE_OUTCOMES := ["drained"; "timeout"; "writer_failure"].

Definition profile_summary_record (process_uuid : string) (config : KVRecoveryProfileConfig)
    (ended attempted : Z) (written : type_counts) (wl dd dc wf : Z)
    (close_outcome content_sha256 : string) : pydict :=
  [("schema", PStr (pc_profile_id config));
   ("record_type", PStr "profile_summary");
   ("process_uuid", PStr process_uuid);
   ("profile_id", PStr (pc_profile_id config));
   ("ended_timestamp_ns", PInt ended);
   ("attempted_data_count", PInt attempted);
   ("written_block_set_chunk_count", PInt (count_of written "block_set_chunk"));
   ("written_wait_set_chunk_count", PInt (count_of written "wait_set_chunk"));
   ("written_transfer_event_count", PInt (count_of written "transfer_event"));
   ("written_recovery_event_count", PInt (count_of written "recovery_event"));
   ("written_loss_interval_count", PInt wl);
   ("dropped_data_count", PInt dd);
   ("dropped_control_count", PInt dc);
   ("first_data_record_seq", if attempted =? 0 then PNone else PInt 0);
   ("last_data_record_seq", if attempted =? 0 then PNone else PInt (attempted - 1));
   ("writer_failure_count", PInt wf);
   ("close_outcome", PStr close_outcome);
   ("content_sha256", PStr content_sha256)].

Definition build_profile_summary_record (process_uuid : string)
    (config : KVRecoveryProfileConfig) (ended_timestamp_ns : pyval) (attempted_data_count : Z)
    (written_counts : type_counts) (wl dd dc wf : Z) (close_outcome content_sha256 : string)
    : res pydict :=
  raise_v (counts_keys_differ written_counts) "profile summary category roster differs" ;;
  attempted ← _require_uint (PInt attempted_data_count) _UINT64_MAX "attempted_data_count";
  dropped ← _require_uint (PInt dd) _UINT64_MAX "dropped_data_count";
  require_counts written_counts ;;
  raise_v (negb (attempted =? counts_sum written_counts + dropped))
    "profile summary ledger does not reconcile" ;;
  raise_v (negb (str_in close_outcome PROFILE_CLOSE_OUTCOMES))
    "profile close_outcome is outside the closed roster" ;;
  _require_hex (PStr process_uuid) 32 "process_uuid" ;;
  ended ← _require_uint ended_timestamp_ns _UINT64_MAX "ended_timestamp_ns";
  _require_uint (PInt wl) _UINT64_MAX "written_loss_interval_count" ;;
  _require_uint (PInt dc) _UINT64_MAX "dropped_control_count" ;;
  _require_uint (PInt wf) _UINT64_MAX "writer_failure_count" ;;
  _require_hex (PStr content_sha256) 64 "content_sha256" ;;
  let record := profile_summary_record process_uuid config ended attempted written_counts
                  wl dropped dc wf close_outcome content_sha256 in
  _bounded_line record ;;
  Ok record.

(** ** Helper lemmas *)

#[global] Arguments _require_uint : simpl never.
#[global] Arguments _require_hex : simpl never.
#[global] Arguments _bounded_line : simpl never.

Lemma raise_v_ok b msg u : raise_v b msg = Ok u ↔ b = false.
Proof. unfold raise_v. rewrite ensure_ok. apply negb_true_iff. Qed.

Lemma require_uint_ok v m f z : _require_uint v m f = Ok z ↔ v = PInt z ∧ 0 ≤ z ≤ m.
Proof.
  unfold _require_uint. rewrite bind_ok. setoid_rewrite raise_v_ok. split.
  - intros ([] & H & [= <-]). bool_prop. destruct v; try done. simpl in *. bool_prop. by split.
  - intros (-> & H). exists tt. simpl. split; [|done].
    apply negb_false_iff, andb_true_iff. rewrite !Z.leb_le. lia.
Qed.

Lemma require_hex_ok v n f u :
  _require_hex v n f = Ok u ↔ ∃ s, v = PStr s ∧ hex_match n s = true.
Proof.
  unfold _require_hex. rewrite raise_v_ok. destruct v; try by split; [|intros (?&?&?)].
  rewrite negb_false_iff. naive_solver.
Qed.

Lemma raise_unless_in_ok v l msg u :
  raise_unless_in v l msg = Ok u ↔ ∃ s, v = PStr s ∧ s ∈ l.
Proof.
  unfold raise_unless_in. rewrite bind_ok. setoid_rewrite raise_v_ok. split.
  - intros (b & H & Hb). apply negb_false_iff in Hb. by eapply in_strs_ok.
  - intros (s & -> & Hs). exists true. simpl. split; [|done]. f_equal. by apply str_in_spec.
Qed.

Ltac inv_profile :=
  repeat (progress inv_ok || match goal with
  | H : raise_v _ _ = Ok _ |- _ => apply raise_v_ok in H
  | H : _require_uint _ _ _ = Ok _ |- _ => apply require_uint_ok in H as [? ?]
  | H : _require_hex _ _ _ = Ok _ |- _ => apply require_hex_ok in H as (? & ? & ?)
  | H : raise_unless_in _ _ _ = Ok _ |- _ => apply raise_unless_in_ok in H as (? & ? & ?)
  end).

(** Discharge one bind of a goal [_ = Ok _] whose step yields [a]. *)
Ltac step_with a := cbv beta zeta; apply bind_ok; exists a; split; cbv beta zeta.

Lemma counts_sum_unfold c :
  counts_sum c = count_of c "block_set_chunk" + count_of c "recovery_event"
                 + count_of c "transfer_event" + count_of c "wait_set_chunk".
Proof. unfold counts_sum. cbn [map sorted_types sum_list_Z foldr]. lia. Qed.

Lemma require_counts_ok c u :
  require_counts c = Ok u ↔ ∀ t, t ∈ ProfileRecordType → uint64 (count_of c t).
Proof.
  unfold require_counts. rewrite res_iter_ok.
  assert (∀ t, (_require_uint (PInt (count_of c t)) _UINT64_MAX (t +:+ "_count") ;; Ok tt)
               = Ok tt ↔ uint64 (count_of c t)) as E.
  { intros t. rewrite bind_ok. setoid_rewrite require_uint_ok. unfold uint64. naive_solver. }
  transitivity (Forall (λ t, uint64 (count_of c t)) sorted_types).
  { split; intros H; (eapply Forall_impl; [exact H|]); intros t; apply E. }
  rewrite Forall_forall. unfold sorted_types, ProfileRecordType.
  setoid_rewrite elem_of_cons. setoid_rewrite elem_of_cons. setoid_rewrite elem_of_cons.
  setoid_rewrite elem_of_cons. setoid_rewrite elem_of_nil. naive_solver.
Qed.

(** ** Chunk rows *)

(** A chunk position: [index < count] and a positive total within [bound]. *)
Definition chunk_wf (index count total : pyval) (bound : Z) : Prop :=
  ∃ i c t, index = PInt i ∧ count = PInt c ∧ total = PInt t ∧
           0 ≤ i < c ∧ c ≤ _UINT32_MAX ∧ 1 ≤ t ≤ bound.

(** [v] is a closed block row with these coordinates and logical id. *)
Definition block_row (v : pyval) (r : (Z * Z) * string) : Prop :=
  ∃ d, v = PDict d ∧
    keys_are d ["group_index"; "logical_ordinal"; "logical_block_id"] = true ∧
    dict_get d "group_index" = PInt r.1.1 ∧ 0 ≤ r.1.1 ≤ _UINT32_MAX ∧
    dict_get d "logical_ordinal" = PInt r.1.2 ∧ uint64 r.1.2 ∧
    dict_get d "logical_block_id" = PStr r.2 ∧ hex_match 32 r.2 = true.

Definition pair_lt (a b : Z * Z) : Prop := a.1 < b.1 ∨ (a.1 = b.1 ∧ a.2 < b.2).

#[export] Instance pair_lt_trans : Transitive pair_lt.
Proof. intros [a1 a2] [b1 b2] [c1 c2]. unfold pair_lt. simpl. lia. Qed.

Lemma pair_le_false a b : pair_le a b = false ↔ pair_lt b a.
Proof.
  destruct a as [a1 a2], b as [b1 b2]. unfold pair_le, pair_lt. cbn [fst snd].
  destruct (Z.ltb_spec a1 b1), (Z.eqb_spec a1 b1), (Z.leb_spec a2 b2); simpl;
    split; intros; try done; lia.
Qed.

Definition opt_list {A} (o : option A) : list A := match o with Some x => [x] | None => [] end.

Lemma validate_block_rows_ok prev seen blocks u :
  validate_block_rows prev seen blocks = Ok u ↔
  ∃ rows, Forall2 block_row blocks rows ∧
    Sorted pair_lt (opt_list prev ++ rows.*1) ∧
    NoDup rows.*2 ∧ (∀ i, i ∈ rows.*2 → i ∉ seen).
Proof.
  destruct u. revert prev seen. induction blocks as [|b blocks IH]; intros prev seen.
  - simpl. split; [|done]. intros _. exists []. split; [constructor|]. rewrite app_nil_r.
    split; [|split; [constructor|set_solver]]. destruct prev; repeat constructor.
  - split.
    + intros H. destruct b as [| | | | |d|]; try done. cbn [validate_block_rows] in H.
      inv_profile. bool_prop.
      match goal with H : validate_block_rows _ _ _ = _ |- _ =>
        apply IH in H as (rows & HF & HS & HN & Hseen) end.
      match goal with H : dict_get d "logical_block_id" = PStr ?s |- _ =>
        rewrite H in *; simpl in *; rename s into lid end.
      match goal with
      | H : dict_get d "group_index" = PInt ?g, H' : dict_get d "logical_ordinal" = PInt ?o |- _ =>
        exists (((g, o), lid) :: rows)
      end.
      split_and!.
      * constructor; [|done]. exists d. simpl. unfold uint64. split_and!; done || lia.
      * rewrite fmap_cons. simpl. destruct prev as [p|]; simpl in *; [|done].
        constructor; [done|]. constructor. by apply pair_le_false.
      * rewrite fmap_cons. constructor; [|done]. intros Hin. apply Hseen in Hin. set_solver.
      * intros i. rewrite fmap_cons, elem_of_cons. intros [->|Hi]; [done|].
        apply Hseen in Hi. set_solver.
    + intros (rows & HF & HS & HN & Hseen). inversion HF as [|? r ? rows' Hb HF']; subst.
      destruct Hb as (d & -> & Hk & Hg & Hgb & Ho & Hob & Hi & Hih).
      destruct r as [[g o] i]. simpl in *.
      apply NoDup_cons in HN as [HN1 HN2].
      step_with tt. { apply raise_v_ok. by rewrite Hk. }
      step_with g. { by apply require_uint_ok. }
      step_with o. { by apply require_uint_ok. }
      step_with tt. { apply require_hex_ok; eauto. }
      step_with tt.
      { apply raise_v_ok. destruct prev as [p|]; [|done]. simpl in HS.
        apply pair_le_false. inversion HS as [|? ? ? Hd]; subst. by inversion Hd. }
      rewrite Hi. simpl.
      step_with tt. { apply raise_v_ok, str_in_spec_false. set_solver. }
      apply IH. exists rows'. split; [done|]. split_and!; [|done|set_solver].
      destruct prev; simpl in *; [by inversion HS|done].
Qed.

Lemma _validate_chunk_ok i c t f b u :
  b ≤ _UINT32_MAX →
  _validate_chunk i c t f = Ok u ∧ (b <? int_of t) = false ↔ chunk_wf i c t b.
Proof.
  intros Hb. unfold _validate_chunk, chunk_wf. destruct u. split.
  - intros [H Ht]. inv_profile. bool_prop. simpl in *. eauto 15 with lia.
  - intros (i' & c' & t' & -> & -> & -> & Hi & Hc & Ht). simpl. split; [|lia].
    step_with i'. { apply require_uint_ok. split; [done|lia]. }
    step_with c'. { apply require_uint_ok. split; [done|lia]. }
    step_with t'. { apply require_uint_ok. split; [done|lia]. }
    apply raise_v_ok. lia.
Qed.

(** ** Wait members *)

(** [a < b] on strings. *)
Definition str_lt (a b : string) : Prop := String.leb b a = false.

Lemma str_lt_spec a b : str_lt a b ↔ ¬ String.le b a.
Proof. unfold str_lt, String.le. destruct (String.leb b a); naive_solver. Qed.

#[export] Instance str_lt_trans : Transitive str_lt.
Proof.
  intros a b c. rewrite !str_lt_spec. intros H1 H2 Hca. apply H1.
  destruct (total String.le b c) as [?|?]; [by trans c|done].
Qed.

(** A transfer id allocated by this process. *)
Definition own_transfer_id (process_uuid s : string) : Prop :=
  _TRANSFER_ID s = true ∧ String.prefix (process_uuid +:+ ":t:") s = true.

Lemma validate_wait_members_ok uuid prev l u :
  validate_wait_members uuid prev l = Ok u ↔
  ∃ ids, l = map PStr ids ∧ Forall (own_transfer_id uuid) ids ∧
         Sorted str_lt (opt_list prev ++ ids).
Proof.
  destruct u. revert prev. induction l as [|v l IH]; intros prev.
  - simpl. split; [|done]. intros _. exists []. split_and!; [done|constructor|].
    rewrite app_nil_r. destruct prev; repeat constructor.
  - split.
    + intros H. destruct v as [| | |s| | |]; try done. cbn [validate_wait_members] in H.
      inv_profile. bool_prop.
      match goal with H : validate_wait_members _ _ _ = _ |- _ =>
        apply IH in H as (ids & -> & HF & HS) end.
      exists (s :: ids). split_and!; [done|by constructor; [split|]|].
      destruct prev as [p|]; simpl in *; [|done]. by constructor; [|constructor].
    + intros ([|s ids] & E & HF & HS); [done|]. injection E as -> ->.
      apply Forall_cons in HF as [[Ht Hp] HF]. cbn [validate_wait_members].
      step_with tt. { apply raise_v_ok. by rewrite Ht. }
      step_with tt. { apply raise_v_ok. by rewrite Hp. }
      step_with tt.
      { apply raise_v_ok. destruct prev as [p|]; [|done]. simpl in HS.
        inversion HS as [|? ? ? Hd]; subst. by inversion Hd. }
      apply IH. exists ids. split_and!; [done|done|].
      destruct prev; simpl in *; [by inversion HS|done].
Qed.

Lemma bounded_array_ok v msg l :
  bounded_array v msg = Ok l ↔ v = PList l ∧ (1 ≤ List.length l ≤ 64)%nat.
Proof.
  destruct v; simpl; try by split; [|intros [? ?]].
  rewrite bind_ok. setoid_rewrite raise_v_ok. split.
  - intros ([] & H & [= <-]). bool_prop. split; [done|lia].
  - intros ([= <-] & H). exists tt. split; [|done]. apply negb_false_iff.
    rewrite andb_true_iff, !Z.leb_le. lia.
Qed.

(** ** Recovery stages *)

(** What the frozen seven-stage roster requires of the fields of a stage. *)
Record recovery_wf (stage : string) (f : string → pyval) : Prop := {
  rwf_stage : stage ∈ RECOVERY_STAGES;
  rwf_occurrence : ∃ n, f "occurrence" = PInt n ∧ 0 ≤ n ∧
    (if String.eqb stage "requeue" then n < 64 else n = 0);
  rwf_base : if str_in stage BASE_STAGES
             then ∃ s, f "base_event_id" = PStr s ∧ _EVENT_ID s = true
             else f "base_event_id" = PNone;
  rwf_admission : if String.eqb stage "admission"
             then ∃ s, f "base_admission_started_event_id" = PStr s ∧ _EVENT_ID s = true
             else f "base_admission_started_event_id" = PNone;
  rwf_chain : if String.eqb stage "preempt" then f "from_profile_event_id" = PNone
             else ∃ s, f "from_profile_event_id" = PStr s ∧ _PROFILE_RECORD_ID s = true;
  rwf_transfer : if String.eqb stage "preempt"
             then f "transfer_id" = PNone ∧ f "block_set_id" = PNone
             else (∃ s, f "transfer_id" = PStr s ∧ _TRANSFER_ID s = true) ∧
                  (∃ s, f "block_set_id" = PStr s ∧ hex_match 64 s = true);
  rwf_bytes : if str_in stage ["preempt"; "restore_start"] then f "bytes_moved" = PNone
             else ∃ n, f "bytes_moved" = PInt n ∧ 1 ≤ n ≤ _UINT64_MAX;
  rwf_requeue : if String.eqb stage "requeue"
             then ∃ s, f "requeue_reason" = PStr s ∧ s ∈ REQUEUE_REASONS
             else f "requeue_reason" = PNone;
  rwf_compute : if String.eqb stage "first_prefill_or_decode"
             then (∃ s, f "compute_kind" = PStr s ∧ s ∈ ["prefill"; "decode"]) ∧
                  f "child_observation_kind" = PStr "worker_model_forward_entry" ∧
                  f "base_association_kind" = PStr "phase_child_observation" ∧
                  f "base_association_evidence" = PStr "instrumented_execution_context"
             else Forall (λ k, f k = PNone)
                  ["compute_kind"; "child_observation_kind"; "base_association_kind";
                   "base_association_evidence"] }.

Lemma nullable_event_ok v n u :
  _require_nullable_event_id v n = Ok u ↔
  v = PNone ∨ ∃ s, v = PStr s ∧ _EVENT_ID s = true.
Proof.
  destruct u. unfold _require_nullable_event_id, _require_event_id.
  destruct v; simpl; try (rewrite raise_v_ok; split; [done|by intros [?|(?&?&?)]]).
  - split; [by left|done].
  - rewrite raise_v_ok, negb_false_iff. split; [|naive_solver]. by right; eexists.
Qed.

Lemma nullable_profile_ok v n u :
  _require_nullable_profile_record_id v n = Ok u ↔
  v = PNone ∨ ∃ s, v = PStr s ∧ _PROFILE_RECORD_ID s = true.
Proof.
  destruct u. unfold _require_nullable_profile_record_id, _require_profile_record_id.
  destruct v; simpl; try (rewrite raise_v_ok; split; [done|by intros [?|(?&?&?)]]).
  - split; [by left|done].
  - rewrite raise_v_ok, negb_false_iff. split; [|naive_solver]. by right; eexists.
Qed.

Lemma is_none_spec v : is_none v = true ↔ v = PNone.
Proof. by destruct v. Qed.

Lemma not_transfer_id_false v :
  not_transfer_id v = false ↔ ∃ s, v = PStr s ∧ _TRANSFER_ID s = true.
Proof.
  destruct v; simpl; try by split; [|intros (?&?&?)].
  rewrite negb_false_iff. naive_solver.
Qed.

Lemma recovery_links_sound stage f u :
  validate_recovery_links stage f = Ok u →
  (∃ n, f "occurrence" = PInt n ∧ 0 ≤ n ∧
    (if String.eqb stage "requeue" then n < 64 else n = 0)) ∧
  (if str_in stage BASE_STAGES
   then ∃ s, f "base_event_id" = PStr s ∧ _EVENT_ID s = true
   else f "base_event_id" = PNone) ∧
  (if String.eqb stage "admission"
   then ∃ s, f "base_admission_started_event_id" = PStr s ∧ _EVENT_ID s = true
   else f "base_admission_started_event_id" = PNone) ∧
  (if String.eqb stage "preempt" then f "from_profile_event_id" = PNone
   else ∃ s, f "from_profile_event_id" = PStr s ∧ _PROFILE_RECORD_ID s = true).
Proof.
  unfold validate_recovery_links. intros H. inv_profile.
  repeat match goal with
  | H : _require_nullable_event_id _ _ = Ok _ |- _ => apply nullable_event_ok in H
  | H : _require_nullable_profile_record_id _ _ = Ok _ |- _ => apply nullable_profile_ok in H
  | H : negb (Bool.eqb _ _) = false |- _ => apply negb_false_iff, Bool.eqb_prop in H
  end.
  split_and!.
  - eexists. split; [eassumption|]. split; [lia|].
    destruct (String.eqb stage "requeue"); inv_profile; bool_prop;
      unfold MAX_REQUEUE_OBSERVATIONS_PER_EPISODE in *; done || lia.
  - destruct (str_in stage BASE_STAGES); inv_profile; bool_prop.
    + match goal with H : f "base_event_id" = PNone ∨ _ |- _ => destruct H as [E|?] end;
        [by rewrite E in *|done].
    + by apply is_none_spec.
  - destruct (String.eqb stage "admission"), (f "base_admission_started_event_id");
      naive_solver.
  - destruct (String.eqb stage "preempt"); inv_profile; bool_prop.
    + by apply is_none_spec.
    + match goal with H : f "from_profile_event_id" = PNone ∨ _ |- _ => destruct H as [E|?] end;
        [by rewrite E in *|done].
Qed.

Lemma recovery_transfer_sound stage f u :
  validate_recovery_transfer stage f = Ok u →
  (if String.eqb stage "preempt"
   then f "transfer_id" = PNone ∧ f "block_set_id" = PNone
   else (∃ s, f "transfer_id" = PStr s ∧ _TRANSFER_ID s = true) ∧
        (∃ s, f "block_set_id" = PStr s ∧ hex_match 64 s = true)) ∧
  (if str_in stage ["preempt"; "restore_start"] then f "bytes_moved" = PNone
   else ∃ n, f "bytes_moved" = PInt n ∧ 1 ≤ n ≤ _UINT64_MAX).
Proof.
  unfold validate_recovery_transfer. unfold str_in; cbn [existsb].
  destruct (String.eqb stage "preempt"); intros H; inv_profile; bool_prop.
  - cbn [orb]. rewrite <- !is_none_spec. tauto.
  - split; [split; [by apply not_transfer_id_false|eauto]|].
    destruct (String.eqb stage "restore_start"); simpl; inv_profile; bool_prop.
    + by apply is_none_spec.
    + eexists. split; [eassumption|lia].
Qed.

Lemma recovery_tail_sound stage f u :
  validate_recovery_tail stage f = Ok u →
  (if String.eqb stage "requeue"
   then ∃ s, f "requeue_reason" = PStr s ∧ s ∈ REQUEUE_REASONS
   else f "requeue_reason" = PNone) ∧
  (if String.eqb stage "first_prefill_or_decode"
   then (∃ s, f "compute_kind" = PStr s ∧ s ∈ ["prefill"; "decode"]) ∧
        f "child_observation_kind" = PStr "worker_model_forward_entry" ∧
        f "base_association_kind" = PStr "phase_child_observation" ∧
        f "base_association_evidence" = PStr "instrumented_execution_context"
   else Forall (λ k, f k = PNone)
        ["compute_kind"; "child_observation_kind"; "base_association_kind";
         "base_association_evidence"]).
Proof.
  unfold validate_recovery_tail. intros H. inv_profile. split.
  - destruct (String.eqb stage "requeue"); inv_profile; bool_prop; [eauto|].
    by apply is_none_spec.
  - destruct (String.eqb stage "first_prefill_or_decode"); inv_profile; bool_prop; subst.
    + rewrite <- !eq_str_spec. split_and!; try done. by eapply in_strs_ok.
    + simpl in *. bool_prop.
      repeat constructor; by apply is_none_spec.
Qed.

(** ** Properties *)

(** [_validate_block_fields] accepts exactly the canonical block chunks: a
    digest, a chunk position within the frozen 4096-block bound, and 1 to 64
    closed rows whose (group, ordinal) coordinates strictly increase and whose
    logical block ids are pairwise distinct. *)
Lemma block_chunk_spec fields :
  _validate_block_fields fields = Ok tt ↔
  (∃ s, dict_get fields "block_set_id" = PStr s ∧ hex_match 64 s = true) ∧
  chunk_wf (dict_get fields "chunk_index") (dict_get fields "chunk_count")
           (dict_get fields "total_block_count") MAX_LOGICAL_BLOCKS_PER_BLOCK_SET ∧
  ∃ blocks rows, dict_get fields "blocks" = PList blocks ∧
    (1 ≤ List.length blocks ≤ 64)%nat ∧ Forall2 block_row blocks rows ∧
    StronglySorted pair_lt rows.*1 ∧ NoDup rows.*2.
Proof.
  assert (MAX_LOGICAL_BLOCKS_PER_BLOCK_SET ≤ _UINT32_MAX) as Hb by done.
  unfold _validate_block_fields. split.
  - intros H. inv_profile.
    match goal with H : bounded_array _ _ = _ |- _ => apply bounded_array_ok in H as [? ?] end.
    match goal with H : validate_block_rows _ _ _ = _ |- _ =>
      apply validate_block_rows_ok in H as (rows & HF & HS & HN & _) end.
    split_and!; [eauto|by apply (_validate_chunk_ok _ _ _ "total_block_count" _ tt Hb)|].
    eexists _, rows. split_and!; try done; try lia.
    apply Sorted_StronglySorted; [intros ? ? ?; apply transitivity|done].
  - intros (Hh & Hc & blocks & rows & E & Hl & HF & HS & HN).
    apply (_validate_chunk_ok _ _ _ "total_block_count" _ tt Hb) in Hc as [Hc1 Hc2].
    step_with tt. { by apply require_hex_ok. }
    step_with tt. { done. }
    step_with tt. { by apply raise_v_ok. }
    step_with blocks. { by apply bounded_array_ok. }
    apply validate_block_rows_ok. exists rows. split_and!; [done| |done|set_solver].
    by apply StronglySorted_Sorted.
Qed.

(** [_validate_wait_fields] accepts exactly the canonical wait chunks: 1 to
    64 transfer ids of the own process, strictly increasing (hence distinct),
    within the frozen 4096-transfer bound. *)
Lemma wait_chunk_spec fields process_uuid :
  _validate_wait_fields fields process_uuid = Ok tt ↔
  dict_get fields "operation" = PStr "transfer_wait" ∧
  (∃ s, dict_get fields "wait_set_id" = PStr s ∧ hex_match 64 s = true) ∧
  chunk_wf (dict_get fields "chunk_index") (dict_get fields "chunk_count")
           (dict_get fields "total_transfer_count") MAX_TRANSFER_IDS_PER_WAIT_SET ∧
  ∃ ids, dict_get fields "transfer_ids" = PList (map PStr ids) ∧
    (1 ≤ List.length ids ≤ 64)%nat ∧ Forall (own_transfer_id process_uuid) ids ∧
    StronglySorted str_lt ids.
Proof.
  assert (MAX_TRANSFER_IDS_PER_WAIT_SET ≤ _UINT32_MAX) as Hb by done.
  unfold _validate_wait_fields. split.
  - intros H. inv_profile. bool_prop.
    match goal with H : bounded_array _ _ = _ |- _ => apply bounded_array_ok in H as [? Hl] end.
    match goal with H : validate_wait_members _ _ _ = _ |- _ =>
      apply validate_wait_members_ok in H as (ids & -> & HF & HS) end.
    rewrite length_map in Hl.
    split_and!; [by apply eq_str_spec|eauto| |].
    { apply (_validate_chunk_ok _ _ _ "total_transfer_count" _ tt Hb). split; [done|].
      by apply Z.ltb_ge. }
    exists ids. split_and!; try done; try lia.
    apply Sorted_StronglySorted; [intros ? ? ?; apply transitivity|done].
  - intros (Ho & Hh & Hc & ids & E & Hl & HF & HS).
    apply (_validate_chunk_ok _ _ _ "total_transfer_count" _ tt Hb) in Hc as [Hc1 Hc2].
    step_with tt. { apply raise_v_ok. by rewrite Ho. }
    step_with tt. { by apply require_hex_ok. }
    step_with tt. { done. }
    step_with tt. { by apply raise_v_ok. }
    step_with (map PStr ids). { apply bounded_array_ok. by rewrite length_map. }
    apply validate_wait_members_ok. exists ids. split_and!; [done|done|].
    by apply StronglySorted_Sorted.
Qed.

(** Every recovery record the profile accepts is a stage of the frozen
    seven-stage roster with exactly that stage's fields: the occurrence bound,
    the base event association, the predecessor chain that only [preempt]
    starts, the transfer identity, the positive byte count from [restore_done]
    on, the requeue reason and the compute child ([recovery_wf]); and it is
    numbered canonically. *)
Theorem recovery_record_sound uuid seq ts clock config fields record ref :
  build_profile_data_record "recovery_event" uuid seq ts clock config fields
    = Ok (record, ref) →
  (∃ stage, dict_get fields "stage" = PStr stage ∧ recovery_wf stage (dict_get fields)) ∧
  pr_record_id ref = profile_record_id uuid seq ∧ pr_record_seq ref = seq ∧ uint64 seq ∧
  pr_record ref = record.
Proof.
  unfold build_profile_data_record, validate_profile_fields. intros H. cbn [String.eqb] in H.
  inv_profile. simpl in *.
  match goal with H : _validate_recovery_fields _ = _ |- _ =>
    unfold _validate_recovery_fields in H; inv_profile end.
  match goal with H : dict_get fields "stage" = PStr ?s |- _ => rewrite H in *; rename s into st end.
  simpl in *. simplify_eq. split; [|done]. exists st. split; [done|].
  match goal with H : validate_recovery_links _ _ = _ |- _ =>
    apply recovery_links_sound in H; destruct_and! H end.
  match goal with H : validate_recovery_transfer _ _ = _ |- _ =>
    apply recovery_transfer_sound in H; destruct_and! H end.
  match goal with H : validate_recovery_tail _ _ = _ |- _ =>
    apply recovery_tail_sound in H; destruct_and! H end.
  by constructor.
Qed.

Definition example_config := default_profile_config example_trace.

Definition example_request_fields : pydict :=
  [("trace_id", PStr example_trace); ("engine_lifecycle_id", PStr (example_trace +:+ ":e:0"));
   ("runtime_request_id", PStr "req-1"); ("request_id_kind", PStr "engine_internal");
   ("sample_index", PInt 0); ("recovery_epoch", PInt 1);
   ("episode_id", PStr (example_trace +:+ ":e:0:k:1"))].

Definition example_preempt_fields : pydict :=
  example_request_fields ++
  [("stage", PStr "preempt"); ("occurrence", PInt 0);
   ("base_event_id", PStr (event_id_of example_uuid 4));
   ("base_admission_started_event_id", PNone); ("from_profile_event_id", PNone);
   ("transfer_id", PNone); ("block_set_id", PNone); ("bytes_moved", PNone);
   ("requeue_reason", PNone); ("compute_kind", PNone); ("child_observation_kind", PNone);
   ("base_association_kind", PNone); ("base_association_evidence", PNone);
   ("request_status_before", PStr "RUNNING"); ("request_status_after", PStr "PREEMPTED")].

Lemma recovery_record_sound_witness :
  ∃ stage, dict_get example_preempt_fields "stage" = PStr stage ∧
           recovery_wf stage (dict_get example_preempt_fields).
Proof.
  destruct (build_profile_data_record "recovery_event" example_uuid 2 (PInt 9) example_trace
              example_config example_preempt_fields) as [[record ref]|] eqn:E;
    [|vm_compute in E; discriminate E].
  exact (proj1 (recovery_record_sound _ _ _ _ _ _ _ _ E)).
Defined.

Lemma bounded_line_split record (u : unit) (out : pydict) :
  ((_bounded_line record ;; Ok record) = Ok out) ↔
  is_ok (_bounded_line record) = true ∧ out = record.
Proof.
  rewrite bind_ok, is_ok_spec. split.
  - intros (l & ? & [= ->]). split; [by eexists|done].
  - intros [[l ?] ->]. by eexists.
Qed.

(** [build_profile_loss_interval_record] accepts exactly the intervals whose
    counts have the four record types as keys and sum to the length of the
    sequence range, with a frozen reason, 64-bit fields and a line that fits. *)
Theorem profile_loss_iff uuid config lseq l :
  is_ok (build_profile_loss_interval_record uuid config lseq l) = true ↔
  pl_reason l ∈ LossReason ∧
  dom (pl_counts l) = (list_to_set ProfileRecordType : gset string) ∧
  (∀ t, t ∈ ProfileRecordType → uint64 (count_of (pl_counts l) t)) ∧
  hex_match 32 uuid = true ∧
  Forall uint64 [pl_first_record_seq l; pl_last_record_seq l; lseq;
                 pl_first_timestamp_ns l; pl_last_timestamp_ns l] ∧
  pl_first_record_seq l ≤ pl_last_record_seq l ∧
  counts_sum (pl_counts l) = dropped_count l ∧
  is_ok (_bounded_line (profile_loss_record uuid config lseq l)) = true.
Proof.
  rewrite is_ok_spec. unfold build_profile_loss_interval_record, counts_keys_differ, dropped_count.
  rewrite !Forall_cons. unfold uint64. split.
  - intros [record H]. inv_profile.
    match goal with H : require_counts _ = _ |- _ =>
      pose proof (proj1 (require_counts_ok _ _) H) end.
    bool_prop. simplify_eq.
    match goal with H : bool_decide _ = true |- _ => apply bool_decide_eq_true in H end.
    split_and!; try done; try lia. rewrite is_ok_spec. by eexists.
  - intros (Hr & Hd & Hc & Hu & (H1 & H2 & H3 & H4 & H5 & _) & Hle & Hsum & Hfit).
    apply is_ok_spec in Hfit as [line Hfit]. eexists.
    step_with tt. { by apply raise_v_ok, negb_false_iff, str_in_spec. }
    step_with tt. { apply raise_v_ok, negb_false_iff. by apply bool_decide_eq_true. }
    step_with tt. { by apply require_counts_ok. }
    step_with (pl_first_record_seq l). { by apply require_uint_ok. }
    step_with (pl_last_record_seq l). { by apply require_uint_ok. }
    step_with tt. { apply raise_v_ok. lia. }
    step_with tt. { apply require_hex_ok; eauto. }
    step_with lseq. { by apply require_uint_ok. }
    step_with (pl_first_timestamp_ns l). { by apply require_uint_ok. }
    step_with (pl_last_timestamp_ns l). { by apply require_uint_ok. }
    step_with line. { done. }
    reflexivity.
Qed.

(** [build_profile_summary_record] accepts exactly the summaries whose ledger
    reconciles: attempted data records = written records of the four types +
    dropped records; and the sequence range it publishes is [0, attempted). *)
Theorem profile_summary_iff uuid config ended att written wl dd dc wf outcome digest :
  is_ok (build_profile_summary_record uuid config ended att written wl dd dc wf outcome digest)
    = true ↔
  (∃ t, ended = PInt t ∧ uint64 t ∧
    is_ok (_bounded_line (profile_summary_record uuid config t att written wl dd dc wf
                            outcome digest)) = true) ∧
  dom written = (list_to_set ProfileRecordType : gset string) ∧
  (∀ t, t ∈ ProfileRecordType → uint64 (count_of written t)) ∧
  hex_match 32 uuid = true ∧ Forall uint64 [att; dd; wl; dc; wf] ∧
  att = counts_sum written + dd ∧ outcome ∈ PROFILE_CLOSE_OUTCOMES ∧
  hex_match 64 digest = true.
Proof.
  rewrite is_ok_spec. unfold build_profile_summary_record, counts_keys_differ.
  rewrite !Forall_cons. unfold uint64. split.
  - intros [record H]. inv_profile.
    match goal with H : require_counts _ = _ |- _ =>
      pose proof (proj1 (require_counts_ok _ _) H) end.
    bool_prop. simplify_eq.
    match goal with H : bool_decide _ = true |- _ => apply bool_decide_eq_true in H end.
    split_and!; try done; try lia.
    eexists. split; [reflexivity|]. split; [lia|]. rewrite is_ok_spec. by eexists.
  - intros ((t & -> & Ht & Hfit) & Hd & Hc & Hu & (H1 & H2 & H3 & H4 & H5 & _) & Hsum & Ho & Hh).
    apply is_ok_spec in Hfit as [line Hfit]. eexists.
    step_with tt. { apply raise_v_ok, negb_false_iff. by apply bool_decide_eq_true. }
    step_with att. { by apply require_uint_ok. }
    step_with dd. { by apply require_uint_ok. }
    step_with tt. { by apply require_counts_ok. }
    step_with tt. { apply raise_v_ok, negb_false_iff. by apply Z.eqb_eq. }
    step_with tt. { by apply raise_v_ok, negb_false_iff, str_in_spec. }
    step_with tt. { apply require_hex_ok; eauto. }
    step_with t. { by apply require_uint_ok. }
    step_with wl. { by apply require_uint_ok. }
    step_with dc. { by apply require_uint_ok. }
    step_with wf. { by apply require_uint_ok. }
    step_with tt. { apply require_hex_ok; eauto. }
    step_with line. { done. }
    reflexivity.
Qed.

(** The fields of an accepted transfer phase record. *)
Record transfer_wf (uuid : string) (f : string → pyval) : Prop := {
  twf_id : ∃ s, f "transfer_id" = PStr s ∧ own_transfer_id uuid s;
  twf_job : ∃ n, f "connector_job_id" = PInt n ∧ uint64 n;
  twf_rank : eq_int (f "rank") 0 = true ∧ eq_int (f "world_size") 1 = true;
  twf_direction :
    (f "operation" = PStr "d2h_preserve" ∧ f "direction" = PStr "d2h" ∧
     f "src_medium" = PStr "device_hbm" ∧ f "dst_medium" = PStr "host_cpu") ∨
    (f "operation" = PStr "h2d_restore" ∧ f "direction" = PStr "h2d" ∧
     f "src_medium" = PStr "host_cpu" ∧ f "dst_medium" = PStr "device_hbm");
  twf_blocks : ∃ s, f "block_set_id" = PStr s ∧ hex_match 64 s = true;
  twf_phase :
    (f "transfer_phase" = PStr "submit" ∧ f "bytes_moved" = PNone ∧
     f "device_duration_ns" = PNone ∧ f "success" = PNone ∧ f "failure_code" = PNone) ∨
    (f "transfer_phase" = PStr "done" ∧
     (f "device_duration_ns" = PNone ∨
      ∃ n, f "device_duration_ns" = PInt n ∧ 1 ≤ n ≤ _UINT64_MAX) ∧
     ((f "success" = PBool true ∧ f "failure_code" = PNone ∧
       ∃ n, f "bytes_moved" = PInt n ∧ 1 ≤ n ≤ _UINT64_MAX) ∨
      (f "success" = PBool false ∧
       ∃ s, f "failure_code" = PStr s ∧ s ∈ FAILURE_CODES))) }.

Lemma not_eq_str_false v s : negb (eq_str v s) = false → v = PStr s.
Proof. intros H. by apply eq_str_spec, negb_false_iff. Qed.

Lemma duration_ok v :
  negb (is_none v) && (negb (_is_uint v _UINT64_MAX) || (int_of v <? 1)) = false →
  v = PNone ∨ ∃ n, v = PInt n ∧ 1 ≤ n ≤ _UINT64_MAX.
Proof.
  destruct v; simpl; try done; [by left|]. intros H. bool_prop. right. eexists. split; [done|lia].
Qed.

Lemma transfer_phase_sound f u :
  validate_transfer_phase f = Ok u →
  (f "transfer_phase" = PStr "submit" ∧ f "bytes_moved" = PNone ∧
   f "device_duration_ns" = PNone ∧ f "success" = PNone ∧ f "failure_code" = PNone) ∨
  (f "transfer_phase" = PStr "done" ∧
   (f "device_duration_ns" = PNone ∨
    ∃ n, f "device_duration_ns" = PInt n ∧ 1 ≤ n ≤ _UINT64_MAX) ∧
   ((f "success" = PBool true ∧ f "failure_code" = PNone ∧
     ∃ n, f "bytes_moved" = PInt n ∧ 1 ≤ n ≤ _UINT64_MAX) ∨
    (f "success" = PBool false ∧
     ∃ s, f "failure_code" = PStr s ∧ s ∈ FAILURE_CODES))).
Proof.
  unfold validate_transfer_phase. intros H.
  destruct (eq_str (f "transfer_phase") "submit") eqn:E1.
  { left. apply eq_str_spec in E1. apply raise_v_ok in H. cbn [existsb] in H. bool_prop.
    by rewrite <- !is_none_spec. }
  destruct (eq_str (f "transfer_phase") "done") eqn:E2; [|done].
  right. apply eq_str_spec in E2. split; [done|]. inv_profile.
  split; [by apply duration_ok|].
  match goal with H : negb (is_bool _) = false |- _ => apply negb_false_iff in H end.
  destruct (f "success") as [|[]| | | | |]; try done; simpl in *; inv_profile.
  - left. bool_prop. split; [done|]. split; [by apply is_none_spec|].
    eexists. split; [eassumption|lia].
  - right. split; [done|]. eauto.
Qed.

Lemma three_eq_str v1 v2 v3 s1 s2 s3 :
  negb (eq_str v1 s1) || negb (eq_str v2 s2) || negb (eq_str v3 s3) = false →
  v1 = PStr s1 ∧ v2 = PStr s2 ∧ v3 = PStr s3.
Proof. intros H. bool_prop. by rewrite <- !eq_str_spec. Qed.

(** Every transfer record the profile accepts names a transfer of its own
    process, moves in the direction its operation says, keeps the four
    completion fields null at submit, and at done is either a success with a
    positive byte count and no failure code or a failure with a closed code. *)
Theorem transfer_record_sound uuid seq ts clock config fields record ref :
  build_profile_data_record "transfer_event" uuid seq ts clock config fields
    = Ok (record, ref) → transfer_wf uuid (dict_get fields).
Proof.
  unfold build_profile_data_record, validate_profile_fields. intros H. cbn [String.eqb] in H.
  inv_profile. simpl in *.
  match goal with H : _validate_transfer_fields _ _ = _ |- _ =>
    unfold _validate_transfer_fields in H; rename H into HT end.
  set (f := dict_get fields) in *. clearbody f.
  repeat (progress inv_profile || match goal with
  | H : not_transfer_id _ = false |- _ => apply not_transfer_id_false in H as (? & ? & ?)
  | H : negb _ || _ = false |- _ => apply orb_false_iff in H as [? ?]
  | H : negb (eq_str _ _) = false |- _ => apply not_eq_str_false in H
  | H : validate_transfer_phase _ = Ok _ |- _ => apply transfer_phase_sound in H
  | H : f "operation" = PStr ?s, H' : ?s ∈ ["d2h_preserve"; "h2d_restore"] |- _ =>
      rewrite H in *; rewrite !elem_of_cons, elem_of_nil in H'; destruct H' as [->|[->|[]]]
  | H : (let '_ := if eq_str (PStr _) "d2h_preserve" then _ else _ in _) = _ |- _ =>
      simpl in H
  end);
  (match goal with H : negb (String.prefix _ _) = false |- _ =>
     apply negb_false_iff in H end);
  (match goal with H : f "transfer_id" = _ |- _ => rewrite H in *; simpl in * end);
  (match goal with H : negb _ || negb _ || negb _ = false |- _ => apply three_eq_str in H end);
  constructor; unfold own_transfer_id, uint64; try by eauto.
  all: split; by apply negb_false_iff.
Qed.

Definition example_transfer_fields : pydict :=
  example_request_fields ++
  [("transfer_id", PStr (example_uuid +:+ ":t:3")); ("connector_job_id", PInt 3);
   ("rank", PInt 0); ("world_size", PInt 1); ("operation", PStr "h2d_restore");
   ("direction", PStr "h2d"); ("src_medium", PStr "host_cpu");
   ("dst_medium", PStr "device_hbm");
   ("block_set_id", PStr (example_uuid +:+ example_trace));
   ("transfer_phase", PStr "done"); ("bytes_moved", PInt 4096);
   ("device_duration_ns", PNone); ("success", PBool true); ("failure_code", PNone)].

Lemma transfer_record_sound_witness : transfer_wf example_uuid (dict_get example_transfer_fields).
Proof.
  destruct (build_profile_data_record "transfer_event" example_uuid 2 (PInt 9) example_trace
              example_config example_transfer_fields) as [[record ref]|] eqn:E;
    [|vm_compute in E; discriminate E].
  exact (transfer_record_sound _ _ _ _ _ _ _ _ E).
Defined.
