(* ===== verification/SinkState.v ===== *)
(** * runtime_hooks.py: the state of the bounded JSONL exporter

    [JsonlTraceSink] serves two streams with the same bookkeeping: the base
    shard, whose counters are attributes of the sink, and the optional
    KV-recovery profile shard, whose counters are the fields of
    [_ProfileWriterState].  [Lane] holds those twin counters once; the lane of a
    stream is selected by [lane].  The file name, the descriptor and the bytes
    written to it belong to the operating system and are part of the lane. *)

From Stdlib Require Import ZArith Lia Ascii String.
From stdpp Require Import base list strings gmap sorting.
From S2P Require Import Prelude PyValue Sha256 RuntimeProtocol ProfileProtocol.

(** ** Data classes *)

Record CloseResult := mkCloseResult {
  cr_close_outcome : string;
  cr_summary_written : bool;
  cr_attempted_data_count : Z;
  cr_written_event_count : Z;
  cr_written_edge_count : Z;
  cr_dropped_data_count : Z;
  cr_dropped_control_count : Z;
  cr_profile_summary_written : bool;
  cr_profile_attempted_data_count : Z;
  cr_profile_dropped_data_count : Z;
  cr_profile_dropped_control_count : Z }.

(** The two values of the [stream] field of a queued record. *)
Inductive stream := Base | Profile.

#[export] Instance stream_eq_dec : EqDecision stream.
Proof. solve_decision. Defined.

Record _QueuedRecord := mkQueued {
  q_raw : string;
  q_record_type : string;
  q_record_seq : option Z;
  q_reserved : bool;
  q_observed_timestamp_ns : option Z;
  q_stream : stream }.

#[export] Instance _QueuedRecord_eq_dec : EqDecision _QueuedRecord.
Proof. solve_decision. Defined.

(** [_OpenLoss] and [_OpenProfileLoss].  The two counters [event_count] and
    [edge_count] of the base stream are the entries ["event"] and ["edge"] of
    [ol_counts]. *)
Record _OpenLoss := mkOpenLoss {
  ol_reason : string;
  ol_first_record_seq : Z;
  ol_last_record_seq : Z;
  ol_counts : type_counts;
  ol_first_timestamp_ns : Z;
  ol_last_timestamp_ns : Z }.

(** What the formal name of a shard denotes: the file of the writer, the empty
    reservation sentinel that replaces it while the summary is written, or
    nothing. *)
Inductive formal_name := FData | FSentinel | FAbsent.

#[export] Instance formal_name_eq_dec : EqDecision formal_name.
Proof. solve_decision. Defined.

(** ** Counters and files of one stream

    [written] counts the data records by type, [content_hash] is the text fed
    to the running digest, [file] the bytes appended through the descriptor,
    [fd_open] is [fd >= 0], [formal] and [incomplete] say what the formal name
    denotes and whether the file also has its incomplete name. *)
Record Lane := mkLane {
  queued_bytes : Z;
  ordinary_queued : Z;
  reserved_queued : Z;
  next_record_seq : Z;
  next_loss_interval_seq : Z;
  open_loss : option _OpenLoss;
  attempted_data_count : Z;
  written : type_counts;
  written_loss_interval_count : Z;
  dropped_data_count : Z;
  dropped_control_count : Z;
  writer_failure_count : Z;
  summary_written : bool;
  content_hash : string;
  file : string;
  fd_open : bool;
  formal : formal_name;
  incomplete : bool }.

Definition set_queued_bytes (v : Z) (r : Lane) : Lane :=
  mkLane v (ordinary_queued r) (reserved_queued r) (next_record_seq r)
    (next_loss_interval_seq r) (open_loss r) (attempted_data_count r) (written r)
    (written_loss_interval_count r) (dropped_data_count r) (dropped_control_count r)
    (writer_failure_count r) (summary_written r) (content_hash r) (file r) (fd_open r)
    (formal r) (incomplete r).
Definition set_ordinary_queued (v : Z) (r : Lane) : Lane :=
  mkLane (queued_bytes r) v (reserved_queued r) (next_record_seq r) (next_loss_interval_seq r)
    (open_loss r) (attempted_data_count r) (written r) (written_loss_interval_count r)
    (dropped_data_count r) (dropped_control_count r) (writer_failure_count r)
    (summary_written r) (content_hash r) (file r) (fd_open r) (formal r) (incomplete r).
Definition set_reserved_queued (v : Z) (r : Lane) : Lane :=
  mkLane (queued_bytes r) (ordinary_queued r) v (next_record_seq r) (next_loss_interval_seq r)
    (open_loss r) (attempted_data_count r) (written r) (written_loss_interval_count r)
    (dropped_data_count r) (dropped_control_count r) (writer_failure_count r)
    (summary_written r) (content_hash r) (file r) (fd_open r) (formal r) (incomplete r).
Definition set_next_record_seq (v : Z) (r : Lane) : Lane :=
  mkLane (queued_bytes r) (ordinary_queued r) (reserved_queued r) v (next_loss_interval_seq r)
    (open_loss r) (attempted_data_count r) (written r) (written_loss_interval_count r)
    (dropped_data_count r) (dropped_control_count r) (writer_failure_count r)
    (summary_written r) (content_hash r) (file r) (fd_open r) (formal r) (incomplete r).
Definition set_next_loss_interval_seq (v : Z) (r : Lane) : Lane :=
  mkLane (queued_bytes r) (ordinary_queued r) (reserved_queued r) (next_record_seq r) v
    (open_loss r) (attempted_data_count r) (written r) (written_loss_interval_count r)
    (dropped_data_count r) (dropped_control_count r) (writer_failure_count r)
    (summary_written r) (content_hash r) (file r) (fd_open r) (formal r) (incomplete r).
Definition set_open_loss (v : option _OpenLoss) (r : Lane) : Lane :=
  mkLane (queued_bytes r) (ordinary_queued r) (reserved_queued r) (next_record_seq r)
    (next_loss_interval_seq r) v (attempted_data_count r) (written r)
    (written_loss_interval_count r) (dropped_data_count r) (dropped_control_count r)
    (writer_failure_count r) (summary_written r) (content_hash r) (file r) (fd_open r)
    (formal r) (incomplete r).
Definition set_attempted_data_count (v : Z) (r : Lane) : Lane :=
  mkLane (queued_bytes r) (ordinary_queued r) (reserved_queued r) (next_record_seq r)
    (next_loss_interval_seq r) (open_loss r) v (written r) (written_loss_interval_count r)
    (dropped_data_count r) (dropped_control_count r) (writer_failure_count r)
    (summary_written r) (content_hash r) (file r) (fd_open r) (formal r) (incomplete r).
Definition set_written (v : type_counts) (r : Lane) : Lane :=
  mkLane (queued_bytes r) (ordinary_queued r) (reserved_queued r) (next_record_seq r)
    (next_loss_interval_seq r) (open_loss r) (attempted_data_count r) v
    (written_loss_interval_count r) (dropped_data_count r) (dropped_control_count r)
    (writer_failure_count r) (summary_written r) (content_hash r) (file r) (fd_open r)
    (formal r) (incomplete r).
Definition set_written_loss_interval_count (v : Z) (r : Lane) : Lane :=
  mkLane (queued_bytes r) (ordinary_queued r) (reserved_queued r) (next_record_seq r)
    (next_loss_interval_seq r) (open_loss r) (attempted_data_count r) (written r) v
    (dropped_data_count r) (dropped_control_count r) (writer_failure_count r)
    (summary_written r) (content_hash r) (file r) (fd_open r) (formal r) (incomplete r).
Definition set_dropped_data_count (v : Z) (r : Lane) : Lane :=
  mkLane (queued_bytes r) (ordinary_queued r) (reserved_queued r) (next_record_seq r)
    (next_loss_interval_seq r) (open_loss r) (attempted_data_count r) (written r)
    (written_loss_interval_count r) v (dropped_control_count r) (writer_failure_count r)
    (summary_written r) (content_hash r) (file r) (fd_open r) (formal r) (incomplete r).
Definition set_dropped_control_count (v : Z) (r : Lane) : Lane :=
  mkLane (queued_bytes r) (ordinary_queued r) (reserved_queued r) (next_record_seq r)
    (next_loss_interval_seq r) (open_loss r) (attempted_data_count r) (written r)
    (written_loss_interval_count r) (dropped_data_count r) v (writer_failure_count r)
    (summary_written r) (content_hash r) (file r) (fd_open r) (formal r) (incomplete r).
Definition set_writer_failure_count (v : Z) (r : Lane) : Lane :=
  mkLane (queued_bytes r) (ordinary_queued r) (reserved_queued r) (next_record_seq r)
    (next_loss_interval_seq r) (open_loss r) (attempted_data_count r) (written r)
    (written_loss_interval_count r) (dropped_data_count r) (dropped_control_count r) v
    (summary_written r) (content_hash r) (file r) (fd_open r) (formal r) (incomplete r).
Definition set_summary_written (v : bool) (r : Lane) : Lane :=
  mkLane (queued_bytes r) (ordinary_queued r) (reserved_queued r) (next_record_seq r)
    (next_loss_interval_seq r) (open_loss r) (attempted_data_count r) (written r)
    (written_loss_interval_count r) (dropped_data_count r) (dropped_control_count r)
    (writer_failure_count r) v (content_hash r) (file r) (fd_open r) (formal r) (incomplete r).
Definition set_content_hash (v : string) (r : Lane) : Lane :=
  mkLane (queued_bytes r) (ordinary_queued r) (reserved_queued r) (next_record_seq r)
    (next_loss_interval_seq r) (open_loss r) (attempted_data_count r) (written r)
    (written_loss_interval_count r) (dropped_data_count r) (dropped_control_count r)
    (writer_failure_count r) (summary_written r) v (file r) (fd_open r) (formal r)
    (incomplete r).
Definition set_file (v : string) (r : Lane) : Lane :=
  mkLane (queued_bytes r) (ordinary_queued r) (reserved_queued r) (next_record_seq r)
    (next_loss_interval_seq r) (open_loss r) (attempted_data_count r) (written r)
    (written_loss_interval_count r) (dropped_data_count r) (dropped_control_count r)
    (writer_failure_count r) (summary_written r) (content_hash r) v (fd_open r) (formal r)
    (incomplete r).
Definition set_fd_open (v : bool) (r : Lane) : Lane :=
  mkLane (queued_bytes r) (ordinary_queued r) (reserved_queued r) (next_record_seq r)
    (next_loss_interval_seq r) (open_loss r) (attempted_data_count r) (written r)
    (written_loss_interval_count r) (dropped_data_count r) (dropped_control_count r)
    (writer_failure_count r) (summary_written r) (content_hash r) (file r) v (formal r)
    (incomplete r).
Definition set_formal (v : formal_name) (r : Lane) : Lane :=
  mkLane (queued_bytes r) (ordinary_queued r) (reserved_queued r) (next_record_seq r)
    (next_loss_interval_seq r) (open_loss r) (attempted_data_count r) (written r)
    (written_loss_interval_count r) (dropped_data_count r) (dropped_control_count r)
    (writer_failure_count r) (summary_written r) (content_hash r) (file r) (fd_open r) v
    (incomplete r).
Definition set_incomplete (v : bool) (r : Lane) : Lane :=
  mkLane (queued_bytes r) (ordinary_queued r) (reserved_queued r) (next_record_seq r)
    (next_loss_interval_seq r) (open_loss r) (attempted_data_count r) (written r)
    (written_loss_interval_count r) (dropped_data_count r) (dropped_control_count r)
    (writer_failure_count r) (summary_written r) (content_hash r) (file r) (fd_open r)
    (formal r) v.

Record _ProfileWriterState := mkProfile {
  p_config : KVRecoveryProfileConfig;
  p_lane : Lane;
  p_records : list ProfileRecord;
  p_losses : list ProfileLossInterval }.

Definition set_p_lane (v : Lane) (r : _ProfileWriterState) : _ProfileWriterState :=
  mkProfile (p_config r) v (p_records r) (p_losses r).
Definition set_p_records (v : list ProfileRecord) (r : _ProfileWriterState) : _ProfileWriterState :=
  mkProfile (p_config r) (p_lane r) v (p_losses r).
Definition set_p_losses (v : list ProfileLossInterval) (r : _ProfileWriterState) : _ProfileWriterState :=
  mkProfile (p_config r) (p_lane r) (p_records r) v.

(** ** The sink

    [process_uuid], [clock_domain_id] and [communication_mode] are fixed by the
    initialization.  [completion_claim] is the entry ["result"] of the claim
    dictionary. *)
Record JsonlTraceSink := mkSink {
  process_uuid : string;
  clock_domain_id : string;
  communication_mode : string;
  base : Lane;
  profile : option _ProfileWriterState;
  queue : list _QueuedRecord;
  inflight_batch : list _QueuedRecord;
  next_span_seq : Z;
  diagnostic_counts : gmap string Z;
  pending_diagnostics : gset string;
  logged_diagnostics : gset string;
  closing : bool;
  closed : bool;
  writer_failed : bool;
  abandoned : bool;
  forked : bool;
  completion_claim : option CloseResult;
  close_deadline_ns : option Z;
  writer_outcome : option string }.

Definition set_base (v : Lane) (r : JsonlTraceSink) : JsonlTraceSink :=
  mkSink (process_uuid r) (clock_domain_id r) (communication_mode r) v (profile r) (queue r)
    (inflight_batch r) (next_span_seq r) (diagnostic_counts r) (pending_diagnostics r)
    (logged_diagnostics r) (closing r) (closed r) (writer_failed r) (abandoned r) (forked r)
    (completion_claim r) (close_deadline_ns r) (writer_outcome r).
Definition set_profile (v : option _ProfileWriterState) (r : JsonlTraceSink) : JsonlTraceSink :=
  mkSink (process_uuid r) (clock_domain_id r) (communication_mode r) (base r) v (queue r)
    (inflight_batch r) (next_span_seq r) (diagnostic_counts r) (pending_diagnostics r)
    (logged_diagnostics r) (closing r) (closed r) (writer_failed r) (abandoned r) (forked r)
    (completion_claim r) (close_deadline_ns r) (writer_outcome r).
Definition set_queue (v : list _QueuedRecord) (r : JsonlTraceSink) : JsonlTraceSink :=
  mkSink (process_uuid r) (clock_domain_id r) (communication_mode r) (base r) (profile r) v
    (inflight_batch r) (next_span_seq r) (diagnostic_counts r) (pending_diagnostics r)
    (logged_diagnostics r) (closing r) (closed r) (writer_failed r) (abandoned r) (forked r)
    (completion_claim r) (close_deadline_ns r) (writer_outcome r).
Definition set_inflight_batch (v : list _QueuedRecord) (r : JsonlTraceSink) : JsonlTraceSink :=
  mkSink (process_uuid r) (clock_domain_id r) (communication_mode r) (base r) (profile r)
    (queue r) v (next_span_seq r) (diagnostic_counts r) (pending_diagnostics r)
    (logged_diagnostics r) (closing r) (closed r) (writer_failed r) (abandoned r) (forked r)
    (completion_claim r) (close_deadline_ns r) (writer_outcome r).
Definition set_next_span_seq (v : Z) (r : JsonlTraceSink) : JsonlTraceSink :=
  mkSink (process_uuid r) (clock_domain_id r) (communication_mode r) (base r) (profile r)
    (queue r) (inflight_batch r) v (diagnostic_counts r) (pending_diagnostics r)
    (logged_diagnostics r) (closing r) (closed r) (writer_failed r) (abandoned r) (forked r)
    (completion_claim r) (close_deadline_ns r) (writer_outcome r).
Definition set_diagnostic_counts (v : gmap string Z) (r : JsonlTraceSink) : JsonlTraceSink :=
  mkSink (process_uuid r) (clock_domain_id r) (communication_mode r) (base r) (profile r)
    (queue r) (inflight_batch r) (next_span_seq r) v (pending_diagnostics r)
    (logged_diagnostics r) (closing r) (closed r) (writer_failed r) (abandoned r) (forked r)
    (completion_claim r) (close_deadline_ns r) (writer_outcome r).
Definition set_pending_diagnostics (v : gset string) (r : JsonlTraceSink) : JsonlTraceSink :=
  mkSink (process_uuid r) (clock_domain_id r) (communication_mode r) (base r) (profile r)
    (queue r) (inflight_batch r) (next_span_seq r) (diagnostic_counts r) v
    (logged_diagnostics r) (closing r) (closed r) (writer_failed r) (abandoned r) (forked r)
    (completion_claim r) (close_deadline_ns r) (writer_outcome r).
Definition set_logged_diagnostics (v : gset string) (r : JsonlTraceSink) : JsonlTraceSink :=
  mkSink (process_uuid r) (clock_domain_id r) (communication_mode r) (base r) (profile r)
    (queue r) (inflight_batch r) (next_span_seq r) (diagnostic_counts r) (pending_diagnostics r)
    v (closing r) (closed r) (writer_failed r) (abandoned r) (forked r) (completion_claim r)
    (close_deadline_ns r) (writer_outcome r).
Definition set_closing (v : bool) (r : JsonlTraceSink) : JsonlTraceSink :=
  mkSink (process_uuid r) (clock_domain_id r) (communication_mode r) (base r) (profile r)
    (queue r) (inflight_batch r) (next_span_seq r) (diagnostic_counts r) (pending_diagnostics r)
    (logged_diagnostics r) v (closed r) (writer_failed r) (abandoned r) (forked r)
    (completion_claim r) (close_deadline_ns r) (writer_outcome r).
Definition set_closed (v : bool) (r : JsonlTraceSink) : JsonlTraceSink :=
  mkSink (process_uuid r) (clock_domain_id r) (communication_mode r) (base r) (profile r)
    (queue r) (inflight_batch r) (next_span_seq r) (diagnostic_counts r) (pending_diagnostics r)
    (logged_diagnostics r) (closing r) v (writer_failed r) (abandoned r) (forked r)
    (completion_claim r) (close_deadline_ns r) (writer_outcome r).
Definition set_writer_failed (v : bool) (r : JsonlTraceSink) : JsonlTraceSink :=
  mkSink (process_uuid r) (clock_domain_id r) (communication_mode r) (base r) (profile r)
    (queue r) (inflight_batch r) (next_span_seq r) (diagnostic_counts r) (pending_diagnostics r)
    (logged_diagnostics r) (closing r) (closed r) v (abandoned r) (forked r)
    (completion_claim r) (close_deadline_ns r) (writer_outcome r).
Definition set_abandoned (v : bool) (r : JsonlTraceSink) : JsonlTraceSink :=
  mkSink (process_uuid r) (clock_domain_id r) (communication_mode r) (base r) (profile r)
    (queue r) (inflight_batch r) (next_span_seq r) (diagnostic_counts r) (pending_diagnostics r)
    (logged_diagnostics r) (closing r) (closed r) (writer_failed r) v (forked r)
    (completion_claim r) (close_deadline_ns r) (writer_outcome r).
Definition set_forked (v : bool) (r : JsonlTraceSink) : JsonlTraceSink :=
  mkSink (process_uuid r) (clock_domain_id r) (communication_mode r) (base r) (profile r)
    (queue r) (inflight_batch r) (next_span_seq r) (diagnostic_counts r) (pending_diagnostics r)
    (logged_diagnostics r) (closing r) (closed r) (writer_failed r) (abandoned r) v
    (completion_claim r) (close_deadline_ns r) (writer_outcome r).
Definition set_completion_claim (v : option CloseResult) (r : JsonlTraceSink) : JsonlTraceSink :=
  mkSink (process_uuid r) (clock_domain_id r) (communication_mode r) (base r) (profile r)
    (queue r) (inflight_batch r) (next_span_seq r) (diagnostic_counts r) (pending_diagnostics r)
    (logged_diagnostics r) (closing r) (closed r) (writer_failed r) (abandoned r) (forked r) v
    (close_deadline_ns r) (writer_outcome r).
Definition set_close_deadline_ns (v : option Z) (r : JsonlTraceSink) : JsonlTraceSink :=
  mkSink (process_uuid r) (clock_domain_id r) (communication_mode r) (base r) (profile r)
    (queue r) (inflight_batch r) (next_span_seq r) (diagnostic_counts r) (pending_diagnostics r)
    (logged_diagnostics r) (closing r) (closed r) (writer_failed r) (abandoned r) (forked r)
    (completion_claim r) v (writer_outcome r).
Definition set_writer_outcome (v : option string) (r : JsonlTraceSink) : JsonlTraceSink :=
  mkSink (process_uuid r) (clock_domain_id r) (communication_mode r) (base r) (profile r)
    (queue r) (inflight_batch r) (next_span_seq r) (diagnostic_counts r) (pending_diagnostics r)
    (logged_diagnostics r) (closing r) (closed r) (writer_failed r) (abandoned r) (forked r)
    (completion_claim r) (close_deadline_ns r) v.

(** ** Lanes *)

Definition lane (s : JsonlTraceSink) (st : stream) : option Lane :=
  match st with
  | Base => Some (base s)
  | Profile => match profile s with Some p => Some (p_lane p) | None => None end
  end.

(** Update the lane of a stream; nothing to do for an absent profile. *)
Definition upd_lane (st : stream) (f : Lane → Lane) (s : JsonlTraceSink) : JsonlTraceSink :=
  match st with
  | Base => set_base (f (base s)) s
  | Profile =>
      match profile s with
      | Some p => set_profile (Some (set_p_lane (f (p_lane p)) p)) s
      | None => s
      end
  end.

(** The record types a stream carries as data. *)
Definition data_types (st : stream) : list string :=
  match st with Base => ["event"; "edge"] | Profile => ProfileRecordType end.

Definition is_data (st : stream) (q : _QueuedRecord) : bool :=
  bool_decide (q_stream q = st) && str_in (q_record_type q) (data_types st).

Definition raw_len (q : _QueuedRecord) : Z := Z.of_nat (String.length (q_raw q)).

Definition zero_counts (st : stream) : type_counts :=
  list_to_map (map (λ t, (t, 0)) (data_types st)).

(** [counts[t] += 1] on a present key. *)
Definition incr (t : string) (c : type_counts) : type_counts := <[t := count_of c t + 1]> c.

(** The records the writer still owes: the batch in flight, then the queue. *)
Definition pending (s : JsonlTraceSink) : list _QueuedRecord := inflight_batch s ++ queue s.
