(* ===== verification/TraceSink.v ===== *)
(** * runtime_hooks.py: the operations of [JsonlTraceSink]

    One definition per method, on the state of SinkState.v.  What the operating
    system decides is an argument: whether the caller is the owner process, the
    result of the producer clock ([res pyval]: a value or an exception), the
    value of [time.monotonic_ns] and the results of [os.write]. *)

From Stdlib Require Import ZArith Lia Ascii String.
From stdpp Require Import base list strings gmap sorting.
From S2P Require Import Prelude PyValue Sha256 RuntimeProtocol ProfileProtocol SinkState.

(** ** Diagnostics *)

Definition _DIAGNOSTIC_REASON_ORDER :=
  ["init_failure"; "schema_incompatible"; "serialization_failure"; "queue_overflow";
   "writer_failure"; "close_timeout"; "clock_domain_unavailable"; "terminal_conflict";
   "invalid_metadata"; "unsupported_mode"].

Definition _count_diagnostic_locked (reason : string) (s : JsonlTraceSink) : JsonlTraceSink :=
  let reason := if str_in reason _DIAGNOSTIC_REASON_ORDER then reason
                else "schema_incompatible" in
  let s := set_diagnostic_counts (incr reason (diagnostic_counts s)) s in
  if bool_decide ((reason ∉ logged_diagnostics s) ∧ (reason ∉ pending_diagnostics s))
  then set_pending_diagnostics ({[reason]} ∪ pending_diagnostics s) s
  else s.

Definition _take_pending_diagnostics_locked (s : JsonlTraceSink)
    : list string * JsonlTraceSink :=
  let reasons := filter (λ r, r ∈ pending_diagnostics s) _DIAGNOSTIC_REASON_ORDER in
  let taken := list_to_set reasons in
  (reasons,
   set_logged_diagnostics (logged_diagnostics s ∪ taken)
     (set_pending_diagnostics (pending_diagnostics s ∖ taken) s)).

(** ** Results and the completion claim *)

Definition _result (close_outcome : string) (summary : bool) (s : JsonlTraceSink)
    : CloseResult :=
  let b := base s in
  let p {A} (f : Lane → A) (d : A) : A := from_option f d (lane s Profile) in
  mkCloseResult close_outcome summary (attempted_data_count b)
    (count_of (written b) "event") (count_of (written b) "edge")
    (dropped_data_count b) (dropped_control_count b)
    (p summary_written false) (p attempted_data_count 0)
    (p dropped_data_count 0) (p dropped_control_count 0).

Definition _claimed_close_result (s : JsonlTraceSink) : option CloseResult :=
  completion_claim s.

(** [setdefault]: the first claim wins; the Boolean says whether this call won. *)
Definition _claim_close_result (close_outcome : string) (summary : bool)
    (s : JsonlTraceSink) : CloseResult * bool * JsonlTraceSink :=
  let candidate := _result close_outcome summary s in
  match completion_claim s with
  | Some winner => (winner, false, s)
  | None => (candidate, true, set_completion_claim (Some candidate) s)
  end.

Definition claim (close_outcome : string) (summary : bool) (s : JsonlTraceSink)
    : JsonlTraceSink := (_claim_close_result close_outcome summary s).2.

Definition _counts_reconcile (s : JsonlTraceSink) : bool :=
  let reconciles st l :=
    attempted_data_count l =?
      sum_list_Z (map (count_of (written l)) (data_types st)) + dropped_data_count l in
  reconciles Base (base s)
  && match lane s Profile with Some l => reconciles Profile l | None => true end.

(** ** The bounded queue *)

Definition _can_enqueue_locked (raw : string) (reserved : bool) (st : stream)
    (s : JsonlTraceSink) : bool :=
  if writer_failed s || closing s || closed s then false
  else match lane s st with
       | None => false
       | Some l =>
           if MAX_QUEUED_BYTES <? queued_bytes l + Z.of_nat (String.length raw) then false
           else if reserved then reserved_queued l <? RESERVED_CAPACITY_RECORDS
           else ordinary_queued l <? DATA_CAPACITY_RECORDS
       end.

(** The lane counters after [q] was appended to the queue. *)
Definition lane_enqueued (q : _QueuedRecord) (l : Lane) : Lane :=
  let l := set_queued_bytes (queued_bytes l + raw_len q) l in
  if q_reserved q then set_reserved_queued (reserved_queued l + 1) l
  else set_ordinary_queued (ordinary_queued l + 1) l.

Definition _enqueue_locked (q : _QueuedRecord) (s : JsonlTraceSink)
    : bool * JsonlTraceSink :=
  if _can_enqueue_locked (q_raw q) (q_reserved q) (q_stream q) s then
    (true, upd_lane (q_stream q) (lane_enqueued q) (set_queue (queue s ++ [q]) s))
  else (false, s).

(** ** Loss intervals *)

Definition drop_data (n : Z) (st : stream) : JsonlTraceSink → JsonlTraceSink :=
  upd_lane st (λ l, set_dropped_data_count (dropped_data_count l + n) l).

Definition drop_control (n : Z) (st : stream) : JsonlTraceSink → JsonlTraceSink :=
  upd_lane st (λ l, set_dropped_control_count (dropped_control_count l + n) l).

(** The encoded loss interval record of a stream: the [try] blocks of
    [_seal_loss_locked], [_seal_profile_loss_locked] and of the two timeout
    variants. *)
Definition loss_line (s : JsonlTraceSink) (st : stream) (loss_seq : Z) (o : _OpenLoss)
    : res string :=
  match st with
  | Base =>
      record ← build_loss_interval_record (process_uuid s) loss_seq (ol_reason o)
        (ol_first_record_seq o) (ol_last_record_seq o)
        (count_of (ol_counts o) "event") (count_of (ol_counts o) "edge")
        (ol_first_timestamp_ns o) (ol_last_timestamp_ns o);
      canonical_json_line record
  | Profile =>
      match profile s with
      | None => Raise AssertionError
      | Some p =>
          record ← build_profile_loss_interval_record (process_uuid s) (p_config p) loss_seq
            (mkProfileLoss (ol_reason o) (ol_first_record_seq o) (ol_last_record_seq o)
               (ol_counts o) (ol_first_timestamp_ns o) (ol_last_timestamp_ns o));
          profile_record_line record
      end
  end.

Definition open_loss_of (s : JsonlTraceSink) (st : stream) : option _OpenLoss :=
  match lane s st with Some l => open_loss l | None => None end.

(** [_seal_loss_locked] and [_seal_profile_loss_locked]. *)
Definition _seal_loss_locked (st : stream) (s : JsonlTraceSink) : JsonlTraceSink :=
  match open_loss_of s st with
  | None => s
  | Some current =>
      let loss_seq := from_option next_loss_interval_seq 0 (lane s st) in
      let s := upd_lane st (λ l, set_open_loss None
                 (set_next_loss_interval_seq (next_loss_interval_seq l + 1) l)) s in
      match loss_line s st loss_seq current with
      | Raise _ => drop_control 1 st s
      | Ok raw =>
          let '(ok, s) :=
            _enqueue_locked (mkQueued raw "loss_interval" None true None st) s in
          if ok then s else drop_control 1 st s
      end
  end.

(** [current is not None and current.reason == reason and
    record_seq == current.last_record_seq + 1] *)
Definition extends_open_loss (reason : string) (record_seq : Z) (o : option _OpenLoss)
    : option _OpenLoss :=
  match o with
  | Some current =>
      if String.eqb (ol_reason current) reason
         && (record_seq =? ol_last_record_seq current + 1) then Some current else None
  | None => None
  end.

(** [int(record_type == name)] for the two base counters. *)
Definition base_increment (record_type : string) (c : type_counts) : type_counts :=
  if str_in record_type (data_types Base) then incr record_type c else c.

Definition _note_drop_locked (record_seq : Z) (record_type reason : string) (observed_ns : Z)
    (s : JsonlTraceSink) : JsonlTraceSink :=
  let s := _count_diagnostic_locked reason (drop_data 1 Base s) in
  match extends_open_loss reason record_seq (open_loss (base s)) with
  | Some current =>
      upd_lane Base (set_open_loss (Some (mkOpenLoss (ol_reason current)
        (ol_first_record_seq current) record_seq
        (base_increment record_type (ol_counts current))
        (ol_first_timestamp_ns current) observed_ns))) s
  | None =>
      let s := _seal_loss_locked Base s in
      upd_lane Base (set_open_loss (Some (mkOpenLoss reason record_seq record_seq
        (base_increment record_type (zero_counts Base)) observed_ns observed_ns))) s
  end.

Definition upd_profile (f : _ProfileWriterState → _ProfileWriterState) (s : JsonlTraceSink)
    : JsonlTraceSink := set_profile (f <$> profile s) s.

Definition loss_of (o : _OpenLoss) : ProfileLossInterval :=
  mkProfileLoss (ol_reason o) (ol_first_record_seq o) (ol_last_record_seq o) (ol_counts o)
    (ol_first_timestamp_ns o) (ol_last_timestamp_ns o).

(** [losses[-1] = x] *)
Definition set_last {A} (x : A) (l : list A) : list A := take (List.length l - 1) l ++ [x].

(** [current.counts[record_type] += 1] raises [KeyError] on a missing key, after
    the interval was extended. *)
Definition _note_profile_drop_locked (record_seq : Z) (record_type reason : string)
    (observed_ns : Z) : M JsonlTraceSink unit := λ s,
  let s := _count_diagnostic_locked reason (drop_data 1 Profile s) in
  match extends_open_loss reason record_seq (open_loss_of s Profile) with
  | Some current =>
      match ol_counts current !! record_type with
      | None =>
          (Raise (KeyError record_type),
           upd_lane Profile (set_open_loss (Some (mkOpenLoss (ol_reason current)
             (ol_first_record_seq current) record_seq (ol_counts current)
             (ol_first_timestamp_ns current) (ol_last_timestamp_ns current)))) s)
      | Some _ =>
          let current := mkOpenLoss (ol_reason current) (ol_first_record_seq current)
            record_seq (incr record_type (ol_counts current))
            (ol_first_timestamp_ns current) observed_ns in
          (Ok tt,
           upd_profile (λ p, set_p_losses (set_last (loss_of current) (p_losses p)) p)
             (upd_lane Profile (set_open_loss (Some current)) s))
      end
  | None =>
      let s := _seal_loss_locked Profile s in
      let fresh := mkOpenLoss reason record_seq record_seq
        (<[record_type := 1]> (zero_counts Profile)) observed_ns observed_ns in
      (Ok tt,
       upd_profile (λ p, set_p_losses (p_losses p ++ [loss_of fresh]) p)
         (upd_lane Profile (set_open_loss (Some fresh)) s))
  end.

(** ** Producer calls *)

(** Reset by [detach_after_fork_child] and by the failure paths. *)
Definition clear_lane (l : Lane) : Lane :=
  set_queued_bytes 0 (set_ordinary_queued 0 (set_reserved_queued 0 l)).

Definition clear_queue (s : JsonlTraceSink) : JsonlTraceSink :=
  upd_lane Base clear_lane (upd_lane Profile clear_lane
    (set_inflight_batch [] (set_queue [] s))).

(** The fresh locks excepted. *)
Definition detach_after_fork_child (s : JsonlTraceSink) : JsonlTraceSink :=
  if forked s then s else
  let s := set_forked true (set_abandoned true (set_closed true s)) in
  let s := upd_lane Base (set_fd_open false) (upd_lane Profile (set_fd_open false) s) in
  let s := set_pending_diagnostics ∅ (set_logged_diagnostics ∅ (clear_queue s)) in
  set_completion_claim (Some (_result "writer_failure" false s)) s.

(** [in_owner] is [os.getpid() == self._owner_pid]. *)
Definition _usable_in_current_process (in_owner : bool) (s : JsonlTraceSink)
    : bool * JsonlTraceSink :=
  if in_owner then (negb (closed s), s) else (false, detach_after_fork_child s).

Definition new_span_id (in_owner : bool) (s : JsonlTraceSink)
    : option string * JsonlTraceSink :=
  let '(usable, s) := _usable_in_current_process in_owner s in
  if negb usable || closing s || closed s then (None, s)
  else (Some (make_id (process_uuid s) "s" (next_span_seq s)),
        set_next_span_seq (next_span_seq s + 1) s).

(** [_allocate_record_seq_locked] and [_allocate_profile_record_seq_locked]. *)
Definition allocated (l : Lane) : Lane :=
  set_attempted_data_count (attempted_data_count l + 1)
    (set_next_record_seq (next_record_seq l + 1) l).

Definition _allocate_record_seq_locked (s : JsonlTraceSink) : Z * JsonlTraceSink :=
  (next_record_seq (base s), upd_lane Base allocated s).

Definition _allocate_profile_record_seq_locked : M JsonlTraceSink Z := λ s,
  let seq := from_option next_record_seq 0 (lane s Profile) in
  if _UINT64_MAX <? seq then (Raise (OverflowError "profile record sequence exhausted"), s)
  else (Ok seq, upd_lane Profile allocated s).

(** [self._clock_ns()] with its uint64 check: the integer, or [None]. *)
Definition clock_value (clock : res pyval) : option Z :=
  match clock with
  | Ok (PInt z) => if (z <? 0) || (_UINT64_MAX <? z) then None else Some z
  | _ => None
  end.

Definition _profile_fallback_timestamp_locked (clock : res pyval) (monotonic : Z) : Z :=
  default monotonic (clock_value clock).

Definition _producer_clock_or_drop_locked (clock : res pyval) (monotonic : Z)
    (record_seq : Z) (record_type : string) (s : JsonlTraceSink)
    : option Z * JsonlTraceSink :=
  match clock_value clock with
  | Some observed_ns => (Some observed_ns, s)
  | None =>
      (None, _note_drop_locked record_seq record_type "serialization_failure" monotonic
               (_count_diagnostic_locked "clock_domain_unavailable" s))
  end.

(** Admission of an encoded record, the same three steps in
    [write_event] and [write_edge]. *)
Definition admit_or_drop {R} (q : _QueuedRecord) (record_seq observed_ns : Z) (reference : R)
    (s : JsonlTraceSink) : option R * JsonlTraceSink :=
  let dropped s :=
    _note_drop_locked record_seq (q_record_type q) "queue_overflow" observed_ns s in
  if negb (_can_enqueue_locked (q_raw q) (q_reserved q) Base s) then (None, dropped s)
  else
    let '(ok, s) := _enqueue_locked q (_seal_loss_locked Base s) in
    if ok then (Some reference, s) else (None, dropped s).

(** The common frame of [write_event] and [write_edge]: [encode] is the [try]
    block that builds and encodes the record. *)
Definition write_base (record_type : string) (reserved : bool)
    (encode : Z → Z → res (string * RecordRef)) (in_owner : bool) (clock : res pyval)
    (monotonic : Z) (s : JsonlTraceSink) : option RecordRef * JsonlTraceSink :=
  let '(usable, s) := _usable_in_current_process in_owner s in
  if negb usable then (None, s)
  else if closing s || closed s then (None, _count_diagnostic_locked "schema_incompatible" s)
  else
    let '(record_seq, s) := _allocate_record_seq_locked s in
    let '(observed, s) :=
      _producer_clock_or_drop_locked clock monotonic record_seq record_type s in
    match observed with
    | None => (None, s)
    | Some observed_ns =>
        if writer_failed s then
          (None, _note_drop_locked record_seq record_type "writer_failure" observed_ns s)
        else
          match encode record_seq observed_ns with
          | Raise _ =>
              (None, _note_drop_locked record_seq record_type "serialization_failure"
                       observed_ns s)
          | Ok (raw, reference) =>
              admit_or_drop
                (mkQueued raw record_type (Some record_seq) reserved (Some observed_ns) Base)
                record_seq observed_ns reference s
          end
    end.

Definition write_event (draft : EventDraft) (in_owner : bool) (clock : res pyval)
    (monotonic : Z) (s : JsonlTraceSink) : option RecordRef * JsonlTraceSink :=
  write_base "event" (str_in (ev_event_name draft) TERMINAL_EVENTS)
    (λ record_seq observed_ns,
      '(record, reference) ← build_event_record draft (process_uuid s) (clock_domain_id s)
        record_seq observed_ns (communication_mode s);
      raw ← canonical_json_line record;
      Ok (raw, reference)) in_owner clock monotonic s.

Definition write_edge (draft : EdgeDraft) (in_owner : bool) (clock : res pyval)
    (monotonic : Z) (s : JsonlTraceSink) : option RecordRef * JsonlTraceSink :=
  write_base "edge" false
    (λ record_seq _,
      '(record, reference) ← build_edge_record draft (process_uuid s) record_seq
        (communication_mode s);
      raw ← canonical_json_line record;
      Ok (raw, reference)) in_owner clock monotonic s.

(** ** Profile producer calls *)

(** The keys [write_kv_recovery_profile] leaves out of [ProfileRecord.fields]. *)
Definition common_keys :=
  ["schema"; "record_type"; "process_uuid"; "record_seq"; "record_id"; "run_id";
   "timestamp_ns"; "clock_domain_id"; "profile_id"].

Definition profile_record_of (record_type : string) (record_seq : Z)
    (reference : ProfileRecordRef) (observed_ns : Z) : ProfileRecord :=
  mkProfileRecord record_type record_seq (pr_record_id reference) observed_ns
    (filter (λ kv : string * pyval, str_in kv.1 common_keys = false) (pr_record reference)).

(** The [try] block. *)
Definition profile_data_line (s : JsonlTraceSink) (p : _ProfileWriterState)
    (record_type : string) (record_seq observed_ns : Z) (fields : pydict)
    : res (string * ProfileRecordRef) :=
  '(record, reference) ← build_profile_data_record record_type (process_uuid s) record_seq
    (PInt observed_ns) (clock_domain_id s) (p_config p) fields;
  raw ← profile_record_line record;
  Ok (raw, reference).

(** Admission of an encoded profile record. *)
Definition admit_profile (q : _QueuedRecord) (record_seq observed_ns : Z)
    (reference : ProfileRecordRef) : M JsonlTraceSink (option ProfileRecordRef) :=
  let overflow :=
    _note_profile_drop_locked record_seq (q_record_type q) "queue_overflow" observed_ns ;;
    mret None in
  s ← get;
  if negb (_can_enqueue_locked (q_raw q) (q_reserved q) Profile s) then overflow
  else
    modify (_seal_loss_locked Profile) ;;
    ok ← (λ s, let '(ok, s) := _enqueue_locked q s in (Ok ok, s));
    if negb (ok : bool) then overflow
    else
      modify (upd_profile (λ p,
        set_p_records (p_records p ++
          [profile_record_of (q_record_type q) record_seq reference observed_ns]) p)) ;;
      mret (Some reference).

Definition write_kv_recovery_profile (record_type : string) (timestamp_ns : pyval)
    (fields : pydict) (in_owner : bool) (clock : res pyval) (monotonic : Z)
    : M JsonlTraceSink (option ProfileRecordRef) :=
  let drop record_seq reason observed_ns :=
    _note_profile_drop_locked record_seq record_type reason observed_ns ;; mret None in
  usable ← (λ s, let '(u, s) := _usable_in_current_process in_owner s in (Ok u, s));
  if negb (usable : bool) then mret None else
  s ← get;
  match profile s with
  | None => modify (_count_diagnostic_locked "schema_incompatible") ;; mret None
  | Some p =>
      if closing s || closed s then
        modify (_count_diagnostic_locked "schema_incompatible") ;; mret None
      else
        record_seq ← _allocate_profile_record_seq_locked;
        let fallback_ns := _profile_fallback_timestamp_locked clock monotonic in
        match timestamp_ns with
        | PInt observed_ns =>
            if (observed_ns <? 0) || (_UINT64_MAX <? observed_ns) then
              drop record_seq "serialization_failure" fallback_ns
            else if writer_failed s then drop record_seq "writer_failure" observed_ns
            else
              match profile_data_line s p record_type record_seq observed_ns fields with
              | Raise _ => drop record_seq "serialization_failure" observed_ns
              | Ok (raw, reference) =>
                  admit_profile (mkQueued raw record_type (Some record_seq) false
                    (Some observed_ns) Profile) record_seq observed_ns reference
              end
        | _ => drop record_seq "serialization_failure" fallback_ns
        end
  end.

Definition drop_kv_recovery_profile (record_type : string) (timestamp_ns : pyval)
    (reason : string) (in_owner : bool) (clock : res pyval) (monotonic : Z)
    : M JsonlTraceSink (option Z) :=
  usable ← (λ s, let '(u, s) := _usable_in_current_process in_owner s in (Ok u, s));
  if negb (usable : bool) then mret None else
  s ← get;
  if negb (is_some_b (profile s)) || closing s || closed s then mret None
  else
    record_seq ← _allocate_profile_record_seq_locked;
    let observed_ns := default (_profile_fallback_timestamp_locked clock monotonic)
                         (clock_value (Ok timestamp_ns)) in
    _note_profile_drop_locked record_seq record_type reason observed_ns ;;
    mret (Some record_seq).

Definition kv_recovery_profile_enabled (in_owner : bool) (s : JsonlTraceSink) : bool :=
  is_some_b (profile s) && (_usable_in_current_process in_owner s).1.

Definition kv_recovery_profile_evidence_complete (s : JsonlTraceSink) : bool :=
  match lane s Profile with
  | None => false
  | Some l => (dropped_data_count l =? 0) && (dropped_control_count l =? 0)
              && (writer_failure_count l =? 0)
  end.

Definition kv_recovery_profile_attempted_data_count (s : JsonlTraceSink) : Z :=
  from_option attempted_data_count 0 (lane s Profile).

Definition kv_recovery_profile_snapshot (s : JsonlTraceSink)
    : list ProfileRecord * list ProfileLossInterval :=
  match profile s with
  | None => ([], [])
  | Some p => (p_records p, p_losses p)
  end.

Definition defer_diagnostic (reason : string) (in_owner : bool) (s : JsonlTraceSink)
    : JsonlTraceSink :=
  let '(usable, s) := _usable_in_current_process in_owner s in
  if negb usable || closing s || closed s then s else _count_diagnostic_locked reason s.

(** The path itself is a constant of the stream. *)
Definition committed_shard_path (s : JsonlTraceSink) : bool :=
  match completion_claim s with
  | Some r => String.eqb (cr_close_outcome r) "drained" && cr_summary_written r
  | None => false
  end.

Definition committed_kv_recovery_profile_shard_path (s : JsonlTraceSink) : bool :=
  match profile s, completion_claim s with
  | Some _, Some r => String.eqb (cr_close_outcome r) "drained" && cr_summary_written r
                      && cr_profile_summary_written r
  | _, _ => false
  end.

(** ** Unwritten records *)

Definition _account_unwritten_queued_locked (q : _QueuedRecord) (s : JsonlTraceSink)
    : JsonlTraceSink :=
  if bool_decide (q_stream q = Profile) && is_some_b (profile s) then
    if str_in (q_record_type q) (data_types Profile) then drop_data 1 Profile s
    else drop_control 1 Profile s
  else if str_in (q_record_type q) (data_types Base) then drop_data 1 Base s
  else drop_control 1 Base s.

Definition account_pending (s : JsonlTraceSink) : JsonlTraceSink :=
  clear_queue (foldl (λ s q, _account_unwritten_queued_locked q s) s (pending s)).

Definition bump_failures : Lane → Lane :=
  λ l, set_writer_failure_count (writer_failure_count l + 1) l.

Definition _mark_writer_failure_locked (s : JsonlTraceSink) : JsonlTraceSink :=
  let s := upd_lane Base bump_failures (upd_lane Profile bump_failures s) in
  account_pending (_count_diagnostic_locked "writer_failure" (set_writer_failed true s)).

Definition _force_timeout_accounting_locked (s : JsonlTraceSink) : JsonlTraceSink :=
  if bool_decide (writer_outcome s = Some "timeout") then account_pending s
  else
    _count_diagnostic_locked "close_timeout"
      (set_writer_outcome (Some "timeout") (set_writer_failed true (account_pending s))).

(** ** Batches *)

(** The loop of [_take_batch_locked] on the queue; [n] and [bytes] are the length
    and the size of the batch so far.  Result: the rest of the batch and of the
    queue. *)
Fixpoint take_batch (n bytes : Z) (q : list _QueuedRecord)
    : list _QueuedRecord * list _QueuedRecord :=
  match q with
  | [] => ([], [])
  | candidate :: rest =>
      if negb (n <? MAX_BATCH_RECORDS) then ([], q)
      else if (0 <? n) && (MAX_BATCH_BYTES <? bytes + raw_len candidate) then ([], q)
      else
        let '(batch, rest) := take_batch (n + 1) (bytes + raw_len candidate) rest in
        (candidate :: batch, rest)
  end.

Definition _take_batch_locked (s : JsonlTraceSink) : list _QueuedRecord * JsonlTraceSink :=
  let '(batch, rest) := take_batch 0 0 (queue s) in (batch, set_queue rest s).

(** The lane counters after [q] was written. *)
Definition lane_written (q : _QueuedRecord) (l : Lane) : Lane :=
  let l := set_queued_bytes (queued_bytes l - raw_len q) l in
  let l := if q_reserved q then set_reserved_queued (reserved_queued l - 1) l
           else set_ordinary_queued (ordinary_queued l - 1) l in
  let l := set_content_hash (content_hash l +:+ q_raw q) l in
  if str_in (q_record_type q) (data_types (q_stream q)) then
    set_written (incr (q_record_type q) (written l)) l
  else if String.eqb (q_record_type q) "loss_interval" then
    set_written_loss_interval_count (written_loss_interval_count l + 1) l
  else l.

Definition _record_written (q : _QueuedRecord) (s : JsonlTraceSink) : JsonlTraceSink :=
  if abandoned s then s
  else
    match inflight_batch s with
    | [] => _mark_writer_failure_locked s
    | head :: rest =>
        if negb (bool_decide (head = q)) then _mark_writer_failure_locked s
        else
          let s := set_inflight_batch rest s in
          match lane s (q_stream q) with
          | None => _mark_writer_failure_locked s
          | Some _ => upd_lane (q_stream q) (lane_written q) s
          end
    end.

(** ** Close cutoff *)

Definition _close_deadline_reached (now : Z) (s : JsonlTraceSink) : bool :=
  match close_deadline_ns s with Some d => d <=? now | None => false end.

Definition _close_cutoff_reached_locked (now : Z) (s : JsonlTraceSink) : bool :=
  closing s && _close_deadline_reached now s
  && match pending s with [] => false | _ => true end.

(** ** Timeout controls *)

(** Runs of consecutive sequence numbers: the [group] loop of
    [_prepare_timeout_controls_locked]. *)
Definition breaks_run (group : list _QueuedRecord) (q : _QueuedRecord) : bool :=
  match last group with
  | Some g =>
      match q_record_seq g, q_record_seq q with
      | Some a, Some b => negb (b =? a + 1)
      | _, _ => false
      end
  | None => false
  end.

Fixpoint split_runs (group pending_data : list _QueuedRecord) : list (list _QueuedRecord) :=
  match pending_data with
  | [] => match group with [] => [] | _ => [group] end
  | q :: rest =>
      if breaks_run group q then group :: split_runs [q] rest
      else split_runs (group ++ [q]) rest
  end.

Definition seq_of (q : option _QueuedRecord) : Z :=
  default 0 (q ← q; q_record_seq q).

(** [sum(item.record_type == name for item in group)] for every data type. *)
Definition group_counts (st : stream) (group : list _QueuedRecord) : type_counts :=
  list_to_map (map (λ t, (t, count_if (λ q, String.eqb (q_record_type q) t) group))
                 (data_types st)).

(** [_timeout_loss_control_locked] and [_timeout_profile_loss_control_locked].
    Every record of a group is a data record of the stream: the caller selects
    them, so the guards on the type and on the sequence number do not fire. *)
Definition _timeout_loss_control_locked (st : stream) (group : list _QueuedRecord)
    (timeout_observed_ns : Z) (s : JsonlTraceSink) : option _QueuedRecord * JsonlTraceSink :=
  match lane s st with
  | None => (None, s)
  | Some l =>
      let s := drop_data (Z.of_nat (List.length group)) st s in
      let loss_seq := next_loss_interval_seq l in
      let s := upd_lane st (set_next_loss_interval_seq (loss_seq + 1)) s in
      match loss_line s st loss_seq
              (mkOpenLoss "close_timeout" (seq_of (head group)) (seq_of (last group))
                 (group_counts st group) timeout_observed_ns timeout_observed_ns) with
      | Ok raw => (Some (mkQueued raw "loss_interval" None true None st), s)
      | Raise _ => (None, drop_control 1 st s)
      end
  end.

Definition stream_count (st : stream) (l : list _QueuedRecord) : Z :=
  count_if (λ q, bool_decide (q_stream q = st)) l.

Definition stream_bytes (st : stream) (l : list _QueuedRecord) : Z :=
  sum_list_Z (map (λ q, if bool_decide (q_stream q = st) then raw_len q else 0) l).

(** The stream a control is charged to: profile controls count against the base
    when there is no profile. *)
Definition charged (s : JsonlTraceSink) (q : _QueuedRecord) : stream :=
  match q_stream q, profile s with Profile, Some _ => Profile | _, _ => Base end.

(** [admit_control]: [control_counts] and [control_bytes] are the number and the
    size of the admitted controls of the stream. *)
Definition admit_control (cs : list _QueuedRecord * JsonlTraceSink) (q : _QueuedRecord)
    : list _QueuedRecord * JsonlTraceSink :=
  let '(controls, s) := cs in
  if (RESERVED_CAPACITY_RECORDS <=? stream_count (q_stream q) controls)
     || (MAX_QUEUED_BYTES <? stream_bytes (q_stream q) controls + raw_len q)
  then (controls, drop_control 1 (charged s q) s)
  else (controls ++ [q], s).

Definition admit_group (timeout_observed_ns : Z) (st : stream)
    (cs : list _QueuedRecord * JsonlTraceSink) (group : list _QueuedRecord)
    : list _QueuedRecord * JsonlTraceSink :=
  let '(control, s) := _timeout_loss_control_locked st group timeout_observed_ns cs.2 in
  match control with
  | Some q => admit_control (cs.1, s) q
  | None => (cs.1, s)
  end.

Definition is_control (q : _QueuedRecord) : bool :=
  String.eqb (q_record_type q) "loss_interval".

Definition recognized (q : _QueuedRecord) : bool :=
  is_control q || is_data Base q || is_data Profile q.

Definition _prepare_timeout_controls_locked (monotonic : Z) (s : JsonlTraceSink)
    : list _QueuedRecord * JsonlTraceSink :=
  let pend := pending s in
  let s := foldl (λ s q, if recognized q then s else drop_control 1 (charged s q) s) s pend in
  let s := clear_queue s in
  let cs := foldl admit_control ([], s) (filter (λ q, is_control q = true) pend) in
  let groups st := split_runs [] (filter (λ q, is_data st q = true) pend) in
  let cs := foldl (admit_group monotonic Base) cs (groups Base) in
  let '(controls, s) := foldl (admit_group monotonic Profile) cs (groups Profile) in
  let s := set_writer_outcome (Some "timeout") (_count_diagnostic_locked "close_timeout" s) in
  let reserve st l := set_reserved_queued (stream_count st controls)
                        (set_queued_bytes (stream_bytes st controls) l) in
  (controls,
   upd_lane Base (reserve Base) (upd_lane Profile (reserve Profile)
     (set_inflight_batch controls s))).

(** The deadline branch of [_finish_timeout_in_writer]. *)
Definition abandon_controls (s : JsonlTraceSink) : JsonlTraceSink :=
  let s := foldl (λ s q, drop_control 1 (charged s q) s) s (inflight_batch s) in
  let clear l := set_queued_bytes 0 (set_reserved_queued 0 l) in
  set_writer_outcome (Some "timeout")
    (upd_lane Base clear (upd_lane Profile clear (set_inflight_batch [] s))).

(** ** Write loops *)

Definition invalid_progress (written : pyval) (view : string) : bool :=
  match written with
  | PInt n => (n <=? 0) || (Z.of_nat (String.length view) <? n)
  | _ => true
  end.

(** [while view: ...] of [_write_persistent_all] and
    [_write_profile_persistent_all].  [os_write i] is the result of the [i]-th
    call; a call that returns [n] has appended the first [n] bytes of [view].
    The result is the outcome and the bytes appended. *)
Fixpoint write_loop (fuel : nat) (os_write : nat → res pyval) (i : nat) (view : string)
    : option (res unit * string) :=
  match view with
  | EmptyString => Some (Ok tt, EmptyString)
  | _ =>
      match fuel with
      | O => None
      | S fuel' =>
          match os_write i with
          | Raise e => Some (Raise e, EmptyString)
          | Ok written =>
              if invalid_progress written view then
                Some (Raise (OSError "persistent writer made invalid progress"), EmptyString)
              else
                let n := Z.to_nat (int_of written) in
                '(r, out) ← write_loop fuel' os_write (S i) (str_drop n view);
                Some (r, str_take n view +:+ out)
          end
      end
  end.

(** Every accepted call makes progress, so the length of [raw] is enough fuel. *)
Definition _write_persistent_all (os_write : nat → res pyval) (raw : string)
    : res unit * string :=
  default (Ok tt, EmptyString) (write_loop (String.length raw) os_write 0 raw).

Definition append_file (st : stream) (bytes : string) : JsonlTraceSink → JsonlTraceSink :=
  upd_lane st (λ l, set_file (file l +:+ bytes) l).

(** The persistent write of one record of a stream. *)
Definition write_stream (st : stream) (os_write : nat → res pyval) (raw : string)
    : M JsonlTraceSink unit := λ s,
  match st, lane s st with
  | _, None => (Raise (OSError "profile writer descriptor is unavailable"), s)
  | Profile, Some l =>
      if negb (fd_open l) then
        (Raise (OSError "profile writer descriptor is unavailable"), s)
      else
        let '(r, bytes) := _write_persistent_all os_write raw in (r, append_file st bytes s)
  | Base, Some _ =>
      let '(r, bytes) := _write_persistent_all os_write raw in (r, append_file st bytes s)
  end.

(** ** Reserved control records *)

(** The first critical section of [_write_reserved_control_via_in_writer] and of
    its profile twin; [count_drop] is true for every caller after the
    initialization. *)
Definition reserve_control (st : stream) (raw : string) (s : JsonlTraceSink)
    : bool * JsonlTraceSink :=
  match lane s st with
  | None => (false, s)
  | Some l =>
      if (RESERVED_CAPACITY_RECORDS <=? reserved_queued l)
         || (MAX_QUEUED_BYTES <? queued_bytes l + Z.of_nat (String.length raw))
      then (false, drop_control 1 st s)
      else
        (true, upd_lane st (λ l,
           set_queued_bytes (queued_bytes l + Z.of_nat (String.length raw))
             (set_reserved_queued (reserved_queued l + 1) l)) s)
  end.

(** The [finally] block. *)
Definition release_control (st : stream) (raw : string) (s : JsonlTraceSink)
    : JsonlTraceSink :=
  upd_lane st (λ l,
    set_queued_bytes (Z.max 0 (queued_bytes l - Z.of_nat (String.length raw)))
      (if 0 <? reserved_queued l then set_reserved_queued (reserved_queued l - 1) l
       else l)) s.
