(* ===== verification/SinkSteps.v ===== *)
(** * runtime_hooks.py: the writer thread, [close] and their interleavings

    [writer_step] runs the writer thread from one critical section (or system
    call) to the next; its program counter [writer_pc] names the points of
    [_writer_main], [_finish_timeout_in_writer], [_write_summary_in_writer],
    [_finalize_writer_in_writer] and [_publish_completed_shard_in_writer] at
    which another thread can run.  [close] is split the same way.  [step]
    interleaves producers, closers and the writer in any order; what the
    operating system and the clock decide is in [env].

    The descriptors of the operating system, the logging handlers and the writer
    start gate (a test seam) are not modelled. *)

From Stdlib Require Import ZArith Lia Ascii String.
From stdpp Require Import base list strings gmap relations.
From S2P Require Import Prelude PyValue Sha256 RuntimeProtocol ProfileProtocol SinkState.
From S2P Require Import TraceSink.

(** ** Outcomes of file system calls

    [IoFailLate] is a failure after the name space was already changed. *)
Inductive io_result := IoOk | IoFail | IoFailLate.

#[export] Instance io_result_eq_dec : EqDecision io_result.
Proof. solve_decision. Defined.

Definition io_ok (r : io_result) : bool := bool_decide (r = IoOk).

Record env := mkEnv {
  e_now : Z;
  e_clock : res pyval;
  e_write : nat → res pyval;
  e_write2 : nat → res pyval;
  e_io : io_result;
  e_io2 : io_result }.

(** ** Program counter of the writer

    The Boolean [ctl] distinguishes the timeout controls of
    [_finish_timeout_in_writer] from the batch of [_writer_main]. *)
Inductive writer_pc :=
| WLoop
| WBatch (rest : list _QueuedRecord)
| WCheck (ctl : bool) (q : _QueuedRecord) (rest : list _QueuedRecord)
| WPersist (ctl : bool) (q : _QueuedRecord) (rest : list _QueuedRecord)
| WRecord (ctl : bool) (q : _QueuedRecord) (rest : list _QueuedRecord)
| WTimeout
| WControls (rest : list _QueuedRecord)
| WDrained
| WSummary (outcome : string)
| WMove (st : stream) (outcome : string)
| WBuild (st : stream) (outcome : string)
| WSumCheck (st : stream) (raw outcome : string)
| WSumWrite (st : stream) (raw outcome : string)
| WSumDone (st : stream) (outcome : string)
| WFinalize
| WCloseFds
| WPublish
| WReplace (st : stream)
| WClaim
| WFinish
| WDone.

#[export] Instance writer_pc_eq_dec : EqDecision writer_pc.
Proof. solve_decision. Defined.

Definition has_profile (s : JsonlTraceSink) : bool := is_some_b (profile s).

(** ** Summaries *)

Definition summary_line (st : stream) (close_outcome : string) (clock : res pyval)
    (s : JsonlTraceSink) : res string :=
  match st, profile s with
  | Base, _ =>
      let l := base s in
      ended ← clock;
      record ← build_process_summary_record (process_uuid s) ended (attempted_data_count l)
        (count_of (written l) "event") (count_of (written l) "edge")
        (written_loss_interval_count l) (dropped_data_count l) (dropped_control_count l)
        (writer_failure_count l) close_outcome (sha256_hexdigest (content_hash l));
      canonical_json_line record
  | Profile, None => Raise (OSError "profile state is unavailable")
  | Profile, Some p =>
      let l := p_lane p in
      ended ← clock;
      record ← build_profile_summary_record (process_uuid s) (p_config p) ended
        (attempted_data_count l) (written l) (written_loss_interval_count l)
        (dropped_data_count l) (dropped_control_count l) (writer_failure_count l)
        close_outcome (sha256_hexdigest (content_hash l));
      profile_record_line record
  end.

(** A duplicate timeout summary of one stream, through [write_raw]; its exceptions are
    swallowed. *)
Definition append_invalidation_via (write_raw : string → M JsonlTraceSink unit) (st : stream)
    (clock : res pyval) (s : JsonlTraceSink) : JsonlTraceSink :=
  match summary_line st "timeout" clock s with
  | Raise _ => s
  | Ok raw =>
      let '(reserved, s) := reserve_control st raw s in
      if negb reserved then s
      else
        let '(r, s) := write_raw raw s in
        let s := if is_ok r then s else drop_control 1 st s in
        release_control st raw s
  end.

(** [_append_timeout_invalidation_in_writer] for one stream: through the descriptor of
    the stream. *)
Definition append_invalidation (st : stream) (clock : res pyval) (os_write : nat → res pyval)
    : JsonlTraceSink → JsonlTraceSink :=
  append_invalidation_via (write_stream st os_write) st clock.

(** [write_path] of [_append_invalidation_to_path_in_writer] and of its profile twin: the
    published file is opened by its path, since the descriptors of the stream are closed
    by then; an [os.open] that raises is an [os_write] whose first call raises. *)
Definition write_path (st : stream) (os_write : nat → res pyval) (raw : string)
    : M JsonlTraceSink unit := λ s,
  let '(r, bytes) := _write_persistent_all os_write raw in (r, append_file st bytes s).

Definition append_invalidation_to_path (st : stream) (clock : res pyval)
    (os_write : nat → res pyval) : JsonlTraceSink → JsonlTraceSink :=
  append_invalidation_via (write_path st os_write) st clock.

Definition _append_timeout_invalidation_in_writer (e : env) (s : JsonlTraceSink)
    : JsonlTraceSink :=
  let s := append_invalidation Base (e_clock e) (e_write e) s in
  if has_profile s then append_invalidation Profile (e_clock e) (e_write2 e) s else s.

(** ** File names *)

(** [_move_formal_shard_to_incomplete_in_writer] and its profile twin: link the
    file under the incomplete name, then replace the formal name by the
    reservation sentinel. *)
Definition move_to_incomplete (st : stream) (io : io_result) (s : JsonlTraceSink)
    : bool * JsonlTraceSink :=
  match lane s st with
  | None => (true, s)
  | Some l =>
      if incomplete l then (true, s)
      else match io with
           | IoOk => (true, upd_lane st (λ l, set_incomplete true (set_formal FSentinel l)) s)
           | IoFail => (false, s)
           | IoFailLate => (false, upd_lane st (set_formal FSentinel) s)
           end
  end.

(** [_retract_published_shard_in_writer]: back to the incomplete name, else
    unlink, else append an invalidating summary to the published path. *)
Definition _retract_published_shard_in_writer (st : stream) (io : io_result)
    (clock : res pyval) (os_write : nat → res pyval) (s : JsonlTraceSink) : JsonlTraceSink :=
  match io with
  | IoOk => upd_lane st (λ l, set_incomplete true (set_formal FAbsent l)) s
  | IoFail => upd_lane st (λ l, set_incomplete false (set_formal FAbsent l)) s
  | IoFailLate => append_invalidation_to_path st clock os_write s
  end.

Definition _mark_publication_failure (s : JsonlTraceSink) : JsonlTraceSink :=
  set_writer_outcome (Some "writer_failure")
    (upd_lane Base (set_summary_written false) (_mark_writer_failure_locked s)).

(** The [eligible] test of [_publish_completed_shard_in_writer]. *)
Definition publish_eligible (now : Z) (s : JsonlTraceSink) : bool :=
  summary_written (base s)
  && bool_decide (writer_outcome s = Some "drained")
  && negb (writer_failed s) && negb (abandoned s)
  && negb (_close_deadline_reached now s)
  && match lane s Profile with None => true | Some l => summary_written l end.

(** Every source has its incomplete name. *)
Definition quarantined (s : JsonlTraceSink) : bool :=
  incomplete (base s) && match lane s Profile with None => true | Some l => incomplete l end.

(** ** The writer thread *)

(** An exception of the summary or of a control record: [_mark_writer_failure],
    then the [finally] block. *)
Definition fail_writer (s : JsonlTraceSink) : JsonlTraceSink * writer_pc :=
  (_mark_writer_failure_locked s, WFinalize).

Definition timeout_outcome (s : JsonlTraceSink) : JsonlTraceSink :=
  set_writer_outcome (Some "timeout") s.

(** Continuation after a record of the batch or of the controls. *)
Definition next_record (ctl : bool) (rest : list _QueuedRecord) : writer_pc :=
  if ctl then WControls rest else WBatch rest.

(** The loop head of [_writer_main].  The writer waits in
    [condition.wait] while there is nothing to do. *)
Definition writer_loop (now : Z) (s : JsonlTraceSink) : JsonlTraceSink * writer_pc :=
  if abandoned s then (s, WFinalize)
  else
    let '(diagnostics, s) := _take_pending_diagnostics_locked s in
    match diagnostics with
    | _ :: _ => (s, WLoop)
    | [] =>
        if _close_cutoff_reached_locked now s then (s, WTimeout)
        else match queue s with
             | [] => (s, if closing s then WDrained else WLoop)
             | _ :: _ =>
                 let '(batch, s) := _take_batch_locked s in
                 (set_inflight_batch batch s, WBatch batch)
             end
    end.

(** [_write_summary_in_writer], from the record of one stream on. *)
Definition summary_step (e : env) (st : stream) (outcome : string) (s : JsonlTraceSink)
    : JsonlTraceSink * writer_pc :=
  if bool_decide (st = Base) && _close_deadline_reached (e_now e) s
  then (timeout_outcome s, WFinalize)
  else match summary_line st outcome (e_clock e) s with
       | Raise _ => fail_writer s
       | Ok raw =>
           let '(reserved, s) := reserve_control st raw s in
           if reserved then (s, WSumCheck st raw outcome)
           else (set_writer_outcome (Some outcome) s, WFinalize)
       end.

Definition summary_complete (outcome : string) (s : JsonlTraceSink) : JsonlTraceSink :=
  set_writer_outcome (Some outcome)
    (upd_lane Base (set_summary_written true) (upd_lane Profile (set_summary_written true) s)).

(** [_publish_completed_shard_in_writer], the claim. *)
Definition claim_step (e : env) (s : JsonlTraceSink) : JsonlTraceSink :=
  let '(result, won, s) :=
    if abandoned s || _close_deadline_reached (e_now e) s
    then (_result "timeout" false s, false, s)
    else _claim_close_result "drained" true s in
  if won then
    set_closed true (upd_lane Base (set_incomplete false) (upd_lane Profile (set_incomplete false) s))
  else
    let s := if has_profile s
             then _retract_published_shard_in_writer Profile (e_io2 e) (e_clock e) (e_write2 e) s
             else s in
    let s := _retract_published_shard_in_writer Base (e_io e) (e_clock e) (e_write e) s in
    _count_diagnostic_locked "close_timeout"
      (timeout_outcome (upd_lane Base (set_summary_written false)
        (upd_lane Profile (set_summary_written false) s))).

(** The [finally] block of [_writer_main]. *)
Definition finish_step (s : JsonlTraceSink) : JsonlTraceSink :=
  let s := set_closed true s in
  if negb (is_some_b (completion_claim s)) && closing s then
    claim (default (if writer_failed s then "writer_failure" else "drained") (writer_outcome s))
      (summary_written (base s)) s
  else s.

Definition writer_step (e : env) (s : JsonlTraceSink) (pc : writer_pc)
    : JsonlTraceSink * writer_pc :=
  match pc with
  | WLoop => writer_loop (e_now e) s
  | WBatch [] => (s, WLoop)
  | WBatch (q :: rest) =>
      if abandoned s then (s, WFinalize)
      else if _close_cutoff_reached_locked (e_now e) s then (s, WTimeout)
      else (s, WCheck false q rest)
  | WCheck ctl q rest =>
      if abandoned s || negb (io_ok (e_io e)) then fail_writer s else (s, WPersist ctl q rest)
  | WPersist ctl q rest =>
      let '(r, s) := write_stream (q_stream q) (e_write e) (q_raw q) s in
      if is_ok r then (s, WRecord ctl q rest) else fail_writer s
  | WRecord ctl q rest => (_record_written q s, next_record ctl rest)
  | WTimeout =>
      let '(controls, s) := _prepare_timeout_controls_locked (e_now e) s in
      (s, WControls controls)
  | WControls [] =>
      if _close_deadline_reached (e_now e) s || negb (_counts_reconcile s)
      then (timeout_outcome s, WFinalize) else (s, WSummary "timeout")
  | WControls (q :: rest) =>
      if _close_deadline_reached (e_now e) s then (abandon_controls s, WFinalize)
      else (s, WCheck true q rest)
  | WDrained => if _counts_reconcile s then (s, WSummary "drained") else fail_writer s
  | WSummary outcome =>
      if _close_deadline_reached (e_now e) s then (timeout_outcome s, WFinalize)
      else (s, WMove Base outcome)
  | WMove st outcome =>
      let '(ok, s) := move_to_incomplete st (e_io e) s in
      if negb ok then fail_writer s
      else (s, if bool_decide (st = Base) && has_profile s then WMove Profile outcome
               else WBuild Base outcome)
  | WBuild st outcome => summary_step e st outcome s
  | WSumCheck st raw outcome =>
      if abandoned s || negb (io_ok (e_io e))
      then fail_writer (release_control st raw (drop_control 1 st s))
      else (s, WSumWrite st raw outcome)
  | WSumWrite st raw outcome =>
      let '(r, s) := write_stream st (e_write e) raw s in
      if is_ok r then (release_control st raw s, WSumDone st outcome)
      else fail_writer (release_control st raw (drop_control 1 st s))
  | WSumDone st outcome =>
      if _close_deadline_reached (e_now e) s
      then (_append_timeout_invalidation_in_writer e (timeout_outcome s), WFinalize)
      else if bool_decide (st = Base) && has_profile s then (s, WBuild Profile outcome)
      else (summary_complete outcome s, WFinalize)
  | WFinalize =>
      (if abandoned s && summary_written (base s)
       then timeout_outcome (upd_lane Base (set_summary_written false)
              (_append_timeout_invalidation_in_writer e s))
       else s, WCloseFds)
  | WCloseFds =>
      let s := upd_lane Base (set_fd_open false) (upd_lane Profile (set_fd_open false) s) in
      let s := if io_ok (e_io e) then s else _mark_publication_failure s in
      ((_take_pending_diagnostics_locked s).2, WPublish)
  | WPublish =>
      if negb (publish_eligible (e_now e) s) then (s, WFinish)
      else if negb (io_ok (e_io e)) || negb (quarantined s)
      then (_mark_publication_failure s, WFinish)
      else (s, WReplace Base)
  | WReplace Base =>
      if io_ok (e_io e) then
        (upd_lane Base (set_formal FData) s, if has_profile s then WReplace Profile else WClaim)
      else (_mark_publication_failure s, WFinish)
  | WReplace Profile =>
      if io_ok (e_io2 e) then (upd_lane Profile (set_formal FData) s, WClaim)
      else (_mark_publication_failure
              (_retract_published_shard_in_writer Base (e_io e) (e_clock e) (e_write e) s),
            WFinish)
  | WClaim => (claim_step e s, WFinish)
  | WFinish => (finish_step s, WDone)
  | WDone => (s, WDone)
  end.

(** ** [close] *)

(** The first critical section. *)
Definition close_begin (requested_deadline_ns : Z) (s : JsonlTraceSink) : JsonlTraceSink :=
  match completion_claim s with
  | Some _ => s
  | None =>
      if closed s then claim "writer_failure" false s
      else
        set_closing true (_seal_loss_locked Profile (_seal_loss_locked Base
          (set_close_deadline_ns (Some requested_deadline_ns) s)))
  end.

(** The second critical section, after [join]; [alive] is [writer.is_alive()]. *)
Definition close_join (alive : bool) (s : JsonlTraceSink) : JsonlTraceSink :=
  match completion_claim s with
  | Some _ => s
  | None =>
      if alive then
        claim "timeout" false
          (set_closed true (set_abandoned true (_force_timeout_accounting_locked s)))
      else claim (default "writer_failure" (writer_outcome s)) (summary_written (base s)) s
  end.

(** [_bounded_timeout_without_lock]: the claim, then, when it won, the flags. *)
Definition bounded_claim (s : JsonlTraceSink) : JsonlTraceSink := claim "timeout" false s.

Definition bounded_flags (s : JsonlTraceSink) : JsonlTraceSink :=
  timeout_outcome (set_closed true (set_abandoned true s)).

(** ** Construction *)

Definition initial_lane (st : stream) (start : string) : Lane :=
  mkLane 0 0 0 0 0 None 0 (zero_counts st) 0 0 0 0 false start start true FData false.

Definition start_line (uuid clock_domain : string) (pid started : pyval)
    (provenance : RuntimeProvenance) : res string :=
  record ← build_process_start_record uuid pid started clock_domain provenance;
  canonical_json_line record.

Definition profile_start_line (uuid clock_domain : string) (pid started : pyval)
    (provenance : RuntimeProvenance) (config : KVRecoveryProfileConfig) : res string :=
  record ← build_profile_start_record uuid pid started clock_domain provenance config;
  profile_record_line record.

(** The sink after [__init__], when the start records were written. *)
Definition initial_sink (uuid clock_domain mode : string) (pid started : pyval)
    (provenance : RuntimeProvenance) (config : option KVRecoveryProfileConfig)
    : res JsonlTraceSink :=
  ensure (str_in mode ["none"; KV_RECOVERY_COMMUNICATION_MODE])
    (ValueError "communication_mode is not implemented") ;;
  ensure (match config with
          | Some c => String.eqb mode (pc_communication_mode c)
          | None => true
          end) (ValueError "profile config and communication mode differ") ;;
  start ← start_line uuid clock_domain pid started provenance;
  p ← match config with
      | None => Ok None
      | Some c =>
          pstart ← profile_start_line uuid clock_domain pid started provenance c;
          Ok (Some (mkProfile c (initial_lane Profile pstart) [] []))
      end;
  Ok (mkSink uuid clock_domain mode (initial_lane Base start) p [] [] 0 ∅ ∅ ∅ false false
        false false false None None None).

(** ** Interleavings *)

Definition config : Type := JsonlTraceSink * writer_pc.

(** One atomic action of a producer, a closer or the writer thread of the owner
    process. *)
Inductive step : config → config → Prop :=
| step_event d clock mono s pc :
    step (s, pc) ((write_event d true clock mono s).2, pc)
| step_edge d clock mono s pc :
    step (s, pc) ((write_edge d true clock mono s).2, pc)
| step_profile t ts fields clock mono s pc :
    t ∈ ProfileRecordType →
    step (s, pc) ((write_kv_recovery_profile t ts fields true clock mono s).2, pc)
| step_profile_drop t ts reason clock mono s pc :
    t ∈ ProfileRecordType →
    step (s, pc) ((drop_kv_recovery_profile t ts reason true clock mono s).2, pc)
| step_span s pc : step (s, pc) ((new_span_id true s).2, pc)
| step_diagnostic reason s pc : step (s, pc) (defer_diagnostic reason true s, pc)
| step_close_begin deadline s pc : step (s, pc) (close_begin deadline s, pc)
| step_close_join s pc :
    closing s = true →
    step (s, pc) (close_join (negb (bool_decide (pc = WDone))) s, pc)
| step_bounded_claim s pc : step (s, pc) (bounded_claim s, pc)
| step_bounded_flags r s pc :
    completion_claim s = Some r → cr_close_outcome r = "timeout" →
    step (s, pc) (bounded_flags s, pc)
| step_writer e s pc : step (s, pc) (writer_step e s pc).

Definition initial_config (c : config) : Prop :=
  ∃ uuid clock_domain mode pid started provenance cfg s,
    initial_sink uuid clock_domain mode pid started provenance cfg = Ok s ∧ c = (s, WLoop).

Definition reachable (c : config) : Prop := ∃ c0, initial_config c0 ∧ rtc step c0 c.
