(* ===== verification/SinkLemmas.v ===== *)
(** * Lemmas on the sink state: frames and the lane invariant

    [ctl] is the part of the sink that producers never change; every primitive
    has a frame lemma in the rewrite database [sink].  [lane_inv] is the
    bookkeeping invariant of one stream: [k] is 1 between the allocation of a
    sequence number and the moment its record is queued or dropped. *)

From Stdlib Require Import ZArith Lia Ascii String.
From stdpp Require Import base list strings gmap sorting.
From S2P Require Import Prelude PyValue Sha256 RuntimeProtocol ProfileProtocol SinkState.
From S2P Require Import TraceSink.

Create Rewrite HintDb sink.

(** ** Frames *)

Record ctl_view := mkCtl {
  v_inflight : list _QueuedRecord;
  v_closing : bool;
  v_closed : bool;
  v_failed : bool;
  v_abandoned : bool;
  v_claim : option CloseResult;
  v_deadline : option Z;
  v_outcome : option string;
  v_profile : bool;
  v_uuid : string }.

Definition ctl (s : JsonlTraceSink) : ctl_view :=
  mkCtl (inflight_batch s) (closing s) (closed s) (writer_failed s) (abandoned s)
    (completion_claim s) (close_deadline_ns s) (writer_outcome s) (is_some_b (profile s))
    (process_uuid s).

#[global] Arguments ctl : simpl never.
#[global] Arguments pending : simpl never.
#[global] Arguments _count_diagnostic_locked : simpl never.
#[global] Arguments _seal_loss_locked : simpl never.
#[global] Arguments _enqueue_locked : simpl never.
#[global] Arguments _can_enqueue_locked : simpl never.
#[global] Arguments loss_line : simpl never.

(** Reading one control field off a [ctl] equation. *)
Ltac ctl_inv H := unfold ctl in H; injection H as ? ? ? ? ? ? ? ? ? ?.

Lemma ctl_eq_fields s s' : ctl s' = ctl s →
  inflight_batch s' = inflight_batch s ∧ closing s' = closing s ∧ closed s' = closed s ∧
  writer_failed s' = writer_failed s ∧ abandoned s' = abandoned s ∧
  completion_claim s' = completion_claim s ∧ close_deadline_ns s' = close_deadline_ns s ∧
  writer_outcome s' = writer_outcome s ∧ is_some_b (profile s') = is_some_b (profile s) ∧
  process_uuid s' = process_uuid s.
Proof. intros H. ctl_inv H. done. Qed.

Lemma lane_upd st st' f s :
  lane (upd_lane st f s) st' =
  if bool_decide (st = st') then f <$> lane s st' else lane s st'.
Proof. destruct st, st'; simpl; destruct (profile s) eqn:E; simpl; rewrite ?E; done. Qed.

Lemma lane_upd_eq st f s : lane (upd_lane st f s) st = f <$> lane s st.
Proof. rewrite lane_upd. by rewrite bool_decide_eq_true_2. Qed.

Lemma lane_upd_ne st st' f s : st ≠ st' → lane (upd_lane st f s) st' = lane s st'.
Proof. intros. rewrite lane_upd. by rewrite bool_decide_eq_false_2. Qed.

Lemma queue_upd st f s : queue (upd_lane st f s) = queue s.
Proof. destruct st; simpl; [done|]. by destruct (profile s). Qed.

Lemma ctl_upd st f s : ctl (upd_lane st f s) = ctl s.
Proof. destruct st; [done|]. unfold ctl. simpl. by destruct (profile s) eqn:E; simpl; rewrite ?E. Qed.

Lemma pending_ctl s s' : ctl s' = ctl s → queue s' = queue s → pending s' = pending s.
Proof. intros H ?. ctl_inv H. unfold pending. congruence. Qed.

Lemma pending_upd st f s : pending (upd_lane st f s) = pending s.
Proof. apply pending_ctl; [apply ctl_upd|apply queue_upd]. Qed.

#[export] Hint Rewrite lane_upd_eq queue_upd ctl_upd pending_upd : sink.
#[export] Hint Rewrite lane_upd_ne using congruence : sink.

(** Diagnostics touch nothing else. *)
Lemma lane_diag r s st : lane (_count_diagnostic_locked r s) st = lane s st.
Proof. unfold _count_diagnostic_locked. by case_bool_decide; destruct st. Qed.

Lemma queue_diag r s : queue (_count_diagnostic_locked r s) = queue s.
Proof. unfold _count_diagnostic_locked. by case_bool_decide. Qed.

Lemma ctl_diag r s : ctl (_count_diagnostic_locked r s) = ctl s.
Proof. unfold _count_diagnostic_locked. by case_bool_decide. Qed.

Lemma pending_diag r s : pending (_count_diagnostic_locked r s) = pending s.
Proof. apply pending_ctl; [apply ctl_diag|apply queue_diag]. Qed.

#[export] Hint Rewrite lane_diag queue_diag ctl_diag pending_diag : sink.

Lemma lane_take_diag s st : lane (_take_pending_diagnostics_locked s).2 st = lane s st.
Proof. by destruct st. Qed.

(** [drop_data] and [drop_control] *)
Lemma ctl_drop_data n st s : ctl (drop_data n st s) = ctl s.
Proof. apply ctl_upd. Qed.
Lemma ctl_drop_control n st s : ctl (drop_control n st s) = ctl s.
Proof. apply ctl_upd. Qed.
Lemma queue_drop_data n st s : queue (drop_data n st s) = queue s.
Proof. apply queue_upd. Qed.
Lemma queue_drop_control n st s : queue (drop_control n st s) = queue s.
Proof. apply queue_upd. Qed.
Lemma pending_drop_control n st s : pending (drop_control n st s) = pending s.
Proof. apply pending_upd. Qed.
Lemma pending_drop_data n st s : pending (drop_data n st s) = pending s.
Proof. apply pending_upd. Qed.

#[export] Hint Rewrite ctl_drop_data ctl_drop_control queue_drop_data queue_drop_control
  pending_drop_control pending_drop_data : sink.

Lemma enqueue_spec q s :
  _enqueue_locked q s = (true, (_enqueue_locked q s).2) ∧
    _can_enqueue_locked (q_raw q) (q_reserved q) (q_stream q) s = true ∧
    pending (_enqueue_locked q s).2 = pending s ++ [q] ∧
    ctl (_enqueue_locked q s).2 = ctl s ∧
    (∀ st, lane (_enqueue_locked q s).2 st =
           if bool_decide (q_stream q = st) then lane_enqueued q <$> lane s st else lane s st)
  ∨ _enqueue_locked q s = (false, s) ∧
    _can_enqueue_locked (q_raw q) (q_reserved q) (q_stream q) s = false.
Proof.
  unfold _enqueue_locked. destruct (_can_enqueue_locked _ _ _ s); [left|by right].
  simpl. split_and!; try done.
  - rewrite pending_upd. unfold pending. simpl. by rewrite app_assoc.
  - by rewrite ctl_upd.
  - intros st. rewrite lane_upd. by destruct st.
Qed.

#[global] Arguments upd_lane : simpl never.
#[global] Arguments lane : simpl never.
#[global] Arguments drop_data : simpl never.
#[global] Arguments drop_control : simpl never.
#[global] Arguments upd_profile : simpl never.

Lemma ctl_enqueue q s : ctl (_enqueue_locked q s).2 = ctl s.
Proof. destruct (enqueue_spec q s) as [(_&_&_&?&_)|[-> _]]; done. Qed.

Lemma ctl_seal st s : ctl (_seal_loss_locked st s) = ctl s.
Proof.
  unfold _seal_loss_locked. destruct (open_loss_of s st); [|done].
  destruct (loss_line _ _ _ _); [|by autorewrite with sink].
  pose proof (ctl_enqueue (mkQueued a "loss_interval" None true None st)
    (upd_lane st (λ l, set_open_loss None
                 (set_next_loss_interval_seq (next_loss_interval_seq l + 1) l)) s)) as H.
  destruct (_enqueue_locked _ _) as [[] s']; simpl in *; autorewrite with sink in *; done.
Qed.

Lemma ctl_upd_profile f s : ctl (upd_profile f s) = ctl s.
Proof. unfold ctl, upd_profile. simpl. by destruct (profile s). Qed.

#[export] Hint Rewrite ctl_enqueue ctl_seal ctl_upd_profile : sink.

Lemma ctl_note_drop seq t r ts s : ctl (_note_drop_locked seq t r ts s) = ctl s.
Proof.
  unfold _note_drop_locked. destruct (extends_open_loss _ _ _); by autorewrite with sink.
Qed.

Lemma ctl_note_profile_drop seq t r ts s :
  ctl (_note_profile_drop_locked seq t r ts s).2 = ctl s.
Proof.
  unfold _note_profile_drop_locked. destruct (extends_open_loss _ _ _).
  - destruct (_ !! _); simpl; by autorewrite with sink.
  - simpl. by autorewrite with sink.
Qed.

#[export] Hint Rewrite ctl_note_drop ctl_note_profile_drop : sink.

(** ** The lane invariant *)

(** Data records of the stream written so far. *)
Definition data_written (st : stream) (l : Lane) : Z :=
  sum_list_Z (map (count_of (written l)) (data_types st)).

Definition ordinary_of (st : stream) (q : _QueuedRecord) : bool :=
  bool_decide (q_stream q = st) && negb (q_reserved q).
Definition reserved_of (st : stream) (q : _QueuedRecord) : bool :=
  bool_decide (q_stream q = st) && q_reserved q.

(** Sequence numbers of the pending data records of the stream. *)
Definition data_seqs (st : stream) (pend : list _QueuedRecord) : list Z :=
  omap q_record_seq (filter (λ q, is_data st q = true) pend).

Record lane_inv (st : stream) (k : Z) (l : Lane) (pend : list _QueuedRecord) : Prop := {
  li_next : attempted_data_count l = next_record_seq l;
  li_acct : attempted_data_count l =
    data_written st l + dropped_data_count l + count_if (is_data st) pend + k;
  li_ordinary : ordinary_queued l = count_if (ordinary_of st) pend;
  li_ordinary_cap : ordinary_queued l ≤ DATA_CAPACITY_RECORDS;
  li_reserved : count_if (reserved_of st) pend ≤ reserved_queued l;
  li_reserved_cap : reserved_queued l ≤ RESERVED_CAPACITY_RECORDS;
  li_bytes : stream_bytes st pend ≤ queued_bytes l;
  li_bytes_cap : queued_bytes l ≤ MAX_QUEUED_BYTES;
  li_seqs : StronglySorted Z.lt (data_seqs st pend ++ [next_record_seq l - k]) }.

(** A queued record is a numbered data record of its stream or a reserved loss
    interval of the stream. *)
Definition q_wf (q : _QueuedRecord) : Prop :=
  (is_data (q_stream q) q = true ∧ is_control q = false ∧ ∃ seq, q_record_seq q = Some seq) ∨
  (is_control q = true ∧ q_reserved q = true ∧ q_record_seq q = None ∧
   is_data (q_stream q) q = false).

Record sinv (k : stream → Z) (s : JsonlTraceSink) : Prop := {
  si_lane : ∀ st l, lane s st = Some l → lane_inv st (k st) l (pending s);
  si_queue : Forall (λ q, q_wf q ∧ is_Some (lane s (q_stream q))) (pending s) }.

Definition k0 : stream → Z := λ _, 0.
Definition k1 (st0 : stream) : stream → Z := λ st, if bool_decide (st = st0) then 1 else 0.

(** The counters a lane invariant depends on. *)
Lemma lane_inv_ext st k l l' pend :
  lane_inv st k l pend →
  queued_bytes l' = queued_bytes l → ordinary_queued l' = ordinary_queued l →
  reserved_queued l' = reserved_queued l → next_record_seq l' = next_record_seq l →
  attempted_data_count l' = attempted_data_count l → written l' = written l →
  dropped_data_count l' = dropped_data_count l →
  lane_inv st k l' pend.
Proof.
  intros [] E1 E2 E3 E4 E5 E6 E7. constructor; unfold data_written in *;
    rewrite ?E1, ?E2, ?E3, ?E4, ?E5, ?E6, ?E7; done.
Qed.

(** Same lanes up to irrelevant fields, same queue. *)
Lemma sinv_ext k s s' :
  sinv k s → pending s' = pending s →
  (∀ st, lane s' st = lane s st) → sinv k s'.
Proof. intros [H1 H2] Hp Hl. constructor; [intros st l; rewrite Hl, Hp; auto|].
  rewrite Hp. eapply Forall_impl; [exact H2|]. intros q. by rewrite Hl.
Qed.

Lemma sinv_diag k r s : sinv k s → sinv k (_count_diagnostic_locked r s).
Proof. intros H. apply (sinv_ext k s); [done|by autorewrite with sink|]. intros. apply lane_diag. Qed.

(** Update of one lane under an unchanged queue. *)
Lemma sinv_upd k k' st f s :
  sinv k s → (∀ st', st' ≠ st → k' st' = k st') →
  (∀ l, lane s st = Some l → lane_inv st (k st) l (pending s) →
        lane_inv st (k' st) (f l) (pending s)) →
  sinv k' (upd_lane st f s).
Proof.
  intros [H1 H2] Hk Hf. constructor.
  - intros st' l'. rewrite pending_upd. destruct (decide (st = st')) as [<-|Hne].
    + rewrite lane_upd_eq. intros (l & Hl & ->)%fmap_Some. auto.
    + rewrite lane_upd_ne by done. intros. rewrite Hk by done. auto.
  - rewrite pending_upd. eapply Forall_impl; [exact H2|].
    intros q [? ?]. split; [done|]. rewrite lane_upd. case_bool_decide; [|done].
    by apply fmap_is_Some.
Qed.

Lemma sinv_upd_same k st f s :
  sinv k s →
  (∀ l, lane_inv st (k st) l (pending s) → lane_inv st (k st) (f l) (pending s)) →
  sinv k (upd_lane st f s).
Proof. intros H Hf. apply (sinv_upd k k); auto. Qed.

(** Updates the invariant does not see. *)
Lemma sinv_upd_ext k st f s :
  sinv k s →
  (∀ l, queued_bytes (f l) = queued_bytes l ∧ ordinary_queued (f l) = ordinary_queued l ∧
        reserved_queued (f l) = reserved_queued l ∧ next_record_seq (f l) = next_record_seq l ∧
        attempted_data_count (f l) = attempted_data_count l ∧ written (f l) = written l ∧
        dropped_data_count (f l) = dropped_data_count l) →
  sinv k (upd_lane st f s).
Proof.
  intros H Hf. apply sinv_upd_same; [done|]. intros l Hl.
  destruct (Hf l) as (?&?&?&?&?&?&?). by eapply lane_inv_ext.
Qed.

Lemma sinv_drop_control k n st s : sinv k s → sinv k (drop_control n st s).
Proof. intros H. by apply sinv_upd_ext. Qed.

Lemma k1_self st : k1 st st = 1.
Proof. unfold k1. by rewrite bool_decide_eq_true_2. Qed.

Lemma k1_other st st' : st' ≠ st → k1 st st' = 0.
Proof. intros. unfold k1. by rewrite bool_decide_eq_false_2. Qed.

(** Dropping the allocated record settles the account. *)
Lemma sinv_drop_data st s : sinv (k1 st) s → sinv k0 (drop_data 1 st s).
Proof.
  intros H. apply (sinv_upd (k1 st) k0); [done|intros; by rewrite k1_other|].
  intros l _ []. rewrite k1_self in *. unfold k0.
  constructor; simpl; unfold data_written in *; simpl; try done; try lia.
  rewrite Z.sub_0_r. clear -li_seqs0.
  induction (data_seqs st (pending s)) as [|z zs IH]; simpl in *; [repeat constructor|].
  inversion li_seqs0 as [|? ? Hs Hf]; subst. constructor; [auto|].
  rewrite Forall_app in *. destruct Hf as [? Hf]. split; [done|].
  inversion Hf; subst. constructor; [lia|done].
Qed.

Lemma sinv_allocated st s : sinv k0 s → sinv (k1 st) (upd_lane st allocated s).
Proof.
  intros H. apply (sinv_upd k0 (k1 st)); [done|intros; by rewrite k1_other|].
  intros l _ []. rewrite k1_self. unfold k0 in *.
  constructor; simpl; unfold data_written in *; simpl; try done; try lia.
  rewrite Z.sub_0_r in *. by replace (next_record_seq l + 1 - 1) with (next_record_seq l) by lia.
Qed.

Lemma data_seqs_app st l1 l2 : data_seqs st (l1 ++ l2) = data_seqs st l1 ++ data_seqs st l2.
Proof. unfold data_seqs. by rewrite filter_app, omap_app. Qed.

Lemma stream_bytes_app st l1 l2 :
  stream_bytes st (l1 ++ l2) = stream_bytes st l1 + stream_bytes st l2.
Proof. unfold stream_bytes. by rewrite map_app, sum_list_Z_app. Qed.

Lemma StronglySorted_snoc_lt (l : list Z) x y :
  x < y → StronglySorted Z.lt (l ++ [x]) → StronglySorted Z.lt ((l ++ [x]) ++ [y]).
Proof.
  intros Hxy. induction l as [|z l IH]; simpl; intros H.
  - repeat constructor. lia.
  - inversion H as [|? ? Hs Hf]; subst. constructor; [auto|].
    rewrite !Forall_app in *. destruct Hf as [? Hf]. split; [done|].
    inversion Hf; subst. constructor; [lia|done].
Qed.

(** ** Enqueueing *)

Lemma stream_bytes_one st q :
  stream_bytes st [q] = if bool_decide (q_stream q = st) then raw_len q else 0.
Proof. unfold stream_bytes. simpl. case_bool_decide; lia. Qed.

Lemma data_seqs_one st q :
  data_seqs st [q] = if is_data st q then opt_list (q_record_seq q) else [].
Proof.
  unfold data_seqs. rewrite filter_cons. destruct (is_data st q); simpl; [|done].
  by destruct (q_record_seq q).
Qed.

Lemma is_data_other st q : q_stream q ≠ st → is_data st q = false.
Proof. intros. unfold is_data. by rewrite bool_decide_eq_false_2. Qed.

Lemma can_enqueue_lane raw r st s :
  _can_enqueue_locked raw r st s = true →
  writer_failed s = false ∧ closing s = false ∧ closed s = false ∧
  ∃ l, lane s st = Some l ∧
    queued_bytes l + Z.of_nat (String.length raw) ≤ MAX_QUEUED_BYTES ∧
    (if r then reserved_queued l < RESERVED_CAPACITY_RECORDS
     else ordinary_queued l < DATA_CAPACITY_RECORDS).
Proof.
  unfold _can_enqueue_locked. destruct (writer_failed s), (closing s), (closed s); try done.
  simpl. destruct (lane s st) as [l|]; [|done].
  destruct (MAX_QUEUED_BYTES <? _) eqn:E; [done|]. bool_prop. intros H.
  split_and!; try done. exists l. split_and!; [done|done|]. destruct r; by bool_prop.
Qed.

(** Lanes other than the one of [q] do not see [q]. *)
Lemma lane_inv_other st k l pend q :
  q_stream q ≠ st → lane_inv st k l pend → lane_inv st k l (pend ++ [q]).
Proof.
  intros Hne []. unfold ordinary_of, reserved_of in *.
  assert (bool_decide (q_stream q = st) = false) as E by by apply bool_decide_eq_false_2.
  constructor; try done.
  - rewrite li_acct0, count_if_app, count_if_cons, count_if_nil, is_data_other by done. lia.
  - rewrite li_ordinary0, count_if_app, count_if_cons, count_if_nil. unfold ordinary_of.
    rewrite E. simpl. lia.
  - rewrite count_if_app, count_if_cons, count_if_nil. unfold reserved_of in *.
    rewrite E. simpl. lia.
  - rewrite stream_bytes_app, stream_bytes_one, E. lia.
  - by rewrite data_seqs_app, data_seqs_one, is_data_other, app_nil_r.
Qed.

Lemma lane_inv_enqueued st k k' l pend q :
  q_stream q = st →
  queued_bytes l + raw_len q ≤ MAX_QUEUED_BYTES →
  (if q_reserved q then reserved_queued l < RESERVED_CAPACITY_RECORDS
   else ordinary_queued l < DATA_CAPACITY_RECORDS) →
  (if is_data st q then q_record_seq q = Some (next_record_seq l - k) ∧ k = 1 ∧ k' = 0
   else k' = k) →
  lane_inv st k l pend → lane_inv st k' (lane_enqueued q l) (pend ++ [q]).
Proof.
  intros Hst Hb Hcap Hk [].
  assert (bool_decide (q_stream q = st) = true) as E by by apply bool_decide_eq_true_2.
  assert (count_if (is_data st) (pend ++ [q]) + k' = count_if (is_data st) pend + k) as Hacct.
  { rewrite count_if_app, count_if_cons, count_if_nil. destruct (is_data st q); lia. }
  assert (StronglySorted Z.lt (data_seqs st (pend ++ [q]) ++ [next_record_seq l - k'])) as Hs.
  { rewrite data_seqs_app, data_seqs_one. destruct (is_data st q).
    - destruct Hk as (-> & -> & ->). simpl. apply StronglySorted_snoc_lt; [lia|done].
    - subst k'. by rewrite app_nil_r. }
  unfold lane_enqueued.
  destruct (q_reserved q) eqn:Er; constructor; simpl; unfold data_written in *; simpl;
    try done; try lia;
    rewrite ?count_if_app, ?count_if_cons, ?count_if_nil, ?stream_bytes_app, ?stream_bytes_one,
      ?E; unfold ordinary_of, reserved_of in *; rewrite ?E, ?Er; simpl; try lia.
Qed.

Lemma sinv_enqueue st k k' q s :
  sinv k s → q_stream q = st → q_wf q →
  (∀ st', st' ≠ st → k' st' = k st') →
  (∀ l, lane s st = Some l →
    if is_data st q then q_record_seq q = Some (next_record_seq l - k st) ∧ k st = 1 ∧ k' st = 0
    else k' st = k st) →
  (_enqueue_locked q s).1 = true → sinv k' (_enqueue_locked q s).2.
Proof.
  intros [H1 H2] Hst Hwf Hk Hq.
  destruct (enqueue_spec q s) as [(E & Hcan & Hp & Hc & Hl)|[E _]];
    rewrite E; simpl; [intros _|done].
  apply can_enqueue_lane in Hcan as (_ & _ & _ & l & Hlane & Hb & Hcap).
  rewrite Hst in *. constructor.
  - intros st' l'. rewrite Hl, Hp. case_bool_decide as Heq; subst.
    + intros (l0 & Hl0 & ->)%fmap_Some. assert (l0 = l) as -> by congruence.
      eapply lane_inv_enqueued; [done|done|done| |by apply H1]. apply Hq, Hlane.
    + intros Hl'. rewrite Hk by congruence. apply lane_inv_other; [congruence|]. by apply H1.
  - rewrite Hp, Forall_app, Forall_singleton. split.
    + eapply Forall_impl; [exact H2|]. intros q' [? ?]. split; [done|].
      rewrite Hl. case_bool_decide; [by apply fmap_is_Some|done].
    + split; [done|]. rewrite Hl, bool_decide_eq_true_2 by congruence.
      rewrite Hst, Hlane. by eexists.
Qed.

Definition control_record (raw : string) (st : stream) : _QueuedRecord :=
  mkQueued raw "loss_interval" None true None st.

Lemma is_data_control st st' raw : is_data st (control_record raw st') = false.
Proof. unfold is_data. simpl. destruct st; rewrite andb_false_r; done. Qed.

Lemma q_wf_control raw st : q_wf (control_record raw st).
Proof. right. split_and!; try done. apply is_data_control. Qed.

Lemma sinv_enqueue_control k raw st s :
  sinv k s → sinv k (_enqueue_locked (control_record raw st) s).2.
Proof.
  intros H. destruct (_enqueue_locked (control_record raw st) s).1 eqn:E.
  - apply (sinv_enqueue st k); try done; [apply q_wf_control|].
    intros l Hl. by rewrite is_data_control.
  - destruct (enqueue_spec (control_record raw st) s) as [(E' & _)|[-> _]]; [|done].
    rewrite E' in E. done.
Qed.

(** Sealing a loss keeps the account, whatever becomes of the control record. *)
Lemma sinv_seal k st s : sinv k s → sinv k (_seal_loss_locked st s).
Proof.
  intros H. unfold _seal_loss_locked. destruct (open_loss_of s st); [|done].
  destruct (loss_line _ _ _ _); [|by apply sinv_drop_control, sinv_upd_ext].
  pose proof (sinv_enqueue_control k a st
    (upd_lane st (λ l, set_open_loss None
                 (set_next_loss_interval_seq (next_loss_interval_seq l + 1) l)) s)) as He.
  unfold control_record in He. destruct (_enqueue_locked _ _) as [[] s']; simpl in He.
  - apply He. by apply sinv_upd_ext.
  - apply sinv_drop_control, He. by apply sinv_upd_ext.
Qed.

Lemma sinv_note_drop seq t r ts s : sinv (k1 Base) s → sinv k0 (_note_drop_locked seq t r ts s).
Proof.
  intros H. unfold _note_drop_locked.
  destruct (extends_open_loss _ _ _); apply sinv_upd_ext; try done;
    [|apply sinv_seal]; by apply sinv_diag, sinv_drop_data.
Qed.

Lemma lane_upd_profile f s st :
  (∀ p, p_lane (f p) = p_lane p) → lane (upd_profile f s) st = lane s st.
Proof.
  intros Hf. destruct st; [done|]. unfold upd_profile, lane. simpl.
  destruct (profile s); simpl; [by rewrite Hf|done].
Qed.

Lemma queue_upd_profile f s : queue (upd_profile f s) = queue s.
Proof. done. Qed.

Lemma sinv_upd_profile k f s :
  (∀ p, p_lane (f p) = p_lane p) → sinv k s → sinv k (upd_profile f s).
Proof.
  intros Hf H. apply (sinv_ext k s); [done| |].
  - apply pending_ctl; [apply ctl_upd_profile|done].
  - intros st. by apply lane_upd_profile.
Qed.

Lemma sinv_note_profile_drop seq t r ts s :
  sinv (k1 Profile) s → sinv k0 (_note_profile_drop_locked seq t r ts s).2.
Proof.
  intros H. unfold _note_profile_drop_locked. destruct (extends_open_loss _ _ _).
  - destruct (_ !! _); simpl; [apply sinv_upd_profile; [done|]|];
      (apply sinv_upd_ext; [|done]); by apply sinv_diag, sinv_drop_data.
  - simpl. apply sinv_upd_profile; [done|]. apply sinv_upd_ext; [|done].
    by apply sinv_seal, sinv_diag, sinv_drop_data.
Qed.

(** ** Producer calls *)

(** [seq] is the last sequence number allocated on the stream. *)
Definition last_seq (st : stream) (seq : Z) (s : JsonlTraceSink) : Prop :=
  ∀ l, lane s st = Some l → next_record_seq l = seq + 1.

Lemma last_seq_upd st st' f seq s :
  (∀ l, next_record_seq (f l) = next_record_seq l) →
  last_seq st seq s → last_seq st seq (upd_lane st' f s).
Proof.
  intros Hf H l. rewrite lane_upd. case_bool_decide; [|apply H].
  intros (l0 & Hl & ->)%fmap_Some. rewrite Hf. by apply H.
Qed.

Lemma last_seq_enqueue st seq q s : last_seq st seq s → last_seq st seq (_enqueue_locked q s).2.
Proof.
  intros H. destruct (enqueue_spec q s) as [(E & _ & _ & _ & Hl)|[-> _]]; [|done].
  intros l. rewrite Hl. case_bool_decide; [|apply H].
  intros (l0 & Hl0 & ->)%fmap_Some. unfold lane_enqueued.
  destruct (q_reserved q); exact (H l0 Hl0).
Qed.

Lemma last_seq_seal st st' seq s : last_seq st seq s → last_seq st seq (_seal_loss_locked st' s).
Proof.
  intros H. unfold _seal_loss_locked. destruct (open_loss_of s st'); [|done].
  destruct (loss_line _ _ _ _); [|by apply last_seq_upd, last_seq_upd].
  pose proof (last_seq_enqueue st seq (mkQueued a "loss_interval" None true None st')
    (upd_lane st' (λ l, set_open_loss None
       (set_next_loss_interval_seq (next_loss_interval_seq l + 1) l)) s)) as He.
  destruct (_enqueue_locked _ _) as [[] s']; simpl in He; [|apply last_seq_upd; [done|]];
    by apply He, last_seq_upd.
Qed.

Lemma last_seq_allocated st s l :
  lane s st = Some l → last_seq st (next_record_seq l) (upd_lane st allocated s).
Proof.
  intros Hl l'. rewrite lane_upd_eq, Hl. by intros [= <-].
Qed.

Lemma data_record_wf raw t seq r ts st :
  t ∈ data_types st → q_wf (mkQueued raw t (Some seq) r ts st) ∧
  is_data st (mkQueued raw t (Some seq) r ts st) = true.
Proof.
  intros Ht. assert (is_data st (mkQueued raw t (Some seq) r ts st) = true) as E.
  { unfold is_data. simpl. rewrite bool_decide_eq_true_2 by done. by apply str_in_spec. }
  split; [|done]. left. split_and!; [done| |by eexists].
  unfold is_control. simpl. apply String.eqb_neq. intros ->. by destruct st; apply str_in_spec in Ht.
Qed.

(** Enqueueing the allocated record. *)
Lemma sinv_enqueue_data st raw t seq r ts s :
  sinv (k1 st) s → t ∈ data_types st → last_seq st seq s →
  let q := mkQueued raw t (Some seq) r ts st in
  (_enqueue_locked q s).1 = true → sinv k0 (_enqueue_locked q s).2.
Proof.
  intros H Ht Hseq q. destruct (data_record_wf raw t seq r ts st Ht) as [Hwf Hd].
  apply (sinv_enqueue st (k1 st)); [done|done|done|intros; by rewrite k1_other|].
  intros l Hl. unfold q. rewrite Hd, k1_self. split_and!; [|done|done].
  simpl. rewrite (Hseq l Hl). f_equal. lia.
Qed.

Lemma admit_or_drop_spec {R} raw t seq r ts (ref : R) s :
  t ∈ data_types Base → sinv (k1 Base) s → last_seq Base seq s →
  let s' := (admit_or_drop (mkQueued raw t (Some seq) r (Some ts) Base) seq ts ref s).2 in
  sinv k0 s' ∧ ctl s' = ctl s.
Proof.
  intros Ht H Hseq. unfold admit_or_drop. simpl.
  destruct (_can_enqueue_locked raw r Base s); simpl.
  - pose proof (sinv_enqueue_data Base raw t seq r (Some ts) (_seal_loss_locked Base s)
      (sinv_seal _ _ _ H) Ht (last_seq_seal _ _ _ _ Hseq)) as He. simpl in He.
    destruct (enqueue_spec (mkQueued raw t (Some seq) r (Some ts) Base)
      (_seal_loss_locked Base s)) as [(E & _)|[E _]]; rewrite E in *; simpl in *.
    + split; [by apply He|]. by autorewrite with sink.
    + split; [by apply sinv_note_drop, sinv_seal|]. by autorewrite with sink.
  - split; [by apply sinv_note_drop|]. by autorewrite with sink.
Qed.

Lemma write_base_spec t r encode clock mono s :
  t ∈ data_types Base → sinv k0 s →
  let s' := (write_base t r encode true clock mono s).2 in sinv k0 s' ∧ ctl s' = ctl s.
Proof.
  intros Ht H. unfold write_base. simpl.
  destruct (closed s); simpl; [done|].
  destruct (closing s); simpl; [split; [by apply sinv_diag|by autorewrite with sink]|].
  unfold _producer_clock_or_drop_locked.
  assert (sinv (k1 Base) (upd_lane Base allocated s)) as Ha by by apply sinv_allocated.
  destruct (clock_value clock) as [ts|]; simpl.
  2:{ split; [by apply sinv_note_drop, sinv_diag|by autorewrite with sink]. }
  destruct (writer_failed _) eqn:Ef; simpl.
  { split; [by apply sinv_note_drop|by autorewrite with sink]. }
  destruct (encode _ _) as [[raw ref]|]; simpl.
  - pose proof (admit_or_drop_spec raw t (next_record_seq (base s)) r ts ref
      (upd_lane Base allocated s) Ht Ha (last_seq_allocated Base s (base s) eq_refl)) as [??].
    split; [done|]. by autorewrite with sink in *.
  - split; [by apply sinv_note_drop|by autorewrite with sink].
Qed.

Lemma write_event_spec d clock mono s :
  sinv k0 s → let s' := (write_event d true clock mono s).2 in sinv k0 s' ∧ ctl s' = ctl s.
Proof. intros H. apply write_base_spec; [|done]. simpl. set_solver. Qed.

Lemma write_edge_spec d clock mono s :
  sinv k0 s → let s' := (write_edge d true clock mono s).2 in sinv k0 s' ∧ ctl s' = ctl s.
Proof. intros H. apply write_base_spec; [|done]. simpl. set_solver. Qed.

(** What a profile drop or admission does to the account. *)
Lemma profile_drop_spec {A} seq t r ts (k : unit → M JsonlTraceSink A) s :
  (∀ u s', (k u s').2 = s') → sinv (k1 Profile) s →
  let s' := ((_note_profile_drop_locked seq t r ts ≫= k) s).2 in
  sinv k0 s' ∧ ctl s' = ctl s.
Proof.
  intros Hk H. rewrite M_run.
  pose proof (sinv_note_profile_drop seq t r ts s H) as Hs.
  pose proof (ctl_note_profile_drop seq t r ts s) as Hc.
  destruct (_note_profile_drop_locked seq t r ts s) as [[u|e] s']; simpl in *; [|done].
  by rewrite Hk.
Qed.

Lemma admit_profile_spec raw t seq ts ref s :
  t ∈ data_types Profile → sinv (k1 Profile) s → last_seq Profile seq s →
  let s' := (admit_profile (mkQueued raw t (Some seq) false (Some ts) Profile) seq ts ref s).2 in
  sinv k0 s' ∧ ctl s' = ctl s.
Proof.
  intros Ht H Hseq. unfold admit_profile. rewrite M_run. simpl.
  destruct (_can_enqueue_locked raw false Profile s); simpl; [|by apply profile_drop_spec].
  rewrite M_run. simpl. rewrite M_run.
  pose proof (sinv_enqueue_data Profile raw t seq false (Some ts) (_seal_loss_locked Profile s)
    (sinv_seal _ _ _ H) Ht (last_seq_seal _ _ _ _ Hseq)) as He. simpl in He.
  destruct (enqueue_spec (mkQueued raw t (Some seq) false (Some ts) Profile)
    (_seal_loss_locked Profile s)) as [(E & _)|[E _]]; rewrite E in *; simpl in *.
  - split; [apply sinv_upd_profile; [done|by apply He]|]. by autorewrite with sink.
  - edestruct (profile_drop_spec (A:=option ProfileRecordRef) seq t "queue_overflow" ts
      (λ _, mret None) (_seal_loss_locked Profile s)) as [? Hc]; [done|by apply sinv_seal|].
    split; [done|]. by rewrite Hc, ctl_seal.
Qed.

Lemma profile_present s : profile s ≠ None → is_Some (lane s Profile).
Proof. unfold lane. by destruct (profile s); [eexists|]. Qed.

Lemma write_profile_spec t v fields clock mono s :
  t ∈ ProfileRecordType → sinv k0 s →
  let s' := (write_kv_recovery_profile t v fields true clock mono s).2 in
  sinv k0 s' ∧ ctl s' = ctl s.
Proof.
  intros Ht H. unfold write_kv_recovery_profile. rewrite M_run. simpl.
  destruct (closed s) eqn:Ec; simpl; [done|].
  rewrite M_run. simpl. destruct (profile s) as [p|] eqn:Ep.
  2:{ try rewrite M_run; simpl. split; [by apply sinv_diag|apply ctl_diag]. }
  destruct (closing s); simpl; [|rewrite Ec].
  { try rewrite M_run; simpl. split; [by apply sinv_diag|apply ctl_diag]. }
  rewrite M_run. unfold _allocate_profile_record_seq_locked.
  assert (lane s Profile = Some (p_lane p)) as Hl by by unfold lane; rewrite Ep.
  rewrite Hl. simpl. destruct (_UINT64_MAX <? next_record_seq (p_lane p)); [done|].
  assert (sinv (k1 Profile) (upd_lane Profile allocated s)) as Ha by by apply sinv_allocated.
  pose proof (last_seq_allocated Profile s _ Hl) as Hseq.
  assert (∀ r ts, let s' := ((_note_profile_drop_locked (next_record_seq (p_lane p)) t r ts ;;
            (mret None : M JsonlTraceSink (option ProfileRecordRef)))
            (upd_lane Profile allocated s)).2 in sinv k0 s' ∧ ctl s' = ctl s) as Hdrop.
  { intros r ts. edestruct (profile_drop_spec (A:=option ProfileRecordRef)
      (next_record_seq (p_lane p)) t r ts (λ _, mret None)) as [? Hc]; [done|exact Ha|].
    split; [done|]. by rewrite Hc, ctl_upd. }
  destruct v; try apply Hdrop.
  destruct (_ || _); [apply Hdrop|]. destruct (writer_failed s); [apply Hdrop|].
  destruct (profile_data_line _ _ _ _ _ _) as [[raw ref]|]; [|apply Hdrop].
  destruct (admit_profile_spec raw t _ z ref _ Ht Ha Hseq) as [? Hc].
  split; [done|]. by rewrite Hc, ctl_upd.
Qed.

Lemma drop_profile_spec t v r clock mono s :
  t ∈ ProfileRecordType → sinv k0 s →
  let s' := (drop_kv_recovery_profile t v r true clock mono s).2 in
  sinv k0 s' ∧ ctl s' = ctl s.
Proof.
  intros Ht H. unfold drop_kv_recovery_profile. rewrite M_run. simpl.
  destruct (closed s) eqn:Ec; simpl; [done|].
  rewrite M_run. simpl.
  destruct (is_some_b (profile s)); simpl; [|done]. destruct (closing s); simpl; [done|]. rewrite Ec.
  rewrite M_run. unfold _allocate_profile_record_seq_locked.
  destruct (_UINT64_MAX <? _); [done|]. simpl.
  set (seq := from_option next_record_seq 0 (lane s Profile)).
  edestruct (profile_drop_spec (A:=option Z)) with (k := λ _ : unit,
    (mret (Some seq) : M JsonlTraceSink (option Z))) as [? Hc];
    [done|by apply sinv_allocated|].
  split; [eassumption|]. rewrite Hc. apply ctl_upd.
Qed.

(** ** Fields of [ctl] are set without touching the account *)

Lemma sinv_flags k s s' :
  sinv k s → base s' = base s → profile s' = profile s → queue s' = queue s →
  inflight_batch s' = inflight_batch s → sinv k s'.
Proof.
  intros H E1 E2 E3 E4. apply (sinv_ext k s); [done| |].
  - unfold pending. by rewrite E3, E4.
  - intros []; unfold lane; by rewrite ?E1, ?E2.
Qed.

Lemma new_span_id_spec s :
  sinv k0 s → let s' := (new_span_id true s).2 in sinv k0 s' ∧ ctl s' = ctl s.
Proof.
  intros H. unfold new_span_id. simpl.
  destruct (negb (negb (closed s)) || closing s || closed s); simpl; [done|].
  split; [|done]. by apply (sinv_flags k0 s).
Qed.

Lemma defer_diagnostic_spec r s :
  sinv k0 s → let s' := defer_diagnostic r true s in sinv k0 s' ∧ ctl s' = ctl s.
Proof.
  intros H. unfold defer_diagnostic. simpl.
  destruct (negb (negb (closed s)) || closing s || closed s); [done|].
  split; [by apply sinv_diag|apply ctl_diag].
Qed.
