(* ===== verification/SinkInvariant.v ===== *)
(** * The invariant of the sink under every interleaving

    Preservation of the lane invariant by the writer thread and by [close], the
    control invariant that ties the program counter of the writer to the queue,
    the flags and the completion claim, and the theorems that follow for every
    reachable configuration of [SinkSteps.step]. *)

From Stdlib Require Import ZArith Lia Ascii String.
From stdpp Require Import base list strings gmap sorting relations.
From S2P Require Import Prelude PyValue Sha256 RuntimeProtocol ProfileProtocol SinkState.
From S2P Require Import TraceSink SinkSteps SinkLemmas.

(** ** Accounting of unwritten records *)

Lemma account_one q s :
  is_Some (lane s (q_stream q)) →
  _account_unwritten_queued_locked q s =
  if is_data (q_stream q) q then drop_data 1 (q_stream q) s else drop_control 1 (q_stream q) s.
Proof.
  intros Hl. unfold _account_unwritten_queued_locked, is_data.
  rewrite (bool_decide_eq_true_2 (q_stream q = q_stream q)) by done.
  destruct (q_stream q); cbn [andb]; [done|].
  rewrite bool_decide_eq_true_2 by done. unfold lane in Hl.
  destruct (profile s); [done|by destruct Hl].
Qed.

(** The lane fields an account of drops leaves unchanged. *)
Definition same_counts (l l' : Lane) : Prop :=
  attempted_data_count l' = attempted_data_count l ∧ next_record_seq l' = next_record_seq l ∧
  written l' = written l ∧ open_loss l' = open_loss l ∧ content_hash l' = content_hash l ∧
  file l' = file l ∧ summary_written l' = summary_written l ∧ formal l' = formal l ∧
  incomplete l' = incomplete l ∧ fd_open l' = fd_open l ∧
  writer_failure_count l' = writer_failure_count l.

Lemma same_counts_refl l : same_counts l l.
Proof. unfold same_counts. by split_and!. Qed.

Lemma same_counts_trans l1 l2 l3 : same_counts l1 l2 → same_counts l2 l3 → same_counts l1 l3.
Proof. unfold same_counts. intros; destruct_and!. split_and!; congruence. Qed.

(** [s'] differs from [s] only in drop counters, by [d st] data records. *)
Definition dropped_by (d : stream → Z) (s s' : JsonlTraceSink) : Prop :=
  ctl s' = ctl s ∧ queue s' = queue s ∧
  (∀ st, match lane s st, lane s' st with
         | Some l, Some l' =>
             same_counts l l' ∧ dropped_data_count l' = dropped_data_count l + d st ∧
             queued_bytes l' = queued_bytes l ∧ ordinary_queued l' = ordinary_queued l ∧
             reserved_queued l' = reserved_queued l
         | None, None => True
         | _, _ => False
         end).

Lemma dropped_by_refl d s : (∀ st, d st = 0) → dropped_by d s s.
Proof.
  intros Hd. split_and!; [done|done|]. intros st. rewrite Hd.
  destruct (lane s st); [|done]. split; [apply same_counts_refl|]. split_and!; lia.
Qed.

Lemma dropped_by_trans d1 d2 s1 s2 s3 :
  dropped_by d1 s1 s2 → dropped_by d2 s2 s3 → dropped_by (λ st, d1 st + d2 st) s1 s3.
Proof.
  intros (Hc & Hq & Hl) (Hc' & Hq' & Hl'). split_and!; try congruence.
  intros st. specialize (Hl st). specialize (Hl' st).
  destruct (lane s1 st), (lane s2 st), (lane s3 st); try done. destruct_and!.
  split; [by eapply same_counts_trans|]. split_and!; lia.
Qed.

Lemma dropped_by_ext d d' s s' : (∀ st, d st = d' st) → dropped_by d s s' → dropped_by d' s s'.
Proof. intros E (? & ? & H). split_and!; try done. intros st. rewrite <- E. apply H. Qed.

Lemma dropped_by_data st s :
  is_Some (lane s st) → dropped_by (k1 st) s (drop_data 1 st s).
Proof.
  intros [l Hl]. split_and!; [by autorewrite with sink..|]. intros st'.
  unfold drop_data. rewrite lane_upd. case_bool_decide as E; subst.
  - rewrite Hl. simpl. rewrite k1_self. by split_and!.
  - rewrite k1_other by done. destruct (lane s st'); [|done].
    split_and!; try done; lia.
Qed.

Lemma dropped_by_control n st s : dropped_by k0 s (drop_control n st s).
Proof.
  split_and!; [by autorewrite with sink..|]. intros st'.
  unfold drop_control. rewrite lane_upd. unfold k0. case_bool_decide as E; subst.
  - destruct (lane s st'); simpl; [|done]. split_and!; try done; try (simpl; lia).
  - destruct (lane s st'); simpl; [|done]. split_and!; try done; try lia.
Qed.

Lemma dropped_by_lane d s s' st :
  dropped_by d s s' → is_Some (lane s st) → is_Some (lane s' st).
Proof.
  intros (_ & _ & H) [l Hl]. specialize (H st). rewrite Hl in H.
  destruct (lane s' st); [by eexists|done].
Qed.

Lemma account_fold qs s :
  Forall (λ q, is_Some (lane s (q_stream q))) qs →
  dropped_by (λ st, count_if (is_data st) qs) s
    (foldl (λ s q, _account_unwritten_queued_locked q s) s qs).
Proof.
  revert s. induction qs as [|q qs IH]; intros s Hqs; [by apply dropped_by_refl|].
  apply Forall_cons in Hqs as [Hq Hqs]. cbn [foldl]. rewrite account_one by done.
  assert (dropped_by (λ st, if is_data st q then 1 else 0) s
            (if is_data (q_stream q) q then drop_data 1 (q_stream q) s
             else drop_control 1 (q_stream q) s)) as H1.
  { destruct (is_data (q_stream q) q) eqn:E.
    - eapply dropped_by_ext; [|by apply dropped_by_data]. intros st. unfold k1.
      case_bool_decide; subst; [by rewrite E|]. by rewrite is_data_other.
    - eapply dropped_by_ext; [|by apply dropped_by_control]. intros st. unfold k0.
      destruct (decide (q_stream q = st)); subst; [by rewrite E|]. by rewrite is_data_other by congruence. }
  eapply dropped_by_ext; [|eapply dropped_by_trans; [exact H1|apply IH]].
  - intros st. by rewrite count_if_cons.
  - eapply Forall_impl; [exact Hqs|]. intros q' ?. by eapply dropped_by_lane.
Qed.

(** ** Emptying the queue *)

Lemma lane_clear_queue s st :
  lane (clear_queue s) st = clear_lane <$> lane s st.
Proof. unfold clear_queue. rewrite !lane_upd. by destruct st. Qed.

Lemma pending_clear_queue s : pending (clear_queue s) = [].
Proof. unfold clear_queue. by rewrite !pending_upd. Qed.

(** The control fields of [s] except the batch in flight. *)
Definition flags (s : JsonlTraceSink) :=
  (closing s, closed s, writer_failed s, abandoned s, completion_claim s, close_deadline_ns s,
   writer_outcome s, is_some_b (profile s), process_uuid s).

Lemma ctl_flags s s' : ctl s' = ctl s → flags s' = flags s.
Proof. intros H. ctl_inv H. unfold flags. congruence. Qed.

Lemma flags_clear_queue s : flags (clear_queue s) = flags s.
Proof. unfold clear_queue. by rewrite !(ctl_flags _ _ (ctl_upd _ _ _)). Qed.

(** Drop everything that is pending: the account stays settled. *)
Lemma sinv_cleared d s s' :
  sinv k0 s → dropped_by d s s' → (∀ st, d st = count_if (is_data st) (pending s)) →
  sinv k0 (clear_queue s').
Proof.
  intros [H1 H2] (_ & _ & Hl) Hd. constructor; rewrite pending_clear_queue; [|constructor].
  intros st l'. rewrite lane_clear_queue. intros (l1 & Hl1 & ->)%fmap_Some.
  specialize (Hl st). rewrite Hl1 in Hl. destruct (lane s st) as [l|] eqn:E; [|done].
  destruct (H1 st l E). destruct Hl as ((E1 & E2 & E3 & _) & E4 & _). rewrite Hd in E4.
  unfold k0 in *.
  constructor; simpl; rewrite ?count_if_nil; unfold data_written, RESERVED_CAPACITY_RECORDS,
    DATA_CAPACITY_RECORDS, MAX_QUEUED_BYTES in *; simpl; rewrite ?E1, ?E2, ?E3; try lia.
  - done.
  - repeat constructor.
Qed.

Lemma pending_lanes k s :
  sinv k s → Forall (λ q, is_Some (lane s (q_stream q))) (pending s).
Proof. intros [_ H]. eapply Forall_impl; [exact H|]. by intros q [_ ?]. Qed.

Lemma sinv_account_pending s : sinv k0 s → sinv k0 (account_pending s).
Proof.
  intros H. eapply sinv_cleared; [exact H|apply account_fold; by eapply pending_lanes|done].
Qed.

Lemma pending_account_pending s : pending (account_pending s) = [].
Proof. apply pending_clear_queue. Qed.

Lemma flags_account_pending s :
  sinv k0 s → flags (account_pending s) = flags s.
Proof.
  intros H. unfold account_pending. rewrite flags_clear_queue.
  apply ctl_flags. apply account_fold. by eapply pending_lanes.
Qed.

Lemma sinv_bump k st s : sinv k s → sinv k (upd_lane st bump_failures s).
Proof. intros H. by apply sinv_upd_ext. Qed.

Lemma sinv_mark_failure s : sinv k0 s → sinv k0 (_mark_writer_failure_locked s).
Proof.
  intros H. apply sinv_account_pending, sinv_diag.
  apply (sinv_flags k0 (upd_lane Base bump_failures (upd_lane Profile bump_failures s)));
    try done. by apply sinv_bump, sinv_bump.
Qed.

Lemma pending_mark_failure s : pending (_mark_writer_failure_locked s) = [].
Proof. apply pending_account_pending. Qed.

Lemma sinv_force_timeout s : sinv k0 s → sinv k0 (_force_timeout_accounting_locked s).
Proof.
  intros H. unfold _force_timeout_accounting_locked. case_bool_decide.
  - by apply sinv_account_pending.
  - apply sinv_diag. apply (sinv_flags k0 (account_pending s)); try done.
    by apply sinv_account_pending.
Qed.

Lemma pending_force_timeout s : pending (_force_timeout_accounting_locked s) = [].
Proof.
  unfold _force_timeout_accounting_locked. case_bool_decide; [by apply pending_account_pending|].
  rewrite pending_diag. change (pending (account_pending s) = []). apply pending_account_pending.
Qed.

(** ** Batches *)

Lemma take_batch_app n b q : (take_batch n b q).1 ++ (take_batch n b q).2 = q.
Proof.
  revert n b. induction q as [|c q IH]; intros n b; [done|]. cbn [take_batch].
  destruct (negb _); [done|]. destruct (_ && _); [done|].
  specialize (IH (n + 1) (b + raw_len c)). destruct (take_batch _ _ q). simpl in *. by f_equal.
Qed.

Lemma sinv_take_batch k s batch s' :
  sinv k s → inflight_batch s = [] → _take_batch_locked s = (batch, s') →
  sinv k (set_inflight_batch batch s') ∧ pending (set_inflight_batch batch s') = pending s.
Proof.
  unfold _take_batch_locked. intros H Hi Hb.
  pose proof (take_batch_app 0 0 (queue s)) as E. destruct (take_batch 0 0 (queue s)) as [b r].
  injection Hb as <- <-. simpl in E.
  assert (pending (set_inflight_batch b (set_queue r s)) = pending s) as Hp.
  { unfold pending. simpl. by rewrite E, Hi. }
  split; [|done]. apply (sinv_ext k s); [done|done|]. by intros [].
Qed.

(** ** Recording a write *)

Lemma count_of_incr t t' c :
  count_of (incr t c) t' = count_of c t' + if bool_decide (t = t') then 1 else 0.
Proof.
  unfold count_of, incr. case_bool_decide; subst.
  - by rewrite lookup_insert_eq.
  - rewrite lookup_insert_ne by done. lia.
Qed.

Lemma sum_incr_notin (ts : list string) t c :
  t ∉ ts → sum_list_Z (map (count_of (incr t c)) ts) = sum_list_Z (map (count_of c) ts).
Proof.
  induction ts as [|t' ts IH]; [done|]. rewrite not_elem_of_cons. intros [Hne Hn]. simpl.
  rewrite IH, count_of_incr, bool_decide_eq_false_2 by done. lia.
Qed.

Lemma sum_incr (ts : list string) t c :
  NoDup ts → t ∈ ts →
  sum_list_Z (map (count_of (incr t c)) ts) = sum_list_Z (map (count_of c) ts) + 1.
Proof.
  induction 1 as [|t' ts Hn Hnd IH]; [by intros ?%elem_of_nil|].
  rewrite elem_of_cons. intros Hin. simpl. destruct (decide (t = t')) as [->|Hne].
  - rewrite sum_incr_notin, count_of_incr, bool_decide_eq_true_2 by done. lia.
  - destruct Hin as [?|Hin]; [done|].
    rewrite IH, count_of_incr, bool_decide_eq_false_2 by done. lia.
Qed.

Lemma data_types_nodup st : NoDup (data_types st).
Proof. apply (bool_decide_unpack _). by destruct st. Qed.

Lemma lane_inv_written st k l q rest :
  q_stream q = st → lane_inv st k l (q :: rest) → lane_inv st k (lane_written q l) rest.
Proof.
  intros Hst [].
  assert (bool_decide (q_stream q = st) = true) as E by by apply bool_decide_eq_true_2.
  assert (data_written st (lane_written q l) =
          data_written st l + if is_data st q then 1 else 0) as Hw.
  { unfold data_written, lane_written, is_data. rewrite E, Hst. simpl.
    destruct (str_in (q_record_type q) (data_types st)) eqn:Ht.
    - apply str_in_spec in Ht. destruct (q_reserved q); simpl;
        by rewrite sum_incr by (done || apply data_types_nodup).
    - destruct (String.eqb _ _), (q_reserved q); simpl; lia. }
  assert (StronglySorted Z.lt (data_seqs st rest ++ [next_record_seq l - k])) as Hs.
  { change (q :: rest) with ([q] ++ rest) in li_seqs.
    rewrite data_seqs_app, data_seqs_one in li_seqs.
    destruct (is_data st q); [|done]. destruct (q_record_seq q); [|done].
    simpl in li_seqs. by inversion li_seqs. }
  change (q :: rest) with ([q] ++ rest) in *.
  rewrite ?count_if_app, ?stream_bytes_app, ?stream_bytes_one, ?count_if_cons, ?count_if_nil, E
    in *.
  unfold ordinary_of, reserved_of in li_ordinary, li_reserved. rewrite E in *. simpl in *.
  assert (next_record_seq (lane_written q l) = next_record_seq l ∧
          attempted_data_count (lane_written q l) = attempted_data_count l ∧
          dropped_data_count (lane_written q l) = dropped_data_count l ∧
          queued_bytes (lane_written q l) = queued_bytes l - raw_len q ∧
          ordinary_queued (lane_written q l) =
            ordinary_queued l - (if q_reserved q then 0 else 1) ∧
          reserved_queued (lane_written q l) =
            reserved_queued l - (if q_reserved q then 1 else 0)) as (F1 & F2 & F3 & F4 & F5 & F6).
  { unfold lane_written. repeat case_match; simpl; split_and!; lia. }
  assert (0 ≤ raw_len q) by (unfold raw_len; lia).
  constructor; rewrite ?F1, ?F2, ?F3, ?F4, ?F5, ?F6, ?Hw; unfold ordinary_of, reserved_of;
    destruct (q_reserved q); simpl in *; try done; lia.
Qed.

Lemma lane_inv_skip st k l q rest :
  q_stream q ≠ st → lane_inv st k l (q :: rest) → lane_inv st k l rest.
Proof.
  intros Hne [].
  assert (bool_decide (q_stream q = st) = false) as E by by apply bool_decide_eq_false_2.
  change (q :: rest) with ([q] ++ rest) in *.
  rewrite data_seqs_app, data_seqs_one, is_data_other in li_seqs by done.
  rewrite ?count_if_app, ?stream_bytes_app, ?stream_bytes_one, ?count_if_cons, ?count_if_nil, E
    in *.
  rewrite is_data_other in li_acct by done.
  unfold ordinary_of, reserved_of in li_ordinary, li_reserved. rewrite E in *.
  constructor; unfold ordinary_of, reserved_of; simpl in *; try done; lia.
Qed.

Lemma record_written_spec q s :
  sinv k0 s →
  sinv k0 (_record_written q s) ∧
  (abandoned s = true ∧ _record_written q s = s ∨
   abandoned s = false ∧
   (inflight_batch s = [] ∨ (∃ h r, inflight_batch s = h :: r ∧ h ≠ q) ∧
      pending (_record_written q s) = [] ∨
    ∃ rest, inflight_batch s = q :: rest ∧
      _record_written q s = upd_lane (q_stream q) (lane_written q) (set_inflight_batch rest s))).
Proof.
  intros H. unfold _record_written. destruct (abandoned s); [by eauto|].
  destruct (inflight_batch s) as [|h rest] eqn:Ei.
  { split; [by apply sinv_mark_failure|]. right. eauto. }
  destruct (decide (h = q)) as [->|Hne].
  2:{ rewrite bool_decide_eq_false_2 by done. simpl. split; [by apply sinv_mark_failure|].
      right. split; [done|]. right; left. split; [by eauto|]. apply pending_mark_failure. }
  rewrite bool_decide_eq_true_2 by done. simpl.
  destruct H as [H1 H2]. unfold pending in H2. rewrite Ei in H2. simpl in H2.
  apply Forall_cons in H2 as [[Hwf [l Hl]] H2].
  replace (lane (set_inflight_batch rest s) (q_stream q)) with (lane s (q_stream q))
    by by destruct (q_stream q).
  rewrite Hl. split; [|right; eauto 10].
  constructor; rewrite pending_upd.
  - intros st l'. rewrite lane_upd.
    assert (pending s = q :: pending (set_inflight_batch rest s)) as Hp
      by (unfold pending; by rewrite Ei).
    case_bool_decide as E; subst.
    + intros (l0 & Hl0 & ->)%fmap_Some. apply lane_inv_written; [done|]. rewrite <- Hp.
      apply H1. by destruct (q_stream q).
    + intros Hl0. eapply lane_inv_skip; [exact E|]. rewrite <- Hp. apply H1. by destruct st.
  - eapply Forall_impl; [exact H2|]. intros q' [? ?]. split; [done|].
    rewrite lane_upd. case_bool_decide; [apply fmap_is_Some|]; by destruct (q_stream q').
Qed.

(** ** Timeout controls *)

Lemma split_runs_concat g l : concat (split_runs g l) = g ++ l.
Proof.
  revert g. induction l as [|q l IH]; intros g; simpl.
  - destruct g; simpl; by rewrite ?app_nil_r.
  - destruct (breaks_run g q); simpl; rewrite IH; [done|]. by rewrite <- app_assoc.
Qed.

(** The controls admitted so far. *)
Definition controls_ok (controls : list _QueuedRecord) (s : JsonlTraceSink) : Prop :=
  Forall (λ q, (∃ raw st, q = control_record raw st) ∨
               (is_control q = true ∧ q_reserved q = true ∧ q_record_seq q = None ∧
                is_data (q_stream q) q = false)) controls ∧
  Forall (λ q, is_Some (lane s (q_stream q))) controls ∧
  ∀ st, stream_count st controls ≤ RESERVED_CAPACITY_RECORDS ∧
        stream_bytes st controls ≤ MAX_QUEUED_BYTES.

Lemma stream_count_snoc st l q :
  stream_count st (l ++ [q]) = stream_count st l + if bool_decide (q_stream q = st) then 1 else 0.
Proof. unfold stream_count. rewrite count_if_app, count_if_cons, count_if_nil. lia. Qed.

Lemma admit_control_spec controls s q controls' s' :
  controls_ok controls s → is_Some (lane s (q_stream q)) →
  is_control q = true → q_reserved q = true → q_record_seq q = None →
  is_data (q_stream q) q = false →
  admit_control (controls, s) q = (controls', s') →
  controls_ok controls' s' ∧ dropped_by k0 s s'.
Proof.
  intros (H1 & H2 & H3) Hl Hc Hr Hs Hd. unfold admit_control. simpl.
  destruct (_ || _) eqn:E; intros [= <- <-].
  - pose proof (dropped_by_control 1 (charged s q) s) as Hdrop. split; [|done].
    split_and!; [done| |done]. eapply Forall_impl; [exact H2|]. intros q' ?.
    by eapply dropped_by_lane.
  - bool_prop. split; [|by apply dropped_by_refl]. split_and!.
    + apply Forall_app. split; [done|]. apply Forall_singleton. by right.
    + apply Forall_app. split; [done|]. by apply Forall_singleton.
    + intros st. destruct (H3 st). rewrite stream_count_snoc, stream_bytes_app, stream_bytes_one.
      case_bool_decide; subst; lia.
Qed.

Lemma dropped_by_upd st f s :
  (∀ l, same_counts l (f l) ∧ dropped_data_count (f l) = dropped_data_count l ∧
        queued_bytes (f l) = queued_bytes l ∧ ordinary_queued (f l) = ordinary_queued l ∧
        reserved_queued (f l) = reserved_queued l) →
  dropped_by k0 s (upd_lane st f s).
Proof.
  intros Hf. split_and!; [by autorewrite with sink..|]. intros st'. rewrite lane_upd.
  unfold k0. case_bool_decide as E; subst.
  - destruct (lane s st') as [l|]; simpl; [|done]. destruct (Hf l) as (?&?&?&?&?).
    split; [done|]. split_and!; try done; lia.
  - destruct (lane s st'); [|done]. split; [apply same_counts_refl|]. split_and!; lia.
Qed.

Lemma dropped_by_data_n n st s :
  is_Some (lane s st) → dropped_by (λ st', if bool_decide (st' = st) then n else 0) s
    (drop_data n st s).
Proof.
  intros [l Hl]. split_and!; [by autorewrite with sink..|]. intros st'.
  unfold drop_data. rewrite lane_upd. case_bool_decide as E; subst.
  - rewrite Hl. simpl. by rewrite bool_decide_eq_true_2.
  - rewrite bool_decide_eq_false_2 by congruence. destruct (lane s st'); [|done].
    split; [apply same_counts_refl|]. split_and!; lia.
Qed.

Definition group_drop (st : stream) (n : Z) : stream → Z :=
  λ st', if bool_decide (st' = st) then n else 0.

Lemma timeout_control_spec st group ts s c s' :
  is_Some (lane s st) → _timeout_loss_control_locked st group ts s = (c, s') →
  dropped_by (group_drop st (Z.of_nat (List.length group))) s s' ∧
  (∀ q, c = Some q → ∃ raw, q = control_record raw st).
Proof.
  intros Hl. unfold _timeout_loss_control_locked. pose proof Hl as [l Hl']. rewrite Hl'.
  set (n := Z.of_nat (List.length group)).
  assert (dropped_by (group_drop st n) s (drop_data n st s)) as Hd
    by by apply dropped_by_data_n.
  set (s1 := upd_lane st _ (drop_data n st s)).
  assert (dropped_by (group_drop st n) s s1) as H1.
  { eapply dropped_by_ext; [|eapply dropped_by_trans; [exact Hd|]].
    2:{ apply dropped_by_upd. intros l'. by split_and!. }
    intros. unfold k0. lia. }
  destruct (loss_line s1 st _ _); intros [= <- <-].
  - split; [done|]. intros q [= <-]. by eexists.
  - split; [|done]. eapply dropped_by_ext;
      [|eapply dropped_by_trans; [exact H1|by apply dropped_by_control]].
    intros. unfold k0. lia.
Qed.

Lemma controls_ok_lane controls d s s' :
  controls_ok controls s → dropped_by d s s' → controls_ok controls s'.
Proof.
  intros (H1 & H2 & H3) Hd. split_and!; [done| |done]. eapply Forall_impl; [exact H2|].
  intros q ?. by eapply dropped_by_lane.
Qed.

Lemma admit_group_spec ts st controls s group controls' s' :
  controls_ok controls s → is_Some (lane s st) →
  admit_group ts st (controls, s) group = (controls', s') →
  controls_ok controls' s' ∧ dropped_by (group_drop st (Z.of_nat (List.length group))) s s'.
Proof.
  intros Hok Hl. unfold admit_group. simpl.
  destruct (_timeout_loss_control_locked st group ts s) as [c s1] eqn:E.
  destruct (timeout_control_spec _ _ _ _ _ _ Hl E) as [Hd Hc].
  pose proof (controls_ok_lane _ _ _ _ Hok Hd) as Hok1.
  destruct c as [q|]; [|by intros [= <- <-]].
  destruct (Hc q eq_refl) as [raw ->]. intros Ha.
  apply admit_control_spec in Ha as [? Ha]; try done.
  - split; [done|]. eapply dropped_by_ext; [|eapply dropped_by_trans; [exact Hd|exact Ha]].
    intros. unfold k0. lia.
  - by eapply dropped_by_lane.
  - apply is_data_control.
Qed.

Lemma fold_admit_control qs controls s controls' s' :
  controls_ok controls s →
  Forall (λ q, is_Some (lane s (q_stream q)) ∧ is_control q = true ∧ q_reserved q = true ∧
               q_record_seq q = None ∧ is_data (q_stream q) q = false) qs →
  foldl admit_control (controls, s) qs = (controls', s') →
  controls_ok controls' s' ∧ dropped_by k0 s s'.
Proof.
  revert controls s. induction qs as [|q qs IH]; intros controls s Hok Hqs; cbn [foldl].
  { intros [= <- <-]. split; [done|by apply dropped_by_refl]. }
  apply Forall_cons in Hqs as [(?&?&?&?&?) Hqs].
  destruct (admit_control (controls, s) q) as [c1 s1] eqn:E. intros Hf.
  apply admit_control_spec in E as [Hok1 Hd1]; try done.
  apply IH in Hf as [Hok2 Hd2]; [|done|].
  - split; [done|]. eapply dropped_by_ext; [|eapply dropped_by_trans; [exact Hd1|exact Hd2]].
    done.
  - eapply Forall_impl; [exact Hqs|]. intros q' (?&?). split; [|done]. by eapply dropped_by_lane.
Qed.

Lemma fold_admit_group ts st gs controls s controls' s' :
  controls_ok controls s → (gs = [] ∨ is_Some (lane s st)) →
  foldl (admit_group ts st) (controls, s) gs = (controls', s') →
  controls_ok controls' s' ∧
  dropped_by (group_drop st (Z.of_nat (List.length (concat gs)))) s s'.
Proof.
  revert controls s. induction gs as [|g gs IH]; intros controls s Hok Hl; cbn [foldl].
  { intros [= <- <-]. split; [done|]. apply dropped_by_refl. intros st'. unfold group_drop.
    simpl. by case_bool_decide. }
  destruct Hl as [?|Hl]; [done|].
  destruct (admit_group ts st (controls, s) g) as [c1 s1] eqn:E. intros Hf.
  apply admit_group_spec in E as [Hok1 Hd1]; try done.
  apply IH in Hf as [Hok2 Hd2]; [|done|right; by eapply dropped_by_lane].
  split; [done|]. eapply dropped_by_ext; [|eapply dropped_by_trans; [exact Hd1|exact Hd2]].
  intros st'. unfold group_drop. simpl. rewrite length_app. case_bool_decide; lia.
Qed.

Lemma filter_count {A} (p : A → bool) l :
  Z.of_nat (List.length (filter (λ x, p x = true) l)) = count_if p l.
Proof.
  induction l as [|x l IH]; [done|]. rewrite filter_cons, count_if_cons.
  destruct (p x); simpl; lia.
Qed.

Lemma controls_ok_count controls s st :
  controls_ok controls s →
  count_if (is_data st) controls = 0 ∧ count_if (ordinary_of st) controls = 0 ∧
  count_if (reserved_of st) controls = stream_count st controls ∧ data_seqs st controls = [].
Proof.
  intros (H & _ & _).
  assert (Forall (λ q, q_reserved q = true ∧ is_data st q = false) controls) as Hf.
  { eapply Forall_impl; [exact H|]. intros q [(raw & st' & ->)|(? & ? & ? & Hd)].
    - split; [done|]. apply is_data_control.
    - split; [done|]. destruct (decide (q_stream q = st)) as [<-|]; [done|].
      by apply is_data_other. }
  clear H. induction Hf as [|q l [Hr Hd] _ (I1 & I2 & I3 & I4)]; [done|].
  unfold stream_count in *. rewrite !count_if_cons, Hd, I1, I2, I3.
  unfold ordinary_of at 1, reserved_of at 1. rewrite Hr, andb_true_r, andb_false_r.
  split_and!; try done. change (q :: l) with ([q] ++ l).
  by rewrite data_seqs_app, data_seqs_one, Hd, I4.
Qed.

Lemma recognized_fold s qs :
  Forall q_wf qs →
  foldl (λ s q, if recognized q then s else drop_control 1 (charged s q) s) s qs = s.
Proof.
  induction 1 as [|q qs Hq _ IH]; [done|]. cbn [foldl].
  assert (recognized q = true) as ->; [|done].
  unfold recognized. destruct Hq as [(Hd & _)|(-> & _)]; [|done].
  destruct (q_stream q); rewrite Hd; by rewrite ?orb_true_r.
Qed.

(** The lanes after the timeout controls were reserved. *)
Lemma lane_inv_controls st l l' pend controls s :
  lane_inv st 0 l pend → same_counts l l' → controls_ok controls s →
  dropped_data_count l' = dropped_data_count l + count_if (is_data st) pend →
  ordinary_queued l' = 0 →
  lane_inv st 0 (set_reserved_queued (stream_count st controls)
                   (set_queued_bytes (stream_bytes st controls) l')) controls.
Proof.
  intros [] (E1 & E2 & E3 & _) Hok Hd Ho.
  destruct (controls_ok_count controls s st Hok) as (C1 & C2 & C3 & C4).
  destruct Hok as (_ & _ & Hcap). destruct (Hcap st).
  constructor; unfold data_written, DATA_CAPACITY_RECORDS in *; simpl;
    rewrite ?E1, ?E2, ?E3, ?C1, ?C2, ?C3, ?C4; try lia.
  simpl. repeat constructor.
Qed.

(** A stream without a lane has no pending records. *)
Lemma no_lane_no_data k s st :
  sinv k s → lane s st = None → filter (λ q, is_data st q = true) (pending s) = [].
Proof.
  intros [_ Hq] Hl. induction Hq as [|q l [_ Hs] _ IH]; [done|].
  rewrite filter_cons. rewrite decide_False; [done|]. intros Hd.
  destruct (decide (q_stream q = st)) as [E|E].
  - rewrite E, Hl in Hs. by destruct Hs.
  - by rewrite is_data_other in Hd.
Qed.

Lemma lane_set_inflight b s st : lane (set_inflight_batch b s) st = lane s st.
Proof. by destruct st. Qed.

Lemma lane_timeout_outcome s st : lane (timeout_outcome s) st = lane s st.
Proof. by destruct st. Qed.

(** [_prepare_timeout_controls_locked] turns every pending data record into a
    drop and keeps only loss intervals in flight. *)
Lemma prepare_timeout_spec mono s controls s' :
  sinv k0 s → _prepare_timeout_controls_locked mono s = (controls, s') →
  sinv k0 s' ∧ inflight_batch s' = controls ∧ queue s' = [] ∧
  flags s' = flags (timeout_outcome s) ∧ Forall (λ q, is_control q = true) controls ∧
  (∀ st l l', lane s st = Some l → lane s' st = Some l' → same_counts l l').
Proof.
  intros H. unfold _prepare_timeout_controls_locked.
  pose proof H as [Hlane Hq].
  rewrite recognized_fold by (eapply Forall_impl; [exact Hq|]; by intros q [??]).
  assert (∀ st, is_Some (lane s st) → is_Some (lane (clear_queue s) st)) as Hls.
  { intros st ?. rewrite lane_clear_queue. by apply fmap_is_Some. }
  assert (controls_ok [] (clear_queue s)) as Hok0.
  { split_and!; [constructor|constructor|]. intros []; vm_compute; split; congruence. }
  destruct (foldl admit_control _ _) as [c1 s1] eqn:E1.
  apply fold_admit_control in E1 as [Hok1 Hd1]; [|done|].
  2:{ apply Forall_forall. intros q [Hc Hin]%list_elem_of_filter.
      rewrite Forall_forall in Hq. destruct (Hq q Hin) as [[(?&?&?)|(?&?&?&?)] ?].
      - congruence.
      - split_and!; auto. }
  destruct (foldl (admit_group mono Base) _ _) as [c2 s2] eqn:E2.
  apply fold_admit_group in E2 as [Hok2 Hd2]; [|done|].
  2:{ right. by eexists. }
  destruct (foldl (admit_group mono Profile) _ _) as [c3 s3] eqn:E3.
  apply fold_admit_group in E3 as [Hok3 Hd3]; [|done|].
  2:{ destruct (lane s Profile) as [l|] eqn:El; [right|left].
      - do 2 (eapply dropped_by_lane; [eassumption|]). apply Hls. by eexists.
      - rewrite (no_lane_no_data k0 s) by done. done. }
  rewrite !split_runs_concat in *. simpl in *. rewrite !filter_count in *.
  pose proof (dropped_by_trans _ _ _ _ _ Hd1 (dropped_by_trans _ _ _ _ _ Hd2 Hd3)) as Hd.
  intros [= <- <-].
  set (s4 := timeout_outcome (_count_diagnostic_locked "close_timeout" s3)).
  assert (∀ st, lane s4 st = lane s3 st) as Hl4.
  { intros st. unfold s4. by rewrite lane_timeout_outcome, lane_diag. }
  assert (∀ st l, lane s st = Some l → ∃ l', lane s3 st = Some l' ∧ same_counts l l' ∧
    dropped_data_count l' = dropped_data_count l + count_if (is_data st) (pending s) ∧
    ordinary_queued l' = 0) as Hlanes.
  { intros st l Hl. destruct Hd as (_ & _ & Hd). specialize (Hd st).
    rewrite lane_clear_queue, Hl in Hd. simpl in Hd.
    destruct (lane s3 st) as [l'|]; [|done]. exists l'.
    destruct Hd as (Hs & Hdr & _ & Ho & _). split_and!; try done.
    rewrite Hdr. unfold k0, group_drop. simpl. destruct st; simpl; lia. }
  set (reserve := λ st l, set_reserved_queued (stream_count st c3)
                            (set_queued_bytes (stream_bytes st c3) l)).
  set (sF := upd_lane Base (reserve Base) (upd_lane Profile (reserve Profile)
               (set_inflight_batch c3 s4))).
  change (sinv k0 sF ∧ inflight_batch sF = c3 ∧ queue sF = [] ∧
    flags sF = flags (timeout_outcome s) ∧ Forall (λ q, is_control q = true) c3 ∧
    (∀ st l l', lane s st = Some l → lane sF st = Some l' → same_counts l l')).
  assert (∀ st, lane sF st = reserve st <$> lane s3 st) as HlF.
  { intros st. unfold sF. rewrite !lane_upd, lane_set_inflight, Hl4. by destruct st. }
  assert (ctl sF = ctl (set_inflight_batch c3 s4)) as HcF by (unfold sF; by rewrite !ctl_upd).
  assert (queue sF = []) as HqF.
  { unfold sF. rewrite !queue_upd. change (queue s4 = []). unfold s4.
    change (queue (_count_diagnostic_locked "close_timeout" s3) = []). rewrite queue_diag.
    destruct Hd as (_ & -> & _). unfold clear_queue. by rewrite !queue_upd. }
  apply ctl_eq_fields in HcF as HcF'. destruct HcF' as [HiF _].
  assert (pending sF = c3) as HpF by (unfold pending; by rewrite HqF, HiF, app_nil_r).
  assert (flags sF = flags (timeout_outcome s)) as HfF.
  { transitivity (flags (timeout_outcome s3)).
    - transitivity (flags s4); [by apply ctl_flags in HcF|].
      pose proof (ctl_flags _ _ (ctl_diag "close_timeout" s3)) as E.
      unfold flags in *. simpl. congruence.
    - destruct Hd as (E & _). apply ctl_flags in E. rewrite flags_clear_queue in E.
      unfold flags in *. simpl. congruence. }
  pose proof Hok3 as (HF3 & HL3 & _).
  split_and!; try done.
  - constructor; rewrite HpF.
    + intros st lF. rewrite HlF. intros (l' & Hl' & ->)%fmap_Some.
      destruct (lane s st) as [l|] eqn:El.
      * destruct (Hlanes st l El) as (l2 & Hl2 & Hsc & Hdr & Ho).
        assert (l2 = l') as -> by congruence.
        by eapply lane_inv_controls; [apply Hlane|..].
      * exfalso. destruct Hd as (_ & _ & Hd). specialize (Hd st).
        by rewrite lane_clear_queue, El, Hl' in Hd.
    + apply Forall_forall. intros q Hin. rewrite Forall_forall in HF3, HL3. split.
      * destruct (HF3 q Hin) as [(raw & st & ->)|?]; [apply q_wf_control|by right].
      * rewrite HlF. apply fmap_is_Some. by apply HL3.
  - eapply Forall_impl; [exact HF3|]. by intros q [(raw & st & ->)|(?&?)].
  - intros st l lF Hl. rewrite HlF. intros (l' & Hl' & ->)%fmap_Some.
    destruct (Hlanes st l Hl) as (l2 & Hl2 & Hsc & _). assert (l2 = l') as -> by congruence.
    exact Hsc.
Qed.
