(* ===== verification/SinkControl.v ===== *)
(** * The control invariant of the exporter

    [Inv] ties the lane invariant, the position of the writer with respect to
    the queue and to the flags, the contents of the base shard and the
    completion claim together.  Here: its definition, and its preservation by
    producers and by [close]; SinkTheorems.v has the writer and the properties. *)

From Stdlib Require Import ZArith Lia Ascii String.
From stdpp Require Import base list strings gmap sorting relations.
From S2P Require Import Prelude PyValue Sha256 RuntimeProtocol ProfileProtocol SinkState.
From S2P Require Import TraceSink SinkSteps SinkLemmas SinkInvariant.

#[global] Arguments summary_line : simpl never.

(** ** The invariant *)

(** The writer has left the main loop and the summary. *)
Definition late (pc : writer_pc) : bool :=
  match pc with
  | WFinalize | WCloseFds | WPublish | WReplace _ | WClaim | WFinish | WDone => true
  | _ => false
  end.

(** What a record of the base shard says about its counters. *)
Definition base_evidence (s : JsonlTraceSink) :=
  (process_uuid s, attempted_data_count (base s), written (base s),
   written_loss_interval_count (base s), dropped_data_count (base s),
   dropped_control_count (base s), writer_failure_count (base s),
   (content_hash (base s), file (base s), formal (base s), incomplete (base s),
    summary_written (base s))).

(** The base shard is complete: the hashed records followed by the summary that
    reconciles them; and the file has a name. *)
Definition complete_file (outcome : string) (s : JsonlTraceSink) : Prop :=
  (∃ clock raw, summary_line Base outcome clock s = Ok raw ∧
                file (base s) = content_hash (base s) +:+ raw) ∧
  (formal (base s) = FData ∨ formal (base s) = FSentinel ∧ incomplete (base s) = true).

Definition named (s : JsonlTraceSink) : Prop :=
  formal (base s) = FData ∨ formal (base s) = FSentinel ∧ incomplete (base s) = true.

(** The base file up to the summary. *)
Definition file_inv (s : JsonlTraceSink) (pc : writer_pc) : Prop :=
  match pc with
  | WRecord _ q _ =>
      file (base s) =
        content_hash (base s) +:+ (if bool_decide (q_stream q = Base) then q_raw q else "") ∧
      named s
  | WBuild Profile o | WSumCheck Profile _ o | WSumWrite Profile _ o | WSumDone _ o =>
      complete_file o s
  | WSumWrite Base raw o | WSumCheck Base raw o =>
      (∃ clock, summary_line Base o clock s = Ok raw) ∧
      file (base s) = content_hash (base s) ∧ named s
  | _ => if late pc then True else file (base s) = content_hash (base s) ∧ named s
  end.

(** Nothing can be enqueued any more. *)
Definition frozen (s : JsonlTraceSink) : Prop := writer_failed s = true ∨ closing s = true.

(** Only loss intervals are left. *)
Definition timeout_phase (s : JsonlTraceSink) : Prop :=
  closing s = true ∧ queue s = [] ∧ Forall (λ q, is_control q = true) (inflight_batch s).

Definition pc_ok (s : JsonlTraceSink) (pc : writer_pc) : Prop :=
  match pc with
  | WLoop => abandoned s = true ∨ inflight_batch s = []
  | WBatch rest => abandoned s = true ∨ inflight_batch s = rest
  | WCheck ctl q rest | WPersist ctl q rest | WRecord ctl q rest =>
      (abandoned s = true ∨ inflight_batch s = q :: rest) ∧
      (ctl = true → timeout_phase s)
  | WTimeout => closing s = true
  | WControls rest =>
      (abandoned s = true ∨ inflight_batch s = rest) ∧ timeout_phase s
  | WDrained | WSummary _ | WMove _ _ | WBuild _ _ | WSumCheck _ _ _ | WSumWrite _ _ _
  | WSumDone _ _ => closing s = true ∧ (abandoned s = true ∨ pending s = [])
  | WFinalize | WCloseFds | WPublish | WReplace _ | WClaim | WFinish | WDone =>
      abandoned s = true ∨ pending s = [] ∧ frozen s
  end.

Definition result_reconciles (r : CloseResult) : Prop :=
  cr_attempted_data_count r =
    cr_written_event_count r + cr_written_edge_count r + cr_dropped_data_count r.

(** A drained claim with a summary. *)
Definition admitted (r : CloseResult) : Prop :=
  cr_close_outcome r = "drained" ∧ cr_summary_written r = true.

Definition claim_matches (r : CloseResult) (s : JsonlTraceSink) : Prop :=
  cr_attempted_data_count r = attempted_data_count (base s) ∧
  cr_written_event_count r = count_of (written (base s)) "event" ∧
  cr_written_edge_count r = count_of (written (base s)) "edge" ∧
  cr_dropped_data_count r = dropped_data_count (base s) ∧
  cr_dropped_control_count r = dropped_control_count (base s).

Record Inv (c : config) : Prop := {
  inv_s : sinv k0 c.1;
  inv_release : match c.2 with
                | WSumCheck st raw _ | WSumWrite st raw _ => sinv k0 (release_control st raw c.1)
                | _ => True
                end;
  inv_open : closing c.1 = true → ∀ st, open_loss_of c.1 st = None;
  inv_abandoned : abandoned c.1 = true → is_Some (completion_claim c.1);
  inv_closed : closed c.1 = true → completion_claim c.1 = None → c.2 = WDone;
  inv_pc : pc_ok c.1 c.2;
  inv_file : abandoned c.1 = true ∨ file_inv c.1 c.2;
  inv_summary : summary_written (base c.1) = true →
    late c.2 = true ∧ closing c.1 = true ∧
    (abandoned c.1 = true ∨
     ∃ o, writer_outcome c.1 = Some o ∧ complete_file o c.1);
  inv_publish : abandoned c.1 = false → match c.2 with
    | WReplace Base =>
        writer_outcome c.1 = Some "drained" ∧ summary_written (base c.1) = true
    | WReplace Profile | WClaim =>
        writer_outcome c.1 = Some "drained" ∧ summary_written (base c.1) = true ∧
        formal (base c.1) = FData
    | _ => True
    end;
  inv_claim : ∀ r, completion_claim c.1 = Some r →
    (cr_close_outcome r ≠ "timeout" → result_reconciles r) ∧
    (admitted r → (c.2 = WFinish ∨ c.2 = WDone) ∧ closing c.1 = true ∧
       complete_file "drained" c.1 ∧ claim_matches r c.1) }.

(** ** Evidence is a function of [base_evidence] *)

Lemma summary_line_evidence o clock s s' :
  base_evidence s' = base_evidence s →
  summary_line Base o clock s' = summary_line Base o clock s.
Proof.
  unfold base_evidence, summary_line. intros H.
  injection H as -> -> -> -> -> -> -> -> _ _ _ _. reflexivity.
Qed.

Lemma complete_file_evidence o s s' :
  base_evidence s' = base_evidence s → complete_file o s → complete_file o s'.
Proof.
  intros E [(clock & raw & Hr & Hf) Hn]. split.
  - exists clock, raw. rewrite (summary_line_evidence _ _ _ _ E). split; [done|].
    injection E as _ _ _ _ _ _ _ -> -> _ _ _. done.
  - injection E as _ _ _ _ _ _ _ _ _ -> -> _. done.
Qed.

Lemma named_evidence s s' : base_evidence s' = base_evidence s → named s → named s'.
Proof. intros E. unfold named. by injection E as _ _ _ _ _ _ _ _ _ -> -> _. Qed.

Lemma file_inv_evidence s s' pc :
  base_evidence s' = base_evidence s → file_inv s pc → file_inv s' pc.
Proof.
  intros E. pose proof (named_evidence _ _ E) as Hn.
  assert (file (base s') = file (base s) ∧ content_hash (base s') = content_hash (base s))
    as [Ef Ec] by (by injection E).
  assert (∀ o clock, summary_line Base o clock s' = summary_line Base o clock s) as Es
    by (intros; by apply summary_line_evidence).
  destruct pc as [|rest|ctl q rest|ctl q rest|ctl q rest| |rest| |o|st o|st o|st raw o|st raw o
    |st o| | | |st| | |]; simpl; rewrite ?Ef, ?Ec; try done; try tauto;
    try (destruct st; rewrite ?Ef, ?Ec); try tauto; try (by apply complete_file_evidence).
  all: intros ((clock & Hc) & ? & ?); split_and!; [exists clock; by rewrite Es|done|tauto].
Qed.

Lemma claim_matches_evidence r s s' :
  base_evidence s' = base_evidence s → claim_matches r s → claim_matches r s'.
Proof. intros E. unfold claim_matches. by injection E as _ -> -> _ -> -> _ _ _ _ _ _. Qed.

(** ** What producers leave alone *)

Definition io_of (l : Lane) :=
  (content_hash l, file l, formal l, incomplete l, summary_written l).

Lemma io_fields l l' : io_of l' = io_of l →
  content_hash l' = content_hash l ∧ file l' = file l ∧ formal l' = formal l ∧
  incomplete l' = incomplete l ∧ summary_written l' = summary_written l.
Proof. unfold io_of. by intros [= -> -> -> -> ->]. Qed.

(** Only counters, losses and, unless frozen, the queue change. *)
Definition producer (s s' : JsonlTraceSink) : Prop :=
  ctl s' = ctl s ∧ (∀ st, io_of <$> lane s' st = io_of <$> lane s st) ∧
  (frozen s → queue s' = queue s).

Lemma producer_refl s : producer s s.
Proof. by split_and!. Qed.

Lemma frozen_ctl s s' : ctl s' = ctl s → frozen s → frozen s'.
Proof. intros H. ctl_inv H. unfold frozen. naive_solver. Qed.

Lemma producer_trans s1 s2 s3 : producer s1 s2 → producer s2 s3 → producer s1 s3.
Proof.
  intros (H1 & H2 & H3) (H1' & H2' & H3'). split_and!; [congruence| |].
  - intros st. by rewrite H2', H2.
  - intros Hf. rewrite H3' by (by eapply frozen_ctl). auto.
Qed.

Lemma producer_upd st f s : (∀ l, io_of (f l) = io_of l) → producer s (upd_lane st f s).
Proof.
  intros Hf. split_and!; [apply ctl_upd| |intros; apply queue_upd].
  intros st'. rewrite lane_upd. case_bool_decide; [|done].
  destruct (lane s st'); simpl; [by rewrite Hf|done].
Qed.

Lemma producer_diag r s : producer s (_count_diagnostic_locked r s).
Proof.
  split_and!; [apply ctl_diag| |intros; apply queue_diag]. intros. by rewrite lane_diag.
Qed.

Lemma producer_enqueue q s : producer s (_enqueue_locked q s).2.
Proof.
  destruct (enqueue_spec q s) as [(E & Hc & Hp & Hctl & Hl)|[E _]]; rewrite E; simpl;
    [|apply producer_refl].
  split_and!; [done| |].
  - intros st. rewrite Hl. case_bool_decide; [|done]. destruct (lane s st); simpl; [|done].
    unfold lane_enqueued. by destruct (q_reserved q).
  - intros Hf. apply can_enqueue_lane in Hc as (? & ? & _). destruct Hf; congruence.
Qed.

Lemma producer_seal st s : producer s (_seal_loss_locked st s).
Proof.
  unfold _seal_loss_locked. destruct (open_loss_of s st); [|apply producer_refl].
  set (s1 := upd_lane st _ s). assert (producer s s1) as H1 by by apply producer_upd.
  destruct (loss_line _ _ _ _) as [raw|].
  - pose proof (producer_enqueue (mkQueued raw "loss_interval" None true None st) s1) as H2.
    destruct (_enqueue_locked _ _) as [[] s2]; simpl in H2.
    + by eapply producer_trans.
    + eapply producer_trans; [exact H1|]. eapply producer_trans; [exact H2|].
      by apply producer_upd.
  - eapply producer_trans; [exact H1|]. by apply producer_upd.
Qed.

Lemma producer_drop n st s : producer s (drop_data n st s).
Proof. by apply producer_upd. Qed.

Lemma producer_drop_diag r st s :
  producer s (_count_diagnostic_locked r (drop_data 1 st s)).
Proof. eapply producer_trans; [apply producer_drop|apply producer_diag]. Qed.

Lemma producer_note_drop seq t r ts s : producer s (_note_drop_locked seq t r ts s).
Proof.
  unfold _note_drop_locked. destruct (extends_open_loss _ _ _).
  - eapply producer_trans; [apply producer_drop_diag|by apply producer_upd].
  - eapply producer_trans; [apply producer_drop_diag|].
    eapply producer_trans; [apply producer_seal|by apply producer_upd].
Qed.

Lemma producer_upd_profile f s :
  (∀ p, p_lane (f p) = p_lane p) → producer s (upd_profile f s).
Proof.
  intros Hf. split_and!; [apply ctl_upd_profile| |done]. intros st. by rewrite lane_upd_profile.
Qed.

Lemma producer_note_profile_drop seq t r ts s :
  producer s (_note_profile_drop_locked seq t r ts s).2.
Proof.
  unfold _note_profile_drop_locked. destruct (extends_open_loss _ _ _).
  - destruct (_ !! _); simpl; (eapply producer_trans; [apply producer_drop_diag|]).
    + eapply producer_trans; [|by apply producer_upd_profile]. by apply producer_upd.
    + by apply producer_upd.
  - simpl. eapply producer_trans; [apply producer_drop_diag|].
    eapply producer_trans; [apply producer_seal|].
    eapply producer_trans; [|by apply producer_upd_profile]. by apply producer_upd.
Qed.

#[export] Hint Resolve producer_refl producer_diag producer_enqueue producer_seal
  producer_note_drop producer_note_profile_drop producer_drop : rlp.

Lemma producer_write_base t r encode clock mono s :
  producer s (write_base t r encode true clock mono s).2.
Proof.
  unfold write_base. simpl. destruct (closed s); simpl; [apply producer_refl|].
  destruct (closing s); simpl; [apply producer_diag|].
  unfold _producer_clock_or_drop_locked.
  eapply producer_trans; [by apply (producer_upd Base allocated)|].
  destruct (clock_value clock); simpl.
  2:{ eapply producer_trans; [apply producer_diag|apply producer_note_drop]. }
  destruct (writer_failed _); simpl; [apply producer_note_drop|].
  destruct (encode _ _) as [[raw ref]|]; simpl; [|apply producer_note_drop].
  unfold admit_or_drop. simpl. destruct (_can_enqueue_locked _ _ _ _); simpl;
    [|apply producer_note_drop].
  eapply producer_trans; [apply (producer_seal Base)|].
  match goal with |- context [_enqueue_locked ?q ?s'] =>
    pose proof (producer_enqueue q s') as He; destruct (_enqueue_locked q s') as [[] s2] end;
    simpl in *; [done|].
  eapply producer_trans; [exact He|apply producer_note_drop].
Qed.

Lemma producer_profile_drop {A} seq t r ts (k : unit → M JsonlTraceSink A) s0 s :
  (∀ u s', (k u s').2 = s') → producer s0 s →
  producer s0 ((_note_profile_drop_locked seq t r ts ≫= k) s).2.
Proof.
  intros Hk H0. eapply producer_trans; [exact H0|].
  pose proof (producer_note_profile_drop seq t r ts s) as H. rewrite M_run.
  destruct (_note_profile_drop_locked seq t r ts s) as [[u|e] s']; simpl in *; [by rewrite Hk|done].
Qed.

Lemma producer_admit_profile q seq ts ref s0 s :
  producer s0 s → producer s0 (admit_profile q seq ts ref s).2.
Proof.
  intros H0. unfold admit_profile. rewrite M_run. simpl.
  destruct (_can_enqueue_locked _ _ _ _); simpl; [|by apply producer_profile_drop].
  rewrite M_run. simpl. rewrite M_run.
  assert (producer s0 (_seal_loss_locked Profile s)) as H1
    by (eapply producer_trans; [exact H0|apply producer_seal]).
  pose proof (producer_enqueue q (_seal_loss_locked Profile s)) as H2.
  destruct (_enqueue_locked q (_seal_loss_locked Profile s)) as [[] s2]; simpl in *.
  - eapply producer_trans; [exact H1|]. eapply producer_trans; [exact H2|].
    by apply producer_upd_profile.
  - apply producer_profile_drop; [done|]. by eapply producer_trans.
Qed.

Lemma producer_write_profile t v fields clock mono s :
  producer s (write_kv_recovery_profile t v fields true clock mono s).2.
Proof.
  unfold write_kv_recovery_profile. rewrite M_run. simpl.
  destruct (closed s) eqn:Ec; simpl; [apply producer_refl|].
  rewrite M_run. simpl. destruct (profile s) as [p|]; [|apply producer_diag].
  destruct (closing s); simpl; [apply producer_diag|rewrite Ec].
  rewrite M_run. unfold _allocate_profile_record_seq_locked.
  destruct (_UINT64_MAX <? _); [apply producer_refl|]. simpl.
  assert (producer s (upd_lane Profile allocated s)) as Ha by by apply producer_upd.
  destruct v; try (by apply producer_profile_drop).
  destruct (_ || _); [by apply producer_profile_drop|].
  destruct (writer_failed s); [by apply producer_profile_drop|].
  destruct (profile_data_line _ _ _ _ _ _) as [[raw ref]|]; [|by apply producer_profile_drop].
  by apply producer_admit_profile.
Qed.

Lemma producer_drop_profile t v r clock mono s :
  producer s (drop_kv_recovery_profile t v r true clock mono s).2.
Proof.
  unfold drop_kv_recovery_profile. rewrite M_run. simpl.
  destruct (closed s) eqn:Ec; simpl; [apply producer_refl|].
  rewrite M_run. simpl. destruct (is_some_b (profile s)); simpl; [|apply producer_refl].
  destruct (closing s); simpl; [apply producer_refl|rewrite Ec].
  rewrite M_run. unfold _allocate_profile_record_seq_locked.
  destruct (_UINT64_MAX <? _); [apply producer_refl|]. simpl.
  apply producer_profile_drop; [done|]. by apply producer_upd.
Qed.

(** While closing, producers at most count a diagnostic. *)
Definition quiet (s s' : JsonlTraceSink) : Prop :=
  s' = s ∨ ∃ r, s' = _count_diagnostic_locked r s.

Lemma quiet_write_base t r encode clock mono s :
  closing s = true → quiet s (write_base t r encode true clock mono s).2.
Proof.
  intros Hc. unfold write_base. simpl. destruct (closed s); simpl; [by left|].
  rewrite Hc. right. by eexists.
Qed.

Lemma quiet_write_profile t v fields clock mono s :
  closing s = true → quiet s (write_kv_recovery_profile t v fields true clock mono s).2.
Proof.
  intros Hc. unfold write_kv_recovery_profile. rewrite M_run. simpl.
  destruct (closed s) eqn:Ec; simpl; [by left|].
  rewrite M_run. simpl. rewrite Hc. destruct (profile s) as [p|]; right; by eexists.
Qed.

Lemma quiet_drop_profile t v r clock mono s :
  closing s = true → quiet s (drop_kv_recovery_profile t v r true clock mono s).2.
Proof.
  intros Hc. unfold drop_kv_recovery_profile. rewrite M_run. simpl.
  destruct (closed s) eqn:Ec; simpl; [by left|].
  rewrite M_run. simpl. rewrite Hc. destruct (is_some_b (profile s)); by left.
Qed.

Lemma quiet_fields s s' : quiet s s' →
  (∀ st, lane s' st = lane s st) ∧ queue s' = queue s ∧ ctl s' = ctl s.
Proof.
  intros [->|[r ->]]; [done|]. split_and!; [intros; apply lane_diag|apply queue_diag|apply ctl_diag].
Qed.

(** ** Preservation by producers *)

Lemma base_lane s s' : lane s' Base = lane s Base → base s' = base s.
Proof. by intros [=]. Qed.

(** The points of the summary that depend on the counters. *)
Definition summary_pc (pc : writer_pc) : bool :=
  match pc with
  | WBuild _ _ | WSumCheck _ _ _ | WSumWrite _ _ _ | WSumDone _ _ => true
  | _ => false
  end.

(** The part of [Inv] that only reads [ctl], the evidence and the batch. *)
Lemma file_inv_io s s' pc :
  (closing s = true → base_evidence s' = base_evidence s) →
  io_of (base s') = io_of (base s) →
  (summary_pc pc = true → closing s = true) →
  file_inv s pc → file_inv s' pc.
Proof.
  intros He Hio Hpc. destruct (closing s) eqn:Hcl.
  { intros. eapply file_inv_evidence; [by apply He|done]. }
  injection Hio as E1 E2 E3 E4 E5. clear He.
  destruct pc; simpl in *; unfold named; rewrite ?E1, ?E2, ?E3, ?E4; try done;
    by specialize (Hpc eq_refl).
Qed.

Lemma pc_ok_summary s pc : pc_ok s pc → summary_pc pc = true → closing s = true.
Proof. unfold timeout_phase. destruct pc; simpl; naive_solver. Qed.

(** The control state as [pc_ok] reads it. *)
Lemma pc_ok_ctl s s' pc :
  ctl s' = ctl s → (frozen s → queue s' = queue s) → pc_ok s pc → pc_ok s' pc.
Proof.
  intros Hc Hq. apply ctl_eq_fields in Hc as (E1 & E2 & E3 & E4 & E5 & E6 & E7 & E8 & _).
  assert (closing s = true → queue s' = queue s) as Hqc by (intros; apply Hq; by right).
  destruct pc; simpl; unfold pending, frozen, timeout_phase in *;
    rewrite ?E1, ?E2, ?E4, ?E5; naive_solver congruence.
Qed.

Lemma release_quiet s s' st raw k :
  pending s' = pending s → (∀ st, lane s' st = lane s st) →
  sinv k (release_control st raw s) → sinv k (release_control st raw s').
Proof.
  intros Hp Hl H. apply (sinv_ext k _ _ H).
  - unfold release_control. by rewrite !pending_upd.
  - intros st'. unfold release_control. rewrite !lane_upd. by rewrite Hl.
Qed.

Lemma quiet_evidence s s' : quiet s s' → base_evidence s' = base_evidence s.
Proof.
  intros H. apply quiet_fields in H as (Hl & _ & Hc).
  apply ctl_eq_fields in Hc as (_&_&_&_&_&_&_&_&_&Hu).
  unfold base_evidence. rewrite Hu. by rewrite (base_lane _ _ (Hl Base)).
Qed.

Lemma Inv_producer s s' pc :
  Inv (s, pc) → sinv k0 s' → producer s s' → (closing s = true → quiet s s') →
  Inv (s', pc).
Proof.
  intros [Is Irel Iop Iab Icl Ipc Ifi Isu Ipu Icm] Hs (Hc & Hio & Hq) Hquiet. simpl in *.
  pose proof (ctl_eq_fields _ _ Hc) as (E1 & E2 & E3 & E4 & E5 & E6 & E7 & E8 & _ & E10).
  assert (io_of (base s') = io_of (base s)) as Eio by (pose proof (Hio Base) as HB; unfold lane in HB; simpl in HB; congruence).
  assert (closing s = true → base_evidence s' = base_evidence s) as Hev
    by (intros; by apply quiet_evidence, Hquiet).
  pose proof (pc_ok_summary _ _ Ipc) as Hsp.
  constructor; simpl; rewrite ?E2, ?E3, ?E5, ?E6, ?E8; try done.
  - destruct pc as [| | | | | | | | | | |st raw o|st raw o| | | | | | | |]; try done;
      (eapply release_quiet; [| |exact Irel]);
      specialize (Hsp eq_refl); apply Hquiet, quiet_fields in Hsp as (? & ? & ?);
      [by apply pending_ctl|done|by apply pending_ctl|done].
  - intros Hcl st. specialize (Iop Hcl st). unfold open_loss_of in *.
    apply Hquiet, quiet_fields in Hcl as (Hl & _). by rewrite Hl.
  - by eapply pc_ok_ctl.
  - destruct Ifi as [?|Hf]; [by left|right]. by eapply file_inv_io.
  - intros Hsum. injection Eio as _ _ _ _ Es. rewrite Es in Hsum.
    destruct (Isu Hsum) as (? & Hcl & Hor). split_and!; try done.
    destruct Hor as [?|(o & ? & ?)]; [by left|right]. exists o. split; [done|].
    eapply complete_file_evidence; [by apply Hev|done].
  - injection Eio as _ _ Ef _ Es. destruct pc as [| | | | | | | | | | | | | | | | |[]| | |];
      try done; rewrite ?Es, ?Ef; auto.
  - intros r Hr. destruct (Icm r Hr) as [? Had]. split; [done|].
    intros Ha. destruct (Had Ha) as (? & Hcl & ? & ?). split_and!; try done.
    + eapply complete_file_evidence; [by apply Hev|done].
    + eapply claim_matches_evidence; [by apply Hev|done].
Qed.

(** ** Preservation by [close] *)

Lemma reconciles_settled o b s :
  sinv k0 s → pending s = [] → result_reconciles (_result o b s).
Proof.
  intros [H _] Hp. destruct (H Base (base s) eq_refl). rewrite Hp in *.
  unfold result_reconciles, k0, data_written in *. simpl in *. rewrite count_if_nil in *. lia.
Qed.

Lemma claim_None o b s :
  completion_claim s = None → claim o b s = set_completion_claim (Some (_result o b s)) s.
Proof. intros H. unfold claim, _claim_close_result. by rewrite H. Qed.

Lemma claim_Some o b s r : completion_claim s = Some r → claim o b s = s.
Proof. intros H. unfold claim, _claim_close_result. by rewrite H. Qed.

Lemma sinv_set_claim k r s : sinv k s → sinv k (set_completion_claim r s).
Proof. intros H. by apply (sinv_flags k s). Qed.

Lemma complete_file_same s s' o :
  process_uuid s' = process_uuid s → base s' = base s → complete_file o s → complete_file o s'.
Proof. intros E1 E2. apply complete_file_evidence. unfold base_evidence. by rewrite E1, E2. Qed.

Lemma file_inv_same s s' pc :
  process_uuid s' = process_uuid s → base s' = base s → file_inv s pc → file_inv s' pc.
Proof. intros E1 E2. apply file_inv_evidence. unfold base_evidence. by rewrite E1, E2. Qed.

(** The first claim. *)
Lemma Inv_claim s pc o b :
  Inv (s, pc) → completion_claim s = None →
  (o ≠ "timeout" → pending s = []) →
  (o = "drained" → b = true →
     (pc = WFinish ∨ pc = WDone) ∧ closing s = true ∧ complete_file "drained" s) →
  Inv (claim o b s, pc).
Proof.
  intros [Is Irel Iop Iab Icl Ipc Ifi Isu Ipu Icm] Hn Hp Hd. rewrite claim_None by done.
  simpl in *. constructor; simpl; try done.
  - by apply sinv_set_claim.
  - destruct pc; try done; apply (release_quiet s); (done || by intros []).
  - intros r [= <-]. split; [intros Ho; apply reconciles_settled; auto|].
    intros [Ho Hb]. simpl in Ho, Hb. destruct (Hd Ho Hb) as (?&?&?). split_and!; try done.
Qed.

Lemma settled_late s pc :
  Inv (s, pc) → late pc = true → completion_claim s = None → pending s = [].
Proof.
  intros [] Hl Hc. simpl in *.
  assert (abandoned s = true → False) as Hna.
  { intros Ha. apply inv_abandoned0 in Ha as [? ?]. congruence. }
  destruct pc; try done; simpl in inv_pc0; naive_solver.
Qed.

Lemma Inv_deadline s pc d : Inv (s, pc) → Inv (set_close_deadline_ns d s, pc).
Proof.
  intros [Is Irel Iop Iab Icl Ipc Ifi Isu Ipu Icm]. simpl in *. constructor; simpl; try done.
  - by apply (sinv_flags k0 s).
  - destruct pc; try done; apply (release_quiet s); (done || by intros []).
Qed.

Lemma open_loss_seal st s : open_loss_of (_seal_loss_locked st s) st = None.
Proof.
  unfold _seal_loss_locked. destruct (open_loss_of s st) as [o|] eqn:E; [|done].
  unfold open_loss_of in E. destruct (lane s st) as [l|] eqn:El; [|done].
  set (s1 := upd_lane st _ s).
  assert (open_loss_of s1 st = None) as H1.
  { unfold open_loss_of, s1. by rewrite lane_upd_eq, El. }
  assert (∀ s2, open_loss_of s2 st = None → open_loss_of (drop_control 1 st s2) st = None) as Hd.
  { intros s2. unfold open_loss_of, drop_control. rewrite lane_upd_eq.
    by destruct (lane s2 st). }
  destruct (loss_line _ _ _ _) as [raw|]; [|by apply Hd].
  destruct (enqueue_spec (mkQueued raw "loss_interval" None true None st) s1)
    as [(-> & _ & _ & _ & Hl)|[-> _]]; [|by apply Hd].
  unfold open_loss_of in *. rewrite Hl. simpl. rewrite bool_decide_eq_true_2 by done.
  destruct (lane s1 st); [|done]. simpl. done.
Qed.

Lemma open_loss_seal_other st st' s :
  st ≠ st' → open_loss_of (_seal_loss_locked st s) st' = open_loss_of s st'.
Proof.
  intros Hne. unfold _seal_loss_locked. destruct (open_loss_of s st) as [o|]; [|done].
  set (s1 := upd_lane st _ s).
  assert (open_loss_of s1 st' = open_loss_of s st') as H1.
  { unfold open_loss_of, s1. by rewrite lane_upd_ne. }
  assert (∀ s2, open_loss_of (drop_control 1 st s2) st' = open_loss_of s2 st') as Hd.
  { intros s2. unfold open_loss_of, drop_control. by rewrite lane_upd_ne. }
  destruct (loss_line _ _ _ _) as [raw|]; [|by rewrite Hd].
  destruct (enqueue_spec (mkQueued raw "loss_interval" None true None st) s1)
    as [(-> & _ & _ & _ & Hl)|[-> _]]; [|by rewrite Hd].
  unfold open_loss_of in *. rewrite Hl. simpl. by rewrite bool_decide_eq_false_2.
Qed.

Lemma seal_none st s : open_loss_of s st = None → _seal_loss_locked st s = s.
Proof. intros H. unfold _seal_loss_locked. by rewrite H. Qed.

Lemma Inv_set_closing s pc :
  Inv (s, pc) → (∀ st, open_loss_of s st = None) → completion_claim s = None →
  Inv (set_closing true s, pc).
Proof.
  intros [Is Irel Iop Iab Icl Ipc Ifi Isu Ipu Icm] Ho Hn. simpl in *.
  constructor; simpl; try done.
  - by apply (sinv_flags k0 s).
  - destruct pc; try done; apply (release_quiet s); (done || by intros []).
  - destruct pc; simpl in *; unfold frozen, pending, timeout_phase in *; simpl; naive_solver.
  - intros Hs. destruct (Isu Hs) as (?&?&?). done.
  - rewrite Hn. done.
Qed.

Lemma Inv_close_begin s pc d : Inv (s, pc) → Inv (close_begin d s, pc).
Proof.
  intros H. unfold close_begin. destruct (completion_claim s) as [r|] eqn:Hn; [done|].
  destruct (closed s) eqn:Hc.
  { apply Inv_claim; try done. intros _. apply (settled_late s pc); try done.
    pose proof (inv_closed _ H Hc Hn) as E. simpl in E. by rewrite E. }
  set (sA := set_close_deadline_ns _ s).
  assert (Inv (sA, pc)) as HA by by apply Inv_deadline.
  assert (producer sA (_seal_loss_locked Profile (_seal_loss_locked Base sA))) as Hp.
  { eapply producer_trans; [apply producer_seal|apply producer_seal]. }
  apply Inv_set_closing.
  - apply (Inv_producer sA); try done.
    + apply sinv_seal, sinv_seal, HA.
    + intros Hcl. left. pose proof (inv_open _ HA Hcl) as Ho. simpl in Ho.
      by rewrite (seal_none Base), (seal_none Profile).
  - intros st. destruct st; [|apply open_loss_seal].
    rewrite open_loss_seal_other by done. apply open_loss_seal.
  - destruct Hp as [E _]. apply ctl_eq_fields in E as (_&_&_&_&_&->&_). done.
Qed.

Lemma sinv_release_empty k st raw s :
  sinv k s → pending s = [] → sinv k (release_control st raw s).
Proof.
  intros H Hp. apply sinv_upd_same; [done|]. rewrite Hp. intros l [].
  unfold stream_bytes in *. rewrite count_if_nil in *. simpl in *.
  destruct (0 <? reserved_queued l) eqn:E; bool_prop;
    constructor; simpl; rewrite ?count_if_nil; unfold data_written, stream_bytes in *;
    simpl; try done; try lia; by rewrite ?count_if_nil in *.
Qed.

(** Forced accounting changes drop counters only. *)
Lemma force_timeout_spec s :
  sinv k0 s →
  let s' := _force_timeout_accounting_locked s in
  sinv k0 s' ∧ pending s' = [] ∧ closing s' = closing s ∧
  completion_claim s' = completion_claim s ∧
  (∀ st, open_loss_of s' st = open_loss_of s st) ∧
  summary_written (base s') = summary_written (base s).
Proof.
  intros H. simpl. pose proof (sinv_force_timeout s H) as Hs.
  pose proof (pending_force_timeout s) as Hp.
  assert (∀ s', dropped_by (λ st, count_if (is_data st) (pending s)) s s' →
    closing (clear_queue s') = closing s ∧
    completion_claim (clear_queue s') = completion_claim s ∧
    (∀ st, open_loss_of (clear_queue s') st = open_loss_of s st) ∧
    summary_written (base (clear_queue s')) = summary_written (base s)) as Hd.
  { intros s' (Hc & _ & Hl). pose proof (flags_clear_queue s') as Hf. apply ctl_flags in Hc.
    rewrite Hc in Hf. unfold flags in Hf. injection Hf as ? _ _ _ ? _ _ _ _.
    split_and!; try done.
    - intros st. unfold open_loss_of. rewrite lane_clear_queue. specialize (Hl st).
      destruct (lane s st), (lane s' st); simpl; try done. by destruct Hl as ((?&?&?&?&_)&_).
    - pose proof (lane_clear_queue s' Base) as E. specialize (Hl Base).
      change (Some (base (clear_queue s')) = Some (clear_lane (base s'))) in E.
      apply (inj Some) in E. rewrite E. simpl. unfold lane in Hl.
      by destruct Hl as ((_&_&_&_&_&_&?&_)&_). }
  specialize (Hd _ (account_fold (pending s) s (pending_lanes _ _ H))).
  split_and!; try done; unfold _force_timeout_accounting_locked; case_bool_decide;
    fold (account_pending s) in Hd; try apply Hd.
  - change (closing (_count_diagnostic_locked "close_timeout" (set_writer_outcome
      (Some "timeout") (set_writer_failed true (account_pending s)))) = closing s).
    match goal with |- context [_count_diagnostic_locked ?r ?x] =>
      destruct (ctl_eq_fields _ _ (ctl_diag r x)) as (_&->&_) end. apply Hd.
  - match goal with |- context [_count_diagnostic_locked ?r ?x] =>
      destruct (ctl_eq_fields _ _ (ctl_diag r x)) as (_&_&_&_&_&->&_) end. apply Hd.
  - intros st. unfold open_loss_of. rewrite lane_diag.
    destruct Hd as (_&_&Ho&_). specialize (Ho st). by destruct st.
  - match goal with |- context [_count_diagnostic_locked ?r ?x] =>
      pose proof (lane_diag r x Base) as E end. apply (inj Some) in E. rewrite E. apply Hd.
Qed.

Lemma pending_nil s : pending s = [] → inflight_batch s = [] ∧ queue s = [].
Proof. unfold pending. apply app_eq_nil. Qed.

Lemma Inv_close_join s pc :
  Inv (s, pc) → closing s = true → Inv (close_join (negb (bool_decide (pc = WDone))) s, pc).
Proof.
  intros H Hcl. unfold close_join. destruct (completion_claim s) as [r|] eqn:Hn; [done|].
  case_bool_decide as Hpc; simpl.
  - subst pc. apply Inv_claim; try done.
    + intros _. by apply (settled_late s WDone).
    + intros Ho Hb. destruct (inv_summary _ H Hb) as (_ & _ & [Ha|(o & Hwo & Hf)]).
      * destruct (inv_abandoned _ H Ha) as [r Hr]. simpl in Hr. congruence.
      * simpl in Hwo. rewrite Hwo in Ho. simpl in Ho. subst o. split_and!; [by right|done|done].
  - destruct (force_timeout_spec s (inv_s _ H)) as (Hs & Hp & Hc & Hcm & Hol & Hsw).
    set (s1 := _force_timeout_accounting_locked s) in *.
    rewrite claim_None by (simpl; congruence).
    destruct (pending_nil _ Hp) as [Hi Hq].
    destruct H as [Is Irel Iop Iab Icl Ipc Ifi Isu Ipu Icm]. simpl in *.
    set (s2 := set_completion_claim _ _).
    assert (sinv k0 s2) as Hs2 by by apply (sinv_flags k0 s1).
    constructor; simpl; try done.
    + destruct pc; try done; by apply sinv_release_empty.
    + intros ? st. rewrite <- (Iop Hcl st). rewrite <- Hol. by destruct st.
    + assert (closing s2 = true) as Hc2 by (simpl; congruence).
      assert (timeout_phase s2) as Htp.
      { unfold timeout_phase. simpl. by rewrite Hq, Hi, Hc, Hcl. }
      destruct pc; simpl in *; try (by left); rewrite ?Hq, ?Hc, ?Hcl; try done;
        split; by (left || done || by intros _).
    + by left.
    + rewrite Hsw. intros Hb. destruct (Isu Hb) as (? & _ & _). split_and!; [done| |by left].
      congruence.
    + intros r [= <-]. split; [done|]. by intros [? _].
Qed.

Lemma Inv_bounded_claim s pc : Inv (s, pc) → Inv (bounded_claim s, pc).
Proof.
  intros H. unfold bounded_claim. destruct (completion_claim s) as [r|] eqn:E.
  - by rewrite (claim_Some _ _ _ _ E).
  - by apply Inv_claim.
Qed.

Lemma Inv_bounded_flags r s pc :
  Inv (s, pc) → completion_claim s = Some r → cr_close_outcome r = "timeout" →
  Inv (bounded_flags s, pc).
Proof.
  intros [Is Irel Iop Iab Icl Ipc Ifi Isu Ipu Icm] Hr Ho. simpl in *.
  constructor; simpl; try done.
  - by apply (sinv_flags k0 s).
  - destruct pc; try done; apply (release_quiet s); (done || by intros []).
  - intros _. rewrite Hr. done.
  - destruct pc; simpl in *; try (by left); naive_solver.
  - by left.
  - intros Hb. destruct (Isu Hb) as (?&?&_). split_and!; [done|done|by left].
Qed.

(** ** Preservation by the writer *)

(** What the writer never changes. *)
Definition core (s : JsonlTraceSink) :=
  (closing s, closed s, abandoned s, completion_claim s,
   (open_loss_of s Base, open_loss_of s Profile)).

Lemma core_fields s s' : core s' = core s →
  closing s' = closing s ∧ closed s' = closed s ∧ abandoned s' = abandoned s ∧
  completion_claim s' = completion_claim s ∧
  (∀ st, open_loss_of s' st = open_loss_of s st).
Proof. unfold core. intros [= -> -> -> -> E1 E2]. split_and!; try done. by intros []. Qed.

Definition publishing (pc : writer_pc) : bool :=
  match pc with WReplace _ | WClaim => true | _ => false end.

Definition finished (pc : writer_pc) : bool :=
  match pc with WFinish | WDone => true | _ => false end.

Lemma Inv_intro s s' pc pc' :
  Inv (s, pc) → finished pc = false → core s' = core s → sinv k0 s' →
  match pc' with
  | WSumCheck st raw _ | WSumWrite st raw _ => sinv k0 (release_control st raw s')
  | _ => True
  end →
  pc_ok s' pc' → (abandoned s' = true ∨ file_inv s' pc') →
  summary_written (base s') = false → publishing pc' = false → Inv (s', pc').
Proof.
  intros [Is Irel Iop Iab Icl Ipc Ifi Isu Ipu Icm] Hfin Hcore Hs Hr Hpc Hf Hsw Hpub.
  unfold core in Hcore. injection Hcore as E1 E2 E3 E4 E5 E6. simpl in *.
  constructor; simpl; rewrite ?E1, ?E2, ?E3, ?E4, ?Hsw; try done.
  - intros Hc []; [rewrite E5|rewrite E6]; by apply Iop.
  - intros Hc Hn. by rewrite (Icl Hc Hn) in Hfin.
  - by rewrite <- E3.
  - by destruct pc'.
  - intros r Hcr. destruct (Icm r Hcr) as [? Ha]. split; [done|].
    intros Hadm. destruct (Ha Hadm) as ([-> | ->] & _); done.
Qed.

(** Before the late phase no summary is marked as written. *)
Lemma early_no_summary s pc : Inv (s, pc) → late pc = false → summary_written (base s) = false.
Proof.
  intros H Hl. destruct (summary_written (base s)) eqn:E; [|done].
  destruct (inv_summary _ H E) as (Hl' & _). simpl in Hl'. congruence.
Qed.

Lemma late_finished pc : late pc = false → finished pc = false.
Proof. by destruct pc. Qed.

Lemma clear_queue_core d s s' :
  dropped_by d s s' → core (clear_queue s') = core s ∧
  io_of (base (clear_queue s')) = io_of (base s) ∧
  writer_failed (clear_queue s') = writer_failed s.
Proof.
  intros (Hc & _ & Hl). pose proof (flags_clear_queue s') as Hf. apply ctl_flags in Hc.
  rewrite Hc in Hf. pose proof (lane_clear_queue s') as Hlc.
  revert Hf Hlc. generalize (clear_queue s'). intros c Hf Hlc.
  unfold flags in Hf. injection Hf as ? ? ? ? ? ? ? ? ?.
  assert (∀ st, open_loss_of c st = open_loss_of s st) as Ho.
  { intros st. unfold open_loss_of. rewrite Hlc. specialize (Hl st).
    destruct (lane s st), (lane s' st); simpl; try done. by destruct Hl as ((?&?&?&?&_)&_). }
  split_and!; [unfold core; rewrite !Ho; congruence| |done].
  specialize (Hlc Base). specialize (Hl Base).
  change (Some (base c) = Some (clear_lane (base s'))) in Hlc.
  apply (inj Some) in Hlc. rewrite Hlc. unfold lane in Hl.
  destruct Hl as ((_&_&_&_&?&?&?&?&?&_)&_). unfold io_of, clear_lane. simpl. congruence.
Qed.

Lemma core_ctl s s' :
  ctl s' = ctl s → (∀ st, open_loss_of s' st = open_loss_of s st) → core s' = core s.
Proof.
  intros Hc Ho. apply ctl_eq_fields in Hc as (_&?&?&_&?&?&_). unfold core.
  rewrite !Ho. congruence.
Qed.

Lemma core_diag r s : core (_count_diagnostic_locked r s) = core s.
Proof. apply core_ctl; [apply ctl_diag|]. intros. unfold open_loss_of. by rewrite lane_diag. Qed.

Lemma base_diag r s : base (_count_diagnostic_locked r s) = base s.
Proof. pose proof (lane_diag r s Base) as E. by apply (inj Some) in E. Qed.

Lemma mark_failure_spec s :
  sinv k0 s →
  let s' := _mark_writer_failure_locked s in
  sinv k0 s' ∧ pending s' = [] ∧ writer_failed s' = true ∧ core s' = core s ∧
  io_of (base s') = io_of (base s).
Proof.
  intros H. cbv zeta. split; [by apply sinv_mark_failure|]. split; [apply pending_mark_failure|].
  set (s1 := set_writer_failed true
               (upd_lane Base bump_failures (upd_lane Profile bump_failures s))).
  set (s2 := _count_diagnostic_locked "writer_failure" s1).
  change (_mark_writer_failure_locked s) with (account_pending s2).
  assert (sinv k0 s2) as H2.
  { apply sinv_diag. apply (sinv_flags k0 (upd_lane Base bump_failures
      (upd_lane Profile bump_failures s))); try done. by apply sinv_bump, sinv_bump. }
  destruct (clear_queue_core _ _ _ (account_fold (pending s2) s2 (pending_lanes _ _ H2)))
    as (Hcore & Hio & Hwf).
  change (clear_queue _) with (account_pending s2) in Hcore, Hio, Hwf.
  rewrite Hwf, Hcore, Hio. unfold s2.
  rewrite core_diag, base_diag.
  destruct (ctl_eq_fields _ _ (ctl_diag "writer_failure" s1)) as (_&_&_&->&_).
  split_and!; try done.
  all: unfold core, open_loss_of, s1, upd_lane, lane, io_of; simpl;
    destruct (profile s) eqn:E; simpl; by rewrite ?E.
Qed.

Lemma Inv_fail s s' pc :
  Inv (s, pc) → late pc = false → core s' = core s → sinv k0 s' →
  summary_written (base s') = summary_written (base s) → Inv (fail_writer s').
Proof.
  intros H Hl Hcore Hs Hsw.
  destruct (mark_failure_spec s' Hs) as (Hs' & Hp & Hwf & Hc & Hio).
  apply (Inv_intro s _ pc); try done.
  - by apply late_finished.
  - congruence.
  - right. split; [done|by left].
  - by right.
  - apply io_fields in Hio as (_&_&_&_&E). rewrite E, Hsw. by eapply early_no_summary.
Qed.
