(* ===== verification/SinkTheorems.v ===== *)
(** * Properties of the exporter in every reachable configuration

    The writer preserves [Inv]; hence every configuration reachable by
    [SinkSteps.step] satisfies it, and the properties of the exporter are read
    off it. *)

From Stdlib Require Import ZArith Lia Ascii String.
From stdpp Require Import base list strings gmap sorting relations.
From S2P Require Import Prelude PyValue Sha256 RuntimeProtocol ProfileProtocol SinkState.
From S2P Require Import TraceSink SinkSteps SinkLemmas SinkInvariant SinkControl.

(** ** The writer: main loop and batches *)

Lemma core_take_diag s : core (_take_pending_diagnostics_locked s).2 = core s.
Proof. done. Qed.

Lemma sinv_take_diag s : sinv k0 s → sinv k0 (_take_pending_diagnostics_locked s).2.
Proof. intros H. by apply (sinv_flags k0 s). Qed.

(** Diagnostics are invisible to the invariant. *)
Lemma Inv_take_diag s pc : Inv (s, pc) → Inv ((_take_pending_diagnostics_locked s).2, pc).
Proof.
  intros [Is Irel Iop Iab Icl Ipc Ifi Isu Ipu Icm]. constructor; try done.
  - by apply sinv_take_diag.
  - destruct pc; try done; apply (release_quiet s); (done || by intros []).
Qed.

(** Same state, next position of the writer. *)
Lemma Inv_goto s pc pc' :
  Inv (s, pc) → late pc = false →
  match pc' with
  | WSumCheck st raw _ | WSumWrite st raw _ => sinv k0 (release_control st raw s)
  | _ => True
  end →
  pc_ok s pc' → (abandoned s = true ∨ file_inv s pc') → publishing pc' = false →
  Inv (s, pc').
Proof.
  intros H Hl ????. apply (Inv_intro s s pc); try done.
  - by apply late_finished.
  - apply H.
  - by eapply early_no_summary.
Qed.

Lemma cutoff_closing now s : _close_cutoff_reached_locked now s = true → closing s = true.
Proof. unfold _close_cutoff_reached_locked. destruct (closing s); [done|]. done. Qed.

Lemma Inv_loop now s : Inv (s, WLoop) → Inv (writer_loop now s).
Proof.
  intros H. unfold writer_loop. destruct (abandoned s) eqn:Ha.
  { apply (Inv_goto s WLoop); try done; by left. }
  apply Inv_take_diag in H.
  destruct (_take_pending_diagnostics_locked s) as [ds s1] eqn:E. simpl in H.
  assert (abandoned s1 = false) as Ha1 by (by injection E as _ <-).
  clear E Ha s. destruct ds; [|done].
  pose proof (inv_pc _ H) as Hpc. simpl in Hpc. destruct Hpc as [?|Hi]; [congruence|].
  pose proof (inv_file _ H) as Hf. simpl in Hf. destruct Hf as [?|Hf]; [congruence|].
  destruct (_close_cutoff_reached_locked now s1) eqn:Ec.
  { apply (Inv_goto s1 WLoop); try done; [by eapply cutoff_closing|by right]. }
  destruct (queue s1) as [|q qs] eqn:Eq.
  - destruct (closing s1) eqn:Ecl; [|done].
    apply (Inv_goto s1 WLoop); try done; [|by right]. split; [done|]. right.
    unfold pending. by rewrite Hi, Eq.
  - destruct (_take_batch_locked s1) as [batch s2] eqn:Eb.
    destruct (sinv_take_batch k0 s1 batch s2 (inv_s _ H) Hi Eb) as [Hs Hp].
    unfold _take_batch_locked in Eb. destruct (take_batch 0 0 (queue s1)) as [b r].
    injection Eb as <- <-.
    apply (Inv_intro s1 _ WLoop); try done; [by right|by right|].
    by apply (early_no_summary s1 WLoop).
Qed.

Lemma Inv_batch_next now s q rest :
  Inv (s, WBatch (q :: rest)) →
  Inv (if abandoned s then (s, WFinalize)
       else if _close_cutoff_reached_locked now s then (s, WTimeout)
       else (s, WCheck false q rest)).
Proof.
  intros H. pose proof (inv_pc _ H) as Hpc. pose proof (inv_file _ H) as Hf.
  destruct (abandoned s) eqn:Ha; [|destruct (_close_cutoff_reached_locked now s) eqn:Ec].
  - apply (Inv_goto _ _ _ H); try done; by left.
  - apply (Inv_goto _ _ _ H); try done. by eapply cutoff_closing.
  - by apply (Inv_goto _ _ _ H).
Qed.

(** ** Writing a record *)

Lemma write_loop_ok fuel w i view bytes :
  write_loop fuel w i view = Some (Ok tt, bytes) → bytes = view.
Proof.
  revert i view bytes. induction fuel as [|fuel IH]; intros i view bytes;
    destruct view as [|c view']; cbn [write_loop]; try (by intros [= <-]).
  destruct (w i) as [v|e]; [|done]. destruct (invalid_progress v _); [done|].
  intros H. apply bind_Some in H as ([r out] & Hr & [= -> <-]).
  apply IH in Hr as ->. apply str_take_drop.
Qed.

(** Enough fuel: every accepted call makes progress. *)
Lemma str_drop_length n s : String.length (str_drop n s) = (String.length s - n)%nat.
Proof.
  revert s. induction n as [|n IH]; intros s; [destruct s; simpl; lia|].
  destruct s as [|c s]; simpl; [done|]. apply IH.
Qed.

Lemma write_loop_total fuel w i view :
  (String.length view ≤ fuel)%nat → is_Some (write_loop fuel w i view).
Proof.
  revert i view. induction fuel as [|fuel IH]; intros i view Hl.
  - destruct view; simpl in *; [by eexists|lia].
  - destruct view as [|c view']; [by eexists|]. cbn [write_loop].
    destruct (w i) as [v|e]; [|by eexists]. destruct (invalid_progress v _) eqn:E; [by eexists|].
    destruct v; try done. simpl in E. bool_prop.
    destruct (IH (S i) (str_drop (Z.to_nat z) (String c view'))) as [[r out] Hr].
    { rewrite str_drop_length. simpl in *. lia. }
    simpl in *. rewrite Hr. by eexists.
Qed.

Lemma write_persistent_ok w raw bytes : _write_persistent_all w raw = (Ok tt, bytes) → bytes = raw.
Proof.
  unfold _write_persistent_all.
  destruct (write_loop_total (String.length raw) w 0 raw (le_n _)) as [[r out] E].
  rewrite E. simpl. intros [= -> ->]. by eapply write_loop_ok.
Qed.

Definition appended (st : stream) (bytes : string) (s : JsonlTraceSink) : JsonlTraceSink :=
  append_file st bytes s.

Lemma write_stream_spec st w raw s r s' :
  write_stream st w raw s = (r, s') →
  (∃ bytes, s' = append_file st bytes s ∧ (is_ok r = true → bytes = raw)) ∨
  (s' = s ∧ is_ok r = false).
Proof.
  unfold write_stream. destruct st, (lane s _) as [l|]; try (intros [= <- <-]; by right).
  - destruct (_write_persistent_all w raw) as [r0 b] eqn:E. intros [= <- <-].
    left. exists b. split; [done|]. destruct r0 as [[]|]; [|done]. intros _.
    by eapply write_persistent_ok.
  - destruct (negb (fd_open l)); [intros [= <- <-]; by right|].
    destruct (_write_persistent_all w raw) as [r0 b] eqn:E. intros [= <- <-].
    left. exists b. split; [done|]. destruct r0 as [[]|]; [|done]. intros _.
    by eapply write_persistent_ok.
Qed.

Lemma sinv_append k st b s : sinv k s → sinv k (append_file st b s).
Proof. intros H. by apply sinv_upd_ext. Qed.

Lemma core_upd st f s : (∀ l, open_loss (f l) = open_loss l) → core (upd_lane st f s) = core s.
Proof.
  intros Hf. apply core_ctl; [apply ctl_upd|]. intros st'. unfold open_loss_of.
  rewrite lane_upd. case_bool_decide; [|done]. by destruct (lane s st'); simpl.
Qed.

Lemma base_upd_profile f s : base (upd_lane Profile f s) = base s.
Proof. unfold upd_lane. by destruct (profile s). Qed.

Lemma write_stream_frame st w raw s r s' :
  write_stream st w raw s = (r, s') → sinv k0 s →
  sinv k0 s' ∧ core s' = core s ∧ ctl s' = ctl s ∧ queue s' = queue s ∧
  summary_written (base s') = summary_written (base s).
Proof.
  intros Hw H. apply write_stream_spec in Hw as [(b & -> & _)|[-> _]]; [|done].
  split_and!.
  - by apply sinv_append.
  - by apply core_upd.
  - apply ctl_upd.
  - apply queue_upd.
  - destruct st; [done|]. unfold append_file. by rewrite base_upd_profile.
Qed.

Lemma Inv_check e ctl q rest s :
  Inv (s, WCheck ctl q rest) →
  Inv (if abandoned s || negb (io_ok (e_io e)) then fail_writer s else (s, WPersist ctl q rest)).
Proof.
  intros H. destruct (_ || _); [|].
  - apply (Inv_fail s s _ H); try done. apply H.
  - apply (Inv_goto _ _ _ H); try done; [apply H|]. exact (inv_file _ H).
Qed.

Lemma Inv_persist e ctl q rest s :
  Inv (s, WPersist ctl q rest) → Inv (writer_step e s (WPersist ctl q rest)).
Proof.
  intros H. cbn [writer_step].
  destruct (write_stream (q_stream q) (e_write e) (q_raw q) s) as [r s'] eqn:Ew.
  destruct (write_stream_frame _ _ _ _ _ _ Ew (inv_s _ H)) as (Hs & Hc & Hctl & Hq & Hsw).
  destruct (is_ok r) eqn:Er.
  2:{ by apply (Inv_fail s s' _ H). }
  apply (Inv_intro s s' _ _ H); try done.
  - apply (pc_ok_ctl s s' (WRecord ctl q rest)); [done|done|]. exact (inv_pc _ H).
  - apply ctl_eq_fields in Hctl as (_&_&_&_&->&_).
    destruct (inv_file _ H) as [?|[Hf Hn]]; [by left|right]. simpl in Hf, Hn. simpl.
    apply write_stream_spec in Ew as [(b & -> & Hb)|[_ ?]]; [|congruence].
    rewrite (Hb Er). unfold append_file.
    case_bool_decide as Hst.
    + rewrite Hst. simpl. unfold named in *. simpl. by rewrite Hf.
    + destruct (q_stream q); [done|]. unfold named. rewrite base_upd_profile.
      by rewrite str_app_nil_r.
  - rewrite Hsw. by apply (early_no_summary s _ H).
Qed.

Lemma lane_written_io q l :
  content_hash (lane_written q l) = content_hash l +:+ q_raw q ∧
  file (lane_written q l) = file l ∧ formal (lane_written q l) = formal l ∧
  incomplete (lane_written q l) = incomplete l ∧
  summary_written (lane_written q l) = summary_written l ∧
  open_loss (lane_written q l) = open_loss l.
Proof. unfold lane_written. by repeat case_match. Qed.

Lemma Inv_record ctl q rest s :
  Inv (s, WRecord ctl q rest) → Inv (_record_written q s, next_record ctl rest).
Proof.
  intros H. pose proof (inv_pc _ H) as [Hpc Hctl]. simpl in Hpc, Hctl.
  destruct (record_written_spec q s (inv_s _ H)) as [Hs [[Ha ->]|[Ha Hcase]]].
  - apply (Inv_goto _ _ _ H); [done|by destruct ctl| |by left|by destruct ctl].
    destruct ctl; simpl; [|by left]. split; [by left|]. by apply Hctl.
  - destruct Hpc as [?|Hi]; [congruence|].
    destruct Hcase as [?|[[(h & r & ? & ?) _]|(r & Hr & E)]]; [congruence|congruence|].
    assert (r = rest) as -> by congruence. rewrite E in *. clear E.
    set (s1 := upd_lane _ _ _) in *.
    assert (ctl_view_ok : closing s1 = closing s ∧ queue s1 = queue s ∧
      inflight_batch s1 = rest).
    { pose proof (ctl_upd (q_stream q) (lane_written q) (set_inflight_batch rest s)) as E.
      apply ctl_eq_fields in E as (E1&E2&_). unfold s1. rewrite queue_upd, E1, E2. done. }
    destruct ctl_view_ok as (Ec & Eq & Ei).
    assert (core s1 = core s) as Hcore.
    { unfold s1. rewrite core_upd; [done|]. intros l. apply lane_written_io. }
    apply (Inv_intro s s1 _ _ H); try done.
    + by destruct ctl.
    + destruct ctl; simpl; rewrite ?Ei; [|by right]. split; [by right|].
      destruct (Hctl eq_refl) as (? & ? & Hfa). unfold timeout_phase. rewrite Ei, Ec, Eq.
      rewrite Hi in Hfa. apply Forall_cons in Hfa. naive_solver.
    + destruct (inv_file _ H) as [?|[Hf Hn]]; [left; simpl in *; congruence|right].
      simpl in Hf, Hn. assert (file (base s1) = content_hash (base s1) ∧ named s1) as Hgoal.
      { unfold s1. case_bool_decide as Hst.
        - rewrite Hst. unfold named in *. simpl.
          destruct (lane_written_io q (base s)) as (-> & -> & -> & -> & _ & _). by rewrite Hf.
        - destruct (q_stream q); [done|]. unfold named. rewrite base_upd_profile. simpl.
          by rewrite Hf, str_app_nil_r. }
      by destruct ctl.
    + unfold s1. destruct (q_stream q); simpl.
      * destruct (lane_written_io q (base s)) as (_&_&_&_&->&_).
        by apply (early_no_summary s _ H).
      * rewrite base_upd_profile. by apply (early_no_summary s _ H).
    + by destruct ctl.
Qed.

(** ** Timeout controls and the drained exit *)

Lemma Inv_timeout now s controls s' :
  Inv (s, WTimeout) → _prepare_timeout_controls_locked now s = (controls, s') →
  Inv (s', WControls controls).
Proof.
  intros H Hp. assert (sinv k0 s) as Hs0 by apply H.
  destruct (prepare_timeout_spec _ _ _ _ Hs0 Hp) as (Hs & Hi & Hq & Hfl & Hfa & Hsc).
  unfold flags in Hfl. injection Hfl as E1 E2 E3 E4 E5 E6 E7 E8 E9.
  pose proof (inv_pc _ H) as Hcl. simpl in Hcl.
  assert (∀ st, open_loss_of s' st = open_loss_of s st) as Ho.
  { intros st. specialize (Hsc st). unfold open_loss_of.
    destruct (lane s st) as [l|] eqn:El, (lane s' st) as [l'|] eqn:El'; try done.
    - by destruct (Hsc l l' eq_refl eq_refl) as (_&_&_&?&_).
    - exfalso. unfold lane in El, El'. destruct st; [done|]. simpl in E8.
      by destruct (profile s), (profile s').
    - exfalso. unfold lane in El, El'. destruct st; [done|]. simpl in E8.
      by destruct (profile s), (profile s'). }
  destruct (Hsc Base (base s) (base s') eq_refl eq_refl) as
    (_&_&_&_&Hch&Hf&Hsw&Hfm&Hin&_).
  apply (Inv_intro s s' _ _ H); try done.
  - unfold core. rewrite !Ho. simpl in *. congruence.
  - simpl. split; [by right|]. unfold timeout_phase. rewrite Hi, E1. done.
  - simpl in E4. rewrite E4. destruct (inv_file _ H) as [?|[Hfi Hn]]; [by left|right].
    simpl in Hfi, Hn. simpl. unfold named in *. by rewrite Hf, Hch, Hfm, Hin.
  - rewrite Hsw. by apply (early_no_summary s _ H).
Qed.

Lemma Inv_set_outcome s pc o :
  Inv (s, pc) → late pc = false → Inv (set_writer_outcome o s, pc).
Proof.
  intros H Hl. pose proof (early_no_summary _ _ H Hl) as Hsw.
  apply (Inv_intro s _ pc _ H); try done.
  - by apply late_finished.
  - apply (sinv_flags k0 s); try done. apply H.
  - pose proof (inv_release _ H) as Hr. destruct pc; try done;
      apply (release_quiet s); (done || by intros []).
  - exact (inv_pc _ H).
  - exact (inv_file _ H).
  - by destruct pc.
Qed.

(** Leaving for the final phase with an outcome. *)
Lemma Inv_leave s pc :
  Inv (s, pc) → late pc = false → closing s = true →
  (abandoned s = true ∨ pending s = []) → Inv (s, WFinalize).
Proof.
  intros H Hl Hc Hp. apply (Inv_goto s pc); try done.
  - destruct Hp as [?|?]; [by left|right]. split; [done|by right].
  - by right.
Qed.

Lemma Inv_leave_outcome s pc o :
  Inv (s, pc) → late pc = false → closing s = true →
  (abandoned s = true ∨ pending s = []) → Inv (set_writer_outcome (Some o) s, WFinalize).
Proof. intros H Hl Hc Hp. apply (Inv_leave _ pc); [by apply Inv_set_outcome|done..]. Qed.

Lemma Inv_controls_nil e s :
  Inv (s, WControls []) → Inv (writer_step e s (WControls [])).
Proof.
  intros H. cbn [writer_step]. destruct (inv_pc _ H) as (Hi & Hc & Hq & Hfa). simpl in Hi, Hc, Hq, Hfa.
  assert (abandoned s = true ∨ pending s = []) as Hp.
  { destruct Hi as [?|Hi]; [by left|right]. unfold pending. by rewrite Hi, Hq. }
  destruct (_ || _).
  - by apply (Inv_leave_outcome s (WControls [])).
  - by apply (Inv_goto _ _ _ H); try done; exact (inv_file _ H).
Qed.

Lemma fold_drop_control qs s :
  let s' := foldl (λ s q, drop_control 1 (charged s q) s) s qs in
  dropped_by k0 s s'.
Proof.
  simpl. revert s. induction qs as [|q qs IH]; intros s; cbn [foldl];
    [by apply dropped_by_refl|].
  eapply dropped_by_ext; [|eapply dropped_by_trans; [by apply dropped_by_control|apply IH]].
  done.
Qed.

Lemma Inv_drained e s : Inv (s, WDrained) → Inv (writer_step e s WDrained).
Proof.
  intros H. cbn [writer_step]. destruct (_counts_reconcile s).
  - by apply (Inv_goto _ _ _ H); try done; [exact (inv_pc _ H)|exact (inv_file _ H)].
  - by apply (Inv_fail s s _ H); [..|apply H|].
Qed.

Lemma lane_inv_no_data st l pend :
  Forall (λ q, is_data st q = false ∧ ordinary_of st q = false) pend →
  lane_inv st 0 l pend → lane_inv st 0 l [].
Proof.
  intros Hf [].
  assert (count_if (is_data st) pend = 0 ∧ count_if (ordinary_of st) pend = 0) as [Hd Ho].
  { clear -Hf. induction Hf as [|q l [E1 E2] _ [I1 I2]]; [done|].
    by rewrite !count_if_cons, E1, E2, I1, I2. }
  assert (0 ≤ count_if (reserved_of st) pend) by apply count_if_nonneg.
  assert (0 ≤ stream_bytes st pend).
  { apply sum_list_Z_nonneg, Forall_map, Forall_forall. intros q _. simpl.
    unfold raw_len. case_bool_decide; lia. }
  constructor; rewrite ?count_if_nil; try done; try lia; [unfold stream_bytes; simpl; lia|].
  repeat constructor.
Qed.

Lemma control_no_data q st :
  q_wf q → is_control q = true → is_data st q = false ∧ ordinary_of st q = false.
Proof.
  intros [(_&?&_)|(_&Hr&_&Hd)] Hc; [congruence|]. unfold ordinary_of. rewrite Hr.
  split; [|by rewrite andb_false_r]. destruct (decide (q_stream q = st)) as [<-|]; [done|].
  by apply is_data_other.
Qed.

Lemma abandon_controls_spec s :
  sinv k0 s → queue s = [] → Forall (λ q, is_control q = true) (inflight_batch s) →
  let s' := abandon_controls s in
  sinv k0 s' ∧ pending s' = [] ∧ core s' = core s ∧
  summary_written (base s') = summary_written (base s).
Proof.
  intros [H1 H2] Hq Hc. unfold abandon_controls.
  pose proof (fold_drop_control (inflight_batch s) s) as Hd. cbv zeta in *.
  set (s1 := foldl _ s _) in *. clearbody s1.
  set (clear := λ l, set_queued_bytes 0 (set_reserved_queued 0 l)).
  set (s3 := upd_lane Base clear (upd_lane Profile clear (set_inflight_batch [] s1))).
  assert (∀ st, lane s3 st = clear <$> lane s1 st) as Hl3.
  { intros st. unfold s3. rewrite !lane_upd, lane_set_inflight. by destruct st. }
  assert (pending s3 = []) as Hp3.
  { unfold s3. rewrite !pending_upd. unfold pending. simpl.
    destruct Hd as (_ & -> & _). by rewrite Hq. }
  assert (core s3 = core (set_inflight_batch [] s1)) as Hcore3
    by (unfold s3; by rewrite !core_upd).
  assert (Forall (λ q, is_control q = true) (pending s)) as Hcp
    by (unfold pending; by rewrite Hq, app_nil_r).
  change (sinv k0 (timeout_outcome s3) ∧ pending s3 = [] ∧ core s3 = core s ∧
          summary_written (base s3) = summary_written (base s)).
  split_and!; [|done| |].
  - apply (sinv_flags k0 s3); try done. constructor; rewrite Hp3; [|constructor].
    intros st l'. rewrite Hl3. intros (l1 & Hl1 & ->)%fmap_Some.
    destruct Hd as (_ & _ & Hd). specialize (Hd st). rewrite Hl1 in Hd.
    destruct (lane s st) as [l|] eqn:El; [|done].
    assert (lane_inv st 0 l []) as [].
    { apply (lane_inv_no_data st l (pending s)); [|by apply H1].
      apply Forall_forall. intros q Hin. rewrite Forall_forall in H2, Hcp.
      apply control_no_data; [by apply H2|by apply Hcp]. }
    destruct Hd as ((E1 & E2 & E3 & _) & E4 & E5 & E6 & E7). unfold k0 in *.
    constructor; unfold data_written, stream_bytes, RESERVED_CAPACITY_RECORDS,
      MAX_QUEUED_BYTES in *; simpl in *; rewrite ?E1, ?E2, ?E3, ?E4, ?E6, ?count_if_nil in *;
      try done; lia.
  - rewrite Hcore3. destruct Hd as (Hctl & _ & Hl). change (core s1 = core s).
    apply core_ctl; [done|]. intros st. unfold open_loss_of. specialize (Hl st).
    destruct (lane s st), (lane s1 st); try done. by destruct Hl as ((_&_&_&?&_)&_).
  - unfold s3. destruct Hd as (_ & _ & Hl). specialize (Hl Base). simpl in Hl.
    change (summary_written (base (upd_lane Profile clear (set_inflight_batch [] s1))) =
            summary_written (base s)). rewrite base_upd_profile. simpl.
    by destruct Hl as ((_&_&_&_&_&_&?&_)&_).
Qed.

Lemma Inv_controls_cons e q rest s :
  Inv (s, WControls (q :: rest)) → Inv (writer_step e s (WControls (q :: rest))).
Proof.
  intros H. cbn [writer_step]. destruct (inv_pc _ H) as (Hi & Hc & Hq & Hfa).
  simpl in Hi, Hc, Hq, Hfa. destruct (_close_deadline_reached _ _).
  - assert (sinv k0 s) as Hs by apply H.
    destruct (abandon_controls_spec s Hs Hq Hfa) as (Hs' & Hp & Hcore & Hsw).
    apply (Inv_intro s _ _ _ H); try done.
    + right. split; [done|]. right. apply core_fields in Hcore as (-> & _). done.
    + by right.
    + rewrite Hsw. by apply (early_no_summary s _ H).
  - apply (Inv_goto _ _ _ H); try done; exact (inv_file _ H).
Qed.

(** ** The summary *)

Lemma release_drop st raw n s :
  release_control st raw (drop_control n st s) = drop_control n st (release_control st raw s).
Proof.
  unfold release_control, drop_control, upd_lane. destruct st; simpl.
  - by destruct (0 <? reserved_queued (base s)).
  - destruct (profile s) as [p|] eqn:E; simpl; rewrite ?E; simpl; [|done].
    by destruct (0 <? reserved_queued (p_lane p)).
Qed.

Lemma release_append st raw b s :
  release_control st raw (append_file st b s) = append_file st b (release_control st raw s).
Proof.
  unfold release_control, append_file, upd_lane. destruct st; simpl.
  - by destruct (0 <? reserved_queued (base s)).
  - destruct (profile s) as [p|] eqn:E; simpl; rewrite ?E; simpl; [|done].
    by destruct (0 <? reserved_queued (p_lane p)).
Qed.

Lemma upd_upd st f g s : upd_lane st f (upd_lane st g s) = upd_lane st (λ l, f (g l)) s.
Proof. destruct st; [done|]. unfold upd_lane. by destruct (profile s) eqn:E; simpl; rewrite ?E. Qed.

Lemma reserve_spec st raw s b s1 :
  sinv k0 s → reserve_control st raw s = (b, s1) →
  (b = true ∧ (∃ f, s1 = upd_lane st f s ∧ (∀ l, io_of (f l) = io_of l ∧ open_loss (f l) = open_loss l))
     ∧ sinv k0 s1 ∧ sinv k0 (release_control st raw s1) ∧
     base_evidence s1 = base_evidence s) ∨
  (b = false ∧ (s1 = s ∨ s1 = drop_control 1 st s)).
Proof.
  intros H. unfold reserve_control. destruct (lane s st) as [l|] eqn:El;
    [|intros [= <- <-]; right; naive_solver].
  destruct (_ || _) eqn:E; intros [= <- <-]; [right; naive_solver|left]. bool_prop.
  set (f := λ l, set_queued_bytes _ _).
  split_and!; [done| | | |].
  - exists f. split; [done|]. by intros.
  - apply (sinv_upd k0 k0); [done..|]. intros l' Hl' []. assert (l' = l) as -> by congruence.
    constructor; unfold data_written in *; simpl; try done; lia.
  - unfold release_control. rewrite upd_upd. apply (sinv_upd k0 k0); [done..|].
    intros l' Hl' []. assert (l' = l) as -> by congruence.
    assert (0 ≤ reserved_queued l) by (pose proof (count_if_nonneg (reserved_of st) (pending s)); lia).
    assert (0 ≤ stream_bytes st (pending s)).
    { apply sum_list_Z_nonneg, Forall_map, Forall_forall. intros q _. simpl.
      unfold raw_len. case_bool_decide; lia. }
    assert ((0 <? reserved_queued (f l)) = true) as -> by (simpl; lia).
    constructor; unfold data_written in *; simpl; try done; lia.
  - destruct st; [done|]. unfold base_evidence. rewrite base_upd_profile.
    destruct (ctl_eq_fields _ _ (ctl_upd Profile f s)) as (_&_&_&_&_&_&_&_&_&->). done.
Qed.

(** What the invalidation of a summary leaves alone. *)
Definition harmless (s s' : JsonlTraceSink) : Prop :=
  sinv k0 s' ∧ core s' = core s ∧ ctl s' = ctl s ∧ queue s' = queue s ∧
  summary_written (base s') = summary_written (base s).

Lemma harmless_refl s : sinv k0 s → harmless s s.
Proof. intros. by split_and!. Qed.

Lemma harmless_trans s1 s2 s3 : harmless s1 s2 → harmless s2 s3 → harmless s1 s3.
Proof. intros (?&?&?&?&?) (?&?&?&?&?). split_and!; congruence || done. Qed.

Lemma harmless_upd st f s :
  (∀ l, open_loss (f l) = open_loss l ∧ summary_written (f l) = summary_written l) →
  sinv k0 (upd_lane st f s) → harmless s (upd_lane st f s).
Proof.
  intros Hf Hs. split_and!; [done| | | |].
  - apply core_upd. intros l. apply Hf.
  - apply ctl_upd.
  - apply queue_upd.
  - destruct st; [simpl; apply Hf|by rewrite base_upd_profile].
Qed.

Lemma release_fields raw l :
  let l' := set_queued_bytes (Z.max 0 (queued_bytes l - Z.of_nat (String.length raw)))
    (if 0 <? reserved_queued l then set_reserved_queued (reserved_queued l - 1) l else l) in
  open_loss l' = open_loss l ∧ io_of l' = io_of l ∧
  (attempted_data_count l', written l', written_loss_interval_count l', dropped_data_count l',
   dropped_control_count l', writer_failure_count l') =
  (attempted_data_count l, written l, written_loss_interval_count l, dropped_data_count l,
   dropped_control_count l, writer_failure_count l).
Proof. by destruct (0 <? reserved_queued l). Qed.

Lemma harmless_release st raw s :
  sinv k0 (release_control st raw s) → harmless s (release_control st raw s).
Proof.
  intros H. apply harmless_upd; [|done]. intros l.
  destruct (release_fields raw l) as (E1 & E2 & _). split; [exact E1|].
  by apply io_fields in E2 as (_&_&_&_&?).
Qed.

Lemma harmless_drop st n s : sinv k0 s → harmless s (drop_control n st s).
Proof. intros H. apply harmless_upd; [done|]. by apply (sinv_drop_control k0). Qed.

Lemma harmless_append st b s : sinv k0 s → harmless s (append_file st b s).
Proof. intros H. apply harmless_upd; [done|]. by apply (sinv_append k0). Qed.

(** A write of a record either appends bytes to the file of the stream or does nothing. *)
Definition appends (st : stream) (write : string → M JsonlTraceSink unit) : Prop :=
  ∀ raw s, (∃ bs, (write raw s).2 = append_file st bs s) ∨ (write raw s).2 = s.

Lemma appends_stream st w : appends st (write_stream st w).
Proof.
  intros raw s. destruct (write_stream st w raw s) as [r s'] eqn:E.
  apply write_stream_spec in E as [(bs & -> & _)|[-> _]]; eauto.
Qed.

Lemma appends_path st w : appends st (write_path st w).
Proof.
  intros raw s. unfold write_path. destruct (_write_persistent_all w raw) as [r bs].
  left. by exists bs.
Qed.

Lemma harmless_append_via write st clock s :
  appends st write → sinv k0 s → harmless s (append_invalidation_via write st clock s).
Proof.
  intros Hw H. unfold append_invalidation_via.
  destruct (summary_line st "timeout" clock s) as [raw|]; [|by apply harmless_refl].
  destruct (reserve_control st raw s) as [b s1] eqn:E.
  destruct (reserve_spec _ _ _ _ _ H E) as [(-> & (f & -> & Hf) & Hs1 & Hr & _)|(-> & [-> | ->])];
    simpl; [|by apply harmless_refl|by apply harmless_drop].
  eapply harmless_trans.
  { apply (harmless_upd st f s); [|done]. intros l. destruct (Hf l) as [E1 E2].
    by apply io_fields in E1 as (_&_&_&_&?). }
  set (s1 := upd_lane st f s) in *.
  pose proof (Hw raw s1) as Ew. destruct (write raw s1) as [r s2]. simpl in Ew.
  assert (harmless s1 s2 ∧ sinv k0 (release_control st raw s2)) as [H2 Hr2].
  { destruct Ew as [(bs & ->)| ->].
    - split; [by apply harmless_append|]. rewrite release_append. by apply sinv_append.
    - split; [by apply harmless_refl|done]. }
  eapply harmless_trans; [exact H2|]. destruct (is_ok r).
  - by apply harmless_release.
  - eapply harmless_trans; [apply (harmless_drop st 1); apply H2|].
    apply harmless_release. rewrite release_drop. by apply sinv_drop_control.
Qed.

Lemma harmless_append_invalidation st clock w s :
  sinv k0 s → harmless s (append_invalidation st clock w s).
Proof. apply harmless_append_via, appends_stream. Qed.

Lemma harmless_invalidation e s :
  sinv k0 s → harmless s (_append_timeout_invalidation_in_writer e s).
Proof.
  intros H. unfold _append_timeout_invalidation_in_writer.
  pose proof (harmless_append_invalidation Base (e_clock e) (e_write e) s H) as H1.
  destruct (has_profile _); [|done]. eapply harmless_trans; [exact H1|].
  apply harmless_append_invalidation, H1.
Qed.

(** The fields a summary line is computed from. *)
Definition summary_fields (s : JsonlTraceSink) :=
  (process_uuid s, attempted_data_count (base s), written (base s),
   written_loss_interval_count (base s), dropped_data_count (base s),
   dropped_control_count (base s), writer_failure_count (base s), content_hash (base s)).

Lemma summary_line_fields o clock s s' :
  summary_fields s' = summary_fields s →
  summary_line Base o clock s' = summary_line Base o clock s.
Proof. unfold summary_fields, summary_line. by intros [= -> -> -> -> -> -> -> ->]. Qed.

Lemma summary_ok s pc : Inv (s, pc) → summary_pc pc = true →
  closing s = true ∧ (abandoned s = true ∨ pending s = []).
Proof. intros H Hpc. pose proof (inv_pc _ H) as Hok. by destruct pc. Qed.

Lemma Inv_summary e o s : Inv (s, WSummary o) → Inv (writer_step e s (WSummary o)).
Proof.
  intros H. cbn [writer_step]. destruct (inv_pc _ H) as [Hc Hp]. simpl in Hc, Hp.
  destruct (_close_deadline_reached _ _).
  - by apply (Inv_leave_outcome s (WSummary o)).
  - apply (Inv_goto _ _ _ H); try done. exact (inv_file _ H).
Qed.

Lemma move_spec st io s b s1 :
  sinv k0 s → move_to_incomplete st io s = (b, s1) →
  harmless s s1 ∧
  (b = true → file (base s) = content_hash (base s) → named s →
   file (base s1) = content_hash (base s1) ∧ named s1).
Proof.
  intros H. unfold move_to_incomplete.
  destruct (lane s st) as [l|] eqn:El; [|intros [= <- <-]; split; [by apply harmless_refl|done]].
  destruct (incomplete l); [intros [= <- <-]; split; [by apply harmless_refl|done]|].
  destruct io; intros [= <- <-].
  - split; [apply harmless_upd; [done|]; by apply (sinv_upd_ext k0)|]. intros _ Hf Hn.
    destruct st; [split; [done|by right]|]. unfold named. by rewrite base_upd_profile.
  - split; [by apply harmless_refl|done].
  - split; [apply harmless_upd; [done|]; by apply (sinv_upd_ext k0)|done].
Qed.

Lemma harmless_pc_ok s s' pc : harmless s s' → pc_ok s pc → pc_ok s' pc.
Proof. intros (_ & _ & Hc & Hq & _). by apply pc_ok_ctl. Qed.

Lemma harmless_abandoned s s' : harmless s s' → abandoned s' = abandoned s.
Proof. intros (_ & Hc & _). by apply core_fields in Hc as (_&_&?&_). Qed.

Lemma Inv_fail_harmless s s' pc :
  Inv (s, pc) → late pc = false → harmless s s' → Inv (fail_writer s').
Proof. intros H Hl (?&?&_&_&?). by apply (Inv_fail s s' pc). Qed.

Lemma harmless_pending s s' : harmless s s' → pending s' = pending s.
Proof. intros (_&_&?&?&_). by apply pending_ctl. Qed.

(** Leaving for the final phase after a harmless change. *)
Lemma Inv_leave_harmless s s' pc o :
  Inv (s, pc) → late pc = false → closing s = true →
  (abandoned s = true ∨ pending s = []) → harmless s s' →
  Inv (set_writer_outcome (Some o) s', WFinalize).
Proof.
  intros H Hl Hc Hp Hh. apply (Inv_intro s _ pc _ H); try done.
  - by apply late_finished.
  - by destruct Hh as (_&?&_).
  - destruct Hh as (Hs & _). by apply (sinv_flags k0 s').
  - simpl. rewrite (harmless_abandoned _ _ Hh).
    destruct Hp as [?|Hp]; [by left|right]. split; [by rewrite <- Hp, <- (harmless_pending _ _ Hh)|].
    right. destruct Hh as (_&Hcore&_). apply core_fields in Hcore as (E&_). simpl. congruence.
  - by right.
  - destruct Hh as (_&_&_&_&E). simpl. rewrite E. by apply (early_no_summary s pc).
Qed.

Lemma Inv_move e st o s : Inv (s, WMove st o) → Inv (writer_step e s (WMove st o)).
Proof.
  intros H. cbn [writer_step].
  destruct (move_to_incomplete st (e_io e) s) as [b s1] eqn:E.
  assert (sinv k0 s) as Hs by apply H.
  destruct (move_spec _ _ _ _ _ Hs E) as [Hh Hf].
  destruct b; simpl; [|by apply (Inv_fail_harmless s s1 (WMove st o))].
  pose proof (harmless_pc_ok _ _ _ Hh (inv_pc _ H)) as Hok. simpl in Hok.
  pose proof (inv_file _ H) as Hfi. simpl in Hfi. rewrite <- (harmless_abandoned _ _ Hh) in Hfi.
  destruct Hh as (Hs1 & Hcore & _ & _ & Hsw).
  assert (summary_written (base s1) = false) as Hsw1.
  { rewrite Hsw. by apply (early_no_summary s _ H). }
  destruct (_ && _); apply (Inv_intro s s1 _ _ H); try done;
    (destruct Hfi as [?|[? ?]]; [by left|right; by apply Hf]).
Qed.

Lemma Inv_build e st o s : Inv (s, WBuild st o) → Inv (writer_step e s (WBuild st o)).
Proof.
  intros H. cbn [writer_step]. unfold summary_step.
  destruct (summary_ok _ _ H eq_refl) as [Hc Hp].
  assert (sinv k0 s) as Hs by apply H.
  destruct (bool_decide (st = Base) && _close_deadline_reached (e_now e) s).
  { by apply (Inv_leave_outcome s (WBuild st o)). }
  destruct (summary_line st o (e_clock e) s) as [raw|] eqn:El.
  2:{ by apply (Inv_fail_harmless s s (WBuild st o)). }
  destruct (reserve_control st raw s) as [b s1] eqn:E.
  destruct (reserve_spec _ _ _ _ _ Hs E) as [(-> & (f & -> & Hf) & Hs1 & Hr & Hev)|(-> & Hd)].
  - set (s1 := upd_lane st f s) in *.
    assert (harmless s s1) as Hh.
    { apply harmless_upd; [|done]. intros l. destruct (Hf l) as [E1 E2].
      by apply io_fields in E1 as (_&_&_&_&?). }
    apply (Inv_intro s s1 _ _ H); try done; [apply Hh| | |].
    + apply (harmless_pc_ok s s1 (WSumCheck st raw o) Hh). by split.
    + rewrite (harmless_abandoned _ _ Hh).
      destruct (inv_file _ H) as [?|Hfi]; [by left|right]. simpl in Hfi.
      destruct st; simpl in *.
      * destruct Hfi as [Hfi Hn]. split_and!.
        -- exists (e_clock e). by rewrite (summary_line_evidence _ _ _ _ Hev).
        -- destruct (Hf (base s)) as [E1 _]. by apply io_fields in E1 as (-> & -> & _).
        -- by eapply named_evidence.
      * by eapply complete_file_evidence.
    + destruct Hh as (_&_&_&_&->). by apply (early_no_summary s _ H).
  - assert (harmless s s1) as Hh.
    { destruct Hd as [-> | ->]; [by apply harmless_refl|by apply harmless_drop]. }
    by apply (Inv_leave_harmless s s1 (WBuild st o)).
Qed.

Lemma Inv_sumcheck e st raw o s :
  Inv (s, WSumCheck st raw o) → Inv (writer_step e s (WSumCheck st raw o)).
Proof.
  intros H. cbn [writer_step]. pose proof (inv_release _ H) as Hr. simpl in Hr.
  assert (sinv k0 s) as Hs by apply H. destruct (_ || _).
  - apply (Inv_fail_harmless s _ (WSumCheck st raw o)); [done..|].
    eapply harmless_trans; [by apply (harmless_drop st 1)|]. apply harmless_release.
    rewrite release_drop. by apply sinv_drop_control.
  - apply (Inv_goto _ _ _ H); try done; [exact (inv_pc _ H)|].
    destruct (inv_file _ H) as [?|Hf]; [by left|right]. destruct st; exact Hf.
Qed.

Lemma summary_fields_release st raw s :
  summary_fields (release_control st raw s) = summary_fields s.
Proof.
  unfold summary_fields, release_control.
  destruct (ctl_eq_fields _ _ (ctl_upd st (λ l, set_queued_bytes
    (Z.max 0 (queued_bytes l - Z.of_nat (String.length raw)))
    (if 0 <? reserved_queued l then set_reserved_queued (reserved_queued l - 1) l else l)) s))
    as (_&_&_&_&_&_&_&_&_&->).
  destruct st; [simpl; by destruct (0 <? _)|]. by rewrite base_upd_profile.
Qed.

Lemma release_io st raw s :
  io_of (base (release_control st raw s)) = io_of (base s).
Proof.
  unfold release_control. destruct st; [|by rewrite base_upd_profile].
  simpl. by destruct (0 <? _).
Qed.

(** The base record was written: the file is complete. *)
Lemma complete_after_write raw o s clock :
  summary_line Base o clock s = Ok raw → file (base s) = content_hash (base s) → named s →
  complete_file o (release_control Base raw (append_file Base raw s)).
Proof.
  intros Hl Hf Hn.
  destruct (io_fields _ _ (release_io Base raw (append_file Base raw s)))
    as (E1 & E2 & E3 & E4 & _).
  split.
  - exists clock, raw. rewrite E1, E2.
    rewrite (summary_line_fields o clock s); [|by rewrite summary_fields_release].
    split; [done|]. simpl. by rewrite Hf.
  - rewrite E3, E4. exact Hn.
Qed.

Lemma complete_profile_write raw b o s :
  complete_file o s → complete_file o (release_control Profile raw (append_file Profile b s)).
Proof.
  apply complete_file_evidence. unfold base_evidence, release_control, append_file.
  rewrite !base_upd_profile.
  match goal with |- context [process_uuid (upd_lane ?st ?f ?x)] =>
    destruct (ctl_eq_fields _ _ (ctl_upd st f x)) as (_&_&_&_&_&_&_&_&_&->) end.
  match goal with |- context [process_uuid (upd_lane ?st ?f ?x)] =>
    destruct (ctl_eq_fields _ _ (ctl_upd st f x)) as (_&_&_&_&_&_&_&_&_&->) end.
  done.
Qed.

Lemma Inv_sumwrite e st raw o s :
  Inv (s, WSumWrite st raw o) → Inv (writer_step e s (WSumWrite st raw o)).
Proof.
  intros H. cbn [writer_step]. pose proof (inv_release _ H) as Hr. simpl in Hr.
  assert (sinv k0 s) as Hs by apply H.
  destruct (write_stream st (e_write e) raw s) as [r s1] eqn:Ew.
  assert (harmless s s1 ∧ sinv k0 (release_control st raw s1)) as [H1 Hr1].
  { apply write_stream_spec in Ew as [(bs & -> & _)|[-> _]].
    - split; [by apply harmless_append|]. rewrite release_append. by apply sinv_append.
    - split; [by apply harmless_refl|done]. }
  destruct (is_ok r) eqn:Er.
  2:{ apply (Inv_fail_harmless s _ (WSumWrite st raw o)); [done..|].
      eapply harmless_trans; [exact H1|].
      eapply harmless_trans; [apply (harmless_drop st 1), H1|]. apply harmless_release.
      rewrite release_drop. by apply sinv_drop_control. }
  assert (harmless s (release_control st raw s1)) as Hh
    by (eapply harmless_trans; [exact H1|by apply harmless_release]).
  apply (Inv_intro s _ _ _ H); try done; [apply Hh| | |].
  - apply (harmless_pc_ok _ _ (WSumDone st o) Hh). exact (inv_pc _ H).
  - rewrite (harmless_abandoned _ _ Hh).
    destruct (inv_file _ H) as [?|Hf]; [by left|right]. simpl in Hf. simpl.
    apply write_stream_spec in Ew as [(bs & -> & Hb)|[_ ?]]; [|congruence].
    rewrite (Hb Er). destruct st.
    + destruct Hf as ([clock Hl] & Hf & Hn). by eapply complete_after_write.
    + by apply complete_profile_write.
  - destruct Hh as (_&_&_&_&->). by apply (early_no_summary s _ H).
Qed.

Lemma summary_complete_fields o s :
  base (summary_complete o s) = set_summary_written true (base s) ∧
  flags (summary_complete o s) = flags (set_writer_outcome (Some o) s) ∧
  inflight_batch (summary_complete o s) = inflight_batch s ∧
  queue (summary_complete o s) = queue s ∧
  (∀ st, lane (summary_complete o s) st = set_summary_written true <$> lane s st).
Proof.
  unfold summary_complete. split_and!.
  - change (base (upd_lane Base (set_summary_written true)
      (upd_lane Profile (set_summary_written true) s)) = set_summary_written true (base s)).
    simpl. by rewrite base_upd_profile.
  - unfold upd_lane, flags. simpl. by destruct (profile s) eqn:E; simpl; rewrite ?E.
  - unfold upd_lane. simpl. by destruct (profile s).
  - unfold upd_lane. simpl. by destruct (profile s).
  - intros []; unfold upd_lane, lane; simpl; by destruct (profile s) eqn:E; simpl; rewrite ?E.
Qed.

Lemma Inv_sumcomplete st o s :
  Inv (s, WSumDone st o) → Inv (summary_complete o s, WFinalize).
Proof.
  intros H. destruct (inv_pc _ H) as [Hc Hp]. simpl in Hc, Hp.
  destruct (summary_complete_fields o s) as (Hb & Hf & Hi & Hq & Hl).
  set (s1 := summary_complete o s) in *. clearbody s1.
  unfold flags in Hf. injection Hf as E1 E2 E3 E4 E5 E6 E7 E8 E9. simpl in *.
  assert (pending s1 = pending s) as Hps by (unfold pending; by rewrite Hi, Hq).
  assert (∀ st, open_loss_of s1 st = open_loss_of s st) as Ho.
  { intros st'. unfold open_loss_of. rewrite Hl. by destruct (lane s st'). }
  constructor; simpl; rewrite ?E1, ?E2, ?E4, ?E5; try done.
  - constructor; rewrite Hps.
    + intros st' l'. rewrite Hl. intros (l & Hl' & ->)%fmap_Some.
      eapply (lane_inv_ext _ _ l); [by apply H|done..].
    + eapply Forall_impl; [apply H|]. intros q [? ?]. split; [done|]. rewrite Hl.
      by apply fmap_is_Some.
  - intros Hcl st'. rewrite Ho. by apply (inv_open _ H).
  - exact (inv_abandoned _ H).
  - intros Hcl Hn. pose proof (inv_closed _ H Hcl Hn). done.
  - destruct Hp as [?|Hp]; [by left|right]. split; [congruence|]. right. congruence.
  - by right.
  - intros _. split_and!; [done|done|].
    destruct (inv_file _ H) as [?|Hf]; [by left|right]. simpl in Hf. exists o. split; [done|].
    assert (complete_file o s) as [(clock & raw & Hr & Hfi) Hn] by by destruct st.
    split.
    + exists clock, raw. rewrite (summary_line_fields o clock s).
      * rewrite Hb. by simpl.
      * unfold summary_fields. by rewrite E9, Hb.
    + by rewrite Hb.
  - intros r Hr. destruct (inv_claim _ H r Hr) as [? Ha]. split; [done|].
    intros Had. by destruct (Ha Had) as ([?|?] & _).
Qed.

Lemma Inv_sumdone e st o s :
  Inv (s, WSumDone st o) → Inv (writer_step e s (WSumDone st o)).
Proof.
  intros H. cbn [writer_step]. destruct (inv_pc _ H) as [Hc Hp]. simpl in Hc, Hp.
  destruct (_close_deadline_reached _ _).
  - assert (Inv (timeout_outcome s, WSumDone st o)) as H1 by by apply Inv_set_outcome.
    assert (sinv k0 (timeout_outcome s)) as Hs1 by apply H1.
    pose proof (harmless_invalidation e _ Hs1) as Hh.
    apply (Inv_intro (timeout_outcome s) _ (WSumDone st o) _ H1); try done; try apply Hh.
    + apply (harmless_pc_ok _ _ WFinalize Hh). simpl. destruct Hp as [?|Hp]; [by left|right].
      split; [done|by right].
    + by right.
    + destruct Hh as (_&_&_&_&->). by apply (early_no_summary s _ H).
  - destruct (_ && _); [|by apply (Inv_sumcomplete st)].
    apply (Inv_goto _ _ _ H); try done.
    destruct (inv_file _ H) as [?|Hf]; [by left|right]. exact Hf.
Qed.

(** ** The final phase *)

Lemma Inv_late s s' pc pc' :
  Inv (s, pc) → late pc = true → finished pc = false → late pc' = true →
  core s' = core s → sinv k0 s' → pending s' = pending s → (frozen s → frozen s') →
  summary_written (base s') = summary_written (base s) →
  writer_outcome s' = writer_outcome s →
  (∀ o, complete_file o s → complete_file o s') →
  (abandoned s = false → match pc' with
    | WReplace Base => writer_outcome s = Some "drained" ∧ summary_written (base s) = true
    | WReplace Profile | WClaim => writer_outcome s = Some "drained" ∧
        summary_written (base s) = true ∧ formal (base s') = FData
    | _ => True
    end) →
  Inv (s', pc').
Proof.
  intros [Is Irel Iop Iab Icl Ipc Ifi Isu Ipu Icm] Hl Hf Hl' Hcore Hs Hp Hfr Hsw Hwo Hcf Hpub.
  apply core_fields in Hcore as (E1 & E2 & E3 & E4 & E5). simpl in *.
  constructor; simpl; rewrite ?E1, ?E2, ?E3, ?E4; try done.
  - by destruct pc'.
  - intros Hc st. rewrite E5. by apply Iop.
  - intros Hc Hn. by rewrite (Icl Hc Hn) in Hf.
  - assert (abandoned s = true ∨ pending s = [] ∧ frozen s) as Hor by by destruct pc.
    assert (abandoned s' = true ∨ pending s' = [] ∧ frozen s') as Hor'.
    { rewrite E3, Hp. destruct Hor as [?|[??]]; [by left|right]. auto. }
    by destruct pc'.
  - right. by destruct pc'.
  - intros Hsu. rewrite Hsw in Hsu. destruct (Isu Hsu) as (_ & ? & Hor). split_and!; try done.
    destruct Hor as [?|(o & ? & ?)]; [by left|right]. exists o. rewrite Hwo. auto.
  - intros Ha. specialize (Hpub Ha). destruct pc' as [| | | | | | | | | | | | | | | | |[]| | |];
      try done; rewrite ?Hwo, ?Hsw; tauto.
  - intros r Hr. destruct (Icm r Hr) as [? Ha]. split; [done|].
    intros Had. destruct (Ha Had) as ([-> | ->] & _); done.
Qed.

Lemma late_settled s pc : Inv (s, pc) → late pc = true →
  abandoned s = true ∨ pending s = [] ∧ frozen s.
Proof. intros H Hl. pose proof (inv_pc _ H) as Hpc. by destruct pc. Qed.

(** A late step that gives the summary up. *)
Lemma Inv_give_up s s' pc pc' :
  Inv (s, pc) → late pc = true → finished pc = false →
  late pc' = true → publishing pc' = false →
  sinv k0 s' → core s' = core s → (pending s = [] → frozen s → pending s' = [] ∧ frozen s') →
  summary_written (base s') = false → Inv (s', pc').
Proof.
  intros H Hl Hf Hl' Hp Hs Hcore Hpend Hsw.
  apply (Inv_intro s s' pc pc' H); try done.
  - by destruct pc'.
  - destruct (late_settled _ _ H Hl) as [Ha|[??]].
    + apply core_fields in Hcore as (_&_&E&_). rewrite <- E in Ha. destruct pc'; by try left.
    + destruct (Hpend) as [??]; [done..|]. destruct pc'; try done; by right.
  - right. by destruct pc'.
Qed.

Lemma frozen_outcome o s : frozen (set_writer_outcome o s) ↔ frozen s.
Proof. done. Qed.

Lemma frozen_harmless s s' : harmless s s' → frozen s → frozen s'.
Proof. intros (_&_&?&_). by apply frozen_ctl. Qed.

Lemma publication_flags s s1 :
  sinv k0 s1 → pending s1 = [] → writer_failed s1 = true → core s1 = core s →
  let s' := set_writer_outcome (Some "writer_failure")
              (upd_lane Base (set_summary_written false) s1) in
  sinv k0 s' ∧ pending s' = [] ∧ frozen s' ∧ core s' = core s ∧
  summary_written (base s') = false.
Proof.
  intros H Hp Hw Hc. cbv zeta. split_and!; [|done|by left| |done].
  - apply (sinv_flags k0 (upd_lane Base (set_summary_written false) s1)); try done.
    by apply sinv_upd_ext.
  - rewrite <- Hc.
    change (core (upd_lane Base (set_summary_written false) s1) = core s1). by apply core_upd.
Qed.

Lemma mark_publication_spec s :
  sinv k0 s →
  let s' := _mark_publication_failure s in
  sinv k0 s' ∧ pending s' = [] ∧ frozen s' ∧ core s' = core s ∧
  summary_written (base s') = false.
Proof.
  intros H. destruct (mark_failure_spec s H) as (Hs & Hp & Hw & Hc & _).
  exact (publication_flags s _ Hs Hp Hw Hc).
Qed.

Lemma Inv_mark_publication s s1 pc pc' :
  Inv (s, pc) → late pc = true → finished pc = false → late pc' = true →
  publishing pc' = false → harmless s s1 → Inv (_mark_publication_failure s1, pc').
Proof.
  intros H Hl Hf Hl' Hp (Hs1 & Hc1 & _).
  destruct (mark_publication_spec s1 Hs1) as (Hs & Hpe & Hfr & Hc & Hsw).
  by apply (Inv_give_up s _ pc pc' H); try congruence.
Qed.

Lemma Inv_finalize e s : Inv (s, WFinalize) → Inv (writer_step e s WFinalize).
Proof.
  intros H. cbn [writer_step]. assert (sinv k0 s) as Hs by apply H.
  destruct (abandoned s && summary_written (base s)).
  - pose proof (harmless_invalidation e s Hs) as Hh.
    set (s1 := _append_timeout_invalidation_in_writer e s) in *. clearbody s1.
    assert (sinv k0 s1) as Hs1 by apply Hh.
    apply (Inv_give_up s _ WFinalize WCloseFds H); try done.
    + apply (sinv_flags k0 (upd_lane Base (set_summary_written false) s1)); try done.
      by apply sinv_upd_ext.
    + destruct Hh as (_&Hc&_). rewrite <- Hc.
      change (core (upd_lane Base (set_summary_written false) s1) = core s1). by apply core_upd.
    + intros Hp Hfr. split.
      * change (pending s1 = []). by rewrite (harmless_pending _ _ Hh).
      * exact (frozen_harmless _ _ Hh Hfr).
  - by apply (Inv_late s s WFinalize WCloseFds H).
Qed.

Lemma Inv_closefds e s : Inv (s, WCloseFds) → Inv (writer_step e s WCloseFds).
Proof.
  intros H. cbn [writer_step]. assert (sinv k0 s) as Hs by apply H. apply Inv_take_diag.
  set (s1 := upd_lane Base (set_fd_open false) (upd_lane Profile (set_fd_open false) s)).
  assert (harmless s s1) as Hh.
  { eapply harmless_trans; [apply (harmless_upd Profile (set_fd_open false)); [done|]|].
    - by apply (sinv_upd_ext k0).
    - apply harmless_upd; [done|]. apply (sinv_upd_ext k0); [|done]. by apply (sinv_upd_ext k0). }
  destruct (io_ok (e_io e)).
  - apply (Inv_late s s1 WCloseFds WPublish H); try done; try apply Hh.
    + by apply harmless_pending.
    + by apply frozen_harmless.
    + destruct Hh as (_&_&Hc&_). by apply ctl_eq_fields in Hc as (_&_&_&_&_&_&_&?&_).
    + intros o. apply complete_file_evidence. unfold base_evidence, s1. simpl.
      rewrite base_upd_profile. simpl. unfold upd_lane. by destruct (profile s).
  - by apply (Inv_mark_publication s s1 WCloseFds WPublish H).
Qed.

Lemma Inv_publish e s : Inv (s, WPublish) → Inv (writer_step e s WPublish).
Proof.
  intros H. cbn [writer_step]. assert (sinv k0 s) as Hs by apply H.
  destruct (publish_eligible (e_now e) s) eqn:El; simpl.
  2:{ by apply (Inv_late s s WPublish WFinish H). }
  destruct (_ || _).
  - apply (Inv_mark_publication s s WPublish WFinish H); try done.
  - apply (Inv_late s s WPublish _ H); try done. intros _.
    unfold publish_eligible in El. bool_prop. split; [|done]. by eapply bool_decide_eq_true_1.
Qed.

Lemma complete_file_formal o s :
  complete_file o s → complete_file o (upd_lane Base (set_formal FData) s).
Proof. intros [Hc _]. split; [exact Hc|by left]. Qed.

Lemma harmless_retract st io clock w s :
  sinv k0 s → harmless s (_retract_published_shard_in_writer st io clock w s).
Proof.
  intros H. destruct io; simpl.
  - apply harmless_upd; [done|]. by apply (sinv_upd_ext k0).
  - apply harmless_upd; [done|]. by apply (sinv_upd_ext k0).
  - by apply harmless_append_via; [apply appends_path|].
Qed.

Lemma Inv_replace e st s : Inv (s, WReplace st) → Inv (writer_step e s (WReplace st)).
Proof.
  intros H. assert (sinv k0 s) as Hs by apply H. pose proof (inv_publish _ H) as Hpub.
  simpl in Hpub. destruct st; cbn [writer_step].
  - destruct (io_ok (e_io e)).
    + apply (Inv_late s _ (WReplace Base) _ H); try done.
      * by destruct (has_profile s).
      * by apply (sinv_upd_ext k0).
      * intros o. apply complete_file_formal.
      * intros Ha. destruct (Hpub Ha) as [??]. by destruct (has_profile s).
    + by apply (Inv_mark_publication s s (WReplace Base) WFinish H).
  - destruct (io_ok (e_io2 e)).
    + assert (harmless s (upd_lane Profile (set_formal FData) s)) as Hh.
      { apply harmless_upd; [done|]. by apply (sinv_upd_ext k0). }
      apply (Inv_late s _ (WReplace Profile) _ H); try done; try apply Hh.
      * by apply harmless_pending.
      * by apply frozen_harmless.
      * destruct Hh as (_&_&Hc&_). by apply ctl_eq_fields in Hc as (_&_&_&_&_&_&_&?&_).
      * intros o. apply complete_file_evidence. unfold base_evidence. rewrite base_upd_profile.
        unfold upd_lane. by destruct (profile s).
      * intros Ha. rewrite base_upd_profile. by apply Hpub.
    + apply (Inv_mark_publication s _ (WReplace Profile) WFinish H); try done.
      by apply harmless_retract.
Qed.

(** The claim of a completed publication. *)
Lemma Inv_claim_won s :
  Inv (s, WClaim) → abandoned s = false → completion_claim s = None →
  Inv (set_closed true (upd_lane Base (set_incomplete false)
         (upd_lane Profile (set_incomplete false) (claim "drained" true s))), WFinish).
Proof.
  intros H Ha Hn. assert (sinv k0 s) as Hs by apply H.
  pose proof (inv_publish _ H Ha) as (Ho & Hsw & Hfm). simpl in Ho, Hsw, Hfm.
  destruct (inv_summary _ H Hsw) as (_ & Hc & [?|(o & Ho' & Hcf)]); simpl in *; [congruence|].
  assert (o = "drained") as -> by congruence.
  assert (pending s = []) as Hp by by eapply settled_late.
  destruct (inv_pc _ H) as [?|[_ Hfr]]; simpl in *; [congruence|].
  rewrite (claim_None _ _ _ Hn). set (r := _result "drained" true s).
  set (f := set_incomplete false).
  set (s1 := set_completion_claim (Some r) s).
  assert (harmless s1 (upd_lane Base f (upd_lane Profile f s1))) as Hh.
  { assert (sinv k0 s1) by by apply (sinv_flags k0 s).
    eapply harmless_trans; [apply (harmless_upd Profile f); [done|]; by apply (sinv_upd_ext k0)|].
    apply harmless_upd; [done|]. apply (sinv_upd_ext k0); [|done]. by apply (sinv_upd_ext k0). }
  assert (base (upd_lane Base f (upd_lane Profile f s1)) = f (base s)) as Hb.
  { simpl. by rewrite base_upd_profile. }
  set (s2 := upd_lane Base f (upd_lane Profile f s1)) in *. clearbody s2.
  destruct Hh as (Hs2 & Hcore & Hctl & Hq & _). apply core_fields in Hcore as (_&_&_&_&Hol).
  pose proof (ctl_eq_fields _ _ Hctl) as (E1 & E2 & E3 & E4 & E5 & E6 & E7 & E8 & _ & E10).
  simpl in *.
  assert (complete_file "drained" (set_closed true s2)) as Hcf2.
  { destruct Hcf as [(clock & raw & Hl & Hf) _]. split; [|left; simpl; by rewrite Hb].
    exists clock, raw. rewrite (summary_line_fields "drained" clock s).
    - simpl. rewrite Hb. by split.
    - unfold summary_fields. simpl. by rewrite Hb, E10. }
  constructor; simpl; rewrite ?E2, ?E5, ?E6; try done.
  - by apply (sinv_flags k0 s2).
  - intros _ st. rewrite <- (inv_open _ H Hc st). exact (Hol st).
  - right. split; [|right; simpl; congruence]. change (pending s2 = []). rewrite <- Hp.
    by apply (pending_ctl s1).
  - by right.
  - intros _. split; [done|]. split; [done|]. right. exists "drained". by rewrite E8.
  - intros r' Hr'. apply (inj Some) in Hr' as <-. split; [intros _; by apply reconciles_settled|].
    intros _. split; [by left|]. split; [done|]. split; [done|].
    unfold claim_matches, r. simpl. by rewrite Hb.
Qed.

Lemma Inv_claim_step e s : Inv (s, WClaim) → Inv (writer_step e s WClaim).
Proof.
  intros H. cbn [writer_step]. assert (sinv k0 s) as Hs by apply H. unfold claim_step.
  assert (∀ s1, harmless s s1 →
    Inv (_count_diagnostic_locked "close_timeout" (timeout_outcome
      (upd_lane Base (set_summary_written false)
        (upd_lane Profile (set_summary_written false) s1))), WFinish)) as Hexp.
  { intros s1 Hh. assert (sinv k0 s1) as Hs1 by apply Hh.
    set (s2 := upd_lane Base (set_summary_written false)
                 (upd_lane Profile (set_summary_written false) s1)).
    assert (sinv k0 s2) as Hs2.
    { apply (sinv_upd_ext k0); [|done]. by apply (sinv_upd_ext k0). }
    apply (Inv_give_up s _ WClaim WFinish H); try done.
    - apply sinv_diag. by apply (sinv_flags k0 s2).
    - rewrite core_diag. destruct Hh as (_ & <- & _). change (core s2 = core s1).
      unfold s2. by rewrite !core_upd.
    - intros Hp Hfr. rewrite pending_diag. split.
      + change (pending s2 = []). unfold s2. rewrite !pending_upd.
        by rewrite (harmless_pending _ _ Hh).
      + apply (frozen_ctl (timeout_outcome s2)); [apply ctl_diag|]. apply (frozen_outcome _ s2).
        apply (frozen_ctl s1); [unfold s2; by rewrite !ctl_upd|]. by eapply frozen_harmless.
    - by rewrite base_diag. }
  destruct (abandoned s || _close_deadline_reached (e_now e) s) eqn:Ed; [|].
  - apply Hexp. eapply harmless_trans; [|apply harmless_retract; destruct (has_profile s);
      [by apply harmless_retract|done]].
    destruct (has_profile s); [by apply harmless_retract|by apply harmless_refl].
  - bool_prop. destruct (completion_claim s) as [r|] eqn:Hn.
    + unfold _claim_close_result. rewrite Hn. apply Hexp.
      eapply harmless_trans; [|apply harmless_retract; destruct (has_profile s);
        [by apply harmless_retract|done]].
      destruct (has_profile s); [by apply harmless_retract|by apply harmless_refl].
    + pose proof (Inv_claim_won s H H0 Hn) as Hw. unfold claim, _claim_close_result in *.
      rewrite Hn in *. exact Hw.
Qed.

Lemma Inv_finish s : Inv (s, WFinish) → Inv (finish_step s, WDone).
Proof.
  intros H. unfold finish_step.
  assert (Inv (set_closed true s, WDone)) as H1.
  { destruct H as [Is Irel Iop Iab Icl Ipc Ifi Isu Ipu Icm]. simpl in *.
    constructor; simpl; try done.
    - by apply (sinv_flags k0 s).
    - intros r Hr. destruct (Icm r Hr) as [? Ha]. split; [done|]. intros Had.
      destruct (Ha Had) as (_ & ? & ? & ?). split; [by right|done]. }
  destruct (completion_claim (set_closed true s)) as [r|] eqn:Hn; [done|]. simpl.
  destruct (closing s) eqn:Hc; [|done].
  apply Inv_claim; try done.
  - intros _. by eapply settled_late.
  - intros Ho Hb. destruct (inv_summary _ H1 Hb) as (_ & _ & [Ha|(o & Hwo & Hf)]).
    + destruct (inv_abandoned _ H1 Ha) as [r Hr]. simpl in *. congruence.
    + simpl in Hwo. rewrite Hwo in Ho. simpl in Ho. subst o. split; [by right|done].
Qed.

Lemma Inv_writer e s pc : Inv (s, pc) → Inv (writer_step e s pc).
Proof.
  intros H. destruct pc.
  - by apply Inv_loop.
  - destruct rest as [|q rest]; [|by apply Inv_batch_next].
    apply (Inv_goto _ _ _ H); try done; [exact (inv_pc _ H)|exact (inv_file _ H)].
  - by apply Inv_check.
  - by apply Inv_persist.
  - by apply Inv_record.
  - cbn [writer_step]. destruct (_prepare_timeout_controls_locked _ s) as [c s'] eqn:E.
    by eapply Inv_timeout.
  - destruct rest as [|q rest]; [by apply Inv_controls_nil|by apply Inv_controls_cons].
  - by apply Inv_drained.
  - by apply Inv_summary.
  - by apply Inv_move.
  - by apply Inv_build.
  - by apply Inv_sumcheck.
  - by apply Inv_sumwrite.
  - by apply Inv_sumdone.
  - by apply Inv_finalize.
  - by apply Inv_closefds.
  - by apply Inv_publish.
  - by apply Inv_replace.
  - by apply Inv_claim_step.
  - by apply Inv_finish.
  - done.
Qed.
