(* ===== verification/SinkReach.v ===== *)
(** * Every reachable configuration of the exporter satisfies [Inv]

    The initial configuration, preservation by each rule of [step], and the
    induction over executions. *)

From Stdlib Require Import ZArith Lia Ascii String.
From stdpp Require Import base list strings gmap sorting relations.
From S2P Require Import Prelude PyValue Sha256 RuntimeProtocol ProfileProtocol SinkState.
From S2P Require Import TraceSink SinkSteps SinkLemmas SinkInvariant SinkControl SinkTheorems.

(** ** The initial configuration *)

Lemma zero_count_of st t : count_of (zero_counts st) t = 0.
Proof.
  unfold count_of, zero_counts. destruct (list_to_map _ !! t) as [z|] eqn:E; [|done].
  apply elem_of_list_to_map_2, list_elem_of_fmap in E as (? & [= _ ->] & _). done.
Qed.

Lemma zero_sum st : sum_list_Z (map (count_of (zero_counts st)) (data_types st)) = 0.
Proof. by destruct st; vm_compute. Qed.

Lemma initial_lane_inv st start : lane_inv st 0 (initial_lane st start) [].
Proof.
  constructor; unfold data_written, stream_bytes, data_seqs; simpl;
    rewrite ?zero_sum, ?count_if_nil; try done.
  by repeat constructor.
Qed.

Lemma initial_sink_fields uuid domain mode pid started prov cfg s :
  initial_sink uuid domain mode pid started prov cfg = Ok s →
  (∃ start, base s = initial_lane Base start) ∧
  (∀ l, lane s Profile = Some l → ∃ start, l = initial_lane Profile start) ∧
  queue s = [] ∧ inflight_batch s = [] ∧ closing s = false ∧ closed s = false ∧
  abandoned s = false ∧ completion_claim s = None ∧
  (∀ p, profile s = Some p → p_records p = [] ∧ p_losses p = []).
Proof.
  unfold initial_sink. intros H. inv_ok. split; [by eexists|].
  destruct cfg as [c|]; inv_ok; unfold lane; simpl;
    split_and!; try done; intros ? [= <-]; [by eexists|done].
Qed.

Lemma Inv_initial c : initial_config c → Inv c.
Proof.
  intros (uuid & domain & mode & pid & started & prov & cfg & s & Hs & ->).
  destruct (initial_sink_fields _ _ _ _ _ _ _ _ Hs)
    as ([start Hb] & Hp & Hq & Hi & Hcl & Hcd & Hab & Hcm & _).
  assert (pending s = []) as Hpend by (unfold pending; by rewrite Hq, Hi).
  constructor; simpl; rewrite ?Hcl, ?Hcd, ?Hab, ?Hcm; try done.
  - constructor; rewrite Hpend; [|done]. intros [] l Hl.
    + unfold lane in Hl. apply (inj Some) in Hl as <-. rewrite Hb. apply initial_lane_inv.
    + destruct (Hp _ Hl) as [? ->]. apply initial_lane_inv.
  - by right.
  - right. rewrite Hb. split; [done|]. left. by rewrite Hb.
  - by rewrite Hb.
Qed.

(** ** Steps *)

Lemma producer_new_span s : producer s (new_span_id true s).2.
Proof. unfold new_span_id. simpl. by destruct (_ || _); simpl. Qed.

Lemma producer_defer r s : producer s (defer_diagnostic r true s).
Proof. unfold defer_diagnostic. simpl. destruct (_ || _); auto with rlp. Qed.

Lemma quiet_new_span s : closing s = true → quiet s (new_span_id true s).2.
Proof. intros H. left. unfold new_span_id. simpl. by rewrite H, orb_true_r. Qed.

Lemma quiet_defer r s : closing s = true → quiet s (defer_diagnostic r true s).
Proof. intros H. left. unfold defer_diagnostic. simpl. by rewrite H, orb_true_r. Qed.

Lemma Inv_step c c' : step c c' → Inv c → Inv c'.
Proof.
  intros Hstep H. pose proof (inv_s _ H) as Hs. destruct Hstep; simpl in Hs.
  - apply (Inv_producer s); [done|by apply write_event_spec|apply producer_write_base|].
    apply quiet_write_base.
  - apply (Inv_producer s); [done|by apply write_edge_spec|apply producer_write_base|].
    apply quiet_write_base.
  - apply (Inv_producer s); [done|by apply write_profile_spec|apply producer_write_profile|].
    apply quiet_write_profile.
  - apply (Inv_producer s); [done|by apply drop_profile_spec|apply producer_drop_profile|].
    apply quiet_drop_profile.
  - apply (Inv_producer s); [done|by apply new_span_id_spec|apply producer_new_span|].
    apply quiet_new_span.
  - apply (Inv_producer s); [done|by apply defer_diagnostic_spec|apply producer_defer|].
    apply quiet_defer.
  - by apply Inv_close_begin.
  - by apply Inv_close_join.
  - by apply Inv_bounded_claim.
  - by eapply Inv_bounded_flags.
  - by apply Inv_writer.
Qed.

Lemma reachable_inv c : reachable c → Inv c.
Proof.
  intros (c0 & H0 & Hr). apply Inv_initial in H0. revert H0.
  induction Hr; eauto using Inv_step.
Qed.

Lemma reachable_step c c' : reachable c → step c c' → reachable c'.
Proof. intros (c0 & ? & ?) ?. exists c0. split; [done|]. by eapply rtc_r. Qed.

(** ** Runs of the writer thread alone *)

Fixpoint run_writer (n : nat) (e : nat → env) (c : config) : config :=
  match n with
  | O => c
  | S n => run_writer n (λ i, e (S i)) (writer_step (e O) c.1 c.2)
  end.

Lemma run_writer_reachable n e c : reachable c → reachable (run_writer n e c).
Proof.
  revert e c. induction n as [|n IH]; intros e [s pc] H; [done|]. simpl. apply IH.
  eapply reachable_step; [done|]. constructor.
Qed.

Lemma run_writer_add n m e c :
  run_writer (n + m) e c = run_writer m (λ i, e (n + i)%nat) (run_writer n e c).
Proof. revert e c. induction n as [|n IH]; intros e c; [done|]. simpl. by rewrite IH. Qed.

Lemma run_writer_done n e s : run_writer n e (s, WDone) = (s, WDone).
Proof. revert e. induction n as [|n IH]; intros e; [done|]. simpl. apply IH. Qed.
