(* ===== verification/SinkFrame.v ===== *)
(** * What no step undoes, and the profile snapshot

    [kept s s'] : the completion claim and [closing] are never taken back, and
    the producer-side view of the profile (its admitted records, its loss
    intervals and the next sequence number) is untouched.  Every operation but
    the profile producers is in [kept]; for those, [snap_inv] states that the
    snapshot partitions the allocated sequence numbers. *)

From Stdlib Require Import ZArith Lia Ascii String.
From stdpp Require Import base list strings gmap sorting relations.
From S2P Require Import Prelude PyValue Sha256 RuntimeProtocol ProfileProtocol SinkState.
From S2P Require Import TraceSink SinkSteps SinkLemmas SinkInvariant SinkControl SinkTheorems.
From S2P Require Import SinkReach.

Create HintDb kept.

(** ** [kept] *)

Definition pview (s : JsonlTraceSink)
    : option (list ProfileRecord * list ProfileLossInterval * Z) :=
  (λ p, (p_records p, p_losses p, next_record_seq (p_lane p))) <$> profile s.

Record kept (s s' : JsonlTraceSink) : Prop := {
  kept_view : pview s' = pview s;
  kept_open : ∀ o, open_loss_of s' Profile = Some o → open_loss_of s Profile = Some o;
  kept_claim : ∀ r, completion_claim s = Some r → completion_claim s' = Some r;
  kept_closing : closing s = true → closing s' = true }.

#[export] Instance kept_preorder : PreOrder kept.
Proof.
  split; [by constructor|]. intros s1 s2 s3 [] []. constructor; try congruence; auto.
Qed.

Lemma kept_fields s s' :
  profile s' = profile s → completion_claim s' = completion_claim s →
  closing s' = closing s → kept s s'.
Proof.
  intros E1 E2 E3. constructor; unfold pview, open_loss_of, lane;
    rewrite ?E1, ?E2, ?E3; done.
Qed.

Lemma kept_upd st f s :
  (∀ l, next_record_seq (f l) = next_record_seq l ∧
        (open_loss (f l) = open_loss l ∨ open_loss (f l) = None)) →
  kept s (upd_lane st f s).
Proof.
  intros Hf. pose proof (ctl_upd st f s) as Hc.
  apply ctl_eq_fields in Hc as (_&Hc&_&_&_&Hcl&_).
  constructor; rewrite ?Hc, ?Hcl; try done.
  - unfold pview, upd_lane. destruct st; simpl; [done|]. destruct (profile s) as [p|] eqn:E; simpl.
    + f_equal. f_equal. apply Hf.
    + by rewrite E.
  - intros o. unfold open_loss_of. rewrite lane_upd. case_bool_decide; [|done].
    destruct (lane s Profile) as [l|]; simpl; [|done].
    destruct (Hf l) as [_ [-> | ->]]; done.
Qed.

Lemma kept_then s s1 s2 : kept s1 s2 → kept s s1 → kept s s2.
Proof. intros. by transitivity s1. Qed.

(** Peels the last operation off the right-hand state. *)
Ltac kept_upd := apply kept_upd; intros ?; split; [reflexivity|by left].

Lemma kept_diag r s : kept s (_count_diagnostic_locked r s).
Proof. unfold _count_diagnostic_locked. case_bool_decide; by apply kept_fields. Qed.

Lemma kept_take_diag s : kept s (_take_pending_diagnostics_locked s).2.
Proof. by apply kept_fields. Qed.

Lemma kept_drop_data n st s : kept s (drop_data n st s).
Proof. kept_upd. Qed.

Lemma kept_drop_control n st s : kept s (drop_control n st s).
Proof. kept_upd. Qed.

Lemma kept_enqueued st q s : kept s (upd_lane st (lane_enqueued q) s).
Proof.
  apply kept_upd. intros l. unfold lane_enqueued.
  destruct (q_reserved q); split; (reflexivity || by left).
Qed.

Lemma kept_enqueue q s : kept s (_enqueue_locked q s).2.
Proof.
  unfold _enqueue_locked. destruct (_can_enqueue_locked _ _ _ _); simpl; [|done].
  eapply kept_then; [apply kept_enqueued|by apply kept_fields].
Qed.

#[export] Hint Extern 0 (kept _ _) => reflexivity : kept.
#[export] Hint Resolve kept_diag kept_take_diag kept_drop_data kept_drop_control
  kept_enqueue : kept.

Lemma kept_seal st s : kept s (_seal_loss_locked st s).
Proof.
  unfold _seal_loss_locked. destruct (open_loss_of s st); [|done].
  set (s1 := upd_lane st _ s).
  assert (kept s s1) as H1.
  { apply kept_upd. intros l. split; [done|by right]. }
  destruct (loss_line _ _ _ _) as [raw|]; [|eapply kept_then; [|exact H1]; auto with kept].
  pose proof (kept_enqueue (mkQueued raw "loss_interval" None true None st) s1) as H2.
  destruct (_enqueue_locked _ s1) as [[] s2]; simpl in *; [by eapply kept_then|].
  eapply kept_then; [apply kept_drop_control|]. by eapply kept_then.
Qed.

Lemma kept_claim_call o b s : kept s (claim o b s).
Proof.
  destruct (completion_claim s) as [r|] eqn:E; [by rewrite (claim_Some _ _ _ _ E)|].
  rewrite (claim_None _ _ _ E). constructor; try done. intros r. by rewrite E.
Qed.

Lemma kept_clear_queue s : kept s (clear_queue s).
Proof.
  unfold clear_queue. eapply kept_then; [kept_upd|]. eapply kept_then; [kept_upd|].
  by apply (kept_fields s).
Qed.

#[export] Hint Resolve kept_seal kept_claim_call kept_clear_queue : kept.

Lemma kept_fold {A} (f : JsonlTraceSink → A → JsonlTraceSink) l s :
  (∀ s a, kept s (f s a)) → kept s (foldl f s l).
Proof.
  intros Hf. revert s. induction l as [|a l IH]; intros s; [done|]. simpl.
  eapply kept_then; [apply IH|apply Hf].
Qed.

Lemma kept_account_pending s : kept s (account_pending s).
Proof.
  eapply kept_then; [apply kept_clear_queue|]. apply kept_fold. intros s' q.
  unfold _account_unwritten_queued_locked. repeat case_match; auto with kept.
Qed.

Lemma kept_mark_failure s : kept s (_mark_writer_failure_locked s).
Proof.
  unfold _mark_writer_failure_locked. eapply kept_then; [apply kept_account_pending|].
  eapply kept_then; [apply kept_diag|].
  apply (kept_then _ (upd_lane Base bump_failures (upd_lane Profile bump_failures s)));
    [by apply kept_fields|]. eapply kept_then; kept_upd.
Qed.

Lemma kept_force_timeout s : kept s (_force_timeout_accounting_locked s).
Proof.
  unfold _force_timeout_accounting_locked. case_bool_decide; [apply kept_account_pending|].
  eapply kept_then; [apply kept_diag|].
  eapply kept_then; [|apply kept_account_pending]. by apply (kept_fields (account_pending s)).
Qed.

#[export] Hint Resolve kept_mark_failure kept_force_timeout : kept.

(** ** The writer *)

Lemma kept_write_stream st w raw s : kept s (write_stream st w raw s).2.
Proof.
  unfold write_stream. destruct st, (lane s _) as [l|]; try done.
  - destruct (_write_persistent_all w raw). kept_upd.
  - destruct (negb (fd_open l)); [done|]. destruct (_write_persistent_all w raw). kept_upd.
Qed.

Lemma kept_reserve st raw s : kept s (reserve_control st raw s).2.
Proof.
  unfold reserve_control. destruct (lane s st) as [l|]; [|done].
  destruct (_ || _); simpl; [auto with kept|kept_upd].
Qed.

Lemma kept_release st raw s : kept s (release_control st raw s).
Proof.
  apply kept_upd. intros l. destruct (0 <? reserved_queued l); split; (reflexivity || by left).
Qed.

#[export] Hint Resolve kept_write_stream kept_reserve kept_release : kept.

Lemma kept_write_path st w raw s : kept s (write_path st w raw s).2.
Proof. unfold write_path. destruct (_write_persistent_all w raw) as [r b]. kept_upd. Qed.

Lemma kept_append_via write st clock s :
  (∀ raw s, kept s (write raw s).2) → kept s (append_invalidation_via write st clock s).
Proof.
  intros Hw. unfold append_invalidation_via. destruct (summary_line _ _ _ _) as [raw|]; [|done].
  pose proof (kept_reserve st raw s) as H1. destruct (reserve_control st raw s) as [[] s1];
    simpl in *; [|done].
  pose proof (Hw raw s1) as H2.
  destruct (write raw s1) as [r s2]. simpl in *.
  eapply kept_then; [apply kept_release|].
  destruct (is_ok r); [by eapply kept_then|].
  eapply kept_then; [apply kept_drop_control|]. by eapply kept_then.
Qed.

Lemma kept_append_invalidation st clock w s : kept s (append_invalidation st clock w s).
Proof. apply kept_append_via. intros. apply kept_write_stream. Qed.

Lemma kept_append_to_path st clock w s : kept s (append_invalidation_to_path st clock w s).
Proof. apply kept_append_via. intros. apply kept_write_path. Qed.

#[export] Hint Resolve kept_append_invalidation kept_append_to_path : kept.

Lemma kept_invalidation e s : kept s (_append_timeout_invalidation_in_writer e s).
Proof.
  unfold _append_timeout_invalidation_in_writer. destruct (has_profile _); [|auto with kept].
  eapply kept_then; auto with kept.
Qed.

Lemma kept_retract st io clock w s :
  kept s (_retract_published_shard_in_writer st io clock w s).
Proof. destruct io; simpl; [kept_upd|kept_upd|auto with kept]. Qed.

Lemma kept_outcome o s : kept s (set_writer_outcome o s).
Proof. by apply kept_fields. Qed.

Lemma kept_timeout_outcome s : kept s (timeout_outcome s).
Proof. apply kept_outcome. Qed.

Lemma kept_summary_flags b s :
  kept s (upd_lane Base (set_summary_written b) (upd_lane Profile (set_summary_written b) s)).
Proof. eapply kept_then; kept_upd. Qed.

#[export] Hint Resolve kept_invalidation kept_retract kept_outcome kept_timeout_outcome kept_summary_flags : kept.

Lemma kept_mark_publication s : kept s (_mark_publication_failure s).
Proof.
  unfold _mark_publication_failure. eapply kept_then; [apply kept_outcome|].
  eapply kept_then; [kept_upd|]. auto with kept.
Qed.

Lemma kept_move st io s : kept s (move_to_incomplete st io s).2.
Proof.
  unfold move_to_incomplete. destruct (lane s st) as [l|]; [|done].
  destruct (incomplete l); [done|]. destruct io; simpl; [kept_upd|done|kept_upd].
Qed.

#[export] Hint Resolve kept_mark_publication kept_move : kept.

Lemma kept_record_written q s : kept s (_record_written q s).
Proof.
  unfold _record_written. destruct (abandoned s); [done|].
  destruct (inflight_batch s) as [|hd rest]; [auto with kept|].
  destruct (negb _); [auto with kept|].
  assert (kept s (set_inflight_batch rest s)) as H by by apply kept_fields.
  destruct (lane _ (q_stream q)); [|eapply kept_then; [|exact H]; auto with kept].
  eapply kept_then; [|exact H]. apply kept_upd. intros l'. unfold lane_written.
  repeat case_match; split; (reflexivity || by left).
Qed.

Lemma kept_summary_step e st o s : kept s (summary_step e st o s).1.
Proof.
  unfold summary_step. destruct (_ && _); simpl; [auto with kept|].
  destruct (summary_line _ _ _ _) as [raw|]; simpl; [|auto with kept].
  pose proof (kept_reserve st raw s) as H.
  destruct (reserve_control st raw s) as [[] s1]; simpl in *; [done|].
  eapply kept_then; [apply kept_outcome|done].
Qed.

#[export] Hint Resolve kept_record_written kept_summary_step : kept.

Lemma kept_claim_step e s : kept s (claim_step e s).
Proof.
  unfold claim_step.
  assert (∀ s0, kept s s0 → kept s (_count_diagnostic_locked "close_timeout"
    (timeout_outcome (upd_lane Base (set_summary_written false)
      (upd_lane Profile (set_summary_written false) s0))))) as Hlost.
  { intros s0 H. eapply kept_then; [apply kept_diag|]. eapply kept_then; [apply kept_outcome|].
    eapply kept_then; [apply kept_summary_flags|done]. }
  assert (∀ s0, kept s s0 → kept s (_retract_published_shard_in_writer Base (e_io e)
    (e_clock e) (e_write e) (if has_profile s0 then _retract_published_shard_in_writer Profile
      (e_io2 e) (e_clock e) (e_write2 e) s0 else s0))) as Hret.
  { intros s0 H. eapply kept_then; [apply kept_retract|].
    destruct (has_profile s0); [|done]. eapply kept_then; [apply kept_retract|done]. }
  destruct (_ || _); [by apply Hlost, Hret|].
  destruct (completion_claim s) as [r|] eqn:E; unfold _claim_close_result; rewrite E.
  - by apply Hlost, Hret.
  - set (s1 := set_completion_claim _ s).
    assert (kept s s1) as H1 by (constructor; try done; intros r; by rewrite E).
    apply (kept_then _ (upd_lane Base (set_incomplete false)
      (upd_lane Profile (set_incomplete false) s1))); [by apply kept_fields|].
    eapply kept_then; [kept_upd|]. eapply kept_then; [kept_upd|done].
Qed.

Lemma kept_finish s : kept s (finish_step s).
Proof.
  unfold finish_step. assert (kept s (set_closed true s)) as H by by apply kept_fields.
  destruct (_ && _); [|done]. eapply kept_then; [apply kept_claim_call|done].
Qed.

(** The timeout controls: drops and a renumbering of loss intervals only. *)
Lemma kept_timeout_control st group ts s :
  kept s (_timeout_loss_control_locked st group ts s).2.
Proof.
  unfold _timeout_loss_control_locked. destruct (lane s st) as [l|]; [|done].
  set (s1 := upd_lane st _ _).
  assert (kept s s1) as H1.
  { unfold s1. eapply kept_then; [kept_upd|]. auto with kept. }
  destruct (loss_line _ _ _ _) as [raw|]; simpl; [done|]. eapply kept_then; [|exact H1].
  auto with kept.
Qed.

Lemma kept_fold_pair {A B} (f : B * JsonlTraceSink → A → B * JsonlTraceSink) l bs :
  (∀ bs a, kept bs.2 (f bs a).2) → kept bs.2 (foldl f bs l).2.
Proof.
  intros Hf. revert bs. induction l as [|a l IH]; intros bs; [done|]. simpl.
  eapply kept_then; [apply IH|apply Hf].
Qed.

Lemma kept_admit_control cs q : kept cs.2 (admit_control cs q).2.
Proof. destruct cs as [cs s]. unfold admit_control. destruct (_ || _); simpl; [auto with kept|done]. Qed.

Lemma kept_admit_group ts st cs group : kept cs.2 (admit_group ts st cs group).2.
Proof.
  unfold admit_group. pose proof (kept_timeout_control st group ts cs.2) as H.
  destruct (_timeout_loss_control_locked _ _ _ _) as [[q|] s]; [|done].
  eapply kept_then; [apply kept_admit_control|done].
Qed.

Lemma kept_prepare_timeout now s : kept s (_prepare_timeout_controls_locked now s).2.
Proof.
  unfold _prepare_timeout_controls_locked.
  set (s1 := foldl _ s (pending s)).
  assert (kept s (clear_queue s1)) as H1.
  { eapply kept_then; [apply kept_clear_queue|]. apply kept_fold. intros s' q.
    destruct (recognized q); auto with kept. }
  set (cs1 := foldl admit_control ([], clear_queue s1) _).
  assert (kept s cs1.2) as H2.
  { eapply kept_then; [|exact H1]. apply (kept_fold_pair admit_control _ ([], clear_queue s1)).
    apply kept_admit_control. }
  set (cs2 := foldl _ cs1 _).
  assert (kept s cs2.2) as H3.
  { eapply kept_then; [|exact H2]. apply kept_fold_pair. intros. apply kept_admit_group. }
  match goal with |- context [foldl ?f cs2 ?l] =>
    assert (kept s (foldl f cs2 l).2) as H4 by
      (eapply kept_then; [|exact H3]; apply kept_fold_pair; intros; apply kept_admit_group);
    destruct (foldl f cs2 l) as [controls s2] end.
  simpl in *. clear -H4. eapply kept_then; [kept_upd|]. eapply kept_then; [kept_upd|].
  apply (kept_then _ (_count_diagnostic_locked "close_timeout" s2)); [by apply kept_fields|].
  eapply kept_then; [apply kept_diag|done].
Qed.

Lemma kept_abandon_controls s : kept s (abandon_controls s).
Proof.
  unfold abandon_controls. eapply kept_then; [apply kept_outcome|].
  eapply kept_then; [kept_upd|]. eapply kept_then; [kept_upd|].
  match goal with |- kept s (set_inflight_batch [] ?s') =>
    apply (kept_then _ s'); [by apply kept_fields|] end.
  apply kept_fold. intros. auto with kept.
Qed.

Lemma kept_writer_loop now s : kept s (writer_loop now s).1.
Proof.
  unfold writer_loop. destruct (abandoned s); [done|].
  pose proof (kept_take_diag s) as H. destruct (_take_pending_diagnostics_locked s) as [d s1].
  simpl in H. destruct d; [|done]. destruct (_close_cutoff_reached_locked now s1); [done|].
  destruct (queue s1) eqn:Eq; [done|].
  destruct (_take_batch_locked s1) as [b s2] eqn:E. simpl. etransitivity; [exact H|].
  unfold _take_batch_locked in E. destruct (take_batch _ _ _) as [b' r].
  injection E as <- <-. by apply kept_fields.
Qed.

#[export] Hint Resolve kept_claim_step kept_finish kept_prepare_timeout kept_abandon_controls
  kept_writer_loop : kept.

Lemma kept_writer e s pc : kept s (writer_step e s pc).1.
Proof.
  destruct pc; cbn [writer_step]; simpl; auto with kept.
  - destruct rest; [done|]. by repeat case_match.
  - destruct (_ || _); simpl; auto with kept.
  - pose proof (kept_write_stream (q_stream q) (e_write e) (q_raw q) s) as H.
    destruct (write_stream _ _ _ s) as [r s']. simpl in H.
    destruct (is_ok r); simpl; [done|]. eapply kept_then; [apply kept_mark_failure|done].
  - pose proof (kept_prepare_timeout (e_now e) s).
    by destruct (_prepare_timeout_controls_locked _ _).
  - destruct rest as [|q rest]; destruct (_close_deadline_reached _ _); simpl; auto with kept.
    destruct (negb _); simpl; auto with kept.
  - destruct (_counts_reconcile s); simpl; auto with kept.
  - destruct (_close_deadline_reached _ _); simpl; auto with kept.
  - pose proof (kept_move st (e_io e) s) as H. destruct (move_to_incomplete _ _ s) as [ok s'].
    simpl in H. destruct (negb ok); simpl; [|done].
    eapply kept_then; [apply kept_mark_failure|done].
  - destruct (_ || _); simpl; [|done]. eapply kept_then; [apply kept_mark_failure|].
    eapply kept_then; [apply kept_release|]. auto with kept.
  - pose proof (kept_write_stream st (e_write e) raw s) as H.
    destruct (write_stream _ _ _ s) as [r s']. simpl in H.
    destruct (is_ok r); simpl; (eapply kept_then; [|exact H]); auto with kept.
    eapply kept_then; [apply kept_mark_failure|]. eapply kept_then; [apply kept_release|].
    auto with kept.
  - destruct (_close_deadline_reached _ _); simpl.
    + eapply kept_then; [apply kept_invalidation|]. auto with kept.
    + destruct (_ && _); simpl; [done|]. unfold summary_complete.
      eapply kept_then; [apply kept_outcome|]. apply kept_summary_flags.
  - destruct (_ && _); [|done]. eapply kept_then; [apply kept_outcome|].
    eapply kept_then; [kept_upd|]. auto with kept.
  - eapply kept_then; [apply kept_take_diag|].
    assert (kept s (upd_lane Base (set_fd_open false) (upd_lane Profile (set_fd_open false) s)))
      as H by (eapply kept_then; kept_upd).
    destruct (io_ok _); [done|]. eapply kept_then; [apply kept_mark_publication|done].
  - destruct (negb _); simpl; [done|]. destruct (_ || _); simpl; auto with kept.
  - destruct st; destruct (io_ok _); simpl; auto with kept; try kept_upd.
    eapply kept_then; [apply kept_mark_publication|]. auto with kept.
Qed.
