(* ===== verification/SinkSnapshot.v ===== *)
(** * The profile snapshot of the exporter

    [kv_recovery_profile_snapshot] hands the admitted profile records and the
    loss intervals to the resolver.  [snap] is the invariant that together they
    name every allocated sequence number exactly once. *)

From Stdlib Require Import ZArith Lia Ascii String.
From stdpp Require Import base list strings gmap sorting relations.
From S2P Require Import Prelude PyValue Sha256 RuntimeProtocol ProfileProtocol SinkState.
From S2P Require Import TraceSink SinkSteps SinkLemmas SinkInvariant SinkControl SinkTheorems.
From S2P Require Import SinkReach SinkFrame.

(** The sequence numbers a loss interval stands for. *)
Definition loss_seqs (l : ProfileLossInterval) : list Z :=
  seqZ (pl_first_record_seq l) (dropped_count l).

Definition snapshot_seqs (records : list ProfileRecord) (losses : list ProfileLossInterval)
    : list Z := map prec_record_seq records ++ mjoin (map loss_seqs losses).

Definition loss_ok (l : ProfileLossInterval) : Prop :=
  0 < dropped_count l ∧ counts_sum (pl_counts l) = dropped_count l ∧
  dom (pl_counts l) = (list_to_set ProfileRecordType : gset string).

(** [k] is 1 while the last allocated number is still to be placed. *)
Record snap_inv (k : Z) (p : _ProfileWriterState) : Prop := {
  sn_next : k ≤ next_record_seq (p_lane p);
  sn_part : snapshot_seqs (p_records p) (p_losses p) ≡ₚ seqZ 0 (next_record_seq (p_lane p) - k);
  sn_loss : Forall loss_ok (p_losses p);
  sn_open : ∀ o, open_loss (p_lane p) = Some o → ∃ pre, p_losses p = pre ++ [loss_of o] }.

Definition snap (k : Z) (s : JsonlTraceSink) : Prop := ∀ p, profile s = Some p → snap_inv k p.

Lemma snap_kept k s s' : kept s s' → snap k s → snap k s'.
Proof.
  intros [Hv Ho _ _] H p' Hp'. unfold pview in Hv. rewrite Hp' in Hv. simpl in Hv.
  destruct (profile s) as [p|] eqn:Hp; [|done]. simpl in Hv. injection Hv as E1 E2 E3.
  destruct (H p Hp) as [H1 H2 H3 H4]. constructor; rewrite ?E1, ?E2, ?E3; try done.
  intros o Hop. specialize (Ho o). unfold open_loss_of, lane in Ho. rewrite Hp', Hp in Ho. auto.
Qed.

Lemma profile_upd_lane f s :
  profile (upd_lane Profile f s) = (λ p, set_p_lane (f (p_lane p)) p) <$> profile s.
Proof. unfold upd_lane. by destruct (profile s) eqn:E; simpl. Qed.

Lemma snap_allocated s : snap 0 s → snap 1 (upd_lane Profile allocated s).
Proof.
  intros H p'. rewrite profile_upd_lane. destruct (profile s) as [p|] eqn:Hp; [|done].
  intros [= <-]. destruct (H p Hp) as [H1 H2 H3 H4]. constructor; simpl; [lia| |done|done].
  by replace (next_record_seq (p_lane p) + 1 - 1) with (next_record_seq (p_lane p) - 0) by lia.
Qed.

Lemma seqZ_succ n : 0 ≤ n → seqZ 0 (n + 1) = seqZ 0 n ++ [n].
Proof. intros. rewrite seqZ_app by lia. by rewrite Z.add_0_l. Qed.

(** Placing the last allocated number. *)
Lemma snap_place n l l' :
  1 ≤ n → l ≡ₚ seqZ 0 (n - 1) → l' ≡ₚ l ++ [n - 1] → l' ≡ₚ seqZ 0 (n - 0).
Proof.
  intros Hn Hl ->. rewrite Hl. replace (n - 0) with (n - 1 + 1) by lia.
  by rewrite seqZ_succ by lia.
Qed.

Lemma snapshot_record rs ls r :
  snapshot_seqs (rs ++ [r]) ls ≡ₚ snapshot_seqs rs ls ++ [prec_record_seq r].
Proof. unfold snapshot_seqs. rewrite map_app. simpl. solve_Permutation. Qed.

Lemma snapshot_loss rs ls l :
  snapshot_seqs rs (ls ++ [l]) = snapshot_seqs rs ls ++ loss_seqs l.
Proof. unfold snapshot_seqs. by rewrite map_app, join_app, app_assoc; simpl; rewrite app_nil_r. Qed.

(** ** Drops *)

Lemma counts_sum_data c : counts_sum c = sum_list_Z (map (count_of c) (data_types Profile)).
Proof. rewrite counts_sum_unfold. simpl. lia. Qed.

Lemma fresh_loss_ok reason seq t ts :
  t ∈ ProfileRecordType →
  loss_ok (loss_of (mkOpenLoss reason seq seq (<[t := 1]> (zero_counts Profile)) ts ts)).
Proof.
  intros Ht. unfold loss_ok, dropped_count. cbn [loss_of pl_first_record_seq
    pl_last_record_seq pl_counts ol_first_record_seq ol_last_record_seq ol_counts].
  replace (seq - seq + 1) with 1 by lia.
  repeat (apply elem_of_cons in Ht as [-> | Ht]); [..|by apply elem_of_nil in Ht];
    (split; [done|]; split; [by vm_compute|by apply (bool_decide_unpack _); vm_compute]).
Qed.

Lemma extended_loss_ok o seq t ts :
  loss_ok (loss_of o) → t ∈ ProfileRecordType → seq = ol_last_record_seq o + 1 →
  loss_ok (loss_of (mkOpenLoss (ol_reason o) (ol_first_record_seq o) seq
    (incr t (ol_counts o)) (ol_first_timestamp_ns o) ts)).
Proof.
  unfold loss_ok, dropped_count. cbn [loss_of pl_first_record_seq
    pl_last_record_seq pl_counts ol_first_record_seq ol_last_record_seq ol_counts].
  rewrite !counts_sum_data. intros (H1 & H2 & H3) Ht ->. split_and!.
  - lia.
  - rewrite sum_incr by (done || apply data_types_nodup). lia.
  - unfold incr. rewrite dom_insert_L, H3. set_solver.
Qed.

Lemma set_last_app {A} (x y : A) l : set_last x (l ++ [y]) = l ++ [x].
Proof.
  unfold set_last. rewrite length_app. simpl.
  replace (length l + 1 - 1)%nat with (length l) by lia. by rewrite take_app_length.
Qed.

Lemma loss_seqs_extend o seq c ts :
  0 < dropped_count (loss_of o) → seq = ol_last_record_seq o + 1 →
  loss_seqs (loss_of (mkOpenLoss (ol_reason o) (ol_first_record_seq o) seq c
    (ol_first_timestamp_ns o) ts)) = loss_seqs (loss_of o) ++ [seq].
Proof.
  unfold loss_seqs, dropped_count. cbn [loss_of pl_first_record_seq
    pl_last_record_seq pl_counts ol_first_record_seq ol_last_record_seq ol_counts].
  intros H ->. replace (ol_last_record_seq o + 1 - ol_first_record_seq o + 1)
    with ((ol_last_record_seq o - ol_first_record_seq o + 1) + 1) by lia.
  rewrite seqZ_app by lia. f_equal. rewrite (seqZ_cons _ 1) by lia. simpl. f_equal; lia.
Qed.

Lemma loss_seqs_fresh reason seq c ts :
  loss_seqs (loss_of (mkOpenLoss reason seq seq c ts ts)) = [seq].
Proof.
  unfold loss_seqs, dropped_count. cbn [loss_of pl_first_record_seq
    pl_last_record_seq pl_counts ol_first_record_seq ol_last_record_seq ol_counts].
  replace (seq - seq + 1) with 1 by lia. by rewrite seqZ_cons.
Qed.

Lemma extends_spec reason seq o cur :
  extends_open_loss reason seq o = Some cur →
  o = Some cur ∧ ol_reason cur = reason ∧ seq = ol_last_record_seq cur + 1.
Proof.
  unfold extends_open_loss. destruct o as [c|]; [|done]. case_match eqn:E; [|done].
  intros [= <-]. bool_prop. subst. by split_and!.
Qed.

Lemma profile_upd_profile f s : profile (upd_profile f s) = f <$> profile s.
Proof. done. Qed.

Lemma snap_note_drop seq t reason ts s :
  t ∈ ProfileRecordType → last_seq Profile seq s → snap 1 s →
  snap 0 (_note_profile_drop_locked seq t reason ts s).2.
Proof.
  intros Ht Hseq H. unfold _note_profile_drop_locked.
  set (s0 := _count_diagnostic_locked reason (drop_data 1 Profile s)).
  assert (kept s s0) as Hk by (eapply kept_then; [apply kept_diag|apply kept_drop_data]).
  assert (snap 1 s0) as H0 by by eapply snap_kept.
  assert (last_seq Profile seq s0) as Hseq0.
  { intros l. unfold s0. rewrite lane_diag. unfold drop_data. revert l. by apply last_seq_upd. }
  clearbody s0. clear s H Hk Hseq. unfold last_seq, lane in Hseq0.
  destruct (extends_open_loss _ _ _) as [cur|] eqn:E.
  - apply extends_spec in E as (Ho & Hr & Hs). unfold open_loss_of, lane in Ho.
    destruct (profile s0) as [p|] eqn:Hp; [|done].
    destruct (H0 p Hp) as [H1 H2 H3 H4]. specialize (Hseq0 _ eq_refl).
    destruct (H4 _ Ho) as [pre Hpre]. rewrite Hpre in H3.
    apply Forall_app in H3 as [H3 [Hcur _]%Forall_cons].
    assert (is_Some (ol_counts cur !! t)) as [z ->].
    { apply elem_of_dom. destruct Hcur as (_ & _ & Hd). simpl in Hd. rewrite Hd. set_solver. }
    intros p'. simpl. rewrite profile_upd_lane, Hp. intros [= <-].
    rewrite Hpre in H2. rewrite snapshot_loss in H2. destruct Hcur as (Hc1 & Hc2 & Hc3).
    constructor; simpl; rewrite ?Hpre, ?set_last_app.
    + lia.
    + eapply snap_place; [lia|exact H2|]. rewrite snapshot_loss, loss_seqs_extend by done.
      rewrite <- app_assoc. by replace (next_record_seq (p_lane p) - 1) with seq by lia.
    + apply Forall_app. split; [done|]. constructor; [|done]. by apply extended_loss_ok.
    + intros o' [= <-]. by eexists.
  - simpl. clear E. assert (snap 1 (_seal_loss_locked Profile s0)) as H1
      by (eapply snap_kept; [apply kept_seal|done]).
    pose proof (last_seq_seal Profile Profile seq s0 Hseq0) as Hseq1.
    revert H1 Hseq1. generalize (_seal_loss_locked Profile s0). clear H0 Hseq0. intros s1 H1 Hseq.
    intros p'. simpl. rewrite profile_upd_lane. unfold last_seq, lane in Hseq.
    destruct (profile s1) as [p|] eqn:Hp; [|done]. intros [= <-].
    destruct (H1 p Hp) as [Hn H2 H3 H4]. specialize (Hseq _ eq_refl).
    constructor; simpl.
    + lia.
    + eapply snap_place; [lia|exact H2|]. rewrite snapshot_loss, loss_seqs_fresh.
      by replace (next_record_seq (p_lane p) - 1) with seq by lia.
    + apply Forall_app. split; [done|]. constructor; [|done]. by apply fresh_loss_ok.
    + intros o' [= <-]. by eexists.
Qed.

(** ** Producer calls *)

Lemma last_seq_kept seq s s' : kept s s' → last_seq Profile seq s → last_seq Profile seq s'.
Proof.
  intros [Hv _ _ _] H l. unfold last_seq, lane, pview in *.
  destruct (profile s') as [p'|]; [|done]. intros [= <-].
  destruct (profile s) as [p|]; [|done]. simpl in Hv. injection Hv as _ _ ->. by apply H.
Qed.

Lemma snap_drop_then {A} seq t r ts (k : unit → M JsonlTraceSink A) s :
  (∀ u s', (k u s').2 = s') → t ∈ ProfileRecordType → last_seq Profile seq s → snap 1 s →
  snap 0 ((_note_profile_drop_locked seq t r ts ≫= k) s).2.
Proof.
  intros Hk Ht Hseq H. rewrite M_run. pose proof (snap_note_drop seq t r ts s Ht Hseq H) as Hs.
  destruct (_note_profile_drop_locked seq t r ts s) as [[u|e] s']; simpl in *; [|done].
  by rewrite Hk.
Qed.

Lemma snap_admit q seq ts ref s :
  q_record_type q ∈ ProfileRecordType → last_seq Profile seq s →
  snap 1 s → snap 0 (admit_profile q seq ts ref s).2.
Proof.
  intros Ht Hseq H. unfold admit_profile. rewrite M_run. simpl.
  destruct (_can_enqueue_locked _ _ _ _); simpl; [|by apply snap_drop_then].
  rewrite M_run. simpl. rewrite M_run.
  pose proof (kept_seal Profile s) as H1.
  pose proof (kept_enqueue q (_seal_loss_locked Profile s)) as H2.
  destruct (_enqueue_locked q (_seal_loss_locked Profile s)) as [ok s2]. simpl in H2.
  assert (kept s s2) as H3 by by eapply kept_then.
  eapply snap_kept in H; [|exact H3]. eapply last_seq_kept in Hseq; [|exact H3].
  clear H1 H2 H3. destruct ok; simpl; [|by apply snap_drop_then].
  intros p'. rewrite profile_upd_profile. unfold last_seq, lane in Hseq.
  destruct (profile s2) as [p|] eqn:Hp; [|done]. intros [= <-].
  destruct (H p Hp) as [Hn Hpart Hloss Hop]. specialize (Hseq _ eq_refl).
  constructor; simpl; [lia| |done|done]. eapply snap_place; [lia|exact Hpart|].
  rewrite snapshot_record. simpl.
  by replace (next_record_seq (p_lane p) - 1) with seq by lia.
Qed.

Lemma snap_write_profile t v fields clock mono s :
  t ∈ ProfileRecordType → snap 0 s →
  snap 0 (write_kv_recovery_profile t v fields true clock mono s).2.
Proof.
  intros Ht H. unfold write_kv_recovery_profile. rewrite M_run. simpl.
  destruct (closed s) eqn:Ec; simpl; [done|].
  rewrite M_run. simpl. destruct (profile s) as [p|] eqn:Hp.
  2:{ eapply snap_kept; [apply kept_diag|done]. }
  destruct (closing s); simpl; [|rewrite Ec].
  { eapply snap_kept; [apply kept_diag|done]. }
  rewrite M_run. unfold _allocate_profile_record_seq_locked.
  assert (lane s Profile = Some (p_lane p)) as Hl by by unfold lane; rewrite Hp.
  rewrite Hl. simpl. destruct (_UINT64_MAX <? next_record_seq (p_lane p)); [done|].
  pose proof (snap_allocated s H) as Ha. pose proof (last_seq_allocated Profile s _ Hl) as Hseq.
  simpl. revert Ha Hseq. generalize (next_record_seq (p_lane p)), (upd_lane Profile allocated s).
  intros seq s1 Ha Hseq.
  destruct v; try (by apply snap_drop_then).
  destruct (_ || _); [by apply snap_drop_then|].
  destruct (writer_failed s); [by apply snap_drop_then|].
  destruct (profile_data_line _ _ _ _ _ _) as [[raw ref]|] eqn:El; [|by apply snap_drop_then].
  by apply snap_admit.
Qed.

Lemma snap_drop_profile t v r clock mono s :
  t ∈ ProfileRecordType → snap 0 s →
  snap 0 (drop_kv_recovery_profile t v r true clock mono s).2.
Proof.
  intros Ht H. unfold drop_kv_recovery_profile. rewrite M_run. simpl.
  destruct (closed s) eqn:Ec; simpl; [done|].
  rewrite M_run. simpl. destruct (profile s) as [p|] eqn:Hp; simpl; [|done].
  destruct (closing s); simpl; [done|]. rewrite Ec.
  rewrite M_run. unfold _allocate_profile_record_seq_locked.
  assert (lane s Profile = Some (p_lane p)) as Hl by by unfold lane; rewrite Hp.
  rewrite Hl. simpl. destruct (_UINT64_MAX <? _); [done|]. simpl.
  apply snap_drop_then; [done|done|by apply last_seq_allocated|by apply snap_allocated].
Qed.

(** ** Base producers and the closing calls are in [kept] *)

Lemma kept_note_drop seq t r ts s : kept s (_note_drop_locked seq t r ts s).
Proof.
  unfold _note_drop_locked.
  assert (kept s (_count_diagnostic_locked r (drop_data 1 Base s))) as H
    by (eapply kept_then; auto with kept).
  assert (∀ o s', kept s' (upd_lane Base (set_open_loss o) s')) as Hb.
  { intros o s'. apply kept_fields; by destruct s'. }
  destruct (extends_open_loss _ _ _).
  - eapply kept_then; [apply Hb|done].
  - eapply kept_then; [apply Hb|]. eapply kept_then; [apply kept_seal|done].
Qed.

Lemma kept_write_base t r encode clock mono s :
  kept s (write_base t r encode true clock mono s).2.
Proof.
  unfold write_base. simpl. destruct (closed s); simpl; [done|].
  destruct (closing s); simpl; [auto with kept|].
  unfold _producer_clock_or_drop_locked.
  assert (kept s (upd_lane Base allocated s)) as Ha by by apply kept_fields.
  assert (∀ seq t r ts, kept s (_note_drop_locked seq t r ts (upd_lane Base allocated s))) as Hd.
  { intros. eapply kept_then; [apply kept_note_drop|done]. }
  destruct (clock_value clock); simpl.
  2:{ eapply kept_then; [apply kept_note_drop|]. eapply kept_then; [apply kept_diag|done]. }
  destruct (writer_failed _); simpl; [apply Hd|].
  destruct (encode _ _) as [[raw ref]|]; simpl; [|apply Hd].
  unfold admit_or_drop. simpl. destruct (_can_enqueue_locked _ _ _ _); simpl; [|apply Hd].
  match goal with |- context [_enqueue_locked ?q ?s'] =>
    pose proof (kept_enqueue q s') as He; pose proof (kept_seal Base (upd_lane Base allocated s));
    destruct (_enqueue_locked q s') as [[] s2] end; simpl in *.
  - eapply kept_then; [exact He|]. by eapply kept_then.
  - eapply kept_then; [apply kept_note_drop|]. eapply kept_then; [exact He|]. by eapply kept_then.
Qed.

Lemma kept_close_begin d s : kept s (close_begin d s).
Proof.
  unfold close_begin. destruct (completion_claim s) as [r|] eqn:E; [done|].
  destruct (closed s); [auto with kept|].
  set (s1 := set_close_deadline_ns _ s).
  assert (kept s s1) as H1 by by apply kept_fields.
  assert (kept s (_seal_loss_locked Profile (_seal_loss_locked Base s1))) as [].
  { eapply kept_then; [apply kept_seal|]. eapply kept_then; [apply kept_seal|done]. }
  by constructor.
Qed.

Lemma kept_close_join alive s : kept s (close_join alive s).
Proof.
  unfold close_join. destruct (completion_claim s) as [r|] eqn:E; [done|].
  destruct alive; [|auto with kept]. eapply kept_then; [apply kept_claim_call|].
  apply (kept_then _ (_force_timeout_accounting_locked s)); [by apply kept_fields|].
  auto with kept.
Qed.

(** ** Preservation *)

Lemma snap_step c c' : step c c' → snap 0 c.1 → snap 0 c'.1.
Proof.
  intros Hs H. destruct Hs; simpl in *.
  - eapply snap_kept; [apply kept_write_base|done].
  - eapply snap_kept; [apply kept_write_base|done].
  - by apply snap_write_profile.
  - by apply snap_drop_profile.
  - eapply snap_kept; [|done]. unfold new_span_id. simpl. by destruct (_ || _); [|apply kept_fields].
  - eapply snap_kept; [|done]. unfold defer_diagnostic. simpl. destruct (_ || _); auto with kept.
  - eapply snap_kept; [apply kept_close_begin|done].
  - eapply snap_kept; [apply kept_close_join|done].
  - eapply snap_kept; [apply kept_claim_call|done].
  - eapply snap_kept; [|done]. by apply kept_fields.
  - eapply snap_kept; [apply kept_writer|done].
Qed.

Lemma reachable_snap c : reachable c → snap 0 c.1.
Proof.
  intros (c0 & (uuid & dom & mode & pid & started & prov & cfg & s & Hs & ->) & Hr).
  assert (snap 0 s) as H0.
  { destruct (initial_sink_fields _ _ _ _ _ _ _ _ Hs) as (_ & Hl & _ & _ & _ & _ & _ & _ & Hp).
    intros p Ep. destruct (Hp p Ep) as [Er El]. unfold lane in Hl. rewrite Ep in Hl.
    destruct (Hl _ eq_refl) as [start Es]. constructor; rewrite ?Er, ?El, ?Es; done. }
  change s with ((s, WLoop).1) in H0. revert H0. induction Hr; eauto using snap_step.
Qed.

(** A claim is for ever. *)
Lemma claim_step_kept c c' r :
  step c c' → completion_claim c.1 = Some r → completion_claim c'.1 = Some r.
Proof.
  intros Hs H. pose proof (λ s s' (E : ctl s' = ctl s),
    proj1 (proj2 (proj2 (proj2 (proj2 (proj2 (ctl_eq_fields _ _ E))))))) as Hctl.
  destruct Hs; simpl in *.
  - by apply kept_write_base.
  - by apply kept_write_base.
  - rewrite <- H. apply Hctl. apply producer_write_profile.
  - rewrite <- H. apply Hctl. apply producer_drop_profile.
  - rewrite <- H. apply Hctl. apply producer_new_span.
  - rewrite <- H. apply Hctl. apply producer_defer.
  - by apply kept_close_begin.
  - by apply kept_close_join.
  - by apply kept_claim_call.
  - done.
  - by apply kept_writer.
Qed.

Lemma claim_steps_kept c c' r :
  rtc step c c' → completion_claim c.1 = Some r → completion_claim c'.1 = Some r.
Proof. induction 1; eauto using claim_step_kept. Qed.
