(* ===== verification/SinkLiveness.v ===== *)
(** * The writer thread terminates once [close] began

    [rank] bounds the writer steps left when no other thread runs.  It counts
    the queued records, the records of the batch or of the timeout controls
    still to be visited, and the position in the final phases. *)

From Stdlib Require Import ZArith Lia Ascii String.
From stdpp Require Import base list strings gmap sorting relations.
From S2P Require Import Prelude PyValue Sha256 RuntimeProtocol ProfileProtocol SinkState.
From S2P Require Import TraceSink SinkSteps SinkLemmas SinkInvariant SinkControl SinkTheorems.
From S2P Require Import SinkReach SinkFrame.

(** ** The measure *)

Definition zlen {A} (l : list A) : Z := Z.of_nat (List.length l).

Definition timeout_rank : Z := 21 + 8 * RESERVED_CAPACITY_RECORDS.
Definition loop_rank : Z := timeout_rank + 1.

Definition record_rank (ctl : bool) (rest : list _QueuedRecord) (s : JsonlTraceSink) : Z :=
  if ctl then 20 + 4 * zlen rest else loop_rank + 12 * zlen (queue s) + 6 * zlen rest + 2.

Definition rank (c : config) : Z :=
  let '(s, pc) := c in
  match pc with
  | WLoop => loop_rank + 12 * zlen (queue s) +
             match (_take_pending_diagnostics_locked s).1 with [] => 0 | _ => 1 end
  | WBatch rest => record_rank false rest s
  | WControls rest => record_rank true rest s
  | WCheck ctl _ rest => record_rank ctl rest s + 3
  | WPersist ctl _ rest => record_rank ctl rest s + 2
  | WRecord ctl _ rest => record_rank ctl rest s + 1
  | WTimeout => timeout_rank
  | WDrained => 19
  | WSummary _ => 18
  | WMove Base _ => 17
  | WMove Profile _ => 16
  | WBuild Base _ => 15
  | WSumCheck Base _ _ => 14
  | WSumWrite Base _ _ => 13
  | WSumDone Base _ => 12
  | WBuild Profile _ => 11
  | WSumCheck Profile _ _ => 10
  | WSumWrite Profile _ _ => 9
  | WSumDone Profile _ => 8
  | WFinalize => 7
  | WCloseFds => 6
  | WPublish => 5
  | WReplace Base => 4
  | WReplace Profile => 3
  | WClaim => 2
  | WFinish => 1
  | WDone => 0
  end.

Lemma zlen_nonneg {A} (l : list A) : 0 ≤ zlen l.
Proof. unfold zlen. lia. Qed.

Lemma zlen_cons {A} (x : A) l : zlen (x :: l) = zlen l + 1.
Proof. unfold zlen. simpl. lia. Qed.

Lemma zlen_app {A} (l1 l2 : list A) : zlen (l1 ++ l2) = zlen l1 + zlen l2.
Proof. unfold zlen. rewrite length_app. lia. Qed.

(** ** Queue lengths *)

Lemma queue_mark_failure s : queue (_mark_writer_failure_locked s) = [].
Proof. pose proof (pending_mark_failure s) as H. by apply pending_nil in H as [_ ?]. Qed.

Lemma queue_record_written q s : zlen (queue (_record_written q s)) ≤ zlen (queue s).
Proof.
  pose proof (zlen_nonneg (queue s)).
  unfold _record_written. destruct (abandoned s); [done|].
  destruct (inflight_batch s) as [|hd rest]; [by rewrite queue_mark_failure|].
  destruct (negb _); [by rewrite queue_mark_failure|].
  destruct (lane _ (q_stream q)); [|by rewrite queue_mark_failure]. by rewrite queue_upd.
Qed.

Lemma queue_write_stream st w raw s : queue (write_stream st w raw s).2 = queue s.
Proof.
  unfold write_stream. destruct st, (lane s _) as [l|]; try done.
  - destruct (_write_persistent_all w raw). apply queue_upd.
  - destruct (negb (fd_open l)); [done|]. destruct (_write_persistent_all w raw). apply queue_upd.
Qed.

(** Every timeout control owns a reserved slot. *)
Lemma controls_bound s :
  sinv k0 s → Forall (λ q, is_control q = true) (pending s) →
  zlen (pending s) ≤ 2 * RESERVED_CAPACITY_RECORDS.
Proof.
  intros [Hl Hq] Hc.
  assert (∀ st, count_if (reserved_of st) (pending s) ≤ RESERVED_CAPACITY_RECORDS) as Hst.
  { intros st. destruct (lane s st) as [l|] eqn:El.
    - destruct (Hl st l El). lia.
    - assert (count_if (reserved_of st) (pending s) = 0) as ->; [|vm_compute; congruence].
      clear -Hq El. induction Hq as [|q pend [_ [l Hq]] _ IH]; [done|].
      rewrite count_if_cons, IH. unfold reserved_of. rewrite bool_decide_eq_false_2; [done|].
      intros E. congruence. }
  assert (zlen (pending s) = count_if (reserved_of Base) (pending s) +
                             count_if (reserved_of Profile) (pending s)) as ->.
  { clear Hst Hl. induction Hq as [|q pend [Hw _] _ IH]; [done|].
    apply Forall_cons in Hc as [Hc Hcs]. rewrite zlen_cons, !count_if_cons, IH by done.
    assert (q_reserved q = true) as Hr by (destruct Hw as [(_ & ? & _)|(_ & ? & _)]; congruence).
    assert (∀ st, reserved_of st q = bool_decide (q_stream q = st)) as E
      by (intros; unfold reserved_of; by rewrite Hr, andb_true_r).
    rewrite !E. destruct (q_stream q); simpl; lia. }
  pose proof (Hst Base). pose proof (Hst Profile). lia.
Qed.

Lemma take_batch_nonempty q qs : (take_batch 0 0 (q :: qs)).1 ≠ [].
Proof.
  cbn [take_batch]. simpl. by destruct (take_batch _ _ qs).
Qed.

Lemma take_diag_twice s :
  (_take_pending_diagnostics_locked (_take_pending_diagnostics_locked s).2).1 = [].
Proof.
  set (l := _DIAGNOSTIC_REASON_ORDER).
  assert (∀ l', (∀ r, r ∈ l' → r ∈ l) →
    filter (λ r, r ∈ pending_diagnostics s ∖ list_to_set (filter (λ r, r ∈ pending_diagnostics s) l))
      l' = []) as H.
  { intros l'. induction l' as [|r l' IH]; intros Hl; [done|]. rewrite filter_cons.
    rewrite decide_False; [apply IH; set_solver|].
    intros [Hin Hno]%elem_of_difference. apply Hno, elem_of_list_to_set, list_elem_of_filter.
    split; [done|]. set_solver. }
  exact (H l (λ r Hr, Hr)).
Qed.

(** ** Every step goes down *)

Ltac rank_lia := unfold loop_rank, timeout_rank in *; simpl in *; lia.

Lemma rank_loop now s :
  closing s = true → rank (writer_loop now s) < rank (s, WLoop).
Proof.
  intros Hc. pose proof (zlen_nonneg (queue s)). unfold writer_loop.
  assert (0 < RESERVED_CAPACITY_RECORDS) as Hr by done.
  destruct (abandoned s); [simpl; case_match; rank_lia|].
  pose proof (take_diag_twice s) as Ht. unfold rank at 2.
  assert (queue (_take_pending_diagnostics_locked s).2 = queue s) as Eq by done.
  assert (closing (_take_pending_diagnostics_locked s).2 = closing s) as Ec by done.
  destruct (_take_pending_diagnostics_locked s) as [d s1]. cbn [fst snd] in Ht, Eq, Ec |- *.
  destruct d as [|r d]; [|cbn [rank]; rewrite Ht, Eq; simpl; lia].
  destruct (_close_cutoff_reached_locked now s1); [simpl; rank_lia|].
  destruct (queue s1) as [|q qs] eqn:Eq1; [rewrite Ec, Hc; simpl; rank_lia|].
  unfold _take_batch_locked. rewrite Eq1.
  pose proof (take_batch_nonempty q qs) as Hne. pose proof (take_batch_app 0 0 (q :: qs)) as Happ.
  destruct (take_batch 0 0 (q :: qs)) as [b rest]. cbn [fst snd] in Hne, Happ.
  cbn [rank record_rank queue set_inflight_batch set_queue fst]. rewrite <- Eq, <- Happ, zlen_app.
  destruct b as [|b0 b]; [done|]. rewrite zlen_cons. pose proof (zlen_nonneg b). lia.
Qed.

Lemma rank_batch e q rest s :
  rank (writer_step e s (WBatch (q :: rest))) < rank (s, WBatch (q :: rest)).
Proof.
  pose proof (zlen_nonneg (queue s)). pose proof (zlen_nonneg rest).
  cbn [writer_step rank record_rank]. rewrite zlen_cons.
  assert (0 < RESERVED_CAPACITY_RECORDS) as Hr by done.
  destruct (abandoned s); [cbn [rank]; rank_lia|].
  destruct (_close_cutoff_reached_locked _ _); [cbn [rank]; rank_lia|].
  cbn [rank record_rank]. lia.
Qed.

Lemma rank_next ctl rest s' s :
  zlen (queue s') ≤ zlen (queue s) →
  rank (s', next_record ctl rest) ≤ record_rank ctl rest s.
Proof. destruct ctl; simpl; lia. Qed.

Lemma record_rank_late ctl rest s : 7 < record_rank ctl rest s.
Proof.
  pose proof (zlen_nonneg (queue s)). pose proof (zlen_nonneg rest).
  assert (0 < RESERVED_CAPACITY_RECORDS) as Hr by done.
  destruct ctl; simpl; rank_lia.
Qed.

Lemma rank_timeout now s :
  Inv (s, WTimeout) →
  let '(controls, s') := _prepare_timeout_controls_locked now s in
  rank (s', WControls controls) < timeout_rank.
Proof.
  intros H. destruct (_prepare_timeout_controls_locked now s) as [controls s'] eqn:E.
  destruct (prepare_timeout_spec _ _ _ _ (inv_s _ H) E) as (Hs & Hi & Hq & _ & Hc & _).
  pose proof (controls_bound s' Hs) as Hb. unfold pending in Hb.
  rewrite Hi, Hq, app_nil_r in Hb. specialize (Hb Hc). simpl. rank_lia.
Qed.

Lemma rank_step e s pc :
  Inv (s, pc) → closing s = true → pc ≠ WDone → rank (writer_step e s pc) < rank (s, pc).
Proof.
  intros HI Hc Hpc.
  destruct pc as [|[|q rest]|ctl q rest|ctl q rest|ctl q rest| |[|q rest]| |o|st o|st o|st raw o
    |st raw o|st o| | | |st| | |]; cbn [writer_step]; try (simpl; lia).
  - by apply rank_loop.
  - pose proof (zlen_nonneg (queue s)). unfold rank, record_rank.
    change (zlen (@nil _QueuedRecord)) with 0. case_match; lia.
  - apply rank_batch.
  - pose proof (record_rank_late ctl rest s). destruct (_ || _); simpl; lia.
  - pose proof (record_rank_late ctl rest s) as Hl.
    pose proof (queue_write_stream (q_stream q) (e_write e) (q_raw q) s) as Hq.
    destruct (write_stream _ _ _ s) as [r s']. simpl in Hq.
    destruct (is_ok r); cbn [rank fail_writer]; [|lia].
    unfold record_rank in *. rewrite Hq. destruct ctl; lia.
  - pose proof (rank_next ctl rest _ s (queue_record_written q s)).
    change (rank (s, WRecord ctl q rest)) with (record_rank ctl rest s + 1). lia.
  - pose proof (rank_timeout (e_now e) s HI) as Ht.
    by destruct (_prepare_timeout_controls_locked _ _).
  - change (rank (s, WControls [])) with 20. destruct (_ || _); simpl; lia.
  - pose proof (zlen_nonneg rest). cbn [rank record_rank]. rewrite zlen_cons.
    destruct (_close_deadline_reached _ _); cbn [rank record_rank]; lia.
  - destruct (_counts_reconcile s); simpl; lia.
  - destruct (_close_deadline_reached _ _); simpl; lia.
  - destruct (move_to_incomplete _ _ s) as [[] s']; destruct st; simpl; try lia.
    destruct (has_profile s'); simpl; lia.
  - unfold summary_step. destruct (_ && _); [destruct st; simpl; lia|].
    destruct (summary_line _ _ _ _); [|destruct st; simpl; lia].
    destruct (reserve_control _ _ _) as [[] s']; destruct st; simpl; lia.
  - destruct (_ || _), st; simpl; lia.
  - destruct (write_stream _ _ _ s) as [r s']. destruct (is_ok r), st; simpl; lia.
  - destruct (_close_deadline_reached _ _); [destruct st; simpl; lia|].
    destruct st; simpl; [|lia]. destruct (has_profile s); simpl; lia.
  - destruct (negb _); [simpl; lia|]. destruct (_ || _); simpl; lia.
  - destruct st; destruct (io_ok _); try (simpl; lia). destruct (has_profile s); simpl; lia.
  - done.
Qed.

(** ** Termination *)

Lemma rank_nonneg c : 0 ≤ rank c.
Proof.
  destruct c as [s pc]. pose proof (zlen_nonneg (queue s)).
  assert (0 < RESERVED_CAPACITY_RECORDS) as Hr by done.
  destruct pc as [|rest|ctl q rest|ctl q rest|ctl q rest| |rest| |o|[] o|[] o|[] raw o
    |[] raw o|[] o| | | |[]| | |]; simpl; try lia;
    try (pose proof (record_rank_late ctl rest s); lia).
  - case_match; rank_lia.
  - pose proof (zlen_nonneg rest). rank_lia.
  - rank_lia.
  - pose proof (zlen_nonneg rest). lia.
Qed.

(** Only [WFinish] steps to [WDone]. *)
Lemma only_finish_done e s pc :
  (writer_step e s pc).2 = WDone → pc = WDone ∨ pc = WFinish.
Proof.
  destruct pc as [|[|q rest]|ctl q rest|ctl q rest|ctl q rest| |[|q rest]| |o|st o|st o|st raw o
    |st raw o|st o| | | |st| | |]; cbn [writer_step]; auto; intros H; exfalso; revert H.
  all: unfold writer_loop, summary_step, fail_writer, next_record;
    repeat case_match; simpl; congruence.
Qed.

Lemma finish_claims s : closing s = true → is_Some (completion_claim (finish_step s)).
Proof.
  intros Hc. unfold finish_step. simpl. rewrite Hc.
  destruct (completion_claim s) as [r|] eqn:E; simpl; rewrite ?E; [done|].
  by rewrite claim_None.
Qed.

Lemma run_to_done n e c :
  Inv c → closing c.1 = true → c.2 ≠ WDone → rank c ≤ Z.of_nat n →
  (run_writer n e c).2 = WDone ∧ is_Some (completion_claim (run_writer n e c).1).
Proof.
  revert e c. induction n as [|n IH]; intros e [s pc] HI Hc Hpc Hr.
  - pose proof (rank_nonneg (s, pc)).
    pose proof (rank_step (e O) s pc HI Hc Hpc). pose proof (rank_nonneg (writer_step (e O) s pc)).
    lia.
  - cbn [run_writer fst snd].
    pose proof (rank_step (e O) s pc HI Hc Hpc) as Hlt.
    pose proof (Inv_writer (e O) s pc HI) as HI'.
    pose proof (kept_closing _ _ (kept_writer (e O) s pc) Hc) as Hc'.
    destruct (decide ((writer_step (e O) s pc).2 = WDone)) as [Hd|Hd].
    + destruct (only_finish_done _ _ _ Hd) as [->| ->]; [done|].
      cbn [writer_step] in *. rewrite run_writer_done. split; [done|]. by apply finish_claims.
    + apply IH; [done|done|done|lia].
Qed.
