(* ===== verification/SinkProps.v ===== *)
(** * The exporter: properties

    Theorems on every reachable configuration of the exporter, on the writer
    thread and on single calls, with executions that show their hypotheses
    hold. *)

From Stdlib Require Import ZArith Lia Ascii String.
From stdpp Require Import base list strings gmap sorting relations.
From S2P Require Import Prelude PyValue Sha256 RuntimeProtocol ProfileProtocol SinkState.
From S2P Require Import TraceSink SinkSteps SinkLemmas SinkInvariant SinkControl SinkTheorems.
From S2P Require Import SinkReach SinkFrame SinkSnapshot SinkLiveness.

(** ** Concrete executions *)

Definition example_provenance : RuntimeProvenance :=
  mkProvenance (example_trace +:+ "01234567") (example_trace +:+ "89abcdef")
    (example_trace +:+ "00000000").

Definition no_sink : JsonlTraceSink :=
  mkSink "" "" "" (initial_lane Base "") None [] [] 0 ∅ ∅ ∅ false false false false false
    None None None.

Definition ok_or {A} (d : A) (r : res A) : A := match r with Ok a => a | Raise _ => d end.

Definition start_example (mode : string) (cfg : option KVRecoveryProfileConfig)
    : res JsonlTraceSink :=
  initial_sink example_uuid example_trace mode (PInt 7) (PInt 1) example_provenance cfg.

Definition example_sink : JsonlTraceSink := ok_or no_sink (start_example "none" None).

Definition example_profile_sink : JsonlTraceSink :=
  ok_or no_sink (start_example KV_RECOVERY_COMMUNICATION_MODE (Some example_config)).

Lemma start_reachable mode cfg :
  is_ok (start_example mode cfg) = true →
  reachable (ok_or no_sink (start_example mode cfg), WLoop).
Proof.
  intros [s Hs]%is_ok_spec. eexists. split; [|apply rtc_refl].
  do 8 eexists. split; [exact Hs|]. by rewrite Hs.
Qed.

(** A write accepted one byte at a time and a file system that does what it is told. *)
Definition calm (now : Z) : env :=
  mkEnv now (Ok (PInt now)) (λ _, Ok (PInt 1)) (λ _, Ok (PInt 1)) IoOk IoOk.

(** One event, then [close] with deadline 100. *)
Definition one_event : JsonlTraceSink :=
  (write_event example_draft true (Ok (PInt 5)) 5 example_sink).2.

Definition closing_example : config := (close_begin 100 one_event, WLoop).

Lemma one_event_reachable : reachable (one_event, WLoop).
Proof.
  eapply reachable_step; [|apply step_event]. apply start_reachable. by vm_compute.
Qed.

Lemma closing_example_reachable : reachable closing_example.
Proof. eapply reachable_step; [apply one_event_reachable|]. apply step_close_begin. Qed.

(** The deadline is never reached, or it is reached after sixteen steps. *)
Definition drained_example : config := run_writer 30 (λ _, calm 50) closing_example.

Definition late_deadline_example : config :=
  run_writer 20 (λ i, if (i <? 16)%nat then calm 50 else calm 150) closing_example.

Lemma drained_reachable : reachable drained_example.
Proof. exact (run_writer_reachable 30 (λ _, calm 50) _ closing_example_reachable). Qed.

Lemma late_deadline_reachable : reachable late_deadline_example.
Proof. unfold late_deadline_example. apply run_writer_reachable, closing_example_reachable. Qed.

(** ** The committed shard *)

(** C1. In every reachable configuration in which [committed_shard_path] is set,
    producers are shut out, the base file is exactly the bytes fed to the digest
    followed by a process summary with outcome drained, that summary carries the
    final counters and the digest of those bytes, and the claimed result has the
    same counters with attempted = written events + written edges + dropped. *)
Theorem committed_shard_sound (c : config) :
  reachable c → committed_shard_path c.1 = true →
  ∃ r clock raw, completion_claim c.1 = Some r ∧ closing c.1 = true ∧
    summary_line Base "drained" clock c.1 = Ok raw ∧
    file (base c.1) = content_hash (base c.1) +:+ raw ∧
    cr_attempted_data_count r = attempted_data_count (base c.1) ∧
    cr_written_event_count r = count_of (written (base c.1)) "event" ∧
    cr_written_edge_count r = count_of (written (base c.1)) "edge" ∧
    cr_dropped_data_count r = dropped_data_count (base c.1) ∧
    cr_attempted_data_count r =
      cr_written_event_count r + cr_written_edge_count r + cr_dropped_data_count r.
Proof.
  intros H%reachable_inv Hc. unfold committed_shard_path in Hc.
  destruct (completion_claim c.1) as [r|] eqn:E; [|done]. bool_prop.
  destruct (inv_claim _ H r E) as [Hr Ha].
  destruct Ha as (_ & Hcl & [(clock & raw & ? & ?) _] & Hm); [done|].
  destruct Hm as (?&?&?&?&_). exists r, clock, raw. split_and!; try done.
  apply Hr. congruence.
Qed.

Lemma committed_shard_sound_witness :
  reachable drained_example ∧ committed_shard_path drained_example.1 = true ∧
  ∃ r, completion_claim drained_example.1 = Some r ∧ cr_written_event_count r = 1.
Proof.
  split; [apply drained_reachable|].
  assert (committed_shard_path drained_example.1 = true) as Hc by (vm_compute; reflexivity).
  split; [exact Hc|].
  destruct (committed_shard_sound drained_example drained_reachable Hc)
    as (r & _ & _ & Hr & _ & _ & _ & _ & He & _).
  exists r. split; [exact Hr|]. rewrite He. vm_compute. reflexivity.
Defined.

(** The claim of a committed shard does not say that the shard is
    published: there is a reachable configuration, at the end of the writer
    thread, where [committed_shard_path] is set although the formal name still
    holds the empty reservation file.  The deadline passes between the last
    check of the summary and the eligibility test of the publication, which then
    returns silently, and the [finally] block claims a drained result. *)
Theorem committed_without_publication :
  ∃ c, reachable c ∧ c.2 = WDone ∧ committed_shard_path c.1 = true ∧
       formal (base c.1) = FSentinel ∧ incomplete (base c.1) = true.
Proof.
  exists late_deadline_example. split; [apply late_deadline_reachable|].
  by vm_compute.
Qed.

(** ** Accounting *)

(** C2. In every reachable configuration and for each stream, every allocated
    sequence number is accounted for: attempted records are the written, the
    dropped and the still pending data records, and the next sequence number is
    the number of attempts. *)
Theorem reachable_accounting (c : config) st l :
  reachable c → lane c.1 st = Some l →
  attempted_data_count l = next_record_seq l ∧
  attempted_data_count l =
    sum_list_Z (map (count_of (written l)) (data_types st)) + dropped_data_count l +
    count_if (is_data st) (pending c.1).
Proof.
  intros H%reachable_inv Hl. destruct (si_lane _ _ (inv_s _ H) st l Hl) as [Hn Ha _ _ _ _ _ _ _].
  split; [done|]. unfold data_written, k0 in Ha. lia.
Qed.

Lemma reachable_accounting_witness :
  reachable (one_event, WLoop) ∧ count_if (is_data Base) (pending one_event) = 1 ∧
  attempted_data_count (base one_event) =
    sum_list_Z (map (count_of (written (base one_event))) (data_types Base)) +
    dropped_data_count (base one_event) + count_if (is_data Base) (pending one_event).
Proof.
  split; [apply one_event_reachable|]. split; [vm_compute; reflexivity|].
  apply (reachable_accounting (one_event, WLoop) Base (base one_event));
    [apply one_event_reachable|reflexivity].
Defined.

(** C4. The queue stays within its capacities in every reachable configuration:
    at most [DATA_CAPACITY_RECORDS] ordinary and [RESERVED_CAPACITY_RECORDS]
    reserved records and [MAX_QUEUED_BYTES] bytes of each stream are pending, and
    the counters the producers test are those numbers (upper bounds of them for
    the reserved records and the bytes). *)
Theorem reachable_bounds (c : config) st l :
  reachable c → lane c.1 st = Some l →
  count_if (ordinary_of st) (pending c.1) = ordinary_queued l ∧
  ordinary_queued l ≤ DATA_CAPACITY_RECORDS ∧
  count_if (reserved_of st) (pending c.1) ≤ reserved_queued l ≤ RESERVED_CAPACITY_RECORDS ∧
  stream_bytes st (pending c.1) ≤ queued_bytes l ≤ MAX_QUEUED_BYTES.
Proof.
  intros H%reachable_inv Hl. by destruct (si_lane _ _ (inv_s _ H) st l Hl).
Qed.

Lemma reachable_bounds_witness :
  reachable (one_event, WLoop) ∧ ordinary_queued (base one_event) = 1 ∧
  ordinary_queued (base one_event) ≤ DATA_CAPACITY_RECORDS.
Proof.
  split; [apply one_event_reachable|]. split; [vm_compute; reflexivity|].
  apply (reachable_bounds (one_event, WLoop) Base (base one_event));
    [apply one_event_reachable|reflexivity].
Defined.

(** C5. Pending records are in the order of their sequence numbers: in every reachable
    configuration the pending data records of a stream, the batch in flight before the
    queue, carry strictly increasing sequence numbers, all below the next one. *)
Theorem reachable_order (c : config) st l :
  reachable c → lane c.1 st = Some l →
  StronglySorted Z.lt (data_seqs st (pending c.1)) ∧
  Forall (λ n, n < next_record_seq l) (data_seqs st (pending c.1)).
Proof.
  intros H%reachable_inv Hl. pose proof (li_seqs _ _ _ _ (si_lane _ _ (inv_s _ H) st l Hl)) as Hs.
  unfold k0 in Hs. rewrite Z.sub_0_r in Hs. induction (data_seqs st (pending c.1)) as [|n ns IH].
  - split; constructor.
  - apply StronglySorted_inv in Hs as [Hs [Hall Hlt]%Forall_app].
    destruct (IH Hs). apply Forall_cons in Hlt as [Hlt _]. split; by constructor.
Qed.

Definition two_events : JsonlTraceSink :=
  (write_event example_draft true (Ok (PInt 6)) 6 one_event).2.

Lemma two_events_reachable : reachable (two_events, WLoop).
Proof. eapply reachable_step; [apply one_event_reachable|]. apply step_event. Qed.

Lemma reachable_order_witness :
  reachable (two_events, WLoop) ∧ data_seqs Base (pending two_events) = [0; 1] ∧
  StronglySorted Z.lt (data_seqs Base (pending two_events)).
Proof.
  split; [apply two_events_reachable|]. split; [vm_compute; reflexivity|].
  apply (reachable_order (two_events, WLoop) Base (base two_events));
    [apply two_events_reachable|reflexivity].
Defined.

(** ** The completion claim *)

(** The first completion claim is final: no later step of any thread, in any
    order, changes it; and unless its outcome is timeout, its counters
    reconcile. *)
Theorem claim_final (c c' : config) r :
  reachable c → completion_claim c.1 = Some r → rtc step c c' →
  completion_claim c'.1 = Some r ∧
  (cr_close_outcome r ≠ "timeout" →
   cr_attempted_data_count r =
     cr_written_event_count r + cr_written_edge_count r + cr_dropped_data_count r).
Proof.
  intros H Hr Hs. split; [by eapply claim_steps_kept|].
  apply reachable_inv in H. by apply (inv_claim _ H r Hr).
Qed.

Lemma claim_final_witness :
  let c := (claim "timeout" false one_event, WLoop) in
  let c' := (bounded_flags c.1, WLoop) in
  reachable c ∧ ∃ r, completion_claim c.1 = Some r ∧ completion_claim c'.1 = Some r.
Proof.
  assert (reachable (claim "timeout" false one_event, WLoop)) as H.
  { eapply reachable_step; [apply one_event_reachable|]. apply step_bounded_claim. }
  assert (completion_claim (claim "timeout" false one_event) =
          Some (_result "timeout" false one_event)) as E by (vm_compute; reflexivity).
  split; [exact H|]. exists (_result "timeout" false one_event). split; [exact E|].
  apply (claim_final (claim "timeout" false one_event, WLoop) _ _ H E).
  apply rtc_once. eapply step_bounded_flags; [exact E|reflexivity].
Defined.

(** C3. Once [close] began, the writer thread terminates: whatever the clock and
    the operating system answer, after at most [rank] of its own steps it is at
    its end, the completion claim is set, and it reconciles unless its outcome is
    timeout. *)
Theorem close_terminates (c : config) (e : nat → env) :
  reachable c → closing c.1 = true → c.2 ≠ WDone →
  ∃ n r, Z.of_nat n = rank c ∧ (run_writer n e c).2 = WDone ∧
    completion_claim (run_writer n e c).1 = Some r ∧
    (cr_close_outcome r ≠ "timeout" →
     cr_attempted_data_count r =
       cr_written_event_count r + cr_written_edge_count r + cr_dropped_data_count r).
Proof.
  intros H Hc Hpc. pose proof (rank_nonneg c).
  destruct (run_to_done (Z.to_nat (rank c)) e c) as [Hd [r Hr]]; [by apply reachable_inv|done|done|lia|].
  exists (Z.to_nat (rank c)), r. split; [lia|]. split; [done|]. split; [done|].
  pose proof (reachable_inv _ (run_writer_reachable (Z.to_nat (rank c)) e c H)) as Hi.
  by apply (inv_claim _ Hi r Hr).
Qed.

Lemma close_terminates_witness :
  reachable closing_example ∧ ∃ n, (run_writer n (λ _, calm 150) closing_example).2 = WDone.
Proof.
  split; [apply closing_example_reachable|].
  destruct (close_terminates closing_example (λ _, calm 150)) as (n & r & _ & Hd & _).
  - apply closing_example_reachable.
  - vm_compute. reflexivity.
  - discriminate.
  - exists n. exact Hd.
Defined.

(** ** The profile snapshot *)

(** C6. [kv_recovery_profile_snapshot] partitions the profile sequence numbers:
    in every reachable configuration the numbers of the admitted records and of
    the loss intervals, taken together, are exactly 0, 1, ..., next - 1, each
    once; and every loss interval is non-empty with per-type counts that sum to
    its length. *)
Theorem snapshot_partition (c : config) p :
  reachable c → profile c.1 = Some p →
  let '(records, losses) := kv_recovery_profile_snapshot c.1 in
  map prec_record_seq records ++ mjoin (map loss_seqs losses)
    ≡ₚ seqZ 0 (next_record_seq (p_lane p)) ∧
  Forall (λ l, 0 < dropped_count l ∧ counts_sum (pl_counts l) = dropped_count l) losses.
Proof.
  intros H%reachable_snap Hp. unfold kv_recovery_profile_snapshot. rewrite Hp.
  destruct (H p Hp) as [Hn H1 H2 _]. rewrite Z.sub_0_r in H1. split; [exact H1|].
  eapply Forall_impl; [exact H2|]. by intros l (? & ? & _).
Qed.

(** A record the resolver rejects becomes a loss interval. *)
Definition profile_loss_example : JsonlTraceSink :=
  (drop_kv_recovery_profile "transfer_event" (PInt 4) "serialization_failure" true (Ok (PInt 5))
     5 example_profile_sink).2.

Lemma profile_loss_reachable : reachable (profile_loss_example, WLoop).
Proof.
  eapply reachable_step; [apply (start_reachable KV_RECOVERY_COMMUNICATION_MODE
    (Some example_config)); by vm_compute|].
  apply step_profile_drop. by apply str_in_spec.
Qed.

Lemma snapshot_partition_witness :
  ∃ p, profile profile_loss_example = Some p ∧ next_record_seq (p_lane p) = 1 ∧
  map prec_record_seq (p_records p) ++ mjoin (map loss_seqs (p_losses p)) ≡ₚ [0].
Proof.
  assert (from_option (λ p, next_record_seq (p_lane p)) 0 (profile profile_loss_example) = 1)
    as Hn by (vm_compute; reflexivity).
  pose proof profile_loss_reachable as Hr. revert Hr Hn.
  generalize profile_loss_example. intros s Hr Hn.
  destruct (profile s) as [p|] eqn:Hp; [|discriminate Hn]. simpl in Hn.
  exists p. split; [reflexivity|]. split; [exact Hn|].
  pose proof (snapshot_partition (s, WLoop) p Hr Hp) as H.
  unfold kv_recovery_profile_snapshot in H. cbn [fst] in H. rewrite Hp in H.
  destruct H as [H _]. rewrite Hn in H. exact H.
Defined.

(** ** Producers and [close] *)

(** After [close] began no producer call has an effect on the evidence: it
    returns nothing, and lanes, queue and control state are as before; at most a
    diagnostic is counted. *)
Theorem closing_rejects_producers (s : JsonlTraceSink) d ed clock mono t v fields reason :
  closing s = true →
  (write_event d true clock mono s).1 = None ∧
  (write_edge ed true clock mono s).1 = None ∧
  (write_kv_recovery_profile t v fields true clock mono s).1 = Ok None ∧
  (drop_kv_recovery_profile t v reason true clock mono s).1 = Ok None ∧
  (new_span_id true s) = (None, s) ∧
  ∀ s', s' ∈ [(write_event d true clock mono s).2; (write_edge ed true clock mono s).2;
    (write_kv_recovery_profile t v fields true clock mono s).2;
    (drop_kv_recovery_profile t v reason true clock mono s).2; defer_diagnostic reason true s] →
    (∀ st, lane s' st = lane s st) ∧ queue s' = queue s ∧ ctl s' = ctl s.
Proof.
  intros Hc. split_and!.
  - unfold write_event, write_base. simpl. destruct (closed s); [done|]. by rewrite Hc.
  - unfold write_edge, write_base. simpl. destruct (closed s); [done|]. by rewrite Hc.
  - unfold write_kv_recovery_profile. rewrite M_run. simpl. destruct (closed s) eqn:E; [done|].
    simpl. rewrite M_run. simpl. rewrite Hc, E. by destruct (profile s).
  - unfold drop_kv_recovery_profile. rewrite M_run. simpl. destruct (closed s) eqn:E; [done|].
    simpl. rewrite M_run. simpl. rewrite Hc, E. by destruct (is_some_b (profile s)).
  - unfold new_span_id. simpl. by rewrite Hc, orb_true_r.
  - intros s' Hin. apply quiet_fields. rewrite !elem_of_cons in Hin.
    destruct Hin as [->|[->|[->|[->|[->|?%elem_of_nil]]]]]; [..|done].
    + by apply quiet_write_base.
    + by apply quiet_write_base.
    + by apply quiet_write_profile.
    + by apply quiet_drop_profile.
    + by apply quiet_defer.
Qed.

Lemma closing_rejects_producers_witness :
  closing closing_example.1 = true ∧
  (write_event example_draft true (Ok (PInt 9)) 9 closing_example.1).1 = None.
Proof.
  assert (closing closing_example.1 = true) as H by (vm_compute; reflexivity).
  revert H. generalize (closing_example.1). intros s H. split; [exact H|].
  destruct (closing_rejects_producers s example_draft
    (mkEdgeDraft "" "" "" "" "") (Ok (PInt 9)) 9 "" PNone [] "" H) as [E _]. exact E.
Defined.

(** ** Persistent writes *)

Lemma write_loop_prefix fuel w i view r out :
  write_loop fuel w i view = Some (r, out) → String.prefix out view = true.
Proof.
  revert i view r out. induction fuel as [|fuel IH]; intros i view r out;
    destruct view as [|c view']; cbn [write_loop]; try (by intros [= <- <-]).
  destruct (w i) as [v|e]; [|by intros [= <- <-]].
  destruct (invalid_progress v _); [by intros [= <- <-]|].
  intros H. apply bind_Some in H as ([r' out'] & Hr & [= <- <-]).
  apply IH in Hr.
  assert (∀ a b, String.prefix out' b = true → String.prefix (a +:+ out') (a +:+ b) = true) as Hp.
  { intros a b Hb. induction a as [|x a IHa]; [exact Hb|]. simpl. by destruct (ascii_dec x x). }
  apply (Hp (str_take (Z.to_nat (int_of v)) (String c view'))) in Hr.
  by rewrite str_take_drop in Hr.
Qed.

(** The only sources of an exception. *)
Lemma write_loop_raises fuel w i view e out :
  write_loop fuel w i view = Some (Raise e, out) →
  ∃ j, w j = Raise e ∨
       ∃ v, w j = Ok v ∧ invalid_progress v (str_drop (String.length out) view) = true.
Proof.
  revert i view out. induction fuel as [|fuel IH]; intros i view out;
    destruct view as [|c view']; cbn [write_loop]; try done.
  destruct (w i) as [v|e'] eqn:Ew.
  2:{ intros [= -> <-]. exists i. by left. }
  destruct (invalid_progress v _) eqn:Ei.
  { intros [= _ <-]. exists i. right. by exists v. }
  intros H. apply bind_Some in H as ([r' out'] & Hr & Heq).
  injection Heq as -> <-. destruct (IH _ _ _ Hr) as (j & [Hj|(v' & Hj & Hi)]).
  { exists j. by left. }
  exists j. right. exists v'. split; [done|]. rewrite <- Hi. f_equal.
  rewrite str_length_app, str_take_length_min.
  destruct v; try done. simpl in Ei. bool_prop. simpl int_of.
  rewrite Nat.min_l by (simpl; lia). by rewrite str_drop_drop.
Qed.

(** [_write_persistent_all] terminates for every behaviour of [os.write]; what
    it has appended is always a prefix of the record, and it returns normally
    exactly when the whole record was appended by calls that each made progress. *)
Theorem write_persistent_spec (os_write : nat → res pyval) (raw : string) :
  ∃ r out, write_loop (String.length raw) os_write 0 raw = Some (r, out) ∧
    _write_persistent_all os_write raw = (r, out) ∧
    String.prefix out raw = true ∧ (r = Ok tt → out = raw) ∧
    (∀ e, r = Raise e → ∃ i, os_write i = Raise e ∨
       ∃ v, os_write i = Ok v ∧ invalid_progress v (str_drop (String.length out) raw) = true).
Proof.
  destruct (write_loop_total (String.length raw) os_write 0 raw (le_n _)) as [[r out] E].
  exists r, out. split; [exact E|]. split; [unfold _write_persistent_all; by rewrite E|].
  split; [by eapply write_loop_prefix|]. split.
  - intros ->. by eapply write_loop_ok.
  - intros e ->. by eapply write_loop_raises.
Qed.

(** A short write, then a failure: the first two bytes are in the file. *)
Lemma write_persistent_spec_example :
  _write_persistent_all (λ i, match i with O => Ok (PInt 2) | _ => Raise (OSError "disk") end)
    "abcd" = (Raise (OSError "disk"), "ab").
Proof. reflexivity. Qed.
