(* ===== verification/SinkProducers.v ===== *)
(** * The exporter: batches and producer calls

    What one critical section does on each of its branches: the batch the writer
    takes, the outcome of [write_event], and the reserved capacity that keeps
    terminal events out of the way of ordinary traffic. *)

From Stdlib Require Import ZArith Lia Ascii String.
From stdpp Require Import base list strings gmap sorting relations.
From S2P Require Import Prelude PyValue Sha256 RuntimeProtocol ProfileProtocol SinkState.
From S2P Require Import TraceSink SinkSteps SinkLemmas SinkInvariant SinkControl SinkTheorems.
From S2P Require Import SinkReach SinkProps.

(** ** Batches *)

Definition batch_bytes (l : list _QueuedRecord) : Z := sum_list_Z (map raw_len l).

Lemma batch_bytes_app l1 l2 : batch_bytes (l1 ++ l2) = batch_bytes l1 + batch_bytes l2.
Proof. unfold batch_bytes. by rewrite map_app, sum_list_Z_app. Qed.

Lemma batch_bytes_nonneg l : 0 ≤ batch_bytes l.
Proof.
  apply sum_list_Z_nonneg, Forall_fmap, Forall_forall. intros q _. unfold raw_len. simpl. lia.
Qed.

(** [n] records of [b] bytes are in the batch already. *)
Lemma take_batch_bounds n b q :
  0 ≤ n ≤ MAX_BATCH_RECORDS → 0 ≤ b → (1 < n → b ≤ MAX_BATCH_BYTES) →
  let batch := (take_batch n b q).1 in
  n + Z.of_nat (List.length batch) ≤ MAX_BATCH_RECORDS ∧
  (1 < n + Z.of_nat (List.length batch) →
   1 ≤ n → 1 ≤ Z.of_nat (List.length batch) → b + batch_bytes batch ≤ MAX_BATCH_BYTES).
Proof.
  revert n b. induction q as [|c q IH]; intros n b Hn Hb Hnb; cbn [take_batch]; [simpl; lia|].
  destruct (negb (n <? MAX_BATCH_RECORDS)) eqn:E1; [simpl; lia|].
  destruct ((0 <? n) && (MAX_BATCH_BYTES <? b + raw_len c)) eqn:E2; [simpl; lia|].
  apply negb_false_iff, Z.ltb_lt in E1. apply andb_false_iff in E2.
  rewrite !Z.ltb_ge in E2. assert (0 ≤ raw_len c) by (unfold raw_len; lia).
  destruct (IH (n + 1) (b + raw_len c)) as [IH1 IH2]; [lia|lia|lia|].
  destruct (take_batch (n + 1) (b + raw_len c) q) as [batch rest]. cbn [fst] in *.
  cbn [List.length]. split; [lia|]. intros H1 H2 H3.
  change (batch_bytes (c :: batch)) with (raw_len c + batch_bytes batch).
  destruct batch as [|c' batch]; [simpl in *; change (batch_bytes []) with 0; lia|].
  assert (b + raw_len c + batch_bytes (c' :: batch) ≤ MAX_BATCH_BYTES);
    [apply IH2; simpl; lia|lia].
Qed.

(** The batch stops only for a reason. *)
Lemma take_batch_maximal n b q c rest :
  0 ≤ n → (take_batch n b q).2 = c :: rest →
  let batch := (take_batch n b q).1 in
  MAX_BATCH_RECORDS ≤ n + Z.of_nat (List.length batch) ∨
  MAX_BATCH_BYTES < b + batch_bytes batch + raw_len c.
Proof.
  revert n b. induction q as [|c' q IH]; intros n b Hn; cbn [take_batch]; [done|].
  destruct (negb (n <? MAX_BATCH_RECORDS)) eqn:E1.
  { intros _. simpl. apply negb_true_iff, Z.ltb_ge in E1. lia. }
  destruct ((0 <? n) && (MAX_BATCH_BYTES <? b + raw_len c')) eqn:E2.
  { intros [= -> ->]. bool_prop. simpl. change (batch_bytes []) with 0. lia. }
  specialize (IH (n + 1) (b + raw_len c') ltac:(lia)).
  destruct (take_batch (n + 1) (b + raw_len c') q) as [batch rest']. cbn [fst snd] in *.
  intros H. destruct (IH H); cbn [List.length];
    change (batch_bytes (c' :: batch)) with (raw_len c' + batch_bytes batch); lia.
Qed.

(** [_take_batch_locked] splits the queue: a non-empty prefix when there is
    one, of at most [MAX_BATCH_RECORDS] records, of at most [MAX_BATCH_BYTES]
    bytes unless it is a single record, and it stops only at one of the two
    limits. *)
Theorem take_batch_spec s batch s' :
  _take_batch_locked s = (batch, s') →
  queue s = batch ++ queue s' ∧ (queue s ≠ [] → batch ≠ []) ∧
  Z.of_nat (List.length batch) ≤ MAX_BATCH_RECORDS ∧
  (1 < Z.of_nat (List.length batch) → batch_bytes batch ≤ MAX_BATCH_BYTES) ∧
  (∀ q rest, queue s' = q :: rest →
     MAX_BATCH_RECORDS ≤ Z.of_nat (List.length batch) ∨
     MAX_BATCH_BYTES < batch_bytes batch + raw_len q).
Proof.
  unfold _take_batch_locked. intros H.
  pose proof (take_batch_app 0 0 (queue s)) as Happ.
  pose proof (λ c rest, take_batch_maximal 0 0 (queue s) c rest (Z.le_refl 0)) as Hmax.
  assert (queue s ≠ [] → (take_batch 0 0 (queue s)).1 ≠ []) as Hne.
  { destruct (queue s) as [|q qs]; [done|intros _]. cbn [take_batch]. simpl.
    by destruct (take_batch _ _ qs). }
  assert (let b := (take_batch 0 0 (queue s)).1 in
    Z.of_nat (List.length b) ≤ MAX_BATCH_RECORDS ∧
    (1 < Z.of_nat (List.length b) → batch_bytes b ≤ MAX_BATCH_BYTES)) as [Hl Hb].
  { destruct (queue s) as [|c q]; [by vm_compute|]. cbn [take_batch]. simpl.
    change (0 + 1) with 1. change (0 + raw_len c) with (raw_len c).
    destruct (take_batch_bounds 1 (raw_len c) q) as [B1 B2];
      [by vm_compute|unfold raw_len; lia|lia|].
    destruct (take_batch 1 (raw_len c) q) as [b r]. cbn [fst List.length] in *.
    split; [lia|]. intros. change (batch_bytes (c :: b)) with (raw_len c + batch_bytes b).
    apply B2; lia. }
  destruct (take_batch 0 0 (queue s)) as [b r]. injection H as <- <-. simpl in *.
  by split_and!.
Qed.

Lemma take_batch_spec_witness :
  let '(batch, s') := _take_batch_locked two_events in
  List.length batch = 2%nat ∧ queue two_events = batch ++ queue s'.
Proof.
  assert (List.length (_take_batch_locked two_events).1 = 2%nat) as Hl by (vm_compute; reflexivity).
  revert Hl. generalize two_events. intros s Hl.
  destruct (_take_batch_locked s) as [batch s'] eqn:E. split; [exact Hl|].
  exact (proj1 (take_batch_spec s batch s' E)).
Defined.

(** ** Drops *)

(** At most a sealed loss interval is queued. *)
Definition adds_control (s s' : JsonlTraceSink) : Prop :=
  queue s' = queue s ∨ ∃ raw, queue s' = queue s ++ [control_record raw Base].

Definition base_counts (s : JsonlTraceSink) :=
  (next_record_seq (base s), attempted_data_count (base s), dropped_data_count (base s)).

Lemma base_counts_seal s : base_counts (_seal_loss_locked Base s) = base_counts s.
Proof.
  unfold _seal_loss_locked. destruct (open_loss_of s Base); [|done].
  destruct (loss_line _ _ _ _) as [raw|]; [|done].
  unfold _enqueue_locked. destruct (_can_enqueue_locked _ _ _ _); done.
Qed.

Lemma queue_seal s : adds_control s (_seal_loss_locked Base s).
Proof.
  unfold _seal_loss_locked. destruct (open_loss_of s Base); [|by left].
  destruct (loss_line _ _ _ _) as [raw|]; [|by left].
  unfold _enqueue_locked. destruct (_can_enqueue_locked _ _ _ _); [right|by left].
  by exists raw.
Qed.

Lemma base_counts_diag r s : base_counts (_count_diagnostic_locked r s) = base_counts s.
Proof. unfold base_counts. by rewrite base_diag. Qed.

(** The sequence number ends the open loss. *)
Lemma note_drop_spec seq t r ts s :
  let s' := _note_drop_locked seq t r ts s in
  base_counts s' = (next_record_seq (base s), attempted_data_count (base s),
                    dropped_data_count (base s) + 1) ∧
  adds_control s s' ∧
  ∃ o, open_loss (base s') = Some o ∧ ol_reason o = r ∧ ol_last_record_seq o = seq.
Proof.
  unfold _note_drop_locked. set (s0 := _count_diagnostic_locked r (drop_data 1 Base s)).
  assert (base_counts s0 = (next_record_seq (base s), attempted_data_count (base s),
                            dropped_data_count (base s) + 1)) as Hc
    by (unfold s0; by rewrite base_counts_diag).
  assert (queue s0 = queue s) as Hq by (unfold s0; by rewrite queue_diag).
  clearbody s0. destruct (extends_open_loss _ _ _) as [cur|] eqn:E.
  - split; [exact Hc|]. split; [by left|]. eexists. split; [done|].
    unfold extends_open_loss in E. destruct (open_loss (base s0)); [|done].
    case_match eqn:Eb; [|done]. injection E as <-. bool_prop. by split.
  - split; [|split].
    + rewrite <- Hc. rewrite <- (base_counts_seal s0). done.
    + pose proof (queue_seal s0) as H. unfold adds_control in *. rewrite <- Hq. exact H.
    + by eexists.
Qed.

(** ** The outcome of a producer call *)

(** What a base producer call must have found: the record, its reference and its
    position, or the reason of the loss. *)
Definition admitted_as (q : _QueuedRecord) (s s' : JsonlTraceSink) : Prop :=
  ∃ s1, adds_control s s1 ∧ queue s' = queue s1 ++ [q] ∧
        dropped_data_count (base s') = dropped_data_count (base s).

Definition lost_as (seq : Z) (reason : string) (s s' : JsonlTraceSink) : Prop :=
  adds_control s s' ∧ dropped_data_count (base s') = dropped_data_count (base s) + 1 ∧
  ∃ o, open_loss (base s') = Some o ∧ ol_reason o = reason ∧ ol_last_record_seq o = seq.

Lemma adds_control_queue s s1 s2 s3 :
  queue s1 = queue s → queue s3 = queue s2 → adds_control s1 s2 → adds_control s s3.
Proof. unfold adds_control. intros -> ->. done. Qed.

Lemma note_drop_lost seq t r ts s s0 :
  queue s0 = queue s → dropped_data_count (base s0) = dropped_data_count (base s) →
  lost_as seq r s (_note_drop_locked seq t r ts s0) ∧
  next_record_seq (base (_note_drop_locked seq t r ts s0)) = next_record_seq (base s0).
Proof.
  intros Hq Hd. destruct (note_drop_spec seq t r ts s0) as (Hc & Ha & Ho).
  unfold base_counts in Hc. injection Hc as Hn _ Hdr. split; [|done].
  split_and!; [|by rewrite Hdr, Hd|done]. by eapply adds_control_queue.
Qed.

Lemma seal_open_loss st s : open_loss_of (_seal_loss_locked st s) st = None.
Proof. apply open_loss_seal. Qed.

Lemma note_drop_after_seal seq t r ts s :
  queue (_note_drop_locked seq t r ts (_seal_loss_locked Base s)) =
  queue (_seal_loss_locked Base s).
Proof.
  pose proof (seal_open_loss Base s) as Ho. revert Ho. generalize (_seal_loss_locked Base s).
  intros s1 Ho. unfold _note_drop_locked.
  set (s0 := _count_diagnostic_locked r (drop_data 1 Base s1)).
  assert (open_loss_of s0 Base = None) as H0.
  { unfold s0, open_loss_of. rewrite lane_diag. exact Ho. }
  assert (open_loss (base s0) = None) as -> by exact H0. cbn [extends_open_loss].
  rewrite queue_upd, seal_none by exact H0. unfold s0. by rewrite queue_diag.
Qed.

(** The reason a base record is lost for, if it is not the queue. *)
Definition loss_reason {R} (clock : res pyval) (failed : bool) (encoded : Z → res R)
    : option string :=
  match clock_value clock with
  | None => Some "serialization_failure"
  | Some ts =>
      if failed then Some "writer_failure"
      else if is_ok (encoded ts) then None else Some "serialization_failure"
  end.

Lemma write_base_outcome t r encode clock mono s :
  closed s = false → closing s = false →
  let seq := next_record_seq (base s) in
  let '(result, s') := write_base t r encode true clock mono s in
  next_record_seq (base s') = seq + 1 ∧
  match loss_reason clock (writer_failed s) (encode seq), result with
  | Some reason, None => lost_as seq reason s s'
  | Some _, Some _ => False
  | None, None => lost_as seq "queue_overflow" s s'
  | None, Some ref => ∃ ts raw,
      clock_value clock = Some ts ∧ encode seq ts = Ok (raw, ref) ∧
      admitted_as (mkQueued raw t (Some seq) r (Some ts) Base) s s'
  end.
Proof.
  intros Hcd Hcl. unfold write_base, loss_reason. simpl. rewrite Hcd, Hcl. simpl.
  unfold _producer_clock_or_drop_locked. set (seq := next_record_seq (base s)).
  set (s1 := upd_lane Base allocated s).
  assert (queue s1 = queue s) as Hq by apply queue_upd.
  assert (dropped_data_count (base s1) = dropped_data_count (base s)) as Hd by done.
  assert (next_record_seq (base s1) = seq + 1) as Hn by done.
  assert (writer_failed s1 = writer_failed s) as Hf by done.
  clearbody s1. assert (∀ r ts, let s' := _note_drop_locked seq t r ts s1 in
    next_record_seq (base s') = seq + 1 ∧ lost_as seq r s s') as Hdrop.
  { intros r' ts. destruct (note_drop_lost seq t r' ts s s1 Hq Hd) as [? E]. simpl.
    rewrite E. done. }
  destruct (clock_value clock) as [ts|]; simpl.
  2:{ destruct (note_drop_lost seq t "serialization_failure" mono s
        (_count_diagnostic_locked "clock_domain_unavailable" s1)) as [? E];
        [by rewrite queue_diag|by rewrite base_diag|].
      split; [|done]. by rewrite E, base_diag. }
  rewrite ?Hf. destruct (writer_failed s); simpl; [apply Hdrop|].
  destruct (encode seq ts) as [[raw ref]|] eqn:He; simpl; [|apply Hdrop].
  unfold admit_or_drop. simpl. destruct (_can_enqueue_locked _ _ _ _); simpl; [|apply Hdrop].
  set (q := mkQueued raw t (Some seq) r (Some ts) Base).
  pose proof (queue_seal s1) as Hs. pose proof (base_counts_seal s1) as Hb.
  unfold base_counts in Hb. injection Hb as Hb1 Hb2 Hb3.
  pose proof (adds_control_queue s s1 _ _ Hq eq_refl Hs) as Hadd.
  destruct (_can_enqueue_locked (q_raw q) (q_reserved q) (q_stream q)
    (_seal_loss_locked Base s1)) eqn:Ec.
  - unfold _enqueue_locked. rewrite Ec. simpl. unfold lane_enqueued. simpl.
    destruct r; simpl; (split; [congruence|]); exists ts, raw;
      (split; [done|]; split; [exact He|]); exists (_seal_loss_locked Base s1);
      (split; [exact Hadd|]; split; [reflexivity|]; simpl; congruence).
  - unfold _enqueue_locked. rewrite Ec.
    destruct (note_drop_spec seq t "queue_overflow" ts (_seal_loss_locked Base s1))
      as (Hc & _ & Ho).
    unfold base_counts in Hc. injection Hc as Hc1 _ Hc3. split; [congruence|].
    split_and!; [|rewrite Hc3; congruence|exact Ho].
    unfold adds_control in *. by rewrite note_drop_after_seal.
Qed.

(** [write_event] on an open sink: exactly one sequence number is used; with
    a reference, the record built from the draft under that number was appended
    to the queue, after at most one sealed loss interval, and nothing was
    dropped; without one, the number ends the open loss interval with the reason
    the code has for it (clock or validation, writer failure, capacity) and one
    data record was counted as dropped. *)
Theorem write_event_outcome d clock mono s :
  closed s = false → closing s = false →
  let seq := next_record_seq (base s) in
  let encode ts :=
    '(record, ref) ← build_event_record d (process_uuid s) (clock_domain_id s) seq ts
                       (communication_mode s);
    raw ← canonical_json_line record; Ok (raw, ref) in
  let '(result, s') := write_event d true clock mono s in
  next_record_seq (base s') = seq + 1 ∧
  match loss_reason clock (writer_failed s) encode, result with
  | Some reason, None => lost_as seq reason s s'
  | Some _, Some _ => False
  | None, None => lost_as seq "queue_overflow" s s'
  | None, Some ref => ∃ ts raw,
      clock_value clock = Some ts ∧ encode ts = Ok (raw, ref) ∧
      admitted_as (mkQueued raw "event" (Some seq)
        (str_in (ev_event_name d) TERMINAL_EVENTS) (Some ts) Base) s s'
  end.
Proof. apply write_base_outcome. Qed.

Lemma write_event_outcome_witness :
  closed example_sink = false ∧ closing example_sink = false ∧
  next_record_seq (base (write_event example_draft true (Raise (OSError "clock")) 5
    example_sink).2) = 1.
Proof.
  assert (closed example_sink = false) as H1 by (vm_compute; reflexivity).
  assert (closing example_sink = false) as H2 by (vm_compute; reflexivity).
  assert (next_record_seq (base example_sink) = 0) as H3 by (vm_compute; reflexivity).
  revert H1 H2 H3. generalize example_sink. intros s H1 H2 H3.
  split; [exact H1|]. split; [exact H2|].
  pose proof (write_event_outcome example_draft (Raise (OSError "clock")) 5 s H1 H2) as H.
  cbv zeta in H. destruct (write_event _ _ _ _ s) as [r s']. destruct H as [H _].
  rewrite H3 in H. exact H.
Defined.

(** ** Reserved capacity *)

(** The bytes of the loss interval that sealing would queue. *)
Definition sealed_bytes (s : JsonlTraceSink) : Z :=
  match open_loss (base s) with
  | None => 0
  | Some o => match loss_line s Base (next_loss_interval_seq (base s)) o with
              | Ok raw => Z.of_nat (String.length raw)
              | Raise _ => 0
              end
  end.

Lemma reserved_fits raw st s l :
  lane s st = Some l → writer_failed s = false → closing s = false → closed s = false →
  queued_bytes l + Z.of_nat (String.length raw) ≤ MAX_QUEUED_BYTES →
  reserved_queued l < RESERVED_CAPACITY_RECORDS →
  _can_enqueue_locked raw true st s = true.
Proof.
  intros Hl Hf Hc Hd Hb Hr. unfold _can_enqueue_locked. rewrite Hl, Hf, Hc, Hd. simpl.
  destruct (_ <? _) eqn:E; bool_prop; [lia|]. apply Z.ltb_lt. lia.
Qed.

(** Sealing uses at most one reserved slot and [sealed_bytes]. *)
Lemma seal_room s :
  let s' := _seal_loss_locked Base s in
  reserved_queued (base s') ≤ reserved_queued (base s) + 1 ∧
  queued_bytes (base s') ≤ queued_bytes (base s) + sealed_bytes s ∧ 0 ≤ sealed_bytes s.
Proof.
  cbv zeta. unfold _seal_loss_locked, sealed_bytes.
  change (open_loss_of s Base) with (open_loss (base s)).
  change (from_option next_loss_interval_seq 0 (lane s Base)) with
    (next_loss_interval_seq (base s)).
  destruct (open_loss (base s)) as [o|]; [|lia].
  set (s1 := upd_lane Base _ s).
  assert (loss_line s1 Base (next_loss_interval_seq (base s)) o =
          loss_line s Base (next_loss_interval_seq (base s)) o) as -> by done.
  destruct (loss_line s Base _ o) as [raw|]; [|simpl; lia].
  unfold _enqueue_locked. destruct (_can_enqueue_locked _ _ _ _); simpl; [|lia].
  unfold lane_enqueued, raw_len. simpl. lia.
Qed.

(** C7. Terminal events do not compete with ordinary traffic: however many
    ordinary records are queued, a valid terminal event is admitted as long as
    the reserved capacity has room for it and for the loss interval it may have
    to seal, and the byte budget for both. *)
Theorem terminal_event_admitted d ts mono s record ref raw :
  closed s = false → closing s = false → writer_failed s = false →
  str_in (ev_event_name d) TERMINAL_EVENTS = true →
  0 ≤ ts ≤ _UINT64_MAX →
  build_event_record d (process_uuid s) (clock_domain_id s) (next_record_seq (base s)) ts
    (communication_mode s) = Ok (record, ref) →
  canonical_json_line record = Ok raw →
  reserved_queued (base s) + 1 < RESERVED_CAPACITY_RECORDS →
  queued_bytes (base s) + sealed_bytes s + Z.of_nat (String.length raw) ≤ MAX_QUEUED_BYTES →
  (write_event d true (Ok (PInt ts)) mono s).1 = Some ref.
Proof.
  intros Hcd Hcl Hf Ht Hts Hb Hr Hres Hbytes.
  unfold write_event, write_base. simpl. rewrite Hcd, Hcl. simpl.
  unfold _producer_clock_or_drop_locked.
  assert (clock_value (Ok (PInt ts)) = Some ts) as ->.
  { simpl. destruct (_ || _) eqn:E; [bool_prop; lia|done]. }
  set (s1 := upd_lane Base allocated s).
  assert (writer_failed s1 = false) as -> by done.
  rewrite Hb. simpl. rewrite Hr. simpl. unfold admit_or_drop. simpl. rewrite Ht.
  destruct (seal_room s) as (_ & _ & H0).
  rewrite (reserved_fits raw Base s1 (base s1)) by (done || simpl; lia). simpl.
  unfold _enqueue_locked. simpl. destruct (seal_room s1) as (R1 & R2 & _).
  assert (sealed_bytes s1 = sealed_bytes s) as E1 by done.
  assert (reserved_queued (base s1) = reserved_queued (base s)) as E2 by done.
  assert (queued_bytes (base s1) = queued_bytes (base s)) as E3 by done.
  rewrite E1, E3 in R2. rewrite E2 in R1.
  pose proof (ctl_eq_fields _ _ (ctl_seal Base s1)) as (_ & C1 & C2 & C3 & _).
  assert (closing s1 = closing s ∧ closed s1 = closed s ∧ writer_failed s1 = writer_failed s)
    as (D1 & D2 & D3) by done.
  rewrite (reserved_fits raw Base (_seal_loss_locked Base s1)
    (base (_seal_loss_locked Base s1))); [done|done|congruence|congruence|congruence|lia|lia].
Qed.

Definition example_abort : EventDraft :=
  mkEventDraft example_trace (example_trace +:+ ":e:0") (Some (example_trace +:+ ":r"))
    "engine_sample" "engine_core" "aborted" (PInt 6) (PInt 0) None None [] (PInt 0) PNone PNone
    None None.

(** The ordinary capacity is exhausted. *)
Definition full_sink : JsonlTraceSink :=
  upd_lane Base (set_ordinary_queued DATA_CAPACITY_RECORDS) example_sink.

Lemma terminal_event_admitted_witness :
  _can_enqueue_locked "" false Base full_sink = false ∧
  (write_event example_abort true (Ok (PInt 6)) 6 full_sink).1 =
    Some (mkRecordRef (example_uuid +:+ ":e:0") 0).
Proof.
  split; [vm_compute; reflexivity|].
  eapply (terminal_event_admitted example_abort 6 6 full_sink).
  - vm_compute. reflexivity.
  - vm_compute. reflexivity.
  - vm_compute. reflexivity.
  - vm_compute. reflexivity.
  - vm_compute. split; congruence.
  - vm_compute. reflexivity.
  - vm_compute. reflexivity.
  - vm_compute. reflexivity.
  - vm_compute. congruence.
Defined.
