(* ===== verification/Hooks.v ===== *)
(** * runtime_hooks.py: configuration and the fail-open facade

    [RuntimeTraceConfig.from_env], [NullTraceSink] and [RuntimeLifecycleHooks].
    Every call takes the identifier of the calling process ([os.getpid()]): the
    facade detaches from the exporter it inherited when that is not its owner.
    The construction of [JsonlTraceSink] is the function [construct]: what the
    file system and the clock answered is in [boot]. *)

From Stdlib Require Import ZArith Lia Ascii String.
From stdpp Require Import base list strings gmap sorting.
From S2P Require Import Prelude PyValue Sha256 RuntimeProtocol ProfileProtocol SinkState.
From S2P Require Import TraceSink SinkSteps SinkLemmas SinkControl.

(** ** Configuration *)

Definition TRACE_EXPORT_ENV := "VLLM_RLP_TRACE_EXPORT_PATH".
Definition TRACE_PARENT_COMMIT_ENV := "VLLM_RLP_PROFILER_PARENT_COMMIT".
Definition TRACE_RUNTIME_COMMIT_ENV := "VLLM_RLP_RUNTIME_CORE_COMMIT".
Definition TRACE_DEVICE_COMMIT_ENV := "VLLM_RLP_DEVICE_PLUGIN_COMMIT".
Definition TRACE_COMMUNICATION_MODE_ENV := "VLLM_RLP_COMMUNICATION_MODE".
Definition TRACE_KV_RECOVERY_RUN_ID_ENV := "VLLM_RLP_KV_RECOVERY_RUN_ID".

(** [export_path] is the text of the path. *)
Record RuntimeTraceConfig := mkTraceConfig {
  export_path : option string;
  provenance : option RuntimeProvenance;
  tc_communication_mode : string;
  invalid_reason : option string;
  kv_recovery_profile_config : option KVRecoveryProfileConfig }.

(** [str.strip()] on the code points up to 255. *)
Definition is_space (c : ascii) : bool :=
  let z := code c in
  ((9 <=? z) && (z <=? 13)) || ((28 <=? z) && (z <=? 32)) || (z =? 133) || (z =? 160).

Fixpoint lstrip (s : string) : string :=
  match s with
  | String c s' => if is_space c then lstrip s' else s
  | EmptyString => EmptyString
  end.

Fixpoint rstrip (s : string) : string :=
  match s with
  | EmptyString => EmptyString
  | String c s' =>
      match rstrip s' with
      | EmptyString => if is_space c then EmptyString else String c EmptyString
      | r => String c r
      end
  end.

Definition strip (s : string) : string := rstrip (lstrip s).

(** [env.get(key, default).strip()] *)
Definition env_get (env : gmap string string) (key dflt : string) : string :=
  strip (default dflt (env !! key)).

Definition supported_mode (mode : string) : bool :=
  str_in mode ["none"; KV_RECOVERY_COMMUNICATION_MODE].

Definition from_env (env : gmap string string) : RuntimeTraceConfig :=
  let raw_path := env_get env TRACE_EXPORT_ENV "" in
  if String.eqb raw_path "" then mkTraceConfig None None "none" None None
  else
    let mode := env_get env TRACE_COMMUNICATION_MODE_ENV "none" in
    if negb (supported_mode mode) then
      mkTraceConfig (Some raw_path) None mode (Some "unsupported_mode") None
    else
      let commits := mkProvenance (env_get env TRACE_PARENT_COMMIT_ENV "")
        (env_get env TRACE_RUNTIME_COMMIT_ENV "") (env_get env TRACE_DEVICE_COMMIT_ENV "") in
      match RuntimeProvenance_post_init commits with
      | Raise _ => mkTraceConfig (Some raw_path) None mode (Some "schema_incompatible") None
      | Ok _ =>
          if String.eqb mode KV_RECOVERY_COMMUNICATION_MODE then
            let config := default_profile_config (env_get env TRACE_KV_RECOVERY_RUN_ID_ENV "") in
            match KVRecoveryProfileConfig_post_init config with
            | Raise _ =>
                mkTraceConfig (Some raw_path) (Some commits) mode (Some "schema_incompatible") None
            | Ok _ => mkTraceConfig (Some raw_path) (Some commits) mode None (Some config)
            end
          else mkTraceConfig (Some raw_path) (Some commits) mode None None
      end.

Definition requested (c : RuntimeTraceConfig) : bool := is_some_b (export_path c).

Definition enabled (c : RuntimeTraceConfig) : bool :=
  is_some_b (export_path c) && is_some_b (provenance c)
  && supported_mode (tc_communication_mode c)
  && (negb (String.eqb (tc_communication_mode c) KV_RECOVERY_COMMUNICATION_MODE)
      || is_some_b (kv_recovery_profile_config c))
  && negb (is_some_b (invalid_reason c)).

(** ** The facade *)

Inductive AnySink :=
| NullTraceSink (reason_code : option string)
| Exporter (owner_pid : Z) (s : JsonlTraceSink).

(** [h_detached] is what the facade let go of after a fork: the exporter object lives
    on in the child, since its own fork handler and [atexit] refer to it. *)
Record RuntimeLifecycleHooks := mkHooks {
  h_config : RuntimeTraceConfig;
  h_owner_pid : Z;
  h_sink : AnySink;
  h_pending_reasons : gset string;
  h_logged_reasons : gset string;
  h_needs_reinitialize : bool;
  h_detached : list JsonlTraceSink }.

Definition set_sink (k : AnySink) (h : RuntimeLifecycleHooks) : RuntimeLifecycleHooks :=
  mkHooks (h_config h) (h_owner_pid h) k (h_pending_reasons h) (h_logged_reasons h)
    (h_needs_reinitialize h) (h_detached h).

Definition set_reasons (pending logged : gset string) (h : RuntimeLifecycleHooks)
    : RuntimeLifecycleHooks :=
  mkHooks (h_config h) (h_owner_pid h) (h_sink h) pending logged (h_needs_reinitialize h)
    (h_detached h).

Definition set_needs_reinitialize (b : bool) (h : RuntimeLifecycleHooks)
    : RuntimeLifecycleHooks :=
  mkHooks (h_config h) (h_owner_pid h) (h_sink h) (h_pending_reasons h) (h_logged_reasons h) b
    (h_detached h).

Definition _mark_disabled_once (reason : string) (h : RuntimeLifecycleHooks)
    : RuntimeLifecycleHooks :=
  let reason := if str_in reason _DIAGNOSTIC_REASON_ORDER then reason
                else "schema_incompatible" in
  if bool_decide (reason ∈ h_logged_reasons h ∨ reason ∈ h_pending_reasons h) then h
  else set_reasons ({[reason]} ∪ h_pending_reasons h) (h_logged_reasons h) h.

(** The result is what the logger is called with, in order. *)
Definition _flush_disabled_logs (h : RuntimeLifecycleHooks)
    : list string * RuntimeLifecycleHooks :=
  let reasons := filter (λ r, r ∈ h_pending_reasons h) _DIAGNOSTIC_REASON_ORDER in
  let taken := list_to_set reasons in
  (reasons, set_reasons (h_pending_reasons h ∖ taken) (h_logged_reasons h ∪ taken) h).

Definition _log_disabled_once (reason : string) (h : RuntimeLifecycleHooks)
    : list string * RuntimeLifecycleHooks :=
  _flush_disabled_logs (_mark_disabled_once reason h).

Definition _defer_diagnostic (pid : Z) (reason : string) (h : RuntimeLifecycleHooks)
    : RuntimeLifecycleHooks :=
  match h_sink h with
  | Exporter owner s => set_sink (Exporter owner (defer_diagnostic reason (pid =? owner) s)) h
  | NullTraceSink _ => _mark_disabled_once reason h
  end.

(** ** Construction *)

(** What the file system, the identifier factory and the clock answered. *)
Record boot := mkBoot {
  b_io : bool;
  b_uuid : string;
  b_clock_domain : string;
  b_started : pyval }.

(** [JsonlTraceSink(config.export_path, config.provenance, ...)] *)
Definition construct (b : boot) (pid : Z) (c : RuntimeTraceConfig) : res JsonlTraceSink :=
  match export_path c, provenance c with
  | Some _, Some p =>
      ensure (b_io b) (OSError "exporter initialization") ;;
      initial_sink (b_uuid b) (b_clock_domain b) (tc_communication_mode c) (PInt pid)
        (b_started b) p (kv_recovery_profile_config c)
  | _, _ => Raise AssertionError
  end.

(** [RuntimeLifecycleHooks(config)], with the reasons it logs. *)
Definition init_hooks (b : boot) (pid : Z) (c : RuntimeTraceConfig)
    : list string * RuntimeLifecycleHooks :=
  let h k := mkHooks c pid k ∅ ∅ false [] in
  if negb (requested c) then ([], h (NullTraceSink None))
  else if negb (enabled c) then
    let reason := default "schema_incompatible" (invalid_reason c) in
    let '(logs, h) := _log_disabled_once reason (h (NullTraceSink None)) in
    (logs, set_sink (NullTraceSink (Some reason)) h)
  else
    match construct b pid c with
    | Ok s => ([], h (Exporter pid s))
    | Raise _ =>
        let '(logs, h) := _log_disabled_once "init_failure" (h (NullTraceSink None)) in
        (logs, set_sink (NullTraceSink (Some "init_failure")) h)
    end.

(** ** Process state *)

Definition _after_fork_child (pid : Z) (h : RuntimeLifecycleHooks) : RuntimeLifecycleHooks :=
  let detached :=
    match h_sink h with
    | Exporter _ s => [detach_after_fork_child s]
    | NullTraceSink _ => []
    end in
  mkHooks (h_config h) pid (NullTraceSink None) ∅ ∅ (enabled (h_config h))
    (h_detached h ++ detached).

Definition _ensure_process_state (pid : Z) (h : RuntimeLifecycleHooks)
    : RuntimeLifecycleHooks :=
  if pid =? h_owner_pid h then h else _after_fork_child pid h.

Definition is_exporter (k : AnySink) : bool :=
  match k with Exporter _ _ => true | NullTraceSink _ => false end.

(** The Boolean is the result; opening a shard happens here only. *)
Definition reinitialize_after_fork (b : boot) (pid : Z) (h : RuntimeLifecycleHooks)
    : bool * RuntimeLifecycleHooks :=
  let h := _ensure_process_state pid h in
  if negb (h_needs_reinitialize h) then (is_exporter (h_sink h), h)
  else if negb (enabled (h_config h)) then (false, set_needs_reinitialize false h)
  else
    match construct b pid (h_config h) with
    | Ok s => (true, set_needs_reinitialize false (set_sink (Exporter pid s) h))
    | Raise _ =>
        let h := set_sink (NullTraceSink (Some "init_failure")) h in
        (false, set_needs_reinitialize false (_log_disabled_once "init_failure" h).2)
    end.

(** ** Emission *)

(** [self._current_sink().m(...)] for a method that cannot raise. *)
Definition on_sink {A} (d : A) (m : bool → JsonlTraceSink → A * JsonlTraceSink) (pid : Z)
    (h : RuntimeLifecycleHooks) : A * RuntimeLifecycleHooks :=
  let h := _ensure_process_state pid h in
  match h_sink h with
  | NullTraceSink _ => (d, h)
  | Exporter owner s =>
      let '(a, s) := m (pid =? owner) s in (a, set_sink (Exporter owner s) h)
  end.

(** The same for a method that can: its exception becomes a diagnostic. *)
Definition on_sink_catch {A} (d : A) (m : bool → M JsonlTraceSink A) (pid : Z)
    (h : RuntimeLifecycleHooks) : A * RuntimeLifecycleHooks :=
  let '(r, h) := on_sink (Ok d) m pid h in
  match r with
  | Ok a => (a, h)
  | Raise _ => (d, _defer_diagnostic pid "serialization_failure" h)
  end.

Definition hooks_new_span_id : Z → RuntimeLifecycleHooks →
    option string * RuntimeLifecycleHooks := on_sink None new_span_id.

Definition emit_event (draft : EventDraft) (clock : res pyval) (monotonic : Z)
    : Z → RuntimeLifecycleHooks → option RecordRef * RuntimeLifecycleHooks :=
  on_sink None (λ in_owner, write_event draft in_owner clock monotonic).

Definition emit_edge (draft : EdgeDraft) (clock : res pyval) (monotonic : Z)
    : Z → RuntimeLifecycleHooks → option RecordRef * RuntimeLifecycleHooks :=
  on_sink None (λ in_owner, write_edge draft in_owner clock monotonic).

Definition emit_kv_recovery_profile (record_type : string) (timestamp_ns : pyval)
    (fields : pydict) (clock : res pyval) (monotonic : Z)
    : Z → RuntimeLifecycleHooks → option ProfileRecordRef * RuntimeLifecycleHooks :=
  on_sink_catch None (λ in_owner,
    write_kv_recovery_profile record_type timestamp_ns fields in_owner clock monotonic).

Definition hooks_drop_kv_recovery_profile (record_type : string) (timestamp_ns : pyval)
    (reason : string) (clock : res pyval) (monotonic : Z)
    : Z → RuntimeLifecycleHooks → option Z * RuntimeLifecycleHooks :=
  on_sink_catch None (λ in_owner,
    drop_kv_recovery_profile record_type timestamp_ns reason in_owner clock monotonic).

(** ** Queries *)

Definition query {A} (d : A) (f : JsonlTraceSink → A) (pid : Z) (h : RuntimeLifecycleHooks) : A :=
  match h_sink (_ensure_process_state pid h) with
  | NullTraceSink _ => d
  | Exporter _ s => f s
  end.

Definition hooks_enabled : Z → RuntimeLifecycleHooks → bool := query false (λ _, true).
Definition hooks_kv_recovery_profile_enabled (pid : Z) : RuntimeLifecycleHooks → bool :=
  query false (kv_recovery_profile_enabled true) pid.
Definition hooks_process_uuid : Z → RuntimeLifecycleHooks → option string :=
  query None (λ s, Some (process_uuid s)).
Definition hooks_clock_domain_id : Z → RuntimeLifecycleHooks → option string :=
  query None (λ s, Some (clock_domain_id s)).
Definition hooks_committed_shard_path : Z → RuntimeLifecycleHooks → bool :=
  query false committed_shard_path.
Definition hooks_committed_profile_shard_path : Z → RuntimeLifecycleHooks → bool :=
  query false committed_kv_recovery_profile_shard_path.
Definition hooks_evidence_complete : Z → RuntimeLifecycleHooks → bool :=
  query false kv_recovery_profile_evidence_complete.
Definition hooks_attempted_data_count : Z → RuntimeLifecycleHooks → Z :=
  query 0 kv_recovery_profile_attempted_data_count.
Definition hooks_snapshot : Z → RuntimeLifecycleHooks →
    list ProfileRecord * list ProfileLossInterval :=
  query ([], []) kv_recovery_profile_snapshot.

(** ** Properties *)

Lemma post_init_provenance p : is_ok (RuntimeProvenance_post_init p) =
  _HEX40 (profiler_parent_commit p) && _HEX40 (runtime_core_commit p)
  && _HEX40 (device_plugin_commit p).
Proof.
  unfold RuntimeProvenance_post_init, raise_if, ensure. simpl.
  destruct (_HEX40 (profiler_parent_commit p)); [|done].
  destruct (_HEX40 (runtime_core_commit p)); [|done].
  by destruct (_HEX40 (device_plugin_commit p)).
Qed.

Lemma post_init_run_id run_id :
  is_ok (KVRecoveryProfileConfig_post_init (default_profile_config run_id)) = _HEX32 run_id.
Proof.
  unfold KVRecoveryProfileConfig_post_init, _require_hex. simpl.
  unfold raise_v, ensure, _HEX32. by destruct (hex_match 32 run_id).
Qed.

(** Tracing is off unless it was configured completely: [from_env] yields an
    enabled configuration exactly when the export path is not blank, the
    communication mode is none or the recovery mode, the three commits are 40
    hexadecimal digits and, in the recovery mode, the run ID is 32 hexadecimal
    digits; in every other case a requested configuration carries a reason. *)
Theorem from_env_enabled_iff (env : gmap string string) :
  let mode := env_get env TRACE_COMMUNICATION_MODE_ENV "none" in
  (enabled (from_env env) = true ↔
    env_get env TRACE_EXPORT_ENV "" ≠ "" ∧
    (mode = "none" ∨ mode = KV_RECOVERY_COMMUNICATION_MODE) ∧
    _HEX40 (env_get env TRACE_PARENT_COMMIT_ENV "") = true ∧
    _HEX40 (env_get env TRACE_RUNTIME_COMMIT_ENV "") = true ∧
    _HEX40 (env_get env TRACE_DEVICE_COMMIT_ENV "") = true ∧
    (mode = KV_RECOVERY_COMMUNICATION_MODE →
      _HEX32 (env_get env TRACE_KV_RECOVERY_RUN_ID_ENV "") = true)) ∧
  (requested (from_env env) = true → enabled (from_env env) = false →
    is_Some (invalid_reason (from_env env))).
Proof.
  cbv zeta. unfold from_env.
  destruct (String.eqb _ "") eqn:Ep.
  { apply String.eqb_eq in Ep. simpl. split; [|done]. split; [done|]. by intros [? _]. }
  apply String.eqb_neq in Ep.
  generalize dependent (env_get env TRACE_EXPORT_ENV ""). intros path Hp.
  generalize (env_get env TRACE_COMMUNICATION_MODE_ENV "none"). intros mode.
  assert (supported_mode mode = true ↔ mode = "none" ∨ mode = KV_RECOVERY_COMMUNICATION_MODE)
    as Hm.
  { unfold supported_mode. rewrite str_in_spec, !elem_of_cons, elem_of_nil. tauto. }
  destruct (supported_mode mode) eqn:Em; simpl.
  2:{ split; [|by eauto]. split; [done|]. intros (_ & Hmode & _).
      by apply Hm in Hmode. }
  generalize (env_get env TRACE_PARENT_COMMIT_ENV ""),
    (env_get env TRACE_RUNTIME_COMMIT_ENV ""), (env_get env TRACE_DEVICE_COMMIT_ENV "").
  intros c1 c2 c3. pose proof (post_init_provenance (mkProvenance c1 c2 c3)) as Hc.
  cbn [profiler_parent_commit runtime_core_commit device_plugin_commit] in Hc.
  destruct (RuntimeProvenance_post_init _) as [u|]; simpl in Hc; symmetry in Hc.
  2:{ split; [|by eauto]. unfold enabled. simpl. split; [done|]. intros (_ & _ & H1 & H2 & H3 & _).
      by rewrite H1, H2, H3 in Hc. }
  apply andb_true_iff in Hc as [[? ?]%andb_true_iff ?].
  destruct (String.eqb_spec mode KV_RECOVERY_COMMUNICATION_MODE) as [E|E].
  - pose proof (post_init_run_id (env_get env TRACE_KV_RECOVERY_RUN_ID_ENV "")) as Hr.
    destruct (KVRecoveryProfileConfig_post_init _); simpl in Hr; symmetry in Hr;
      unfold enabled; cbn [export_path provenance tc_communication_mode
        kv_recovery_profile_config invalid_reason is_some_b]; rewrite Em; simpl.
    + rewrite orb_true_r. split; [|done]. split; [|done]. intros _. by split_and!; [|apply Hm|..].
    + rewrite andb_false_r. split; [|by eauto]. split; [done|]. intros (_ & _ & _ & _ & _ & Hk).
      by rewrite Hk in Hr.
  - unfold enabled. cbn [export_path provenance tc_communication_mode
      kv_recovery_profile_config invalid_reason is_some_b]. rewrite Em.
    rewrite (proj2 (String.eqb_neq _ _) E). simpl. split; [|done]. split; [|done].
    intros _. by split_and!; [|apply Hm|..].
Qed.

Definition example_env : gmap string string :=
  <[TRACE_EXPORT_ENV := " /tmp/trace "]> (<[TRACE_PARENT_COMMIT_ENV := example_trace +:+ "01234567"]>
  (<[TRACE_RUNTIME_COMMIT_ENV := example_trace +:+ "01234567"]>
  (<[TRACE_DEVICE_COMMIT_ENV := example_trace +:+ "01234567"]> ∅))).

Definition example_boot : boot := mkBoot true example_uuid example_trace (PInt 1).

Definition example_hooks : RuntimeLifecycleHooks :=
  (init_hooks example_boot 7 (from_env example_env)).2.

Lemma detach_effect s : forked s = false →
  let s' := detach_after_fork_child s in
  forked s' = true ∧ closed s' = true ∧ abandoned s' = true ∧
  queue s' = [] ∧ inflight_batch s' = [] ∧
  fd_open (base s') = false ∧ queued_bytes (base s') = 0 ∧
  ordinary_queued (base s') = 0 ∧ reserved_queued (base s') = 0 ∧
  match profile s' with
  | None => profile s = None
  | Some p => fd_open (p_lane p) = false ∧ queued_bytes (p_lane p) = 0 ∧
              ordinary_queued (p_lane p) = 0 ∧ reserved_queued (p_lane p) = 0
  end ∧
  committed_shard_path s' = false ∧ committed_kv_recovery_profile_shard_path s' = false.
Proof.
  intros Hf. unfold detach_after_fork_child. rewrite Hf.
  destruct s as [? ? ? ? [?|]]; simpl; split_and!; reflexivity.
Qed.

(** C9. A forked child never writes to the exporter it inherited. In a process other than
    the owner every emission (span ID, event, edge, profile record, profile drop) returns
    nothing; every query returns its default: not enabled, no profile, no process or
    clock identity, neither shard committed, evidence incomplete, no attempts, an empty
    snapshot. The facade has replaced the inherited exporter and detached that object,
    which is thereby closed, without descriptors, queued records or reservations, and
    commits no shard. An exporter appears again only through [reinitialize_after_fork],
    with an enabled configuration, as a fresh one constructed by the child. *)
Theorem fork_child_isolated (pid : Z) (h : RuntimeLifecycleHooks) d ed t ts fields reason
    clock mono (b : boot) :
  pid ≠ h_owner_pid h →
  let child := _after_fork_child pid h in
  h_sink child = NullTraceSink None ∧
  (hooks_new_span_id pid h = (None, child) ∧
   emit_event d clock mono pid h = (None, child) ∧
   emit_edge ed clock mono pid h = (None, child) ∧
   emit_kv_recovery_profile t ts fields clock mono pid h = (None, child) ∧
   hooks_drop_kv_recovery_profile t ts reason clock mono pid h = (None, child)) ∧
  (hooks_enabled pid h = false ∧ hooks_kv_recovery_profile_enabled pid h = false ∧
   hooks_process_uuid pid h = None ∧ hooks_clock_domain_id pid h = None ∧
   hooks_committed_shard_path pid h = false ∧
   hooks_committed_profile_shard_path pid h = false ∧
   hooks_evidence_complete pid h = false ∧ hooks_attempted_data_count pid h = 0 ∧
   hooks_snapshot pid h = ([], [])) ∧
  (∀ owner s, h_sink h = Exporter owner s → forked s = false →
     ∃ s', h_detached child = h_detached h ++ [s'] ∧
       forked s' = true ∧ closed s' = true ∧ queue s' = [] ∧ inflight_batch s' = [] ∧
       fd_open (base s') = false ∧ ordinary_queued (base s') = 0 ∧
       reserved_queued (base s') = 0 ∧ queued_bytes (base s') = 0 ∧
       (∀ p, profile s' = Some p → fd_open (p_lane p) = false ∧ queued_bytes (p_lane p) = 0 ∧
          ordinary_queued (p_lane p) = 0 ∧ reserved_queued (p_lane p) = 0) ∧
       committed_shard_path s' = false ∧
       committed_kv_recovery_profile_shard_path s' = false) ∧
  (reinitialize_after_fork b pid h).1 =
    enabled (h_config h) && is_ok (construct b pid (h_config h)) ∧
  (∀ owner s, h_sink (reinitialize_after_fork b pid h).2 = Exporter owner s →
     owner = pid ∧ construct b pid (h_config h) = Ok s).
Proof.
  intros Hpid. cbv zeta.
  assert (_ensure_process_state pid h = _after_fork_child pid h) as E.
  { unfold _ensure_process_state. by rewrite (proj2 (Z.eqb_neq _ _) Hpid). }
  unfold hooks_new_span_id, emit_event, emit_edge, emit_kv_recovery_profile,
    hooks_drop_kv_recovery_profile, on_sink_catch, on_sink, hooks_enabled,
    hooks_kv_recovery_profile_enabled, hooks_process_uuid, hooks_clock_domain_id,
    hooks_committed_shard_path, hooks_committed_profile_shard_path,
    hooks_evidence_complete, hooks_attempted_data_count, hooks_snapshot, query,
    reinitialize_after_fork.
  rewrite E. split; [done|]. split; [done|]. split; [done|]. split; [|split].
  - intros owner s Hk Hf. exists (detach_after_fork_child s).
    pose proof (detach_effect s Hf) as
      (H1 & H2 & H3 & H4 & H5 & H6 & H7 & H8 & H9 & Hp & H10 & H11).
    split; [unfold _after_fork_child; simpl; by rewrite Hk|].
    split_and!; try done. intros p Ep. by rewrite Ep in Hp.
  - simpl. destruct (enabled (h_config h)); simpl; [|done].
    by destruct (construct b pid (h_config h)).
  - intros owner s. simpl. destruct (enabled (h_config h)); simpl; [|done].
    destruct (construct b pid (h_config h)) as [s'|]; simpl.
    + by intros [= <- <-].
    + unfold _log_disabled_once, _flush_disabled_logs, _mark_disabled_once.
      by case_bool_decide.
Qed.

Lemma fork_child_isolated_witness :
  is_exporter (h_sink example_hooks) = true ∧
  (emit_event example_draft (Ok (PInt 5)) 5 8 example_hooks).1 = None ∧
  length (h_detached (_after_fork_child 8 example_hooks)) = 1%nat ∧
  (reinitialize_after_fork example_boot 8 example_hooks).1 = true.
Proof.
  assert (is_exporter (h_sink example_hooks) = true) as H1 by (vm_compute; reflexivity).
  assert (8 ≠ h_owner_pid example_hooks) as H2 by (vm_compute; discriminate).
  assert (enabled (h_config example_hooks) &&
    is_ok (construct example_boot 8 (h_config example_hooks)) = true) as H3
    by (vm_compute; reflexivity).
  assert (length (h_detached (_after_fork_child 8 example_hooks)) = 1%nat) as H4
    by (vm_compute; reflexivity).
  revert H1 H2 H3 H4. generalize example_hooks. intros h H1 H2 H3 H4. split; [exact H1|].
  destruct (fork_child_isolated 8 h example_draft (mkEdgeDraft "" "" "" "" "") "" PNone [] ""
    (Ok (PInt 5)) 5 example_boot H2) as (_ & (_ & He & _) & _ & _ & Hr & _).
  split; [rewrite He; reflexivity|]. split; [exact H4|]. rewrite Hr. exact H3.
Defined.
