(* ===== verification/HooksInterface.v ===== *)
(** * What the lifecycle bridge needs from the facade

    [LifecycleHooks] is the part of [RuntimeLifecycleHooks] that
    kv_recovery_runtime.py calls through [RuntimeBaseLifecycleBridge], and
    [LifecycleHooksLaws] what the bridge relies on: an accepted event has a
    canonical identifier and a uint64 timestamp.  The facade of Hooks.v is an
    instance.  [Recorded] adds a log of the accepted calls to any instance. *)

From Stdlib Require Import ZArith Lia Ascii String.
From stdpp Require Import base list strings gmap.
From S2P Require Import Prelude PyValue Sha256 RuntimeProtocol ProfileProtocol SinkState.
From S2P Require Import TraceSink SinkSteps Hooks.

Class LifecycleHooks (H : Type) := {
  lh_new_span_id : H → option string * H;
  lh_emit_event : EventDraft → H → option RecordRef * H;
  lh_emit_edge : EdgeDraft → H → option RecordRef * H }.

Class LifecycleHooksLaws (H : Type) `{LifecycleHooks H} := {
  lh_event_id d h ref h' :
    lh_emit_event d h = (Some ref, h') → _EVENT_ID (record_id ref) = true;
  lh_event_timestamp d h ref h' t :
    lh_emit_event d h = (Some ref, h') → ev_timestamp_ns d = PInt t → 0 ≤ t ≤ _UINT64_MAX }.

(** ** The facade is an instance *)

(** The calling process and the readings of the clocks are part of the state. *)
Record LiveHooks := mkLive {
  lv_hooks : RuntimeLifecycleHooks;
  lv_pid : Z;
  lv_clock : nat → res pyval * Z;
  lv_tick : nat }.

Definition live {A} (f : res pyval → Z → Z → RuntimeLifecycleHooks → A * RuntimeLifecycleHooks)
    (l : LiveHooks) : A * LiveHooks :=
  let '(clock, monotonic) := lv_clock l (lv_tick l) in
  let '(a, h) := f clock monotonic (lv_pid l) (lv_hooks l) in
  (a, mkLive h (lv_pid l) (lv_clock l) (S (lv_tick l))).

#[export] Instance live_hooks : LifecycleHooks LiveHooks := {|
  lh_new_span_id := live (λ _ _, hooks_new_span_id);
  lh_emit_event d := live (emit_event d);
  lh_emit_edge d := live (emit_edge d) |}.

(** What an accepted draft went through. *)
Lemma write_base_result t r encode owner clock mono s ref :
  (write_base t r encode owner clock mono s).1 = Some ref →
  ∃ seq ts raw, encode seq ts = Ok (raw, ref).
Proof.
  unfold write_base. destruct (_usable_in_current_process owner s) as [u s0].
  destruct (negb u); [done|]. destruct (_ || _); [done|].
  unfold _allocate_record_seq_locked.
  destruct (_producer_clock_or_drop_locked _ _ _ _ _) as [[ts|] s1]; [|done].
  destruct (writer_failed s1); [done|].
  destruct (encode _ ts) as [[raw ref']|] eqn:E; [|done].
  unfold admit_or_drop. destruct (negb _); [done|].
  destruct (_enqueue_locked _ _) as [[] s2]; simpl; [|done]. intros [= ->]. eauto.
Qed.

Lemma build_event_record_ref d uuid dom seq ts mode record ref :
  build_event_record d uuid dom seq ts mode = Ok (record, ref) →
  record_id ref = make_id uuid "e" seq ∧ hex_match 32 uuid = true ∧ 0 ≤ seq ≤ _UINT64_MAX ∧
  ∀ t, ev_timestamp_ns d = PInt t → 0 ≤ t ≤ _UINT64_MAX.
Proof.
  unfold build_event_record. intros H.
  apply bind_ok in H as (u1 & H1 & H). apply _require_hex32_ok in H1 as (? & [= <-] & Hu).
  apply bind_ok in H as (u2 & _ & H).
  apply bind_ok in H as (u3 & H3 & H). apply _require_uint_ok in H3 as (? & [= <-] & Hs).
  apply bind_ok in H as (u4 & H4 & [= _ <-]). split_and!; try done; try apply Hs.
  all: intros t Ht; rewrite Ht in H4; cbn [is_none] in H4; unfold _validate_event_draft in H4;
    apply bind_ok in H4 as (? & ? & H4); apply bind_ok in H4 as (? & H4 & ?);
    apply _require_uint_ok in H4 as (z & [= <-] & Hz); lia.
Qed.

Lemma emit_event_result d clock mono pid h ref h' :
  emit_event d clock mono pid h = (Some ref, h') →
  ∃ uuid dom mode seq ts record,
    build_event_record d uuid dom seq ts mode = Ok (record, ref).
Proof.
  unfold emit_event, on_sink. destruct (h_sink _) as [|owner s]; [done|].
  pose proof (write_base_result "event" (str_in (ev_event_name d) TERMINAL_EVENTS)
    (λ seq ts,
      '(record, reference) ← build_event_record d (process_uuid s) (clock_domain_id s)
        seq ts (communication_mode s);
      raw ← canonical_json_line record;
      Ok (raw, reference)) (pid =? owner) clock mono s) as Hw.
  unfold write_event. destruct (write_base _ _ _ _ _ _ s) as [r s']. intros [= -> _].
  destruct (Hw ref eq_refl) as (seq & ts & raw & He).
  apply bind_ok in He as ([record ref'] & Hb & He). inv_ok. simplify_eq. by do 6 eexists.
Qed.

Lemma live_emit_event d (l l' : LiveHooks) ref :
  lh_emit_event d l = (Some ref, l') →
  ∃ uuid dom mode seq ts record,
    build_event_record d uuid dom seq ts mode = Ok (record, ref).
Proof.
  simpl. unfold live. destruct (lv_clock l (lv_tick l)) as [clock mono].
  destruct (emit_event d clock mono (lv_pid l) (lv_hooks l)) as [r h] eqn:E.
  intros [= -> _]. by eapply emit_event_result.
Qed.

#[export] Instance live_hooks_laws : LifecycleHooksLaws LiveHooks.
Proof.
  split.
  - intros d h ref h' H. destruct (live_emit_event _ _ _ _ H) as (uuid & dom & mode & seq & ts & r & Hb).
    apply build_event_record_ref in Hb as (-> & Hu & Hs & _). apply make_id_match; [done|].
    unfold _UINT64_MAX in Hs. lia.
  - intros d h ref h' t H Ht.
    destruct (live_emit_event _ _ _ _ H) as (uuid & dom & mode & seq & ts & r & Hb).
    apply build_event_record_ref in Hb as (_ & _ & _ & Hts). by apply Hts.
Qed.

(** ** A log of the accepted calls *)

Inductive emission :=
| EmSpan (span_id : string)
| EmEvent (d : EventDraft) (event_id : string)
| EmEdge (d : EdgeDraft).

Record Recorded (H : Type) := mkRecorded { rec_hooks : H; rec_log : list emission }.
Arguments mkRecorded {_} _ _.
Arguments rec_hooks {_} _.
Arguments rec_log {_} _.

Definition record_call {H A} (entry : A → emission) (f : H → option A * H) (r : Recorded H)
    : option A * Recorded H :=
  let '(a, h) := f (rec_hooks r) in
  (a, mkRecorded h (rec_log r ++ match a with Some a => [entry a] | None => [] end)).

#[export] Instance recorded_hooks {H} `{LifecycleHooks H} : LifecycleHooks (Recorded H) := {|
  lh_new_span_id := record_call EmSpan lh_new_span_id;
  lh_emit_event d := record_call (λ ref, EmEvent d (record_id ref)) (lh_emit_event d);
  lh_emit_edge d := record_call (λ _, EmEdge d) (lh_emit_edge d) |}.

#[export] Instance recorded_hooks_laws {H} `{LifecycleHooksLaws H} :
  LifecycleHooksLaws (Recorded H).
Proof.
  split.
  - intros d h ref h'. simpl. unfold record_call.
    destruct (lh_emit_event d (rec_hooks h)) as [a h1] eqn:E. intros [= -> _].
    by eapply lh_event_id.
  - intros d h ref h' t. simpl. unfold record_call.
    destruct (lh_emit_event d (rec_hooks h)) as [a h1] eqn:E. intros [= -> _].
    by eapply lh_event_timestamp.
Qed.
