(* ===== verification/LifecycleBridge.v ===== *)
(** * kv_recovery_runtime.py: [RuntimeBaseLifecycleBridge]

    The bridge turns scheduler callbacks into base lifecycle events, keeps the
    references of the recovery boundaries it emitted and links them by
    program-order edges.  Its state is a record; every method is a state passing
    function over the bridge and over any [LifecycleHooks].  A method of the
    source holds one lock while it runs; [emit_runtime_preempted] and
    [emit_runtime_resumed], which take it more than once, are one step here. *)

From Stdlib Require Import ZArith Lia Ascii String.
From stdpp Require Import base list strings gmap.
From S2P Require Import Prelude PyValue Sha256 RuntimeProtocol ProfileProtocol SinkState.
From S2P Require Import TraceSink SinkSteps Hooks HooksInterface.

(** ** Identities *)

Definition _is_uint64 (z : Z) : bool := (0 <=? z) && (z <=? _UINT64_MAX).

Definition _is_bounded_printable_ascii (s : string) (max_bytes : Z) : bool :=
  printable_ascii s && (1 <=? Z.of_nat (String.length s))
  && (Z.of_nat (String.length s) <=? max_bytes).

Record RequestLifecycleIdentity := mkIdentity {
  ri_trace_id : string;
  ri_engine_lifecycle_id : string;
  ri_runtime_request_id : string;
  ri_sample_index : Z }.

#[export] Instance identity_eq_dec : EqDecision RequestLifecycleIdentity.
Proof. solve_decision. Defined.

Definition RequestLifecycleIdentity_post_init (i : RequestLifecycleIdentity) : res unit :=
  ensure (_HEX32 (ri_trace_id i))
    (ValueError "trace_id must be 32 lowercase hexadecimal characters") ;;
  ensure (String.eqb (ri_engine_lifecycle_id i)
            (ri_trace_id i +:+ ":e:" +:+ str_of_Z (ri_sample_index i)))
    (ValueError "engine_lifecycle_id does not match trace/sample") ;;
  ensure (_is_bounded_printable_ascii (ri_runtime_request_id i) MAX_RUNTIME_REQUEST_ID_BYTES)
    (ValueError "runtime_request_id is not bounded printable ASCII") ;;
  ensure (ri_sample_index i =? 0) (ValueError "KV-recovery v1alpha1 requires sample_index=0").

Record BaseEventRef := mkEventRef { be_event_id : string; be_timestamp_ns : Z }.

#[export] Instance event_ref_eq_dec : EqDecision BaseEventRef.
Proof. solve_decision. Defined.

(** [BaseEventRef(event_id, timestamp_ns)] with its [__post_init__]. *)
Definition new_event_ref (event_id : string) (timestamp_ns : Z) : res BaseEventRef :=
  ensure (_EVENT_ID event_id) (ValueError "event_id must be a canonical base event ID") ;;
  ensure (_is_uint64 timestamp_ns) (ValueError "timestamp_ns must be a uint64") ;;
  Ok (mkEventRef event_id timestamp_ns).

(** ** State *)

Record _EmittedBaseEpisode := mkEpisode {
  ep_preempted : BaseEventRef;
  ep_requeued : BaseEventRef;
  ep_queue_span_id : string;
  ep_admission_started : option BaseEventRef;
  ep_admission_span_id : option string;
  ep_resumed : option BaseEventRef;
  ep_first_compute : option BaseEventRef }.

Record _RuntimeRequestState := mkRequestState {
  rs_identity : RequestLifecycleIdentity;
  rs_queue_started : BaseEventRef;
  rs_queue_span_id : string;
  rs_active_started : option BaseEventRef;
  rs_active_span_id : option string;
  rs_active_compute_kind : option string;
  rs_preemption_epoch : Z;
  rs_prompt_tokens_computed : Z;
  rs_prefill_chunk_count : Z }.

Record Bridge := mkBridge {
  br_capacity : Z;
  br_identities : gmap string RequestLifecycleIdentity;
  br_episodes : gmap (string * Z) _EmittedBaseEpisode;
  br_states : gmap string _RuntimeRequestState }.

Definition initial_bridge (capacity : Z) : res Bridge :=
  ensure (1 <=? capacity) (ValueError "capacity must be a positive integer") ;;
  Ok (mkBridge capacity ∅ ∅ ∅).

Definition set_identity (r : string) (i : RequestLifecycleIdentity) (b : Bridge) : Bridge :=
  mkBridge (br_capacity b) (<[r := i]> (br_identities b)) (br_episodes b) (br_states b).
Definition set_episode (k : string * Z) (e : _EmittedBaseEpisode) (b : Bridge) : Bridge :=
  mkBridge (br_capacity b) (br_identities b) (<[k := e]> (br_episodes b)) (br_states b).
Definition set_state (r : string) (s : _RuntimeRequestState) (b : Bridge) : Bridge :=
  mkBridge (br_capacity b) (br_identities b) (br_episodes b) (<[r := s]> (br_states b)).

(** Forget a request: the last block of [request_terminal] and
    [emit_runtime_terminal]. *)
Definition retire (r : string) (b : Bridge) : Bridge :=
  mkBridge (br_capacity b) (delete r (br_identities b))
    (filter (λ kv, kv.1.1 ≠ r) (br_episodes b)) (delete r (br_states b)).

(** ** Drafts *)

Definition root_lifecycle (trace_id : string) : string := trace_id +:+ ":r".

(** [EventDraft] of an engine event with the fields the bridge leaves out. *)
Definition engine_event (i : RequestLifecycleIdentity) (component name : string)
    (timestamp_ns epoch : Z) (start_span end_span : option string) (closing : list string)
    (metadata : option pydict) : EventDraft :=
  mkEventDraft (ri_trace_id i) (ri_engine_lifecycle_id i) (Some (root_lifecycle (ri_trace_id i)))
    "engine_sample" component name (PInt timestamp_ns) (PInt epoch) start_span end_span closing
    (PInt (ri_sample_index i)) PNone PNone None metadata.

Definition program_edge (i : RequestLifecycleIdentity) (from_id to_id : string) : EdgeDraft :=
  mkEdgeDraft (ri_trace_id i) from_id to_id "program_order" "instrumented_execution_context".

Definition prompt_metadata (total cached to_compute : Z) : pydict :=
  [("prompt_tokens_total", PInt total); ("prompt_tokens_cached", PInt cached);
   ("prompt_tokens_to_compute", PInt to_compute)].

Definition prefill_metadata (computed chunks : Z) : pydict :=
  [("prompt_tokens_computed", PInt computed); ("prefill_chunk_count", PInt chunks)].

(** [min(max(0, cached), total - 1)] *)
Definition clamp_cached (cached total : Z) : Z := Z.min (Z.max 0 cached) (total - 1).

(** ** Methods

    A method acts on the bridge and the hooks, and gives up when a callee returns
    [None]: [Try] is the state monad of such computations.  A method whose result
    is a Boolean returns [Some tt] for [True] and [None] for [False]. *)

Definition Try (S A : Type) : Type := S → res (option A) * S.

Definition tret {S A} (a : A) : Try S A := λ s, (Ok (Some a), s).

Definition tbind {S A B} (m : Try S A) (f : A → Try S B) : Try S B := λ s,
  match m s with
  | (Ok (Some a), s') => f a s'
  | (Ok None, s') => (Ok None, s')
  | (Raise e, s') => (Raise e, s')
  end.

Declare Scope try_scope.
Delimit Scope try_scope with try.
Notation "x <- m ; k" := (tbind m (λ x, k))
  (at level 100, m at next level, right associativity) : try_scope.
Notation "m ;; k" := (tbind m (λ _, k)) (at level 100, right associativity) : try_scope.

(** [if not b: return None] *)
Definition proceed {S} (b : bool) : Try S unit := λ s, (Ok (if b then Some tt else None), s).

(** [x = f(); if x is None: return None] for a lookup *)
Definition found {S A} (o : option A) : Try S A := λ s, (Ok o, s).

(** [x = f()], tested later *)
Definition attempt {S A} (m : Try S A) : Try S (option A) := λ s,
  match m s with (Ok o, s') => (Ok (Some o), s') | (Raise e, s') => (Raise e, s') end.

(** A constructor that may raise *)
Definition built {S A} (r : res A) : Try S A := λ s,
  (match r with Ok a => Ok (Some a) | Raise e => Raise e end, s).

Section methods.
Context {H : Type} `{LifecycleHooks H}.

Definition tget : Try (Bridge * H) Bridge := λ s, (Ok (Some s.1), s).

Definition tmodify (f : Bridge → Bridge) : Try (Bridge * H) unit := λ s,
  (Ok (Some tt), (f s.1, s.2)).

Definition hook {A} (f : H → option A * H) : Try (Bridge * H) A := λ s,
  let '(o, h) := f s.2 in (Ok o, (s.1, h)).

Definition new_span : Try (Bridge * H) string := hook lh_new_span_id.
Definition event (d : EventDraft) : Try (Bridge * H) RecordRef := hook (lh_emit_event d).
Definition edge (i : RequestLifecycleIdentity) (from_id to_id : string)
  : Try (Bridge * H) RecordRef := hook (lh_emit_edge (program_edge i from_id to_id)).

Local Open Scope try_scope.

Definition register_request (identity : RequestLifecycleIdentity) : Try (Bridge * H) unit :=
  b <- tget ;
  match br_identities b !! ri_runtime_request_id identity with
  | Some current => proceed (bool_decide (current = identity))
  | None =>
      proceed (Z.of_nat (size (br_identities b)) <? br_capacity b) ;;
      tmodify (set_identity (ri_runtime_request_id identity) identity)
  end.

(** [f"{run_id}\0{runtime_request_id}".encode("ascii")], hashed *)
Definition runtime_trace_id (run_id request : string) : res string :=
  let text := run_id +:+ String Ascii.zero request in
  if str_forall (λ c, code c <? 128) text then Ok (str_take 32 (sha256_hexdigest text))
  else Raise (ValueError "'ascii' codec can't encode character").

Definition runtime_identity (trace_id request : string) : res RequestLifecycleIdentity :=
  let i := mkIdentity trace_id (trace_id +:+ ":e:0") request 0 in
  match RequestLifecycleIdentity_post_init i with Ok _ => Ok i | Raise e => Raise e end.

Definition register_runtime_request (run_id request : string) (timestamp_ns : Z)
    : Try (Bridge * H) unit :=
  proceed (_is_bounded_printable_ascii request MAX_RUNTIME_REQUEST_ID_BYTES) ;;
  trace_id <- built (runtime_trace_id run_id request) ;
  identity <- built (runtime_identity trace_id request) ;
  b <- tget ;
  match br_states b !! request with
  | Some current => proceed (bool_decide (rs_identity current = identity))
  | None =>
      proceed (Z.of_nat (size (br_identities b)) <? br_capacity b) ;;
      queue_span_id <- new_span ;
      emitted <- event (engine_event identity "engine_client" "queued" timestamp_ns 0
        (Some queue_span_id) None [] None) ;
      queued <- built (new_event_ref (record_id emitted) timestamp_ns) ;
      tmodify (λ b, set_state request
        (mkRequestState identity queued queue_span_id None None None 0 0 0)
        (set_identity request identity b))
  end.

Definition is_compute_kind (kind : string) : bool := str_in kind ["prefill"; "decode"].

(** The two events and the two edges of a scheduler step that starts a span. *)
Definition start_phase (i : RequestLifecycleIdentity) (closing : EventDraft) (name : string)
    (timestamp_ns epoch : Z) (from_id : string)
    : Try (Bridge * H) (BaseEventRef * string) :=
  closed <- attempt (event closing) ;
  span <- attempt new_span ;
  closed <- found closed ;
  span_id <- found span ;
  started <- event (engine_event i "engine_core" name timestamp_ns epoch
    (Some span_id) None [] None) ;
  _ <- edge i from_id (record_id closed) ;
  _ <- edge i (record_id closed) (record_id started) ;
  active <- built (new_event_ref (record_id started) timestamp_ns) ;
  tret (active, span_id).

Definition set_active (active : BaseEventRef) (span_id kind : string) (computed chunks : Z)
    (s : _RuntimeRequestState) : _RuntimeRequestState :=
  mkRequestState (rs_identity s) (rs_queue_started s) (rs_queue_span_id s) (Some active)
    (Some span_id) (Some kind) (rs_preemption_epoch s) computed chunks.

Definition set_progress (computed chunks : Z) (s : _RuntimeRequestState)
    : _RuntimeRequestState :=
  mkRequestState (rs_identity s) (rs_queue_started s) (rs_queue_span_id s)
    (rs_active_started s) (rs_active_span_id s) (rs_active_compute_kind s)
    (rs_preemption_epoch s) computed chunks.

(** [state.prompt_tokens_computed = min(...)] and the chunk counter *)
Definition continue_phase (request kind : string) (scheduled total : Z)
    (s : _RuntimeRequestState) : Try (Bridge * H) unit :=
  tmodify (set_state request (set_progress
    (Z.min total (rs_prompt_tokens_computed s + scheduled))
    (if String.eqb kind "prefill" then rs_prefill_chunk_count s + 1
     else rs_prefill_chunk_count s) s)).

Definition emit_runtime_scheduled (request : string) (timestamp_ns : Z) (kind : string)
    (scheduled total cached : Z) : Try (Bridge * H) unit :=
  b <- tget ;
  s <- found (br_states b !! request) ;
  proceed (is_compute_kind kind && (1 <=? scheduled) && (1 <=? total)) ;;
  let cached := clamp_cached cached total in
  let i := rs_identity s in
  let epoch := rs_preemption_epoch s in
  match rs_active_started s with
  | Some active =>
      if bool_decide (rs_active_compute_kind s = Some kind) then
        continue_phase request kind scheduled total s
      else
        proceed (bool_decide (rs_active_compute_kind s = Some "prefill")
                 && String.eqb kind "decode") ;;
        span <- found (rs_active_span_id s) ;
        started <- start_phase i
          (engine_event i "engine_core" "prefill_done" timestamp_ns epoch None (Some span) []
            (Some (prefill_metadata (rs_prompt_tokens_computed s)
                     (Z.max 1 (rs_prefill_chunk_count s)))))
          "decode_started" timestamp_ns epoch (be_event_id active) ;
        continue_phase request kind scheduled total
          (set_active started.1 started.2 "decode" (rs_prompt_tokens_computed s)
             (rs_prefill_chunk_count s) s)
  | None =>
      started <- start_phase i
        (engine_event i "engine_core" "scheduled" timestamp_ns epoch None
          (Some (rs_queue_span_id s)) [] (Some (prompt_metadata total cached (total - cached))))
        (kind +:+ "_started") timestamp_ns epoch (be_event_id (rs_queue_started s)) ;
      tmodify (set_state request (set_active started.1 started.2 kind
        (Z.min total (cached + scheduled)) (if String.eqb kind "prefill" then 1 else 0) s))
  end.

Definition emit_preempted_and_requeued (request : string) (epoch timestamp_ns : Z)
    (active_event_id active_span : string) (computed chunks : Z)
    : Try (Bridge * H) BaseEventRef :=
  b <- tget ;
  i <- found (br_identities b !! request) ;
  proceed ((1 <=? epoch) && negb (bool_decide (is_Some (br_episodes b !! (request, epoch))))
           && (Z.of_nat (size (br_episodes b)) <? br_capacity b)) ;;
  queue_span_id <- new_span ;
  preempted <- event (engine_event i "engine_core" "preempted" timestamp_ns (epoch - 1) None
    (Some active_span) [] (Some (prefill_metadata computed chunks))) ;
  _ <- edge i active_event_id (record_id preempted) ;
  requeued <- event (engine_event i "engine_core" "requeued" timestamp_ns epoch
    (Some queue_span_id) None [] None) ;
  _ <- edge i (record_id preempted) (record_id requeued) ;
  preempted_ref <- built (new_event_ref (record_id preempted) timestamp_ns) ;
  requeued_ref <- built (new_event_ref (record_id requeued) timestamp_ns) ;
  tmodify (set_episode (request, epoch)
    (mkEpisode preempted_ref requeued_ref queue_span_id None None None None)) ;;
  tret preempted_ref.

(** The second block of [emit_runtime_preempted] *)
Definition requeue_state (e : _EmittedBaseEpisode) (epoch : Z) (s : _RuntimeRequestState)
    : _RuntimeRequestState :=
  mkRequestState (rs_identity s) (ep_requeued e) (ep_queue_span_id e) None None None epoch 0 0.

Definition emit_runtime_preempted (request : string) (epoch timestamp_ns : Z)
    : Try (Bridge * H) BaseEventRef :=
  b <- tget ;
  s <- found (br_states b !! request) ;
  active <- found (rs_active_started s) ;
  span <- found (rs_active_span_id s) ;
  result <- emit_preempted_and_requeued request epoch timestamp_ns (be_event_id active) span
    (rs_prompt_tokens_computed s) (Z.max 1 (rs_prefill_chunk_count s)) ;
  b <- tget ;
  match br_states b !! request, br_episodes b !! (request, epoch) with
  | Some s, Some e => tmodify (set_state request (requeue_state e epoch s)) ;; tret result
  | _, _ => tret result
  end.

Definition request_identity (request : string) : Try (Bridge * H) RequestLifecycleIdentity :=
  b <- tget ;
  found (br_identities b !! request).

Definition emit_admission_started (request : string) (epoch timestamp_ns : Z)
    : Try (Bridge * H) BaseEventRef :=
  b <- tget ;
  i <- found (br_identities b !! request) ;
  e <- found (br_episodes b !! (request, epoch)) ;
  proceed (negb (is_some_b (ep_admission_started e))) ;;
  span_id <- new_span ;
  emitted <- event (engine_event i "engine_core" "admission_started" timestamp_ns epoch
    (Some span_id) (Some (ep_queue_span_id e)) [] None) ;
  _ <- edge i (be_event_id (ep_requeued e)) (record_id emitted) ;
  result <- built (new_event_ref (record_id emitted) timestamp_ns) ;
  tmodify (set_episode (request, epoch)
    (mkEpisode (ep_preempted e) (ep_requeued e) (ep_queue_span_id e) (Some result)
       (Some span_id) (ep_resumed e) (ep_first_compute e))) ;;
  tret result.

Definition emit_runtime_admission_started :
  string → Z → Z → Try (Bridge * H) BaseEventRef := emit_admission_started.

Definition emit_resumed (request : string) (epoch timestamp_ns total cached to_compute : Z)
    : Try (Bridge * H) BaseEventRef :=
  b <- tget ;
  i <- found (br_identities b !! request) ;
  e <- found (br_episodes b !! (request, epoch)) ;
  admission <- found (ep_admission_started e) ;
  span <- found (ep_admission_span_id e) ;
  proceed (negb (is_some_b (ep_resumed e))) ;;
  emitted <- event (engine_event i "engine_core" "resumed" timestamp_ns epoch None (Some span)
    [] (Some (prompt_metadata total cached to_compute))) ;
  _ <- edge i (be_event_id admission) (record_id emitted) ;
  result <- built (new_event_ref (record_id emitted) timestamp_ns) ;
  tmodify (set_episode (request, epoch)
    (mkEpisode (ep_preempted e) (ep_requeued e) (ep_queue_span_id e) (ep_admission_started e)
       (ep_admission_span_id e) (Some result) (ep_first_compute e))) ;;
  tret result.

Definition emit_runtime_resumed (request : string) (epoch timestamp_ns total cached : Z)
    : Try (Bridge * H) BaseEventRef :=
  proceed (1 <=? total) ;;
  let cached := clamp_cached cached total in
  result <- emit_resumed request epoch timestamp_ns total cached (total - cached) ;
  b <- tget ;
  match br_states b !! request with
  | Some s => tmodify (set_state request (set_progress cached (rs_prefill_chunk_count s) s)) ;;
              tret result
  | None => tret result
  end.

Definition emit_first_compute (request : string) (epoch timestamp_ns : Z) (kind : string)
    : Try (Bridge * H) BaseEventRef :=
  b <- tget ;
  i <- found (br_identities b !! request) ;
  e <- found (br_episodes b !! (request, epoch)) ;
  resumed <- found (ep_resumed e) ;
  proceed (negb (is_some_b (ep_first_compute e)) && is_compute_kind kind) ;;
  span_id <- new_span ;
  emitted <- event (engine_event i "engine_core" (kind +:+ "_started") timestamp_ns epoch
    (Some span_id) None [] None) ;
  _ <- edge i (be_event_id resumed) (record_id emitted) ;
  result <- built (new_event_ref (record_id emitted) timestamp_ns) ;
  tmodify (set_episode (request, epoch)
    (mkEpisode (ep_preempted e) (ep_requeued e) (ep_queue_span_id e) (ep_admission_started e)
       (ep_admission_span_id e) (ep_resumed e) (Some result))) ;;
  match br_states b !! request with
  | Some s =>
      tmodify (set_state request (set_active result span_id kind (rs_prompt_tokens_computed s)
        (if String.eqb kind "prefill" then rs_prefill_chunk_count s + 1
         else rs_prefill_chunk_count s) s)) ;;
      tret result
  | None => tret result
  end.

(** The four lookups [preempted_event], [admission_started_event],
    [resumed_event] and [first_compute_event] *)
Definition episode_event (field : _EmittedBaseEpisode → option BaseEventRef)
    (request : string) (epoch : Z) : Try (Bridge * H) BaseEventRef :=
  b <- tget ;
  e <- found (br_episodes b !! (request, epoch)) ;
  found (field e).

Definition preempted_event := episode_event (λ e, Some (ep_preempted e)).
Definition admission_started_event := episode_event ep_admission_started.
Definition resumed_event := episode_event ep_resumed.
Definition first_compute_event := episode_event ep_first_compute.

Definition request_terminal (request : string) : Try (Bridge * H) unit :=
  tmodify (retire request).

Definition terminal_events (cause : string) : option string :=
  if String.eqb cause "complete" then Some "generation_done"
  else if String.eqb cause "explicit_cancel" then Some "aborted"
  else if str_in cause ["client_disconnect"; "client_timeout"] then Some "cancelled"
  else if str_in cause ["engine_failure"; "error"] then Some "error"
  else None.

(** [a or b] on strings *)
Definition str_or (a : option string) (b : string) : string :=
  match a with
  | Some a => if String.eqb a "" then b else a
  | None => b
  end.

(** The branch of [emit_runtime_terminal] for a completed generation *)
Definition terminal_done (s : _RuntimeRequestState) (cause : string)
    (timestamp_ns generated : Z) : Try (Bridge * H) BaseEventRef :=
  proceed (1 <=? generated) ;;
  active <- found (rs_active_started s) ;
  span <- found (rs_active_span_id s) ;
  kind <- found (rs_active_compute_kind s) ;
  proceed (is_compute_kind kind) ;;
  let i := rs_identity s in
  let epoch := rs_preemption_epoch s in
  completed <- event (engine_event i "engine_core" (kind +:+ "_done") timestamp_ns epoch None
    (Some span) [] (Some (if String.eqb kind "prefill" then
      prefill_metadata (rs_prompt_tokens_computed s) (Z.max 1 (rs_prefill_chunk_count s))
      else []))) ;
  emitted <- event (engine_event i "engine_core" "generation_done" timestamp_ns epoch None None
    [] (Some [("terminal_cause", PStr cause); ("generated_tokens_total", PInt generated)])) ;
  first_edge <- attempt (edge i (be_event_id active) (record_id completed)) ;
  second_edge <- attempt (edge i (record_id completed) (record_id emitted)) ;
  _ <- found first_edge ;
  _ <- found second_edge ;
  built (new_event_ref (record_id emitted) timestamp_ns).

(** The branch for the abnormal terminals *)
Definition terminal_abnormal (s : _RuntimeRequestState) (cause name : string)
    (timestamp_ns : Z) : Try (Bridge * H) BaseEventRef :=
  let i := rs_identity s in
  emitted <- event (engine_event i "engine_core" name timestamp_ns (rs_preemption_epoch s) None
    None [str_or (rs_active_span_id s) (rs_queue_span_id s)]
    (Some [("terminal_cause", PStr cause)])) ;
  _ <- edge i (be_event_id (default (rs_queue_started s) (rs_active_started s)))
    (record_id emitted) ;
  built (new_event_ref (record_id emitted) timestamp_ns).

Definition emit_runtime_terminal (request cause : string) (timestamp_ns generated : Z)
    : Try (Bridge * H) BaseEventRef :=
  name <- found (terminal_events cause) ;
  proceed (_is_uint64 timestamp_ns) ;;
  b <- tget ;
  s <- found (br_states b !! request) ;
  result <- attempt (if String.eqb name "generation_done"
                     then terminal_done s cause timestamp_ns generated
                     else terminal_abnormal s cause name timestamp_ns) ;
  tmodify (retire request) ;;
  found result.
End methods.
