(* ===== verification/BridgeInvariant.v ===== *)
(** * The lifecycle bridge: what every retained boundary rests on

    A weakest precondition for the bridge's methods over recorded hooks, and the
    invariant of the runtime interface (the methods of the protocol class
    [BaseLifecycleBridge]): the maps agree and are bounded, and every reference
    the bridge keeps names an event and a span in the log, linked to the previous
    boundary by a program-order edge. *)

From Stdlib Require Import ZArith Lia Ascii String.
From stdpp Require Import base list strings gmap fin_maps.
From S2P Require Import Prelude PyValue Sha256 RuntimeProtocol ProfileProtocol SinkState.
From S2P Require Import TraceSink SinkSteps Hooks HooksInterface LifecycleBridge.

(** ** Weakest preconditions over the log *)

Section wp.
Context {H : Type} `{!LifecycleHooks H, !LifecycleHooksLaws H}.

(** From [b] and the log [L], whatever the hooks do, [m] returns without an
    exception in a state that satisfies [Q]. *)
Definition wp {A} (m : Try (Bridge * Recorded H) A)
    (Q : option A → Bridge → list emission → Prop) (b : Bridge) (L : list emission) : Prop :=
  ∀ h, ∃ o b' h' L', m (b, mkRecorded h L) = (Ok o, (b', mkRecorded h' L')) ∧ Q o b' L'.

Lemma wp_mono {A} (m : Try (Bridge * Recorded H) A) (Q R : option A → Bridge → list emission → Prop) b L :
  (∀ o b L, Q o b L → R o b L) → wp m Q b L → wp m R b L.
Proof. intros HQ Hm h. destruct (Hm h) as (o & b' & h' & L' & ? & ?). eauto 10. Qed.

Lemma wp_bind {A B} (m : Try (Bridge * Recorded H) A) (f : A → Try (Bridge * Recorded H) B) Q b L :
  wp m (λ o b L, match o with Some a => wp (f a) Q b L | None => Q None b L end) b L →
  wp (tbind m f) Q b L.
Proof.
  intros Hm h. destruct (Hm h) as ([a|] & b1 & h1 & L1 & E & HQ); unfold tbind; rewrite E.
  - apply HQ.
  - eauto 10.
Qed.

Lemma wp_ret {A} (a : A) (Q : option A → Bridge → list emission → Prop) b L :
  Q (Some a) b L → wp (tret a) Q b L.
Proof. intros HQ h. do 4 eexists. by split. Qed.

Lemma wp_proceed c (Q : option unit → Bridge → list emission → Prop) b L :
  (c = true → Q (Some tt) b L) → (c = false → Q None b L) → wp (proceed c) Q b L.
Proof. intros HA HB h. do 4 eexists. split; [done|]. destruct c; auto. Qed.

Lemma wp_found {A} (o : option A) (Q : option A → Bridge → list emission → Prop) b L :
  Q o b L → wp (found o) Q b L.
Proof. intros HQ h. do 4 eexists. by split. Qed.

Lemma wp_built {A} (r : res A) (Q : option A → Bridge → list emission → Prop) b L a :
  r = Ok a → Q (Some a) b L → wp (built r) Q b L.
Proof. intros -> HQ h. do 4 eexists. by split. Qed.

Lemma wp_tget (Q : option Bridge → Bridge → list emission → Prop) b L :
  Q (Some b) b L → wp tget Q b L.
Proof. intros HQ h. do 4 eexists. by split. Qed.

Lemma wp_tmodify f (Q : option unit → Bridge → list emission → Prop) b L :
  Q (Some tt) (f b) L → wp (tmodify f) Q b L.
Proof. intros HQ h. do 4 eexists. by split. Qed.

Lemma wp_attempt {A} (m : Try (Bridge * Recorded H) A) Q b L :
  wp m (λ o, Q (Some o)) b L → wp (attempt m) Q b L.
Proof.
  intros Hm h. destruct (Hm h) as (o & b1 & h1 & L1 & E & HQ). unfold attempt. rewrite E. eauto 10.
Qed.

Lemma wp_new_span (Q : option string → Bridge → list emission → Prop) b L :
  Q None b L → (∀ sp, Q (Some sp) b (L ++ [EmSpan sp])) → wp new_span Q b L.
Proof.
  intros HA HB h. unfold new_span, hook. cbn -[app]. unfold record_call. cbn -[app].
  destruct (lh_new_span_id h) as [[sp|] h1]; do 4 eexists; (split; [reflexivity|]).
  - apply HB.
  - by rewrite app_nil_r.
Qed.

Lemma wp_event d (Q : option RecordRef → Bridge → list emission → Prop) b L :
  Q None b L →
  (∀ ref, _EVENT_ID (record_id ref) = true →
     (∀ t, ev_timestamp_ns d = PInt t → 0 ≤ t ≤ _UINT64_MAX) →
     Q (Some ref) b (L ++ [EmEvent d (record_id ref)])) →
  wp (event d) Q b L.
Proof.
  intros HA HB h. unfold event, hook. cbn -[app]. unfold record_call. cbn -[app].
  destruct (lh_emit_event d h) as [[ref|] h1] eqn:E; do 4 eexists; (split; [reflexivity|]).
  - apply HB; [by eapply lh_event_id|]. intros t. by eapply lh_event_timestamp.
  - by rewrite app_nil_r.
Qed.

Lemma wp_edge i x y (Q : option RecordRef → Bridge → list emission → Prop) b L :
  Q None b L → (∀ ref, Q (Some ref) b (L ++ [EmEdge (program_edge i x y)])) →
  wp (edge i x y) Q b L.
Proof.
  intros HA HB h. unfold edge, hook. cbn -[app]. unfold record_call. cbn -[app].
  destruct (lh_emit_edge _ h) as [[ref|] h1] eqn:E; do 4 eexists; (split; [reflexivity|]).
  - apply HB.
  - by rewrite app_nil_r.
Qed.
End wp.

Lemma new_event_ref_ok id t :
  _EVENT_ID id = true → 0 ≤ t ≤ _UINT64_MAX → new_event_ref id t = Ok (mkEventRef id t).
Proof.
  intros Hid Ht. unfold new_event_ref, _is_uint64. rewrite Hid.
  destruct (Z.leb_spec 0 t), (Z.leb_spec t _UINT64_MAX); try lia. done.
Qed.

(** ** Grounded logs *)

Definition event_at (L : list emission) (i : RequestLifecycleIdentity) (id : string) : Prop :=
  ∃ d, EmEvent d id ∈ L ∧ ev_trace_id d = ri_trace_id i
       ∧ ev_lifecycle_id d = ri_engine_lifecycle_id i.

Definition span_at (L : list emission) (i : RequestLifecycleIdentity) (span : string) : Prop :=
  ∃ d id, EmEvent d id ∈ L ∧ ev_start_span_id d = Some span ∧ ev_trace_id d = ri_trace_id i
          ∧ ev_lifecycle_id d = ri_engine_lifecycle_id i.

Definition linked (L : list emission) (i : RequestLifecycleIdentity) (x y : string) : Prop :=
  EmEdge (program_edge i x y) ∈ L.

(** The entry names only events and spans that the log before it holds, of the
    same trace and lifecycle. *)
Definition entry_ok (L : list emission) (e : emission) : Prop :=
  match e with
  | EmSpan _ => True
  | EmEvent d _ =>
      ∀ span, ev_end_span_id d = Some span ∨ span ∈ ev_closing_span_ids d →
        ∃ i, ri_trace_id i = ev_trace_id d ∧ ri_engine_lifecycle_id i = ev_lifecycle_id d
             ∧ span_at L i span
  | EmEdge d =>
      ∃ i, ri_trace_id i = ed_trace_id d ∧ event_at L i (ed_from_event_id d)
           ∧ event_at L i (ed_to_event_id d)
  end.

Definition log_ok (L : list emission) : Prop :=
  ∀ L1 e L2, L = L1 ++ e :: L2 → entry_ok L1 e.

(** [boundary L i name epoch start end ref]: the log holds the event that the
    reference names. *)
Definition boundary (L : list emission) (i : RequestLifecycleIdentity) (name : string)
    (epoch : Z) (start_span end_span : option string) (ref : BaseEventRef) : Prop :=
  ∃ metadata, EmEvent (engine_event i "engine_core" name (be_timestamp_ns ref) epoch start_span
    end_span [] metadata) (be_event_id ref) ∈ L.

Definition state_ok (L : list emission) (request : string) (s : _RuntimeRequestState) : Prop :=
  let i := rs_identity s in
  ri_runtime_request_id i = request ∧ RequestLifecycleIdentity_post_init i = Ok tt ∧
  event_at L i (be_event_id (rs_queue_started s)) ∧ span_at L i (rs_queue_span_id s) ∧
  0 ≤ rs_preemption_epoch s ∧ 0 ≤ rs_prompt_tokens_computed s ∧ 0 ≤ rs_prefill_chunk_count s ∧
  match rs_active_started s, rs_active_span_id s, rs_active_compute_kind s with
  | None, None, None => True
  | Some active, Some span, Some kind =>
      event_at L i (be_event_id active) ∧ span_at L i span ∧ is_compute_kind kind = true
  | _, _, _ => False
  end.

Definition first_compute_ok (L : list emission) (i : RequestLifecycleIdentity) (epoch : Z)
    (resumed : BaseEventRef) (first : option BaseEventRef) : Prop :=
  match first with
  | None => True
  | Some f =>
      ∃ kind span, is_compute_kind kind = true ∧
        boundary L i (kind +:+ "_started") epoch (Some span) None f ∧
        linked L i (be_event_id resumed) (be_event_id f)
  end.

Definition resumed_ok (L : list emission) (i : RequestLifecycleIdentity) (epoch : Z)
    (admission : BaseEventRef) (span : string) (e : _EmittedBaseEpisode) : Prop :=
  match ep_resumed e with
  | None => ep_first_compute e = None
  | Some m =>
      boundary L i "resumed" epoch None (Some span) m ∧
      linked L i (be_event_id admission) (be_event_id m) ∧
      first_compute_ok L i epoch m (ep_first_compute e)
  end.

(** The boundaries of an episode come in order, each linked to the one before. *)
Definition episode_ok (L : list emission) (i : RequestLifecycleIdentity) (epoch : Z)
    (e : _EmittedBaseEpisode) : Prop :=
  1 ≤ epoch ∧
  (∃ span, boundary L i "preempted" (epoch - 1) None (Some span) (ep_preempted e)) ∧
  boundary L i "requeued" epoch (Some (ep_queue_span_id e)) None (ep_requeued e) ∧
  linked L i (be_event_id (ep_preempted e)) (be_event_id (ep_requeued e)) ∧
  match ep_admission_started e, ep_admission_span_id e with
  | None, None => ep_resumed e = None ∧ ep_first_compute e = None
  | Some a, Some span =>
      boundary L i "admission_started" epoch (Some span) (Some (ep_queue_span_id e)) a ∧
      linked L i (be_event_id (ep_requeued e)) (be_event_id a) ∧
      resumed_ok L i epoch a span e
  | _, _ => False
  end.

(** The invariant of the runtime interface *)
Record BridgeInv (b : Bridge) (L : list emission) : Prop := mkBridgeInv {
  bi_log : log_ok L;
  bi_capacity : 1 ≤ br_capacity b;
  bi_identities_bound : Z.of_nat (size (br_identities b)) ≤ br_capacity b;
  bi_episodes_bound : Z.of_nat (size (br_episodes b)) ≤ br_capacity b;
  bi_identities r : br_identities b !! r = rs_identity <$> br_states b !! r;
  bi_states r s : br_states b !! r = Some s → state_ok L r s;
  bi_episodes r epoch e : br_episodes b !! (r, epoch) = Some e →
    ∃ s, br_states b !! r = Some s ∧ episode_ok L (rs_identity s) epoch e }.

(** ** Growing logs *)

Lemma event_at_mono L L' i id : L ⊆ L' → event_at L i id → event_at L' i id.
Proof. intros HL (d & ? & ?). exists d. eauto. Qed.

Lemma span_at_mono L L' i sp : L ⊆ L' → span_at L i sp → span_at L' i sp.
Proof. intros HL (d & id & ? & ?). exists d, id. eauto. Qed.

Lemma linked_mono L L' i x y : L ⊆ L' → linked L i x y → linked L' i x y.
Proof. intros HL. apply HL. Qed.

Lemma boundary_mono L L' i name epoch x y ref :
  L ⊆ L' → boundary L i name epoch x y ref → boundary L' i name epoch x y ref.
Proof. intros HL (md & ?). exists md. auto. Qed.

#[local] Hint Resolve event_at_mono span_at_mono linked_mono boundary_mono : core.

Lemma state_ok_mono L L' r s : L ⊆ L' → state_ok L r s → state_ok L' r s.
Proof.
  intros HL (? & ? & ? & ? & ? & ? & ? & Ha). split_and!; eauto. revert Ha.
  destruct (rs_active_started s), (rs_active_span_id s), (rs_active_compute_kind s); naive_solver.
Qed.

Lemma first_compute_ok_mono L L' i epoch m f :
  L ⊆ L' → first_compute_ok L i epoch m f → first_compute_ok L' i epoch m f.
Proof. intros HL. unfold first_compute_ok. destruct f; naive_solver. Qed.

Lemma resumed_ok_mono L L' i epoch a sp e :
  L ⊆ L' → resumed_ok L i epoch a sp e → resumed_ok L' i epoch a sp e.
Proof.
  intros HL. unfold resumed_ok. destruct (ep_resumed e); [|done].
  intros (? & ? & ?). split_and!; eauto using first_compute_ok_mono.
Qed.

Lemma episode_ok_mono L L' i epoch e : L ⊆ L' → episode_ok L i epoch e → episode_ok L' i epoch e.
Proof.
  intros HL (? & (sp & ?) & ? & ? & Ha). split_and!; eauto. revert Ha.
  destruct (ep_admission_started e), (ep_admission_span_id e); try done.
  intros (? & ? & ?). split_and!; eauto using resumed_ok_mono.
Qed.

Lemma log_ok_nil : log_ok [].
Proof. intros L1 e L2 E. by destruct L1. Qed.

Lemma log_ok_snoc L e : log_ok L → entry_ok L e → log_ok (L ++ [e]).
Proof.
  intros HL He L1 e' L2. destruct (decide (L2 = [])) as [->|Hne].
  - by intros [-> ->]%app_inj_tail.
  - apply last_is_Some in Hne as [e2 [L3 ->]%last_Some].
    rewrite app_comm_cons, app_assoc. intros [-> _]%app_inj_tail. by eapply HL.
Qed.

Lemma Inv_log b L L' : BridgeInv b L → log_ok L' → L ⊆ L' → BridgeInv b L'.
Proof.
  intros [] ? HL. split; eauto using state_ok_mono.
  intros r epoch e He. destruct (bi_episodes0 r epoch e He) as (s & ? & ?).
  eauto using episode_ok_mono.
Qed.

Lemma Inv_snoc b L e : BridgeInv b L → entry_ok L e → BridgeInv b (L ++ [e]).
Proof.
  intros HI He. eapply Inv_log; [exact HI|by apply log_ok_snoc; [apply HI|]|set_solver].
Qed.

Section rules.
Context {H : Type} `{!LifecycleHooks H, !LifecycleHooksLaws H}.

Lemma step_span (Q : option string → Bridge → list emission → Prop) b L :
  BridgeInv b L → Q None b L → (∀ sp L', BridgeInv b L' → L ⊆ L' → Q (Some sp) b L') →
  wp (H:=H) new_span Q b L.
Proof.
  intros HI HN HS. apply wp_new_span; [done|]. intros sp. apply HS; [by apply Inv_snoc|set_solver].
Qed.

Lemma step_event d (Q : option RecordRef → Bridge → list emission → Prop) b L t :
  BridgeInv b L → entry_ok L (EmEvent d "") → ev_timestamp_ns d = PInt t → Q None b L →
  (∀ ref L', BridgeInv b L' → L ⊆ L' → EmEvent d (record_id ref) ∈ L' →
     new_event_ref (record_id ref) t = Ok (mkEventRef (record_id ref) t) → Q (Some ref) b L') →
  wp (H:=H) (event d) Q b L.
Proof.
  intros HI He Ht HN HS. apply wp_event; [done|]. intros ref Hid Hts.
  apply HS; [by apply Inv_snoc|set_solver|set_solver|]. apply new_event_ref_ok; auto.
Qed.

Lemma step_edge i x y (Q : option RecordRef → Bridge → list emission → Prop) b L :
  BridgeInv b L → event_at L i x → event_at L i y → Q None b L →
  (∀ ref L', BridgeInv b L' → L ⊆ L' → linked L' i x y → Q (Some ref) b L') →
  wp (H:=H) (edge i x y) Q b L.
Proof.
  intros HI Hx Hy HN HS. apply wp_edge; [done|]. intros ref.
  apply HS; [|set_solver|unfold linked; set_solver].
  apply Inv_snoc; [done|]. exists i. auto.
Qed.
End rules.

(** ** Updates of the maps *)

Lemma lookup_set_state b r s r' :
  br_states (set_state r s b) !! r' = if decide (r = r') then Some s else br_states b !! r'.
Proof. simpl. case_decide; subst; [apply lookup_insert_eq|by apply lookup_insert_ne]. Qed.

Lemma Inv_set_state b L r s s' :
  BridgeInv b L → br_states b !! r = Some s → rs_identity s' = rs_identity s →
  state_ok L r s' → BridgeInv (set_state r s' b) L.
Proof.
  intros HI Hr Hi Hs. destruct HI. split; try done.
  - intros r'. rewrite lookup_set_state. case_decide; subst; simpl; rewrite bi_identities0; [|done].
    by rewrite Hr, Hi.
  - intros r' s1. rewrite lookup_set_state. case_decide; subst; [by intros [= <-]|eauto].
  - intros r' epoch e He. destruct (bi_episodes0 r' epoch e He) as (s1 & Hs1 & ?).
    rewrite lookup_set_state. case_decide; subst; [|eauto]. exists s'. split; [done|].
    rewrite Hi. congruence.
Qed.

Lemma Inv_register b L r i s :
  BridgeInv b L → br_states b !! r = None → rs_identity s = i → state_ok L r s →
  Z.of_nat (size (br_identities b)) < br_capacity b →
  BridgeInv (set_state r s (set_identity r i b)) L.
Proof.
  intros HI Hr <- Hs Hsize. pose proof (bi_identities _ _ HI r) as Hri. rewrite Hr in Hri. simpl in Hri.
  destruct HI. split; try done.
  - simpl. rewrite map_size_insert_None by done. lia.
  - intros r'. rewrite lookup_set_state. case_decide; subst; simpl; [by rewrite lookup_insert_eq|].
    rewrite lookup_insert_ne by done. apply bi_identities0.
  - intros r' s1. rewrite lookup_set_state. case_decide; subst; [by intros [= <-]|apply bi_states0].
  - intros r' epoch e He. destruct (bi_episodes0 r' epoch e He) as (s1 & Hs1 & ?).
    rewrite lookup_set_state. case_decide; subst; [congruence|eauto].
Qed.

Lemma Inv_set_episode b L r epoch s e :
  BridgeInv b L → br_states b !! r = Some s → episode_ok L (rs_identity s) epoch e →
  is_Some (br_episodes b !! (r, epoch)) ∨ Z.of_nat (size (br_episodes b)) < br_capacity b →
  BridgeInv (set_episode (r, epoch) e b) L.
Proof.
  intros HI Hr He Hsize. destruct HI. split; try done.
  - simpl. rewrite map_size_insert. destruct Hsize as [[e0 ->]|Hsize]; simpl; [done|].
    destruct (br_episodes b !! (r, epoch)); unfold id; lia.
  - simpl. intros r' epoch' e'. rewrite lookup_insert_Some. intros [[[= -> ->] ->]|[_ ?]]; eauto.
Qed.

Lemma size_filter_le {K A} `{Countable K} (P : K * A → Prop) `{∀ x, Decision (P x)} (m : gmap K A) :
  (size (filter P m) ≤ size m)%nat.
Proof.
  rewrite <- !size_dom. apply subseteq_size, dom_filter_subseteq.
Qed.

Lemma size_delete_le {K A} `{Countable K} (m : gmap K A) k : (size (delete k m) ≤ size m)%nat.
Proof. rewrite map_size_delete. destruct (m !! k); unfold id; lia. Qed.

Lemma lookup_retire_states b r r' :
  br_states (retire r b) !! r' = if decide (r = r') then None else br_states b !! r'.
Proof. simpl. case_decide; subst; [apply lookup_delete_eq|by apply lookup_delete_ne]. Qed.

Lemma lookup_retire_episodes b r k e :
  br_episodes (retire r b) !! k = Some e ↔ br_episodes b !! k = Some e ∧ k.1 ≠ r.
Proof. simpl. by rewrite map_lookup_filter_Some. Qed.

Lemma Inv_retire b L r : BridgeInv b L → BridgeInv (retire r b) L.
Proof.
  intros []. split; try done.
  - simpl. pose proof (size_delete_le (br_identities b) r). lia.
  - simpl. pose proof (size_filter_le (λ kv : (string * Z) * _EmittedBaseEpisode, kv.1.1 ≠ r)
      (br_episodes b)). lia.
  - intros r'. rewrite lookup_retire_states. simpl. case_decide; subst.
    + by rewrite lookup_delete_eq.
    + rewrite lookup_delete_ne by done. apply bi_identities0.
  - intros r' s. rewrite lookup_retire_states. case_decide; [done|apply bi_states0].
  - intros r' epoch e [He Hne]%lookup_retire_episodes. rewrite lookup_retire_states.
    rewrite decide_False by (simpl in Hne; congruence). eauto.
Qed.

Lemma bridge_inv_initial capacity b : initial_bridge capacity = Ok b → BridgeInv b [].
Proof.
  unfold initial_bridge, ensure. destruct (Z.leb_spec 1 capacity); intros [= <-].
  split; simpl; try done; try lia; try (rewrite map_size_empty; lia).
  - apply log_ok_nil.
Qed.
