(* ===== verification/BridgeSteps.v ===== *)
(** * The lifecycle bridge: every runtime method keeps the invariant

    One lemma per method of the runtime interface: from a state that satisfies
    [BridgeInv] it returns without an exception in one that does, the log grows,
    and a method that gives up leaves the bridge as it was. *)

From Stdlib Require Import ZArith Lia Ascii String.
From stdpp Require Import base list strings gmap fin_maps.
From S2P Require Import Prelude PyValue Sha256 RuntimeProtocol ProfileProtocol SinkState.
From S2P Require Import TraceSink SinkSteps Hooks HooksInterface LifecycleBridge BridgeInvariant.

Definition kept {A} (b : Bridge) (L : list emission) (o : option A) (b' : Bridge)
    (L' : list emission) : Prop :=
  BridgeInv b' L' ∧ L ⊆ L' ∧ (o = None → b' = b).

Lemma kept_same {A} b L (o : option A) L' : BridgeInv b L' → L ⊆ L' → kept b L o b L'.
Proof. done. Qed.

Lemma kept_some {A} b L (a : A) b' L' : BridgeInv b' L' → L ⊆ L' → kept b L (Some a) b' L'.
Proof. done. Qed.

(** [kept], and only the episode map changed. *)
Definition kept_episode {A} (r : string) (epoch : Z) (b : Bridge) (L : list emission)
    (o : option A) (b' : Bridge) (L' : list emission) : Prop :=
  kept b L o b' L' ∧ br_states b' = br_states b ∧
  (is_Some o → is_Some (br_episodes b' !! (r, epoch))).

Lemma kept_episode_none {A} r epoch b L L' :
  BridgeInv b L' → L ⊆ L' → kept_episode (A:=A) r epoch b L None b L'.
Proof. intros ? ?. split; [done|]. split; [done|]. by intros [? ?]. Qed.

(** [kept], and a request that was accepted has a state. *)
Definition kept_registered (r : string) (b : Bridge) (L : list emission) (o : option unit)
    (b' : Bridge) (L' : list emission) : Prop :=
  kept b L o b' L' ∧ (is_Some o → is_Some (br_states b' !! r)) ∧
  dom (br_states b) ⊆ dom (br_states b').

Lemma kept_registered_same r b L L' :
  BridgeInv b L' → L ⊆ L' → kept_registered r b L None b L'.
Proof. intros ? ?. split; [done|]. split; [|done]. by intros [? ?]. Qed.

(** The bridge is as it was. *)
Definition same {A} (b : Bridge) (L : list emission) (o : option A) (b' : Bridge)
    (L' : list emission) : Prop :=
  b' = b ∧ BridgeInv b L' ∧ L ⊆ L'.

Lemma same_intro {A} b L (o : option A) L' : BridgeInv b L' → L ⊆ L' → same b L o b L'.
Proof. done. Qed.

(** Restate what is known of [L] for the longer log [L'] and forget [L]. *)
Ltac lift Hsub :=
  let L := match type of Hsub with ?L ⊆ _ => L end in
  repeat match goal with
  | HX : event_at L _ _ |- _ => apply (event_at_mono _ _ _ _ Hsub) in HX
  | HX : span_at L _ _ |- _ => apply (span_at_mono _ _ _ _ Hsub) in HX
  | HX : linked L _ _ _ |- _ => apply (linked_mono _ _ _ _ _ Hsub) in HX
  | HX : boundary L _ _ _ _ _ _ |- _ => apply (boundary_mono _ _ _ _ _ _ _ _ Hsub) in HX
  | HX : state_ok L _ _ |- _ => apply (state_ok_mono _ _ _ _ Hsub) in HX
  | HX : episode_ok L _ _ _ |- _ => apply (episode_ok_mono _ _ _ _ _ Hsub) in HX
  | HX : ?e ∈ L |- _ => apply Hsub in HX
  | HX : BridgeInv _ L |- _ => clear HX
  | HX : ?L0 ⊆ L |- _ => pose proof (transitivity HX Hsub); clear HX
  end.

(** One step of a method: bind, then the rule of the callee. *)
Ltac stops := first [apply kept_same | apply kept_registered_same | apply kept_episode_none | apply same_intro]; assumption.

Lemma event_at_intro L i c name t epoch x y cl md id :
  EmEvent (engine_event i c name t epoch x y cl md) id ∈ L → event_at L i id.
Proof. intros HX. eexists. split; [exact HX|done]. Qed.

Lemma span_at_intro L i c name t epoch sp y cl md id :
  EmEvent (engine_event i c name t epoch (Some sp) y cl md) id ∈ L → span_at L i sp.
Proof. intros HX. do 2 eexists. split; [exact HX|done]. Qed.

Lemma boundary_intro L i name t epoch x y md id :
  EmEvent (engine_event i "engine_core" name t epoch x y [] md) id ∈ L →
  boundary L i name epoch x y (mkEventRef id t).
Proof. intros HX. by exists md. Qed.

Create HintDb bridge.
#[export] Hint Resolve event_at_intro span_at_intro boundary_intro : bridge.

Lemma engine_event_ok L i c name t epoch x y cl md id :
  (∀ sp, y = Some sp → span_at L i sp) → Forall (span_at L i) cl →
  entry_ok L (EmEvent (engine_event i c name t epoch x y cl md) id).
Proof.
  intros Hy Hcl sp Hsp. exists i. split_and!; try done.
  destruct Hsp as [Hsp|Hsp]; [by apply Hy|]. rewrite Forall_forall in Hcl. by apply Hcl.
Qed.

Section steps.
Context {H : Type} `{!LifecycleHooks H, !LifecycleHooksLaws H}.
Implicit Types b : Bridge.

(** [event] for the drafts of the bridge *)
Lemma step_engine_event i c name t epoch x y cl md
    (Q : option RecordRef → Bridge → list emission → Prop) b L :
  BridgeInv b L → (∀ sp, y = Some sp → span_at L i sp) → Forall (span_at L i) cl → Q None b L →
  (∀ ref L', BridgeInv b L' → L ⊆ L' →
     EmEvent (engine_event i c name t epoch x y cl md) (record_id ref) ∈ L' →
     new_event_ref (record_id ref) t = Ok (mkEventRef (record_id ref) t) → Q (Some ref) b L') →
  wp (H:=H) (event (engine_event i c name t epoch x y cl md)) Q b L.
Proof. intros HI Hy Hcl. apply step_event; [done|by apply engine_event_ok|done]. Qed.
End steps.

Lemma end_none L i sp : None = Some sp → span_at L i sp.
Proof. done. Qed.

Lemma end_some L i sp0 sp : span_at L i sp0 → Some sp0 = Some sp → span_at L i sp.
Proof. by intros HX [= <-]. Qed.

#[export] Hint Resolve end_none end_some : bridge.

Ltac wp_next :=
  lazymatch goal with
  | |- wp tget _ _ _ => apply wp_tget
  | |- wp (found _) _ _ _ => apply wp_found
  | |- wp (proceed _) _ _ _ => apply wp_proceed; [intros ?|intros ?; stops]
  | |- wp new_span _ _ _ => eapply step_span; [eassumption|stops
        |let Hs := fresh in intros ? ? ? Hs; lift Hs; clear Hs]
  | |- wp (event _) _ _ _ =>
      eapply step_engine_event; [eassumption|eauto with bridge|eauto with bridge|stops
        |let Hs := fresh in intros ? ? ? Hs ? ?; lift Hs; clear Hs]
  | |- wp (edge _ _ _) _ _ _ =>
      eapply step_edge; [eassumption|eauto with bridge|eauto with bridge|stops
        |let Hs := fresh in intros ? ? ? Hs ?; lift Hs; clear Hs]
  | |- wp (built _) _ _ _ => eapply wp_built; [eassumption|]
  | |- wp (tmodify _) _ _ _ => apply wp_tmodify
  | |- wp (tret _) _ _ _ => apply wp_ret
  end; cbv beta iota.

Ltac wp_go := repeat first [apply wp_bind | wp_next].

(** ** What the invariant gives to a method *)

Lemma known_episode b L r epoch e :
  BridgeInv b L → br_episodes b !! (r, epoch) = Some e →
  ∃ s, br_states b !! r = Some s ∧ episode_ok L (rs_identity s) epoch e ∧
    span_at L (rs_identity s) (ep_queue_span_id e) ∧
    event_at L (rs_identity s) (be_event_id (ep_requeued e)).
Proof.
  intros HI He. destruct (bi_episodes _ _ HI _ _ _ He) as (s & ? & Hok).
  destruct (Hok) as (_ & _ & [md ?] & _). exists s. split_and!; eauto with bridge.
Qed.

Lemma known_admission L i epoch e a sp :
  episode_ok L i epoch e → ep_admission_started e = Some a → ep_admission_span_id e = Some sp →
  event_at L i (be_event_id a) ∧ span_at L i sp ∧ resumed_ok L i epoch a sp e.
Proof.
  intros (_ & _ & _ & _ & Ha) E1 E2. rewrite E1, E2 in Ha.
  destruct Ha as ([md ?] & _ & ?). eauto with bridge.
Qed.

Lemma known_resumed L i epoch e m :
  episode_ok L i epoch e → ep_resumed e = Some m →
  ∃ a sp, ep_admission_started e = Some a ∧ ep_admission_span_id e = Some sp ∧
    event_at L i (be_event_id m) ∧ resumed_ok L i epoch a sp e.
Proof.
  intros (_ & _ & _ & _ & Ha) Em. destruct (ep_admission_started e) as [a|], (ep_admission_span_id e) as [sp|];
    try done; [|by destruct Ha; simplify_eq].
  destruct Ha as (_ & _ & Ha). exists a, sp. split_and!; try done.
  unfold resumed_ok in Ha. rewrite Em in Ha. destruct Ha as ([md ?] & _). eauto with bridge.
Qed.

Lemma known_state L r s :
  state_ok L r s →
  event_at L (rs_identity s) (be_event_id (rs_queue_started s)) ∧
  span_at L (rs_identity s) (rs_queue_span_id s) ∧
  (∀ a, rs_active_started s = Some a → event_at L (rs_identity s) (be_event_id a)) ∧
  (∀ sp, rs_active_span_id s = Some sp → span_at L (rs_identity s) sp).
Proof.
  intros (_ & _ & ? & ? & _ & _ & _ & Ha).
  destruct (rs_active_started s), (rs_active_span_id s), (rs_active_compute_kind s);
    naive_solver.
Qed.

(** The records the methods store *)

Lemma state_ok_active L r s a sp kind computed chunks :
  state_ok L r s → event_at L (rs_identity s) (be_event_id a) → span_at L (rs_identity s) sp →
  is_compute_kind kind = true → 0 ≤ computed → 0 ≤ chunks →
  state_ok L r (set_active a sp kind computed chunks s).
Proof. intros (? & ? & ? & ? & ? & ? & ? & _) ? ? ? ? ?. by split_and!. Qed.

Lemma state_ok_progress L r s computed chunks :
  state_ok L r s → 0 ≤ computed → 0 ≤ chunks → state_ok L r (set_progress computed chunks s).
Proof. intros (? & ? & ? & ? & ? & ? & ? & ?) ? ?. by split_and!. Qed.

Lemma state_ok_requeue L r s e epoch :
  state_ok L r s → span_at L (rs_identity s) (ep_queue_span_id e) →
  event_at L (rs_identity s) (be_event_id (ep_requeued e)) → 0 ≤ epoch →
  state_ok L r (requeue_state e epoch s).
Proof. intros (? & ? & _ & _ & ? & ? & ? & _) ? ? ?. by split_and!. Qed.

Lemma state_ok_counts L r s : state_ok L r s →
  0 ≤ rs_preemption_epoch s ∧ 0 ≤ rs_prompt_tokens_computed s ∧ 0 ≤ rs_prefill_chunk_count s.
Proof. by intros (? & ? & ? & ? & ? & ? & ? & ?). Qed.

Lemma runtime_trace_id_ok run_id r :
  str_forall (λ c, code c <? 128) run_id = true →
  _is_bounded_printable_ascii r MAX_RUNTIME_REQUEST_ID_BYTES = true →
  ∃ t, runtime_trace_id run_id r = Ok t ∧ _HEX32 t = true.
Proof.
  intros Hrun Hr. unfold _is_bounded_printable_ascii in Hr. bool_prop.
  unfold runtime_trace_id. rewrite str_forall_app, Hrun. simpl.
  rewrite (str_forall_impl is_printable_ascii) by (done || unfold is_printable_ascii; intros c Hc; bool_prop; lia).
  eexists. split; [done|]. apply sha256_take_hex.
Qed.

Lemma runtime_identity_ok t r :
  _HEX32 t = true → _is_bounded_printable_ascii r MAX_RUNTIME_REQUEST_ID_BYTES = true →
  ∃ i, runtime_identity t r = Ok i ∧ ri_runtime_request_id i = r ∧
       RequestLifecycleIdentity_post_init i = Ok tt.
Proof.
  intros Ht Hr.
  assert (RequestLifecycleIdentity_post_init (mkIdentity t (t +:+ ":e:0") r 0) = Ok tt) as E.
  { unfold RequestLifecycleIdentity_post_init. cbn [ri_trace_id ri_engine_lifecycle_id
      ri_runtime_request_id ri_sample_index]. rewrite Ht, Hr. cbn [ensure mbind res_bind].
    change (str_of_Z 0) with "0". by rewrite String.eqb_refl. }
  eexists. unfold runtime_identity. rewrite E. done.
Qed.

(** ** The methods *)

Section methods.
Context {H : Type} `{!LifecycleHooks H, !LifecycleHooksLaws H}.

Lemma kept_register run_id r t b L :
  str_forall (λ c, code c <? 128) run_id = true → BridgeInv b L →
  wp (H:=H) (register_runtime_request run_id r t) (kept_registered r b L) b L.
Proof.
  intros Hrun HI. unfold register_runtime_request. assert (L ⊆ L) as HL by done.
  apply wp_bind. wp_next.
  destruct (runtime_trace_id_ok run_id r) as (tr & Etr & Htr); [done|done|].
  pose proof (runtime_identity_ok tr r Htr ltac:(done)) as (i & Ei & Hi & Hpost).
  wp_go. destruct (br_states b !! r) as [s|] eqn:Hs.
  - wp_next. split; [by apply kept_some|]. split; [intros _; by rewrite Hs|done].
  - wp_go. split; [|split; [by intros _; rewrite lookup_set_state, decide_True
      |simpl; rewrite dom_insert; set_solver]].
    apply kept_some; [|done]. bool_prop. apply Inv_register; eauto.
    split_and!; simpl; eauto with bridge; lia.
Qed.

(** [start_phase] with the postcondition left open: it stores nothing itself. *)
Lemma wp_start_phase i name nm t epoch sp md from_id b L
    (Q : option (BaseEventRef * string) → Bridge → list emission → Prop) :
  BridgeInv b L → span_at L i sp → event_at L i from_id →
  (∀ L', BridgeInv b L' → L ⊆ L' → Q None b L') →
  (∀ a span L', BridgeInv b L' → L ⊆ L' → event_at L' i (be_event_id a) → span_at L' i span →
     Q (Some (a, span)) b L') →
  wp (H:=H) (start_phase i (engine_event i "engine_core" name t epoch None (Some sp) [] md) nm t
    epoch from_id) Q b L.
Proof.
  intros HI Hsp Hfrom HN HS. unfold start_phase. assert (L ⊆ L) as HL by done.
  apply wp_bind, wp_attempt.
  eapply step_engine_event; [eassumption|eauto with bridge|eauto with bridge| |].
  - apply wp_bind, wp_attempt, step_span; [done| |intros ? L1 ? ?];
      apply wp_bind, wp_found; auto.
  - intros ref L1 HI1 HL1 Hin Href. lift HL1.
    apply wp_bind, wp_attempt, step_span; [done| |].
    { do 2 apply wp_bind, wp_found. auto. }
    intros span L2 HI2 HL2. lift HL2. do 2 apply wp_bind, wp_found.
    apply wp_bind. eapply step_engine_event; [eassumption|eauto with bridge|eauto with bridge
      |auto|]. intros ref2 L3 HI3 HL3 Hin2 Href2. lift HL3.
    apply wp_bind. eapply step_edge; [eassumption|eauto with bridge|eauto with bridge|auto|].
    intros _ L4 HI4 HL4 _. lift HL4.
    apply wp_bind. eapply step_edge; [eassumption|eauto with bridge|eauto with bridge|auto|].
    intros _ L5 HI5 HL5 _. lift HL5.
    apply wp_bind. eapply wp_built; [exact Href2|]. apply wp_ret, HS; eauto with bridge.
Qed.

Lemma kept_preempted_and_requeued r epoch t active span computed chunks b L :
  BridgeInv b L →
  (∀ s, br_states b !! r = Some s →
     event_at L (rs_identity s) active ∧ span_at L (rs_identity s) span) →
  wp (H:=H) (emit_preempted_and_requeued r epoch t active span computed chunks)
    (kept_episode r epoch b L) b L.
Proof.
  intros HI Hact. unfold emit_preempted_and_requeued. assert (L ⊆ L) as HL by done.
  apply wp_bind, wp_tget, wp_bind, wp_found. rewrite (bi_identities _ _ HI).
  destruct (br_states b !! r) as [s|] eqn:Hs; simpl; [|stops].
  destruct (Hact s eq_refl) as [Hev Hsp]. clear Hact.
  wp_go. bool_prop. bool_prop. split; [|by split; [|intros _; simpl; rewrite lookup_insert_eq]].
  apply kept_some; [|done]. eapply Inv_set_episode; eauto.
  unfold episode_ok; simpl. split_and!; eauto with bridge.
Qed.

Lemma kept_runtime_preempted r epoch t b L :
  BridgeInv b L → wp (H:=H) (emit_runtime_preempted r epoch t) (kept b L) b L.
Proof.
  intros HI. unfold emit_runtime_preempted. assert (L ⊆ L) as HL by done.
  apply wp_bind, wp_tget, wp_bind, wp_found.
  destruct (br_states b !! r) as [s|] eqn:Hs; [|stops].
  destruct (known_state _ _ _ (bi_states _ _ HI _ _ Hs)) as (_ & _ & Ha & Hsp).
  apply wp_bind, wp_found. destruct (rs_active_started s) as [a|]; [|stops].
  apply wp_bind, wp_found. destruct (rs_active_span_id s) as [sp|]; [|stops].
  apply wp_bind. eapply wp_mono; [|apply kept_preempted_and_requeued; [done|]].
  2:{ intros s'. rewrite Hs. intros [= <-]. auto. }
  intros [res|] b' L' ((HI' & HL' & Hnone) & Est & Hep); [|by split; [|split]].
  wp_go. rewrite Est, Hs. destruct (Hep ltac:(eauto)) as [e He]. rewrite He.
  destruct (known_episode _ _ _ _ _ HI' He) as (s' & Hs' & Hok & Hq & Hev).
  rewrite Est, Hs in Hs'. injection Hs' as <-.
  wp_go. apply kept_some; [|done].
  eapply (Inv_set_state _ _ _ s); try done; [by rewrite Est|].
  apply state_ok_requeue; try done; [apply (bi_states _ _ HI'); by rewrite Est|].
  destruct Hok as [? _]. lia.
Qed.

Lemma kept_admission r epoch t b L :
  BridgeInv b L → wp (H:=H) (emit_admission_started r epoch t) (kept b L) b L.
Proof.
  intros HI. unfold emit_admission_started. assert (L ⊆ L) as HL by done.
  apply wp_bind, wp_tget, wp_bind, wp_found. rewrite (bi_identities _ _ HI).
  destruct (br_states b !! r) as [s|] eqn:Hs; simpl; [|stops].
  apply wp_bind, wp_found. destruct (br_episodes b !! (r, epoch)) as [e|] eqn:He; [|stops].
  destruct (known_episode _ _ _ _ _ HI He) as (s' & Hs' & Hok & Hsp & Hev).
  assert (s' = s) as -> by congruence.
  wp_go. destruct (ep_admission_started e) eqn:Ea; [done|].
  apply kept_some; [|done]. eapply Inv_set_episode; eauto.
  destruct Hok as (? & ? & ? & ? & Ha). rewrite Ea in Ha.
  destruct (ep_admission_span_id e); [done|]. destruct Ha as [Hr Hf].
  unfold episode_ok, resumed_ok; simpl. rewrite Hr. split_and!; eauto with bridge.
Qed.

Lemma kept_resumed r epoch t total cached to_compute b L :
  BridgeInv b L →
  wp (H:=H) (emit_resumed r epoch t total cached to_compute) (kept_episode r epoch b L) b L.
Proof.
  intros HI. unfold emit_resumed. assert (L ⊆ L) as HL by done.
  apply wp_bind, wp_tget, wp_bind, wp_found. rewrite (bi_identities _ _ HI).
  destruct (br_states b !! r) as [s|] eqn:Hs; simpl; [|stops].
  apply wp_bind, wp_found. destruct (br_episodes b !! (r, epoch)) as [e|] eqn:He; [|stops].
  destruct (known_episode _ _ _ _ _ HI He) as (s' & Hs' & Hok & _ & _).
  assert (s' = s) as -> by congruence.
  apply wp_bind, wp_found. destruct (ep_admission_started e) as [a|] eqn:Ea; [|stops].
  apply wp_bind, wp_found. destruct (ep_admission_span_id e) as [sp|] eqn:Esp; [|stops].
  destruct (known_admission _ _ _ _ _ _ Hok Ea Esp) as (Hev & Hsp & _).
  wp_go. destruct (ep_resumed e) eqn:Er; [done|].
  split; [|by split; [|intros _; simpl; rewrite lookup_insert_eq]].
  apply kept_some; [|done]. eapply Inv_set_episode; eauto.
  destruct Hok as (? & ? & ? & ? & Ha). rewrite Ea, Esp in Ha. destruct Ha as (? & ? & Ha).
  unfold resumed_ok in Ha. rewrite Er in Ha.
  unfold episode_ok, resumed_ok; simpl. rewrite Ha. split_and!; eauto with bridge. done.
Qed.

Lemma kept_scheduled r t kind scheduled total cached b L :
  BridgeInv b L → wp (H:=H) (emit_runtime_scheduled r t kind scheduled total cached) (kept b L) b L.
Proof.
  intros HI. unfold emit_runtime_scheduled. assert (L ⊆ L) as HL by done.
  apply wp_bind, wp_tget, wp_bind, wp_found.
  destruct (br_states b !! r) as [s|] eqn:Hs; [|stops].
  pose proof (bi_states _ _ HI _ _ Hs) as Hok.
  destruct (known_state _ _ _ Hok) as (Hq & Hqs & Ha & Hsp).
  destruct (state_ok_counts _ _ _ Hok) as (He & Hc & Hn).
  apply wp_bind. wp_next. bool_prop. destruct (rs_active_started s) as [a|] eqn:Eact.
  - case_bool_decide.
    + apply wp_tmodify, kept_some; [|done].
      eapply (Inv_set_state _ _ _ s); [done|done|done|].
      apply state_ok_progress; [done|lia|destruct (String.eqb _ _); lia].
    + apply wp_bind. wp_next. apply wp_bind, wp_found.
      destruct (rs_active_span_id s) as [sp|] eqn:Esp; [|stops].
      apply wp_bind, wp_start_phase; eauto.
      * intros L' HI' HL'. by apply kept_same.
      * intros a' span L' HI' HL' Hev' Hsp'. bool_prop. subst kind.
        apply wp_tmodify, kept_some; [|done].
        eapply (Inv_set_state _ _ _ s); [done|done|done|].
        apply state_ok_progress; [|simpl; lia|simpl; lia].
        apply state_ok_active; try done. by eapply state_ok_mono.
  - apply wp_bind, wp_start_phase; eauto.
    + intros L' HI' HL'. by apply kept_same.
    + intros a' span L' HI' HL' Hev' Hsp'. apply wp_tmodify, kept_some; [|done].
      eapply (Inv_set_state _ _ _ s); [done|done|done|].
      apply state_ok_active; try done; [by eapply state_ok_mono| |].
      * unfold clamp_cached. lia.
      * destruct (String.eqb _ _); lia.
Qed.

Lemma kept_runtime_resumed r epoch t total cached b L :
  BridgeInv b L → wp (H:=H) (emit_runtime_resumed r epoch t total cached) (kept b L) b L.
Proof.
  intros HI. unfold emit_runtime_resumed. assert (L ⊆ L) as HL by done.
  apply wp_bind. wp_next. bool_prop. apply wp_bind.
  eapply wp_mono; [|by apply kept_resumed].
  intros [res|] b' L' ((HI' & HL' & Hnone) & Est & Hep); [|by split; [|split]].
  wp_go. destruct (br_states b' !! r) as [s|] eqn:Hs; [|by wp_go].
  wp_go. apply kept_some; [|done]. eapply (Inv_set_state _ _ _ s); [done|done|done|].
  pose proof (bi_states _ _ HI' _ _ Hs) as Hok.
  apply state_ok_progress; [done|unfold clamp_cached; lia|apply (state_ok_counts _ _ _ Hok)].
Qed.

Lemma kept_first_compute r epoch t kind b L :
  BridgeInv b L → wp (H:=H) (emit_first_compute r epoch t kind) (kept b L) b L.
Proof.
  intros HI. unfold emit_first_compute. assert (L ⊆ L) as HL by done.
  apply wp_bind, wp_tget, wp_bind, wp_found. rewrite (bi_identities _ _ HI).
  destruct (br_states b !! r) as [s|] eqn:Hs; simpl; [|stops].
  apply wp_bind, wp_found. destruct (br_episodes b !! (r, epoch)) as [e|] eqn:He; [|stops].
  destruct (known_episode _ _ _ _ _ HI He) as (s' & Hs' & Hok & _ & _).
  assert (s' = s) as -> by congruence.
  apply wp_bind, wp_found. destruct (ep_resumed e) as [m|] eqn:Em; [|stops].
  destruct (known_resumed _ _ _ _ _ Hok Em) as (a & sp & Ea & Esp & Hev & _).
  wp_go. bool_prop. apply kept_some; [|done].
  pose proof (bi_states _ _ ltac:(eassumption) _ _ Hs) as Hst.
  destruct (state_ok_counts _ _ _ Hst) as (? & ? & ?).
  eapply (Inv_set_state _ _ _ s); [|done|done|].
  - eapply Inv_set_episode; eauto. destruct Hok as (? & ? & ? & ? & Ha).
    rewrite Ea, Esp in Ha. destruct Ha as (? & ? & Ha). unfold resumed_ok in Ha. rewrite Em in Ha.
    destruct Ha as (? & ? & _). unfold episode_ok, resumed_ok; simpl. rewrite ?Ea, ?Esp, ?Em.
    split_and!; eauto with bridge. do 2 eexists. split_and!; eauto with bridge.
  - apply state_ok_active; eauto with bridge. destruct (String.eqb _ _); lia.
Qed.

Lemma same_terminal_done r s cause t generated b L :
  BridgeInv b L → state_ok L r s →
  wp (H:=H) (terminal_done s cause t generated) (same b L) b L.
Proof.
  intros HI Hok. unfold terminal_done. assert (L ⊆ L) as HL by done.
  destruct (known_state _ _ _ Hok) as (Hq & Hqs & Ha & Hsp).
  apply wp_bind. wp_next. apply wp_bind, wp_found. destruct (rs_active_started s) as [a|]; [|stops].
  apply wp_bind, wp_found. destruct (rs_active_span_id s) as [sp|]; [|stops].
  apply wp_bind, wp_found. destruct (rs_active_compute_kind s) as [kind|]; [|stops].
  pose proof (Ha _ eq_refl) as Hev. pose proof (Hsp _ eq_refl) as Hspan.
  clear Ha Hsp. apply wp_bind. wp_next. cbv zeta.
  apply wp_bind. wp_next. apply wp_bind. wp_next.
  apply wp_bind, wp_attempt.
  assert (∀ (first : option RecordRef) L1, BridgeInv b L1 → L ⊆ L1 →
    event_at L1 (rs_identity s) (record_id ref) → event_at L1 (rs_identity s) (record_id ref0) →
    new_event_ref (record_id ref0) t = Ok (mkEventRef (record_id ref0) t) →
    wp (H:=H) (second_edge <- attempt (edge (rs_identity s) (record_id ref) (record_id ref0)) ;
      found first;; found second_edge;; built (new_event_ref (record_id ref0) t))%try
      (same b L) b L1) as Hsecond.
  { intros first L1 HI1 HL1 HX1 HX2 Href. apply wp_bind, wp_attempt.
    eapply step_edge; [done|done|done| |intros ? L2 ? HL2 _];
      apply wp_bind, wp_found; (destruct first; [|by apply same_intro; [|etrans]]);
      apply wp_bind, wp_found; [by apply same_intro|].
    eapply wp_built; [done|]. apply same_intro; [done|by etrans]. }
  eapply step_edge; [done|eauto with bridge|eauto with bridge| |intros ? L2 ? HL2 _; lift HL2];
    apply Hsecond; eauto with bridge.
Qed.

Lemma same_terminal_abnormal r s cause name t b L :
  BridgeInv b L → state_ok L r s →
  wp (H:=H) (terminal_abnormal s cause name t) (same b L) b L.
Proof.
  intros HI Hok. unfold terminal_abnormal. assert (L ⊆ L) as HL by done.
  destruct (known_state _ _ _ Hok) as (Hq & Hqs & Ha & Hsp).
  assert (span_at L (rs_identity s) (str_or (rs_active_span_id s) (rs_queue_span_id s))) as Hspan.
  { unfold str_or. destruct (rs_active_span_id s); [|done]. case_match; auto. }
  assert (event_at L (rs_identity s)
    (be_event_id (default (rs_queue_started s) (rs_active_started s)))) as Hev.
  { destruct (rs_active_started s); simpl; auto. }
  clear Ha Hsp. wp_go. by apply same_intro.
Qed.

(** The bridge is as it was, or the request was retired. *)
Lemma retired_terminal r cause t generated b L :
  BridgeInv b L →
  wp (H:=H) (emit_runtime_terminal r cause t generated)
    (λ _ b' L', BridgeInv b' L' ∧ L ⊆ L' ∧
       b' = if is_some_b (terminal_events cause) && _is_uint64 t && is_some_b (br_states b !! r)
            then retire r b else b) b L.
Proof.
  intros HI. unfold emit_runtime_terminal. assert (L ⊆ L) as HL by done.
  apply wp_bind, wp_found. destruct (terminal_events cause) as [name|]; [|done].
  apply wp_bind, wp_proceed; intros ->; [|done]. wp_go.
  destruct (br_states b !! r) as [s|] eqn:Hs; [|done].
  apply wp_bind, wp_attempt. eapply wp_mono; [|destruct (String.eqb name _);
    [apply (same_terminal_done r)|apply (same_terminal_abnormal r)]; eauto using bi_states].
  intros o b' L' (-> & HI' & HL'). wp_go. split_and!; [by apply Inv_retire|done|done].
Qed.
End methods.
