(* ===== verification/BridgeProps.v ===== *)
(** * The lifecycle bridge: properties of every run

    [bridge_reachable] is what a sequence of calls of the runtime interface can
    reach from a new bridge, whatever the hooks answer; the properties are about
    those states and their logs. *)

From Stdlib Require Import ZArith Lia Ascii String.
From stdpp Require Import base list strings gmap fin_maps.
From S2P Require Import Prelude PyValue Sha256 RuntimeProtocol ProfileProtocol SinkState.
From S2P Require Import TraceSink SinkSteps Hooks HooksInterface LifecycleBridge BridgeInvariant BridgeSteps.

Inductive bridge_call :=
| CallRegister (run_id request : string) (timestamp_ns : Z)
| CallScheduled (request : string) (timestamp_ns : Z) (kind : string) (scheduled total cached : Z)
| CallPreempted (request : string) (epoch timestamp_ns : Z)
| CallAdmission (request : string) (epoch timestamp_ns : Z)
| CallResumed (request : string) (epoch timestamp_ns total cached : Z)
| CallFirstCompute (request : string) (epoch timestamp_ns : Z) (kind : string)
| CallTerminal (request cause : string) (timestamp_ns generated : Z)
| CallRequestTerminal (request : string).

Section reach.
Context {H : Type} `{!LifecycleHooks H}.

Definition discard {S A} (m : Try S A) : Try S unit := tbind m (λ _, tret tt).

Definition run_call (c : bridge_call) : Try (Bridge * H) unit :=
  match c with
  | CallRegister run_id r t => register_runtime_request run_id r t
  | CallScheduled r t kind n total cached => emit_runtime_scheduled r t kind n total cached
  | CallPreempted r e t => discard (emit_runtime_preempted r e t)
  | CallAdmission r e t => discard (emit_runtime_admission_started r e t)
  | CallResumed r e t total cached => discard (emit_runtime_resumed r e t total cached)
  | CallFirstCompute r e t kind => discard (emit_first_compute r e t kind)
  | CallTerminal r cause t n => discard (emit_runtime_terminal r cause t n)
  | CallRequestTerminal r => request_terminal r
  end.

(** The state after a sequence of calls; their results are dropped. *)
Definition run_calls (cs : list bridge_call) (s : Bridge * H) : Bridge * H :=
  foldl (λ s c, (run_call c s).2) s cs.
End reach.

(** Only the hashing of a run ID that is not ASCII can raise. *)
Definition call_ascii (c : bridge_call) : bool :=
  match c with
  | CallRegister run_id _ _ => str_forall (λ c, code c <? 128) run_id
  | _ => true
  end.

Section facts.
Context {H : Type} `{!LifecycleHooks H, !LifecycleHooksLaws H}.

Lemma wp_discard {A} (m : Try (Bridge * Recorded H) A) (P : Bridge → list emission → Prop) b L :
  wp m (λ _, P) b L → wp (discard m) (λ _, P) b L.
Proof.
  intros Hm. apply wp_bind. eapply wp_mono; [|exact Hm]. intros [a|] b' L' HP; [by apply wp_ret|done].
Qed.

(** What a call may do to the bridge when the hooks give nothing back *)
Definition call_post (c : bridge_call) (b : Bridge) (L : list emission) (o : option unit)
    (b' : Bridge) (L' : list emission) : Prop :=
  BridgeInv b' L' ∧ L ⊆ L' ∧
  (o = None → b' = b ∨ ∃ r cause t n, c = CallTerminal r cause t n ∧ b' = retire r b).

Lemma kept_discard {A} (m : Try (Bridge * Recorded H) A) c b L :
  wp m (kept b L) b L → wp (discard m) (call_post c b L) b L.
Proof.
  intros Hm. apply wp_bind. eapply wp_mono; [|exact Hm]. intros [a|] b' L' (? & ? & Hn).
  - by apply wp_ret.
  - split_and!; auto.
Qed.

Lemma call_spec c b L :
  call_ascii c = true → BridgeInv b L → wp (H:=H) (run_call c) (call_post c b L) b L.
Proof.
  intros Hc HI.
  assert (∀ o b' L', kept b L (o : option unit) b' L' → call_post c b L o b' L') as Hkept.
  { intros o b' L' (? & ? & ?). split_and!; auto. }
  destruct c; simpl in *.
  - eapply wp_mono; [|by apply kept_register]. intros o b' L' [? _]. by apply Hkept.
  - eapply wp_mono; [apply Hkept|]. by apply kept_scheduled.
  - by apply kept_discard, kept_runtime_preempted.
  - by apply kept_discard, kept_admission.
  - by apply kept_discard, kept_runtime_resumed.
  - by apply kept_discard, kept_first_compute.
  - apply wp_bind. eapply wp_mono; [|by apply retired_terminal].
    intros o b' L' (? & ? & ->). destruct o; [by apply wp_ret|]. split_and!; [done..|].
    intros _. destruct (is_some_b (terminal_events cause) && _ && _); eauto 10.
  - unfold request_terminal. apply wp_tmodify. split_and!; [by apply Inv_retire|done|done].
Qed.

Lemma call_raises c (s : Bridge * Recorded H) :
  call_ascii c = false → (run_call c s).2 = s.
Proof.
  destruct c; simpl; try done. intros Hrun. unfold register_runtime_request, tbind, proceed.
  destruct (_is_bounded_printable_ascii _ _); [|done]. unfold built, runtime_trace_id.
  rewrite str_forall_app, Hrun. done.
Qed.

Inductive bridge_reachable : Bridge * Recorded H → Prop :=
| reach_new capacity b h :
    initial_bridge capacity = Ok b → bridge_reachable (b, mkRecorded h [])
| reach_call c s : bridge_reachable s → bridge_reachable (run_call c s).2.

Lemma bridge_reachable_inv s : bridge_reachable s → BridgeInv s.1 (rec_log s.2).
Proof.
  induction 1 as [capacity b h Hb|c [b [h L]] _ IH]; [by eapply bridge_inv_initial|].
  destruct (call_ascii c) eqn:Hc.
  - destruct (call_spec c b L Hc IH h) as (o & b' & h' & L' & E & HI & _).
    simpl in *. rewrite E. exact HI.
  - by rewrite call_raises.
Qed.

(** The maps of the bridge agree and stay bounded.  In every reachable
    state there are at most [capacity] requests and at most [capacity]
    episodes; a request has an identity exactly when it has a state, the same
    one, valid and under its own request ID; an episode belongs to a registered
    request; and a state has an active event, span and compute kind, or none. *)
Theorem bridge_maps_agree (s : Bridge * Recorded H) :
  bridge_reachable s →
  let b := s.1 in
  Z.of_nat (size (br_identities b)) ≤ br_capacity b ∧
  Z.of_nat (size (br_episodes b)) ≤ br_capacity b ∧
  (∀ r, br_identities b !! r = rs_identity <$> br_states b !! r) ∧
  (∀ r st, br_states b !! r = Some st →
     ri_runtime_request_id (rs_identity st) = r ∧
     RequestLifecycleIdentity_post_init (rs_identity st) = Ok tt ∧
     (is_Some (rs_active_started st) ↔ is_Some (rs_active_span_id st)) ∧
     (is_Some (rs_active_started st) ↔
        ∃ kind, rs_active_compute_kind st = Some kind ∧ is_compute_kind kind = true) ∧
     0 ≤ rs_preemption_epoch st ∧ 0 ≤ rs_prompt_tokens_computed st ∧
     0 ≤ rs_prefill_chunk_count st) ∧
  (∀ r epoch e, br_episodes b !! (r, epoch) = Some e →
     1 ≤ epoch ∧ is_Some (br_identities b !! r)).
Proof.
  intros [HL Hc Hi He Hids Hst Hep]%bridge_reachable_inv. cbv zeta. split_and!; try done.
  - intros r st Hr. destruct (Hst r st Hr) as (? & ? & _ & _ & ? & ? & ? & Ha).
    revert Ha. unfold is_Some.
    destruct (rs_active_started st), (rs_active_span_id st), (rs_active_compute_kind st);
      naive_solver.
  - intros r epoch e Hk. destruct (Hep r epoch e Hk) as (st & Hr & ? & _).
    split; [done|]. rewrite Hids, Hr. by eexists.
Qed.

(** C10. No dangling evidence.  In the log of every reachable state, an edge
    names two events that were emitted before it, of the edge's own trace and of
    one lifecycle; and a span that an event ends or closes was started by an
    earlier event of the same trace and lifecycle. *)
Theorem bridge_log_grounded (s : Bridge * Recorded H) L1 e L2 :
  bridge_reachable s → rec_log s.2 = L1 ++ e :: L2 →
  match e with
  | EmSpan _ => True
  | EmEvent d _ =>
      ∀ span, ev_end_span_id d = Some span ∨ span ∈ ev_closing_span_ids d →
      ∃ d0 id0, EmEvent d0 id0 ∈ L1 ∧ ev_start_span_id d0 = Some span ∧
        ev_trace_id d0 = ev_trace_id d ∧ ev_lifecycle_id d0 = ev_lifecycle_id d
  | EmEdge d =>
      ∃ d1 d2, EmEvent d1 (ed_from_event_id d) ∈ L1 ∧ EmEvent d2 (ed_to_event_id d) ∈ L1 ∧
        ev_trace_id d1 = ed_trace_id d ∧ ev_trace_id d2 = ed_trace_id d ∧
        ev_lifecycle_id d1 = ev_lifecycle_id d2
  end.
Proof.
  intros HR%bridge_reachable_inv E. pose proof (bi_log _ _ HR _ _ _ E) as He.
  destruct e as [sp|d id|d]; [done| |]; simpl in He.
  - intros span Hspan. destruct (He span Hspan) as (i & Hi & Hl & d0 & id0 & ? & ? & ? & ?).
    exists d0, id0. split_and!; congruence.
  - destruct He as (i & Hi & (d1 & ? & ? & ?) & d2 & ? & ? & ?).
    exists d1, d2. split_and!; congruence.
Qed.

(** C11. A recovery episode is evidence, in order.  Whatever the bridge returns
    for an episode of a registered request rests on the log: the preempted event
    of the epoch before, the requeued event linked to it; an admission that ended
    the span the requeue started, linked to the requeue; a resumption only after
    an admission, ending its span and linked to it; a first compute event only
    after a resumption and linked to it. *)
Theorem episode_chain (s : Bridge * Recorded H) r epoch e :
  bridge_reachable s → br_episodes s.1 !! (r, epoch) = Some e →
  ∃ i, br_identities s.1 !! r = Some i ∧
  let L := rec_log s.2 in
  (∃ span, boundary L i "preempted" (epoch - 1) None (Some span) (ep_preempted e)) ∧
  boundary L i "requeued" epoch (Some (ep_queue_span_id e)) None (ep_requeued e) ∧
  linked L i (be_event_id (ep_preempted e)) (be_event_id (ep_requeued e)) ∧
  (∀ a, ep_admission_started e = Some a → ∃ span,
     boundary L i "admission_started" epoch (Some span) (Some (ep_queue_span_id e)) a ∧
     linked L i (be_event_id (ep_requeued e)) (be_event_id a) ∧
     ∀ m, ep_resumed e = Some m →
       boundary L i "resumed" epoch None (Some span) m ∧
       linked L i (be_event_id a) (be_event_id m)) ∧
  (∀ m, ep_resumed e = Some m → is_Some (ep_admission_started e)) ∧
  (∀ f, ep_first_compute e = Some f → ∃ m kind span, ep_resumed e = Some m ∧
     is_compute_kind kind = true ∧
     boundary L i (kind +:+ "_started") epoch (Some span) None f ∧
     linked L i (be_event_id m) (be_event_id f)).
Proof.
  intros HR%bridge_reachable_inv He. destruct (bi_episodes _ _ HR _ _ _ He) as (st & Hst & Hok).
  exists (rs_identity st). rewrite (bi_identities _ _ HR), Hst. split; [done|]. cbv zeta.
  destruct Hok as (_ & ? & ? & ? & Ha).
  destruct (ep_admission_started e) as [a|], (ep_admission_span_id e) as [sp|]; try done.
  - destruct Ha as (? & ? & Hm). split_and!; try done.
    + intros a' [= <-]. exists sp. split_and!; [done..|]. intros m Em. unfold resumed_ok in Hm.
      rewrite Em in Hm. by destruct Hm as (? & ? & _).
    + intros f Ef. unfold resumed_ok in Hm. destruct (ep_resumed e) as [m|]; [|congruence].
      destruct Hm as (_ & _ & Hf). rewrite Ef in Hf. destruct Hf as (kind & span & ? & ? & ?).
      eauto 10.
  - destruct Ha as [-> ->]. by split_and!.
Qed.

(** C12. The bridge is fail-open.  In every reachable state a call raises
    nothing, unless it registers a request under a run ID that is not ASCII, and
    then nothing changed; when a call gives up because the hooks returned nothing
    or a precondition does not hold, the bridge is what it was, except that a
    terminal retires its request. *)
Theorem bridge_fail_open (s : Bridge * Recorded H) c :
  bridge_reachable s →
  (call_ascii c = true → is_ok (run_call c s).1 = true) ∧
  (is_ok (run_call c s).1 = false → (run_call c s).2 = s) ∧
  ((run_call c s).1 = Ok None →
     (run_call c s).2.1 = s.1 ∨
     ∃ r cause t n, c = CallTerminal r cause t n ∧ (run_call c s).2.1 = retire r s.1).
Proof.
  intros HR%bridge_reachable_inv. destruct s as [b [h L]]. simpl in HR.
  destruct (call_ascii c) eqn:Hc.
  - destruct (call_spec c b L Hc HR h) as (o & b' & h' & L' & E & _ & _ & Hn).
    simpl in *. rewrite E. split_and!; [done|done|]. simpl. by intros [= ->]; auto.
  - rewrite call_raises by done. split_and!; [done|done|by left].
Qed.

(** A terminal retires exactly its request.  In every reachable state
    [emit_runtime_terminal] with a known cause, a uint64 time and a registered
    request removes the identity, the state and every episode of that request and
    nothing else, whether or not its events were accepted; otherwise the bridge
    does not change and nothing is emitted or returned. *)
Theorem terminal_retires (s : Bridge * Recorded H) r cause t generated :
  bridge_reachable s →
  let '(o, s') := emit_runtime_terminal r cause t generated s in
  if is_some_b (terminal_events cause) && _is_uint64 t && is_some_b (br_states s.1 !! r) then
    is_ok o = true ∧
    br_identities s'.1 !! r = None ∧ br_states s'.1 !! r = None ∧
    (∀ epoch, br_episodes s'.1 !! (r, epoch) = None) ∧
    (∀ r', r' ≠ r → br_identities s'.1 !! r' = br_identities s.1 !! r' ∧
       br_states s'.1 !! r' = br_states s.1 !! r' ∧
       ∀ epoch, br_episodes s'.1 !! (r', epoch) = br_episodes s.1 !! (r', epoch)) ∧
    br_capacity s'.1 = br_capacity s.1
  else o = Ok None ∧ s' = s.
Proof.
  intros HR%bridge_reachable_inv. destruct s as [b [h L]]. simpl in HR.
  destruct (retired_terminal (H:=H) r cause t generated b L HR h)
    as (o & b' & h' & L' & E & _ & _ & Hb).
  destruct (is_some_b (terminal_events cause) && _is_uint64 t && is_some_b (br_states b !! r)) eqn:Ec.
  - rewrite E. simpl in *. rewrite Ec. subst b'. split_and!; try done; simpl.
    + apply lookup_delete_eq.
    + apply lookup_delete_eq.
    + intros epoch. apply map_lookup_filter_None. right. intros e _ Hne. by apply Hne.
    + intros r' Hr'. rewrite !lookup_delete_ne by done. split_and!; try done.
      intros epoch. destruct (br_episodes b !! (r', epoch)) as [e|] eqn:Ee.
      * by apply map_lookup_filter_Some.
      * apply map_lookup_filter_None. by left.
  - clear E. simpl. rewrite Ec. unfold emit_runtime_terminal, tbind, found, proceed, tget.
    destruct (terminal_events cause); [|done]. simpl in Ec. destruct (_is_uint64 t); [|done].
    simpl in *. by destruct (br_states b !! r).
Qed.
End facts.

(** ** A run over the exporter *)

Definition example_live : LiveHooks :=
  mkLive example_hooks 7 (λ n, (Ok (PInt (10 + Z.of_nat n)), Z.of_nat n)) 0.

Definition example_calls : list bridge_call :=
  [CallRegister "run" "req-1" 100; CallScheduled "req-1" 110 "prefill" 8 64 0;
   CallPreempted "req-1" 1 120; CallAdmission "req-1" 1 130; CallResumed "req-1" 1 140 64 16;
   CallFirstCompute "req-1" 1 150 "decode"].

Definition example_run : Bridge * Recorded LiveHooks :=
  run_calls example_calls (mkBridge 4 ∅ ∅ ∅, mkRecorded example_live []).

Lemma run_calls_reachable {H} `{!LifecycleHooks H, !LifecycleHooksLaws H} cs
    (s : Bridge * Recorded H) : bridge_reachable s → bridge_reachable (run_calls cs s).
Proof.
  revert s. induction cs as [|c cs IH]; intros s Hs; [done|]. apply IH. by apply reach_call.
Qed.

Lemma example_run_reachable : bridge_reachable example_run.
Proof.
  apply run_calls_reachable. by apply (reach_new 4).
Qed.

Lemma bridge_maps_agree_witness :
  size (br_states example_run.1) = 1%nat ∧
  ∀ r epoch e, br_episodes example_run.1 !! (r, epoch) = Some e →
    1 ≤ epoch ∧ is_Some (br_identities example_run.1 !! r).
Proof.
  assert (size (br_states example_run.1) = 1%nat) as H1 by (vm_compute; reflexivity).
  revert H1. generalize example_run_reachable. generalize example_run. intros s Hs H1.
  split; [exact H1|]. destruct (bridge_maps_agree s Hs) as (_ & _ & _ & _ & He). exact He.
Defined.

Lemma bridge_log_grounded_witness :
  ∃ d L1 L2, rec_log example_run.2 = L1 ++ EmEdge d :: L2 ∧ ed_edge_kind d = "program_order" ∧
    ∃ d1 d2, EmEvent d1 (ed_from_event_id d) ∈ L1 ∧ EmEvent d2 (ed_to_event_id d) ∈ L1 ∧
      ev_trace_id d1 = ed_trace_id d ∧ ev_trace_id d2 = ed_trace_id d ∧
      ev_lifecycle_id d1 = ev_lifecycle_id d2.
Proof.
  assert (match drop 19 (rec_log example_run.2) with
          | EmEdge d :: _ => String.eqb (ed_edge_kind d) "program_order" | _ => false end = true) as H1
    by (vm_compute; reflexivity).
  revert H1. generalize example_run_reachable. generalize example_run. intros s Hs H1.
  pose proof (take_drop 19 (rec_log s.2)) as E.
  destruct (drop 19 (rec_log s.2)) as [|[sp|d0 id|d] L2]; try discriminate H1.
  symmetry in E. exists d, (take 19 (rec_log s.2)), L2. split; [exact E|].
  split; [apply String.eqb_eq; exact H1|].
  exact (bridge_log_grounded s _ (EmEdge d) L2 Hs E).
Defined.

Lemma episode_chain_witness :
  ∃ e i m f kind span, br_episodes example_run.1 !! ("req-1", 1) = Some e ∧
    ep_resumed e = Some m ∧ ep_first_compute e = Some f ∧
    boundary (rec_log example_run.2) i (kind +:+ "_started") 1 (Some span) None f ∧
    linked (rec_log example_run.2) i (be_event_id m) (be_event_id f).
Proof.
  assert (match br_episodes example_run.1 !! ("req-1", 1) with
          | Some e => is_some_b (ep_first_compute e) | None => false end = true) as H1
    by (vm_compute; reflexivity).
  revert H1. generalize example_run_reachable. generalize example_run. intros s Hs H1.
  destruct (br_episodes s.1 !! ("req-1", 1)) as [e|] eqn:E; [|discriminate H1].
  destruct (ep_first_compute e) as [f|] eqn:Ef; [|discriminate H1].
  destruct (episode_chain s "req-1" 1 e Hs E) as (i & _ & _ & _ & _ & _ & _ & Hf).
  destruct (Hf f Ef) as (m & kind & span & Hm & _ & Hb & Hl).
  exists e, i, m, f, kind, span. split; [reflexivity|]. split; [exact Hm|].
  split; [exact Ef|]. split; [exact Hb|exact Hl].
Defined.

Lemma bridge_fail_open_witness :
  is_ok (run_call (CallAdmission "req-1" 2 160) example_run).1 = true ∧
  (run_call (CallRegister (String (ascii_of_nat 200) "") "req-2" 160) example_run).2 = example_run.
Proof.
  assert (is_ok (run_call (CallRegister (String (ascii_of_nat 200) "") "req-2" 160)
    example_run).1 = false) as H1 by (vm_compute; reflexivity).
  revert H1. generalize example_run_reachable. generalize example_run. intros s Hs H1. split.
  - exact (proj1 (bridge_fail_open s (CallAdmission "req-1" 2 160) Hs) eq_refl).
  - exact (proj1 (proj2 (bridge_fail_open s _ Hs)) H1).
Defined.

Lemma terminal_retires_witness :
  is_ok (emit_runtime_terminal "req-1" "complete" 170 3 example_run).1 = true ∧
  br_states (emit_runtime_terminal "req-1" "complete" 170 3 example_run).2.1 !! "req-1" = None.
Proof.
  assert (is_some_b (br_states example_run.1 !! "req-1") = true) as H1 by (vm_compute; reflexivity).
  revert H1. generalize example_run_reachable. generalize example_run. intros s Hs H1.
  pose proof (terminal_retires s "req-1" "complete" 170 3 Hs) as HT.
  destruct (emit_runtime_terminal "req-1" "complete" 170 3 s) as [o s'].
  change (is_some_b (terminal_events "complete")) with true in HT.
  change (_is_uint64 170) with true in HT. rewrite H1 in HT. simpl in HT.
  destruct HT as (Ho & _ & Hst & _). split; [exact Ho|exact Hst].
Defined.
