(* ===== verification/ProfileLedger.v ===== *)
(** * kv_recovery_runtime.py: [BoundedKVRecoveryProfileLedger]

    The ledger allocates one sequence number per attempted profile record and
    keeps what was recorded and what was lost.  With hooks every call goes to the
    exporter, which [ProfileHooks] abstracts; without, the ledger keeps the lists
    itself.  The specification is the list of the attempts: the ledger's lists are
    its recorded entries and its maximal runs of lost ones. *)

From Stdlib Require Import ZArith Lia Ascii String.
From stdpp Require Import base list strings gmap sorting.
From S2P Require Import Prelude PyValue Sha256 RuntimeProtocol ProfileProtocol SinkState.
From S2P Require Import TraceSink SinkSteps SinkInvariant SinkReach SinkSnapshot Hooks HooksInterface.

(** What the ledger calls on the facade *)
Class ProfileHooks (H : Type) := {
  ph_emit : string → pyval → pydict → H → option ProfileRecordRef * H;
  ph_drop : string → pyval → string → H → option Z * H;
  ph_snapshot : H → list ProfileRecord * list ProfileLossInterval;
  ph_evidence_complete : H → bool;
  ph_attempted : H → Z }.

#[export] Instance live_profile_hooks : ProfileHooks LiveHooks := {|
  ph_emit t ts fields := live (emit_kv_recovery_profile t ts fields);
  ph_drop t ts reason := live (hooks_drop_kv_recovery_profile t ts reason);
  ph_snapshot l := hooks_snapshot (lv_pid l) (lv_hooks l);
  ph_evidence_complete l := hooks_evidence_complete (lv_pid l) (lv_hooks l);
  ph_attempted l := hooks_attempted_data_count (lv_pid l) (lv_hooks l) |}.

(** ** The ledger *)

Record BoundedKVRecoveryProfileLedger (H : Type) := mkLedger {
  lg_process_uuid : string;
  lg_capacity : Z;
  lg_hooks : option H;
  lg_next_record_seq : Z;
  lg_records : list ProfileRecord;
  lg_losses : list ProfileLossInterval }.
Arguments mkLedger {_} _ _ _ _ _ _.
Arguments lg_process_uuid {_} _.
Arguments lg_capacity {_} _.
Arguments lg_hooks {_} _.
Arguments lg_next_record_seq {_} _.
Arguments lg_records {_} _.
Arguments lg_losses {_} _.

Section ledger.
Context {H : Type} `{!ProfileHooks H}.
Implicit Types g : BoundedKVRecoveryProfileLedger H.

Definition new_ledger (process_uuid : string) (capacity : Z) (hooks : option H)
    : res (BoundedKVRecoveryProfileLedger H) :=
  ensure (_HEX32 process_uuid)
    (ValueError "process_uuid must be 32 lowercase hexadecimal characters") ;;
  ensure (1 <=? capacity) (ValueError "capacity must be a positive integer") ;;
  Ok (mkLedger process_uuid capacity hooks 0 [] []).

Definition set_lg_next n g := mkLedger (lg_process_uuid g) (lg_capacity g) (lg_hooks g) n
  (lg_records g) (lg_losses g).
Definition set_lg_records rs g := mkLedger (lg_process_uuid g) (lg_capacity g) (lg_hooks g)
  (lg_next_record_seq g) rs (lg_losses g).
Definition set_lg_losses ls g := mkLedger (lg_process_uuid g) (lg_capacity g) (lg_hooks g)
  (lg_next_record_seq g) (lg_records g) ls.
Definition set_lg_hooks (h : H) g := mkLedger (lg_process_uuid g) (lg_capacity g) (Some h)
  (lg_next_record_seq g) (lg_records g) (lg_losses g).

Definition evidence_complete g : bool :=
  match lg_hooks g with
  | Some h => ph_evidence_complete h
  | None => match lg_losses g with [] => true | _ => false end
  end.

Definition attempted_data_count g : Z :=
  match lg_hooks g with Some h => ph_attempted h | None => lg_next_record_seq g end.

Definition ledger_snapshot g : list ProfileRecord * list ProfileLossInterval :=
  match lg_hooks g with Some h => ph_snapshot h | None => (lg_records g, lg_losses g) end.

Definition _allocate_locked : M (BoundedKVRecoveryProfileLedger H) Z := λ g,
  let value := lg_next_record_seq g in
  if _UINT64_MAX <? value then (Raise (OverflowError "profile record sequence exhausted"), g)
  else (Ok value, set_lg_next (value + 1) g).

(** [self._losses[-1]] extended, when it ends just before [record_seq] for the same
    reason. *)
Definition extends_last (reason : string) (record_seq : Z) (ls : list ProfileLossInterval)
    : option ProfileLossInterval :=
  match last ls with
  | Some previous =>
      if String.eqb (pl_reason previous) reason && (pl_last_record_seq previous + 1 =? record_seq)
      then Some previous else None
  | None => None
  end.

Definition _drop_locked (record_type : string) (record_seq timestamp_ns : Z) (reason : string)
    : M (BoundedKVRecoveryProfileLedger H) unit := λ g,
  match extends_last reason record_seq (lg_losses g) with
  | Some previous =>
      match pl_counts previous !! record_type with
      | None => (Raise (KeyError record_type), g)
      | Some n =>
          (Ok tt, set_lg_losses (set_last
            (mkProfileLoss reason (pl_first_record_seq previous) record_seq
               (<[record_type := n + 1]> (pl_counts previous)) (pl_first_timestamp_ns previous)
               timestamp_ns) (lg_losses g)) g)
      end
  | None =>
      (Ok tt, set_lg_losses (lg_losses g ++
        [mkProfileLoss reason record_seq record_seq (<[record_type := 1]> (zero_counts Profile))
           timestamp_ns timestamp_ns]) g)
  end.

(** [_is_uint64(timestamp_ns)] with the value it accepted *)
Definition uint64_of (v : pyval) : option Z :=
  match v with PInt z => if (0 <=? z) && (z <=? _UINT64_MAX) then Some z else None | _ => None end.

Definition ledger_write (record_type : string) (timestamp_ns : pyval) (fields : pydict)
    : M (BoundedKVRecoveryProfileLedger H) (option string) :=
  lift (ensure (str_in record_type ProfileRecordType)
    (ValueError "record_type is not in the recovery profile roster")) ;;
  g ← get;
  match lg_hooks g with
  | Some h =>
      let '(reference, h) := ph_emit record_type timestamp_ns fields h in
      modify (set_lg_hooks h) ;; mret (pr_record_id <$> reference)
  | None =>
      record_seq ← _allocate_locked;
      match uint64_of timestamp_ns with
      | None => _drop_locked record_type record_seq 0 "serialization_failure" ;; mret None
      | Some observed =>
          if lg_capacity g <=? Z.of_nat (List.length (lg_records g)) then
            _drop_locked record_type record_seq observed "queue_overflow" ;; mret None
          else
            let record_id := make_id (lg_process_uuid g) "k" record_seq in
            modify (λ g, set_lg_records (lg_records g ++
              [mkProfileRecord record_type record_seq record_id observed fields]) g) ;;
            mret (Some record_id)
      end
  end.

Definition ledger_drop (record_type : string) (timestamp_ns : pyval) (reason : string)
    : M (BoundedKVRecoveryProfileLedger H) Z :=
  g ← get;
  match lg_hooks g with
  | Some h =>
      let '(record_seq, h) := ph_drop record_type timestamp_ns reason h in
      modify (set_lg_hooks h) ;; mret (default (-1) record_seq)
  | None =>
      record_seq ← _allocate_locked;
      _drop_locked record_type record_seq (default 0 (uint64_of timestamp_ns)) reason ;;
      mret record_seq
  end.
End ledger.

(** ** The specification: a list of attempts *)

Record lost := mkLost { lo_record_type : string; lo_reason : string; lo_timestamp_ns : Z }.

Inductive attempt :=
| Kept (record_type : string) (timestamp_ns : Z) (fields : pydict)
| Lost (l : lost).

Definition is_kept (a : attempt) : bool := match a with Kept _ _ _ => true | Lost _ => false end.

(** The recorded entries, the first attempt having the number [n] *)
Fixpoint kept_records (uuid : string) (n : Z) (l : list attempt) : list ProfileRecord :=
  match l with
  | [] => []
  | Kept t ts fields :: l =>
      mkProfileRecord t n (make_id uuid "k" n) ts fields :: kept_records uuid (n + 1) l
  | Lost _ :: l => kept_records uuid (n + 1) l
  end.

(** The maximal runs of lost entries with one reason, each with its first number *)
Fixpoint lost_runs (n : Z) (l : list attempt) : list (Z * list lost) :=
  match l with
  | [] => []
  | Kept _ _ _ :: l => lost_runs (n + 1) l
  | Lost x :: l =>
      match lost_runs (n + 1) l with
      | (m, y :: ys) :: rs =>
          if (m =? n + 1) && String.eqb (lo_reason x) (lo_reason y) then (n, x :: y :: ys) :: rs
          else (n, [x]) :: (m, y :: ys) :: rs
      | rs => (n, [x]) :: rs
      end
  end.

Definition run_counts (xs : list lost) : type_counts :=
  foldl (λ c x, incr (lo_record_type x) c) (zero_counts Profile) xs.

(** The interval that stands for a run *)
Definition run_interval (r : Z * list lost) : ProfileLossInterval :=
  let '(n, xs) := r in
  mkProfileLoss (default "" (lo_reason <$> head xs)) n (n + Z.of_nat (List.length xs) - 1)
    (run_counts xs) (default 0 (lo_timestamp_ns <$> head xs))
    (default 0 (lo_timestamp_ns <$> last xs)).

Inductive ledger_op :=
| OpWrite (record_type : string) (timestamp_ns : pyval) (fields : pydict)
| OpDrop (record_type : string) (timestamp_ns : pyval) (reason : string).

(** What an operation attempts after the attempts [l] *)
Definition attempt_of (capacity : Z) (l : list attempt) (op : ledger_op) : attempt :=
  match op with
  | OpWrite t ts fields =>
      match uint64_of ts with
      | None => Lost (mkLost t "serialization_failure" 0)
      | Some z =>
          if capacity <=? Z.of_nat (List.length (filter is_kept l)) then
            Lost (mkLost t "queue_overflow" z)
          else Kept t z fields
      end
  | OpDrop t ts reason => Lost (mkLost t reason (default 0 (uint64_of ts)))
  end.

Definition attempts (capacity : Z) (ops : list ledger_op) : list attempt :=
  foldl (λ l op, l ++ [attempt_of capacity l op]) [] ops.

Definition op_type (op : ledger_op) : string :=
  match op with OpWrite t _ _ => t | OpDrop t _ _ => t end.

(** ** Runs *)

(** Append a lost entry with the number [seq] to runs that end before it. *)
Definition extend_runs (seq : Z) (x : lost) (rs : list (Z * list lost)) : list (Z * list lost) :=
  match last rs with
  | Some (m, y :: ys) =>
      if (m + Z.of_nat (List.length (y :: ys)) =? seq) && String.eqb (lo_reason y) (lo_reason x)
      then set_last (m, (y :: ys) ++ [x]) rs
      else rs ++ [(seq, [x])]
  | _ => rs ++ [(seq, [x])]
  end.

Lemma kept_records_snoc uuid n l a :
  kept_records uuid n (l ++ [a]) = kept_records uuid n l ++
    kept_records uuid (n + Z.of_nat (length l)) [a].
Proof.
  revert n. induction l as [|b l IH]; intros n; [by rewrite Z.add_0_r|].
  assert (n + Z.of_nat (length (b :: l)) = n + 1 + Z.of_nat (length l)) as -> by (cbn [length]; lia).
  destruct b; cbn [app kept_records]; by rewrite IH.
Qed.

Lemma lost_runs_kept n l t ts f : lost_runs n (l ++ [Kept t ts f]) = lost_runs n l.
Proof.
  revert n. induction l as [|[t' ts' f'|x] l IH]; intros n; cbn [app lost_runs]; by rewrite ?IH.
Qed.

(** The step of [lost_runs] *)
Definition cons_run (n : Z) (x : lost) (rs : list (Z * list lost)) : list (Z * list lost) :=
  match rs with
  | (m, y :: ys) :: rs =>
      if (m =? n + 1) && String.eqb (lo_reason x) (lo_reason y) then (n, x :: y :: ys) :: rs
      else (n, [x]) :: (m, y :: ys) :: rs
  | rs => (n, [x]) :: rs
  end.

Lemma lost_runs_cons n x l : lost_runs n (Lost x :: l) = cons_run n x (lost_runs (n + 1) l).
Proof. cbn [lost_runs]. by destruct (lost_runs (n + 1) l) as [|[m [|y ys]] rs]. Qed.

Lemma extend_runs_cons seq x r r' rs :
  extend_runs seq x (r :: r' :: rs) = r :: extend_runs seq x (r' :: rs).
Proof.
  unfold extend_runs, set_last. rewrite last_cons_cons.
  destruct (last (r' :: rs)) as [[m [|y ys]]|]; [done| |done].
  case_match; [|done]. cbn [length]. by replace (S (S (length rs)) - 1)%nat with (S (S (length rs) - 1)) by lia.
Qed.

Lemma extend_cons_run seq x n y rs :
  extend_runs seq x (cons_run n y rs) = cons_run n y (extend_runs seq x rs).
Proof.
  destruct rs as [|[m [|z zs]] [|r rs]].
  - unfold extend_runs, cons_run, set_last. cbn [last app]. rewrite (Z.eqb_sym seq).
    change (Z.of_nat (length [y])) with 1. by case_match.
  - done.
  - cbn [cons_run]. by rewrite !extend_runs_cons.
  - unfold extend_runs, cons_run, set_last. cbn [last head].
    destruct ((m =? n + 1) && String.eqb (lo_reason y) (lo_reason z)) eqn:E.
    + bool_prop. subst m. cbn [last]. rewrite <- H0.
      replace (n + 1 + Z.of_nat (length (z :: zs))) with (n + Z.of_nat (length (y :: z :: zs)))
        by (cbn [length]; lia).
      set (c := (n + Z.of_nat (length (y :: z :: zs)) =? seq) && _). destruct c;
        cbn [length take app Nat.sub]; by rewrite Z.eqb_refl, H0, String.eqb_refl.
    + cbn [last]. set (c := (m + Z.of_nat (length (z :: zs)) =? seq) && _).
      destruct c; cbn [length take app Nat.sub]; by rewrite E.
  - rewrite extend_runs_cons. unfold cons_run.
    case_match; by rewrite ?extend_runs_cons.
Qed.

Lemma lost_runs_lost n l x :
  lost_runs n (l ++ [Lost x]) = extend_runs (n + Z.of_nat (length l)) x (lost_runs n l).
Proof.
  revert n. induction l as [|b l IH]; intros n; [by rewrite Z.add_0_r|].
  assert (n + Z.of_nat (length (b :: l)) = n + 1 + Z.of_nat (length l)) as -> by (cbn [length]; lia).
  destruct b as [t ts f|y]; [apply IH|].
  rewrite <- app_comm_cons, !lost_runs_cons, IH. symmetry. apply extend_cons_run.
Qed.

Lemma lost_runs_nonempty n l : Forall (λ r, r.2 ≠ []) (lost_runs n l).
Proof.
  revert n. induction l as [|[t ts f|x] l IH]; intros n; [constructor|apply IH|].
  rewrite lost_runs_cons. specialize (IH (n + 1)).
  destruct IH as [|[m [|y ys]] rs Hr IH]; simpl; [by repeat constructor|done|].
  case_match; by repeat constructor.
Qed.

(** ** One operation *)

Inductive ledger_result := RecordId (id : option string) | RecordSeq (seq : Z).

Section refinement.
Context {H : Type} `{!ProfileHooks H}.

Definition run_op (op : ledger_op) : M (BoundedKVRecoveryProfileLedger H) ledger_result :=
  match op with
  | OpWrite t ts fields => id ← ledger_write t ts fields; mret (RecordId id)
  | OpDrop t ts reason => seq ← ledger_drop t ts reason; mret (RecordSeq seq)
  end.

Fixpoint run_ops (ops : list ledger_op) : M (BoundedKVRecoveryProfileLedger H) (list ledger_result) :=
  match ops with
  | [] => mret []
  | op :: ops => r ← run_op op; rs ← run_ops ops; mret (r :: rs)
  end.

(** The ledger that the attempts [l] describe *)
Definition ledger_of (uuid : string) (capacity : Z) (l : list attempt)
    : BoundedKVRecoveryProfileLedger H :=
  mkLedger uuid capacity None (Z.of_nat (length l)) (kept_records uuid 0 l)
    (map run_interval (lost_runs 0 l)).

Definition result_of (uuid : string) (n : Z) (op : ledger_op) (a : attempt) : ledger_result :=
  match op with
  | OpWrite _ _ _ => RecordId (if is_kept a then Some (make_id uuid "k" n) else None)
  | OpDrop _ _ _ => RecordSeq n
  end.

Lemma run_counts_lookup xs t :
  t ∈ ProfileRecordType → run_counts xs !! t = Some (count_of (run_counts xs) t).
Proof.
  intros Ht. unfold run_counts, count_of.
  assert (∀ c : type_counts, is_Some (c !! t) → is_Some (foldl (λ c x, incr (lo_record_type x) c) c xs !! t))
    as Hfold.
  { induction xs as [|x xs IH]; intros c Hc; [done|]. apply IH. unfold incr.
    rewrite lookup_insert_is_Some. destruct (decide (lo_record_type x = t)); [by left|by right]. }
  destruct (Hfold (zero_counts Profile)) as [z Hz]; [|by rewrite Hz].
  repeat (apply elem_of_cons in Ht as [-> | Ht]); [..|by apply elem_of_nil in Ht]; vm_compute; eauto.
Qed.

Lemma last_map {A B} (f : A → B) (l : list A) : last (map f l) = f <$> last l.
Proof. apply fmap_last. Qed.

Lemma run_interval_snoc m y ys x :
  run_interval (m, (y :: ys) ++ [x]) = mkProfileLoss (lo_reason y) m
    (m + Z.of_nat (length (y :: ys))) (incr (lo_record_type x) (run_counts (y :: ys)))
    (lo_timestamp_ns y) (lo_timestamp_ns x).
Proof.
  unfold run_interval. rewrite last_snoc. unfold run_counts. rewrite foldl_app, length_app.
  cbn [head app fmap option_fmap option_map default foldl length]. f_equal. lia.
Qed.

Lemma run_interval_one n x :
  run_interval (n, [x]) = mkProfileLoss (lo_reason x) n n
    (<[lo_record_type x := 1]> (zero_counts Profile)) (lo_timestamp_ns x) (lo_timestamp_ns x).
Proof.
  unfold run_interval, run_counts, incr. cbn [foldl head last length fmap option_fmap option_map default].
  rewrite zero_count_of. f_equal. lia.
Qed.

Lemma drop_locked_refines uuid cap l t reason ts n :
  t ∈ ProfileRecordType → n = Z.of_nat (length l) →
  _drop_locked t n ts reason (set_lg_next (n + 1) (ledger_of uuid cap l)) =
    (Ok tt, ledger_of uuid cap (l ++ [Lost (mkLost t reason ts)])).
Proof.
  intros Ht ->. unfold ledger_of at 2. rewrite length_app, kept_records_snoc, lost_runs_lost.
  cbn [kept_records length]. rewrite app_nil_r, Z.add_0_l.
  replace (Z.of_nat (length l + 1)) with (Z.of_nat (length l) + 1) by lia.
  unfold _drop_locked, extends_last, extend_runs. cbn [lg_losses set_lg_next ledger_of].
  rewrite last_map. pose proof (lost_runs_nonempty 0 l) as Hne. revert Hne.
  generalize (lost_runs 0 l). intros rs Hne.
  destruct (last rs) as [[m ys]|] eqn:El; cbn [fmap option_fmap option_map].
  - apply last_Some in El as [pre ->]. apply Forall_app in Hne as [_ Hne].
    apply Forall_cons in Hne as [Hne _]. destruct ys as [|y ys]; [done|]. clear Hne.
    set (x := mkLost t reason ts).
    assert (pl_reason (run_interval (m, y :: ys)) = lo_reason y) as -> by done.
    assert (pl_last_record_seq (run_interval (m, y :: ys)) + 1
            = m + Z.of_nat (length (y :: ys))) as -> by (simpl; lia).
    rewrite andb_comm. change (lo_reason x) with reason.
    destruct ((m + Z.of_nat (length (y :: ys)) =? Z.of_nat (length l)) && String.eqb (lo_reason y) reason)
      eqn:E.
    + bool_prop. cbn [pl_counts run_interval]. rewrite run_counts_lookup by done.
      rewrite map_app, !set_last_app, map_app. cbn [map].
      rewrite run_interval_snoc. unfold set_lg_losses, set_lg_next, ledger_of. simpl in *.
      by rewrite set_last_app, H0, H1.
    + rewrite (map_app _ (pre ++ _)). cbn [map]. by rewrite run_interval_one.
  - rewrite map_app. cbn [map]. by rewrite run_interval_one.
Qed.

Lemma allocate_refines uuid cap l :
  Z.of_nat (length l) ≤ _UINT64_MAX →
  _allocate_locked (ledger_of uuid cap l) =
    (Ok (Z.of_nat (length l)), set_lg_next (Z.of_nat (length l) + 1) (ledger_of uuid cap l)).
Proof.
  intros Hl. unfold _allocate_locked. cbn [lg_next_record_seq ledger_of].
  by rewrite (proj2 (Z.ltb_ge _ _)).
Qed.

Lemma length_kept_records uuid n l : length (kept_records uuid n l) = length (filter is_kept l).
Proof.
  revert n. induction l as [|[t ts f|x] l IH]; intros n; [done|..]; cbn [kept_records].
  - rewrite filter_cons_True by done. simpl. by rewrite IH.
  - by rewrite filter_cons_False by naive_solver.
Qed.

Lemma ledger_of_kept uuid cap l t z fields :
  ledger_of uuid cap (l ++ [Kept t z fields]) =
    set_lg_records (kept_records uuid 0 l ++ [mkProfileRecord t (Z.of_nat (length l))
      (make_id uuid "k" (Z.of_nat (length l))) z fields])
      (set_lg_next (Z.of_nat (length l) + 1) (ledger_of uuid cap l)).
Proof.
  unfold ledger_of. rewrite length_app, kept_records_snoc, lost_runs_kept, Z.add_0_l.
  cbn [length]. by replace (Z.of_nat (length l + 1)) with (Z.of_nat (length l) + 1) by lia.
Qed.

(** The call returns, and takes the ledger of [l] to that of one more attempt. *)
Lemma run_op_refines uuid cap l op :
  op_type op ∈ ProfileRecordType → Z.of_nat (length l) ≤ _UINT64_MAX →
  run_op op (ledger_of uuid cap l) =
    (Ok (result_of uuid (Z.of_nat (length l)) op (attempt_of cap l op)),
     ledger_of uuid cap (l ++ [attempt_of cap l op])).
Proof.
  intros Ht Hl. destruct op as [t ts fields|t ts reason]; simpl in Ht; cbn [run_op attempt_of].
  - apply str_in_spec in Ht as Hin.
    unfold ledger_write, mbind, M_bind, mret, M_ret, get, lift. rewrite Hin. cbn [ensure lg_hooks ledger_of].
    rewrite allocate_refines by done. destruct (uint64_of ts) as [z|].
    + cbn [lg_capacity set_lg_next ledger_of lg_records]. rewrite length_kept_records.
      destruct (cap <=? _) eqn:Ec.
      * by rewrite drop_locked_refines.
      * by rewrite ledger_of_kept.
    + by rewrite drop_locked_refines.
  - unfold ledger_drop, mbind, M_bind, mret, M_ret, get. cbn [lg_hooks ledger_of].
    rewrite allocate_refines by done. by rewrite drop_locked_refines.
Qed.

(** What the operations return, after the attempts [l] *)
Fixpoint expected (uuid : string) (cap : Z) (l : list attempt) (ops : list ledger_op)
    : list ledger_result :=
  match ops with
  | [] => []
  | op :: ops =>
      let a := attempt_of cap l op in
      result_of uuid (Z.of_nat (length l)) op a :: expected uuid cap (l ++ [a]) ops
  end.

Lemma run_ops_refines uuid cap ops l :
  Forall (λ op, op_type op ∈ ProfileRecordType) ops →
  Z.of_nat (length l + length ops) ≤ _UINT64_MAX + 1 →
  run_ops ops (ledger_of uuid cap l) =
    (Ok (expected uuid cap l ops),
     ledger_of uuid cap (foldl (λ l op, l ++ [attempt_of cap l op]) l ops)).
Proof.
  intros Ht. revert l. induction Ht as [|op ops Hop Ht IH]; intros l Hl; [done|].
  cbn [run_ops foldl expected length] in *. unfold mbind, M_bind, mret, M_ret.
  rewrite run_op_refines by (done || lia). rewrite IH; [done|]. rewrite length_app. cbn [length]. lia.
Qed.

Lemma length_attempts cap ops l :
  length (foldl (λ l op, l ++ [attempt_of cap l op]) l ops) = (length l + length ops)%nat.
Proof.
  revert l. induction ops as [|op ops IH]; intros l; cbn [foldl length]; [lia|].
  rewrite IH, length_app. cbn [length]. lia.
Qed.

Lemma lost_runs_none n l : lost_runs n l = [] ↔ forallb is_kept l = true.
Proof.
  revert n. induction l as [|[t ts f|x] l IH]; intros n; [done|apply IH|].
  rewrite lost_runs_cons. unfold cons_run. simpl.
  split; [|done]. destruct (lost_runs (n + 1) l) as [|[m [|y ys]] rs]; try done. by case_match.
Qed.

(** ** Runs cover the lost attempts *)

Definition separated (l1 l2 : ProfileLossInterval) : Prop :=
  pl_last_record_seq l1 < pl_first_record_seq l2 ∧
  (pl_last_record_seq l1 + 1 = pl_first_record_seq l2 → pl_reason l1 ≠ pl_reason l2).

Lemma loss_seqs_run m xs : loss_seqs (run_interval (m, xs)) = seqZ m (Z.of_nat (length xs)).
Proof.
  unfold loss_seqs, dropped_count, run_interval. cbn [pl_first_record_seq pl_last_record_seq].
  f_equal. lia.
Qed.

Lemma runs_partition uuid n l :
  snapshot_seqs (kept_records uuid n l) (map run_interval (lost_runs n l))
    ≡ₚ seqZ n (Z.of_nat (length l)).
Proof.
  revert n. induction l as [|a l IH]; intros n; [done|].
  rewrite seqZ_cons by (cbn [length]; lia).
  assert (Z.pred (Z.of_nat (length (a :: l))) = Z.of_nat (length l)) as -> by (cbn [length]; lia).
  change (Z.succ n) with (n + 1). rewrite <- (IH (n + 1)). destruct a as [t ts f|x]; [done|].
  rewrite lost_runs_cons. cbn [kept_records]. unfold snapshot_seqs.
  generalize (map prec_record_seq (kept_records uuid (n + 1) l)). intros recs.
  destruct (lost_runs (n + 1) l) as [|[m [|y ys]] rs]; cbn [cons_run map mjoin list_join concat].
  - rewrite loss_seqs_run. simpl. solve_Permutation.
  - rewrite !loss_seqs_run. simpl. solve_Permutation.
  - destruct ((m =? n + 1) && _) eqn:E; cbn [map mjoin list_join concat]; rewrite !loss_seqs_run.
    + bool_prop. subst m. rewrite (seqZ_cons n) by (cbn [length]; lia).
      assert (Z.pred (Z.of_nat (length (x :: y :: ys))) = Z.of_nat (length (y :: ys))) as ->
        by (cbn [length]; lia). change (Z.succ n) with (n + 1). solve_Permutation.
    + change (seqZ n (Z.of_nat (length [x]))) with [n]. solve_Permutation.
Qed.

Lemma counts_sum_run xs :
  Forall (λ x, lo_record_type x ∈ ProfileRecordType) xs →
  counts_sum (run_counts xs) = Z.of_nat (length xs) ∧
  dom (run_counts xs) = (list_to_set ProfileRecordType : gset string).
Proof.
  induction xs as [|x xs IH] using rev_ind; [by split; vm_compute|].
  intros [Hxs Hx]%Forall_app. apply Forall_cons in Hx as [Hx _]. destruct (IH Hxs) as [E1 E2].
  unfold run_counts. rewrite foldl_app. cbn [foldl]. fold (run_counts xs).
  rewrite counts_sum_data in E1 |- *. rewrite length_app. cbn [length]. split.
  - rewrite sum_incr by (done || apply data_types_nodup). lia.
  - unfold incr. rewrite dom_insert_L, E2. set_solver.
Qed.

(** Each run is a segment of the attempts, all lost for the reason of the first. *)
Lemma runs_sound n l m xs :
  (m, xs) ∈ lost_runs n l →
  n ≤ m ∧ ∀ i x, xs !! i = Some x → l !! (Z.to_nat (m - n) + i)%nat = Some (Lost x) ∧
    Some (lo_reason x) = lo_reason <$> head xs.
Proof.
  revert n m xs. induction l as [|a l IH]; intros n m xs; [by intros ?%elem_of_nil|].
  assert (∀ m xs, (m, xs) ∈ lost_runs (n + 1) l → n ≤ m ∧ ∀ i x, xs !! i = Some x →
    (a :: l) !! (Z.to_nat (m - n) + i)%nat = Some (Lost x) ∧
    Some (lo_reason x) = lo_reason <$> head xs) as Hrest.
  { intros m' xs' Hin. destruct (IH _ _ _ Hin) as [Hm Hxs]. split; [lia|]. intros i x Hi.
    destruct (Hxs i x Hi) as [Hl ?]. split; [|done].
    replace (Z.to_nat (m' - n) + i)%nat with (S (Z.to_nat (m' - (n + 1)) + i)) by lia. done. }
  destruct a as [t ts f|x]; [apply Hrest|].
  assert (n ≤ n ∧ ∀ i y, [x] !! i = Some y → (Lost x :: l) !! (Z.to_nat (n - n) + i)%nat =
    Some (Lost y) ∧ Some (lo_reason y) = lo_reason <$> head [x]) as Hone.
  { split; [done|]. intros [|i] y; [|done]. intros [= <-]. rewrite Z.sub_diag. done. }
  rewrite lost_runs_cons. revert Hrest.
  destruct (lost_runs (n + 1) l) as [|[m' [|y ys]] rs]; intros Hrest; cbn [cons_run].
  - intros [[= -> ->]|[]%elem_of_nil]%elem_of_cons. done.
  - intros [[= -> ->]|Hin]%elem_of_cons; [done|]. by apply Hrest.
  - destruct ((m' =? n + 1) && _) eqn:E.
    + intros [[= -> ->]|Hin]%elem_of_cons; [|by apply Hrest, list_elem_of_further].
      bool_prop. subst m'. destruct (Hrest (n + 1) (y :: ys)) as [_ Hy]; [by left|].
      split; [done|]. intros [|i] z; cbn [head lookup list_lookup].
      * intros [= <-]. by rewrite Z.sub_diag.
      * intros Hi. destruct (Hy i z Hi) as [Hl Hr]. split.
        -- rewrite Z.sub_diag. by replace (Z.to_nat (n + 1 - n) + i)%nat with (S i) in Hl by lia.
        -- simpl in *. congruence.
    + intros [[= -> ->]|Hin]%elem_of_cons; [done|]. by apply Hrest.
Qed.

Lemma runs_separated n l : Sorted separated (map run_interval (lost_runs n l)).
Proof.
  revert n. induction l as [|[t ts f|x] l IH]; intros n; [constructor|apply IH|].
  rewrite lost_runs_cons. specialize (IH (n + 1)).
  assert (∀ m xs, (m, xs) ∈ lost_runs (n + 1) l → n + 1 ≤ m) as Hlow
    by (intros m xs ?%runs_sound; tauto).
  pose proof (lost_runs_nonempty (n + 1) l) as Hne. revert IH Hlow Hne.
  destruct (lost_runs (n + 1) l) as [|[m [|y ys]] rs]; intros IH Hlow Hne; cbn [cons_run].
  - simpl. repeat constructor.
  - by inversion Hne.
  - destruct ((m =? n + 1) && _) eqn:E.
    + bool_prop. subst m. simpl in *. inversion IH as [|? ? Hs Hd]; subst.
      constructor; [done|]. inversion Hd as [|? ? Hsep]; subst; constructor.
      unfold separated in *. cbn [pl_first_record_seq pl_last_record_seq pl_reason] in *.
      destruct Hsep as [Hs1 Hs2]. cbn [length] in *. split; [lia|].
      intros Heq. rewrite H1. simpl. apply Hs2. lia.
    + cbn [map]. constructor; [done|]. constructor. unfold separated, run_interval.
      cbn [pl_first_record_seq pl_last_record_seq pl_reason length head fmap option_fmap option_map default].
      assert (n + 1 ≤ m) by (apply (Hlow m (y :: ys)); by left).
      split; [lia|]. intros Hm Hr. simpl in Hr. rewrite Hr, String.eqb_refl, andb_true_r in E. bool_prop. lia.
Qed.

(** C13. The ledger refines the list of attempts.  A new ledger without hooks,
    given any operations on record types of the roster, as many as there are
    sequence numbers, returns from each with the result the attempt deserves; it
    then holds one record per recorded attempt, numbered by its place, and one loss
    interval per maximal run of lost attempts with one reason, with the run's
    bounds, counts by type and first and last times; it counts every attempt, and
    its evidence is complete exactly when nothing was lost. *)
Theorem ledger_refines uuid cap (g : BoundedKVRecoveryProfileLedger H) ops :
  new_ledger uuid cap None = Ok g →
  Forall (λ op, op_type op ∈ ProfileRecordType) ops →
  Z.of_nat (length ops) ≤ 2 ^ 64 →
  let l := attempts cap ops in
  ∃ g', run_ops ops g = (Ok (expected uuid cap [] ops), g') ∧
    ledger_snapshot g' = (kept_records uuid 0 l, map run_interval (lost_runs 0 l)) ∧
    attempted_data_count g' = Z.of_nat (length ops) ∧
    evidence_complete g' = forallb is_kept l.
Proof.
  intros Hg Ht Hlen. unfold new_ledger in Hg. inv_ok.
  eexists. split; [by apply (run_ops_refines uuid cap ops [])|].
  unfold ledger_snapshot, attempted_data_count, evidence_complete. cbn [lg_hooks ledger_of lg_records
    lg_losses lg_next_record_seq]. fold (attempts cap ops).
  split; [done|]. split; [by unfold attempts; rewrite length_attempts|].
  pose proof (lost_runs_none 0 (attempts cap ops)) as Hnone.
  destruct (lost_runs 0 (attempts cap ops)); simpl.
  - symmetry. by apply Hnone.
  - destruct (forallb is_kept (attempts cap ops)); [|done]. discriminate (proj2 Hnone eq_refl).
Qed.

Lemma attempts_bounded cap ops l :
  Z.of_nat (length (filter is_kept l)) ≤ Z.max 0 cap →
  Z.of_nat (length (filter is_kept (foldl (λ l op, l ++ [attempt_of cap l op]) l ops))) ≤ Z.max 0 cap.
Proof.
  revert l. induction ops as [|op ops IH]; intros l Hl; [done|]. apply IH.
  rewrite filter_app, length_app.
  assert (∀ x, length (filter is_kept [Lost x]) = 0%nat) as Hx
    by (intros; by rewrite filter_cons_False by naive_solver).
  destruct op as [t ts fields|t ts reason]; cbn [attempt_of]; [|rewrite Hx; lia].
  destruct (uint64_of ts) as [z|]; [|rewrite Hx; lia].
  destruct (Z.leb_spec cap (Z.of_nat (length (filter is_kept l)))); [rewrite Hx; lia|].
  rewrite filter_cons_True by done. cbn [length filter]. simpl. lia.
Qed.

Lemma lost_types cap ops l n :
  Forall (λ op, op_type op ∈ ProfileRecordType) ops →
  (∀ x, Lost x ∈ l → lo_record_type x ∈ ProfileRecordType) →
  ∀ m xs, (m, xs) ∈ lost_runs n (foldl (λ l op, l ++ [attempt_of cap l op]) l ops) →
  Forall (λ x, lo_record_type x ∈ ProfileRecordType) xs.
Proof.
  intros Ht. revert l. induction Ht as [|op ops Hop Ht IH]; intros l Hl m xs Hin.
  - apply runs_sound in Hin as [_ Hin]. apply Forall_lookup. intros i x Hi.
    destruct (Hin i x Hi) as [Hx _]. apply Hl. by eapply list_elem_of_lookup_2.
  - eapply IH; [|exact Hin]. intros x [Hx|Hx%list_elem_of_singleton]%elem_of_app; [auto|].
    destruct op as [t ts fields|t ts reason]; simpl in Hx, Hop; [|by inversion Hx].
    destruct (uint64_of ts); [|by inversion Hx]. case_match; [by inversion Hx|done].
Qed.

(** Nothing attempted is forgotten or counted twice.  After any operations on a
    new ledger without hooks, the snapshot's records and loss intervals name every
    number below the attempted count exactly once; there are at most [capacity]
    records; each interval is not empty, its counts have the roster's keys and add
    up to its length, and every number in it is an attempt lost for the interval's
    reason; and intervals are in order and maximal: two that touch differ in their
    reason. *)
Theorem ledger_partition uuid cap (g : BoundedKVRecoveryProfileLedger H) ops :
  new_ledger uuid cap None = Ok g →
  Forall (λ op, op_type op ∈ ProfileRecordType) ops →
  Z.of_nat (length ops) ≤ 2 ^ 64 →
  let g' := (run_ops ops g).2 in
  let '(records, losses) := ledger_snapshot g' in
  snapshot_seqs records losses ≡ₚ seqZ 0 (attempted_data_count g') ∧
  Z.of_nat (length records) ≤ cap ∧
  Forall loss_ok losses ∧
  Sorted separated losses ∧
  (∀ l seq, l ∈ losses → pl_first_record_seq l ≤ seq ≤ pl_last_record_seq l →
     ∃ x, attempts cap ops !! Z.to_nat seq = Some (Lost x) ∧ lo_reason x = pl_reason l).
Proof.
  intros Hg Ht Hlen. unfold new_ledger in Hg. inv_ok. bool_prop.
  pose proof (run_ops_refines uuid cap ops [] Ht Hlen) as E. cbv zeta.
  change (mkLedger uuid cap None 0 [] []) with (ledger_of uuid cap []). rewrite E.
  unfold ledger_snapshot, attempted_data_count. cbn [snd lg_hooks ledger_of lg_records
    lg_losses lg_next_record_seq]. fold (attempts cap ops). split_and!.
  - apply runs_partition.
  - rewrite length_kept_records. pose proof (attempts_bounded cap ops []). unfold attempts. simpl in *. lia.
  - apply Forall_map, Forall_forall. intros [m xs] Hin.
    assert (Forall (λ x, lo_record_type x ∈ ProfileRecordType) xs) as Hxs.
    { eapply (lost_types cap ops []); [done|by intros ? ?%elem_of_nil|exact Hin]. }
    destruct (counts_sum_run xs Hxs) as [Hc Hd].
    pose proof (lost_runs_nonempty 0 (attempts cap ops)) as Hne. rewrite Forall_forall in Hne.
    specialize (Hne _ Hin). destruct xs as [|x xs]; [done|].
    unfold loss_ok, dropped_count, run_interval. cbn [pl_counts pl_first_record_seq pl_last_record_seq].
    rewrite Hc. split_and!; [cbn [length]; lia|lia|done].
  - apply runs_separated.
  - intros l seq [[m xs] [-> Hin]]%list_elem_of_fmap Hseq.
    apply runs_sound in Hin as [Hm Hxs]. unfold run_interval in Hseq |- *.
    cbn [pl_first_record_seq pl_last_record_seq pl_reason] in *.
    destruct (lookup_lt_is_Some_2 xs (Z.to_nat (seq - m))) as [x Hx]; [lia|].
    destruct (Hxs _ _ Hx) as [Hl Hr]. exists x. rewrite <- Hr. split; [|done].
    by replace (Z.to_nat (m - 0) + Z.to_nat (seq - m))%nat with (Z.to_nat seq) in Hl by lia.
Qed.
End refinement.

(** ** An example *)

Definition example_ops : list ledger_op :=
  [OpWrite "transfer_event" (PInt 5) []; OpDrop "recovery_event" PNone "writer_failure";
   OpDrop "transfer_event" (PInt 9) "writer_failure"; OpWrite "block_set_chunk" (PInt 11) [];
   OpWrite "wait_set_chunk" (PInt (-1)) []].

Definition example_ledger : BoundedKVRecoveryProfileLedger LiveHooks :=
  mkLedger example_uuid 1 None 0 [] [].

Lemma example_ops_roster : Forall (λ op, op_type op ∈ ProfileRecordType) example_ops.
Proof. apply Forall_forall. intros op Hop. apply str_in_spec.
  repeat (apply elem_of_cons in Hop as [-> | Hop]); [done..|by apply elem_of_nil in Hop].
Qed.

Lemma ledger_refines_witness :
  ∃ g', (run_ops example_ops example_ledger).2 = g' ∧
    map pl_first_record_seq (ledger_snapshot g').2 = [1; 3; 4] ∧
    map pl_last_record_seq (ledger_snapshot g').2 = [2; 3; 4] ∧ evidence_complete g' = false.
Proof.
  destruct (ledger_refines example_uuid 1 example_ledger example_ops eq_refl example_ops_roster
    ltac:(vm_compute; discriminate)) as (g' & Hrun & Hs & _ & Hc).
  exists g'. rewrite Hrun, Hs, Hc. split; [reflexivity|].
  split; [reflexivity|]. split; reflexivity.
Defined.

Lemma ledger_partition_witness :
  Forall loss_ok (ledger_snapshot (run_ops example_ops example_ledger).2).2 ∧
  length (ledger_snapshot (run_ops example_ops example_ledger).2).2 = 3%nat.
Proof.
  split; [|vm_compute; reflexivity].
  assert (Z.of_nat (length example_ops) ≤ 2 ^ 64) as Hlen by (vm_compute; discriminate).
  pose proof (ledger_partition example_uuid 1 example_ledger example_ops eq_refl example_ops_roster
    Hlen) as HP. cbv zeta in HP.
  destruct (ledger_snapshot (run_ops example_ops example_ledger).2) as [records losses].
  destruct HP as (_ & _ & HL & _). exact HL.
Defined.
