(* ===== verification/ProfileAccounting.v ===== *)
(** * What the profile counts as lost

    [ProfileCounts] reads two numbers off a facade that no caller asks for: whether the
    exporter takes profile calls at the moment, and how many data records of the profile
    it has counted as dropped.  The laws say what a producer may rely on: while calls are
    taken, a record that is not accepted and every [drop] are counted.  A closed exporter,
    a foreign process and a facade without an exporter count nothing.  The facade of
    Hooks.v is an instance, and so is the ledger. *)

From Stdlib Require Import ZArith Lia Ascii String.
From stdpp Require Import base list strings gmap.
From S2P Require Import Prelude PyValue Sha256 RuntimeProtocol ProfileProtocol SinkState.
From S2P Require Import TraceSink SinkSteps SinkLemmas SinkControl Hooks HooksInterface ProfileLedger.

Class ProfileCounts (H : Type) := {
  pc_accepting : H → bool;
  pc_losses : H → Z }.

Class ProfileCountsLaws (H : Type) `{!ProfileHooks H, !ProfileCounts H} := {
  pc_emit_counted t ts fields h h' :
    pc_accepting h = true → ph_emit t ts fields h = (None, h') → pc_losses h < pc_losses h';
  pc_drop_counted t ts reason h o h' :
    pc_accepting h = true → ph_drop t ts reason h = (o, h') → pc_losses h < pc_losses h' }.

(** ** The exporter *)

(** [profile.dropped_data_count], which the summary of the profile publishes *)
Definition profile_losses (s : JsonlTraceSink) : Z :=
  from_option dropped_data_count 0 (lane s Profile).

(** The guards of the two profile calls, and a sequence number is left *)
Definition sink_accepting (s : JsonlTraceSink) : bool :=
  is_some_b (profile s) && negb (closing s) && negb (closed s)
  && (from_option next_record_seq 0 (lane s Profile) <=? _UINT64_MAX).

Lemma losses_fields s s' : profile s' = profile s → profile_losses s' = profile_losses s.
Proof. intros E. unfold profile_losses, lane. by rewrite E. Qed.

Lemma profile_upd_base f s : profile (upd_lane Base f s) = profile s.
Proof. done. Qed.

Lemma losses_upd st f s :
  (∀ l, dropped_data_count (f l) = dropped_data_count l) →
  profile_losses (upd_lane st f s) = profile_losses s.
Proof.
  intros Hf. unfold profile_losses. rewrite lane_upd. case_bool_decide; [|done].
  destruct (lane s Profile); simpl; [apply Hf|done].
Qed.

Lemma profile_diag r s : profile (_count_diagnostic_locked r s) = profile s.
Proof. unfold _count_diagnostic_locked. by case_bool_decide. Qed.

Lemma losses_diag r s : profile_losses (_count_diagnostic_locked r s) = profile_losses s.
Proof. apply losses_fields, profile_diag. Qed.

Lemma losses_enqueue q s : profile_losses (_enqueue_locked q s).2 = profile_losses s.
Proof.
  unfold _enqueue_locked. case_match; [|done]. simpl. rewrite losses_upd.
  - by apply losses_fields.
  - intros l. unfold lane_enqueued. by case_match.
Qed.

Lemma losses_drop_control n st s : profile_losses (drop_control n st s) = profile_losses s.
Proof. by apply losses_upd. Qed.

Lemma losses_seal st s : profile_losses (_seal_loss_locked st s) = profile_losses s.
Proof.
  unfold _seal_loss_locked. destruct (open_loss_of s st) as [o|]; [|done].
  set (s1 := upd_lane st _ s). assert (profile_losses s1 = profile_losses s) as <- by by apply losses_upd.
  destruct (loss_line s1 _ _ _); [|apply losses_drop_control].
  pose proof (losses_enqueue (mkQueued a "loss_interval" None true None st) s1) as Hq.
  destruct (_enqueue_locked _ s1) as [[] s2]; [done|]. by rewrite losses_drop_control.
Qed.

Lemma profile_losses_upd_profile f s :
  (∀ p, p_lane (f p) = p_lane p) → profile_losses (upd_profile f s) = profile_losses s.
Proof.
  intros Hf. unfold profile_losses, lane, upd_profile. simpl.
  destruct (profile s); simpl; [by rewrite Hf|done].
Qed.

(** The drop is counted before anything can raise. *)
Lemma losses_note seq t reason ts s :
  is_some_b (profile s) = true →
  profile_losses (_note_profile_drop_locked seq t reason ts s).2 = profile_losses s + 1.
Proof.
  intros Hp. unfold _note_profile_drop_locked.
  set (s1 := _count_diagnostic_locked reason (drop_data 1 Profile s)).
  assert (profile_losses s1 = profile_losses s + 1) as H1.
  { unfold s1. rewrite losses_diag. unfold profile_losses, drop_data. rewrite lane_upd.
    unfold lane. by destruct (profile s). }
  rewrite <- H1. destruct (extends_open_loss _ _ _) as [o|].
  - destruct (ol_counts o !! t); simpl.
    + rewrite profile_losses_upd_profile by done. by apply losses_upd.
    + by apply losses_upd.
  - simpl. rewrite profile_losses_upd_profile by done. rewrite losses_upd by done.
    apply losses_seal.
Qed.

Ltac run_monad :=
  unfold mbind, M_bind, get, modify, mret, M_ret; cbn beta iota zeta; cbn [negb orb andb is_some_b].

(** The end of a call that notes the drop [Hr] of a sink with a profile *)
Ltac noted Hr Hp :=
  match type of Hr with context [_note_profile_drop_locked ?a ?b ?c ?d ?s] =>
    let Hn := fresh "Hn" in
    pose proof (losses_note a b c d s Hp) as Hn;
    destruct (_note_profile_drop_locked a b c d s) as [[?|?] ?];
    simpl in Hn, Hr; injection Hr as <- <-; lia
  end.

Lemma admit_profile_counted q seq ts ref s r s' :
  is_some_b (profile s) = true → admit_profile q seq ts ref s = (r, s') →
  (∃ x, r = Ok (Some x)) ∨ profile_losses s' = profile_losses s + 1.
Proof.
  intros Hp. unfold admit_profile. run_monad.
  destruct (_can_enqueue_locked _ _ _ s); run_monad; [|intros Hr; right; noted Hr Hp].
  pose proof (losses_enqueue q (_seal_loss_locked Profile s)) as Hq. rewrite losses_seal in Hq.
  assert (is_some_b (profile (_enqueue_locked q (_seal_loss_locked Profile s)).2) = true) as Hp'.
  { pose proof (ctl_enqueue q (_seal_loss_locked Profile s)) as Hc. rewrite ctl_seal in Hc.
    unfold ctl in Hc. by injection Hc as _ _ _ _ _ _ _ _ -> _. }
  destruct (_enqueue_locked q _) as [[] s1]; simpl in *; [intros [= <- _]; left; by eexists|].
  intros Hr. right. rewrite <- Hq. noted Hr Hp'.
Qed.

Lemma sink_accepting_spec s : sink_accepting s = true →
  ∃ p, profile s = Some p ∧ closing s = false ∧ closed s = false ∧
    next_record_seq (p_lane p) ≤ _UINT64_MAX.
Proof.
  unfold sink_accepting, lane. destruct (profile s) as [p|]; [|done]. simpl. intros H. bool_prop.
  exists p. by destruct (closing s), (closed s).
Qed.

(** An accepting exporter numbers the attempt, and the number alone changes. *)
Lemma allocate_accepting s : sink_accepting s = true →
  ∃ seq, _allocate_profile_record_seq_locked s = (Ok seq, upd_lane Profile allocated s).
Proof.
  intros (p & Hp & _ & _ & Hn)%sink_accepting_spec.
  unfold _allocate_profile_record_seq_locked, lane. rewrite Hp. cbn [from_option].
  rewrite (proj2 (Z.ltb_ge _ _)) by done. by eexists.
Qed.

Lemma write_profile_counted t ts fields clock mono s r s' :
  sink_accepting s = true →
  write_kv_recovery_profile t ts fields true clock mono s = (r, s') →
  (∃ x, r = Ok (Some x)) ∨ profile_losses s < profile_losses s'.
Proof.
  intros Ha. destruct (sink_accepting_spec s Ha) as (p & Hp & Hcg & Hcd & _).
  destruct (allocate_accepting s Ha) as [seq Hseq].
  unfold write_kv_recovery_profile, _usable_in_current_process.
  set (s1 := upd_lane Profile allocated s) in *.
  assert (is_some_b (profile s1) = true) as Hp1 by (unfold s1, upd_lane; by rewrite Hp).
  assert (profile_losses s1 = profile_losses s) as Hl by by apply losses_upd.
  run_monad. rewrite Hcd. run_monad.
  rewrite Hp, Hcg, Hcd. run_monad.
  rewrite Hseq, <- Hl. run_monad. intros Hr.
  destruct ts as [| |n| | | |]; try (right; noted Hr Hp1).
  destruct (_ || _); [right; noted Hr Hp1|].
  destruct (writer_failed s); [right; noted Hr Hp1|].
  destruct (profile_data_line s p t seq n fields) as [[raw ref]|]; [|right; noted Hr Hp1].
  destruct (admit_profile_counted _ _ _ _ _ _ _ Hp1 Hr) as [?|?]; [by left|right; lia].
Qed.

Lemma drop_profile_counted t ts reason clock mono s r s' :
  sink_accepting s = true →
  drop_kv_recovery_profile t ts reason true clock mono s = (r, s') →
  profile_losses s < profile_losses s'.
Proof.
  intros Ha. destruct (sink_accepting_spec s Ha) as (p & Hp & Hcg & Hcd & _).
  destruct (allocate_accepting s Ha) as [seq Hseq].
  unfold drop_kv_recovery_profile, _usable_in_current_process.
  set (s1 := upd_lane Profile allocated s) in *.
  assert (is_some_b (profile s1) = true) as Hp1 by (unfold s1, upd_lane; by rewrite Hp).
  assert (profile_losses s1 = profile_losses s) as Hl by by apply losses_upd.
  run_monad. rewrite Hcd. run_monad.
  rewrite Hp, Hcg, Hcd. run_monad.
  rewrite Hseq, <- Hl. run_monad. intros Hr. noted Hr Hp1.
Qed.

(** ** The facade *)

Definition hooks_accepting (pid : Z) (h : RuntimeLifecycleHooks) : bool :=
  match h_sink h with
  | NullTraceSink _ => false
  | Exporter owner s => (pid =? h_owner_pid h) && (pid =? owner) && sink_accepting s
  end.

Definition hooks_losses (h : RuntimeLifecycleHooks) : Z :=
  match h_sink h with NullTraceSink _ => 0 | Exporter _ s => profile_losses s end.

#[export] Instance live_counts : ProfileCounts LiveHooks := {|
  pc_accepting l := hooks_accepting (lv_pid l) (lv_hooks l);
  pc_losses l := hooks_losses (lv_hooks l) |}.

Lemma losses_defer_diagnostic r o s :
  o = true → profile_losses (defer_diagnostic r o s) = profile_losses s.
Proof.
  intros ->. unfold defer_diagnostic, _usable_in_current_process. cbn beta iota zeta.
  destruct (_ || _); [done|]. apply losses_diag.
Qed.

(** A method of the exporter that either answers or counts does so behind the facade,
    which turns its exception into a diagnostic. *)
Lemma on_sink_catch_counted {A} (d : A) (m : bool → M JsonlTraceSink A) (good : A → Prop) pid h a h' :
  hooks_accepting pid h = true →
  (∀ s r s', sink_accepting s = true → m true s = (r, s') →
     (∃ x, r = Ok x ∧ good x) ∨ profile_losses s < profile_losses s') →
  on_sink_catch d m pid h = (a, h') → good a ∨ hooks_losses h < hooks_losses h'.
Proof.
  unfold hooks_accepting, hooks_losses. intros Ha Hm.
  destruct (h_sink h) as [?|owner s] eqn:Hk; [done|]. bool_prop. subst owner.
  unfold on_sink_catch, on_sink, _ensure_process_state.
  rewrite (proj2 (Z.eqb_eq _ _)) by done. rewrite Hk, Z.eqb_refl.
  destruct (m true s) as [r s'] eqn:E. specialize (Hm s r s' ltac:(done) E).
  destruct r as [x|e].
  - intros [= <- <-]. simpl. destruct Hm as [(y & [= ->] & Hg)|Hl]; [by left|by right].
  - destruct Hm as [(y & Hy & _)|Hl]; [done|]. unfold _defer_diagnostic. simpl.
    intros [= <- <-]. right. simpl. rewrite losses_defer_diagnostic by apply Z.eqb_refl. done.
Qed.

#[export] Instance live_counts_laws : ProfileCountsLaws LiveHooks.
Proof.
  split.
  - intros t ts fields l l' Ha. cbn [ph_emit live_profile_hooks pc_accepting pc_losses live_counts] in *.
    unfold live. destruct (lv_clock l (lv_tick l)) as [clock mono].
    destruct (emit_kv_recovery_profile t ts fields clock mono (lv_pid l) (lv_hooks l)) as [o h] eqn:E.
    intros [= -> <-]. simpl.
    eapply (on_sink_catch_counted _ _ (λ o, is_Some o)) in E as [[? [=]]|Hl]; [exact Hl|exact Ha|].
    intros s r s' Hs Hw. destruct (write_profile_counted _ _ _ _ _ _ _ _ Hs Hw) as [[x ->]|?];
      [left; by eexists|by right].
  - intros t ts reason l o l' Ha. cbn [ph_drop live_profile_hooks pc_accepting pc_losses live_counts] in *.
    unfold live. destruct (lv_clock l (lv_tick l)) as [clock mono].
    destruct (hooks_drop_kv_recovery_profile t ts reason clock mono (lv_pid l) (lv_hooks l)) as [o' h] eqn:E.
    intros [= <- <-]. simpl.
    eapply (on_sink_catch_counted _ _ (λ _, False)) in E as [[]|Hl]; [exact Hl|exact Ha|].
    intros s r s' Hs Hw. right. by eapply drop_profile_counted.
Qed.

(** ** The ledger *)

Section ledger.
Context {H : Type} `{!ProfileHooks H, !ProfileCounts H}.
Implicit Types g : BoundedKVRecoveryProfileLedger H.

Definition interval_length (l : ProfileLossInterval) : Z :=
  pl_last_record_seq l - pl_first_record_seq l + 1.

Definition intervals_length (ls : list ProfileLossInterval) : Z :=
  sum_list_Z (map interval_length ls).

(** Without hooks the ledger keeps its loss intervals itself. *)
Definition ledger_accepting g : bool :=
  match lg_hooks g with Some h => pc_accepting h | None => true end.
Definition ledger_losses g : Z :=
  match lg_hooks g with Some h => pc_losses h | None => intervals_length (lg_losses g) end.

Lemma intervals_length_app ls1 ls2 :
  intervals_length (ls1 ++ ls2) = intervals_length ls1 + intervals_length ls2.
Proof. unfold intervals_length. rewrite map_app. apply sum_list_Z_app. Qed.

Lemma intervals_set_last y x ls :
  last ls = Some y →
  intervals_length (set_last x ls) = intervals_length ls - interval_length y + interval_length x.
Proof.
  intros [ls' ->]%last_Some. unfold set_last. rewrite length_app. cbn [length].
  replace (length ls' + 1 - 1)%nat with (length ls') by lia.
  rewrite take_app_length, !intervals_length_app. unfold intervals_length. simpl. lia.
Qed.

Lemma drop_locked_counted t seq ts reason g r g' :
  lg_hooks g = None → _drop_locked t seq ts reason g = (r, g') → is_ok r = true →
  ledger_losses g < ledger_losses g' ∧ lg_hooks g' = None.
Proof.
  intros Hh. unfold _drop_locked, ledger_losses. destruct (extends_last _ _ _) as [y|] eqn:E.
  - unfold extends_last in E. destruct (last (lg_losses g)) as [p|] eqn:El; [|done].
    destruct (_ && _) eqn:Ec; [|done]. injection E as ->. bool_prop.
    destruct (pl_counts y !! t); intros [= <- <-] Hr; [|done]. simpl. rewrite Hh.
    rewrite (intervals_set_last y) by done. unfold interval_length. simpl. split; [lia|done].
  - intros [= <- <-] _. simpl. rewrite Hh, intervals_length_app. split; [|done].
    unfold intervals_length, interval_length. simpl. lia.
Qed.

Context `{!ProfileCountsLaws H}.

Lemma ledger_write_counted t ts fields g g' :
  ledger_accepting g = true → ledger_write t ts fields g = (Ok None, g') →
  ledger_losses g < ledger_losses g'.
Proof.
  unfold ledger_write, ledger_accepting. intros Ha.
  destruct (lg_hooks g) as [h|] eqn:Hh.
  - unfold lift. run_monad. destruct (ensure _ _); [|done]. run_monad. rewrite Hh.
    destruct (ph_emit t ts fields h) as [[ref|] h'] eqn:E; [done|]. run_monad.
    intros [= <-]. unfold ledger_losses. rewrite Hh. simpl. by eapply pc_emit_counted.
  - unfold lift. run_monad. destruct (ensure _ _); [|done]. run_monad. rewrite Hh.
    destruct (_allocate_locked g) as [[seq|e] g1] eqn:Ealloc; [|done].
    assert (lg_hooks g1 = None ∧ lg_losses g1 = lg_losses g) as [H1 H2].
    { unfold _allocate_locked in Ealloc. destruct (_ <? _); by simplify_eq. }
    assert (ledger_losses g1 = ledger_losses g) as <-
      by (unfold ledger_losses; by rewrite H1, Hh, H2).
    destruct (uint64_of ts) as [z|]; [destruct (_ <=? _); [|done]|].
    all: match goal with |- context [_drop_locked ?a ?b ?c ?d ?g] =>
           destruct (_drop_locked a b c d g) as [[u|e] g2] eqn:Ed end; [|done].
    all: intros [= <-]; by eapply drop_locked_counted.
Qed.

Lemma ledger_drop_counted t ts reason g n g' :
  ledger_accepting g = true → ledger_drop t ts reason g = (Ok n, g') →
  ledger_losses g < ledger_losses g'.
Proof.
  unfold ledger_drop, ledger_accepting. intros Ha. run_monad.
  destruct (lg_hooks g) as [h|] eqn:Hh.
  - destruct (ph_drop t ts reason h) as [o h'] eqn:E. run_monad.
    intros [= <- <-]. unfold ledger_losses. rewrite Hh. simpl. by eapply pc_drop_counted.
  - destruct (_allocate_locked g) as [[seq|e] g1] eqn:Ealloc; [|done].
    assert (lg_hooks g1 = None ∧ lg_losses g1 = lg_losses g) as [H1 H2].
    { unfold _allocate_locked in Ealloc. destruct (_ <? _); by simplify_eq. }
    assert (ledger_losses g1 = ledger_losses g) as <-
      by (unfold ledger_losses; by rewrite H1, Hh, H2).
    destruct (_drop_locked _ _ _ _ g1) as [[u|e] g2] eqn:Ed; [|done].
    intros [= <- <-]. by eapply drop_locked_counted.
Qed.
End ledger.
