(* ===== verification/Evidence.v ===== *)
(** * kv_recovery_runtime.py: what the recovery adapters work on

    The objects of the host's KV-recovery interface, the constructors the adapters
    call ([RuntimeABI]), and the services an adapter has: the facade, the profile
    ledger and the clock ([EvidenceWorld]).  The host's classes are not under src/;
    an object is the record of the attributes the adapters read, and a constructor
    either raises or returns the object with the attributes it was given.
    [Witnessed] adds to any world the log of what was recorded and what was given up,
    with what the profile's own counters did about it;
    [wpe] is the weakest precondition over that log. *)

From Stdlib Require Import ZArith Lia Ascii String.
From stdpp Require Import base list strings gmap.
From S2P Require Import Prelude PyValue Sha256 RuntimeProtocol ProfileProtocol SinkState.
From S2P Require Import TraceSink SinkSteps SinkReach SinkLiveness Hooks HooksInterface ProfileLedger ProfileAccounting LifecycleBridge.

(** ** Objects of the host *)

Record KVRecoveryIdentity := mkKVIdentity {
  ki_run_id : string;
  ki_trace_id : string;
  ki_engine_lifecycle_id : string;
  ki_runtime_request_id : string;
  ki_recovery_epoch : option Z;
  ki_episode_id : option string;
  ki_base_preempted_event_id : option string;
  ki_preempt_profile_record_id : option string }.

#[export] Instance kv_identity_eq_dec : EqDecision KVRecoveryIdentity.
Proof. solve_decision. Defined.

Record KVRecoveryLogicalBlock := mkLogicalBlock {
  lb_group_index : Z;
  lb_logical_ordinal : Z;
  lb_logical_block_id : string }.

#[export] Instance logical_block_eq_dec : EqDecision KVRecoveryLogicalBlock.
Proof. solve_decision. Defined.

Record KVRecoveryTransferContext := mkTransferContext {
  cx_identity : KVRecoveryIdentity;
  cx_operation : string;
  cx_block_set_id : string;
  cx_logical_blocks : list KVRecoveryLogicalBlock }.

#[export] Instance transfer_context_eq_dec : EqDecision KVRecoveryTransferContext.
Proof. solve_decision. Defined.

Record TransferAttempt := mkAttempt {
  at_connector_job_id : Z;
  at_transfer_id : string;
  at_context : KVRecoveryTransferContext }.

#[export] Instance transfer_attempt_eq_dec : EqDecision TransferAttempt.
Proof. solve_decision. Defined.

Record WaitAttempt := mkWait { wa_entry_timestamp_ns : Z; wa_transfer_ids : list string }.

Record KVRecoveryComputeContext := mkComputeContext {
  cc_identity : KVRecoveryIdentity;
  cc_transfer_id : string;
  cc_block_set_id : string;
  cc_bytes_moved : Z;
  cc_admission_profile_record_id : string;
  cc_compute_kind : string;
  cc_base_phase_start_event_id : string }.

Record KVRecoveryH2DReceipt := mkReceipt {
  rc_connector_job_id : Z;
  rc_transfer_id : string;
  rc_identity : KVRecoveryIdentity;
  rc_block_set_id : string;
  rc_process_uuid : string;
  rc_clock_domain_id : string;
  rc_communication_done_event_id : string;
  rc_restore_done_profile_record_id : string;
  rc_timestamp_ns : Z;
  rc_bytes_moved : Z }.

(** The late-bound constructors: [Ok] when the one called with these attributes
    returns. *)
Class RuntimeABI := {
  identity_type : KVRecoveryIdentity → res unit;
  logical_block_type : KVRecoveryLogicalBlock → res unit;
  transfer_context_type : KVRecoveryTransferContext → res unit;
  compute_context_type : KVRecoveryComputeContext → res unit;
  receipt_type : KVRecoveryH2DReceipt → res unit;
  canonical_block_set_id : KVRecoveryIdentity → list KVRecoveryLogicalBlock → res string }.

(** [T(...)] for one of these constructors *)
Definition construct_with {A} (check : A → res unit) (a : A) : res A := check a ;; Ok a.

(** ** The services of an adapter *)

(** The last two fields are no calls of the adapters: whether the profile takes calls at
    the moment, and how many records it has counted as lost. *)
Class EvidenceWorld (W : Type) := {
  ew_hooks :: LifecycleHooks W;
  ew_process_uuid : W → option string;
  ew_clock_domain_id : W → option string;
  ew_close : W → W;
  ew_write : string → pyval → pydict → M W (option string);
  ew_drop : string → pyval → string → M W Z;
  ew_evidence_complete : W → bool;
  ew_clock : W → res Z * W;
  ew_accepting : W → bool;
  ew_losses : W → Z }.

(** While the profile takes calls, a row it does not accept and every [drop] are counted. *)
Class EvidenceLaws (W : Type) `{!EvidenceWorld W} := {
  ew_write_counted t ts fields w w' :
    ew_accepting w = true → ew_write t ts fields w = (Ok None, w') → ew_losses w < ew_losses w';
  ew_drop_counted t ts reason w n w' :
    ew_accepting w = true → ew_drop t ts reason w = (Ok n, w') → ew_losses w < ew_losses w' }.

(** What else the adapters ask of the facade *)
Class HookQueries (H : Type) := {
  hq_process_uuid : H → option string;
  hq_clock_domain_id : H → option string;
  hq_close : H → H;
  hq_clock : H → res Z * H }.

(** The ledger that the observer factory builds holds the same facade as the adapter:
    a call on the facade is a call on the ledger's.  A ledger without a facade
    answers as a disabled facade does. *)
Section ledger_world.
Context {H : Type} `{!LifecycleHooks H, !ProfileHooks H, !ProfileCounts H, !HookQueries H}.
#[local] Abbreviation Ledger := (BoundedKVRecoveryProfileLedger H).

Definition on_hooks {A} (f : H → option A * H) (g : Ledger) : option A * Ledger :=
  match lg_hooks g with
  | Some h => let '(a, h) := f h in (a, set_lg_hooks h g)
  | None => (None, g)
  end.

#[export] Instance ledger_hooks : LifecycleHooks Ledger := {|
  lh_new_span_id := on_hooks lh_new_span_id;
  lh_emit_event d := on_hooks (lh_emit_event d);
  lh_emit_edge d := on_hooks (lh_emit_edge d) |}.

#[export] Instance ledger_world : EvidenceWorld Ledger := {|
  ew_hooks := ledger_hooks;
  ew_process_uuid g := h ← lg_hooks g; hq_process_uuid h;
  ew_clock_domain_id g := h ← lg_hooks g; hq_clock_domain_id h;
  ew_close g := match lg_hooks g with Some h => set_lg_hooks (hq_close h) g | None => g end;
  ew_write := ledger_write;
  ew_drop := ledger_drop;
  ew_evidence_complete := evidence_complete;
  ew_clock g :=
    match lg_hooks g with
    | Some h => let '(t, h) := hq_clock h in (t, set_lg_hooks h g)
    | None => (Ok 0, g)
    end;
  ew_accepting := ledger_accepting;
  ew_losses := ledger_losses |}.

#[export] Instance ledger_laws `{!ProfileCountsLaws H} : EvidenceLaws Ledger.
Proof. split; [apply ledger_write_counted|apply ledger_drop_counted]. Qed.
End ledger_world.

(** *** The facade of Hooks.v *)

(** [JsonlTraceSink.close()] when no other thread calls the exporter meanwhile: the
    writer runs to its end, which it reaches within its rank. *)
Definition sequential_close (deadline : Z) (e : nat → env) (s : JsonlTraceSink)
    : JsonlTraceSink :=
  let s := close_begin deadline s in
  if is_some_b (completion_claim s) then s
  else
    let c := run_writer (Z.to_nat (rank (s, WLoop))) e (s, WLoop) in
    close_join (negb (bool_decide (c.2 = WDone))) c.1.

(** A file system that accepts every call, one byte at a time, and a clock that
    stands still. *)
Definition healthy (clock : res pyval) (now : Z) : env :=
  mkEnv now clock (λ _, Ok (PInt 1)) (λ _, Ok (PInt 1)) IoOk IoOk.

Definition live_close (l : LiveHooks) : LiveHooks :=
  (live (λ clock now pid h,
    on_sink tt (λ in_owner s,
      (tt, if in_owner
           then sequential_close (now + CLOSE_TIMEOUT_MS * 1000000) (λ _, healthy clock now) s
           else s)) pid h) l).2.

#[export] Instance live_queries : HookQueries LiveHooks := {|
  hq_process_uuid l := hooks_process_uuid (lv_pid l) (lv_hooks l);
  hq_clock_domain_id l := hooks_clock_domain_id (lv_pid l) (lv_hooks l);
  hq_close := live_close;
  hq_clock l := live (λ _ now _ h, (Ok now, h)) l |}.

(** ** The rows of the profile *)

Definition py_opt {A} (f : A → pyval) (o : option A) : pyval :=
  match o with Some a => f a | None => PNone end.

(** [_request_fields]: a request with its epoch and episode *)
Definition request_fields (trace_id lifecycle_id request : string) (epoch : option Z)
    (episode_id : option string) : pydict :=
  [("trace_id", PStr trace_id); ("engine_lifecycle_id", PStr lifecycle_id);
   ("runtime_request_id", PStr request); ("request_id_kind", PStr "engine_internal");
   ("sample_index", PInt 0); ("recovery_epoch", py_opt PInt epoch);
   ("episode_id", py_opt PStr episode_id)].

Definition _request_fields (i : KVRecoveryIdentity) : pydict :=
  request_fields (ki_trace_id i) (ki_engine_lifecycle_id i) (ki_runtime_request_id i)
    (ki_recovery_epoch i) (ki_episode_id i).

(** The arguments of a [recovery_event] row; [sr_compute] is the compute kind of a
    child observation, whose three other fields are constants. *)
Record stage_row := mkStage {
  sr_stage : string;
  sr_occurrence : Z;
  sr_base_event_id : option string;
  sr_admission_started : option string;
  sr_from : option string;
  sr_transfer_id : option string;
  sr_block_set_id : option string;
  sr_bytes_moved : option Z;
  sr_requeue_reason : option string;
  sr_compute : option string;
  sr_status : option (string * string) }.

Definition stage_fields (request : pydict) (r : stage_row) : pydict :=
  let child v := match sr_compute r with Some _ => PStr v | None => PNone end in
  request ++
  [("stage", PStr (sr_stage r)); ("occurrence", PInt (sr_occurrence r));
   ("base_event_id", py_opt PStr (sr_base_event_id r));
   ("base_admission_started_event_id", py_opt PStr (sr_admission_started r));
   ("from_profile_event_id", py_opt PStr (sr_from r));
   ("transfer_id", py_opt PStr (sr_transfer_id r));
   ("block_set_id", py_opt PStr (sr_block_set_id r));
   ("bytes_moved", py_opt PInt (sr_bytes_moved r));
   ("requeue_reason", py_opt PStr (sr_requeue_reason r));
   ("compute_kind", py_opt PStr (sr_compute r));
   ("child_observation_kind", child "worker_model_forward_entry");
   ("base_association_kind", child "phase_child_observation");
   ("base_association_evidence", child "instrumented_execution_context");
   ("request_status_before", py_opt PStr (fst <$> sr_status r));
   ("request_status_after", py_opt PStr (snd <$> sr_status r))].

(** ** Steps of an adapter

    An adapter acts on its own state and on the world.  A method that returns early
    without a result is a [Try] that gives up. *)
Section steps.
Context {S W : Type} `{!EvidenceWorld W}.

Definition self : Try (S * W) S := λ s, (Ok (Some s.1), s).
Definition update (f : S → S) : Try (S * W) unit := λ s, (Ok (Some tt), (f s.1, s.2)).
Definition ask {A} (f : W → A) : Try (S * W) A := λ s, (Ok (Some (f s.2)), s).

Definition facade {A} (f : W → option A * W) : Try (S * W) A := λ s,
  let '(o, w) := f s.2 in (Ok o, (s.1, w)).

Definition emit_span : Try (S * W) string := facade lh_new_span_id.
Definition emit_base (d : EventDraft) : Try (S * W) RecordRef := facade (lh_emit_event d).
Definition emit_link (d : EdgeDraft) : Try (S * W) RecordRef := facade (lh_emit_edge d).

(** [self._profile.write(...)] *)
Definition write_row (record_type : string) (timestamp_ns : Z) (fields : pydict)
    : Try (S * W) string := λ s,
  let '(r, w) := ew_write record_type (PInt timestamp_ns) fields s.2 in (r, (s.1, w)).

(** [self._profile.drop(...)] *)
Definition lose_for (reason record_type : string) (timestamp_ns : option Z)
    : Try (S * W) unit := λ s,
  let '(r, w) := ew_drop record_type (py_opt PInt timestamp_ns) reason s.2 in
  (match r with Ok _ => Ok (Some tt) | Raise e => Raise e end, (s.1, w)).

Definition lose : string → option Z → Try (S * W) unit := lose_for "serialization_failure".

(** [if x is None: self._profile.drop(...); return None] *)
Definition or_lose {A} (record_type : string) (timestamp_ns : option Z) (m : Try (S * W) A)
    : Try (S * W) A :=
  tbind (attempt m) (λ o,
    match o with
    | Some a => tret a
    | None => tbind (lose record_type timestamp_ns) (λ _, found None)
    end).

(** [try: m  except Exception: h] *)
Definition rescue {A} (m h : Try (S * W) A) : Try (S * W) A := λ s,
  match m s with (Raise _, s') => h s' | x => x end.

(** [x = self._clock_ns()] *)
Definition read_clock : Try (S * W) Z := λ s,
  let '(r, w) := ew_clock s.2 in
  (match r with Ok t => Ok (Some t) | Raise e => Raise e end, (s.1, w)).

(** [self._hooks.close()], which does not raise *)
Definition close_hooks : Try (S * W) unit := λ s, (Ok (Some tt), (s.1, ew_close s.2)).

(** [for x in l: m(x)], given up when one call gives up *)
Fixpoint for_each {A} (m : A → Try (S * W) unit) (l : list A) : Try (S * W) unit :=
  match l with
  | [] => tret tt
  | x :: l => tbind (m x) (λ _, for_each m l)
  end.
End steps.

(** ** The log of the evidence

    An [EvLost] is a row that the profile did not accept, or a loss that an adapter
    reported with [drop]: [accepting] says whether the profile took calls then, [counted]
    whether its number of lost records grew. *)

Inductive evidence :=
| EvSpan (span_id : string)
| EvEvent (d : EventDraft) (event_id : string)
| EvEdge (d : EdgeDraft)
| EvRow (record_type : string) (timestamp_ns : pyval) (fields : pydict) (record_id : string)
| EvLost (record_type : string) (accepting counted : bool).

Record Witnessed (W : Type) := mkWitnessed { wi_world : W; wi_log : list evidence }.
Arguments mkWitnessed {_} _ _.
Arguments wi_world {_} _.
Arguments wi_log {_} _.

Definition note {W} (l : list evidence) (w : W) (x : Witnessed W) : Witnessed W :=
  mkWitnessed w (wi_log x ++ l).

Definition witness_call {W A} (entry : A → evidence) (f : W → option A * W) (x : Witnessed W)
    : option A * Witnessed W :=
  let '(o, w) := f (wi_world x) in
  (o, note (match o with Some a => [entry a] | None => [] end) w x).

Section witnessed.
Context {W : Type} `{!EvidenceWorld W}.

#[export] Instance witnessed_hooks : LifecycleHooks (Witnessed W) := {|
  lh_new_span_id := witness_call EvSpan lh_new_span_id;
  lh_emit_event d := witness_call (λ ref, EvEvent d (record_id ref)) (lh_emit_event d);
  lh_emit_edge d := witness_call (λ _, EvEdge d) (lh_emit_edge d) |}.

(** The account of a row that was not accepted and of a reported loss, read off the
    world before and after the call *)
Definition loss_entry (record_type : string) (before after : W) : evidence :=
  EvLost record_type (ew_accepting before) (ew_losses before <? ew_losses after).

#[export] Instance witnessed_world : EvidenceWorld (Witnessed W) := {|
  ew_hooks := witnessed_hooks;
  ew_process_uuid x := ew_process_uuid (wi_world x);
  ew_clock_domain_id x := ew_clock_domain_id (wi_world x);
  ew_close x := note [] (ew_close (wi_world x)) x;
  ew_write t ts fields x :=
    let '(r, w) := ew_write t ts fields (wi_world x) in
    (r, note (match r with
              | Ok (Some id) => [EvRow t ts fields id]
              | Ok None => [loss_entry t (wi_world x) w]
              | Raise _ => []
              end) w x);
  ew_drop t ts reason x :=
    let '(r, w) := ew_drop t ts reason (wi_world x) in
    (r, note (match r with Ok _ => [loss_entry t (wi_world x) w] | Raise _ => [] end) w x);
  ew_evidence_complete x := ew_evidence_complete (wi_world x);
  ew_clock x := let '(r, w) := ew_clock (wi_world x) in (r, note [] w x);
  ew_accepting x := ew_accepting (wi_world x);
  ew_losses x := ew_losses (wi_world x) |}.

(** ** Weakest preconditions over the log *)

(** From the state [s] and the log [L], whatever the world answers, [m] ends with a
    result, a state and a log that satisfy [Q]. *)
Definition wpe {S A} (m : Try (S * Witnessed W) A)
    (Q : res (option A) → S → list evidence → Prop) (s : S) (L : list evidence) : Prop :=
  ∀ w, let '(r, (s', x)) := m (s, mkWitnessed w L) in Q r s' (wi_log x).

Section rules.
Context {S : Type}.
Implicit Types (s : S) (L : list evidence).

Lemma wpe_mono {A} (m : Try (S * Witnessed W) A) (Q R : res (option A) → S → list evidence → Prop) s L :
  (∀ r s L, Q r s L → R r s L) → wpe m Q s L → wpe m R s L.
Proof.
  intros HQ Hm w. specialize (Hm w). destruct (m (s, mkWitnessed w L)) as [r [s' x]]. auto.
Qed.

Lemma wpe_and {A} (m : Try (S * Witnessed W) A) (Q R : res (option A) → S → list evidence → Prop) s L :
  wpe m Q s L → wpe m R s L → wpe m (λ r s L, Q r s L ∧ R r s L) s L.
Proof.
  intros HQ HR w. specialize (HQ w). specialize (HR w).
  destruct (m (s, mkWitnessed w L)) as [r [s' x]]. auto.
Qed.

Lemma wpe_bind {A B} (m : Try (S * Witnessed W) A) (f : A → Try (S * Witnessed W) B) Q s L :
  wpe m (λ r s L, match r with
                  | Ok (Some a) => wpe (f a) Q s L
                  | Ok None => Q (Ok None) s L
                  | Raise e => Q (Raise e) s L
                  end) s L →
  wpe (tbind m f) Q s L.
Proof.
  intros Hm w. specialize (Hm w). unfold tbind.
  destruct (m (s, mkWitnessed w L)) as [[[a|]|e] [s' [w' L']]]; [|done..]. apply Hm.
Qed.

Lemma wpe_ret {A} (a : A) (Q : res (option A) → S → list evidence → Prop) s L :
  Q (Ok (Some a)) s L → wpe (tret a) Q s L.
Proof. by intros HQ w. Qed.

Lemma wpe_found {A} (o : option A) (Q : res (option A) → S → list evidence → Prop) s L :
  Q (Ok o) s L → wpe (found o) Q s L.
Proof. by intros HQ w. Qed.

Lemma wpe_built {A} (r : res A) (Q : res (option A) → S → list evidence → Prop) s L :
  (∀ a, r = Ok a → Q (Ok (Some a)) s L) → (∀ e, r = Raise e → Q (Raise e) s L) →
  wpe (built r) Q s L.
Proof. intros HO HE w. destruct r; [by apply HO|by apply HE]. Qed.

Lemma wpe_proceed b (Q : res (option unit) → S → list evidence → Prop) s L :
  (b = true → Q (Ok (Some tt)) s L) → (b = false → Q (Ok None) s L) → wpe (proceed b) Q s L.
Proof. intros HT HF w. destruct b; [by apply HT|by apply HF]. Qed.

Lemma wpe_self (Q : res (option S) → S → list evidence → Prop) s L :
  Q (Ok (Some s)) s L → wpe self Q s L.
Proof. by intros HQ w. Qed.

Lemma wpe_update f (Q : res (option unit) → S → list evidence → Prop) s L :
  Q (Ok (Some tt)) (f s) L → wpe (update f) Q s L.
Proof. by intros HQ w. Qed.

Lemma wpe_ask {A} (f : Witnessed W → A) (Q : res (option A) → S → list evidence → Prop) s L :
  (∀ a, Q (Ok (Some a)) s L) → wpe (ask f) Q s L.
Proof. intros HQ w. apply HQ. Qed.

Lemma wpe_attempt {A} (m : Try (S * Witnessed W) A) Q s L :
  wpe m (λ r, match r with Ok o => Q (Ok (Some o)) | Raise e => Q (Raise e) end) s L →
  wpe (attempt m) Q s L.
Proof.
  intros Hm w. specialize (Hm w). unfold attempt.
  destruct (m (s, mkWitnessed w L)) as [[o|e] [s' x]]; done.
Qed.

Lemma wpe_rescue {A} (m h : Try (S * Witnessed W) A) Q s L :
  wpe m (λ r s L, match r with Raise _ => wpe h Q s L | _ => Q r s L end) s L →
  wpe (rescue m h) Q s L.
Proof.
  intros Hm w. specialize (Hm w). unfold rescue.
  destruct (m (s, mkWitnessed w L)) as [[o|e] [s' [w' L']]]; [done|]. apply Hm.
Qed.

Lemma wpe_span (Q : res (option string) → S → list evidence → Prop) s L :
  Q (Ok None) s L → (∀ id, Q (Ok (Some id)) s (L ++ [EvSpan id])) → wpe emit_span Q s L.
Proof.
  intros HN HS w. unfold emit_span, facade. cbn -[app]. unfold witness_call. cbn -[app].
  destruct (lh_new_span_id w) as [[id|] w']; cbn -[app]; [by apply HS|by rewrite app_nil_r].
Qed.

Lemma wpe_event d (Q : res (option RecordRef) → S → list evidence → Prop) s L :
  Q (Ok None) s L → (∀ ref, Q (Ok (Some ref)) s (L ++ [EvEvent d (record_id ref)])) →
  wpe (emit_base d) Q s L.
Proof.
  intros HN HS w. unfold emit_base, facade. cbn -[app]. unfold witness_call. cbn -[app].
  destruct (lh_emit_event d w) as [[ref|] w']; cbn -[app]; [by apply HS|by rewrite app_nil_r].
Qed.

Lemma wpe_link d (Q : res (option RecordRef) → S → list evidence → Prop) s L :
  Q (Ok None) s L → (∀ ref, Q (Ok (Some ref)) s (L ++ [EvEdge d])) → wpe (emit_link d) Q s L.
Proof.
  intros HN HS w. unfold emit_link, facade. cbn -[app]. unfold witness_call. cbn -[app].
  destruct (lh_emit_edge d w) as [[ref|] w']; cbn -[app]; [by apply HS|by rewrite app_nil_r].
Qed.

Lemma wpe_row t ts fields (Q : res (option string) → S → list evidence → Prop) s L :
  (∀ id, Q (Ok (Some id)) s (L ++ [EvRow t (PInt ts) fields id])) →
  (∀ a c, Q (Ok None) s (L ++ [EvLost t a c])) → (∀ e, Q (Raise e) s L) → wpe (write_row t ts fields) Q s L.
Proof.
  intros HS HN HE w. unfold write_row. cbn -[app].
  destruct (ew_write t (PInt ts) fields w) as [[[id|]|e] w']; cbn -[app]; [apply HS|apply HN|].
  rewrite app_nil_r. apply HE.
Qed.

Lemma wpe_lose reason t ts (Q : res (option unit) → S → list evidence → Prop) s L :
  (∀ a c, Q (Ok (Some tt)) s (L ++ [EvLost t a c])) → (∀ e, Q (Raise e) s L) →
  wpe (lose_for reason t ts) Q s L.
Proof.
  intros HS HE w. unfold lose_for. cbn -[app].
  destruct (ew_drop t (py_opt PInt ts) reason w) as [[n|e] w']; cbn -[app]; [apply HS|].
  rewrite app_nil_r. apply HE.
Qed.

Lemma wpe_clock (Q : res (option Z) → S → list evidence → Prop) s L :
  (∀ t, Q (Ok (Some t)) s L) → (∀ e, Q (Raise e) s L) → wpe read_clock Q s L.
Proof.
  intros HS HE w. unfold read_clock. cbn -[app].
  destruct (ew_clock w) as [[t|e] w']; cbn -[app]; rewrite app_nil_r; auto.
Qed.

Lemma wpe_close (Q : res (option unit) → S → list evidence → Prop) s L :
  Q (Ok (Some tt)) s L → wpe close_hooks Q s L.
Proof. intros HQ w. cbn -[app]. by rewrite app_nil_r. Qed.

(** A call that fails is lost, and the method gives up. *)
Lemma wpe_or_lose {A} t ts (m : Try (S * Witnessed W) A) Q s L :
  wpe m (λ r s L, match r with
                  | Ok (Some a) => Q (Ok (Some a)) s L
                  | Ok None => ∀ e a c, Q (Ok None) s (L ++ [EvLost t a c]) ∧ Q (Raise e) s L
                  | Raise e => Q (Raise e) s L
                  end) s L →
  wpe (or_lose t ts m) Q s L.
Proof.
  intros Hm. unfold or_lose. apply wpe_bind, wpe_attempt. eapply wpe_mono; [|exact Hm].
  intros [[a|]|e] s' L'; simpl; [by apply wpe_ret| |done]. intros HN.
  apply wpe_bind, wpe_lose; [|intros e; apply (HN e true true)].
  intros a c. apply wpe_found, (HN TypeError a c).
Qed.
End rules.
End witnessed.

(** One rule at the head of a goal; the caller opens the definitions. *)
Ltac wpe_step :=
  lazymatch goal with
  | |- wpe (tbind _ _) _ _ _ => apply wpe_bind
  | |- wpe (tret _) _ _ _ => apply wpe_ret
  | |- wpe (found _) _ _ _ => apply wpe_found
  | |- wpe (built _) _ _ _ => apply wpe_built; intros ? ?
  | |- wpe (proceed _) _ _ _ => apply wpe_proceed; intros ?
  | |- wpe self _ _ _ => apply wpe_self
  | |- wpe (update _) _ _ _ => apply wpe_update
  | |- wpe (ask _) _ _ _ => apply wpe_ask; intros ?
  | |- wpe (attempt _) _ _ _ => apply wpe_attempt
  | |- wpe (rescue _ _) _ _ _ => apply wpe_rescue
  | |- wpe emit_span _ _ _ => apply wpe_span; [|intros ?]
  | |- wpe (emit_base _) _ _ _ => apply wpe_event; [|intros ?]
  | |- wpe (emit_link _) _ _ _ => apply wpe_link; [|intros ?]
  | |- wpe (write_row _ _ _) _ _ _ => apply wpe_row; [intros ?|intros ? ?|intros ?]
  | |- wpe (lose _ _) _ _ _ => apply wpe_lose; [intros ? ?|intros ?]
  | |- wpe (lose_for _ _ _) _ _ _ => apply wpe_lose; [intros ? ?|intros ?]
  | |- wpe close_hooks _ _ _ => apply wpe_close
  | |- wpe read_clock _ _ _ => apply wpe_clock; intros ?
  | |- wpe (or_lose _ _ _) _ _ _ => apply wpe_or_lose
  | |- ∀ (_ : exn) (_ _ : bool), _ => intros ? ? ?; split
  end; cbn beta iota.

(** ** What a call adds to the log *)

Definition adds (L : list evidence) (P : list evidence → Prop) (L' : list evidence) : Prop :=
  ∃ new, L' = L ++ new ∧ P new.

Definition lost (new : list evidence) : Prop := ∃ t a c, EvLost t a c ∈ new.

Lemma adds_subseteq L P L' : adds L P L' → L ⊆ L'.
Proof. intros (new & -> & _). set_solver. Qed.

(** *** Counting entries *)

Definition tally (f : evidence → bool) (L : list evidence) : nat := length (List.filter f L).

Definition is_lost (e : evidence) : bool := match e with EvLost _ _ _ => true | _ => false end.

Lemma tally_app f L1 L2 : tally f (L1 ++ L2) = (tally f L1 + tally f L2)%nat.
Proof. unfold tally. by rewrite List.filter_app, length_app. Qed.

Lemma tally_one f e : tally f [e] = if f e then 1%nat else 0%nat.
Proof. unfold tally. simpl. by destruct (f e). Qed.

Lemma tally_in f e L : e ∈ L → f e = true → (1 ≤ tally f L)%nat.
Proof.
  intros (L1 & L2 & ->)%list_elem_of_split Hf. rewrite tally_app. unfold tally. simpl.
  rewrite Hf. simpl. lia.
Qed.

Lemma tally_none f (P : evidence → Prop) L :
  Forall P L → (∀ e, P e → f e = false) → tally f L = 0%nat.
Proof.
  intros HL HP. unfold tally. induction HL as [|e L He HL IH]; [done|]. simpl. by rewrite (HP e He).
Qed.

Lemma tally_lost new : lost new → (1 ≤ tally is_lost new)%nat.
Proof. intros (t & a & c & Ht). by eapply tally_in. Qed.

Lemma tally_losses t new :
  Forall (λ e, ∃ a c, e = EvLost t a c) new → tally is_lost new = length new.
Proof.
  unfold tally. induction 1 as [|e new (a & c & ->) _ IH]; [done|]. simpl. by rewrite IH.
Qed.

Section for_each.
Context {W : Type} `{!EvidenceWorld W} {S : Type}.

(** The entry is about a row of this type. *)
Definition about_type (t : string) (e : evidence) : Prop :=
  match e with EvRow t' _ _ _ | EvLost t' _ _ => t' = t | _ => False end.

(** A row for each element, given up at the first that is lost *)
Lemma for_each_rows t ts (f : nat → pydict) (l : list nat) k L
    (Q : res (option unit) → S → list evidence → Prop) :
  (∀ new, Forall (about_type t) new → (∀ i, i ∈ l → ∃ row, EvRow t (PInt ts) (f i) row ∈ new) →
     Q (Ok (Some tt)) k (L ++ new)) →
  (∀ new, Forall (about_type t) new → lost new → Q (Ok None) k (L ++ new)) →
  (∀ e new, Q (Raise e) k (L ++ new)) →
  wpe (for_each (λ i, tbind (write_row t ts (f i)) (λ _, tret tt)) l) Q k L.
Proof.
  revert L. induction l as [|i l IH]; intros L HS HN HE; cbn [for_each].
  - apply wpe_ret. rewrite <- (app_nil_r L). apply HS; [done|]. intros i Hi. by apply elem_of_nil in Hi.
  - repeat wpe_step.
    + apply IH.
      * intros new Ht Hn. rewrite <- app_assoc. apply HS; [by constructor|].
        intros j [->|Hj]%elem_of_cons; [eexists; by left|].
        destruct (Hn j Hj) as [row Hr]. exists row. by right.
      * intros new Hnew (t' & a & c & Ht). rewrite <- app_assoc. apply HN; [by constructor|].
        exists t', a, c. by right.
      * intros e new. rewrite <- app_assoc. apply HE.
    + apply HN; [by constructor|]. do 3 eexists. by left.
    + rewrite <- (app_nil_r L). apply HE.
Qed.

(** What every call keeps, the loop keeps. *)
Lemma wpe_for_each {A} (m : A → Try (S * Witnessed W) unit) (I : S → list evidence → Prop) l s L :
  (∀ x s L, x ∈ l → I s L → wpe (m x) (λ _, I) s L) → I s L → wpe (for_each m l) (λ _, I) s L.
Proof.
  intros Hm. revert s L. induction l as [|x l IH]; intros s L HI; cbn [for_each]; [by apply wpe_ret|].
  apply wpe_bind. eapply wpe_mono; [|apply Hm; [by left|exact HI]].
  intros [[[]|]|e] s' L' HI'; try done. apply IH; [|done]. intros y s1 L1 Hy. apply Hm. by right.
Qed.

(** A loss for each element: the log gains as many. *)
Lemma for_each_lost {A} t (l : list A) k L
    (Q : res (option unit) → S → list evidence → Prop) :
  (∀ new, length new = length l → Forall (λ e, ∃ a c, e = EvLost t a c) new →
     Q (Ok (Some tt)) k (L ++ new)) →
  (∀ e new, Q (Raise e) k (L ++ new)) →
  wpe (for_each (λ _, lose t None) l) Q k L.
Proof.
  revert L. induction l as [|x l IH]; intros L HS HE; cbn [for_each].
  - apply wpe_ret. rewrite <- (app_nil_r L). by apply HS.
  - repeat wpe_step.
    + apply IH.
      * intros new Hlen Hnew. rewrite <- app_assoc. apply HS; [simpl; by rewrite Hlen|].
        constructor; [by do 2 eexists|done].
      * intros e new. rewrite <- app_assoc. apply HE.
    + rewrite <- (app_nil_r L). apply HE.
Qed.
End for_each.

(** ** Honest logs

    An entry of a loss is honest when the profile counted it, provided that the profile
    took calls then. *)
Definition honest (e : evidence) : Prop :=
  match e with EvLost _ accepting counted => accepting = true → counted = true | _ => True end.

Section honest.
Context {W : Type} `{!EvidenceWorld W, !EvidenceLaws W} {S : Type}.

(** Whatever the state and the world, [m] adds honest entries to the log. *)
Definition honestly {A} (m : Try (S * Witnessed W) A) : Prop :=
  ∀ s, ∃ new, wi_log (m s).2.2 = wi_log s.2 ++ new ∧ Forall honest new.

Lemma honestly_silent {A} (m : Try (S * Witnessed W) A) :
  (∀ s, wi_log (m s).2.2 = wi_log s.2) → honestly m.
Proof. intros Hm s. exists []. by rewrite Hm, app_nil_r. Qed.

Lemma honestly_ret {A} (a : A) : honestly (tret a).
Proof. by apply honestly_silent. Qed.
Lemma honestly_found {A} (o : option A) : honestly (found o).
Proof. by apply honestly_silent. Qed.
Lemma honestly_built {A} (r : res A) : honestly (built r).
Proof. apply honestly_silent. by destruct r. Qed.
Lemma honestly_proceed b : honestly (proceed b).
Proof. apply honestly_silent. by destruct b. Qed.
Lemma honestly_self : honestly self.
Proof. by apply honestly_silent. Qed.
Lemma honestly_update f : honestly (update f).
Proof. by apply honestly_silent. Qed.
Lemma honestly_ask {A} (f : Witnessed W → A) : honestly (ask f).
Proof. by apply honestly_silent. Qed.
Lemma honestly_close : honestly close_hooks.
Proof. intros s. exists []. by split. Qed.

Lemma honestly_clock : honestly read_clock.
Proof.
  intros [k [w L]]. unfold read_clock. simpl. destruct (ew_clock w) as [[t|e] w'];
    exists []; by split.
Qed.

Lemma honestly_then L1 L2 L3 :
  (∃ new, L2 = L1 ++ new ∧ Forall honest new) → (∃ new, L3 = L2 ++ new ∧ Forall honest new) →
  ∃ new, L3 = L1 ++ new ∧ Forall honest new.
Proof.
  intros (n1 & -> & H1) (n2 & -> & H2). exists (n1 ++ n2).
  split; [by rewrite app_assoc|by apply Forall_app].
Qed.

Lemma honestly_bind {A B} (m : Try (S * Witnessed W) A) (f : A → Try (S * Witnessed W) B) :
  honestly m → (∀ a, honestly (f a)) → honestly (tbind m f).
Proof.
  intros Hm Hf s. specialize (Hm s). unfold tbind.
  destruct (m s) as [[[a|]|e] s']; [|done..]. eapply honestly_then; [exact Hm|apply Hf].
Qed.

Lemma honestly_attempt {A} (m : Try (S * Witnessed W) A) : honestly m → honestly (attempt m).
Proof. intros Hm s. specialize (Hm s). unfold attempt. by destruct (m s) as [[o|e] s']. Qed.

Lemma honestly_rescue {A} (m h : Try (S * Witnessed W) A) :
  honestly m → honestly h → honestly (rescue m h).
Proof.
  intros Hm Hh s. specialize (Hm s). unfold rescue.
  destruct (m s) as [[o|e] s']; [done|]. eapply honestly_then; [exact Hm|apply Hh].
Qed.

Lemma honestly_span : honestly emit_span.
Proof.
  intros [k [w L]]. unfold emit_span, facade. cbn -[app]. unfold witness_call. cbn -[app].
  destruct (lh_new_span_id w) as [[id|] w']; [exists [EvSpan id]|exists []];
    (split; [reflexivity|]); by repeat constructor.
Qed.
Lemma honestly_event d : honestly (emit_base d).
Proof.
  intros [k [w L]]. unfold emit_base, facade. cbn -[app]. unfold witness_call. cbn -[app].
  destruct (lh_emit_event d w) as [[ref|] w']; [exists [EvEvent d (record_id ref)]|exists []];
    (split; [reflexivity|]); by repeat constructor.
Qed.
Lemma honestly_link d : honestly (emit_link d).
Proof.
  intros [k [w L]]. unfold emit_link, facade. cbn -[app]. unfold witness_call. cbn -[app].
  destruct (lh_emit_edge d w) as [[ref|] w']; [exists [EvEdge d]|exists []];
    (split; [reflexivity|]); by repeat constructor.
Qed.

Lemma honest_row t ts fields w w' :
  ew_write t ts fields w = (Ok None, w') → honest (loss_entry t w w').
Proof. intros E Ha. by apply Z.ltb_lt, (ew_write_counted t ts fields). Qed.

Lemma honest_drop t ts reason w n w' :
  ew_drop t ts reason w = (Ok n, w') → honest (loss_entry t w w').
Proof. intros E Ha. by apply Z.ltb_lt, (ew_drop_counted t ts reason w n). Qed.

Lemma honestly_row t ts fields : honestly (write_row t ts fields).
Proof.
  intros [k [w L]]. unfold write_row. cbn -[app].
  destruct (ew_write t (PInt ts) fields w) as [[[id|]|e] w'] eqn:E;
    [exists [EvRow t (PInt ts) fields id]|exists [loss_entry t w w']|exists []];
    (split; [reflexivity|]); [by repeat constructor| |constructor].
  constructor; [by eapply honest_row|constructor].
Qed.

Lemma honestly_lose reason t ts : honestly (lose_for reason t ts).
Proof.
  intros [k [w L]]. unfold lose_for. cbn -[app].
  destruct (ew_drop t (py_opt PInt ts) reason w) as [[n|e] w'] eqn:E;
    [exists [loss_entry t w w']|exists []]; (split; [reflexivity|]); [|constructor].
  constructor; [by eapply honest_drop|constructor].
Qed.

Lemma honestly_or_lose {A} t ts (m : Try (S * Witnessed W) A) :
  honestly m → honestly (or_lose t ts m).
Proof.
  intros Hm. unfold or_lose. apply honestly_bind; [by apply honestly_attempt|].
  intros [a|]; [apply honestly_ret|]. apply honestly_bind; [apply honestly_lose|].
  intros _. apply honestly_found.
Qed.

Lemma honestly_for_each {A} (m : A → Try (S * Witnessed W) unit) l :
  (∀ x, honestly (m x)) → honestly (for_each m l).
Proof.
  intros Hm. induction l as [|x l IH]; [apply honestly_ret|]. by apply honestly_bind.
Qed.
End honest.

Create HintDb honest.
#[export] Hint Resolve honestly_ret honestly_found honestly_built honestly_proceed honestly_self
  honestly_update honestly_ask honestly_close honestly_clock honestly_span honestly_event
  honestly_link honestly_row honestly_lose : honest.

(** A method is honest when its steps are. *)
Ltac honest_step :=
  lazymatch goal with
  | |- ∀ _, _ => intros ?
  | |- honestly (tbind _ _) => apply honestly_bind
  | |- honestly (attempt _) => apply honestly_attempt
  | |- honestly (rescue _ _) => apply honestly_rescue
  | |- honestly (or_lose _ _ _) => apply honestly_or_lose
  | |- honestly (for_each _ _) => apply honestly_for_each
  | |- honestly (lose _ _) => apply honestly_lose
  | |- honestly _ => first [solve [auto with honest] | case_match]
  end.

Ltac honest_tac := repeat honest_step.

Ltac log_new :=
  first [ exists []; split; [symmetry; apply app_nil_r|]
        | eexists; split; [rewrite <- ?app_assoc; reflexivity|] ].

(** An entry of a log that is written out *)
Ltac in_log :=
  cbn [app]; solve [repeat first [apply list_elem_of_here | apply list_elem_of_further]].

Ltac log_lost := unfold lost; do 3 eexists; in_log.

(** An entry of a log that grew step by step *)
Ltac in_app := rewrite !elem_of_app, !list_elem_of_singleton; by eauto 10.
