(* ===== verification/WorkerAdapter.v ===== *)
(** * kv_recovery_runtime.py: [KVRecoveryWorkerEvidenceAdapter]

    The worker's sink: it turns the life of a transfer into the communication events
    and edges of the base trace and into the rows of the profile, and hands a receipt
    of a finished restore to the scheduler.  [pending] is a map by transfer
    identifier. *)

From Stdlib Require Import ZArith Lia Ascii String.
From stdpp Require Import base list strings gmap fin_maps sorting.
From S2P Require Import Prelude PyValue Sha256 RuntimeProtocol ProfileProtocol SinkState.
From S2P Require Import TraceSink SinkSteps Hooks HooksInterface ProfileLedger ProfileAccounting LifecycleBridge Evidence.

(** ** State *)

Record _WorkerPending := mkPending {
  wp_attempt : TransferAttempt;
  wp_submit_timestamp_ns : Z;
  wp_start_event_id : option string;
  wp_span_id : option string;
  wp_restore_start : option string }.

Record KVRecoveryWorkerEvidenceAdapter := mkWorker {
  wk_run_id : string;
  wk_pending : gmap string _WorkerPending;
  wk_closed : bool }.

Definition new_worker (run_id : string) : res KVRecoveryWorkerEvidenceAdapter :=
  ensure (_HEX32 run_id) (ValueError "run_id must be 32 lowercase hexadecimal characters") ;;
  Ok (mkWorker run_id ∅ false).

Definition set_pending (p : gmap string _WorkerPending) (k : KVRecoveryWorkerEvidenceAdapter) :=
  mkWorker (wk_run_id k) p (wk_closed k).
Definition set_wk_closed (k : KVRecoveryWorkerEvidenceAdapter) :=
  mkWorker (wk_run_id k) (wk_pending k) true.

(** ** Drafts and rows *)

Definition is_h2d (a : TransferAttempt) : bool :=
  String.eqb (cx_operation (at_context a)) "h2d_restore".

Definition at_identity (a : TransferAttempt) : KVRecoveryIdentity := cx_identity (at_context a).

Definition _communication_metadata (a : TransferAttempt) : pydict :=
  [("operation", PStr "h2d_restore"); ("direction", PStr "h2d");
   ("transfer_id", PStr (at_transfer_id a)); ("block_set_id", PStr (cx_block_set_id (at_context a)));
   ("recovery_profile", PStr PROFILE_ID);
   ("communication_mapping", PStr KV_RECOVERY_COMMUNICATION_MODE); ("rank", PInt 0)].

Definition communication_event (a : TransferAttempt) (name : string) (timestamp_ns : Z)
    (start_span end_span : option string) (metadata : pydict) : EventDraft :=
  let i := at_identity a in
  mkEventDraft (ki_trace_id i) (ki_engine_lifecycle_id i) (Some (root_lifecycle (ki_trace_id i)))
    "engine_sample" "external_evidence" name (PInt timestamp_ns)
    (PInt (default 0 (ki_recovery_epoch i))) start_span end_span [] (PInt 0) PNone PNone None
    (Some metadata).

(** [communication_started]: the first event of the transfer *)
Definition started_draft (a : TransferAttempt) (timestamp_ns : Z) (span : string) : EventDraft :=
  communication_event a "communication_started" timestamp_ns (Some span) None
    (_communication_metadata a).

Definition done_draft (a : TransferAttempt) (timestamp_ns : Z) (span : string) (bytes_moved : Z)
    : EventDraft :=
  communication_event a "communication_done" timestamp_ns None (Some span)
    (_communication_metadata a ++ [("bytes_moved", PInt bytes_moved)]).

(** From the preempted event of the episode to the start of the transfer *)
Definition restore_edge (trace_id from_id to_id : string) : EdgeDraft :=
  mkEdgeDraft trace_id from_id to_id "data_dependency" KV_RECOVERY_H2D_EVIDENCE.

Definition transfer_edge (trace_id from_id to_id : string) : EdgeDraft :=
  mkEdgeDraft trace_id from_id to_id "program_order" "instrumented_execution_context".

Definition transfer_fields (a : TransferAttempt) (phase : string) (bytes_moved duration : option Z)
    (success : option bool) (failure_code : option string) : pydict :=
  _request_fields (at_identity a) ++
  [("transfer_id", PStr (at_transfer_id a)); ("connector_job_id", PInt (at_connector_job_id a));
   ("rank", PInt 0); ("world_size", PInt 1); ("operation", PStr (cx_operation (at_context a)));
   ("direction", PStr (if is_h2d a then "h2d" else "d2h"));
   ("src_medium", PStr (if is_h2d a then "host_cpu" else "device_hbm"));
   ("dst_medium", PStr (if is_h2d a then "device_hbm" else "host_cpu"));
   ("block_set_id", PStr (cx_block_set_id (at_context a))); ("transfer_phase", PStr phase);
   ("bytes_moved", py_opt PInt bytes_moved); ("device_duration_ns", py_opt PInt duration);
   ("success", py_opt PBool success); ("failure_code", py_opt PStr failure_code)].

Definition submit_fields (a : TransferAttempt) : pydict :=
  transfer_fields a "submit" None None None None.
Definition done_fields (a : TransferAttempt) (bytes_moved : Z) (duration : option Z) : pydict :=
  transfer_fields a "done" (Some bytes_moved) duration (Some true) None.

(** The milestones [restore_start] and [restore_done] *)
Definition restore_fields (a : TransferAttempt) (stage : string) (base_event_id from : string)
    (bytes_moved : option Z) : pydict :=
  stage_fields (_request_fields (at_identity a))
    (mkStage stage 0 (Some base_event_id) None (Some from) (Some (at_transfer_id a))
       (Some (cx_block_set_id (at_context a))) bytes_moved None None None).

(** ** Methods *)

Section worker.
Context {W : Type} `{!EvidenceWorld W, !RuntimeABI}.
#[local] Abbreviation Run := (Try (KVRecoveryWorkerEvidenceAdapter * W)).

Local Open Scope try_scope.

Definition when_open : Run unit := k <- self ; proceed (negb (wk_closed k)).

(** The span and the start event of an H2D transfer, linked to the preemption *)
Definition start_transfer (a : TransferAttempt) (timestamp_ns : Z) : Run (string * string) :=
  started <- or_lose "recovery_event" (Some timestamp_ns)
    (span <- emit_span ;
     ref <- emit_base (started_draft a timestamp_ns span) ;
     tret (span, record_id ref)) ;
  match ki_base_preempted_event_id (at_identity a) with
  | Some preempted =>
      _ <- or_lose "recovery_event" (Some timestamp_ns)
        (emit_link (restore_edge (ki_trace_id (at_identity a)) preempted started.2)) ;
      tret started
  | None => tret started
  end.

Definition transfer_submitted (a : TransferAttempt) (timestamp_ns : Z) : Run unit :=
  when_open ;;
  started <- (if is_h2d a then s <- start_transfer a timestamp_ns ; tret (Some s)
              else tret None) ;
  _ <- write_row "transfer_event" timestamp_ns (submit_fields a) ;
  restore_start <-
    match started, ki_preempt_profile_record_id (at_identity a) with
    | Some (_, start_event_id), Some preempt =>
        r <- write_row "recovery_event" timestamp_ns
          (restore_fields a "restore_start" start_event_id preempt None) ;
        tret (Some r)
    | _, _ => tret None
    end ;
  update (λ k, set_pending (<[at_transfer_id a :=
    mkPending a timestamp_ns (snd <$> started) (fst <$> started) restore_start]> (wk_pending k)) k).

Definition transfer_not_submitted (a : TransferAttempt) : Run unit := tret tt.

(** The pending transfer that this completion closes, with the bytes it moved *)
Definition completes (pending : option _WorkerPending) (a : TransferAttempt)
    (submit_timestamp_ns timestamp_ns : Z) (success : bool) (bytes_moved : option Z)
    : option (_WorkerPending * Z) :=
  match pending, bytes_moved with
  | Some p, Some b =>
      if bool_decide (wp_attempt p = a) && (wp_submit_timestamp_ns p =? submit_timestamp_ns)
         && success && negb (b <=? 0) && negb (timestamp_ns <=? submit_timestamp_ns)
      then Some (p, b) else None
  | _, _ => None
  end.

(** The done event of an H2D transfer, linked to its start *)
Definition finish_transfer (a : TransferAttempt) (timestamp_ns bytes_moved : Z) (p : _WorkerPending)
    : Run string :=
  ends <- or_lose "recovery_event" (Some timestamp_ns)
    (span <- found (wp_span_id p) ; start <- found (wp_start_event_id p) ; tret (span, start)) ;
  let '(span, start) := ends in
  ref <- or_lose "recovery_event" (Some timestamp_ns)
    (emit_base (done_draft a timestamp_ns span bytes_moved)) ;
  _ <- or_lose "recovery_event" (Some timestamp_ns)
    (emit_link (transfer_edge (ki_trace_id (at_identity a)) start (record_id ref))) ;
  tret (record_id ref).

Definition transfer_completed (a : TransferAttempt) (submit_timestamp_ns timestamp_ns : Z)
    (success : bool) (bytes_moved device_duration_ns : option Z) : Run KVRecoveryH2DReceipt :=
  when_open ;;
  k <- self ;
  update (λ k, set_pending (delete (at_transfer_id a) (wk_pending k)) k) ;;
  found_pending <- or_lose "transfer_event" (Some timestamp_ns)
    (found (completes (wk_pending k !! at_transfer_id a) a submit_timestamp_ns timestamp_ns success
              bytes_moved)) ;
  let '(p, bytes) := found_pending in
  done_event_id <- (if is_h2d a then d <- finish_transfer a timestamp_ns bytes p ; tret (Some d)
                    else tret None) ;
  _ <- write_row "transfer_event" timestamp_ns (done_fields a bytes device_duration_ns) ;
  proceed (negb (String.eqb (cx_operation (at_context a)) "d2h_preserve")) ;;
  from <- found (wp_restore_start p) ;
  restore_done <- write_row "recovery_event" timestamp_ns
    (stage_fields (_request_fields (at_identity a))
      (mkStage "restore_done" 0 done_event_id None (Some from) (Some (at_transfer_id a))
         (Some (cx_block_set_id (at_context a))) (Some bytes) None None None)) ;
  process_uuid <- ask ew_process_uuid ;
  clock_domain_id <- ask ew_clock_domain_id ;
  done_id <- found done_event_id ;
  process_uuid <- found process_uuid ;
  clock_domain_id <- found clock_domain_id ;
  rescue
    (built (construct_with receipt_type
      (mkReceipt (at_connector_job_id a) (at_transfer_id a) (at_identity a)
         (cx_block_set_id (at_context a)) process_uuid clock_domain_id done_id restore_done
         timestamp_ns bytes)))
    (lose "recovery_event" (Some timestamp_ns) ;; found None).

Definition transfer_capacity_exhausted (timestamp_ns : option Z) (loss_reason : string) : Run unit :=
  lose_for loss_reason "transfer_event" timestamp_ns.

Definition evidence_failure (timestamp_ns : option Z) : Run unit :=
  lose "transfer_event" timestamp_ns.

Definition transfer_invalidated (a : TransferAttempt) (timestamp_ns : Z) : Run unit :=
  when_open ;;
  update (λ k, set_pending (delete (at_transfer_id a) (wk_pending k)) k) ;;
  _ <- write_row "transfer_event" timestamp_ns
    (transfer_fields a "done" None None (Some false) (Some "cancelled")) ;
  tret tt.

(** [hashlib.sha256(...).hexdigest()] over the ordered identifiers; encoding text that
    is not ASCII raises. *)
Definition wait_set_id (run_id process_uuid : string) (transfer_ids : list string) : res string :=
  let zero := String Ascii.zero EmptyString in
  let raw := PROFILE_ID +:+ zero +:+ run_id +:+ zero +:+ process_uuid +:+ zero
    +:+ str_concat "" (map (λ t, t +:+ newline) transfer_ids) in
  if str_forall (λ c, code c <? 128) raw then Ok (sha256_hexdigest raw)
  else Raise (ValueError "'ascii' codec can't encode character").

Definition wait_fields (set_id : string) (transfer_ids : list string) (chunk_index : nat) : pydict :=
  [("operation", PStr "transfer_wait"); ("wait_set_id", PStr set_id);
   ("chunk_index", PInt (Z.of_nat chunk_index));
   ("chunk_count", PInt ((Z.of_nat (length transfer_ids) + 63) / 64));
   ("total_transfer_count", PInt (Z.of_nat (length transfer_ids)));
   ("transfer_ids", PList (map PStr (take 64 (drop (chunk_index * 64) transfer_ids))))].

Definition wait_completed (a : WaitAttempt) : Run unit :=
  when_open ;;
  process_uuid <- ask ew_process_uuid ;
  process_uuid <- or_lose "wait_set_chunk" (Some (wa_entry_timestamp_ns a)) (found process_uuid) ;
  k <- self ;
  set_id <- built (wait_set_id (wk_run_id k) process_uuid (wa_transfer_ids a)) ;
  for_each (λ i,
    _ <- write_row "wait_set_chunk" (wa_entry_timestamp_ns a)
           (wait_fields set_id (wa_transfer_ids a) i) ;
    tret tt)
    (seq 0 (Z.to_nat ((Z.of_nat (length (wa_transfer_ids a)) + 63) / 64))).

Definition h2d_receipt_capacity_exhausted (r : KVRecoveryH2DReceipt) (loss_reason : string)
    : Run unit :=
  lose_for loss_reason "recovery_event" (Some (rc_timestamp_ns r)).

Definition first_compute_fields (c : KVRecoveryComputeContext) : pydict :=
  stage_fields (_request_fields (cc_identity c))
    (mkStage "first_prefill_or_decode" 0 (Some (cc_base_phase_start_event_id c)) None
       (Some (cc_admission_profile_record_id c)) (Some (cc_transfer_id c))
       (Some (cc_block_set_id c)) (Some (cc_bytes_moved c)) None (Some (cc_compute_kind c))
       (Some ("RUNNING", "RUNNING"))).

Definition first_compute (c : KVRecoveryComputeContext) (timestamp_ns : Z) : Run unit :=
  rescue
    (built (ensure (is_some_b (ki_recovery_epoch (cc_identity c))
                    && is_compute_kind (cc_compute_kind c))
              (ValueError "invalid first-compute sidecar")) ;;
     built (ensure (_EVENT_ID (cc_base_phase_start_event_id c))
              (ValueError "base_phase_start_event_id must be a canonical base event ID")) ;;
     _ <- write_row "recovery_event" timestamp_ns (first_compute_fields c) ;
     tret tt)
    (lose "recovery_event" (if _is_uint64 timestamp_ns then Some timestamp_ns else None)).

Definition worker_close (open_attempts : list TransferAttempt) (evidence_disabled : bool)
    : Run unit :=
  when_open ;;
  update set_wk_closed ;;
  for_each (λ _, lose "transfer_event" None) open_attempts ;;
  complete <- ask ew_evidence_complete ;
  (if evidence_disabled && complete then lose "recovery_event" None else tret tt) ;;
  update (set_pending ∅).

Definition close_for_worker_failure (evidence_disabled : bool) : Run unit :=
  _ <- attempt (worker_close [] evidence_disabled) ;
  close_hooks.
End worker.

(** *** Wait sets *)

(** The rows of a wait set are rows the exporter accepts: for one to 4096
    transfers of the own process in lexicographic order, every chunk that
    [wait_completed] writes passes [_validate_wait_fields], and the chunks put together
    are the transfers, each once. *)
Theorem wait_rows_accepted run_id uuid ids set_id :
  wait_set_id run_id uuid ids = Ok set_id →
  Forall (own_transfer_id uuid) ids → StronglySorted str_lt ids →
  1 ≤ Z.of_nat (length ids) ≤ MAX_TRANSFER_IDS_PER_WAIT_SET →
  let count := (Z.of_nat (length ids) + 63) / 64 in
  (∀ i, Z.of_nat i < count → _validate_wait_fields (wait_fields set_id ids i) uuid = Ok tt) ∧
  concat (map (λ i, take 64 (drop (i * 64) ids)) (seq 0 (Z.to_nat count))) = ids.
Proof.
  intros Hid Hown Hsorted Hlen count. unfold count.
  pose proof (Z.div_mod (Z.of_nat (length ids) + 63) 64) as Hd.
  pose proof (Z.mod_pos_bound (Z.of_nat (length ids) + 63) 64) as Hm.
  assert (MAX_TRANSFER_IDS_PER_WAIT_SET = 4096) as Hmax by done.
  split.
  - intros i Hi. apply wait_chunk_spec. cbn [wait_fields dict_get dict_find String.eqb Ascii.eqb Bool.eqb default].
    split_and!; [done| | |].
    + exists set_id. split; [done|]. unfold wait_set_id in Hid. case_match; [|done].
      injection Hid as <-. apply sha256_hexdigest_hex.
    + do 3 eexists. split_and!; try reflexivity; try lia. unfold _UINT32_MAX. lia.
    + eexists. split; [reflexivity|]. rewrite length_take, length_drop.
      split_and!; [lia|lia|by apply Forall_take, Forall_drop|by apply StronglySorted_take_drop].
  - apply chunks_concat. lia.
Qed.

(** ** Calls and runs *)

Inductive worker_call :=
| WSubmitted (a : TransferAttempt) (timestamp_ns : Z)
| WNotSubmitted (a : TransferAttempt)
| WCompleted (a : TransferAttempt) (submit_timestamp_ns timestamp_ns : Z) (success : bool)
    (bytes_moved device_duration_ns : option Z)
| WCapacity (timestamp_ns : option Z) (loss_reason : string)
| WFailure (timestamp_ns : option Z)
| WInvalidated (a : TransferAttempt) (timestamp_ns : Z)
| WWait (a : WaitAttempt)
| WReceiptCapacity (r : KVRecoveryH2DReceipt) (loss_reason : string)
| WFirstCompute (c : KVRecoveryComputeContext) (timestamp_ns : Z)
| WClose (open_attempts : list TransferAttempt) (evidence_disabled : bool)
| WCloseFailure (evidence_disabled : bool).

Section runs.
Context {W : Type} `{!EvidenceWorld W, !RuntimeABI}.

Definition run_worker_call (c : worker_call)
    : Try (KVRecoveryWorkerEvidenceAdapter * Witnessed W) unit :=
  match c with
  | WSubmitted a ts => transfer_submitted a ts
  | WNotSubmitted a => transfer_not_submitted a
  | WCompleted a sub ts ok b d => tbind (transfer_completed a sub ts ok b d) (λ _, tret tt)
  | WCapacity ts reason => transfer_capacity_exhausted ts reason
  | WFailure ts => evidence_failure ts
  | WInvalidated a ts => transfer_invalidated a ts
  | WWait a => wait_completed a
  | WReceiptCapacity r reason => h2d_receipt_capacity_exhausted r reason
  | WFirstCompute c ts => first_compute c ts
  | WClose l disabled => worker_close l disabled
  | WCloseFailure disabled => close_for_worker_failure disabled
  end.

(** The adapters of a run: any calls, whatever they return or raise *)
Inductive worker_reachable (run_id : string)
    : KVRecoveryWorkerEvidenceAdapter → Witnessed W → Prop :=
| worker_new k w : new_worker run_id = Ok k → worker_reachable run_id k (mkWitnessed w [])
| worker_call_step c k x :
    worker_reachable run_id k x →
    worker_reachable run_id (run_worker_call c (k, x)).2.1 (run_worker_call c (k, x)).2.2.

(** *** No silent loss *)

(** What the call [c] leaves when nothing is lost *)
Definition recorded (c : worker_call) (k k' : KVRecoveryWorkerEvidenceAdapter)
    (new : list evidence) : Prop :=
  match c with
  | WSubmitted a ts =>
      (∃ p, wk_pending k' !! at_transfer_id a = Some p ∧ wp_attempt p = a) ∧
      ∃ row, EvRow "transfer_event" (PInt ts) (submit_fields a) row ∈ new
  | WNotSubmitted _ => new = []
  | WCompleted a _ ts _ b d =>
      ∃ bytes row p, b = Some bytes ∧
        EvRow "transfer_event" (PInt ts) (done_fields a bytes d) row ∈ new ∧
        wk_pending k !! at_transfer_id a = Some p ∧
        (wp_restore_start p = None ∨ cx_operation (at_context a) = "d2h_preserve" ∨
         ∃ fields row', EvRow "recovery_event" (PInt ts) fields row' ∈ new)
  | WCapacity _ _ | WFailure _ | WReceiptCapacity _ _ => False
  | WInvalidated a ts =>
      ∃ row, EvRow "transfer_event" (PInt ts)
        (transfer_fields a "done" None None (Some false) (Some "cancelled")) row ∈ new
  | WWait a =>
      ∃ set_id, ∀ i, Z.of_nat i * 64 < Z.of_nat (length (wa_transfer_ids a)) →
        ∃ row, EvRow "wait_set_chunk" (PInt (wa_entry_timestamp_ns a))
          (wait_fields set_id (wa_transfer_ids a) i) row ∈ new
  | WFirstCompute c ts =>
      ∃ row, EvRow "recovery_event" (PInt ts) (first_compute_fields c) row ∈ new
  | WClose l _ =>
      (length l ≤ tally is_lost new)%nat ∧ wk_closed k' = true ∧ wk_pending k' = ∅
  | WCloseFailure _ => wk_closed k' = true ∧ wk_pending k' = ∅
  end.

Definition is_close (c : worker_call) : bool :=
  match c with WClose _ _ | WCloseFailure _ => true | _ => false end.

(** When the call returns on an open adapter, it left what it should, or reported a
    loss; a close always leaves what it should. *)
Definition traced (c : worker_call) (k : KVRecoveryWorkerEvidenceAdapter) (L : list evidence)
    (r : res (option unit)) (k' : KVRecoveryWorkerEvidenceAdapter) (L' : list evidence) : Prop :=
  ∃ new, L' = L ++ new ∧
    (is_ok r = true → wk_closed k = false →
      recorded c k k' new ∨ is_close c = false ∧ lost new).

Ltac traced_tac :=
  log_new; intros Hok Hopen;
  first [ discriminate Hok | (right; split; [reflexivity|log_lost])
        | (rewrite Hopen in *; discriminate) | left ].

Ltac walk := repeat first [progress wpe_step | case_match].

Lemma traced_submitted a ts k L :
  wpe (W:=W) (transfer_submitted a ts) (traced (WSubmitted a ts) k L) k L.
Proof.
  unfold transfer_submitted, when_open, start_transfer. walk.
  all: traced_tac.
  all: split; [eexists; split; [apply lookup_insert_eq|done]|eexists; in_log].
Qed.

Lemma completes_ok p a sub ts ok b q bytes :
  completes p a sub ts ok b = Some (q, bytes) →
  p = Some q ∧ b = Some bytes ∧ wp_attempt q = a ∧ wp_submit_timestamp_ns q = sub ∧
  ok = true ∧ 0 < bytes ∧ sub < ts.
Proof.
  unfold completes. destruct p as [p|], b as [b|]; try done.
  destruct (_ && _) eqn:E; [|done]. intros [= -> ->]. bool_prop.
  match goal with E' : bool_decide _ = true |- _ => apply bool_decide_eq_true in E' end.
  done.
Qed.

Lemma traced_completed a sub ts ok b d k L :
  wpe (W:=W) (tbind (transfer_completed a sub ts ok b d) (λ _, tret tt))
    (traced (WCompleted a sub ts ok b d) k L) k L.
Proof.
  unfold transfer_completed, when_open, finish_transfer. walk.
  all: traced_tac.
  all: simplify_eq; bool_prop; try done.
  all: match goal with E : completes _ _ _ _ _ _ = Some _ |- _ =>
         apply completes_ok in E as (? & -> & ? & ? & ? & ? & ?) end.
  all: eexists _, _, _; split_and!; [done|in_log|done|].
  all: first [ by left | by right; left | right; right; do 2 eexists; in_log ].
Qed.

Lemma traced_invalidated a ts k L :
  wpe (W:=W) (transfer_invalidated a ts) (traced (WInvalidated a ts) k L) k L.
Proof. unfold transfer_invalidated, when_open. walk. all: traced_tac. eexists. in_log. Qed.

(** The chunks cover the list. *)
Lemma chunk_index_in (i n : nat) :
  Z.of_nat i * 64 < Z.of_nat n → i ∈ seq 0 (Z.to_nat ((Z.of_nat n + 63) / 64)).
Proof.
  intros Hi. apply elem_of_seq. split; [lia|]. simpl.
  assert (Z.of_nat i < (Z.of_nat n + 63) / 64); [|lia].
  pose proof (Z.div_mod (Z.of_nat n + 63) 64).
  pose proof (Z.mod_pos_bound (Z.of_nat n + 63) 64). lia.
Qed.

Lemma traced_wait a k L : wpe (W:=W) (wait_completed a) (traced (WWait a) k L) k L.
Proof.
  unfold wait_completed, when_open. walk.
  all: try solve [traced_tac].
  all: apply for_each_rows; [intros new _ Hn|intros new _ Hl|intros ? new];
    exists new; (split; [done|]); [|by right|done].
  all: intros _ _; left; eexists; intros i Hi; by apply Hn, chunk_index_in.
Qed.

Lemma traced_first_compute c ts k L :
  wpe (W:=W) (first_compute c ts) (traced (WFirstCompute c ts) k L) k L.
Proof.
  unfold first_compute. walk. all: try solve [traced_tac]. all: traced_tac. eexists. in_log.
Qed.

(** A loss for every listed attempt, whatever follows *)
Lemma traced_close l disabled k L :
  wpe (W:=W) (worker_close l disabled) (traced (WClose l disabled) k L) k L.
Proof.
  unfold worker_close, when_open. walk; try solve [traced_tac].
  apply for_each_lost; [|intros e new; exists new; by split].
  intros new Hlen Hnew. apply tally_losses in Hnew. rewrite Hlen in Hnew. walk.
  all: eexists; (split; [rewrite <- ?app_assoc; reflexivity|]); intros Hr _; try discriminate Hr.
  all: left; cbn [recorded]; rewrite ?tally_app, Hnew; split_and!; [lia|done|done].
Qed.

Lemma traced_close_failure disabled k L :
  wpe (W:=W) (close_for_worker_failure disabled) (traced (WCloseFailure disabled) k L) k L.
Proof.
  unfold close_for_worker_failure. apply wpe_bind, wpe_attempt.
  eapply wpe_mono; [|apply (traced_close [] disabled)].
  intros r k' L' (new & -> & Hn). destruct r as [o|e]; [|by exists new; split].
  apply wpe_close. exists new. split; [done|]. intros _ Hopen.
  destruct (Hn eq_refl Hopen) as [(_ & ? & ?)|[? _]]; [|done]. by left.
Qed.

Lemma call_traced c k L : wpe (W:=W) (run_worker_call c) (traced c k L) k L.
Proof.
  destruct c; cbn [run_worker_call].
  - apply traced_submitted.
  - unfold transfer_not_submitted. walk. traced_tac. done.
  - apply traced_completed.
  - unfold transfer_capacity_exhausted. walk; traced_tac.
  - unfold evidence_failure. walk; traced_tac.
  - apply traced_invalidated.
  - apply traced_wait.
  - unfold h2d_receipt_capacity_exhausted. walk; traced_tac.
  - apply traced_first_compute.
  - apply traced_close.
  - apply traced_close_failure.
Qed.

Lemma call_honest `{!EvidenceLaws W} c : honestly (run_worker_call c).
Proof.
  destruct c; cbn [run_worker_call].
  all: unfold transfer_submitted, transfer_not_submitted, transfer_completed,
    transfer_capacity_exhausted, evidence_failure, transfer_invalidated, wait_completed,
    h2d_receipt_capacity_exhausted, first_compute, close_for_worker_failure, worker_close,
    when_open, start_transfer, finish_transfer; honest_tac.
Qed.

(** C15. No silent loss. A callback of the host that returns on an open worker adapter
    left what it stands for, or it reported a loss to the profile: a submitted transfer is
    pending and has its row; a completed one was pending and has its row, and the
    milestone when its submission had one; an invalidated one has its cancelled row; a
    wait has the row of every chunk; a first compute its milestone. A close reports a loss
    for every open attempt it is given, closes the adapter and forgets what was pending;
    close_for_worker_failure is given no attempts, and forgets the pending transfers
    without a report. Every reported loss, and every row the profile refused, raised the
    profile's number of lost records if the profile took calls at that moment (an open
    exporter of this process with sequence numbers left, or a ledger without exporter);
    a closed exporter counts nothing. *)
Theorem worker_no_silent_loss `{!EvidenceLaws W} c k w L :
  let '(r, (k', x)) := run_worker_call c (k, mkWitnessed w L) in
  ∃ new, wi_log x = L ++ new ∧ Forall honest new ∧
    (is_ok r = true → wk_closed k = false →
      recorded c k k' new ∨ is_close c = false ∧ lost new).
Proof.
  pose proof (call_traced c k L w) as Ht. pose proof (call_honest c (k, mkWitnessed w L)) as Hh.
  destruct (run_worker_call c (k, mkWitnessed w L)) as [r [k' x]].
  destruct Ht as (new & Hx & Ht), Hh as (new' & Hx' & Hh). simpl in Hx'.
  rewrite Hx in Hx'. apply app_inv_head in Hx' as ->. by exists new'.
Qed.

(** *** What a receipt rests on *)

Definition transfer_started (L : list evidence) (a : TransferAttempt) (ts : Z) (span start : string)
    : Prop :=
  EvEvent (started_draft a ts span) start ∈ L ∧
  ∀ preempted, ki_base_preempted_event_id (at_identity a) = Some preempted →
    EvEdge (restore_edge (ki_trace_id (at_identity a)) preempted start) ∈ L.

(** A pending transfer was started, and its submission recorded. *)
Record pending_ok (L : list evidence) (id : string) (p : _WorkerPending) : Prop := {
  po_id : at_transfer_id (wp_attempt p) = id;
  po_row : ∃ row, EvRow "transfer_event" (PInt (wp_submit_timestamp_ns p))
    (submit_fields (wp_attempt p)) row ∈ L;
  po_started : ∀ span start, wp_span_id p = Some span → wp_start_event_id p = Some start →
    transfer_started L (wp_attempt p) (wp_submit_timestamp_ns p) span start;
  po_restore : ∀ restore, wp_restore_start p = Some restore →
    ∃ start preempt, wp_start_event_id p = Some start ∧
      ki_preempt_profile_record_id (at_identity (wp_attempt p)) = Some preempt ∧
      is_h2d (wp_attempt p) = true ∧
      EvRow "recovery_event" (PInt (wp_submit_timestamp_ns p))
        (restore_fields (wp_attempt p) "restore_start" start preempt None) restore ∈ L }.

Definition WorkerInv (k : KVRecoveryWorkerEvidenceAdapter) (L : list evidence) : Prop :=
  map_Forall (pending_ok L) (wk_pending k).

Lemma pending_ok_mono L L' id p : L ⊆ L' → pending_ok L id p → pending_ok L' id p.
Proof.
  intros Hs [Hid [row Hr] Hst Hre]. constructor; [done|by eauto| |].
  - intros span start E1 E2. destruct (Hst _ _ E1 E2) as [? He]. split; [by apply Hs|].
    intros pre Hp. by apply Hs, He.
  - intros r Hr'. destruct (Hre r Hr') as (? & ? & ? & ? & ? & ?). eauto 10.
Qed.

Lemma WorkerInv_mono k L L' : L ⊆ L' → WorkerInv k L → WorkerInv k L'.
Proof. intros Hs Hk id p Hp. eapply pending_ok_mono; [exact Hs|by apply Hk]. Qed.

(** The steps that keep the invariant: they do not touch the pending transfers, or
    forget some. *)
Definition shrinks (k : KVRecoveryWorkerEvidenceAdapter) (L : list evidence)
    (r : res (option unit)) (k' : KVRecoveryWorkerEvidenceAdapter) (L' : list evidence) : Prop :=
  wk_pending k' ⊆ wk_pending k ∧ L ⊆ L'.

Lemma shrinks_inv k L r k' L' : shrinks k L r k' L' → WorkerInv k L → WorkerInv k' L'.
Proof.
  intros [Hp HL] Hk. eapply WorkerInv_mono; [exact HL|]. intros id p Hid.
  apply Hk. by eapply lookup_weaken.
Qed.

Ltac shrink := split; [first [done|apply delete_subseteq|apply map_empty_subseteq]|set_solver].

(** The chain of evidence from the submission to the receipt [r] *)
Definition restore_chain (L : list evidence) (a : TransferAttempt) (submit_ns done_ns bytes : Z)
    (duration : option Z) (r : KVRecoveryH2DReceipt) : Prop :=
  ∃ span start preempt restore row row',
    transfer_started L a submit_ns span start ∧
    EvRow "transfer_event" (PInt submit_ns) (submit_fields a) row ∈ L ∧
    ki_preempt_profile_record_id (at_identity a) = Some preempt ∧
    EvRow "recovery_event" (PInt submit_ns) (restore_fields a "restore_start" start preempt None)
      restore ∈ L ∧
    EvEvent (done_draft a done_ns span bytes) (rc_communication_done_event_id r) ∈ L ∧
    EvEdge (transfer_edge (ki_trace_id (at_identity a)) start (rc_communication_done_event_id r)) ∈ L ∧
    EvRow "transfer_event" (PInt done_ns) (done_fields a bytes duration) row' ∈ L ∧
    EvRow "recovery_event" (PInt done_ns)
      (restore_fields a "restore_done" (rc_communication_done_event_id r) restore (Some bytes))
      (rc_restore_done_profile_record_id r) ∈ L.

(** The receipt [r] of a completion: what it says, and its chain *)
Definition receipt_grounded (L : list evidence) (a : TransferAttempt) (submit_ns done_ns : Z)
    (success : bool) (bytes_moved duration : option Z) (r : KVRecoveryH2DReceipt) : Prop :=
  success = true ∧ submit_ns < done_ns ∧ rc_timestamp_ns r = done_ns ∧
  rc_transfer_id r = at_transfer_id a ∧ rc_identity r = at_identity a ∧
  ∃ bytes, bytes_moved = Some bytes ∧ rc_bytes_moved r = bytes ∧ 0 < bytes ∧
    restore_chain L a submit_ns done_ns bytes duration r.

Lemma completed_spec a sub ts ok b d k L :
  WorkerInv k L →
  wpe (W:=W) (transfer_completed a sub ts ok b d)
    (λ r k' L', wk_pending k' ⊆ wk_pending k ∧ L ⊆ L' ∧
       ∀ rc, r = Ok (Some rc) → receipt_grounded L' a sub ts ok b d rc) k L.
Proof.
  intros Hk. unfold transfer_completed, when_open, finish_transfer. walk.
  all: split; [first [done|apply delete_subseteq]|].
  all: split; [set_solver|].
  all: try done.
  intros rc [= <-]. simplify_eq.
  match goal with E : completes _ _ _ _ _ _ = Some _ |- _ =>
    apply completes_ok in E as (Hp & -> & <- & <- & -> & Hb & Hlt) end.
  match goal with E : construct_with _ _ = Ok _ |- _ =>
    apply bind_ok in E as ([] & _ & [= <-]) end.
  destruct (Hk _ _ Hp) as [_ [row Hrow] Hst Hre].
  destruct (Hre _ ltac:(done)) as (start & preempt & Hs & Hpre & _ & Hr). simplify_eq.
  unfold receipt_grounded. cbn [rc_timestamp_ns rc_transfer_id rc_identity].
  split_and!; try done. eexists. split_and!; try done.
  destruct (Hst _ _ ltac:(done) ltac:(done)) as [He Hl].
  do 6 eexists. cbn [rc_communication_done_event_id rc_restore_done_profile_record_id].
  split_and!; [split|..]; try exact Hpre.
  all: try (rewrite !elem_of_app, !list_elem_of_singleton; by eauto 10).
  intros pre E. rewrite !elem_of_app. eauto 10.
Qed.


Lemma submitted_inv a ts k L :
  WorkerInv k L →
  wpe (W:=W) (transfer_submitted a ts) (λ r k' L', WorkerInv k' L' ∧ L ⊆ L') k L.
Proof.
  intros Hk. unfold transfer_submitted, when_open, start_transfer. walk.
  all: split; [|set_solver].
  all: try (eapply WorkerInv_mono; [|exact Hk]; set_solver).
  all: apply map_Forall_insert_2;
    [|eapply map_Forall_impl; [exact Hk|]; intros; eapply pending_ok_mono; [|done]; set_solver].
  all: constructor; cbn [wp_attempt wp_submit_timestamp_ns wp_span_id wp_start_event_id
    wp_restore_start fmap option_fmap option_map fst snd]; try done.
  all: try (eexists; in_app).
  all: intros; simplify_eq; try (split; [in_app|intros; simplify_eq; in_app]).
  all: do 2 eexists; split_and!; try done; in_app.
Qed.

Lemma call_inv c k L :
  WorkerInv k L → wpe (W:=W) (run_worker_call c) (λ r k' L', WorkerInv k' L' ∧ L ⊆ L') k L.
Proof.
  intros Hk.
  assert (∀ (m : Try (KVRecoveryWorkerEvidenceAdapter * Witnessed W) unit),
    wpe m (shrinks k L) k L → wpe m (λ r k' L', WorkerInv k' L' ∧ L ⊆ L') k L) as Hsh.
  { intros m. apply wpe_mono. intros r k' L' Hs. split; [by eapply shrinks_inv|apply Hs]. }
  destruct c; cbn [run_worker_call]; [by apply submitted_inv|apply Hsh..].
  - unfold transfer_not_submitted. walk; shrink.
  - apply wpe_bind. eapply wpe_mono; [|by apply completed_spec].
    intros [[rc|]|e] k' L' (? & ? & _); by repeat wpe_step.
  - unfold transfer_capacity_exhausted. walk; shrink.
  - unfold evidence_failure. walk; shrink.
  - unfold transfer_invalidated, when_open. walk; shrink.
  - unfold wait_completed, when_open. walk; try shrink.
    all: apply for_each_rows; intros; (split; [done|set_solver]).
  - unfold h2d_receipt_capacity_exhausted. walk; shrink.
  - unfold first_compute. walk; shrink.
  - unfold worker_close, when_open. walk; try shrink.
    apply for_each_lost; intros; walk; shrink.
  - unfold close_for_worker_failure, worker_close, when_open. cbn [for_each]. walk; shrink.
Qed.

Lemma worker_invariant run_id k x : worker_reachable run_id k x → WorkerInv k (wi_log x).
Proof.
  induction 1 as [k w Hn|c k [w L] Hr IH].
  - unfold new_worker in Hn. inv_ok. apply map_Forall_empty.
  - pose proof (call_inv c k L IH w) as Hc.
    destruct (run_worker_call c (k, mkWitnessed w L)) as [r [k' x']]. apply Hc.
Qed.

(** C14. A receipt is grounded.  In every run of a worker adapter, a completion that
    returns a receipt was a success that moved bytes after its submission, the receipt
    names the transfer, and the log holds the whole chain it stands for: the start
    event, its edge from the preempted event of the episode, the submit row and the
    milestone [restore_start] written at submission; the done event that the receipt
    names, its edge from the start event, the done row with the bytes, and the
    milestone [restore_done], linked to [restore_start], that the receipt names. *)
Theorem worker_receipt_grounded run_id k x a sub ts ok b d rc s :
  worker_reachable run_id k x →
  transfer_completed a sub ts ok b d (k, x) = (Ok (Some rc), s) →
  receipt_grounded (wi_log s.2) a sub ts ok b d rc.
Proof.
  intros Hk%worker_invariant Hc. destruct x as [w L], s as [k' x'].
  pose proof (completed_spec a sub ts ok b d k L Hk w) as Hw. rewrite Hc in Hw.
  by destruct Hw as (_ & _ & Hw); apply Hw.
Qed.
End runs.

(** ** An example: one restore over the exporter *)

Definition recovery_env : gmap string string :=
  <[TRACE_COMMUNICATION_MODE_ENV := KV_RECOVERY_COMMUNICATION_MODE]>
  (<[TRACE_KV_RECOVERY_RUN_ID_ENV := example_trace]> example_env).

Definition recovery_live : LiveHooks :=
  mkLive (init_hooks example_boot 7 (from_env recovery_env)).2 7
    (λ n, (Ok (PInt (10 + Z.of_nat n)), 100 + Z.of_nat n)) 0.

(** The ledger of the observer factory over that exporter *)
Definition recovery_world : BoundedKVRecoveryProfileLedger LiveHooks :=
  mkLedger example_uuid 65536 (Some recovery_live) 0 [] [].

(** Constructors that accept everything *)
Definition permissive_abi : RuntimeABI := {|
  identity_type _ := Ok tt; logical_block_type _ := Ok tt; transfer_context_type _ := Ok tt;
  compute_context_type _ := Ok tt; receipt_type _ := Ok tt;
  canonical_block_set_id i l := Ok (sha256_hexdigest (ki_engine_lifecycle_id i)) |}.

Definition example_kv_identity : KVRecoveryIdentity :=
  mkKVIdentity example_trace example_trace (example_trace +:+ ":e:0") "req-1" (Some 1)
    (Some (example_trace +:+ ":e:0:k:1")) (Some (make_id example_trace "e" 4))
    (Some (make_id example_trace "k" 0)).

Definition example_attempt : TransferAttempt :=
  mkAttempt 3 (make_id example_uuid "t" 0)
    (mkTransferContext example_kv_identity "h2d_restore" (sha256_hexdigest "blocks") []).

Definition example_worker : KVRecoveryWorkerEvidenceAdapter := mkWorker example_trace ∅ false.

#[local] Existing Instance permissive_abi.

Definition submitted_run :
    KVRecoveryWorkerEvidenceAdapter * Witnessed (BoundedKVRecoveryProfileLedger LiveHooks) :=
  (run_worker_call (WSubmitted example_attempt 150) (example_worker, mkWitnessed recovery_world [])).2.

Definition completed_run :=
  transfer_completed example_attempt 150 200 true (Some 4096) None submitted_run.

(** Nothing was lost: the exporter accepts all that the adapter wrote. *)
Definition log_lossless (l : list evidence) : bool :=
  forallb (λ e, match e with EvLost _ _ _ => false | _ => true end) l.

Lemma submitted_run_reachable : worker_reachable example_trace submitted_run.1 submitted_run.2.
Proof. apply worker_call_step, worker_new. reflexivity. Qed.

Lemma worker_receipt_grounded_witness :
  ∃ rc, completed_run.1 = Ok (Some rc) ∧ rc_bytes_moved rc = 4096 ∧
    log_lossless (wi_log completed_run.2.2) = true ∧
    receipt_grounded (wi_log completed_run.2.2) example_attempt 150 200 true (Some 4096) None rc.
Proof.
  assert (∃ rc, completed_run.1 = Ok (Some rc) ∧ rc_bytes_moved rc = 4096 ∧
    log_lossless (wi_log completed_run.2.2) = true) as (rc & Hrc & Hb & Hl)
    by (eexists; vm_compute; repeat split; reflexivity).
  exists rc. split; [exact Hrc|]. split; [exact Hb|]. split; [exact Hl|].
  revert Hrc Hl. unfold completed_run. generalize submitted_run_reachable. generalize submitted_run.
  intros [k x] Hk Hrc _. apply (worker_receipt_grounded example_trace k x); [exact Hk|].
  rewrite <- Hrc. apply surjective_pairing.
Defined.

(** A completion of a transfer that was never submitted: the exporter counts the loss. *)
Lemma worker_no_silent_loss_witness :
  ∃ r k' x, run_worker_call (WCompleted example_attempt 150 200 true (Some 4096) None)
      (example_worker, mkWitnessed recovery_world []) = (r, (k', x)) ∧ is_ok r = true ∧
    wi_log x = [EvLost "transfer_event" true true] ∧
    ∃ new, wi_log x = [] ++ new ∧ Forall honest new ∧
      (is_ok r = true → wk_closed example_worker = false →
       recorded (WCompleted example_attempt 150 200 true (Some 4096) None) example_worker k' new ∨
       is_close (WCompleted example_attempt 150 200 true (Some 4096) None) = false ∧ lost new).
Proof.
  set (c := WCompleted example_attempt 150 200 true (Some 4096) None).
  assert (∃ r k' x, run_worker_call c (example_worker, mkWitnessed recovery_world []) = (r, (k', x)) ∧
    is_ok r = true ∧ wi_log x = [EvLost "transfer_event" true true]) as (r & k' & x & HC & Hr & Hl)
    by (do 3 eexists; vm_compute; repeat split; reflexivity).
  exists r, k', x. split; [exact HC|]. split; [exact Hr|]. split; [exact Hl|].
  pose proof (worker_no_silent_loss c example_worker recovery_world []) as HT.
  rewrite HC in HT. exact HT.
Defined.

(** *** Wait sets *)

(** 64 transfers of this process and one of another *)
Definition mixed_wait : WaitAttempt :=
  mkWait 150 (map (λ z, make_id example_uuid "t" z) (seqZ 10 64)
              ++ [make_id example_trace "t" 5]).

Definition mixed_log : list evidence :=
  wi_log (wait_completed mixed_wait (example_worker, mkWitnessed recovery_world [])).2.2.

(** A wait set with a foreign member is represented in part: the chunk before it is
    recorded, and only the chunk that holds it is lost. *)
Theorem wait_set_partial :
  ∃ set_id row, mixed_log =
    [EvRow "wait_set_chunk" (PInt 150) (wait_fields set_id (wa_transfer_ids mixed_wait) 0) row;
     EvLost "wait_set_chunk" true true].
Proof.
  exists (match wait_set_id example_trace example_uuid (wa_transfer_ids mixed_wait) with
     | Ok s => s | Raise _ => "" end),
    (make_id example_uuid "k" 0).
  vm_compute. reflexivity.
Qed.

(** A transfer identifier that is not ASCII makes the callback raise. *)
Theorem wait_completed_escapes {W} `{!EvidenceWorld W} a k uuid (x : Witnessed W) :
  wk_closed k = false → ew_process_uuid (wi_world x) = Some uuid →
  is_ok (wait_set_id (wk_run_id k) uuid (wa_transfer_ids a)) = false →
  ∃ e, (wait_completed a (k, x)).1 = Raise (ValueError e).
Proof.
  intros Hopen Huuid Hid. unfold wait_completed, when_open, or_lose, tbind, attempt.
  cbn -[wait_set_id for_each]. rewrite Hopen. cbn -[wait_set_id for_each]. rewrite Huuid.
  cbn -[wait_set_id for_each].
  unfold wait_set_id in *. destruct (str_forall _ _); [discriminate|]. by eexists.
Qed.

Definition wait_example : list string := map (λ z, make_id example_uuid "t" z) [10; 11; 9].

Lemma wait_rows_accepted_witness :
  ∃ set_id, wait_set_id example_trace example_uuid wait_example = Ok set_id ∧
    _validate_wait_fields (wait_fields set_id wait_example 0) example_uuid = Ok tt.
Proof.
  assert (∃ set_id, wait_set_id example_trace example_uuid wait_example = Ok set_id) as [set_id Hid]
    by (eexists; vm_compute; reflexivity).
  exists set_id. split; [exact Hid|].
  assert (Forall (own_transfer_id example_uuid) wait_example) as Hown
    by (vm_compute; repeat constructor).
  assert (StronglySorted str_lt wait_example) as Hs by (vm_compute; repeat constructor).
  assert (length wait_example = 3%nat) as Hl by reflexivity.
  revert Hid Hown Hs Hl. generalize wait_example. intros ids Hid Hown Hs Hl.
  destruct (wait_rows_accepted example_trace example_uuid ids set_id Hid Hown Hs) as [HW _];
    [rewrite Hl; split; vm_compute; discriminate|].
  apply HW. rewrite Hl. vm_compute. reflexivity.
Defined.
