(* ===== verification/BridgeInterface.v ===== *)
(** * kv_recovery_runtime.py: the protocol class [BaseLifecycleBridge]

    What the scheduler adapter asks of a bridge, as a type class over the world it
    lives in.  [RuntimeBaseLifecycleBridge] next to any world is an instance, and so
    is every witnessed world: the bridge's own events are not evidence of the
    adapter. *)

From Stdlib Require Import ZArith Lia Ascii String.
From stdpp Require Import base list strings gmap.
From S2P Require Import Prelude PyValue Sha256 RuntimeProtocol ProfileProtocol SinkState.
From S2P Require Import TraceSink SinkSteps Hooks HooksInterface ProfileLedger ProfileAccounting LifecycleBridge Evidence.

Class BaseLifecycleBridge (W : Type) := {
  bl_register_runtime_request : string → string → Z → Try W unit;
  bl_emit_runtime_scheduled : string → Z → string → Z → Z → Z → Try W unit;
  bl_emit_runtime_preempted : string → Z → Z → Try W BaseEventRef;
  bl_emit_runtime_admission_started : string → Z → Z → Try W BaseEventRef;
  bl_emit_runtime_resumed : string → Z → Z → Z → Z → Try W BaseEventRef;
  bl_request_identity : string → Try W RequestLifecycleIdentity;
  bl_preempted_event : string → Z → Try W BaseEventRef;
  bl_admission_started_event : string → Z → Try W BaseEventRef;
  bl_resumed_event : string → Z → Try W BaseEventRef;
  bl_emit_first_compute : string → Z → Z → string → Try W BaseEventRef;
  bl_emit_runtime_terminal : string → string → Z → Z → Try W BaseEventRef }.

(** ** The bridge next to a world *)

Section instances.
Context {W : Type} `{!EvidenceWorld W}.

Definition beside {A} (f : W → A * W) (s : Bridge * W) : A * (Bridge * W) :=
  let '(a, w) := f s.2 in (a, (s.1, w)).

#[export] Instance beside_hooks : LifecycleHooks (Bridge * W) := {|
  lh_new_span_id := beside lh_new_span_id;
  lh_emit_event d := beside (lh_emit_event d);
  lh_emit_edge d := beside (lh_emit_edge d) |}.

#[export] Instance beside_world : EvidenceWorld (Bridge * W) := {|
  ew_hooks := beside_hooks;
  ew_process_uuid s := ew_process_uuid s.2;
  ew_clock_domain_id s := ew_clock_domain_id s.2;
  ew_close s := (s.1, ew_close s.2);
  ew_write t ts fields := beside (ew_write t ts fields);
  ew_drop t ts reason := beside (ew_drop t ts reason);
  ew_evidence_complete s := ew_evidence_complete s.2;
  ew_clock := beside ew_clock;
  ew_accepting s := ew_accepting s.2;
  ew_losses s := ew_losses s.2 |}.

#[export] Instance beside_laws `{!EvidenceLaws W} : EvidenceLaws (Bridge * W).
Proof.
  split.
  - intros t ts fields [b w] [b' w'] Ha. cbn. unfold beside. simpl.
    destruct (ew_write t ts fields w) as [r w1] eqn:E. intros [= -> <- <-].
    by eapply ew_write_counted.
  - intros t ts reason [b w] n [b' w'] Ha. cbn. unfold beside. simpl.
    destruct (ew_drop t ts reason w) as [r w1] eqn:E. intros [= -> <- <-].
    by eapply ew_drop_counted.
Qed.

#[export] Instance beside_bridge : BaseLifecycleBridge (Bridge * W) := {|
  bl_register_runtime_request := register_runtime_request;
  bl_emit_runtime_scheduled := emit_runtime_scheduled;
  bl_emit_runtime_preempted := emit_runtime_preempted;
  bl_emit_runtime_admission_started := emit_runtime_admission_started;
  bl_emit_runtime_resumed := emit_runtime_resumed;
  bl_request_identity := request_identity;
  bl_preempted_event := preempted_event;
  bl_admission_started_event := admission_started_event;
  bl_resumed_event := resumed_event;
  bl_emit_first_compute := emit_first_compute;
  bl_emit_runtime_terminal := emit_runtime_terminal |}.
End instances.

(** ** Witnessed worlds *)

Definition unlogged {W A} (f : Try W A) : Try (Witnessed W) A := λ x,
  let '(r, w) := f (wi_world x) in (r, note [] w x).

#[export] Instance witnessed_bridge {W} `{!BaseLifecycleBridge W} : BaseLifecycleBridge (Witnessed W) := {|
  bl_register_runtime_request run r t := unlogged (bl_register_runtime_request run r t);
  bl_emit_runtime_scheduled r t kind n total cached :=
    unlogged (bl_emit_runtime_scheduled r t kind n total cached);
  bl_emit_runtime_preempted r k t := unlogged (bl_emit_runtime_preempted r k t);
  bl_emit_runtime_admission_started r k t := unlogged (bl_emit_runtime_admission_started r k t);
  bl_emit_runtime_resumed r k t total cached := unlogged (bl_emit_runtime_resumed r k t total cached);
  bl_request_identity r := unlogged (bl_request_identity r);
  bl_preempted_event r k := unlogged (bl_preempted_event r k);
  bl_admission_started_event r k := unlogged (bl_admission_started_event r k);
  bl_resumed_event r k := unlogged (bl_resumed_event r k);
  bl_emit_first_compute r k t kind := unlogged (bl_emit_first_compute r k t kind);
  bl_emit_runtime_terminal r cause t n := unlogged (bl_emit_runtime_terminal r cause t n) |}.

(** [self._bridge.m(...)] *)
Definition via_bridge {S W A} (m : Try W A) : Try (S * W) A := λ s,
  let '(r, w) := m s.2 in (r, (s.1, w)).

Lemma wpe_unlogged {S W A} `{!EvidenceWorld W} (m : Try W A)
    (Q : res (option A) → S → list evidence → Prop) s L :
  (∀ r, Q r s L) → wpe (via_bridge (unlogged m)) Q s L.
Proof.
  intros HQ w. unfold via_bridge, unlogged. cbn -[app]. destruct (m w) as [r w'].
  cbn -[app]. rewrite app_nil_r. apply HQ.
Qed.

Lemma honestly_unlogged {S W A} `{!EvidenceWorld W} (m : Try W A) :
  honestly (S:=S) (via_bridge (unlogged m)).
Proof.
  apply honestly_silent. intros [k [w L]]. unfold via_bridge, unlogged. simpl.
  destruct (m w) as [r w']. simpl. by rewrite app_nil_r.
Qed.

#[export] Hint Resolve honestly_unlogged : honest.

(** The rules of Evidence.v and this one; a call of the bridge may do anything. *)
Ltac wpe_bridge_step :=
  lazymatch goal with
  | |- wpe (via_bridge _) _ _ _ => apply wpe_unlogged; intros [[?|]|?]
  | _ => wpe_step
  end; cbn beta iota.
