(* ===== verification/SchedulerAdapter.v ===== *)
(** * kv_recovery_runtime.py: [KVRecoverySchedulerAdapter]

    The adapter in the engine core: it opens an episode when a request is preempted,
    describes the blocks of a transfer, takes the receipt of the restore and writes
    the milestones up to the admission.  [episodes] is a map by request and epoch; an
    episode object that the source mutates is replaced in the map. *)

From Stdlib Require Import ZArith Lia Ascii String.
From stdpp Require Import base list strings gmap fin_maps.
From S2P Require Import Prelude PyValue Sha256 RuntimeProtocol ProfileProtocol SinkState.
From S2P Require Import TraceSink SinkSteps Hooks HooksInterface ProfileLedger ProfileAccounting LifecycleBridge Evidence.
From S2P Require Import BridgeInterface WorkerAdapter.

(** ** State *)

Record _SchedulerEpisode := mkSchedulerEpisode {
  se_identity : RequestLifecycleIdentity;
  se_recovery_epoch : Z;
  se_preempted_event : BaseEventRef;
  se_preempt_profile : option string;
  se_context : option KVRecoveryTransferContext;
  se_receipt : option KVRecoveryH2DReceipt;
  se_admission_started : option BaseEventRef;
  se_wakeup_profile : option string;
  se_predecessor_profile : option string;
  se_requeue_occurrence : Z;
  se_admission_profile : option string }.

Record KVRecoverySchedulerAdapter := mkScheduler {
  sc_run_id : string;
  sc_episodes : gmap (string * Z) _SchedulerEpisode;
  sc_logical_ids : gmap (string * Z * Z) string;
  sc_closed : bool }.

Definition new_scheduler (run_id : string) : res KVRecoverySchedulerAdapter :=
  ensure (_HEX32 run_id) (ValueError "run_id must be 32 lowercase hexadecimal characters") ;;
  Ok (mkScheduler run_id ∅ ∅ false).

Definition set_episodes (m : gmap (string * Z) _SchedulerEpisode) (k : KVRecoverySchedulerAdapter) :=
  mkScheduler (sc_run_id k) m (sc_logical_ids k) (sc_closed k).
Definition set_logical_ids (m : gmap (string * Z * Z) string) (k : KVRecoverySchedulerAdapter) :=
  mkScheduler (sc_run_id k) (sc_episodes k) m (sc_closed k).
Definition set_sc_closed (k : KVRecoverySchedulerAdapter) :=
  mkScheduler (sc_run_id k) (sc_episodes k) (sc_logical_ids k) true.

Definition put_episode (key : string * Z) (e : _SchedulerEpisode) (k : KVRecoverySchedulerAdapter) :=
  set_episodes (<[key := e]> (sc_episodes k)) k.
Definition pop_episode (key : string * Z) (k : KVRecoverySchedulerAdapter) :=
  set_episodes (delete key (sc_episodes k)) k.

Definition new_episode (i : RequestLifecycleIdentity) (epoch : Z) (preempted : BaseEventRef)
    : _SchedulerEpisode :=
  mkSchedulerEpisode i epoch preempted None None None None None None 0 None.

Definition set_preempt (id : string) (e : _SchedulerEpisode) :=
  mkSchedulerEpisode (se_identity e) (se_recovery_epoch e) (se_preempted_event e) (Some id)
    (se_context e) (se_receipt e) (se_admission_started e) (se_wakeup_profile e)
    (se_predecessor_profile e) (se_requeue_occurrence e) (se_admission_profile e).
Definition set_context (c : KVRecoveryTransferContext) (e : _SchedulerEpisode) :=
  mkSchedulerEpisode (se_identity e) (se_recovery_epoch e) (se_preempted_event e)
    (se_preempt_profile e) (Some c) (se_receipt e) (se_admission_started e) (se_wakeup_profile e)
    (se_predecessor_profile e) (se_requeue_occurrence e) (se_admission_profile e).
Definition set_receipt (r : KVRecoveryH2DReceipt) (e : _SchedulerEpisode) :=
  mkSchedulerEpisode (se_identity e) (se_recovery_epoch e) (se_preempted_event e)
    (se_preempt_profile e) (se_context e) (Some r) (se_admission_started e) (se_wakeup_profile e)
    (se_predecessor_profile e) (se_requeue_occurrence e) (se_admission_profile e).
Definition set_wakeup (started : BaseEventRef) (id : string) (e : _SchedulerEpisode) :=
  mkSchedulerEpisode (se_identity e) (se_recovery_epoch e) (se_preempted_event e)
    (se_preempt_profile e) (se_context e) (se_receipt e) (Some started) (Some id) (Some id)
    (se_requeue_occurrence e) (se_admission_profile e).
Definition set_requeued (id : string) (e : _SchedulerEpisode) :=
  mkSchedulerEpisode (se_identity e) (se_recovery_epoch e) (se_preempted_event e)
    (se_preempt_profile e) (se_context e) (se_receipt e) (se_admission_started e)
    (se_wakeup_profile e) (Some id) (se_requeue_occurrence e + 1) (se_admission_profile e).
Definition set_admission (id : string) (e : _SchedulerEpisode) :=
  mkSchedulerEpisode (se_identity e) (se_recovery_epoch e) (se_preempted_event e)
    (se_preempt_profile e) (se_context e) (se_receipt e) (se_admission_started e)
    (se_wakeup_profile e) (se_predecessor_profile e) (se_requeue_occurrence e) (Some id).

(** ** Rows *)

Definition episode_id (lifecycle_id : string) (epoch : Z) : string :=
  lifecycle_id +:+ ":k:" +:+ str_of_Z epoch.

(** The fields of a milestone of the episode [e] at the epoch *)
Definition milestone_fields (i : RequestLifecycleIdentity) (epoch : Z) (episode : string)
    (r : stage_row) : pydict :=
  stage_fields (request_fields (ri_trace_id i) (ri_engine_lifecycle_id i)
    (ri_runtime_request_id i) (Some epoch) (Some episode)) r.

Definition preempt_fields (e : _SchedulerEpisode) (lifecycle_id : string) : pydict :=
  milestone_fields (se_identity e) (se_recovery_epoch e)
    (episode_id lifecycle_id (se_recovery_epoch e))
    (mkStage "preempt" 0 (Some (be_event_id (se_preempted_event e))) None None None None None None
       None (Some ("RUNNING", "PREEMPTED"))).

(** A milestone after the restore: it names the transfer of the receipt. *)
Definition return_fields (i : RequestLifecycleIdentity) (epoch : Z) (rc : KVRecoveryH2DReceipt)
    (stage : string) (occurrence : Z) (base_event admission : option string) (from : string)
    (reason : option string) (before after : string) : pydict :=
  milestone_fields i epoch (episode_id (ri_engine_lifecycle_id i) epoch)
    (mkStage stage occurrence base_event admission (Some from) (Some (rc_transfer_id rc))
       (Some (rc_block_set_id rc)) (Some (rc_bytes_moved rc)) reason None (Some (before, after))).

Definition wakeup_fields (i : RequestLifecycleIdentity) (epoch : Z) (rc : KVRecoveryH2DReceipt)
    : pydict :=
  return_fields i epoch rc "scheduler_wakeup" 0 None None (rc_restore_done_profile_record_id rc)
    None "WAITING_FOR_REMOTE_KVS" "PREEMPTED".

Definition requeue_fields (i : RequestLifecycleIdentity) (epoch : Z) (rc : KVRecoveryH2DReceipt)
    (occurrence : Z) (from reason : string) : pydict :=
  return_fields i epoch rc "requeue" occurrence None None from (Some reason) "PREEMPTED" "PREEMPTED".

Definition admission_fields (i : RequestLifecycleIdentity) (epoch : Z) (rc : KVRecoveryH2DReceipt)
    (resumed started : BaseEventRef) (from : string) : pydict :=
  return_fields i epoch rc "admission" 0 (Some (be_event_id resumed)) (Some (be_event_id started))
    from None "PREEMPTED" "RUNNING".

Definition block_entry (b : KVRecoveryLogicalBlock) : pyval :=
  PDict [("group_index", PInt (lb_group_index b)); ("logical_ordinal", PInt (lb_logical_ordinal b));
         ("logical_block_id", PStr (lb_logical_block_id b))].

Definition _MAX_BLOCK_ROWS_PER_CHUNK_BYTE_BUDGET : nat := 32.

Definition block_chunk_count (n : nat) : Z := (Z.of_nat n + 32 - 1) / 32.

Definition block_fields (i : RequestLifecycleIdentity) (epoch : option Z) (episode : option string)
    (block_set_id : string) (blocks : list KVRecoveryLogicalBlock) (chunk_index : nat) : pydict :=
  request_fields (ri_trace_id i) (ri_engine_lifecycle_id i) (ri_runtime_request_id i) epoch episode ++
  [("block_set_id", PStr block_set_id); ("chunk_index", PInt (Z.of_nat chunk_index));
   ("chunk_count", PInt (block_chunk_count (length blocks)));
   ("total_block_count", PInt (Z.of_nat (length blocks)));
   ("blocks", PList (map block_entry
      (take _MAX_BLOCK_ROWS_PER_CHUNK_BYTE_BUDGET
        (drop (chunk_index * _MAX_BLOCK_ROWS_PER_CHUNK_BYTE_BUDGET) blocks))))].

(** The bytes a logical block identifier is the digest of; [encode] raises on text
    that is not ASCII. *)
Definition logical_block_id (run_id lifecycle_id : string) (group ordinal : Z) : res string :=
  let zero := String Ascii.zero EmptyString in
  let raw := run_id +:+ zero +:+ lifecycle_id +:+ zero +:+ str_of_Z group +:+ ":"
    +:+ str_of_Z ordinal in
  if str_forall (λ c, code c <? 128) raw then Ok (str_take 32 (sha256_hexdigest raw))
  else Raise (ValueError "'ascii' codec can't encode character").

(** [max(..., key=recovery_epoch)] over the episodes of a request *)
Definition later_episode (a : option _SchedulerEpisode) (e : _SchedulerEpisode)
    : option _SchedulerEpisode :=
  match a with
  | Some b => if se_recovery_epoch b <? se_recovery_epoch e then Some e else a
  | None => Some e
  end.

Definition request_episodes (request : string) (k : KVRecoverySchedulerAdapter)
    : gmap (string * Z) _SchedulerEpisode :=
  filter (λ kv, kv.1.1 = request) (sc_episodes k).

Definition latest_episode (request : string) (k : KVRecoverySchedulerAdapter)
    : option _SchedulerEpisode :=
  foldl later_episode None (map snd (map_to_list (request_episodes request k))).

(** ** Methods *)

Section scheduler.
Context {W : Type} `{!EvidenceWorld W, !BaseLifecycleBridge W, !RuntimeABI}.
#[local] Abbreviation Run := (Try (KVRecoverySchedulerAdapter * W)).

Local Open Scope try_scope.

Definition scheduler_open : Run unit := k <- self ; proceed (negb (sc_closed k)).

(** [try: x = m  except Exception: x = None] *)
Definition or_none {A} (m : Run A) : Run (option A) := rescue (attempt m) (tret None).

(** A loss, then [return None] *)
Definition forgo {A} (record_type : string) (timestamp_ns : option Z) : Run A :=
  lose record_type timestamp_ns ;; found None.

Definition request_started (request : string) : Run unit :=
  scheduler_open ;;
  k <- self ;
  rescue
    (timestamp_ns <- read_clock ;
     registered <- attempt (via_bridge
       (bl_register_runtime_request (sc_run_id k) request timestamp_ns)) ;
     match registered with
     | Some _ => tret tt
     | None => lose "recovery_event" (Some timestamp_ns)
     end)
    (lose "recovery_event" None).

Definition request_scheduled (request compute_kind : string) (scheduled total cached : Z)
    : Run unit :=
  scheduler_open ;;
  rescue
    (timestamp_ns <- read_clock ;
     emitted <- attempt (via_bridge
       (bl_emit_runtime_scheduled request timestamp_ns compute_kind scheduled total cached)) ;
     match emitted with
     | Some _ => tret tt
     | None => lose "recovery_event" (Some timestamp_ns)
     end)
    (lose "recovery_event" None).

(** Earlier episodes of the request that wrote no row are forgotten. *)
Definition is_idle (request : string) (kv : (string * Z) * _SchedulerEpisode) : bool :=
  String.eqb kv.1.1 request && negb (is_some_b (se_preempt_profile kv.2)).

Definition drop_idle (request : string) (k : KVRecoverySchedulerAdapter) :=
  set_episodes (filter (λ kv, is_idle request kv = false) (sc_episodes k)) k.

Definition request_preempted (request : string) (epoch : Z) : Run string :=
  k <- self ;
  proceed (negb (sc_closed k || (epoch <? 1))) ;;
  identity <- attempt (via_bridge (bl_request_identity request)) ;
  base_event <- attempt (via_bridge (bl_preempted_event request epoch)) ;
  base_event <-
    match identity, base_event with
    | Some _, None =>
        or_none (timestamp_ns <- read_clock ;
                 via_bridge (bl_emit_runtime_preempted request epoch timestamp_ns))
    | _, _ => tret base_event
    end ;
  match identity, base_event with
  | Some i, Some event =>
      if bool_decide (is_Some (sc_episodes k !! (request, epoch))) then
        lose "recovery_event" None ;; update (pop_episode (request, epoch)) ;; found None
      else
        update (drop_idle request) ;;
        update (put_episode (request, epoch) (new_episode i epoch event)) ;;
        tret (be_event_id event)
  | _, _ => lose "recovery_event" None ;; update (pop_episode (request, epoch)) ;; found None
  end.

Definition _logical_block_id (i : RequestLifecycleIdentity) (group ordinal : Z) : Run string :=
  k <- self ;
  let key := (ri_engine_lifecycle_id i, group, ordinal) in
  match sc_logical_ids k !! key with
  | Some value => tret value
  | None =>
      value <- built (logical_block_id (sc_run_id k) (ri_engine_lifecycle_id i) group ordinal) ;
      update (λ k, set_logical_ids (<[key := value]> (sc_logical_ids k)) k) ;;
      tret value
  end.

(** [tuple(... for coordinate in coordinates)] *)
Fixpoint logical_blocks (i : RequestLifecycleIdentity) (coordinates : list (Z * Z))
    : Run (list KVRecoveryLogicalBlock) :=
  match coordinates with
  | [] => tret []
  | (group, ordinal) :: coordinates =>
      id <- _logical_block_id i group ordinal ;
      block <- built (construct_with logical_block_type (mkLogicalBlock group ordinal id)) ;
      blocks <- logical_blocks i coordinates ;
      tret (block :: blocks)
  end.

(** The preempt milestone of the episode that a restore is for; [None] for a transfer
    without an episode *)
Definition open_restore (i : RequestLifecycleIdentity) (request operation : string)
    (episode : option _SchedulerEpisode) : Run (option _SchedulerEpisode) :=
  if String.eqb operation "h2d_restore" then
    match episode with
    | None => tret None
    | Some e =>
        if is_some_b (se_context e) then forgo "recovery_event" None
        else
          profile_id <- attempt (write_row "recovery_event"
            (be_timestamp_ns (se_preempted_event e))
            (preempt_fields e (ri_engine_lifecycle_id i))) ;
          match profile_id with
          | None => update (pop_episode (request, se_recovery_epoch e)) ;; found None
          | Some id =>
              update (put_episode (request, se_recovery_epoch e) (set_preempt id e)) ;;
              tret (Some (set_preempt id e))
          end
    end
  else if String.eqb operation "d2h_preserve" then tret None
  else forgo "block_set_chunk" None.

Definition restore_epoch (e : option _SchedulerEpisode) : option Z := se_recovery_epoch <$> e.

Definition restore_episode_id (i : RequestLifecycleIdentity) (e : option _SchedulerEpisode)
    : option string :=
  episode_id (ri_engine_lifecycle_id i) <$> restore_epoch e.

Definition transfer_identity_of (run_id request : string) (i : RequestLifecycleIdentity)
    (e : option _SchedulerEpisode) : KVRecoveryIdentity :=
  mkKVIdentity run_id (ri_trace_id i) (ri_engine_lifecycle_id i) request (restore_epoch e)
    (restore_episode_id i e) (e ← e; Some (be_event_id (se_preempted_event e)))
    (e ← e; se_preempt_profile e).

(** The identity, the blocks and the context, built by the host's constructors *)
Definition build_context (i : RequestLifecycleIdentity) (request operation : string)
    (e : option _SchedulerEpisode) (coordinates : list (Z * Z)) : Run KVRecoveryTransferContext :=
  k <- self ;
  identity <- built (construct_with identity_type
    (transfer_identity_of (sc_run_id k) request i e)) ;
  blocks <- logical_blocks i coordinates ;
  block_set_id <- built (canonical_block_set_id identity blocks) ;
  built (construct_with transfer_context_type
    (mkTransferContext identity operation block_set_id blocks)).

Definition prepare_transfer_context (request operation : string) (coordinates : list (Z * Z))
    : Run KVRecoveryTransferContext :=
  k <- self ;
  proceed (negb (sc_closed k || bool_decide (coordinates = []))) ;;
  i <- or_lose "block_set_chunk" None (via_bridge (bl_request_identity request)) ;
  e <- open_restore i request operation (latest_episode request k) ;
  context <- rescue (build_context i request operation e coordinates)
    (forgo "block_set_chunk" None) ;
  timestamp_ns <- rescue read_clock (forgo "block_set_chunk" None) ;
  let blocks := cx_logical_blocks context in
  for_each (λ chunk_index,
    _ <- write_row "block_set_chunk" timestamp_ns
      (block_fields i (restore_epoch e) (restore_episode_id i e) (cx_block_set_id context) blocks
         chunk_index) ;
    tret tt) (seq 0 (Z.to_nat (block_chunk_count (length blocks)))) ;;
  match e with
  | Some e =>
      update (put_episode (request, se_recovery_epoch e) (set_context context e)) ;;
      tret context
  | None => tret context
  end.

(** The receipt belongs to the episode's transfer. *)
Definition receipt_fits (rc : KVRecoveryH2DReceipt) (e : _SchedulerEpisode) : bool :=
  match se_context e with
  | Some c =>
      negb (is_some_b (se_receipt e)) && bool_decide (rc_identity rc = cx_identity c)
      && String.eqb (rc_block_set_id rc) (cx_block_set_id c)
      && bool_decide (ki_recovery_epoch (rc_identity rc) = Some (se_recovery_epoch e))
  | None => false
  end.

Definition consume_receipt (rc : KVRecoveryH2DReceipt) : Run unit :=
  match ki_recovery_epoch (rc_identity rc) with
  | None => tret tt
  | Some epoch =>
      let key := (ki_runtime_request_id (rc_identity rc), epoch) in
      k <- self ;
      match sc_episodes k !! key with
      | Some e =>
          if receipt_fits rc e then update (put_episode key (set_receipt rc e))
          else lose "recovery_event" (Some (rc_timestamp_ns rc))
      | None => lose "recovery_event" (Some (rc_timestamp_ns rc))
      end
  end.

Definition consume_h2d_receipts (receipts : list KVRecoveryH2DReceipt)
    (receipt_capacity_exhausted : bool) : Run unit :=
  scheduler_open ;;
  (if receipt_capacity_exhausted then lose "recovery_event" None else tret tt) ;;
  for_each consume_receipt receipts.

(** The open episode of a callback after the restore, with its receipt *)
Definition restored_episode (request : string) (epoch : Z)
    : Run (_SchedulerEpisode * KVRecoveryH2DReceipt) :=
  k <- self ;
  e <- found (sc_episodes k !! (request, epoch)) ;
  proceed (negb (sc_closed k)) ;;
  rc <- found (se_receipt e) ;
  proceed (epoch =? se_recovery_epoch e) ;;
  tret (e, rc).

Definition request_admission_started (request : string) (epoch : Z) : Run unit :=
  er <- restored_episode request epoch ;
  let '(e, rc) := er in
  proceed (negb (is_some_b (se_admission_started e))) ;;
  wakeup_timestamp_ns <- read_clock ;
  event <- attempt (via_bridge (bl_admission_started_event request epoch)) ;
  event <-
    match event with
    | Some _ => tret event
    | None => or_none (via_bridge
        (bl_emit_runtime_admission_started request epoch wakeup_timestamp_ns))
    end ;
  event <- or_lose "recovery_event" (Some (rc_timestamp_ns rc))
    (found (if _is_uint64 wakeup_timestamp_ns then event else None)) ;
  or_lose "recovery_event" (Some (rc_timestamp_ns rc))
    (proceed (wakeup_timestamp_ns <=? be_timestamp_ns event)) ;;
  profile_id <- write_row "recovery_event" wakeup_timestamp_ns
    (wakeup_fields (se_identity e) epoch rc) ;
  update (put_episode (request, epoch) (set_wakeup event profile_id e)).

Definition request_requeued (request : string) (epoch : Z) (reason : string) : Run unit :=
  er <- restored_episode request epoch ;
  let '(e, rc) := er in
  wakeup <- found (se_wakeup_profile e) ;
  predecessor <- found (se_predecessor_profile e) ;
  proceed (negb (is_some_b (se_admission_profile e))) ;;
  timestamp_ns <- rescue read_clock (forgo "recovery_event" None) ;
  profile_id <- write_row "recovery_event" timestamp_ns
    (requeue_fields (se_identity e) epoch rc (se_requeue_occurrence e) predecessor reason) ;
  update (put_episode (request, epoch) (set_requeued profile_id e)).

(** The first compute event and the context of the child observation *)
Definition first_compute_context (request : string) (epoch : Z) (rc : KVRecoveryH2DReceipt)
    (resumed : BaseEventRef) (profile_id compute_kind : string) : Run KVRecoveryComputeContext :=
  now <- read_clock ;
  first_compute <- attempt (via_bridge (bl_emit_first_compute request epoch
    (Z.max (be_timestamp_ns resumed) now) compute_kind)) ;
  match first_compute with
  | None => built (Raise (ValueError "base first-compute event was not emitted"))
  | Some event =>
      built (construct_with compute_context_type
        (mkComputeContext (rc_identity rc) (rc_transfer_id rc) (rc_block_set_id rc)
           (rc_bytes_moved rc) profile_id compute_kind (be_event_id event)))
  end.

Definition request_admitted (request : string) (epoch : Z) (compute_kind : string)
    (total cached : Z) : Run KVRecoveryComputeContext :=
  er <- restored_episode request epoch ;
  let '(e, rc) := er in
  started <- found (se_admission_started e) ;
  wakeup <- found (se_wakeup_profile e) ;
  predecessor <- found (se_predecessor_profile e) ;
  proceed (negb (is_some_b (se_admission_profile e)) && is_compute_kind compute_kind) ;;
  resumed <- attempt (via_bridge (bl_resumed_event request epoch)) ;
  resumed <-
    match resumed with
    | Some _ => tret resumed
    | None => or_none (timestamp_ns <- read_clock ;
        via_bridge (bl_emit_runtime_resumed request epoch timestamp_ns total cached))
    end ;
  let lost_at := Some (rc_timestamp_ns rc) in
  resumed <- or_lose "recovery_event" lost_at (found resumed) ;
  or_lose "recovery_event" lost_at
    (proceed (be_timestamp_ns started <=? be_timestamp_ns resumed)) ;;
  _ <- or_lose "recovery_event" lost_at
    (emit_link (restore_edge (ri_trace_id (se_identity e)) (rc_communication_done_event_id rc)
       (be_event_id started))) ;
  profile_id <- write_row "recovery_event" (be_timestamp_ns resumed)
    (admission_fields (se_identity e) epoch rc resumed started predecessor) ;
  update (put_episode (request, epoch) (set_admission profile_id e)) ;;
  context <- rescue (first_compute_context request epoch rc resumed profile_id compute_kind)
    (forgo "recovery_event" (Some (be_timestamp_ns resumed))) ;
  update (pop_episode (request, epoch)) ;;
  tret context.

(** The loop of [request_terminal] and of [reset] over one episode *)
Definition retire_episode (kv : (string * Z) * _SchedulerEpisode) : Run unit :=
  update (pop_episode kv.1) ;;
  if is_some_b (se_preempt_profile kv.2) then lose "recovery_event" None else tret tt.

Definition request_terminal (request terminal_cause : string) (generated : Z) : Run unit :=
  k <- self ;
  for_each retire_episode (map_to_list (request_episodes request k)) ;;
  emitted <- or_none (timestamp_ns <- read_clock ;
    via_bridge (bl_emit_runtime_terminal request terminal_cause timestamp_ns generated)) ;
  match emitted with
  | Some _ => tret tt
  | None => lose "recovery_event" None
  end.

Definition reset : Run unit :=
  k <- self ;
  for_each (λ kv : (string * Z) * _SchedulerEpisode,
    if is_some_b (se_preempt_profile kv.2) then lose "recovery_event" None else tret tt)
    (map_to_list (sc_episodes k)) ;;
  update (set_episodes ∅).

(** [try: ...  finally: self._hooks.close()] *)
Definition scheduler_close : Run unit :=
  scheduler_open ;;
  λ s,
    let '(r, s) := (reset ;; update set_sc_closed ;; update (set_logical_ids ∅)) s in
    let '(_, s) := close_hooks s in (r, s).
End scheduler.
