(* ===== verification/SchedulerInvariant.v ===== *)
(** * The scheduler adapter: its invariant

    Every open episode rests on rows of the log: its preempt milestone, the wakeup
    linked to the receipt of the restore, and a chain of requeues.  The cache of
    logical block identifiers holds what it would compute.  [SchedInv] holds in every
    run, whatever the world and the host's constructors answer. *)

From Stdlib Require Import ZArith Lia Ascii String.
From stdpp Require Import base list strings gmap fin_maps sorting.
From S2P Require Import Prelude PyValue Sha256 RuntimeProtocol ProfileProtocol SinkState.
From S2P Require Import TraceSink SinkSteps Hooks HooksInterface ProfileLedger ProfileAccounting LifecycleBridge Evidence.
From S2P Require Import BridgeInterface WorkerAdapter SchedulerAdapter.

(** ** Grounded episodes *)

(** [n] requeues after the row [w], each linked to the one before, end at the row [p]. *)
Inductive requeues (L : list evidence) (i : RequestLifecycleIdentity) (epoch : Z)
    (rc : KVRecoveryH2DReceipt) (w : string) : Z → string → Prop :=
| no_requeue : requeues L i epoch rc w 0 w
| requeued_again n p t reason q :
    requeues L i epoch rc w n p →
    EvRow "recovery_event" (PInt t) (requeue_fields i epoch rc n p reason) q ∈ L →
    requeues L i epoch rc w (n + 1) q.

(** The row of the preempt milestone *)
Definition preempt_row (L : list evidence) (e : _SchedulerEpisode) (id : string) : Prop :=
  ∃ lifecycle_id, EvRow "recovery_event" (PInt (be_timestamp_ns (se_preempted_event e)))
    (preempt_fields e lifecycle_id) id ∈ L.

(** The context of the transfer names the episode. *)
Definition context_of (key : string * Z) (e : _SchedulerEpisode) (c : KVRecoveryTransferContext)
    : Prop :=
  ∃ id, se_preempt_profile e = Some id ∧
    ki_preempt_profile_record_id (cx_identity c) = Some id ∧
    ki_base_preempted_event_id (cx_identity c) = Some (be_event_id (se_preempted_event e)) ∧
    ki_recovery_epoch (cx_identity c) = Some key.2 ∧
    ki_runtime_request_id (cx_identity c) = key.1.

(** The wakeup [w] of the episode and the requeues after it *)
Definition woken (L : list evidence) (epoch : Z) (e : _SchedulerEpisode) (w : string) : Prop :=
  ∃ rc started t p, se_receipt e = Some rc ∧ se_admission_started e = Some started ∧
    EvRow "recovery_event" (PInt t) (wakeup_fields (se_identity e) epoch rc) w ∈ L ∧
    t ≤ be_timestamp_ns started ∧ se_predecessor_profile e = Some p ∧
    requeues L (se_identity e) epoch rc w (se_requeue_occurrence e) p.

Record episode_ok (L : list evidence) (key : string * Z) (e : _SchedulerEpisode) : Prop := {
  eo_epoch : se_recovery_epoch e = key.2;
  eo_preempt : ∀ id, se_preempt_profile e = Some id → preempt_row L e id;
  eo_context : ∀ c, se_context e = Some c → context_of key e c;
  eo_receipt : ∀ rc, se_receipt e = Some rc →
    ∃ c, se_context e = Some c ∧ rc_identity rc = cx_identity c ∧
      rc_block_set_id rc = cx_block_set_id c;
  eo_wakeup : ∀ w, se_wakeup_profile e = Some w → woken L key.2 e w;
  eo_fresh : se_admission_started e = None →
    se_wakeup_profile e = None ∧ se_requeue_occurrence e = 0 }.

(** The cache holds the identifiers it stands for. *)
Definition cache_ok (k : KVRecoverySchedulerAdapter) : Prop :=
  map_Forall (λ key v, logical_block_id (sc_run_id k) key.1.1 key.1.2 key.2 = Ok v)
    (sc_logical_ids k).

Record SchedInv (k : KVRecoverySchedulerAdapter) (L : list evidence) : Prop := {
  si_episodes : map_Forall (episode_ok L) (sc_episodes k);
  si_cache : cache_ok k }.

Lemma requeues_mono L L' i epoch rc w n p :
  L ⊆ L' → requeues L i epoch rc w n p → requeues L' i epoch rc w n p.
Proof. intros Hs. induction 1; [constructor|]. econstructor; [done|by apply Hs]. Qed.

Lemma woken_mono L L' epoch e w : L ⊆ L' → woken L epoch e w → woken L' epoch e w.
Proof.
  intros Hs (rc & st & t & p & ? & ? & ? & ? & ? & ?). exists rc, st, t, p.
  split_and!; try done; [by apply Hs|by eapply requeues_mono].
Qed.

Lemma sched_episode_ok_mono L L' key e : L ⊆ L' → episode_ok L key e → episode_ok L' key e.
Proof.
  intros Hs [He Hp Hc Hr Hw Hf]. constructor; try done.
  - intros id Hid. destruct (Hp id Hid) as [lid Hl]. exists lid. by apply Hs.
  - intros w Hw'. eapply woken_mono; [exact Hs|by apply Hw].
Qed.

Lemma SchedInv_mono k L L' : L ⊆ L' → SchedInv k L → SchedInv k L'.
Proof.
  intros Hs [He Hc]. constructor; [|done]. eapply map_Forall_impl; [exact He|].
  intros. by eapply sched_episode_ok_mono.
Qed.

Lemma SchedInv_put k L key e : SchedInv k L → episode_ok L key e → SchedInv (put_episode key e k) L.
Proof. intros [He Hc] Hok. constructor; [by apply map_Forall_insert_2|done]. Qed.

Lemma SchedInv_sub k L m : SchedInv k L → m ⊆ sc_episodes k → SchedInv (set_episodes m k) L.
Proof.
  intros [He Hc] Hm. constructor; [|done]. intros key e Hk. apply He. by eapply lookup_weaken.
Qed.

Lemma SchedInv_pop k L key : SchedInv k L → SchedInv (pop_episode key k) L.
Proof. intros Hk. apply SchedInv_sub; [done|apply delete_subseteq]. Qed.

Lemma SchedInv_idle k L r : SchedInv k L → SchedInv (drop_idle r k) L.
Proof. intros Hk. apply SchedInv_sub; [done|apply map_filter_subseteq]. Qed.

(** An episode that is new has nothing to rest on. *)
Lemma episode_ok_new L r i epoch ev : episode_ok L (r, epoch) (new_episode i epoch ev).
Proof. by constructor. Qed.

Lemma episode_ok_receipt L key e rc :
  episode_ok L key e → receipt_fits rc e = true → episode_ok L key (set_receipt rc e).
Proof.
  intros [He Hp Hc Hr Hw Hf] Hfit. unfold receipt_fits in Hfit.
  destruct (se_context e) as [c|] eqn:Ec; [|done]. bool_prop.
  repeat match goal with E : bool_decide _ = true |- _ => apply bool_decide_eq_true in E end.
  constructor; simpl; try done.
  - intros c' Hc'. rewrite Ec in Hc'. by apply Hc.
  - intros rc' [= <-]. by exists c.
  - intros w Hw'. destruct (Hw w Hw') as (rc' & ? & ? & ? & Hrc & _).
    destruct (se_receipt e); discriminate.
Qed.

Lemma episode_ok_wakeup L key e rc started t id :
  episode_ok L key e → se_receipt e = Some rc → se_admission_started e = None →
  EvRow "recovery_event" (PInt t) (wakeup_fields (se_identity e) key.2 rc) id ∈ L →
  t ≤ be_timestamp_ns started → episode_ok L key (set_wakeup started id e).
Proof.
  intros [He Hp Hc Hr Hw Hf] Hrc Hn Hrow Ht. constructor; simpl; try done.
  intros w [= <-]. unfold woken. simpl.
  destruct (Hf Hn) as [_ ->]. exists rc, started, t, id. split_and!; try done. constructor.
Qed.

Lemma episode_ok_requeued L key e rc w p t reason id :
  episode_ok L key e → se_receipt e = Some rc → se_wakeup_profile e = Some w →
  se_predecessor_profile e = Some p →
  EvRow "recovery_event" (PInt t)
    (requeue_fields (se_identity e) key.2 rc (se_requeue_occurrence e) p reason) id ∈ L →
  episode_ok L key (set_requeued id e).
Proof.
  intros [He Hp Hc Hr Hw Hf] Hrc Hwk Hpre Hrow. constructor; simpl; try done.
  - intros w' Hw'. destruct (Hw w' Hw') as (rc' & st & t' & p' & Hrc' & ? & ? & ? & Hp' & ?).
    rewrite Hrc in Hrc'. rewrite Hpre in Hp'. injection Hrc' as <-. injection Hp' as <-.
    rewrite Hwk in Hw'. injection Hw' as <-.
    exists rc, st, t', id. split_and!; try done. by econstructor.
  - intros Hn. destruct (Hw w Hwk) as (? & ? & ? & ? & ? & ? & _). congruence.
Qed.

Lemma episode_ok_admission L key e id : episode_ok L key e → episode_ok L key (set_admission id e).
Proof. intros [He Hp Hc Hr Hw Hf]. by constructor. Qed.

Lemma episode_ok_preempt L key e id :
  episode_ok L key e → se_context e = None → preempt_row L e id →
  episode_ok L key (set_preempt id e).
Proof.
  intros [He Hp Hc Hr Hw Hf] Hn Hrow. constructor; simpl; try done.
  - by intros id' [= <-].
  - intros c Hc'. congruence.
Qed.

Lemma episode_ok_context L key e c :
  episode_ok L key e → se_context e = None → context_of key e c →
  episode_ok L key (set_context c e).
Proof.
  intros [He Hp Hc Hr Hw Hf] Hn Hctx. constructor; simpl; try done.
  - by intros c' [= <-].
  - intros rc Hrc. destruct (Hr rc Hrc) as (c' & Hc' & _). congruence.
Qed.

Lemma later_episode_in l a e :
  foldl later_episode a l = Some e → a = Some e ∨ e ∈ l.
Proof.
  revert a. induction l as [|x l IH]; intros a; simpl; [by left|].
  intros [Hx|Hx]%IH; [|by right; right]. unfold later_episode in Hx.
  destruct a as [b|]; [destruct (_ <? _)|]; simplify_eq; [right; by left|by left|right; by left].
Qed.

Lemma latest_episode_in request k e :
  latest_episode request k = Some e → ∃ epoch, sc_episodes k !! (request, epoch) = Some e.
Proof.
  unfold latest_episode. intros [Hx|Hx]%later_episode_in; [done|].
  apply list_elem_of_fmap in Hx as ([[r epoch] e'] & -> & Hin). apply elem_of_map_to_list in Hin.
  unfold request_episodes in Hin. apply map_lookup_filter_Some in Hin as [Hk Hr]. simpl in *.
  subst. by exists epoch.
Qed.

Section invariant.
Context {W : Type} `{!EvidenceWorld W, !BaseLifecycleBridge W, !RuntimeABI}.

Ltac bwalk := repeat first [progress wpe_bridge_step | case_match].

(** ** The blocks of a transfer *)

(** [k'] differs from [k] in the cache only. *)
Definition cache_step (k k' : KVRecoverySchedulerAdapter) : Prop :=
  sc_run_id k' = sc_run_id k ∧ sc_episodes k' = sc_episodes k ∧ sc_closed k' = sc_closed k.

(** The block of a coordinate, with the identifier derived from it *)
Definition block_of (run_id : string) (i : RequestLifecycleIdentity) (c : Z * Z)
    (b : KVRecoveryLogicalBlock) : Prop :=
  lb_group_index b = c.1 ∧ lb_logical_ordinal b = c.2 ∧
  logical_block_id run_id (ri_engine_lifecycle_id i) c.1 c.2 = Ok (lb_logical_block_id b).

Lemma logical_block_id_spec i group ordinal k L
    (Q : res (option string) → KVRecoverySchedulerAdapter → list evidence → Prop) :
  cache_ok k →
  (∀ r k', cache_step k k' → cache_ok k' →
     (∀ v, r = Ok (Some v) → logical_block_id (sc_run_id k) (ri_engine_lifecycle_id i) group ordinal = Ok v) →
     r ≠ Ok None → Q r k' L) →
  wpe (W:=W) (_logical_block_id i group ordinal) Q k L.
Proof.
  intros Hk HQ. unfold _logical_block_id. bwalk; apply HQ; try done.
  - intros v [= <-]. by apply (Hk (_, _, _) _ ltac:(done)).
  - apply map_Forall_insert_2; [done|exact Hk].
  - intros v [= <-]. done.
Qed.

Lemma logical_blocks_spec i cs k L
    (Q : res (option (list KVRecoveryLogicalBlock)) → KVRecoverySchedulerAdapter → list evidence → Prop) :
  cache_ok k →
  (∀ r k', cache_step k k' → cache_ok k' → r ≠ Ok None →
     (∀ bs, r = Ok (Some bs) → Forall2 (block_of (sc_run_id k) i) cs bs) → Q r k' L) →
  wpe (W:=W) (logical_blocks i cs) Q k L.
Proof.
  revert k Q. induction cs as [|[g o] cs IH]; intros k Q Hk HQ; cbn [logical_blocks].
  - bwalk. apply HQ; [done|done|done|]. intros bs [= <-]. constructor.
  - apply wpe_bind, logical_block_id_spec; [done|]. intros [[v|]|e] k1 (E1 & E2 & E3) Hk1 Hv Hn; [|done|].
    + specialize (Hv v eq_refl). bwalk; [|by apply HQ].
      apply IH; [done|]. intros [[bs|]|e] k2 (F1 & F2 & F3) Hk2 Hn2 Hbs; [|done|].
      * bwalk. apply HQ; [split_and!; congruence|done|done|]. intros bs' [= <-].
        match goal with E : construct_with _ _ = Ok _ |- _ =>
          apply bind_ok in E as ([] & _ & [= <-]) end.
        constructor; [done|]. rewrite <- E1. by apply Hbs.
      * apply HQ; [split_and!; congruence|done..].
    + apply HQ; [done|done|done|done].
Qed.

(** ** Every call keeps the invariant *)

Definition kept {A} (L : list evidence) (r : res (option A)) (k' : KVRecoverySchedulerAdapter)
    (L' : list evidence) : Prop := SchedInv k' L' ∧ L ⊆ L'.

Ltac sched_inv :=
  split; [|set_solver];
  repeat first [ assumption | apply SchedInv_pop | apply SchedInv_idle
               | eapply SchedInv_mono; [|eassumption]; set_solver ].

Lemma started_inv r k L : SchedInv k L → wpe (W:=W) (request_started r) (kept L) k L.
Proof. intros Hk. unfold request_started, scheduler_open. bwalk; sched_inv. Qed.

Lemma scheduled_inv r kind n total cached k L :
  SchedInv k L → wpe (W:=W) (request_scheduled r kind n total cached) (kept L) k L.
Proof. intros Hk. unfold request_scheduled, scheduler_open. bwalk; sched_inv. Qed.

Lemma preempted_inv r epoch k L :
  SchedInv k L → wpe (W:=W) (request_preempted r epoch) (kept L) k L.
Proof.
  intros Hk. unfold request_preempted, or_none. bwalk; try sched_inv.
  all: apply SchedInv_put; [by apply SchedInv_idle|apply episode_ok_new].
Qed.

Definition InvFrom (L : list evidence) (k : KVRecoverySchedulerAdapter) (L' : list evidence) : Prop :=
  SchedInv k L' ∧ L ⊆ L'.

Lemma terminal_inv r cause n k L :
  SchedInv k L → wpe (W:=W) (request_terminal r cause n) (kept L) k L.
Proof.
  intros Hk. unfold request_terminal, or_none. bwalk.
  eapply wpe_mono; [|apply (wpe_for_each _ (InvFrom L)); [|split; [exact Hk|done]]].
  - intros [[[]|]|e] k' L' [? ?]; bwalk; sched_inv.
  - intros kv k1 L1 _ [? ?]. unfold retire_episode. bwalk; sched_inv.
Qed.

Lemma reset_inv k L : SchedInv k L → wpe (W:=W) reset (kept L) k L.
Proof.
  intros Hk. unfold reset. bwalk.
  eapply wpe_mono; [|apply (wpe_for_each _ (InvFrom L)); [|split; [exact Hk|done]]].
  - intros [[[]|]|e] k' L' [? ?]; bwalk; try sched_inv.
    apply SchedInv_sub; [done|apply map_empty_subseteq].
  - intros kv k1 L1 _ [? ?]. bwalk; sched_inv.
Qed.

Lemma consume_inv rs b k L :
  SchedInv k L → wpe (W:=W) (consume_h2d_receipts rs b) (kept L) k L.
Proof.
  intros Hk. unfold consume_h2d_receipts, scheduler_open.
  assert (∀ L1, L ⊆ L1 → wpe (W:=W) (for_each consume_receipt rs) (kept L) k L1) as Hrs.
  { intros L1 HL. eapply wpe_mono; [|apply (wpe_for_each _ (InvFrom L)); [|split; [by eapply SchedInv_mono|done]]].
    - intros r k' L' [? ?]. by split.
    - intros rc k1 L2 _ [? ?]. unfold consume_receipt. bwalk; try sched_inv.
      apply SchedInv_put; [done|]. apply episode_ok_receipt; [|done].
      match goal with Hi : SchedInv k1 _ |- _ => by apply (si_episodes _ _ Hi) end. }
  bwalk; try sched_inv; apply Hrs; set_solver.
Qed.

Lemma restored_spec r epoch k L
    (Q : res (option (_SchedulerEpisode * KVRecoveryH2DReceipt)) → KVRecoverySchedulerAdapter →
         list evidence → Prop) :
  SchedInv k L → Q (Ok None) k L →
  (∀ e rc, sc_episodes k !! (r, epoch) = Some e → episode_ok L (r, epoch) e →
     se_receipt e = Some rc → sc_closed k = false → Q (Ok (Some (e, rc))) k L) →
  wpe (W:=W) (restored_episode r epoch) Q k L.
Proof.
  intros Hk HN HS. unfold restored_episode. bwalk; try done.
  apply HS; [done|by apply (si_episodes _ _ Hk)|done|]. by apply negb_true_iff.
Qed.

Lemma is_some_b_false {A} (o : option A) : is_some_b o = false → o = None.
Proof. by destruct o. Qed.

Lemma admission_started_inv r epoch k L :
  SchedInv k L → wpe (W:=W) (request_admission_started r epoch) (kept L) k L.
Proof.
  intros Hk. unfold request_admission_started, or_none.
  apply wpe_bind, restored_spec; [done|sched_inv|]. intros e rc He Hok Hrc _.
  bwalk; try sched_inv; bool_prop.
  all: apply SchedInv_put; [by eapply SchedInv_mono; [|exact Hk]; set_solver|].
  all: eapply episode_ok_wakeup; [by eapply sched_episode_ok_mono; [|exact Hok]; set_solver|done
    |by apply is_some_b_false|in_app|done].
Qed.

Lemma requeued_inv r epoch reason k L :
  SchedInv k L → wpe (W:=W) (request_requeued r epoch reason) (kept L) k L.
Proof.
  intros Hk. unfold request_requeued, forgo.
  apply wpe_bind, restored_spec; [done|sched_inv|]. intros e rc He Hok Hrc _.
  bwalk; try sched_inv; bool_prop.
  all: apply SchedInv_put; [by eapply SchedInv_mono; [|exact Hk]; set_solver|].
  all: eapply episode_ok_requeued; [by eapply sched_episode_ok_mono; [|exact Hok]; set_solver|done|done|done|in_app].
Qed.
(** ** Admission *)

(** What the context [cc] of an admission of the request stands for: the preempt
    milestone of the episode, the wakeup linked to the restore of the receipt, the
    requeues after it, the edge from the restore to the start of the admission, and
    the admission milestone linked to the last of them. *)
Definition admission_grounded (L : list evidence) (r : string) (epoch : Z)
    (cc : KVRecoveryComputeContext) : Prop :=
  ∃ e rc c started resumed pre w t n p ref,
    ki_runtime_request_id (cc_identity cc) = r ∧ ki_recovery_epoch (cc_identity cc) = Some epoch ∧
    ki_preempt_profile_record_id (cc_identity cc) = Some pre ∧ preempt_row L e pre ∧
    EvRow "recovery_event" (PInt t) (wakeup_fields (se_identity e) epoch rc) w ∈ L ∧
    t ≤ be_timestamp_ns started ≤ be_timestamp_ns resumed ∧
    requeues L (se_identity e) epoch rc w n p ∧
    EvEdge (restore_edge (ri_trace_id (se_identity e)) (rc_communication_done_event_id rc)
      (be_event_id started)) ∈ L ∧
    EvRow "recovery_event" (PInt (be_timestamp_ns resumed))
      (admission_fields (se_identity e) epoch rc resumed started p)
      (cc_admission_profile_record_id cc) ∈ L ∧
    cc = mkComputeContext (cx_identity c) (rc_transfer_id rc) (cx_block_set_id c)
           (rc_bytes_moved rc) (cc_admission_profile_record_id cc) (cc_compute_kind cc) ref.

Definition admitted (r : string) (epoch : Z) (L : list evidence)
    (res : res (option KVRecoveryComputeContext)) (k' : KVRecoverySchedulerAdapter)
    (L' : list evidence) : Prop :=
  kept L res k' L' ∧
  ∀ cc, res = Ok (Some cc) → admission_grounded L' r epoch cc ∧ sc_episodes k' !! (r, epoch) = None.

Lemma admission_grounded_ok L L' r epoch e rc started w p resumed id kind ref cc :
  episode_ok L (r, epoch) e → se_receipt e = Some rc → se_admission_started e = Some started →
  se_wakeup_profile e = Some w → se_predecessor_profile e = Some p →
  be_timestamp_ns started ≤ be_timestamp_ns resumed →
  construct_with compute_context_type (mkComputeContext (rc_identity rc) (rc_transfer_id rc)
    (rc_block_set_id rc) (rc_bytes_moved rc) id kind ref) = Ok cc →
  L' = (L ++ [EvEdge (restore_edge (ri_trace_id (se_identity e))
          (rc_communication_done_event_id rc) (be_event_id started))]) ++
       [EvRow "recovery_event" (PInt (be_timestamp_ns resumed))
          (admission_fields (se_identity e) epoch rc resumed started p) id] →
  admission_grounded L' r epoch cc.
Proof.
  intros [He Hp Hc Hr Hw Hf] Hrc Hst Hwk Hpre Ht Hcc ->.
  apply bind_ok in Hcc as (u & _ & Hcc). injection Hcc as <-.
  destruct (Hr rc Hrc) as (c & Hctx & Hid & Hset).
  destruct (Hc c Hctx) as (pre & Hprof & Hcid & _ & Hce & Hcr).
  destruct (Hw w Hwk) as (rc' & st & t & p' & Hrc' & Hst' & Hrow & Hts & Hp' & Hreq).
  simplify_eq. simpl in *.
  exists e, rc, c, started, resumed, pre, w, t, (se_requeue_occurrence e), p, ref. simpl.
  rewrite Hid. split_and!; try done; try in_app; try congruence.
  - destruct (Hp pre Hprof) as [lid Hl]. exists lid. in_app.
  - eapply requeues_mono; [|exact Hreq]. set_solver.
Qed.

Lemma admitted_spec r epoch kind total cached k L :
  SchedInv k L → wpe (W:=W) (request_admitted r epoch kind total cached) (admitted r epoch L) k L.
Proof.
  intros Hk. unfold request_admitted, or_none, first_compute_context, forgo.
  apply wpe_bind, restored_spec; [done|by split; [sched_inv|]|]. intros e rc He Hok Hrc _.
  bwalk; (split; [|intros cc Hcc; simplify_eq]); try sched_inv; bool_prop.
  all: lazymatch goal with
       | |- admission_grounded _ _ _ _ ∧ _ =>
           split; [by eapply admission_grounded_ok|apply lookup_delete_eq]
       | |- SchedInv _ _ =>
           apply SchedInv_put; [by eapply SchedInv_mono; [|exact Hk]; set_solver|];
           apply episode_ok_admission; by eapply sched_episode_ok_mono; [|exact Hok]; set_solver
       end.
Qed.
(** ** Preparation of a transfer *)

(** The context [c] of a transfer of these coordinates, for the episode [e] *)
Definition context_built (run_id request operation : string) (i : RequestLifecycleIdentity)
    (e : option _SchedulerEpisode) (coordinates : list (Z * Z)) (c : KVRecoveryTransferContext)
    : Prop :=
  cx_identity c = transfer_identity_of run_id request i e ∧ cx_operation c = operation ∧
  Forall2 (block_of run_id i) coordinates (cx_logical_blocks c) ∧
  canonical_block_set_id (cx_identity c) (cx_logical_blocks c) = Ok (cx_block_set_id c).

Lemma build_context_spec i request operation e coordinates k L
    (Q : res (option KVRecoveryTransferContext) → KVRecoverySchedulerAdapter → list evidence → Prop) :
  cache_ok k →
  (∀ r k', cache_step k k' → cache_ok k' → r ≠ Ok None →
     (∀ c, r = Ok (Some c) → context_built (sc_run_id k) request operation i e coordinates c) →
     Q r k' L) →
  wpe (W:=W) (build_context i request operation e coordinates) Q k L.
Proof.
  intros Hk HQ. unfold build_context. bwalk; [|by apply HQ].
  apply logical_blocks_spec; [done|]. intros [[bs|]|x] k' Hs Hk' Hn Hbs; [|done|].
  - specialize (Hbs bs eq_refl). bwalk; apply HQ; try done.
    intros c [= <-].
    repeat match goal with E : construct_with _ _ = Ok _ |- _ =>
      apply bind_ok in E as ([] & _ & [= <-]) end.
    split_and!; simpl; congruence.
  - apply HQ; [done|done|done|done].
Qed.

(** The episode [o] that a prepared transfer serves is open, without a context. *)
Definition opened (r operation : string) (k : KVRecoverySchedulerAdapter)
    (o : option _SchedulerEpisode) : Prop :=
  match o with
  | Some e => operation = "h2d_restore" ∧ sc_episodes k !! (r, se_recovery_epoch e) = Some e ∧
      se_context e = None ∧ is_Some (se_preempt_profile e)
  | None => True
  end.

Lemma open_restore_spec i r operation o k L
    (Q : res (option (option _SchedulerEpisode)) → KVRecoverySchedulerAdapter → list evidence → Prop) :
  SchedInv k L → (∀ e, o = Some e → ∃ epoch, sc_episodes k !! (r, epoch) = Some e) →
  (∀ x k' L', kept L x k' L' → sc_run_id k' = sc_run_id k →
     (∀ o', x = Ok (Some o') → opened r operation k' o') → Q x k' L') →
  wpe (W:=W) (open_restore i r operation o) Q k L.
Proof.
  intros Hk Ho HQ. unfold open_restore, forgo. destruct o as [e|].
  - destruct (Ho e eq_refl) as [epoch He].
    assert (episode_ok L (r, epoch) e) as Hok by by apply (si_episodes _ _ Hk).
    assert (epoch = se_recovery_epoch e) as -> by by rewrite (eo_epoch _ _ _ Hok).
    bwalk; apply HQ; try done; try sched_inv; try (intros o' [= <-]; done).
    + apply SchedInv_put; [by eapply SchedInv_mono; [|exact Hk]; set_solver|].
      apply episode_ok_preempt; [by eapply sched_episode_ok_mono; [|exact Hok]; set_solver
        |by apply is_some_b_false|]. eexists. in_app.
    + intros o' [= <-]. split_and!; simpl; [by apply String.eqb_eq|apply lookup_insert_eq
        |by apply is_some_b_false|done].
  - bwalk; apply HQ; try done; try sched_inv; by intros o' [= <-].
Qed.
(** What a prepared context stands for: its blocks are those of the coordinates, a row
    of the log describes each chunk of them, and a restore of an open episode is
    remembered in it. *)
Definition context_grounded (run_id r operation : string) (coordinates : list (Z * Z))
    (k : KVRecoverySchedulerAdapter) (L : list evidence) (c : KVRecoveryTransferContext) : Prop :=
  ∃ i t o, context_built run_id r operation i o coordinates c ∧
    (∀ j, Z.of_nat j * 32 < Z.of_nat (length coordinates) → ∃ row,
       EvRow "block_set_chunk" (PInt t)
         (block_fields i (ki_recovery_epoch (cx_identity c)) (ki_episode_id (cx_identity c))
            (cx_block_set_id c) (cx_logical_blocks c) j) row ∈ L) ∧
    match o with
    | Some e => operation = "h2d_restore" ∧
        ∃ e', sc_episodes k !! (r, se_recovery_epoch e) = Some e' ∧ se_context e' = Some c ∧
          ∃ id, se_preempt_profile e' = Some id ∧ preempt_row L e' id
    | None => True
    end.

Definition prepared (run_id r operation : string) (coordinates : list (Z * Z)) (L : list evidence)
    (x : res (option KVRecoveryTransferContext)) (k' : KVRecoverySchedulerAdapter)
    (L' : list evidence) : Prop :=
  kept L x k' L' ∧
  ∀ c, x = Ok (Some c) → context_grounded run_id r operation coordinates k' L' c.

Lemma block_chunk_in (j n : nat) :
  Z.of_nat j * 32 < Z.of_nat n → j ∈ seq 0 (Z.to_nat (block_chunk_count n)).
Proof.
  intros Hj. apply elem_of_seq. split; [lia|]. simpl. unfold block_chunk_count.
  pose proof (Z.div_mod (Z.of_nat n + 32 - 1) 32).
  pose proof (Z.mod_pos_bound (Z.of_nat n + 32 - 1) 32). lia.
Qed.

Lemma context_of_built run_id r operation i e coordinates c :
  is_Some (se_preempt_profile e) →
  context_built run_id r operation i (Some e) coordinates c →
  context_of (r, se_recovery_epoch e) e c.
Proof.
  intros [id Hid] (E & _). exists id. by rewrite E.
Qed.

Lemma cache_step_inv k k' L : SchedInv k L → cache_step k k' → cache_ok k' → SchedInv k' L.
Proof. intros [He _] (_ & E & _) Hc. constructor; [by rewrite E|done]. Qed.

Lemma context_rows run_id r operation i o coordinates c t (new : list evidence) :
  context_built run_id r operation i o coordinates c →
  (∀ j, j ∈ seq 0 (Z.to_nat (block_chunk_count (length (cx_logical_blocks c)))) →
     ∃ row, EvRow "block_set_chunk" (PInt t)
       (block_fields i (restore_epoch o) (restore_episode_id i o) (cx_block_set_id c)
          (cx_logical_blocks c) j) row ∈ new) →
  ∀ j, Z.of_nat j * 32 < Z.of_nat (length coordinates) → ∃ row,
    EvRow "block_set_chunk" (PInt t)
      (block_fields i (ki_recovery_epoch (cx_identity c)) (ki_episode_id (cx_identity c))
         (cx_block_set_id c) (cx_logical_blocks c) j) row ∈ new.
Proof.
  intros (E & _ & HF & _) Hrows j Hj. apply Forall2_length in HF. rewrite HF in Hj.
  rewrite E. apply Hrows. by apply block_chunk_in.
Qed.

Lemma prepared_spec r operation coordinates k L :
  SchedInv k L →
  wpe (W:=W) (prepare_transfer_context r operation coordinates)
    (prepared (sc_run_id k) r operation coordinates L) k L.
Proof.
  intros Hk. unfold prepare_transfer_context. bwalk; try (by split; [sched_inv|]).
  apply open_restore_spec; [done|intros; by apply latest_episode_in|].
  intros [[o|]|x] k1 L1 [Hk1 HL1] Hrun Ho; [|by split..].
  specialize (Ho o eq_refl). do 2 wpe_bridge_step. apply build_context_spec; [apply Hk1|].
  intros [[c|]|x] k2 Hs Hk2' Hn Hc; [|done|].
  - pose proof (cache_step_inv _ _ _ Hk1 Hs Hk2') as Hk2. specialize (Hc c eq_refl).
    rewrite Hrun in Hc. unfold forgo. bwalk; try (by split; [sched_inv|]).
    all: apply for_each_rows; [intros new _ Hrows|intros new _ _|intros x new];
      [|by split; [sched_inv|]..]; bwalk.
    + destruct Ho as (Hop & He & Hn' & Hpre). destruct Hs as (_ & Es & _). rewrite <- Es in He.
      pose proof (si_episodes _ _ Hk2 _ _ He) as Hok.
      pose proof (context_of_built _ _ _ _ _ _ _ Hpre Hc) as Hctx.
      split; [split; [|set_solver]|].
      * apply SchedInv_put; [eapply SchedInv_mono; [|exact Hk2]; set_solver|].
        apply episode_ok_context; [|done|done]. eapply sched_episode_ok_mono; [|exact Hok]. set_solver.
      * intros c' [= <-]. exists r0, t, (Some _s). split_and!; [done| |done|].
        -- intros j Hj. destruct (context_rows _ _ _ _ _ _ _ _ _ Hc Hrows j Hj) as [row Hr].
           exists row. set_solver.
        -- eexists. split; [apply lookup_insert_eq|]. split; [done|]. destruct Hpre as [id Hid].
           exists id. split; [done|]. destruct (eo_preempt _ _ _ Hok id Hid) as [lid Hl].
           exists lid. simpl. set_solver.
    + split; [sched_inv|]. intros c' [= <-]. exists r0, t, None. split_and!; [done| |done].
      intros j Hj. destruct (context_rows _ _ _ _ _ _ _ _ _ Hc Hrows j Hj) as [row Hr].
      exists row. set_solver.
  - pose proof (cache_step_inv _ _ _ Hk1 Hs Hk2') as Hk2. unfold forgo.
    bwalk; by split; [sched_inv|].
Qed.
(** Closing of the facade leaves the log. *)
Lemma wpe_scheduler_close k L
    (Q : res (option unit) → KVRecoverySchedulerAdapter → list evidence → Prop) :
  (sc_closed k = true → Q (Ok None) k L) →
  (sc_closed k = false → wpe (W:=W)
     (reset ;; update set_sc_closed ;; update (set_logical_ids ∅))%try Q k L) →
  wpe (W:=W) scheduler_close Q k L.
Proof.
  intros HN HS. unfold scheduler_close, scheduler_open. bwalk; [|by apply HN, negb_false_iff].
  intros w. specialize (HS ltac:(by apply negb_true_iff) w).
  destruct ((reset ;; update set_sc_closed ;; update (set_logical_ids ∅))%try _)
    as [r [k' [w' L']]].
  cbn -[app]. by rewrite app_nil_r.
Qed.

Lemma close_inv k L : SchedInv k L → wpe (W:=W) scheduler_close (kept L) k L.
Proof.
  intros Hk. apply wpe_scheduler_close; intros _; [sched_inv|].
  apply wpe_bind. eapply wpe_mono; [|by apply reset_inv].
  intros [[[]|]|e] k' L' [Hk' HL]; bwalk; split; try done.
  destruct Hk' as [He Hc]. constructor; [exact He|apply map_Forall_empty].
Qed.

Lemma prepare_inv r operation coordinates k L :
  SchedInv k L → wpe (W:=W) (prepare_transfer_context r operation coordinates) (kept L) k L.
Proof. intros Hk. eapply wpe_mono; [|by apply prepared_spec]. by intros x k' L' [? _]. Qed.

Lemma admitted_inv r epoch kind total cached k L :
  SchedInv k L → wpe (W:=W) (request_admitted r epoch kind total cached) (kept L) k L.
Proof. intros Hk. eapply wpe_mono; [|by apply admitted_spec]. by intros x k' L' [? _]. Qed.
End invariant.
