(* ===== verification/SchedulerProps.v ===== *)
(** * The scheduler adapter: runs and what they guarantee

    Calls and runs of the adapter, the balance of its milestones (no preempted episode
    vanishes), and the rows it prepares, which the exporter's validator accepts. *)

From Stdlib Require Import ZArith Lia Ascii String.
From stdpp Require Import base list strings gmap fin_maps sorting.
From S2P Require Import Prelude PyValue Sha256 RuntimeProtocol ProfileProtocol SinkState.
From S2P Require Import TraceSink SinkSteps Hooks HooksInterface ProfileLedger ProfileAccounting LifecycleBridge Evidence.
From S2P Require Import BridgeInterface WorkerAdapter SchedulerAdapter SchedulerInvariant.

(** ** Counting *)

(** The entry is a row of this milestone. *)
Definition is_stage (stage : string) (e : evidence) : bool :=
  match e with
  | EvRow t _ fields _ => String.eqb t "recovery_event" && eq_str (dict_get fields "stage") stage
  | _ => false
  end.

(** The preempted episode is committed to a transfer. *)
Definition held (e : _SchedulerEpisode) : bool :=
  is_some_b (se_preempt_profile e) && is_some_b (se_context e).

Definition weight (e : _SchedulerEpisode) : nat := if held e then 1 else 0.
Definition weight_at (key : string * Z) (k : KVRecoverySchedulerAdapter) : nat :=
  match sc_episodes k !! key with Some e => weight e | None => 0 end.

Definition held_episodes (k : KVRecoverySchedulerAdapter) : nat :=
  size (filter (λ kv : (string * Z) * _SchedulerEpisode, held kv.2 = true) (sc_episodes k)).

Lemma held_pop key k : (held_episodes (pop_episode key k) + weight_at key k = held_episodes k)%nat.
Proof.
  unfold held_episodes, weight_at, weight, pop_episode. simpl.
  rewrite map_filter_delete, map_size_delete.
  destruct (sc_episodes k !! key) as [e|] eqn:E.
  - destruct (held e) eqn:Hh.
    + assert (filter (λ kv : (string * Z) * _SchedulerEpisode, held kv.2 = true) (sc_episodes k) !! key
        = Some e) as Hf by by apply map_lookup_filter_Some.
      rewrite Hf. assert (size (filter (λ kv : (string * Z) * _SchedulerEpisode, held kv.2 = true)
        (sc_episodes k)) ≠ 0%nat) by by eapply map_size_ne_0_lookup_2. lia.
    + rewrite (proj2 (map_lookup_filter_None _ _ _)); [unfold id; lia|]. right. intros e' Hk.
      simplify_eq. simpl. by rewrite Hh.
  - rewrite (proj2 (map_lookup_filter_None _ _ _)); [unfold id; lia|]. by left.
Qed.

Lemma held_put key e k :
  (held_episodes (put_episode key e k) + weight_at key k = held_episodes k + weight e)%nat.
Proof.
  rewrite <- (held_pop key k).
  assert (held_episodes (put_episode key e k) = held_episodes (pop_episode key k) + weight e)%nat
    as ->; [|lia].
  unfold held_episodes, pop_episode, put_episode, weight. simpl.
  rewrite <- (insert_delete_eq (sc_episodes k)). destruct (held e) eqn:Hh.
  - rewrite map_filter_insert_True by done. rewrite map_size_insert.
    rewrite (proj2 (map_lookup_filter_None _ _ _)); [lia|]. left. apply lookup_delete_eq.
  - rewrite map_filter_insert_False by (simpl; by rewrite Hh). rewrite delete_delete_eq. lia.
Qed.

Lemma held_idle r k : held_episodes (drop_idle r k) = held_episodes k.
Proof.
  unfold held_episodes, drop_idle. simpl. rewrite map_filter_filter_l; [done|].
  intros key e _. simpl. unfold held, is_idle. simpl.
  destruct (is_some_b (se_preempt_profile e)); [by rewrite andb_false_r|done].
Qed.

Lemma held_cache k k' : cache_step k k' → held_episodes k' = held_episodes k.
Proof. intros (_ & E & _). unfold held_episodes. by rewrite E. Qed.

Lemma weight_le e : (weight e ≤ 1)%nat.
Proof. unfold weight. case_match; lia. Qed.

Lemma weight_at_le key k : (weight_at key k ≤ 1)%nat.
Proof. unfold weight_at. case_match; [apply weight_le|lia]. Qed.

(** ** The balance of the milestones *)

Definition balance (k : KVRecoverySchedulerAdapter) (L : list evidence) : Z :=
  Z.of_nat (held_episodes k) + Z.of_nat (tally is_lost L) + Z.of_nat (tally (is_stage "admission") L)
  - Z.of_nat (tally (is_stage "preempt") L).

(** A call that returns does not lower the balance. *)
Definition balanced {A} (k : KVRecoverySchedulerAdapter) (L : list evidence)
    (r : res (option A)) (k' : KVRecoverySchedulerAdapter) (L' : list evidence) : Prop :=
  is_ok r = true → balance k L ≤ balance k' L'.

Lemma is_stage_row s t ts request r id :
  is_stage s (EvRow t ts (stage_fields request r) id) =
  String.eqb t "recovery_event" && eq_str (dict_get (stage_fields request r) "stage") s.
Proof. done. Qed.

Ltac tallies :=
  unfold balance; rewrite ?tally_app, ?tally_one;
  cbn [is_stage is_lost String.eqb Ascii.eqb Bool.eqb andb preempt_fields wakeup_fields
       requeue_fields admission_fields return_fields milestone_fields stage_fields request_fields
       app dict_get dict_find default Datatypes.id sr_stage eq_str].

(** The rows of a block set leave the milestones as they are. *)
Lemma balance_chunks k L new :
  Forall (about_type "block_set_chunk") new →
  balance k (L ++ new) = balance k L + Z.of_nat (tally is_lost new).
Proof.
  intros Ht. unfold balance. rewrite !tally_app.
  rewrite !(tally_none (is_stage _) _ new Ht); [lia|..]; intros [] E; simpl in *; subst; done.
Qed.

Section balance.
Context {W : Type} `{!EvidenceWorld W, !BaseLifecycleBridge W, !RuntimeABI}.

Ltac bwalk := repeat first [progress wpe_bridge_step | case_match].

(** What a callback sets after the restore leaves the weight. *)
Lemma weight_wakeup ev id e : weight (set_wakeup ev id e) = weight e.
Proof. done. Qed.
Lemma weight_requeued id e : weight (set_requeued id e) = weight e.
Proof. done. Qed.
Lemma weight_admission id e : weight (set_admission id e) = weight e.
Proof. done. Qed.
Lemma weight_receipt rc e : weight (set_receipt rc e) = weight e.
Proof. done. Qed.

Create Rewrite HintDb weights.
#[local] Hint Rewrite held_idle weight_wakeup weight_requeued weight_admission weight_receipt : weights.

(** The weights of the episodes that a goal replaces or retires *)
Ltac held_facts := repeat match goal with
  | |- context [held_episodes (pop_episode ?key ?k)] =>
      lazymatch goal with
      | _ : (held_episodes (pop_episode key k) + _ = _)%nat |- _ => fail
      | _ => pose proof (held_pop key k); pose proof (weight_at_le key k)
      end
  | |- context [held_episodes (put_episode ?key ?e ?k)] =>
      lazymatch goal with
      | _ : (held_episodes (put_episode key e k) + _ = _)%nat |- _ => fail
      | _ => pose proof (held_put key e k)
      end
  | _ : context [held_episodes (put_episode ?key ?e ?k)] |- _ =>
      lazymatch goal with
      | _ : (held_episodes (put_episode key e k) + _ = _)%nat |- _ => fail
      | _ => pose proof (held_put key e k)
      end
  end.

Ltac weigh := unfold balance; held_facts; autorewrite with weights in *; tallies; lia.

Ltac balance_tac := bwalk; intros Hr; try discriminate Hr; try weigh.

Lemma weight_at_some key k e : sc_episodes k !! key = Some e → weight_at key k = weight e.
Proof. unfold weight_at. by intros ->. Qed.

Lemma weight_at_none key k : sc_episodes k !! key = None → weight_at key k = 0%nat.
Proof. unfold weight_at. by intros ->. Qed.

Lemma started_balanced r k L : wpe (W:=W) (request_started r) (balanced k L) k L.
Proof. unfold request_started, scheduler_open. balance_tac. Qed.

Lemma scheduled_balanced r kind n total cached k L :
  wpe (W:=W) (request_scheduled r kind n total cached) (balanced k L) k L.
Proof. unfold request_scheduled, scheduler_open. balance_tac. Qed.

Lemma preempted_balanced r epoch k L :
  wpe (W:=W) (request_preempted r epoch) (balanced k L) k L.
Proof.
  unfold request_preempted, or_none. balance_tac.
  all: assert (weight_at (r, epoch) (drop_idle r k) = 0%nat) as Hw; [|weigh].
  all: apply weight_at_none, map_lookup_filter_None; left; apply eq_None_not_Some.
  all: by match goal with E : bool_decide _ = false |- _ => apply bool_decide_eq_false in E end.
Qed.

Lemma admission_started_balanced r epoch k L :
  SchedInv k L → wpe (W:=W) (request_admission_started r epoch) (balanced k L) k L.
Proof.
  intros Hk. unfold request_admission_started, or_none.
  apply wpe_bind, restored_spec; [done|intros _; weigh|]. intros e rc He Hok Hrc _.
  pose proof (weight_at_some _ _ _ He) as Hw. balance_tac.
Qed.

Lemma requeued_balanced r epoch reason k L :
  SchedInv k L → wpe (W:=W) (request_requeued r epoch reason) (balanced k L) k L.
Proof.
  intros Hk. unfold request_requeued, forgo.
  apply wpe_bind, restored_spec; [done|intros _; weigh|]. intros e rc He Hok Hrc _.
  pose proof (weight_at_some _ _ _ He) as Hw. balance_tac.
Qed.

Lemma admitted_balanced r epoch kind total cached k L :
  SchedInv k L → wpe (W:=W) (request_admitted r epoch kind total cached) (balanced k L) k L.
Proof.
  intros Hk. unfold request_admitted, or_none, first_compute_context, forgo.
  apply wpe_bind, restored_spec; [done|intros _; weigh|]. intros e rc He Hok Hrc _.
  pose proof (weight_at_some _ _ _ He) as Hw. balance_tac.
Qed.

(** A loop whose calls do not lower the balance does not. *)
Lemma for_each_balanced {A} (m : A → Try (KVRecoverySchedulerAdapter * Witnessed W) unit) l k L :
  (∀ x k L, x ∈ l → wpe (m x) (balanced k L) k L) → wpe (for_each m l) (balanced k L) k L.
Proof.
  intros Hm. revert k L. induction l as [|x l IH]; intros k L; cbn [for_each].
  { apply wpe_ret. intros _. lia. }
  apply wpe_bind. eapply wpe_mono; [|apply Hm; by left].
  intros [[[]|]|e] k1 L1 H1; [|exact H1|done]. specialize (H1 eq_refl).
  eapply wpe_mono; [|apply IH; intros y k2 L2 Hy; apply Hm; by right].
  intros r k2 L2 H2 Hr. specialize (H2 Hr). lia.
Qed.

(** A loss before a balanced call *)
Lemma balanced_after_loss {A} (m : Try (KVRecoverySchedulerAdapter * Witnessed W) A) t a c k L :
  (∀ L, wpe m (balanced k L) k L) → wpe m (balanced k L) k (L ++ [EvLost t a c]).
Proof.
  intros Hm. eapply wpe_mono; [|apply Hm]. intros r k' L' H' Hr. specialize (H' Hr).
  assert (balance k L ≤ balance k (L ++ [EvLost t a c])) as HL by weigh. lia.
Qed.

Lemma consume_balanced rs b k L :
  wpe (W:=W) (consume_h2d_receipts rs b) (balanced k L) k L.
Proof.
  assert (∀ L, wpe (W:=W) (for_each consume_receipt rs) (balanced k L) k L) as Hrs.
  { intros L1. apply for_each_balanced. intros rc k1 L2 _. unfold consume_receipt. balance_tac.
    match goal with E : sc_episodes k1 !! _ = Some ?e |- _ => pose proof (weight_at_some _ _ _ E) end.
    weigh. }
  unfold consume_h2d_receipts, scheduler_open. bwalk; try apply Hrs; try (intros Hr; try discriminate Hr; weigh).
  by apply balanced_after_loss.
Qed.

(** The listed episode is open, or no longer is. *)
Definition listed (k : KVRecoverySchedulerAdapter) (kv : (string * Z) * _SchedulerEpisode) : Prop :=
  sc_episodes k !! kv.1 = Some kv.2 ∨ sc_episodes k !! kv.1 = None.

Lemma listed_pop k kv key : listed k kv → listed (pop_episode key k) kv.
Proof.
  unfold listed, pop_episode. simpl. rewrite !lookup_delete. by case_decide; [right|].
Qed.

Lemma weight_idle e : is_some_b (se_preempt_profile e) = false → weight e = 0%nat.
Proof. unfold weight, held. by intros ->. Qed.

Lemma retired_balanced l k L :
  Forall (listed k) l → wpe (W:=W) (for_each retire_episode l) (balanced k L) k L.
Proof.
  revert k L. induction l as [|kv l IH]; intros k L Hl; cbn [for_each].
  { apply wpe_ret. intros _. lia. }
  apply Forall_cons in Hl as [Hkv Hl]. unfold retire_episode.
  assert (Forall (listed (pop_episode kv.1 k)) l) as Hl'
    by (eapply Forall_impl; [exact Hl|]; intros; by apply listed_pop).
  bwalk; try (intros Hr; discriminate Hr).
  all: eapply wpe_mono; [|by apply IH]; intros r k' L' H' Hr; specialize (H' Hr).
  - assert (balance k L ≤ balance (pop_episode kv.1 k) (L ++ [EvLost "recovery_event" a c])) by weigh. lia.
  - assert (balance k L ≤ balance (pop_episode kv.1 k) L); [|lia].
    assert (weight_at kv.1 k = 0%nat); [|weigh].
    destruct Hkv as [Hkv|Hkv]; [|by apply weight_at_none].
    rewrite (weight_at_some _ _ _ Hkv). by apply weight_idle.
Qed.

Lemma terminal_balanced r cause n k L :
  wpe (W:=W) (request_terminal r cause n) (balanced k L) k L.
Proof.
  unfold request_terminal, or_none. bwalk. eapply wpe_mono; [|apply retired_balanced].
  - intros [[[]|]|e] k1 L1 H1; [|exact H1|intros Hr; discriminate Hr]. specialize (H1 eq_refl).
    bwalk; intros Hr; try discriminate Hr; try lia.
    all: assert (balance k1 L1 ≤ balance k1 (L1 ++ [EvLost "recovery_event" a c])) by weigh; lia.
  - apply Forall_forall. intros [key e] Hin. apply elem_of_map_to_list in Hin.
    unfold request_episodes in Hin. apply map_lookup_filter_Some in Hin as [Hk _]. by left.
Qed.

(** [reset] counts a loss for each episode that wrote a row. *)
Definition reset_one (kv : (string * Z) * _SchedulerEpisode)
    : Try (KVRecoverySchedulerAdapter * Witnessed W) unit :=
  if is_some_b (se_preempt_profile kv.2) then lose "recovery_event" None else tret tt.

Definition preempted_in (l : list ((string * Z) * _SchedulerEpisode)) : nat :=
  length (List.filter (λ kv, is_some_b (se_preempt_profile kv.2)) l).

Lemma reset_losses l k L :
  wpe (for_each reset_one l) (λ r k' L', is_ok r = true →
    r = Ok (Some tt) ∧ k' = k ∧ ∃ new, L' = L ++ new ∧
      length new = preempted_in l ∧ Forall (λ e, ∃ a c, e = EvLost "recovery_event" a c) new) k L.
Proof.
  revert L. induction l as [|kv l IH]; intros L; cbn [for_each].
  { apply wpe_ret. intros _. split_and!; [done|done|]. exists []. by rewrite app_nil_r. }
  unfold reset_one at 1, preempted_in. cbn [List.filter]. bwalk; try (intros Hr; discriminate Hr).
  - eapply wpe_mono; [|apply IH]. intros r k' L' H' Hr.
    destruct (H' Hr) as (-> & -> & new & -> & Hlen & Hnew). split_and!; [done|done|].
    eexists. split; [by rewrite <- app_assoc|]. cbn [length app]. rewrite Hlen.
    split; [done|]. constructor; [by do 2 eexists|done].
  - eapply wpe_mono; [|apply IH]. intros r k' L' H' Hr.
    by destruct (H' Hr) as (-> & -> & ?).
Qed.

Lemma held_preempted k : (held_episodes k ≤ preempted_in (map_to_list (sc_episodes k)))%nat.
Proof.
  unfold held_episodes, preempted_in. rewrite map_filter_alt, map_size_list_to_map.
  - induction (map_to_list (sc_episodes k)) as [|kv l IH]; [done|]. rewrite filter_cons.
    cbn [List.filter]. case_decide as Hh.
    + apply andb_prop in Hh as [-> _]. simpl. lia.
    + case_match; simpl; lia.
  - eapply sublist_NoDup; [apply (NoDup_fst_map_to_list (sc_episodes k))|].
    apply fmap_sublist, sublist_filter.
Qed.

Lemma held_none k : held_episodes (set_episodes ∅ k) = 0%nat.
Proof. unfold held_episodes. simpl. by rewrite map_filter_empty. Qed.

Lemma reset_balanced k L : wpe (W:=W) reset (balanced k L) k L.
Proof.
  unfold reset. wpe_bridge_step. wpe_bridge_step. wpe_bridge_step.
  eapply wpe_mono; [|apply reset_losses]. intros [[[]|]|e] k' L' H'; [|by specialize (H' eq_refl) as [? _]|by intros].
  destruct (H' eq_refl) as (_ & -> & new & -> & Hlen & Hnew). bwalk. intros _.
  pose proof (held_preempted k). unfold balance. rewrite held_none, !tally_app.
  rewrite !(tally_none (is_stage _) _ new Hnew), (tally_losses _ new Hnew), Hlen
    by (intros e (? & ? & ->); done). lia.
Qed.
Lemma weight_open e : is_some_b (se_context e) = false → weight e = 0%nat.
Proof. unfold weight, held. intros ->. by rewrite andb_false_r. Qed.

(** An episode that [open_restore] serves has written its preempt row and holds no
    context: the balance is one short until the context is set. *)
Lemma open_restore_balanced i r operation o k L :
  SchedInv k L → (∀ e, o = Some e → ∃ epoch, sc_episodes k !! (r, epoch) = Some e) →
  wpe (W:=W) (open_restore i r operation o) (λ x k' L', is_ok x = true →
    match x with
    | Ok (Some (Some e)) => balance k L ≤ balance k' L' + 1
    | _ => balance k L ≤ balance k' L'
    end) k L.
Proof.
  intros Hk Ho. unfold open_restore, forgo. destruct o as [e|]; [|balance_tac].
  destruct (Ho e eq_refl) as [epoch He].
  pose proof (eo_epoch _ _ _ (si_episodes _ _ Hk _ _ He)) as Hepoch. simpl in Hepoch. subst epoch.
  pose proof (weight_at_some _ _ _ He) as Hw. pose proof (weight_le e). balance_tac.
  match goal with E : is_some_b (se_context _) = false |- _ => pose proof E; apply weight_open in E end.
  assert (weight (set_preempt id e) = 0%nat) by by apply weight_open. weigh.
Qed.

Lemma close_balanced k L : wpe (W:=W) scheduler_close (balanced k L) k L.
Proof.
  apply wpe_scheduler_close; intros _; [intros _; lia|].
  apply wpe_bind. eapply wpe_mono; [|apply reset_balanced].
  intros [[[]|]|e] k' L' H1; bwalk; apply H1.
Qed.

(** A failure of the preparation is counted. *)
Lemma prepared_balanced r operation coordinates k L :
  SchedInv k L →
  wpe (W:=W) (prepare_transfer_context r operation coordinates) (balanced k L) k L.
Proof.
  intros Hk. unfold prepare_transfer_context. bwalk; try (intros Hr; weigh).
  assert (∀ e, latest_episode r k = Some e → ∃ epoch, sc_episodes k !! (r, epoch) = Some e) as Ho
    by (intros; by apply latest_episode_in).
  eapply wpe_mono; [|apply wpe_and; [by apply open_restore_balanced|]].
  2: { apply (open_restore_spec _ _ _ _ _ _ (λ x k' L', SchedInv k' L' ∧
         ∀ o, x = Ok (Some o) → opened r operation k' o)); [done..|].
       intros x k' L' [? _] _ ?. by split. }
  intros [[o|]|x] k1 L1 [Hb [Hk1 Hopen]]; [|exact Hb..]. specialize (Hb eq_refl).
  specialize (Hopen o eq_refl). do 2 wpe_bridge_step. apply build_context_spec; [apply Hk1|].
  intros x k2 Hs _ Hn _. pose proof (held_cache _ _ Hs) as Hh.
  assert (∀ new, Forall (about_type "block_set_chunk") new → lost new → balance k L ≤ balance k2 (L1 ++ new))
    as Hlost.
  { intros new Ht Hl. apply (tally_lost _) in Hl. rewrite (balance_chunks _ _ _ Ht). unfold balance in *.
    rewrite Hh. destruct o; lia. }
  destruct x as [[c|]|x]; [|done|].
  - unfold forgo. bwalk; try (intros Hr; discriminate Hr); try (intros _; apply Hlost; [by constructor|do 3 eexists; by left]).
    all: apply for_each_rows; [intros new Ht _|by intros new Ht Hl _; apply Hlost|intros x new Hr; discriminate Hr].
    all: bwalk; intros _; rewrite (balance_chunks _ _ _ Ht).
    + destruct Hopen as (_ & He & Hn' & [id Hid]). destruct Hs as (_ & Es & _). rewrite <- Es in He.
      assert (weight (set_context c _s) = 1%nat) by (unfold weight, held; simpl; by rewrite Hid).
      assert (weight_at (r, se_recovery_epoch _s) k2 = 0%nat)
        by (rewrite (weight_at_some _ _ _ He); apply weight_open; by rewrite Hn').
      unfold balance in *. held_facts. lia.
    + unfold balance in *. rewrite Hh. lia.
  - unfold forgo. bwalk; intros Hr; try discriminate Hr.
    all: apply Hlost; [by constructor|do 3 eexists; by left].
Qed.
End balance.

(** ** Every held episode is answered by the call that ends it *)

Definition held_at (key : string * Z) (k : KVRecoverySchedulerAdapter) : Prop :=
  ∃ e, sc_episodes k !! key = Some e ∧ held e = true.

Definition keeps_held (k k' : KVRecoverySchedulerAdapter) : Prop :=
  ∀ key, held_at key k → held_at key k'.

(** The admission milestone of the episode [e] at the key *)
Definition admission_row (key : string * Z) (e : _SchedulerEpisode) (new : list evidence) : Prop :=
  ∃ rc resumed started from id t,
    EvRow "recovery_event" (PInt t) (admission_fields (se_identity e) key.2 rc resumed started from)
      id ∈ new.

Definition answered {A} (k : KVRecoverySchedulerAdapter) (L : list evidence)
    (r : res (option A)) (k' : KVRecoverySchedulerAdapter) (L' : list evidence) : Prop :=
  is_ok r = true → ∃ new, L' = L ++ new ∧
    (lost new ∨ ∀ key e, sc_episodes k !! key = Some e → held e = true →
       held_at key k' ∨ admission_row key e new).

(** The calls but one write no admission. *)
Definition safe {A} (k : KVRecoverySchedulerAdapter) (L : list evidence)
    (r : res (option A)) (k' : KVRecoverySchedulerAdapter) (L' : list evidence) : Prop :=
  is_ok r = true → ∃ new, L' = L ++ new ∧ (lost new ∨ keeps_held k k').

Lemma keeps_refl k : keeps_held k k.
Proof. by intros key. Qed.

Lemma keeps_trans k1 k2 k3 : keeps_held k1 k2 → keeps_held k2 k3 → keeps_held k1 k3.
Proof. intros H1 H2 key Hk. by apply H2, H1. Qed.

Lemma keeps_put key e' k :
  (∀ e, sc_episodes k !! key = Some e → held e = true → held e' = true) →
  keeps_held k (put_episode key e' k).
Proof.
  intros He key' (e & Hk & Hh). unfold held_at, put_episode. simpl.
  destruct (decide (key = key')) as [->|Hn].
  - exists e'. rewrite lookup_insert_eq. eauto.
  - exists e. by rewrite lookup_insert_ne.
Qed.

Lemma keeps_pop key k :
  (∀ e, sc_episodes k !! key = Some e → held e = false) → keeps_held k (pop_episode key k).
Proof.
  intros He key' (e & Hk & Hh). exists e. unfold pop_episode. simpl. split; [|done].
  rewrite lookup_delete_ne; [done|]. intros ->. by rewrite (He e Hk) in Hh.
Qed.

Lemma keeps_idle r k : keeps_held k (drop_idle r k).
Proof.
  intros key (e & Hk & Hh). exists e. unfold drop_idle. simpl. split; [|done].
  apply map_lookup_filter_Some. split; [done|]. unfold is_idle. simpl. apply andb_prop in Hh as [-> _].
  by rewrite andb_false_r.
Qed.

Lemma keeps_cache k k' : cache_step k k' → keeps_held k k'.
Proof. intros (_ & E & _) key. unfold held_at. by rewrite E. Qed.

Lemma lost_app new new' : lost new ∨ lost new' → lost (new ++ new').
Proof. intros [(t & a & c & Hl)|(t & a & c & Hl)]; exists t, a, c; apply elem_of_app; auto. Qed.

Lemma safe_trans {A B} k L k1 L1 (r1 : res (option A)) (r : res (option B)) k' L' :
  is_ok r1 = true → safe k L r1 k1 L1 → safe k1 L1 r k' L' → safe k L r k' L'.
Proof.
  intros Hr1 H1 H2 Hr. destruct (H1 Hr1) as (n1 & -> & H1'), (H2 Hr) as (n2 & -> & H2').
  exists (n1 ++ n2). split; [by rewrite app_assoc|].
  destruct H1' as [?|?]; [left; apply lost_app; by left|].
  destruct H2' as [?|?]; [left; apply lost_app; by right|right]. by eapply keeps_trans.
Qed.

Lemma safe_answered {A} k L (r : res (option A)) k' L' : safe k L r k' L' → answered k L r k' L'.
Proof.
  intros Hs Hr. destruct (Hs Hr) as (new & -> & Hn). exists new. split; [done|].
  destruct Hn as [?|Hk]; [by left|right]. intros key e He Hh. left. apply Hk. by exists e.
Qed.

Section answered.
Context {W : Type} `{!EvidenceWorld W, !BaseLifecycleBridge W, !RuntimeABI}.

Ltac bwalk := repeat first [progress wpe_bridge_step | case_match].

Create HintDb keeps.
#[local] Hint Resolve keeps_refl keeps_idle : keeps.

Ltac safe_end := intros Hr; try discriminate Hr; log_new; first [left; log_lost|right; try solve [auto with keeps]].
Ltac safe_tac := bwalk; safe_end.

Lemma safe_for_each {A} (m : A → Try (KVRecoverySchedulerAdapter * Witnessed W) unit) l k L :
  (∀ x k L, x ∈ l → wpe (m x) (safe k L) k L) → wpe (for_each m l) (safe k L) k L.
Proof.
  intros Hm. revert k L. induction l as [|x l IH]; intros k L; cbn [for_each].
  { apply wpe_ret. intros _. exists []. rewrite app_nil_r. split; [done|]. right. apply keeps_refl. }
  apply wpe_bind. eapply wpe_mono; [|apply Hm; by left].
  intros [[[]|]|e] k1 L1 H1; [|exact H1|exact H1].
  eapply wpe_mono; [|apply IH; intros y k2 L2 Hy; apply Hm; by right].
  intros r k2 L2 H2. eapply safe_trans; [|exact H1|exact H2]. done.
Qed.

Lemma started_safe r k L : wpe (W:=W) (request_started r) (safe k L) k L.
Proof. unfold request_started, scheduler_open. safe_tac. Qed.

Lemma scheduled_safe r kind n total cached k L :
  wpe (W:=W) (request_scheduled r kind n total cached) (safe k L) k L.
Proof. unfold request_scheduled, scheduler_open. safe_tac. Qed.

Lemma preempted_safe r epoch k L : wpe (W:=W) (request_preempted r epoch) (safe k L) k L.
Proof.
  unfold request_preempted, or_none. safe_tac.
  all: eapply keeps_trans; [apply keeps_idle|apply keeps_put]; intros e He Hh; exfalso.
  all: apply map_lookup_filter_Some in He as [He _].
  all: match goal with E : bool_decide _ = false |- _ => apply bool_decide_eq_false in E; apply E end.
  all: by eexists.
Qed.

(** An episode that is replaced by one that holds as much *)
Ltac put_tac :=
  apply keeps_put; intros ? ? ?; simplify_eq; unfold held in *; simpl; by repeat case_match.

Lemma admission_started_safe r epoch k L :
  SchedInv k L → wpe (W:=W) (request_admission_started r epoch) (safe k L) k L.
Proof.
  intros Hk. unfold request_admission_started, or_none.
  apply wpe_bind, restored_spec; [done|safe_end|]. intros e rc He Hok Hrc _. safe_tac; put_tac.
Qed.

Lemma requeued_safe r epoch reason k L :
  SchedInv k L → wpe (W:=W) (request_requeued r epoch reason) (safe k L) k L.
Proof.
  intros Hk. unfold request_requeued, forgo.
  apply wpe_bind, restored_spec; [done|safe_end|]. intros e rc He Hok Hrc _. safe_tac; put_tac.
Qed.

Lemma consume_safe rs b k L : wpe (W:=W) (consume_h2d_receipts rs b) (safe k L) k L.
Proof.
  assert (∀ k L, wpe (W:=W) (for_each consume_receipt rs) (safe k L) k L) as Hrs.
  { intros k0 L0. apply safe_for_each. intros rc k1 L1 _. unfold consume_receipt. safe_tac; put_tac. }
  unfold consume_h2d_receipts, scheduler_open. bwalk; try (by apply Hrs); try safe_end.
  eapply wpe_mono; [|apply Hrs]. intros r k' L' Hs Hr. destruct (Hs Hr) as (new & -> & _).
  log_new. left. apply lost_app. left. do 3 eexists. by left.
Qed.

(** An admission leaves its row where it retires the episode. *)
Lemma admitted_answered r epoch kind total cached k L :
  SchedInv k L → wpe (W:=W) (request_admitted r epoch kind total cached) (answered k L) k L.
Proof.
  intros Hk. unfold request_admitted, or_none, first_compute_context, forgo.
  apply wpe_bind, restored_spec; [done|apply safe_answered; safe_end|]. intros e rc He Hok Hrc _.
  bwalk; intros Hr; try discriminate Hr; log_new; first [left; log_lost|right].
  all: intros key e' He' Hh; try (left; by exists e').
  all: destruct (decide (key = (r, epoch))) as [->|Hn];
    [right; simplify_eq; do 6 eexists; in_log|left; exists e'; split; [|done]].
  all: cbn [pop_episode put_episode set_episodes sc_episodes];
    rewrite lookup_delete_ne, lookup_insert_ne by congruence; done.
Qed.

Lemma retired_safe l k L :
  Forall (listed k) l → wpe (W:=W) (for_each retire_episode l) (safe k L) k L.
Proof.
  revert k L. induction l as [|kv l IH]; intros k L Hl; cbn [for_each].
  { apply wpe_ret. safe_end. }
  apply Forall_cons in Hl as [Hkv Hl]. unfold retire_episode.
  assert (Forall (listed (pop_episode kv.1 k)) l) as Hl'
    by (eapply Forall_impl; [exact Hl|]; intros; by apply listed_pop).
  bwalk; try (intros Hr; discriminate Hr).
  all: eapply wpe_mono; [|by apply IH]; intros r k' L' H'; intros Hr; destruct (H' Hr) as (new & -> & Hn).
  - log_new. left. apply lost_app. left. do 3 eexists. by left.
  - exists new. split; [done|]. destruct Hn as [?|Hn]; [by left|right].
    eapply keeps_trans; [|exact Hn]. apply keeps_pop. intros e He.
    destruct Hkv as [Hkv|Hkv]; [|congruence]. assert (e = kv.2) as -> by congruence.
    unfold held. by match goal with E : is_some_b _ = false |- _ => rewrite E end.
Qed.

Lemma terminal_safe r cause n k L : wpe (W:=W) (request_terminal r cause n) (safe k L) k L.
Proof.
  unfold request_terminal, or_none. bwalk. eapply wpe_mono; [|apply retired_safe].
  - intros [[[]|]|e] k1 L1 H1; [|exact H1|exact H1]. bwalk.
    all: first [exact H1|eapply safe_trans; [|exact H1|]; [done|safe_end]].
  - apply Forall_forall. intros [key e] Hin. apply elem_of_map_to_list in Hin.
    unfold request_episodes in Hin. apply map_lookup_filter_Some in Hin as [Hk _]. by left.
Qed.

Lemma preempted_in_held key k : held_at key k → (1 ≤ preempted_in (map_to_list (sc_episodes k)))%nat.
Proof.
  intros (e & He & Hh). apply elem_of_map_to_list in He. apply andb_prop in Hh as [Hp _].
  apply list_elem_of_split in He as (l1 & l2 & ->). unfold preempted_in.
  rewrite List.filter_app, length_app. simpl. rewrite Hp. simpl. lia.
Qed.

Lemma reset_safe k L : wpe (W:=W) reset (safe k L) k L.
Proof.
  unfold reset. wpe_bridge_step. wpe_bridge_step. wpe_bridge_step.
  eapply wpe_mono; [|apply reset_losses]. intros [[[]|]|e] k' L' H'; [|by specialize (H' eq_refl) as [? _]|by intros].
  destruct (H' eq_refl) as (_ & -> & new & -> & Hlen & Hnew). bwalk. intros _.
  exists new. split; [done|]. destruct Hnew as [|e new (a & c & ->) _].
  - right. intros key Hh%preempted_in_held. simpl in Hlen. lia.
  - left. do 3 eexists. by left.
Qed.

Lemma close_safe k L : wpe (W:=W) scheduler_close (safe k L) k L.
Proof.
  apply wpe_scheduler_close; intros _; [safe_end|].
  apply wpe_bind. eapply wpe_mono; [|apply reset_safe].
  intros [[[]|]|e] k' L' H1; bwalk; exact H1.
Qed.

(** Between the preempt milestone and the context the episode is not held. *)
Lemma open_restore_safe i r operation o k L :
  SchedInv k L → (∀ e, o = Some e → ∃ epoch, sc_episodes k !! (r, epoch) = Some e) →
  wpe (W:=W) (open_restore i r operation o) (safe k L) k L.
Proof.
  intros Hk Ho. unfold open_restore, forgo. destruct o as [e|]; [|safe_tac].
  destruct (Ho e eq_refl) as [epoch He].
  pose proof (eo_epoch _ _ _ (si_episodes _ _ Hk _ _ He)) as Hepoch. simpl in Hepoch. subst epoch.
  safe_tac.
  all: apply keeps_put; intros e' He' Hh; assert (e' = e) as -> by congruence.
  all: unfold held in Hh; match goal with E : is_some_b _ = false |- _ => rewrite E in Hh end.
  all: by rewrite andb_false_r in Hh.
Qed.

Lemma prepared_safe r operation coordinates k L :
  SchedInv k L → wpe (W:=W) (prepare_transfer_context r operation coordinates) (safe k L) k L.
Proof.
  intros Hk. unfold prepare_transfer_context. bwalk; try safe_end.
  assert (∀ e, latest_episode r k = Some e → ∃ epoch, sc_episodes k !! (r, epoch) = Some e) as Ho
    by (intros; by apply latest_episode_in).
  eapply wpe_mono; [|apply wpe_and; [by apply open_restore_safe|]].
  2: { apply (open_restore_spec _ _ _ _ _ _ (λ x k' L', SchedInv k' L' ∧
         ∀ o, x = Ok (Some o) → opened r operation k' o)); [done..|].
       intros x k' L' [? _] _ ?. by split. }
  intros [[o|]|x] k1 L1 [Hb [Hk1 Hopen]]; [|exact Hb..].
  specialize (Hopen o eq_refl). do 2 wpe_bridge_step. apply build_context_spec; [apply Hk1|].
  intros x k2 Hs _ Hn _.
  assert (∀ (r' : res (option KVRecoveryTransferContext)) k' new,
    (lost new ∨ keeps_held k2 k') → safe k L r' k' (L1 ++ new)) as Hend.
  { intros r' k' new Hnew. eapply safe_trans; [|exact Hb|]; [done|]. intros _. exists new.
    split; [done|]. destruct Hnew as [?|?]; [by left|right].
    by eapply keeps_trans; [apply keeps_cache|]. }
  assert (∀ (r' : res (option KVRecoveryTransferContext)) k' t a c, safe k L r' k' (L1 ++ [EvLost t a c])) as Hlost1.
  { intros. apply Hend. left. do 3 eexists. by left. }
  destruct x as [[c|]|x]; [|done|].
  - unfold forgo. bwalk; try (intros Hr; discriminate Hr); try apply Hlost1.
    all: apply for_each_rows; [intros new Ht _|by intros new Ht Hl; apply Hend; left|by intros x new Hr].
    all: bwalk; apply Hend; right; first [apply keeps_refl|apply keeps_put].
    destruct Hopen as (_ & He & Hn' & [id Hid]).
    intros e' _ _. unfold held. simpl. by rewrite Hid.
  - unfold forgo. bwalk; try (intros Hr; discriminate Hr); apply Hlost1.
Qed.
End answered.

(** ** Calls and runs *)

Inductive scheduler_call :=
| SStarted (request : string)
| SScheduled (request compute_kind : string) (scheduled total cached : Z)
| SPreempted (request : string) (epoch : Z)
| SPrepare (request operation : string) (coordinates : list (Z * Z))
| SConsume (receipts : list KVRecoveryH2DReceipt) (receipt_capacity_exhausted : bool)
| SAdmissionStarted (request : string) (epoch : Z)
| SRequeued (request : string) (epoch : Z) (reason : string)
| SAdmitted (request : string) (epoch : Z) (compute_kind : string) (total cached : Z)
| STerminal (request terminal_cause : string) (generated : Z)
| SReset
| SClose.

Section runs.
Context {W : Type} `{!EvidenceWorld W, !BaseLifecycleBridge W, !RuntimeABI}.

(** A call, without its result *)
Definition ignoring {A} (m : Try (KVRecoverySchedulerAdapter * Witnessed W) A) :
    Try (KVRecoverySchedulerAdapter * Witnessed W) unit := tbind m (λ _, tret tt).

Definition run_scheduler_call (c : scheduler_call)
    : Try (KVRecoverySchedulerAdapter * Witnessed W) unit :=
  match c with
  | SStarted r => request_started r
  | SScheduled r kind n total cached => request_scheduled r kind n total cached
  | SPreempted r epoch => ignoring (request_preempted r epoch)
  | SPrepare r operation cs => ignoring (prepare_transfer_context r operation cs)
  | SConsume rs b => consume_h2d_receipts rs b
  | SAdmissionStarted r epoch => request_admission_started r epoch
  | SRequeued r epoch reason => request_requeued r epoch reason
  | SAdmitted r epoch kind total cached => ignoring (request_admitted r epoch kind total cached)
  | STerminal r cause n => request_terminal r cause n
  | SReset => reset
  | SClose => scheduler_close
  end.

(** The adapters of a run: any calls; [returned] when none of them raised *)
Inductive scheduler_reachable (run_id : string)
    : bool → KVRecoverySchedulerAdapter → Witnessed W → Prop :=
| scheduler_new k w : new_scheduler run_id = Ok k →
    scheduler_reachable run_id true k (mkWitnessed w [])
| scheduler_step c returned k x :
    scheduler_reachable run_id returned k x →
    scheduler_reachable run_id (returned && is_ok (run_scheduler_call c (k, x)).1)
      (run_scheduler_call c (k, x)).2.1 (run_scheduler_call c (k, x)).2.2.

Lemma ignoring_wpe {A} (m : Try (KVRecoverySchedulerAdapter * Witnessed W) A)
    (Q : bool → KVRecoverySchedulerAdapter → list evidence → Prop) k L :
  wpe m (λ r, Q (is_ok r)) k L → wpe (ignoring m) (λ r, Q (is_ok r)) k L.
Proof.
  intros Hm. apply wpe_bind. eapply wpe_mono; [|exact Hm]. intros [[a|]|e] k' L' HQ; try done.
  by apply wpe_ret.
Qed.

Lemma scheduler_call_inv c k L :
  SchedInv k L → wpe (run_scheduler_call c) (λ _ k' L', SchedInv k' L' ∧ L ⊆ L') k L.
Proof.
  intros Hk. destruct c; cbn [run_scheduler_call].
  - by apply started_inv.
  - by apply scheduled_inv.
  - apply (ignoring_wpe _ (λ _ k' L', SchedInv k' L' ∧ L ⊆ L')). by apply preempted_inv.
  - apply (ignoring_wpe _ (λ _ k' L', SchedInv k' L' ∧ L ⊆ L')). by apply prepare_inv.
  - by apply consume_inv.
  - by apply admission_started_inv.
  - by apply requeued_inv.
  - apply (ignoring_wpe _ (λ _ k' L', SchedInv k' L' ∧ L ⊆ L')). by apply admitted_inv.
  - by apply terminal_inv.
  - by apply reset_inv.
  - by apply close_inv.
Qed.

Lemma scheduler_call_balanced c k L :
  SchedInv k L → wpe (run_scheduler_call c) (balanced k L) k L.
Proof.
  intros Hk. destruct c; cbn [run_scheduler_call].
  - apply started_balanced.
  - apply scheduled_balanced.
  - apply (ignoring_wpe _ (λ b k' L', b = true → balance k L ≤ balance k' L')).
    apply preempted_balanced.
  - apply (ignoring_wpe _ (λ b k' L', b = true → balance k L ≤ balance k' L')).
    by apply prepared_balanced.
  - apply consume_balanced.
  - by apply admission_started_balanced.
  - by apply requeued_balanced.
  - apply (ignoring_wpe _ (λ b k' L', b = true → balance k L ≤ balance k' L')).
    by apply admitted_balanced.
  - apply terminal_balanced.
  - apply reset_balanced.
  - apply close_balanced.
Qed.

Lemma scheduler_call_answered c k L :
  SchedInv k L → wpe (run_scheduler_call c) (answered k L) k L.
Proof.
  intros Hk.
  assert (∀ (m : Try (KVRecoverySchedulerAdapter * Witnessed W) unit),
    wpe m (safe k L) k L → wpe m (answered k L) k L) as Hs.
  { intros m. apply wpe_mono. intros r k' L'. apply safe_answered. }
  destruct c; cbn [run_scheduler_call].
  - apply Hs, started_safe.
  - apply Hs, scheduled_safe.
  - apply Hs, (ignoring_wpe _ (λ b k' L', b = true → ∃ new, L' = L ++ new ∧
      (lost new ∨ keeps_held k k'))), preempted_safe.
  - apply Hs, (ignoring_wpe _ (λ b k' L', b = true → ∃ new, L' = L ++ new ∧
      (lost new ∨ keeps_held k k'))). by apply prepared_safe.
  - apply Hs, consume_safe.
  - by apply Hs, admission_started_safe.
  - by apply Hs, requeued_safe.
  - apply (ignoring_wpe _ (λ b k' L', b = true → ∃ new, L' = L ++ new ∧
      (lost new ∨ ∀ key e, sc_episodes k !! key = Some e → held e = true →
         held_at key k' ∨ admission_row key e new))). by apply admitted_answered.
  - apply Hs, terminal_safe.
  - apply Hs, reset_safe.
  - apply Hs, close_safe.
Qed.

Ltac bridge_honest := repeat first
  [ lazymatch goal with |- honestly (via_bridge _) => apply honestly_unlogged end | honest_step ].

Lemma blocks_honest i cs : honestly (W:=W) (logical_blocks i cs).
Proof.
  induction cs as [|[g o] cs IH]; [apply honestly_ret|]. cbn [logical_blocks].
  unfold _logical_block_id. bridge_honest; exact IH.
Qed.

Lemma scheduler_call_honest `{!EvidenceLaws W} c : honestly (run_scheduler_call c).
Proof.
  destruct c; cbn [run_scheduler_call]; unfold ignoring, request_started, request_scheduled,
    request_preempted, prepare_transfer_context, open_restore, build_context, consume_h2d_receipts,
    consume_receipt, request_admission_started, request_requeued,
    request_admitted, restored_episode, first_compute_context, request_terminal, retire_episode, reset, or_none,
    forgo, scheduler_open; bridge_honest; try apply blocks_honest.
  unfold scheduler_close. apply honestly_bind; [unfold scheduler_open; bridge_honest|]. intros [] s.
  assert (honestly (W:=W) (tbind reset (λ _, tbind (update set_sc_closed) (λ _, update (set_logical_ids ∅)))))
    as Hr by (unfold reset; bridge_honest).
  specialize (Hr s). destruct (tbind reset _ s) as [r s']. simpl in *. unfold close_hooks.
  simpl. by rewrite app_nil_r.
Qed.

Lemma scheduler_invariant run_id b k x :
  scheduler_reachable run_id b k x → SchedInv k (wi_log x) ∧ (b = true → 0 ≤ balance k (wi_log x)).
Proof.
  induction 1 as [k w Hn|c b k [w L] Hr [IH IHb]].
  - unfold new_scheduler in Hn. inv_ok. split; [split; apply map_Forall_empty|].
    intros _. done.
  - pose proof (scheduler_call_inv c k L IH w) as Hc.
    pose proof (scheduler_call_balanced c k L IH w) as Hb. simpl in *.
    destruct (run_scheduler_call c (k, mkWitnessed w L)) as [r [k' x']]. simpl.
    split; [apply Hc|]. intros [? ?]%andb_prop. specialize (IHb ltac:(done)).
    specialize (Hb ltac:(done)). lia.
Qed.

(** C16. An admission is grounded.  In every run of a scheduler adapter, whatever its
    calls returned or raised, a [request_admitted] that returns a context retires the
    episode, and the log holds the whole chain the context stands for: the preempt
    milestone named by the identity of the transfer, the wakeup linked to the restore
    of the receipt and no later than the start of the admission, the requeues after
    it, each linked to the one before, the edge from the end of the transfer to the
    start of the admission, and the admission milestone linked to the last of them. *)
Theorem scheduler_admission_grounded run_id b k x r epoch kind total cached cc s :
  scheduler_reachable run_id b k x →
  request_admitted r epoch kind total cached (k, x) = (Ok (Some cc), s) →
  admission_grounded (wi_log s.2) r epoch cc ∧ sc_episodes s.1 !! (r, epoch) = None.
Proof.
  intros [Hk _]%scheduler_invariant Hc. destruct x as [w L], s as [k' x'].
  pose proof (admitted_spec r epoch kind total cached k L Hk w) as Hw. rewrite Hc in Hw.
  by apply Hw.
Qed.

(** C17. No preempted episode vanishes. An episode is held when its preempt milestone is
    in the log and it is committed to a transfer. In every run, whatever came before, a
    call that returns answers for the episodes it ends by what it adds to the log: either
    it reported a loss, or every episode that was held before is held after or has its
    admission milestone among the new rows. And in numbers: held before plus new preempt
    milestones is at most held after plus new admission milestones plus new losses, so
    that a call that ends several episodes answers for each. Every reported loss raised
    the profile's number of lost records if the profile took calls at that moment. *)
Theorem scheduler_conservation `{!EvidenceLaws W} run_id b k x c :
  scheduler_reachable run_id b k x →
  is_ok (run_scheduler_call c (k, x)).1 = true →
  let s' := (run_scheduler_call c (k, x)).2 in
  ∃ new, wi_log s'.2 = wi_log x ++ new ∧ Forall honest new ∧
    (lost new ∨ ∀ key e, sc_episodes k !! key = Some e → held e = true →
       held_at key s'.1 ∨ admission_row key e new) ∧
    (held_episodes k + tally (is_stage "preempt") new ≤
     held_episodes s'.1 + tally (is_stage "admission") new + tally is_lost new)%nat.
Proof.
  intros [Hk _]%scheduler_invariant. destruct x as [w L].
  pose proof (scheduler_call_answered c k L Hk w) as Ha.
  pose proof (scheduler_call_balanced c k L Hk w) as Hb.
  pose proof (scheduler_call_honest c (k, mkWitnessed w L)) as Hh.
  destruct (run_scheduler_call c (k, mkWitnessed w L)) as [r [k' x']]. simpl in *. intros Hr.
  destruct (Ha Hr) as (new & Hx & Hn), Hh as (new' & Hx' & Hh). rewrite Hx in Hx'.
  apply app_inv_head in Hx' as <-. exists new. split_and!; [done|done|done|].
  specialize (Hb Hr). unfold balance in Hb. rewrite Hx, !tally_app in Hb. lia.
Qed.

(** In a run whose calls all return the numbers add up over the whole log. *)
Theorem scheduler_totals run_id k x :
  scheduler_reachable run_id true k x →
  (tally (is_stage "preempt") (wi_log x) ≤
   held_episodes k + tally (is_stage "admission") (wi_log x) + tally is_lost (wi_log x))%nat.
Proof.
  intros [_ Hb]%scheduler_invariant. specialize (Hb eq_refl). unfold balance in Hb. lia.
Qed.
End runs.

(** ** Prepared rows *)

(** A coordinate within the widths of the row *)
Definition coordinate_ok (c : Z * Z) : Prop := 0 ≤ c.1 ≤ _UINT32_MAX ∧ uint64 c.2.

Lemma logical_block_id_hex run_id lifecycle group ordinal id :
  logical_block_id run_id lifecycle group ordinal = Ok id → hex_match 32 id = true.
Proof.
  unfold logical_block_id. case_match; [|done]. intros [= <-]. apply sha256_take_hex.
Qed.

Lemma block_of_row run_id i c b :
  block_of run_id i c b → coordinate_ok c →
  block_row (block_entry b) (c, lb_logical_block_id b).
Proof.
  intros (E1 & E2 & Hid) [H1 H2]. unfold block_entry. eexists. split; [done|].
  rewrite E1, E2. split_and!; try done; try apply H1; try apply H2.
  by eapply logical_block_id_hex.
Qed.

Lemma block_of_rows run_id i cs bs :
  Forall2 (block_of run_id i) cs bs → Forall coordinate_ok cs →
  Forall2 block_row (map block_entry bs) (zip cs (lb_logical_block_id <$> bs)).
Proof.
  induction 1 as [|c b cs bs Hb _ IH]; intros Hc; simpl; [constructor|].
  apply Forall_cons in Hc as [Hc Hcs]. constructor; [by eapply block_of_row|by apply IH].
Qed.

(** A chunk of distinct blocks at increasing coordinates passes the validator. *)
Lemma block_fields_valid run_id i epoch episode set_id cs bs j :
  Forall2 (block_of run_id i) cs bs → Forall coordinate_ok cs → StronglySorted pair_lt cs →
  NoDup (lb_logical_block_id <$> bs) → hex_match 64 set_id = true →
  Z.of_nat (length bs) ≤ MAX_LOGICAL_BLOCKS_PER_BLOCK_SET →
  Z.of_nat j * 32 < Z.of_nat (length bs) →
  _validate_block_fields (block_fields i epoch episode set_id bs j) = Ok tt.
Proof.
  intros HF Hc HS HN Hset Hmax Hj. apply block_chunk_spec.
  assert (MAX_LOGICAL_BLOCKS_PER_BLOCK_SET = 4096) as Hm by done.
  cbn [block_fields request_fields app dict_get dict_find String.eqb Ascii.eqb Bool.eqb default].
  split_and!; [by exists set_id| |].
  - unfold block_chunk_count. do 3 eexists. split_and!; try reflexivity; try lia.
    all: pose proof (Z.div_mod (Z.of_nat (length bs) + 32 - 1) 32).
    all: pose proof (Z.mod_pos_bound (Z.of_nat (length bs) + 32 - 1) 32).
    all: unfold _UINT32_MAX; lia.
  - eexists _, (take 32 (drop (j * 32) (zip cs (lb_logical_block_id <$> bs)))).
    split; [reflexivity|]. unfold _MAX_BLOCK_ROWS_PER_CHUNK_BYTE_BUDGET.
    rewrite length_map, length_take, length_drop. split; [lia|].
    pose proof (Forall2_length _ _ _ HF) as Hl. split_and!.
    + rewrite slice_map. by apply Forall2_take, Forall2_drop, (block_of_rows run_id i).
    + rewrite fmap_take, fmap_drop, fst_zip by (rewrite length_fmap; lia).
      by apply StronglySorted_take_drop.
    + rewrite fmap_take, fmap_drop, snd_zip by (rewrite length_fmap; lia).
      apply (sublist_NoDup _ _ HN). etrans; [apply sublist_take|apply sublist_drop].
Qed.

Section prepared.
Context {W : Type} `{!EvidenceWorld W, !BaseLifecycleBridge W, !RuntimeABI}.

(** C18. Prepared rows are rows the exporter accepts.  In every run, a context that
    [prepare_transfer_context] returns for at most 4096 coordinates in increasing order
    and within the widths of a row (a uint32 group and a uint64 ordinal), whose blocks
    have distinct identifiers and whose block set has a digest for its name, holds the
    blocks of the coordinates in order, each with the identifier derived from its
    coordinate; the log holds a row for every chunk of them; every one of these rows
    passes [_validate_block_fields]; and the chunks put together are the blocks. *)
Theorem prepared_rows_accepted run_id b k x r operation coordinates c s :
  scheduler_reachable run_id b k x →
  prepare_transfer_context r operation coordinates (k, x) = (Ok (Some c), s) →
  Forall coordinate_ok coordinates → StronglySorted pair_lt coordinates →
  Z.of_nat (length coordinates) ≤ MAX_LOGICAL_BLOCKS_PER_BLOCK_SET →
  NoDup (lb_logical_block_id <$> cx_logical_blocks c) → hex_match 64 (cx_block_set_id c) = true →
  ∃ i t (rows : nat → pydict),
    Forall2 (block_of (sc_run_id k) i) coordinates (cx_logical_blocks c) ∧
    (∀ j, Z.of_nat j * 32 < Z.of_nat (length coordinates) →
       (∃ row, EvRow "block_set_chunk" (PInt t) (rows j) row ∈ wi_log s.2) ∧
       _validate_block_fields (rows j) = Ok tt) ∧
    concat (map (λ j, match dict_get (rows j) "blocks" with PList l => l | _ => [] end)
      (seq 0 (Z.to_nat (block_chunk_count (length coordinates)))))
    = map block_entry (cx_logical_blocks c).
Proof.
  intros [Hk _]%scheduler_invariant Hp Hc HS Hmax HN Hset. destruct x as [w L], s as [k' x'].
  pose proof (prepared_spec r operation coordinates k L Hk w) as Hw. rewrite Hp in Hw.
  destruct Hw as [_ Hw]. destruct (Hw c eq_refl) as (i & t & o & (_ & _ & HF & _) & Hrows & _).
  pose proof (Forall2_length _ _ _ HF) as Hl.
  exists i, t, (block_fields i (ki_recovery_epoch (cx_identity c)) (ki_episode_id (cx_identity c))
    (cx_block_set_id c) (cx_logical_blocks c)).
  split_and!; [done| |].
  - intros j Hj. split; [by apply Hrows|]. rewrite Hl in Hj, Hmax.
    by eapply block_fields_valid.
  - cbn [block_fields request_fields app dict_get dict_find String.eqb Ascii.eqb Bool.eqb default
         Datatypes.id].
    rewrite <- (chunks_concat 32 (map block_entry (cx_logical_blocks c))
      (Z.to_nat (block_chunk_count (length coordinates)))).
    + f_equal. apply map_ext. intros j. unfold _MAX_BLOCK_ROWS_PER_CHUNK_BYTE_BUDGET.
      apply slice_map.
    + rewrite length_map, Hl. unfold block_chunk_count.
      pose proof (Z.div_mod (Z.of_nat (length (cx_logical_blocks c)) + 32 - 1) 32).
      pose proof (Z.mod_pos_bound (Z.of_nat (length (cx_logical_blocks c)) + 32 - 1) 32). lia.
Qed.
End prepared.

(** ** An example: a preemption and its return, over the bridge and the exporter *)

#[local] Existing Instance permissive_abi.

Definition EngineWorld : Type := Witnessed (Bridge * BoundedKVRecoveryProfileLedger LiveHooks).

Definition example_scheduler : KVRecoverySchedulerAdapter := mkScheduler example_trace ∅ ∅ false.
Definition engine_world : EngineWorld := mkWitnessed (mkBridge 16 ∅ ∅ ∅, recovery_world) [].

Definition run_calls (cs : list scheduler_call) (s : KVRecoverySchedulerAdapter * EngineWorld)
    : KVRecoverySchedulerAdapter * EngineWorld :=
  foldl (λ s c, (run_scheduler_call c s).2) s cs.

(** None of the calls raises. *)
Fixpoint calls_return (cs : list scheduler_call) (s : KVRecoverySchedulerAdapter * EngineWorld)
    : bool :=
  match cs with
  | [] => true
  | c :: cs => is_ok (run_scheduler_call c s).1 && calls_return cs (run_scheduler_call c s).2
  end.

Lemma run_scheduler_calls_reachable run_id cs b k x :
  scheduler_reachable run_id b k x →
  scheduler_reachable run_id (b && calls_return cs (k, x))
    (run_calls cs (k, x)).1 (run_calls cs (k, x)).2.
Proof.
  revert b k x. induction cs as [|c cs IH]; intros b k x Hr; simpl; [by rewrite andb_true_r|].
  pose proof (scheduler_step run_id c b k x Hr) as Hs.
  rewrite andb_assoc. destruct (run_scheduler_call c (k, x)) as [r [k' x']]. by apply IH.
Qed.

Lemma engine_run_reachable cs :
  scheduler_reachable example_trace (calls_return cs (example_scheduler, engine_world))
    (run_calls cs (example_scheduler, engine_world)).1
    (run_calls cs (example_scheduler, engine_world)).2.
Proof. apply (run_scheduler_calls_reachable example_trace cs true). by apply scheduler_new. Qed.

Definition preempting : list scheduler_call :=
  [SStarted "req-1"; SScheduled "req-1" "prefill" 10 10 0; SPreempted "req-1" 1].

Definition example_coordinates : list (Z * Z) := [(0, 0); (0, 1); (1, 0)].

Definition preempted_run := run_calls preempting (example_scheduler, engine_world).

Definition prepared_run :=
  prepare_transfer_context "req-1" "h2d_restore" example_coordinates preempted_run.

Definition example_context : option KVRecoveryTransferContext :=
  match prepared_run.1 with Ok c => c | Raise _ => None end.

(** The receipt of the worker for that context *)
Definition example_receipt (c : KVRecoveryTransferContext) : KVRecoveryH2DReceipt :=
  mkReceipt 3 (make_id example_uuid "t" 0) (cx_identity c) (cx_block_set_id c) example_uuid
    example_uuid (make_id example_trace "e" 1) (make_id example_trace "k" 4) 117 4096.

Definition returning : list scheduler_call :=
  preempting ++ [SPrepare "req-1" "h2d_restore" example_coordinates] ++
  match example_context with Some c => [SConsume [example_receipt c] false] | None => [] end ++
  [SAdmissionStarted "req-1" 1; SRequeued "req-1" 1 "block_capacity"; SRequeued "req-1" 1 "block_capacity"].

Definition returned_run := run_calls returning (example_scheduler, engine_world).
Definition admitted_run := request_admitted "req-1" 1 "decode" 10 4 returned_run.

Lemma prepared_rows_accepted_witness :
  ∃ c i t row fields, prepared_run.1 = Ok (Some c) ∧
    Forall2 (block_of example_trace i) example_coordinates (cx_logical_blocks c) ∧
    EvRow "block_set_chunk" (PInt t) fields row ∈ wi_log prepared_run.2.2 ∧
    _validate_block_fields fields = Ok tt.
Proof.
  assert (∃ c, prepared_run.1 = Ok (Some c) ∧ sc_run_id preempted_run.1 = example_trace ∧
    NoDup (lb_logical_block_id <$> cx_logical_blocks c) ∧ hex_match 64 (cx_block_set_id c) = true)
    as (c & Hc & Hrun & HN & Hset).
  { eexists. split; [vm_compute; reflexivity|]. split; [vm_compute; reflexivity|].
    split; [refine (bool_decide_unpack _ _)|]; vm_compute; done. }
  assert (Forall coordinate_ok example_coordinates) as Hok by
    (unfold example_coordinates, coordinate_ok; repeat constructor; simpl; done).
  assert (StronglySorted pair_lt example_coordinates) as Hs by
    (unfold example_coordinates, pair_lt; repeat constructor; simpl; lia).
  exists c. revert Hc Hrun. unfold prepared_run.
  generalize (engine_run_reachable preempting). fold preempted_run.
  generalize (calls_return preempting (example_scheduler, engine_world)).
  generalize preempted_run. intros [k x] b Hr Hc Hrun.
  destruct (prepared_rows_accepted example_trace b k x "req-1" "h2d_restore" example_coordinates c
    (prepare_transfer_context "req-1" "h2d_restore" example_coordinates (k, x)).2) as (i & t & rows & HF & Hrows & _);
    [exact Hr|rewrite <- Hc; apply surjective_pairing|exact Hok|exact Hs|vm_compute; discriminate
    |exact HN|exact Hset|].
  destruct (Hrows 0%nat ltac:(reflexivity)) as [[row Hrow] Hv].
  simpl in Hrun. rewrite Hrun in HF. exists i, t, row, (rows 0%nat). by split_and!.
Defined.

Lemma scheduler_admission_grounded_witness :
  ∃ cc, admitted_run.1 = Ok (Some cc) ∧ cc_compute_kind cc = "decode" ∧
    log_lossless (wi_log admitted_run.2.2) = true ∧
    admission_grounded (wi_log admitted_run.2.2) "req-1" 1 cc.
Proof.
  assert (∃ cc, admitted_run.1 = Ok (Some cc) ∧ cc_compute_kind cc = "decode" ∧
    log_lossless (wi_log admitted_run.2.2) = true) as (cc & Hcc & Hk & Hl)
    by (eexists; vm_compute; repeat split; reflexivity).
  exists cc. split; [exact Hcc|]. split; [exact Hk|]. split; [exact Hl|].
  revert Hcc. unfold admitted_run. generalize (engine_run_reachable returning). fold returned_run.
  generalize (calls_return returning (example_scheduler, engine_world)).
  generalize returned_run. intros [k x] b Hr Hcc.
  apply (scheduler_admission_grounded example_trace b k x "req-1" 1 "decode" 10 4 cc); [exact Hr|].
  rewrite <- Hcc. apply surjective_pairing.
Defined.

(** An abort after the requeues ends the held episode: its answer is a loss, which the
    exporter counted. *)
Lemma scheduler_conservation_witness :
  held_at ("req-1", 1) returned_run.1 ∧
  let c := STerminal "req-1" "cancelled" 0 in
  is_ok (run_scheduler_call c returned_run).1 = true ∧
  held_episodes (run_scheduler_call c returned_run).2.1 = 0%nat ∧
  ∃ new, wi_log (run_scheduler_call c returned_run).2.2 = wi_log returned_run.2 ++ new ∧
    Forall honest new ∧
    (lost new ∨ ∀ key e, sc_episodes returned_run.1 !! key = Some e → held e = true →
       held_at key (run_scheduler_call c returned_run).2.1 ∨ admission_row key e new) ∧
    (held_episodes returned_run.1 + tally (is_stage "preempt") new ≤
     held_episodes (run_scheduler_call c returned_run).2.1
     + tally (is_stage "admission") new + tally is_lost new)%nat.
Proof.
  assert (is_ok (run_scheduler_call (STerminal "req-1" "cancelled" 0) returned_run).1 = true ∧
    held_episodes (run_scheduler_call (STerminal "req-1" "cancelled" 0) returned_run).2.1 = 0%nat ∧
    (held <$> sc_episodes returned_run.1 !! ("req-1", 1)) = Some true)
    as (Hok & Hh & He) by (vm_compute; repeat split; reflexivity).
  revert Hok Hh He. generalize (engine_run_reachable returning). fold returned_run.
  generalize (calls_return returning (example_scheduler, engine_world)).
  generalize returned_run. intros [k x] b Hr Hok Hh He.
  split; [apply fmap_Some in He as (e & He & Hheld); by exists e|].
  split; [exact Hok|]. split; [exact Hh|].
  pose proof (scheduler_conservation example_trace b k x _ Hr Hok) as HC.
  exact HC.
Defined.
