(* ===== verification/ObserverFactory.v ===== *)
(** * kv_recovery_runtime.py: [KVRecoveryObserverFactoryAdapter]

    The factory ties the parts together: it decides from the configuration whether
    there is anything to observe, keeps one profile ledger per process, builds the
    scheduler and the worker adapter over the shared facade, and closes the scheduler
    adapters before the engine core dies.  The host's
    [bounded_worker_observer_type] is a parameter. *)

From Stdlib Require Import ZArith Lia Ascii String.
From stdpp Require Import base list strings gmap fin_maps.
From S2P Require Import Prelude PyValue Sha256 RuntimeProtocol ProfileProtocol SinkState.
From S2P Require Import TraceSink SinkSteps Hooks HooksInterface ProfileLedger ProfileAccounting LifecycleBridge Evidence.
From S2P Require Import BridgeInterface WorkerAdapter SchedulerAdapter SchedulerInvariant SchedulerProps.

(** What the factory asks of the facade *)
Class FactoryHooks (H : Type) := {
  fh_enabled : H → bool;
  fh_communication_mode : H → string;
  fh_profile_enabled : H → bool;
  fh_profile_config : H → option KVRecoveryProfileConfig;
  fh_reinitialize : H → bool * H }.

(** The facade of Hooks.v, which opens the shard of a child process with [b] *)
Definition live_factory_hooks (b : boot) : FactoryHooks LiveHooks := {|
  fh_enabled l := hooks_enabled (lv_pid l) (lv_hooks l);
  fh_communication_mode l := tc_communication_mode (h_config (lv_hooks l));
  fh_profile_enabled l := hooks_kv_recovery_profile_enabled (lv_pid l) (lv_hooks l);
  fh_profile_config l := kv_recovery_profile_config (h_config (lv_hooks l));
  fh_reinitialize := live (λ _ _, reinitialize_after_fork b) |}.

(** [_profiles] in insertion order; a ledger shares the facade of the factory, so the
    copy it holds here is replaced when it is used.  An adapter is listed with the
    process whose ledger it writes to. *)
Record KVRecoveryObserverFactoryAdapter (H : Type) := mkFactory {
  fa_run_id : string;
  fa_hooks : H;
  fa_bridge : Bridge;
  fa_profiles : list (string * BoundedKVRecoveryProfileLedger H);
  fa_scheduler_observers : list (string * KVRecoverySchedulerAdapter) }.
Arguments mkFactory {_} _ _ _ _ _.
Arguments fa_run_id {_} _.
Arguments fa_hooks {_} _.
Arguments fa_bridge {_} _.
Arguments fa_profiles {_} _.
Arguments fa_scheduler_observers {_} _.

Section factory.
Context {H : Type} `{!LifecycleHooks H, !ProfileHooks H, !ProfileCounts H, !HookQueries H,
  !FactoryHooks H}.
#[local] Abbreviation Factory := (KVRecoveryObserverFactoryAdapter H).
#[local] Abbreviation Ledger := (BoundedKVRecoveryProfileLedger H).

Definition new_factory (run_id : string) (hooks : H) (bridge : Bridge) : res Factory :=
  ensure (_HEX32 run_id) (ValueError "run_id must be 32 lowercase hexadecimal characters") ;;
  Ok (mkFactory run_id hooks bridge [] []).

Definition profile_ledgers (f : Factory) : list Ledger := (fa_profiles f).*2.

Definition set_fa_hooks (h : H) (f : Factory) : Factory :=
  mkFactory (fa_run_id f) h (fa_bridge f) (fa_profiles f) (fa_scheduler_observers f).
Definition set_profiles (p : list (string * Ledger)) (f : Factory) : Factory :=
  mkFactory (fa_run_id f) (fa_hooks f) (fa_bridge f) p (fa_scheduler_observers f).
Definition set_observers (os : list (string * KVRecoverySchedulerAdapter)) (f : Factory) : Factory :=
  mkFactory (fa_run_id f) (fa_hooks f) (fa_bridge f) (fa_profiles f) os.

Definition factory_reinitialize_after_fork : M Factory unit :=
  f ← get;
  let '(ok, h) := fh_reinitialize (fa_hooks f) in
  modify (set_fa_hooks h) ;;
  lift (ensure ok (RuntimeError "trace exporter could not reinitialize after fork")).

Definition _runtime_config_enabled (f : Factory) : bool :=
  fh_enabled (fa_hooks f)
  && String.eqb (fh_communication_mode (fa_hooks f)) KV_RECOVERY_COMMUNICATION_MODE
  && fh_profile_enabled (fa_hooks f)
  && bool_decide (fh_profile_config (fa_hooks f) = Some (default_profile_config (fa_run_id f))).

(** [self._profiles.get(uuid)] *)
Fixpoint find_profile {A} (uuid : string) (p : list (string * A)) : option A :=
  match p with
  | [] => None
  | (key, g) :: p => if String.eqb key uuid then Some g else find_profile uuid p
  end.

Definition _profile_for_current_process : M Factory (option Ledger) :=
  f ← get;
  match hq_process_uuid (fa_hooks f) with
  | None => mret None
  | Some uuid =>
      match find_profile uuid (fa_profiles f) with
      | Some g => mret (Some g)
      | None =>
          g ← lift (new_ledger uuid MAX_PROFILE_DATA_RECORDS (Some (fa_hooks f)));
          modify (set_profiles (fa_profiles f ++ [(uuid, g)])) ;;
          mret (Some g)
      end
  end.

Definition create_scheduler_observer : M Factory (option KVRecoverySchedulerAdapter) :=
  f ← get;
  if negb (_runtime_config_enabled f) then mret None
  else
    profile ← _profile_for_current_process;
    match profile with
    | None => mret None
    | Some g =>
        observer ← lift (new_scheduler (fa_run_id f));
        modify (λ f, set_observers
          (fa_scheduler_observers f ++ [(lg_process_uuid g, observer)]) f) ;;
        mret (Some observer)
    end.

(** The world of an adapter: the bridge and the ledger of its process, over the facade *)
Definition adapter_world (uuid : string) (f : Factory) : option (Bridge * Ledger) :=
  g ← find_profile uuid (fa_profiles f); Some (fa_bridge f, set_lg_hooks (fa_hooks f) g).

Definition set_profile {A} (uuid : string) (g : A) (p : list (string * A)) : list (string * A) :=
  map (λ kv, if String.eqb kv.1 uuid then (kv.1, g) else kv) p.

Definition restore_world (uuid : string) (w : Bridge * Ledger) (f : Factory) : Factory :=
  mkFactory (fa_run_id f) (default (fa_hooks f) (lg_hooks w.2)) w.1
    (set_profile uuid w.2 (fa_profiles f)) (fa_scheduler_observers f).

(** [try: observer.close()  except Exception: log] *)
Definition close_observer (o : string * KVRecoverySchedulerAdapter) (f : Factory)
    : (string * KVRecoverySchedulerAdapter) * Factory :=
  match adapter_world o.1 f with
  | Some w => let '(_, (k, w)) := scheduler_close (o.2, w) in ((o.1, k), restore_world o.1 w f)
  | None => (o, f)
  end.

Fixpoint close_observers (os : list (string * KVRecoverySchedulerAdapter)) (f : Factory)
    : list (string * KVRecoverySchedulerAdapter) * Factory :=
  match os with
  | [] => ([], f)
  | o :: os =>
      let '(o, f) := close_observer o f in
      let '(os, f) := close_observers os f in (o :: os, f)
  end.

Definition close_for_engine_failure (f : Factory) : Factory :=
  let '(os, f) := close_observers (fa_scheduler_observers f) f in
  let f := set_observers os f in
  set_fa_hooks (hq_close (fa_hooks f)) f.

(** The sink of the observer is the worker adapter; [O] is the host's observer. *)
Definition create_worker_observer {O : Type}
    (bounded_worker_observer_type :
       string → string → string → KVRecoveryWorkerEvidenceAdapter → res O)
    : M Factory (option O) :=
  f ← get;
  if negb (_runtime_config_enabled f) then mret None
  else
    profile ← _profile_for_current_process;
    match hq_process_uuid (fa_hooks f), hq_clock_domain_id (fa_hooks f), profile with
    | Some uuid, Some domain, Some g =>
        sink ← lift (new_worker (fa_run_id f));
        match bounded_worker_observer_type uuid (fa_run_id f) domain sink with
        | Ok o => mret (Some o)
        | Raise _ =>
            f ← get;
            let '(r, g) := ledger_drop "recovery_event" PNone "serialization_failure"
              (set_lg_hooks (fa_hooks f) g) in
            modify (restore_world uuid (fa_bridge f, g)) ;;
            _ ← lift r;
            mret None
        end
    | _, _, _ => mret None
    end.
End factory.

(** ** The wiring *)

Section wiring.
Context {H : Type} `{!LifecycleHooks H, !ProfileHooks H, !ProfileCounts H, !HookQueries H,
  !FactoryHooks H}.
#[local] Abbreviation Factory := (KVRecoveryObserverFactoryAdapter H).
#[local] Abbreviation Ledger := (BoundedKVRecoveryProfileLedger H).

(** One ledger per process, and every adapter writes to a ledger of the roster. *)
Record FactoryInv (f : Factory) : Prop := {
  fi_unique : NoDup (fa_profiles f).*1;
  fi_named : Forall (λ kv : string * Ledger, lg_process_uuid kv.2 = kv.1) (fa_profiles f);
  fi_listed : Forall (λ o : string * KVRecoverySchedulerAdapter, o.1 ∈ (fa_profiles f).*1)
    (fa_scheduler_observers f) }.

Lemma find_profile_some {A} uuid (p : list (string * A)) g :
  find_profile uuid p = Some g → (uuid, g) ∈ p.
Proof.
  induction p as [|[key g'] p IH]; simpl; [done|]. destruct (String.eqb key uuid) eqn:E.
  - apply String.eqb_eq in E as ->. intros [= ->]. by left.
  - intros Hf. right. by apply IH.
Qed.

Lemma find_profile_none {A} uuid (p : list (string * A)) :
  find_profile uuid p = None → uuid ∉ p.*1.
Proof.
  induction p as [|[key g'] p IH]; simpl; [intros _; apply not_elem_of_nil|].
  destruct (String.eqb_spec key uuid) as [->|Hn]; [done|].
  intros Hf. apply not_elem_of_cons. split; [done|by apply IH].
Qed.

Lemma find_profile_in {A} uuid (p : list (string * A)) :
  uuid ∈ p.*1 → is_Some (find_profile uuid p).
Proof.
  intros Hu. destruct (find_profile uuid p) eqn:E; [done|]. by apply find_profile_none in E.
Qed.

Lemma set_profile_keys {A} uuid (g : A) p : (set_profile uuid g p).*1 = p.*1.
Proof.
  unfold set_profile. induction p as [|[key g'] p IH]; [done|]. cbn [map fmap list_fmap].
  f_equal; [by destruct (String.eqb _ uuid)|exact IH].
Qed.

Lemma set_profile_named uuid (g : Ledger) p :
  lg_process_uuid g = uuid → Forall (λ kv : string * Ledger, lg_process_uuid kv.2 = kv.1) p →
  Forall (λ kv : string * Ledger, lg_process_uuid kv.2 = kv.1) (set_profile uuid g p).
Proof.
  intros Hg Hp. apply Forall_map. eapply Forall_impl; [exact Hp|]. intros [key g'] Hk.
  simpl in *. destruct (String.eqb_spec key uuid); simpl; congruence.
Qed.

Lemma profile_inv f r f' :
  FactoryInv f → _profile_for_current_process f = (r, f') →
  FactoryInv f' ∧ ∀ g, r = Ok (Some g) → lg_process_uuid g ∈ (fa_profiles f').*1 ∧
    hq_process_uuid (fa_hooks f) = Some (lg_process_uuid g).
Proof.
  intros Hf. unfold _profile_for_current_process. rewrite M_run. cbn [get].
  destruct (hq_process_uuid (fa_hooks f)) as [uuid|] eqn:Eu; [|intros [= <- <-]; by split].
  destruct (find_profile uuid (fa_profiles f)) as [g|] eqn:E.
  - intros [= <- <-]. split; [done|]. intros g' [= <-]. apply find_profile_some in E.
    pose proof (proj1 (Forall_forall _ _) (fi_named _ Hf) _ E) as Hn. simpl in Hn. rewrite Hn.
    split; [|done]. apply list_elem_of_fmap. by exists (uuid, g).
  - rewrite M_run. unfold lift. destruct (new_ledger _ _ _) as [g|e] eqn:Eg; [|intros [= <- <-]; by split].
    intros [= <- <-]. assert (lg_process_uuid g = uuid) as Hg.
    { unfold new_ledger in Eg. inv_ok. done. }
    destruct Hf as [Hu Hn Hl]. split.
    + constructor; simpl.
      * rewrite fmap_app. apply NoDup_app. split; [done|]. split; [|apply NoDup_singleton].
        intros x Hx ->%list_elem_of_singleton. by apply find_profile_none in E.
      * apply Forall_app. split; [done|]. by apply Forall_singleton.
      * eapply Forall_impl; [exact Hl|]. intros o Ho. rewrite fmap_app. apply elem_of_app. by left.
    + intros g' [= <-]. simpl. rewrite Hg. split; [|done]. rewrite fmap_app.
      apply elem_of_app. right. by left.
Qed.

Lemma FactoryInv_observer f uuid k :
  FactoryInv f → uuid ∈ (fa_profiles f).*1 →
  FactoryInv (set_observers (fa_scheduler_observers f ++ [(uuid, k)]) f).
Proof.
  intros [Hu Hn Hl] Hin. constructor; try done. simpl. apply Forall_app. split; [done|].
  by apply Forall_singleton.
Qed.

Lemma create_scheduler_inv f : FactoryInv f → FactoryInv (create_scheduler_observer f).2.
Proof.
  intros Hf. unfold create_scheduler_observer. rewrite M_run. cbn [get].
  destruct (negb _); [done|]. rewrite M_run.
  destruct (_profile_for_current_process f) as [r f'] eqn:E.
  apply profile_inv in E as [Hf' Hg]; [|done]. destruct r as [[g|]|e]; [|done..].
  rewrite M_run. unfold lift. destruct (new_scheduler _); [|done].
  by apply FactoryInv_observer; [|apply Hg].
Qed.

Lemma FactoryInv_restore f uuid g b :
  FactoryInv f → lg_process_uuid g = uuid → FactoryInv (restore_world uuid (b, g) f).
Proof.
  intros [Hu Hn Hl] Hg. constructor; simpl; rewrite ?set_profile_keys; try done.
  by apply set_profile_named.
Qed.

(** A drop goes to the facade. *)
Lemma ledger_drop_hooked t ts reason (g : Ledger) h :
  lg_hooks g = Some h →
  ledger_drop t ts reason g =
    (Ok (default (-1) (ph_drop t ts reason h).1), set_lg_hooks (ph_drop t ts reason h).2 g).
Proof.
  intros Hh. unfold ledger_drop. rewrite M_run. cbn [get]. rewrite Hh.
  by destruct (ph_drop t ts reason h) as [r h'].
Qed.

Lemma create_worker_inv {O} (build : string → string → string → KVRecoveryWorkerEvidenceAdapter → res O) f :
  FactoryInv f → FactoryInv (create_worker_observer build f).2.
Proof.
  intros Hf. unfold create_worker_observer. rewrite M_run. cbn [get].
  destruct (negb _); [done|]. rewrite M_run.
  destruct (_profile_for_current_process f) as [r f'] eqn:E.
  apply profile_inv in E as [Hf' Hg]; [|done]. destruct r as [r|e]; [|done].
  destruct (hq_process_uuid _) as [uuid|]; [|done]. destruct (hq_clock_domain_id _) as [dom|]; [|done].
  destruct r as [g|]; [|done]. rewrite M_run. unfold lift. destruct (new_worker _); [|done].
  destruct (build _ _ _ _); [done|]. rewrite M_run. cbn [get].
  rewrite (ledger_drop_hooked "recovery_event" PNone "serialization_failure"
    (set_lg_hooks (fa_hooks f') g) (fa_hooks f') eq_refl).
  rewrite M_run. cbn [modify]. apply FactoryInv_restore; [done|]. simpl.
  destruct (Hg g eq_refl) as [_ Hown]. by injection Hown.
Qed.

(** *** Closing *)

(** [n] losses reported to the facade *)
Fixpoint drops (n : nat) (h : H) : H :=
  match n with
  | O => h
  | S n => drops n (ph_drop "recovery_event" PNone "serialization_failure" h).2
  end.

(** The loop of [reset] in a world whose ledger has the facade: nothing raises, and the
    facade takes a loss for each episode that wrote its preempt milestone. *)
Lemma reset_loop_hooked l (k : KVRecoverySchedulerAdapter) (b : Bridge) (g : Ledger) h :
  lg_hooks g = Some h →
    for_each (λ kv : (string * Z) * _SchedulerEpisode,
      if is_some_b (se_preempt_profile kv.2) then lose "recovery_event" None else tret tt) l
      (k, (b, g)) = (Ok (Some tt), (k, (b, set_lg_hooks (drops (preempted_in l) h) g))).
Proof.
  revert g h. induction l as [|kv l IH]; intros g h Hh; cbn [for_each].
  - destruct g. simpl in *. by subst.
  - unfold tbind at 1, preempted_in. cbn [List.filter]. destruct (is_some_b _).
    + unfold lose, lose_for. cbn [py_opt snd]. cbn -[ledger_drop for_each drops]. unfold beside.
      cbn -[ledger_drop for_each drops]. rewrite (ledger_drop_hooked _ _ _ g h Hh).
      exact (IH (set_lg_hooks _ g) _ eq_refl).
    + cbn [tret]. by apply (IH g h).
Qed.

(** What the close of an adapter does to the facade *)
Definition after_close (k : KVRecoverySchedulerAdapter) (h : H) : H :=
  if sc_closed k then h else hq_close (drops (preempted_in (map_to_list (sc_episodes k))) h).

(** A closed adapter holds nothing. *)
Definition closed_adapter (k : KVRecoverySchedulerAdapter) : KVRecoverySchedulerAdapter :=
  if sc_closed k then k else mkScheduler (sc_run_id k) ∅ ∅ true.

Lemma close_hooked (k : KVRecoverySchedulerAdapter) (b : Bridge) (g : Ledger) h :
  lg_hooks g = Some h → ∃ r,
    scheduler_close (k, (b, g)) = (r, (closed_adapter k, (b, set_lg_hooks (after_close k h) g))).
Proof.
  intros Hh. unfold scheduler_close, scheduler_open, reset, closed_adapter, after_close.
  unfold tbind, self, proceed. destruct (sc_closed k) eqn:Ec; cbn -[for_each map_to_list drops].
  - rewrite Ec. eexists. destruct g. simpl in *. by subst.
  - rewrite Ec. cbn -[for_each map_to_list drops].
    rewrite (reset_loop_hooked (map_to_list (sc_episodes k)) k b g h Hh). cbn -[drops map_to_list].
    by eexists.
Qed.

(** The same ledger but for its copy of the facade *)
Definition same_ledger (g g' : Ledger) : Prop :=
  lg_process_uuid g' = lg_process_uuid g ∧ lg_capacity g' = lg_capacity g ∧
  lg_next_record_seq g' = lg_next_record_seq g ∧ lg_records g' = lg_records g ∧
  lg_losses g' = lg_losses g.

Definition same_ledgers : list (string * Ledger) → list (string * Ledger) → Prop :=
  Forall2 (λ kv kv', kv'.1 = kv.1 ∧ same_ledger kv.2 kv'.2).

Lemma same_ledgers_refl p : same_ledgers p p.
Proof. apply Forall_Forall2_diag, Forall_true. intros kv. by split_and!. Qed.

Lemma same_ledgers_trans p1 p2 p3 : same_ledgers p1 p2 → same_ledgers p2 p3 → same_ledgers p1 p3.
Proof.
  intros H1 H2. eapply Forall2_trans; [|exact H1|exact H2]. unfold same_ledger.
  intros [] [] [] (?&?&?&?&?&?) (?&?&?&?&?&?). simpl in *. split_and!; congruence.
Qed.

Lemma same_ledgers_set uuid g g' p :
  NoDup p.*1 → (uuid, g) ∈ p → same_ledger g g' → same_ledgers p (set_profile uuid g' p).
Proof.
  intros Hn Hin Hg. apply Forall2_fmap_r, Forall_Forall2_diag, Forall_forall.
  intros [key g0] Hkv. simpl. destruct (String.eqb_spec key uuid) as [->|]; [|by split_and!].
  split; [done|]. simpl. assert (g0 = g) as ->; [|done].
  apply list_elem_of_lookup in Hin as [i Hi], Hkv as [j Hj].
  assert (i = j) as ->; [|congruence].
  eapply NoDup_lookup; [exact Hn| |]; rewrite list_lookup_fmap; [by rewrite Hi|by rewrite Hj].
Qed.

Lemma close_observer_spec o f :
  FactoryInv f → o.1 ∈ (fa_profiles f).*1 → ∃ f',
    close_observer o f = ((o.1, closed_adapter o.2), f') ∧ FactoryInv f' ∧
    same_ledgers (fa_profiles f) (fa_profiles f') ∧
    fa_hooks f' = after_close o.2 (fa_hooks f) ∧ fa_bridge f' = fa_bridge f.
Proof.
  intros Hf Ho. unfold close_observer, adapter_world.
  destruct (find_profile_in _ _ Ho) as [g Hg]. rewrite Hg. cbn -[scheduler_close].
  destruct (close_hooked o.2 (fa_bridge f) (set_lg_hooks (fa_hooks f) g) (fa_hooks f) eq_refl)
    as (r & ->).
  apply find_profile_some in Hg.
  eexists. split; [reflexivity|]. split_and!; [| |done|done].
  - apply FactoryInv_restore; [done|].
    exact (proj1 (Forall_forall _ _) (fi_named _ Hf) _ Hg).
  - eapply same_ledgers_set; [apply Hf|exact Hg|done].
Qed.

Lemma same_ledgers_keys p p' : same_ledgers p p' → p'.*1 = p.*1.
Proof. induction 1 as [|kv kv' p p' [E _] _ IH]; [done|]. by rewrite !fmap_cons, E, IH. Qed.

(** The facade after the adapters were closed one after the other *)
Definition after_closes (os : list (string * KVRecoverySchedulerAdapter)) (h : H) : H :=
  foldl (λ h o, after_close o.2 h) h os.

Lemma close_observers_spec os f :
  FactoryInv f → Forall (λ o : string * KVRecoverySchedulerAdapter, o.1 ∈ (fa_profiles f).*1) os →
  ∃ f', close_observers os f = (map (λ o, (o.1, closed_adapter o.2)) os, f') ∧ FactoryInv f' ∧
    same_ledgers (fa_profiles f) (fa_profiles f') ∧
    fa_hooks f' = after_closes os (fa_hooks f) ∧ fa_bridge f' = fa_bridge f.
Proof.
  revert f. induction os as [|o os IH]; intros f Hf Hos; cbn [close_observers map].
  { exists f. split_and!; try done. apply same_ledgers_refl. }
  apply Forall_cons in Hos as [Ho Hos].
  destruct (close_observer_spec o f Hf Ho) as (f1 & -> & Hf1 & Hs1 & Hh1 & Hb1).
  destruct (IH f1 Hf1) as (f2 & -> & Hf2 & Hs2 & Hh2 & Hb2).
  { by rewrite (same_ledgers_keys _ _ Hs1). }
  exists f2. split_and!; [done|done|by eapply same_ledgers_trans| |congruence].
  rewrite Hh2, Hh1. done.
Qed.

Lemma close_failure_spec f :
  FactoryInv f →
  let f' := close_for_engine_failure f in
  fa_scheduler_observers f' = map (λ o, (o.1, closed_adapter o.2)) (fa_scheduler_observers f) ∧
  same_ledgers (fa_profiles f) (fa_profiles f') ∧
  fa_hooks f' = hq_close (after_closes (fa_scheduler_observers f) (fa_hooks f)) ∧
  fa_bridge f' = fa_bridge f ∧ FactoryInv f'.
Proof.
  intros Hf. cbv zeta. unfold close_for_engine_failure.
  destruct (close_observers_spec (fa_scheduler_observers f) f Hf (fi_listed _ Hf))
    as (f' & -> & [Hu Hn Hl] & Hs & Hh & Hb).
  split_and!; [done|done|simpl; by rewrite Hh|done|]. constructor; [done|done|]. simpl.
  apply Forall_map. rewrite (same_ledgers_keys _ _ Hs).
  eapply Forall_impl; [apply (fi_listed _ Hf)|]. done.
Qed.

(** ** Runs *)

(** What may happen to a factory; between its own calls the adapters act on the facade
    and on the bridge, and the engine on the listed adapters. *)
Inductive factory_step {O : Type} : Factory → Factory → Prop :=
| step_fork f : factory_step f (factory_reinitialize_after_fork f).2
| step_scheduler f : factory_step f (create_scheduler_observer f).2
| step_worker (build : string → string → string → KVRecoveryWorkerEvidenceAdapter → res O) f :
    factory_step f (create_worker_observer build f).2
| step_ambient f h b (act : KVRecoverySchedulerAdapter → KVRecoverySchedulerAdapter) :
    factory_step f (mkFactory (fa_run_id f) h b (fa_profiles f)
      (map (λ o, (o.1, act o.2)) (fa_scheduler_observers f)))
| step_close f : factory_step f (close_for_engine_failure f).

Inductive factory_reachable {O : Type} (run_id : string) : Factory → Prop :=
| factory_new h b f : new_factory run_id h b = Ok f → factory_reachable run_id f
| factory_next f f' : factory_reachable run_id f → factory_step (O:=O) f f' →
    factory_reachable run_id f'.

Lemma factory_invariant {O} run_id f : factory_reachable (O:=O) run_id f → FactoryInv f.
Proof.
  induction 1 as [h b f Hn|f f' _ IH Hs].
  - unfold new_factory in Hn. inv_ok. constructor; [apply NoDup_nil_2|constructor..].
  - destruct Hs as [f|f|build f|f h b act|f].
    + unfold factory_reinitialize_after_fork. rewrite M_run. cbn [get].
      destruct (fh_reinitialize _) as [ok h]. rewrite M_run. cbn [modify].
      destruct IH. by constructor.
    + by apply create_scheduler_inv.
    + by apply create_worker_inv.
    + destruct IH as [Hu Hn Hl]. constructor; [done|done|]. simpl. by apply Forall_map.
    + by destruct (close_failure_spec f IH) as (_ & _ & _ & _ & ?).
Qed.

(** C19. Nothing is left open when the engine core dies.  In every run of a factory
    there is at most one ledger for a process, and [close_for_engine_failure] closes
    every scheduler adapter it built: an adapter that was open has lost its episodes and
    its cache, and the list of the adapters is otherwise the same. The facade has taken,
    adapter by adapter in the order they were built, one loss for every episode of an
    open adapter that had written its preempt milestone, then the close of that adapter,
    and it is closed last. Every process keeps its own ledger, unchanged but for its copy
    of the facade, and the bridge is untouched. *)
Theorem engine_failure_closes {O} run_id f :
  factory_reachable (O:=O) run_id f →
  let f' := close_for_engine_failure f in
  NoDup (fa_profiles f).*1 ∧
  Forall2 (λ o o' : string * KVRecoverySchedulerAdapter,
      o'.1 = o.1 ∧ sc_run_id o'.2 = sc_run_id o.2 ∧ sc_closed o'.2 = true ∧
      (sc_closed o.2 = false → sc_episodes o'.2 = ∅ ∧ sc_logical_ids o'.2 = ∅))
    (fa_scheduler_observers f) (fa_scheduler_observers f') ∧
  fa_hooks f' = hq_close (foldl (λ h o,
      if sc_closed o.2 then h
      else hq_close (drops (preempted_in (map_to_list (sc_episodes o.2))) h))
    (fa_hooks f) (fa_scheduler_observers f)) ∧
  Forall2 (λ kv kv' : string * Ledger, kv'.1 = kv.1 ∧ lg_process_uuid kv'.2 = kv'.1 ∧
      same_ledger kv.2 kv'.2) (fa_profiles f) (fa_profiles f') ∧
  fa_bridge f' = fa_bridge f.
Proof.
  intros Hf%factory_invariant. cbv zeta. split; [apply Hf|].
  destruct (close_failure_spec f Hf) as (-> & Hs & Hh & Hb & Hf').
  split; [|split; [exact Hh|split; [|exact Hb]]].
  - apply Forall2_fmap_r, Forall_Forall2_diag, Forall_true. intros o. simpl. unfold closed_adapter.
    destruct (sc_closed o.2) eqn:E; by split_and!.
  - pose proof (fi_named _ Hf') as Hn. induction Hs as [|kv kv' p p' [E Hg] _ IH]; [constructor|].
    apply Forall_cons in Hn as [Hn Hns]. constructor; [by split_and!|by apply IH].
Qed.
End wiring.

(** ** An example: an engine that dies with a preempted request *)

#[local] Instance example_factory_hooks : FactoryHooks LiveHooks := live_factory_hooks example_boot.

Definition new_engine : KVRecoveryObserverFactoryAdapter LiveHooks :=
  mkFactory example_trace recovery_live (mkBridge 16 ∅ ∅ ∅) [] [].

Definition running_engine : KVRecoveryObserverFactoryAdapter LiveHooks :=
  (create_scheduler_observer new_engine).2.

(** The adapter of the engine has gone as far as [returned_run]. *)
Definition dying_engine : KVRecoveryObserverFactoryAdapter LiveHooks :=
  mkFactory (fa_run_id running_engine) (fa_hooks running_engine) (fa_bridge running_engine)
    (fa_profiles running_engine)
    (map (λ o, (o.1, returned_run.1)) (fa_scheduler_observers running_engine)).

Lemma engine_failure_closes_witness :
  factory_reachable (O:=unit) example_trace dying_engine ∧
  map (λ o, size (sc_episodes o.2)) (fa_scheduler_observers dying_engine) = [1%nat] ∧
  Forall2 (λ o o' : string * KVRecoverySchedulerAdapter,
      o'.1 = o.1 ∧ sc_run_id o'.2 = sc_run_id o.2 ∧ sc_closed o'.2 = true ∧
      (sc_closed o.2 = false → sc_episodes o'.2 = ∅ ∧ sc_logical_ids o'.2 = ∅))
    (fa_scheduler_observers dying_engine)
    (fa_scheduler_observers (close_for_engine_failure dying_engine)).
Proof.
  assert (factory_reachable (O:=unit) example_trace dying_engine) as HR.
  { eapply factory_next; [|apply (step_ambient running_engine (fa_hooks running_engine)
      (fa_bridge running_engine) (λ _, returned_run.1))].
    eapply factory_next; [|apply step_scheduler].
    eapply (factory_new example_trace recovery_live (mkBridge 16 ∅ ∅ ∅)). reflexivity. }
  split; [exact HR|]. split; [vm_compute; reflexivity|].
  revert HR. generalize dying_engine. intros f HR.
  exact (proj1 (proj2 (engine_failure_closes (O:=unit) example_trace f HR))).
Defined.
