(* ===== verification/Observers.v ===== *)
(** * issue19_lifecycle.py and native_event_bus.py: observers of the runtime

    [Issue19LifecycleObserver] feeds the lifecycle bridge and the hooks from the
    request callbacks of the runtime; [NativeLifecycleEventSink] translates the
    events of the host's event bus.  Both are fail-open: a method returns nothing
    and an exception inside it leaves what was done before it.  A reading of the
    injected clock is an argument, an exception included. *)

From Stdlib Require Import ZArith Lia Ascii String.
From stdpp Require Import base list strings gmap fin_maps sorting.
From S2P Require Import Prelude PyValue Sha256 RuntimeProtocol ProfileProtocol SinkState.
From S2P Require Import TraceSink SinkSteps Hooks HooksInterface LifecycleBridge BridgeInvariant BridgeSteps BridgeProps.

(** ** The issue 19 observer *)

Definition TERMINAL_CAUSES :=
  ["complete"; "client_disconnect"; "client_timeout"; "explicit_cancel"; "engine_failure"; "error"].

Definition RESOURCE_TRANSITIONS :=
  ["acquire"; "transfer_pending"; "release"; "policy_retain"; "invalidate"].

Definition _RESOURCE_EVENTS (transition : string) : string :=
  if String.eqb transition "acquire" then "resource_acquired"
  else if String.eqb transition "transfer_pending" then "resource_transfer_pending"
  else if String.eqb transition "release" then "resource_released"
  else if String.eqb transition "policy_retain" then "resource_policy_retained"
  else "resource_invalidated".

Record ResourceObservation := mkResource {
  ro_runtime_request_id : string;
  ro_resource_type : string;
  ro_resource_id : string;
  ro_transition : string;
  ro_worker_generation : string;
  ro_resource_units : Z;
  ro_timestamp_ns : Z }.

Record Issue19LifecycleObserver := mkObserver {
  ob_run_id : string;
  ob_capacity : Z;
  ob_active_requests : gset string;
  ob_abort_attempts : gmap string Z;
  ob_resource_observations : list ResourceObservation }.

Definition set_active_requests (a : gset string) (o : Issue19LifecycleObserver) :=
  mkObserver (ob_run_id o) (ob_capacity o) a (ob_abort_attempts o) (ob_resource_observations o).
Definition set_abort_attempts (a : gmap string Z) (o : Issue19LifecycleObserver) :=
  mkObserver (ob_run_id o) (ob_capacity o) (ob_active_requests o) a (ob_resource_observations o).
Definition set_observations (a : list ResourceObservation) (o : Issue19LifecycleObserver) :=
  mkObserver (ob_run_id o) (ob_capacity o) (ob_active_requests o) (ob_abort_attempts o) a.

Definition initial_observer (run_id : string) (capacity : Z) : Issue19LifecycleObserver :=
  mkObserver run_id capacity ∅ ∅ [].

(** [hashlib.sha256(f"{run_id}\0{x}".encode()).hexdigest()[:32]] *)
Definition observed_trace_id (run_id x : string) : string :=
  str_take 32 (sha256_hexdigest (utf8_encode (run_id +:+ String Ascii.zero x))).

(** [l[:n]] *)
Definition py_take {A} (n : Z) (l : list A) : list A :=
  take (if 0 <=? n then Z.to_nat n else (length l - Z.to_nat (- n))%nat) l.

(** [str(x)] of an optional integer *)
Definition str_of_optional (x : option Z) : string :=
  match x with Some z => str_of_Z z | None => "None" end.

Definition py_optional (x : option Z) : pyval := match x with Some z => PInt z | None => PNone end.

Definition worker_generation (name : string) (pid : option Z) : string :=
  name +:+ ":" +:+ str_of_optional pid.

Definition worker_exit_draft (run_id name : string) (pid code : option Z) (timestamp_ns : Z)
    : EventDraft :=
  let generation := worker_generation name pid in
  let trace_id := observed_trace_id run_id generation in
  mkEventDraft trace_id (root_lifecycle trace_id) None "root_request" "frontend" "error"
    (PInt timestamp_ns) PNone None None [] PNone PNone PNone None
    (Some [("terminal_cause", PStr "engine_failure"); ("worker_generation", PStr generation);
           ("worker_exit_code", py_optional code)]).

Definition resource_draft (run_id : string) (o : ResourceObservation) : EventDraft :=
  let trace_id := observed_trace_id run_id (ro_runtime_request_id o) in
  mkEventDraft trace_id (trace_id +:+ ":e:0") (Some (root_lifecycle trace_id))
    "engine_sample" "engine_core" (_RESOURCE_EVENTS (ro_transition o))
    (PInt (ro_timestamp_ns o)) (PInt 0) None None [] (PInt 0) PNone PNone None
    (Some [("runtime_request_id", PStr (ro_runtime_request_id o));
           ("resource_type", PStr (ro_resource_type o)); ("resource_id", PStr (ro_resource_id o));
           ("resource_transition", PStr (ro_transition o));
           ("resource_units", PInt (ro_resource_units o));
           ("worker_generation", PStr (ro_worker_generation o))]).

Section observer.
Context {H : Type} `{!LifecycleHooks H}.

Definition ObserverState : Type := Issue19LifecycleObserver * (Bridge * H).

(** The snapshot: active requests and abort attempts in order, and a count *)
Definition observer_snapshot (s : ObserverState) : list string * list (string * Z) * Z :=
  (merge_sort String.le (elements (ob_active_requests s.1)),
   merge_sort key_le (map_to_list (ob_abort_attempts s.1)),
   Z.of_nat (length (ob_resource_observations s.1))).

Definition request_started (request : string) (clock : res Z) (s : ObserverState)
    : ObserverState :=
  match clock with
  | Raise _ => s
  | Ok timestamp_ns =>
      let '(r, bs) := register_runtime_request (ob_run_id s.1) request timestamp_ns s.2 in
      match r with
      | Ok (Some _) =>
          (if Z.of_nat (size (ob_active_requests s.1)) <? ob_capacity s.1
           then set_active_requests ({[request]} ∪ ob_active_requests s.1) s.1 else s.1, bs)
      | _ => (s.1, bs)
      end
  end.

Definition abort_attempt (request : string) (s : ObserverState) : ObserverState :=
  let a := ob_abort_attempts s.1 in
  if bool_decide (is_Some (a !! request)) || (Z.of_nat (size a) <? ob_capacity s.1) then
    (set_abort_attempts (<[request := default 0 (a !! request) + 1]> a) s.1, s.2)
  else s.

Definition observer_request_terminal (request cause : string) (generated : Z) (clock : res Z)
    (s : ObserverState) : ObserverState :=
  if negb (str_in cause TERMINAL_CAUSES) then s
  else
    let bs := match clock with
              | Ok timestamp_ns => (emit_runtime_terminal request cause timestamp_ns generated s.2).2
              | Raise _ => s.2
              end in
    (set_active_requests (ob_active_requests s.1 ∖ {[request]}) s.1, bs).

(** [clocks] are the readings, one for each request. *)
Definition engine_failure (requests : list string) (clocks : nat → res Z) (s : ObserverState)
    : ObserverState :=
  foldl (λ s ir, observer_request_terminal ir.2 "engine_failure" 0 (clocks ir.1) s) s
    (imap pair (py_take (ob_capacity s.1) requests)).

Definition worker_generation_exit (name : string) (pid code : option Z) (clock : res Z)
    (s : ObserverState) : ObserverState :=
  match clock with
  | Raise _ => s
  | Ok timestamp_ns =>
      let '(_, h) := lh_emit_event (worker_exit_draft (ob_run_id s.1) name pid code timestamp_ns)
                       s.2.2 in
      (s.1, (s.2.1, h))
  end.

Definition resource_transition (request rtype rid transition generation : string) (units : pyval)
    (clock : res Z) (s : ObserverState) : ObserverState :=
  match units, clock with
  | PInt units, Ok timestamp_ns =>
      if negb (str_in transition RESOURCE_TRANSITIONS) || (units <? 1) then s
      else
        let o := mkResource request rtype rid transition generation units timestamp_ns in
        if ob_capacity s.1 <=? Z.of_nat (length (ob_resource_observations s.1)) then s
        else
          let '(r, h) := lh_emit_event (resource_draft (ob_run_id s.1) o) s.2.2 in
          (match r with
           | Some _ => set_observations (ob_resource_observations s.1 ++ [o]) s.1
           | None => s.1
           end, (s.2.1, h))
  | _, _ => s
  end.
End observer.

(** ** What the observer keeps *)

Inductive observer_call :=
| ObStarted (request : string) (clock : res Z)
| ObAbort (request : string)
| ObTerminal (request cause : string) (generated : Z) (clock : res Z)
| ObEngineFailure (requests : list string) (clocks : nat → res Z)
| ObWorkerExit (name : string) (pid code : option Z) (clock : res Z)
| ObResource (request rtype rid transition generation : string) (units : pyval) (clock : res Z).

Definition run_observer {H} `{!LifecycleHooks H} (c : observer_call) (s : ObserverState (H:=H))
    : ObserverState :=
  match c with
  | ObStarted r clock => request_started r clock s
  | ObAbort r => abort_attempt r s
  | ObTerminal r cause n clock => observer_request_terminal r cause n clock s
  | ObEngineFailure rs clocks => engine_failure rs clocks s
  | ObWorkerExit name pid code clock => worker_generation_exit name pid code clock s
  | ObResource r t i tr g u clock => resource_transition r t i tr g u clock s
  end.

(** The observation was accepted by the hooks and is well formed. *)
Definition observed (run_id : string) (L : list emission) (o : ResourceObservation) : Prop :=
  str_in (ro_transition o) RESOURCE_TRANSITIONS = true ∧ 1 ≤ ro_resource_units o ∧
  ∃ id, EmEvent (resource_draft run_id o) id ∈ L.

Record ObserverInv (o : Issue19LifecycleObserver) (b : Bridge) (L : list emission) : Prop := {
  oi_bridge : BridgeInv b L;
  oi_active : ob_active_requests o ⊆ dom (br_states b);
  oi_active_bound : Z.of_nat (size (ob_active_requests o)) ≤ ob_capacity o;
  oi_attempts_bound : Z.of_nat (size (ob_abort_attempts o)) ≤ ob_capacity o;
  oi_attempts r n : ob_abort_attempts o !! r = Some n → 1 ≤ n;
  oi_resources_bound : Z.of_nat (length (ob_resource_observations o)) ≤ ob_capacity o;
  oi_resources : Forall (observed (ob_run_id o) L) (ob_resource_observations o) }.

Lemma observed_mono run_id L L' o : L ⊆ L' → observed run_id L o → observed run_id L' o.
Proof. intros HL (? & ? & id & ?). split_and!; eauto. Qed.

(** The bridge and the log moved, the observer's tables did not. *)
Lemma oi_move o b b' L L' :
  ObserverInv o b L → BridgeInv b' L' → L ⊆ L' → ob_active_requests o ⊆ dom (br_states b') →
  ObserverInv o b' L'.
Proof. intros [] ? ? ?. constructor; eauto using Forall_impl, observed_mono. Qed.

Section inv.
Context {H : Type} `{!LifecycleHooks H, !LifecycleHooksLaws H}.
Implicit Types s : ObserverState (H:=Recorded H).

Definition observer_inv s : Prop := ObserverInv s.1 s.2.1 (rec_log s.2.2).

Lemma inv_started r clock s : observer_inv s → observer_inv (request_started r clock s).
Proof.
  destruct s as [o [b [h L]]]. intros HI. unfold request_started. destruct clock as [t|]; [|done].
  pose proof (oi_bridge _ _ _ HI) as HB. simpl in HB.
  destruct (str_forall (λ c, code c <? 128) (ob_run_id o)) eqn:Ha.
  - destruct (kept_register (H:=H) (ob_run_id o) r t b L Ha HB h)
      as (x & b' & h' & L' & E & (HB' & HL & _) & Hr & Hdom).
    cbn [fst snd]. rewrite E.
    assert (ObserverInv o b' L') as HO.
    { eapply oi_move; [exact HI|done|done|]. pose proof (oi_active _ _ _ HI). simpl in *. set_solver. }
    destruct x as [[]|]; [|done]. destruct (Z.ltb_spec (Z.of_nat (size (ob_active_requests o))) (ob_capacity o));
      [|done].
    destruct HO. constructor; try done; simpl.
    + apply union_least; [|done]. apply singleton_subseteq_l, elem_of_dom, Hr. by eexists.
    + pose proof (size_union_alt {[r]} (ob_active_requests o)) as Hsz.
      rewrite Hsz, size_singleton.
      assert (size (ob_active_requests o ∖ {[r]}) ≤ size (ob_active_requests o))%nat
        by (apply subseteq_size; set_solver). lia.
  - pose proof (call_raises (H:=H) (CallRegister (ob_run_id o) r t) (b, mkRecorded h L) Ha) as E.
    cbn [run_call fst snd] in *.
    destruct (register_runtime_request _ _ _ _) as [x bs] eqn:Er. simpl in E. subst bs.
    destruct x as [[[]|]|]; [|done|done]. exfalso.
    unfold register_runtime_request, tbind, proceed in Er.
    destruct (_is_bounded_printable_ascii _ _); [|done].
    unfold built, runtime_trace_id in Er. rewrite str_forall_app, Ha in Er. done.
Qed.

Lemma inv_abort r s : observer_inv s → observer_inv (abort_attempt r s).
Proof.
  destruct s as [o [b [h L]]]. intros []. unfold abort_attempt. simpl in *.
  destruct (_ || _) eqn:E; [|by constructor]. constructor; try done; simpl.
  - rewrite map_size_insert. destruct (ob_abort_attempts o !! r) eqn:Er; [done|].
    rewrite bool_decide_eq_false_2 in E by (by intros [? ?]). simpl in E. bool_prop. lia.
  - intros r' n. rewrite lookup_insert_Some. intros [[-> <-]|[_ ?]]; [|eauto].
    destruct (ob_abort_attempts o !! r') as [n|] eqn:Er; simpl; [|lia].
    specialize (oi_attempts0 _ _ Er). lia.
Qed.

Lemma inv_terminal r cause n clock s :
  observer_inv s → observer_inv (observer_request_terminal r cause n clock s).
Proof.
  destruct s as [o [b [h L]]]. intros HI. unfold observer_request_terminal.
  destruct (negb (str_in cause TERMINAL_CAUSES)); [done|].
  assert (∀ b' L', BridgeInv b' L' → L ⊆ L' → (b' = b ∨ b' = retire r b) →
    ObserverInv (set_active_requests (ob_active_requests o ∖ {[r]}) o) b' L') as Hmove.
  { intros b' L' HB' HL Hb. destruct HI. simpl in *. constructor; simpl; try done.
    - transitivity (dom (br_states b) ∖ {[r]}); [set_solver|].
      destruct Hb as [-> | ->]; [set_solver|]. simpl. by rewrite dom_delete_L.
    - assert (size (ob_active_requests o ∖ {[r]}) ≤ size (ob_active_requests o))%nat
        by (apply subseteq_size; set_solver). lia.
    - eauto using Forall_impl, observed_mono. }
  destruct clock as [t|].
  - destruct (retired_terminal (H:=H) r cause t n b L (oi_bridge _ _ _ HI) h)
      as (x & b' & h' & L' & E & HB' & HL & Hb). cbn [snd fst]. rewrite E.
    apply Hmove; [done|done|]. rewrite Hb. case_match; auto.
  - apply (Hmove b L); [apply HI|done|by left].
Qed.

Lemma inv_engine_failure rs clocks s : observer_inv s → observer_inv (engine_failure rs clocks s).
Proof.
  unfold engine_failure. generalize (imap pair (py_take (ob_capacity s.1) rs)). intros l.
  revert s. induction l as [|[i r] l IH]; intros s HI; [done|]. apply IH. by apply inv_terminal.
Qed.

Lemma draft_without_spans_ok L d id :
  ev_end_span_id d = None → ev_closing_span_ids d = [] → entry_ok L (EmEvent d id).
Proof. simpl. intros -> -> sp [?|?%elem_of_nil]; done. Qed.

(** Emitting a draft that ends no span *)
Lemma inv_emit o b L h d :
  ObserverInv o b L → ev_end_span_id d = None → ev_closing_span_ids d = [] →
  ∃ r h' L', lh_emit_event d (mkRecorded h L) = (r, mkRecorded h' L') ∧ ObserverInv o b L' ∧
    (∀ ref, r = Some ref → EmEvent d (record_id ref) ∈ L').
Proof.
  intros HI He Hc. cbn -[app]. unfold record_call. cbn -[app].
  destruct (lh_emit_event d h) as [[ref|] h']; do 3 eexists; (split; [reflexivity|]).
  - split; [|by intros ? [= <-]; set_solver].
    eapply oi_move; [exact HI| |set_solver|apply HI].
    apply Inv_snoc; [apply HI|by apply draft_without_spans_ok].
  - rewrite app_nil_r. by split.
Qed.

Lemma inv_worker_exit name pid code clock s :
  observer_inv s → observer_inv (worker_generation_exit name pid code clock s).
Proof.
  destruct s as [o [b [h L]]]. intros HI. unfold worker_generation_exit. destruct clock as [t|]; [|done].
  destruct (inv_emit o b L h (worker_exit_draft (ob_run_id o) name pid code t) HI)
    as (r & h' & L' & E & HI' & _); [done..|]. cbn [fst snd] in *. by rewrite E.
Qed.

Lemma inv_resource r t i tr g u clock s :
  observer_inv s → observer_inv (resource_transition r t i tr g u clock s).
Proof.
  destruct s as [o [b [h L]]]. intros HI. unfold resource_transition.
  destruct u as [| |u| | | |], clock as [ts|]; try done.
  destruct (negb (str_in tr RESOURCE_TRANSITIONS) || (u <? 1)) eqn:Eg; [done|]. bool_prop.
  cbn [fst snd]. destruct (Z.leb_spec (ob_capacity o) (Z.of_nat (length (ob_resource_observations o)))); [done|].
  destruct (inv_emit o b L h (resource_draft (ob_run_id o) (mkResource r t i tr g u ts)) HI)
    as (x & h' & L' & E & HI' & Hin); [done..|]. rewrite E.
  destruct x as [ref|]; [|done]. destruct HI'. constructor; try done; simpl.
  - rewrite length_app. simpl. lia.
  - apply Forall_app. split; [done|]. constructor; [|done]. split_and!; simpl; [by apply str_in_spec|lia|].
    exists (record_id ref). by apply Hin.
Qed.

Inductive observer_reachable (run_id : string) (capacity : Z) : ObserverState (H:=Recorded H) → Prop :=
| observer_new bridge_capacity b h :
    initial_bridge bridge_capacity = Ok b →
    observer_reachable run_id capacity (initial_observer run_id capacity, (b, mkRecorded h []))
| observer_call_step c s :
    observer_reachable run_id capacity s → observer_reachable run_id capacity (run_observer c s).

Lemma observer_reachable_inv run_id capacity s :
  0 ≤ capacity → observer_reachable run_id capacity s → observer_inv s.
Proof.
  intros Hc. induction 1 as [bc b h Hb|c s _ IH].
  - constructor; simpl; try done; try set_solver. by eapply bridge_inv_initial.
  - destruct c; simpl; eauto using inv_started, inv_abort, inv_terminal, inv_engine_failure,
      inv_worker_exit, inv_resource.
Qed.

Lemma run_observer_config c s :
  ob_run_id (run_observer c s).1 = ob_run_id s.1 ∧ ob_capacity (run_observer c s).1 = ob_capacity s.1.
Proof.
  destruct c as [r [t|]|r|r cause n clock|rs clocks|name pid code [t|]|r t i tr g u clock]; simpl; try done.
  - unfold request_started. destruct (register_runtime_request _ _ _ _) as [[[]|] ?]; try done.
    by destruct (_ <? _).
  - unfold abort_attempt. by destruct (_ || _).
  - unfold observer_request_terminal. by destruct (negb _).
  - unfold engine_failure. generalize (imap pair (py_take (ob_capacity s.1) rs)). intros l.
    assert (∀ l s', ob_run_id s'.1 = ob_run_id s.1 ∧ ob_capacity s'.1 = ob_capacity s.1 →
      let s'' := foldl (λ s ir, observer_request_terminal ir.2 "engine_failure" 0 (clocks ir.1) s) s' l in
      ob_run_id s''.1 = ob_run_id s.1 ∧ ob_capacity s''.1 = ob_capacity s.1) as Hf; [|by apply Hf].
    clear l. induction l as [|ir l IH]; intros s' Hs'; [done|]. by apply IH.
  - by destruct (record_call _ _ _).
  - unfold resource_transition. destruct u, clock; try done. destruct (_ || _); [done|].
    destruct (_ <=? _); [done|]. by destruct (lh_emit_event (H:=Recorded H) _ _) as [[|] ?].
Qed.
End inv.

(** ** Properties of the observer *)

Section properties.
Context {H : Type} `{!LifecycleHooks H, !LifecycleHooksLaws H}.

(** The observer is bounded and tells the truth.  After any callbacks on a new
    observer over a new bridge, the active requests, the abort attempts and the
    resource observations are each at most [capacity]; an active request is
    registered in the bridge, whose own invariant holds; a request with abort
    attempts has at least one; and every resource observation in the list has a
    known transition and at least one unit, and its event was accepted by the
    hooks. *)
Theorem observer_bounded run_id capacity (s : ObserverState (H:=Recorded H)) :
  0 ≤ capacity → observer_reachable run_id capacity s →
  let o := s.1 in
  Z.of_nat (size (ob_active_requests o)) ≤ ob_capacity o ∧
  Z.of_nat (size (ob_abort_attempts o)) ≤ ob_capacity o ∧
  Z.of_nat (length (ob_resource_observations o)) ≤ ob_capacity o ∧
  (∀ r, r ∈ ob_active_requests o → is_Some (br_identities s.2.1 !! r)) ∧
  (∀ r n, ob_abort_attempts o !! r = Some n → 1 ≤ n) ∧
  (∀ x, x ∈ ob_resource_observations o →
     str_in (ro_transition x) RESOURCE_TRANSITIONS = true ∧ 1 ≤ ro_resource_units x ∧
     ∃ id, EmEvent (resource_draft (ob_run_id o) x) id ∈ rec_log s.2.2) ∧
  BridgeInv s.2.1 (rec_log s.2.2).
Proof.
  intros Hc Hs. destruct (observer_reachable_inv _ _ _ Hc Hs). cbv zeta. split_and!; try done.
  - intros r Hr. apply oi_active0, elem_of_dom in Hr as [st Hst].
    rewrite (bi_identities _ _ oi_bridge0), Hst. by eexists.
  - intros x Hx. rewrite Forall_forall in oi_resources0. by apply oi_resources0.
Qed.
End properties.

(** The failure boundary of a worker killed by a signal is lost.  Whatever the
    state of the hooks, [worker_generation_exit] with a negative exit code emits
    nothing: the metadata of its event holds the negative code, which the event
    validator refuses. *)
Theorem worker_signal_exit_dropped run_id name pid code t (l : LiveHooks) :
  code < 0 →
  (lh_emit_event (worker_exit_draft run_id name pid (Some code) t) l).1 = None.
Proof.
  intros Hcode. destruct (lh_emit_event _ l) as [[ref|] l'] eqn:E; [|done]. exfalso.
  apply live_emit_event in E as (uuid & dom & mode & seq & ts & r & E).
  unfold build_event_record in E. do 3 apply bind_ok in E as (? & _ & E).
  apply bind_ok in E as (? & E & _). apply _validate_event_draft_sound in E.
  destruct (ewf_metadata _ _ _ _ E) as [Hmd _]. simpl in Hmd.
  apply Forall_cons in Hmd as [_ Hmd]. apply Forall_cons in Hmd as [_ Hmd].
  apply Forall_cons in Hmd as [(_ & _ & Hv) _]. simpl in Hv. unfold uint64 in Hv. lia.
Qed.

Lemma worker_signal_exit_dropped_witness :
  (lh_emit_event (worker_exit_draft "run" "worker-0" (Some 41) (Some (-9)) 100) example_live).1 = None ∧
  is_some_b (lh_emit_event (worker_exit_draft "run" "worker-0" (Some 41) (Some 1) 100) example_live).1 = true.
Proof.
  split; [|vm_compute; reflexivity].
  apply (worker_signal_exit_dropped "run" "worker-0" (Some 41) (-9) 100 example_live). reflexivity.
Defined.

Definition example_observer_calls : list observer_call :=
  [ObStarted "req-1" (Ok 100); ObAbort "req-1";
   ObResource "req-1" "kv_block" "block-1" "acquire" "gen-1" (PInt 2) (Ok 110);
   ObWorkerExit "worker-0" (Some 41) (Some 1) (Ok 120)].

Definition example_observed : ObserverState (H:=Recorded LiveHooks) :=
  foldl (λ s c, run_observer c s)
    (initial_observer "run" 8, (mkBridge 4 ∅ ∅ ∅, mkRecorded example_live [])) example_observer_calls.

Lemma example_observed_reachable : observer_reachable "run" 8 example_observed.
Proof.
  unfold example_observed, example_observer_calls. cbn [foldl].
  repeat apply observer_call_step. by apply (observer_new _ _ 4).
Qed.

Lemma observer_bounded_witness :
  length (ob_resource_observations example_observed.1) = 1%nat ∧
  ∀ x, x ∈ ob_resource_observations example_observed.1 →
    ∃ id, EmEvent (resource_draft (ob_run_id example_observed.1) x) id ∈ rec_log example_observed.2.2.
Proof.
  assert (length (ob_resource_observations example_observed.1) = 1%nat) as H1
    by (vm_compute; reflexivity).
  revert H1. generalize example_observed_reachable. generalize example_observed. intros s Hs H1.
  split; [exact H1|].
  destruct (observer_bounded "run" 8 s ltac:(lia) Hs) as (_ & _ & _ & _ & _ & Hx & _).
  intros x Hin. destruct (Hx x Hin) as (_ & _ & He). exact He.
Defined.

(** ** The native event sink *)

(** The attributes of the host's three event types; [OtherEvent] is any other
    object. *)
Inductive host_event :=
| HostFinished (request_id session_id prompt_tokens output_tokens sequence_tokens kv_blocks
    kv_reclaim_deferred finished_reason ts_monotonic_ns : pyval)
| HostPreempted (request_id session_id num_preemptions kv_blocks kv_reclaim_deferred
    ts_monotonic_ns : pyval)
| HostReclaimed (request_id session_id kv_blocks path ts_monotonic_ns : pyval)
| OtherEvent.

Definition session_present (session_id : pyval) : string * pyval :=
  ("session_present", PBool (negb (is_none session_id))).

(** The name, the request, the metadata, the name of the lifecycle event and the time *)
Definition host_fields (e : host_event) : option (string * pyval * pydict * string * pyval) :=
  match e with
  | HostFinished r session prompt output sequence blocks deferred reason ts =>
      Some ("request_finished", r,
        [("runtime_request_id", r); session_present session; ("prompt_tokens", prompt);
         ("output_tokens", output); ("sequence_tokens", sequence); ("kv_blocks", blocks);
         ("kv_reclaim_deferred", deferred); ("finished_reason", reason)],
        "request_finished_observed", ts)
  | HostPreempted r session n blocks deferred ts =>
      Some ("request_preempted", r,
        [("runtime_request_id", r); session_present session; ("num_preemptions", n);
         ("kv_blocks", blocks); ("kv_reclaim_deferred", deferred)],
        "request_preempted_observed", ts)
  | HostReclaimed r session blocks path ts =>
      if eq_str path "immediate" || eq_str path "deferred" then
        Some ("request_kv_reclaimed", r,
          [("runtime_request_id", r); session_present session; ("kv_blocks", blocks);
           ("reclaim_path", path)],
          "request_kv_reclaimed_observed", ts)
      else None
  | OtherEvent => None
  end.

Definition _translate (run_id : string) (e : host_event) : option (string * string * EventDraft) :=
  match host_fields e with
  | Some (name, PStr request, metadata, observed_name, ts) =>
      if String.eqb request "" then None
      else
        let trace_id := observed_trace_id run_id request in
        Some (name, request,
          mkEventDraft trace_id (trace_id +:+ ":e:0") (Some (root_lifecycle trace_id))
            "engine_sample" "external_evidence" observed_name ts (PInt 0) None None [] (PInt 0)
            PNone PNone None (Some metadata))
  | _ => None
  end.

(** [receipts] is what the evidence emitter, when there is one, was called with. *)
Record NativeLifecycleEventSink := mkNative {
  nv_run_id : string;
  nv_evidence_emitter : bool;
  nv_event_count : Z;
  nv_finished_count : Z;
  nv_preempted_count : Z;
  nv_reclaimed_count : Z;
  nv_receipts : list (string * string) }.

Definition initial_native (run_id : string) (emitter : bool) : NativeLifecycleEventSink :=
  mkNative run_id emitter 0 0 0 0 [].

(** [NativeEventSnapshot]: all, finished, preempted, reclaimed *)
Definition native_snapshot (n : NativeLifecycleEventSink) : Z * Z * Z * Z :=
  (nv_event_count n, nv_finished_count n, nv_preempted_count n, nv_reclaimed_count n).

Definition native_count (name request : string) (n : NativeLifecycleEventSink)
    : NativeLifecycleEventSink :=
  let finished := String.eqb name "request_finished" in
  let preempted := negb finished && String.eqb name "request_preempted" in
  mkNative (nv_run_id n) (nv_evidence_emitter n) (nv_event_count n + 1)
    (if finished then nv_finished_count n + 1 else nv_finished_count n)
    (if preempted then nv_preempted_count n + 1 else nv_preempted_count n)
    (if finished || preempted then nv_reclaimed_count n else nv_reclaimed_count n + 1)
    (nv_receipts n ++ (if nv_evidence_emitter n then [(name, request)] else [])).

(** [enabled] is the answer of [hooks.enabled]. *)
Definition native_emit {H} `{!LifecycleHooks H} (enabled : H → bool) (e : host_event)
    (s : NativeLifecycleEventSink * H) : NativeLifecycleEventSink * H :=
  match _translate (nv_run_id s.1) e with
  | None => s
  | Some (name, request, draft) =>
      (native_count name request s.1,
       if enabled s.2 then (lh_emit_event draft s.2).2 else s.2)
  end.

(** ** What the sink counted and emitted *)

Definition translated (run_id : string) (es : list host_event)
    : list (string * string * EventDraft) := omap (_translate run_id) es.

Definition named (name : string) (t : string * string * EventDraft) : bool :=
  String.eqb t.1.1 name.

Definition accepted_drafts (L : list emission) : list EventDraft :=
  omap (λ e, match e with EmEvent d _ => Some d | _ => None end) L.

Lemma translate_name run_id e name r d :
  _translate run_id e = Some (name, r, d) →
  name ∈ ["request_finished"; "request_preempted"; "request_kv_reclaimed"].
Proof.
  unfold _translate. destruct (host_fields e) as [[[[[n q] md] o] t]|] eqn:E; [|done].
  destruct q; try done. destruct (String.eqb s ""); [done|]. intros HT. simplify_eq.
  destruct e; simpl in E; try (case_match; [|done]); simplify_eq; set_solver.
Qed.

Lemma count_named x ts name r d :
  count_if (named x) (ts ++ [(name, r, d)]) =
    count_if (named x) ts + (if String.eqb name x then 1 else 0).
Proof. rewrite count_if_app, count_if_cons, count_if_nil. unfold named. simpl. lia. Qed.

Lemma count_named_cons x ts name r d :
  count_if (named x) ((name, r, d) :: ts) =
    (if String.eqb name x then 1 else 0) + count_if (named x) ts.
Proof. done. Qed.

Section native.
Context {H : Type} `{!LifecycleHooks H}.

Definition native_run (enabled : Recorded H → bool) (es : list host_event)
    (s : NativeLifecycleEventSink * Recorded H) : NativeLifecycleEventSink * Recorded H :=
  foldl (λ s e, native_emit enabled e s) s es.

(** The counters and the receipts of the translated events [ts], and their drafts *)
Record native_inv (run_id : string) (emitter : bool) (ts : list (string * string * EventDraft))
    (n : NativeLifecycleEventSink) (L : list emission) : Prop := {
  ni_run : nv_run_id n = run_id;
  ni_emitter : nv_evidence_emitter n = emitter;
  ni_all : nv_event_count n = Z.of_nat (length ts);
  ni_finished : nv_finished_count n = count_if (named "request_finished") ts;
  ni_preempted : nv_preempted_count n = count_if (named "request_preempted") ts;
  ni_reclaimed : nv_reclaimed_count n = count_if (named "request_kv_reclaimed") ts;
  ni_receipts : nv_receipts n = if emitter then ts.*1 else [];
  ni_drafts : accepted_drafts L `sublist_of` ts.*2 }.

Lemma native_inv_emit enabled run_id emitter ts e n h L :
  native_inv run_id emitter ts n L →
  ∃ n' h' L', native_emit enabled e (n, mkRecorded h L) = (n', mkRecorded h' L') ∧
    native_inv run_id emitter (ts ++ translated run_id [e]) n' L'.
Proof.
  intros HI. unfold native_emit, translated. cbn [fst snd omap list_omap].
  rewrite (ni_run _ _ _ _ _ HI).
  destruct (_translate run_id e) as [[[name r] d]|] eqn:E; [|rewrite app_nil_r; eauto 10].
  assert (∃ h' L', (if enabled (mkRecorded h L) then (lh_emit_event d (mkRecorded h L)).2
      else mkRecorded h L) = mkRecorded h' L' ∧
    accepted_drafts L' `sublist_of` (ts ++ [(name, r, d)]).*2) as (h' & L' & EL & HL).
  { destruct HI. rewrite fmap_app. destruct (enabled _).
    - cbn -[app]. unfold record_call. cbn -[app]. destruct (lh_emit_event d h) as [[ref|] h'];
        do 2 eexists; (split; [reflexivity|]).
      + unfold accepted_drafts. rewrite omap_app. by apply sublist_app.
      + rewrite app_nil_r. by apply sublist_inserts_r.
    - do 2 eexists. split; [reflexivity|]. by apply sublist_inserts_r. }
  rewrite EL. do 3 eexists. split; [reflexivity|]. destruct HI.
  apply translate_name in E. unfold native_count.
  constructor; cbn [nv_run_id nv_evidence_emitter nv_event_count nv_finished_count
    nv_preempted_count nv_reclaimed_count nv_receipts]; try done; rewrite ?count_named.
  - rewrite length_app. cbn [length]. lia.
  - destruct (String.eqb name "request_finished"); lia.
  - rewrite !elem_of_cons, elem_of_nil in E. destruct E as [->|[->|[->|[]]]]; simpl; lia.
  - rewrite !elem_of_cons, elem_of_nil in E. destruct E as [->|[->|[->|[]]]]; simpl; lia.
  - rewrite ni_receipts0, ni_emitter0, fmap_app. by destruct emitter.
Qed.

Lemma native_run_inv enabled run_id emitter es ts s :
  native_inv run_id emitter ts s.1 (rec_log s.2) →
  native_inv run_id emitter (ts ++ translated run_id es) (native_run enabled es s).1
    (rec_log (native_run enabled es s).2).
Proof.
  revert ts s. induction es as [|e es IH]; intros ts [n [h L]] HI; [by rewrite app_nil_r|].
  destruct (native_inv_emit enabled run_id emitter ts e n h L HI) as (n' & h' & L' & E & HI').
  cbn [native_run foldl]. rewrite E. unfold translated. rewrite (omap_app _ [e] es), app_assoc.
  by apply IH.
Qed.

(** The native sink counts exactly what it understands.  After any host events
    a new sink's snapshot is the number of translatable events and of each kind,
    so the total is the sum of the three; the evidence emitter, when there is one,
    was called once for each with its name and request, in order; and the accepted
    lifecycle events are among their translations, in order, at most one each. *)
Theorem native_sink_counts enabled run_id emitter es (h : H) :
  let '(n, r) := native_run enabled es (initial_native run_id emitter, mkRecorded h []) in
  let ts := translated run_id es in
  let '(all, finished, preempted, reclaimed) := native_snapshot n in
  all = Z.of_nat (length ts) ∧ finished = count_if (named "request_finished") ts ∧
  preempted = count_if (named "request_preempted") ts ∧
  reclaimed = count_if (named "request_kv_reclaimed") ts ∧
  all = finished + preempted + reclaimed ∧
  nv_receipts n = (if emitter then ts.*1 else []) ∧
  accepted_drafts (rec_log r) `sublist_of` ts.*2.
Proof.
  assert (native_inv run_id emitter [] (initial_native run_id emitter) []) as HI.
  { constructor; try done. by destruct emitter. }
  apply (native_run_inv enabled run_id emitter es [] (_, mkRecorded h [])) in HI.
  destruct (native_run enabled es _) as [n r]. destruct HI. simpl in *. split_and!; try done.
  rewrite ni_all0, ni_finished0, ni_preempted0, ni_reclaimed0.
  assert (Forall (λ t : string * string * EventDraft,
    t.1.1 ∈ ["request_finished"; "request_preempted"; "request_kv_reclaimed"]) (translated run_id es)) as Hn.
  { apply Forall_forall. intros [[name x] d] (e & _ & He)%list_elem_of_omap.
    by eapply translate_name. }
  clear -Hn. induction Hn as [|[[name x] d] ts Hname _ IH]; [done|]. rewrite !count_named_cons.
  cbn [fst length] in *. rewrite !elem_of_cons, elem_of_nil in Hname.
  destruct Hname as [->|[->|[->|[]]]]; simpl; lia.
Qed.
End native.

Lemma native_sink_counts_example :
  native_snapshot (native_run (H:=LiveHooks) (λ _, true)
    [HostFinished (PStr "r1") PNone (PInt 1) (PInt 2) (PInt 3) (PInt 4) (PBool false) (PStr "stop") (PInt 9);
     HostReclaimed (PStr "r1") PNone (PInt 4) (PStr "later") (PInt 10);
     HostPreempted (PInt 7) PNone (PInt 1) (PInt 4) (PBool false) (PInt 10);
     HostReclaimed (PStr "r1") PNone (PInt 4) (PStr "deferred") (PInt 11); OtherEvent]
    (initial_native "run" true, mkRecorded example_live [])).1 = (2, 1, 0, 1).
Proof. vm_compute. reflexivity. Qed.
