(* ===== verification/Normalizer.v ===== *)
(** * kv_recovery_runtime.py: the recovery normalizers

    [normalize_h2d_recovery] and [normalize_kv_recovery_episode] decide whether the
    parsed records of a finished run prove one recovery.  The rows are Python
    dicts; a comprehension whose condition may raise is [py_filter].  Floats are
    not values of the model: two of them compare unequal. *)

From Stdlib Require Import ZArith Lia Ascii String.
From stdpp Require Import base list strings gmap sorting.
From S2P Require Import Prelude PyValue Sha256 RuntimeProtocol ProfileProtocol SinkState.
From S2P Require Import TraceSink SinkSteps Hooks HooksInterface LifecycleBridge ProfileLedger.

(** ** Rows *)

Definition num_of (v : pyval) : option Z :=
  match v with PInt z => Some z | PBool b => Some (if b then 1 else 0) | _ => None end.

(** [v == w] *)
Fixpoint py_eqb (v w : pyval) {struct v} : bool :=
  match v, w with
  | PNone, PNone => true
  | PStr a, PStr b => String.eqb a b
  | PInt _, _ | PBool _, _ => bool_decide (num_of v = num_of w)
  | PList l, PList m =>
      (fix eq_list (l m : list pyval) : bool :=
         match l, m with
         | [], [] => true
         | x :: l, y :: m => py_eqb x y && eq_list l m
         | _, _ => false
         end) l m
  | PDict d, PDict e =>
      Nat.eqb (length d) (length e) &&
      (fix eq_items (d : list (string * pyval)) : bool :=
         match d with
         | [] => true
         | (k, x) :: d =>
             match dict_find e k with Some y => py_eqb x y | None => false end && eq_items d
         end) d
  | _, _ => false
  end.

(** [[x for x in l if p(x)]] *)
Fixpoint py_filter {A} (p : A → res bool) (l : list A) : res (list A) :=
  match l with
  | [] => Ok []
  | x :: l => b ← p x; l ← py_filter p l; Ok (if b : bool then x :: l else l)
  end.

Definition fieldb (r : pydict) (k s : string) : bool := eq_str (dict_get r k) s.

(** [isinstance(row.get("metadata"), Mapping)] with the mapping *)
Definition metadata_of (r : pydict) : option pydict :=
  match dict_get r "metadata" with PDict d => Some d | _ => None end.

Definition metadata_fieldb (r : pydict) (k s : string) : bool :=
  match metadata_of r with Some d => fieldb d k s | None => false end.

Definition string_of (v : pyval) : option string := match v with PStr s => Some s | _ => None end.

(** [events.get(event_id)] *)
Definition event_named (events : list pydict) (event_id : string) : option pydict :=
  head (filter (λ r, fieldb r "event_id" event_id = true) events).

(** ** One H2D transfer *)

Record ExpectedH2DRecovery := mkExpectedH2D {
  xh_trace_id : string;
  xh_engine_lifecycle_id : string;
  xh_recovery_epoch : Z;
  xh_transfer_id : string;
  xh_block_set_id : string;
  xh_preempted_event_id : string;
  xh_admission_started_event_id : string }.

Record NormalizedH2DRecovery := mkNormalizedH2D {
  nh_start_event_id : string;
  nh_done_event_id : string;
  nh_duration_ns : Z;
  nh_bytes_moved : Z;
  nh_edge_ids : string * string * string }.

(** The base roster: distinct event identifiers *)
Definition base_events (rows : list pydict) : res (list pydict) :=
  let event_rows := filter (λ r, fieldb r "record_type" "event" = true) rows in
  let ids := omap (λ r, string_of (dict_get r "event_id")) event_rows in
  raise_v (negb (Nat.eqb (length (remove_dups ids)) (length event_rows)))
    "base event IDs are missing or duplicated" ;;
  Ok event_rows.

(** [events.get(id)] with the expected event name *)
Definition endpoint (events : list pydict) (event_id name : string) : res pydict :=
  match event_named events event_id with
  | Some r =>
      if fieldb r "event_name" name then Ok r
      else Raise (ValueError ("exact " +:+ name +:+ " endpoint is missing"))
  | None => Raise (ValueError ("exact " +:+ name +:+ " endpoint is missing"))
  end.

Definition endpoint_identity (x : ExpectedH2DRecovery) (epoch : Z) (r : pydict) : bool :=
  fieldb r "trace_id" (xh_trace_id x) && fieldb r "lifecycle_id" (xh_engine_lifecycle_id x)
  && eq_int (dict_get r "preemption_epoch") epoch.

Definition is_communication (x : ExpectedH2DRecovery) (r : pydict) : res bool :=
  if fieldb r "trace_id" (xh_trace_id x) then
    in_strs (dict_get r "event_name") ["communication_started"; "communication_done"]
  else Ok false.

Definition transfer_operation (x : ExpectedH2DRecovery) (r : pydict) : bool :=
  metadata_fieldb r "operation" "h2d_restore" && metadata_fieldb r "transfer_id" (xh_transfer_id x).

(** The events of the transfer with one name *)
Definition transfer_events (events : list pydict) (x : ExpectedH2DRecovery) (name : string)
    : list pydict :=
  filter (λ r, (metadata_fieldb r "transfer_id" (xh_transfer_id x)
                && fieldb r "event_name" name) = true) events.

Definition communication_identity (x : ExpectedH2DRecovery) (r : pydict) : bool :=
  endpoint_identity x (xh_recovery_epoch x) r
  && metadata_fieldb r "block_set_id" (xh_block_set_id x)
  && metadata_fieldb r "operation" "h2d_restore"
  && metadata_fieldb r "communication_mapping" KV_RECOVERY_COMMUNICATION_MODE.

(** The tuple of five fields compared with the expected edge *)
Definition is_edge (trace_id from_id to_id kind evidence : string) (e : pydict) : bool :=
  fieldb e "trace_id" trace_id && fieldb e "from_event_id" from_id && fieldb e "to_event_id" to_id
  && fieldb e "edge_kind" kind && fieldb e "evidence_source" evidence.

Definition expected_edge (edges : list pydict) (trace_id from_id to_id kind evidence : string)
    : res string :=
  match filter (λ e, is_edge trace_id from_id to_id kind evidence e = true) edges with
  | [e] =>
      match dict_get e "edge_id" with
      | PStr edge_id => Ok edge_id
      | _ => Raise (ValueError "required H2D edge is missing or duplicated")
      end
  | _ => Raise (ValueError "required H2D edge is missing or duplicated")
  end.

Definition is_relevant (ids : list string) (start_id done_id : string) (e : pydict) : res bool :=
  from_in ← in_strs (dict_get e "from_event_id") ids;
  if negb (from_in : bool) then Ok false
  else
    to_in ← in_strs (dict_get e "to_event_id") ids;
    Ok (to_in && (fieldb e "evidence_source" KV_RECOVERY_H2D_EVIDENCE
                  || (fieldb e "from_event_id" start_id && fieldb e "to_event_id" done_id))).

(** The uint64 in a field, or the error *)
Definition uint64_field (r : pydict) (k msg : string) : res Z :=
  match uint64_of (dict_get r k) with Some z => Ok z | None => Raise (ValueError msg) end.

Definition event_id_of_row (r : pydict) : res string :=
  match dict_get r "event_id" with PStr s => Ok s | _ => Raise TypeError end.

(** The two communication events with their identifiers and times *)
Definition communication_pair (events : list pydict) (x : ExpectedH2DRecovery)
    : res (pydict * pydict) :=
  rows ← py_filter (is_communication x) events;
  raise_v (negb (forallb (transfer_operation x) rows))
    "closed H2D base roster contains another operation" ;;
  match transfer_events events x "communication_started",
        transfer_events events x "communication_done" with
  | [start], [done] =>
      raise_v (negb (communication_identity x start && communication_identity x done))
        "H2D communication identity drifted" ;;
      Ok (start, done)
  | _, _ => Raise (ValueError "H2D communication pair is missing or duplicated")
  end.

(** The three edges, and nothing else between the four events *)
Definition h2d_edges (edges : list pydict) (x : ExpectedH2DRecovery) (start_id done_id : string)
    : res (string * string * string) :=
  e1 ← expected_edge edges (xh_trace_id x) (xh_preempted_event_id x) start_id "data_dependency"
         KV_RECOVERY_H2D_EVIDENCE;
  e2 ← expected_edge edges (xh_trace_id x) start_id done_id "program_order"
         "instrumented_execution_context";
  e3 ← expected_edge edges (xh_trace_id x) done_id (xh_admission_started_event_id x)
         "data_dependency" KV_RECOVERY_H2D_EVIDENCE;
  relevant ← py_filter (is_relevant [xh_preempted_event_id x; start_id; done_id;
               xh_admission_started_event_id x] start_id done_id) edges;
  raise_v (negb (Nat.eqb (length relevant) 3))
    "H2D edge roster contains an extra or duplicate edge" ;;
  raise_v (negb (Nat.eqb (length (filter (λ e, (fieldb e "trace_id" (xh_trace_id x)
      && fieldb e "evidence_source" KV_RECOVERY_H2D_EVIDENCE) = true) edges)) 2))
    "H2D specialty edge roster is not exact" ;;
  Ok (e1, e2, e3).

Definition normalize_h2d_recovery (rows : list pydict) (x : ExpectedH2DRecovery)
    (profile_evidence_complete : bool) : res NormalizedH2DRecovery :=
  raise_v (negb profile_evidence_complete) "profile evidence contains loss" ;;
  raise_v (existsb (λ r, fieldb r "record_type" "loss_interval") rows)
    "base evidence contains loss" ;;
  events ← base_events rows;
  let edges := filter (λ r, fieldb r "record_type" "edge" = true) rows in
  preempted ← endpoint events (xh_preempted_event_id x) "preempted";
  admission ← endpoint events (xh_admission_started_event_id x) "admission_started";
  raise_v (negb (endpoint_identity x (xh_recovery_epoch x - 1) preempted
                 && endpoint_identity x (xh_recovery_epoch x) admission))
    "base recovery endpoint identity drifted" ;;
  '(start, done) ← communication_pair events x;
  start_id ← event_id_of_row start;
  done_id ← event_id_of_row done;
  raise_v (negb (py_eqb (dict_get start "start_span_id") (dict_get done "end_span_id")))
    "communication span endpoints differ" ;;
  start_ns ← uint64_field start "timestamp_ns" "communication duration is not strictly positive";
  done_ns ← uint64_field done "timestamp_ns" "communication duration is not strictly positive";
  raise_v (done_ns <=? start_ns) "communication duration is not strictly positive" ;;
  preempted_ns ← uint64_field preempted "timestamp_ns" "H2D endpoints are not causally ordered";
  admission_ns ← uint64_field admission "timestamp_ns" "H2D endpoints are not causally ordered";
  raise_v ((start_ns <? preempted_ns) || (admission_ns <? done_ns))
    "H2D endpoints are not causally ordered" ;;
  bytes_moved ← uint64_field (default [] (metadata_of done)) "bytes_moved"
                  "communication bytes are not positive";
  raise_v (bytes_moved <? 1) "communication bytes are not positive" ;;
  edge_ids ← h2d_edges edges x start_id done_id;
  Ok (mkNormalizedH2D start_id done_id (done_ns - start_ns) bytes_moved edge_ids).

(** ** Lemmas *)

Lemma fieldb_spec r k s : fieldb r k s = true ↔ dict_get r k = PStr s.
Proof.
  unfold fieldb, eq_str. destruct (dict_get r k); try done.
  rewrite String.eqb_eq. naive_solver.
Qed.

Lemma py_filter_ok {A} (p : A → res bool) l l' :
  py_filter p l = Ok l' → Forall (λ x, ∃ b, p x = Ok b ∧ (b = true → x ∈ l')) l.
Proof.
  revert l'. induction l as [|x l IH]; intros l' Hl; [constructor|]. cbn [py_filter] in Hl. inv_ok.
  constructor.
  - eexists. split; [done|]. intros ->. by left.
  - eapply Forall_impl; [by apply IH|]. intros y (b & ? & Hb). exists b. split; [done|].
    intros Hy. case_match; [right|]; auto.
Qed.

Lemma length_remove_dups (l : list string) : (length (remove_dups l) ≤ length l)%nat.
Proof. induction l as [|x l IH]; simpl; [done|]. case_decide; simpl; lia. Qed.

Lemma remove_dups_NoDup (l : list string) : length (remove_dups l) = length l → NoDup l.
Proof.
  induction l as [|x l IH]; simpl; [constructor|]. pose proof (length_remove_dups l).
  case_decide; simpl; [lia|]. intros [=]. constructor; auto.
Qed.

Lemma length_omap_le {A B} (f : A → option B) l : (length (omap f l) ≤ length l)%nat.
Proof.
  induction l as [|x l IH]; [done|]. simpl.
  destruct (f x); simpl; [by apply le_n_S|by apply le_S].
Qed.

Lemma length_omap_all {A B} (f : A → option B) l :
  length (omap f l) = length l → Forall (λ x, is_Some (f x)) l.
Proof.
  induction l as [|x l IH]; [constructor|]. pose proof (length_omap_le f l) as Hl. simpl.
  destruct (f x) eqn:E; simpl; intros Hlen.
  - injection Hlen as Hlen. constructor; [by rewrite E|auto].
  - exfalso. change (length (omap f l) = S (length l)) in Hlen. lia.
Qed.

Lemma base_events_ok rows events :
  base_events rows = Ok events →
  events = filter (λ r, fieldb r "record_type" "event" = true) rows ∧
  Forall (λ r, ∃ id, dict_get r "event_id" = PStr id) events ∧
  NoDup (omap (λ r, string_of (dict_get r "event_id")) events).
Proof.
  unfold base_events. intros He. inv_profile. bool_prop. split; [done|].
  generalize dependent (filter (λ r, fieldb r "record_type" "event" = true) rows). intros ev E.
  pose proof (length_remove_dups (omap (λ r, string_of (dict_get r "event_id")) ev)) as Hr.
  pose proof (length_omap_le (λ r, string_of (dict_get r "event_id")) ev) as Ho.
  split; [|apply remove_dups_NoDup; lia].
  assert (length (omap (λ r, string_of (dict_get r "event_id")) ev) = length ev) as El by lia.
  apply length_omap_all in El. eapply Forall_impl; [exact El|]. cbv beta. intros r [id Hid].
  unfold string_of in Hid. exists id. destruct (dict_get r "event_id"); naive_solver.
Qed.

(** A row is determined by its identifier. *)
Lemma event_unique events r1 r2 id :
  NoDup (omap (λ r, string_of (dict_get r "event_id")) events) → r1 ∈ events → r2 ∈ events →
  dict_get r1 "event_id" = PStr id → dict_get r2 "event_id" = PStr id → r1 = r2.
Proof.
  intros Hnd H1 H2 E1 E2. induction events as [|r events IH]; [by apply elem_of_nil in H1|].
  assert (∀ r', r' ∈ events → dict_get r' "event_id" = PStr id →
    id ∈ omap (λ r, string_of (dict_get r "event_id")) events) as Hin.
  { intros r' Hr' E'. apply list_elem_of_omap. exists r'. by rewrite E'. }
  apply elem_of_cons in H1 as [->|H1], H2 as [->|H2]; try done.
  - simpl in Hnd. rewrite E1 in Hnd. simpl in Hnd. apply NoDup_cons in Hnd as [Hn _].
    by destruct Hn; eapply Hin.
  - simpl in Hnd. rewrite E2 in Hnd. simpl in Hnd. apply NoDup_cons in Hnd as [Hn _].
    by destruct Hn; eapply Hin.
  - apply IH; try done. simpl in Hnd. destruct (string_of _); [|done]. by inversion Hnd.
Qed.

Lemma endpoint_ok events id name r :
  endpoint events id name = Ok r →
  r ∈ events ∧ dict_get r "event_id" = PStr id ∧ dict_get r "event_name" = PStr name.
Proof.
  unfold endpoint, event_named.
  destruct (head _) as [r'|] eqn:E; [|done]. destruct (fieldb r' "event_name" name) eqn:En; [|done].
  intros [= ->]. apply head_Some_elem_of, list_elem_of_filter in E as [Hf Hr].
  by rewrite !fieldb_spec in *.
Qed.

Lemma uint64_field_ok r k msg z :
  uint64_field r k msg = Ok z → dict_get r k = PInt z ∧ 0 ≤ z ≤ _UINT64_MAX.
Proof.
  unfold uint64_field, uint64_of. destruct (dict_get r k); try done.
  destruct (_ && _) eqn:E; [|done]. intros [= ->]. bool_prop. by split.
Qed.

Lemma event_id_of_row_ok r s : event_id_of_row r = Ok s → dict_get r "event_id" = PStr s.
Proof. unfold event_id_of_row. destruct (dict_get r "event_id"); naive_solver. Qed.

Lemma endpoint_identity_ok x epoch r :
  endpoint_identity x epoch r = true →
  dict_get r "trace_id" = PStr (xh_trace_id x) ∧
  dict_get r "lifecycle_id" = PStr (xh_engine_lifecycle_id x) ∧
  eq_int (dict_get r "preemption_epoch") epoch = true.
Proof. unfold endpoint_identity. rewrite !andb_true_iff, !fieldb_spec. tauto. Qed.

(** [edge]: the one edge record between two events *)
Definition sole_edge (rows : list pydict) (trace_id from_id to_id kind evidence edge_id : string)
    (e : pydict) : Prop :=
  e ∈ rows ∧ dict_get e "record_type" = PStr "edge" ∧ dict_get e "edge_id" = PStr edge_id ∧
  ∀ e', e' ∈ rows → dict_get e' "record_type" = PStr "edge" →
    is_edge trace_id from_id to_id kind evidence e' = true ↔ e' = e.

Lemma expected_edge_ok rows t a b k v id :
  expected_edge (filter (λ r, fieldb r "record_type" "edge" = true) rows) t a b k v = Ok id →
  ∃ e, sole_edge rows t a b k v id e.
Proof.
  unfold expected_edge.
  destruct (filter (λ e, is_edge t a b k v e = true) _) as [|e [|]] eqn:E; try done.
  destruct (dict_get e "edge_id") eqn:Ei; try done. intros [= ->]. exists e.
  assert (∀ e', e' ∈ [e] ↔ is_edge t a b k v e' = true ∧ dict_get e' "record_type" = PStr "edge" ∧ e' ∈ rows) as Hin.
  { intros e'. rewrite <- E, !list_elem_of_filter, fieldb_spec. tauto. }
  setoid_rewrite list_elem_of_singleton in Hin.
  destruct (proj1 (Hin e) eq_refl) as (? & ? & ?). split_and!; try done.
  intros e' Hr Ht. rewrite (Hin e'). tauto.
Qed.

(** ** What an accepted transfer proves *)

(** [r] is the event record [id] named [name] of the episode's lifecycle at the epoch,
    at the time [ns]. *)
Record lifecycle_event (rows : list pydict) (x : ExpectedH2DRecovery) (id name : string)
    (epoch ns : Z) (r : pydict) : Prop := {
  le_in : r ∈ rows;
  le_type : dict_get r "record_type" = PStr "event";
  le_id : dict_get r "event_id" = PStr id;
  le_name : dict_get r "event_name" = PStr name;
  le_trace : dict_get r "trace_id" = PStr (xh_trace_id x);
  le_lifecycle : dict_get r "lifecycle_id" = PStr (xh_engine_lifecycle_id x);
  le_epoch : eq_int (dict_get r "preemption_epoch") epoch = true;
  le_time : dict_get r "timestamp_ns" = PInt ns ∧ 0 ≤ ns ≤ _UINT64_MAX }.

(** ... and carries the metadata of the transfer, alone with this name. *)
Definition transfer_event (rows : list pydict) (x : ExpectedH2DRecovery) (name : string)
    (r : pydict) : Prop :=
  (∃ d, dict_get r "metadata" = PDict d ∧
     dict_get d "transfer_id" = PStr (xh_transfer_id x) ∧
     dict_get d "block_set_id" = PStr (xh_block_set_id x) ∧
     dict_get d "operation" = PStr "h2d_restore" ∧
     dict_get d "communication_mapping" = PStr KV_RECOVERY_COMMUNICATION_MODE) ∧
  ∀ r', r' ∈ rows → dict_get r' "record_type" = PStr "event" →
    metadata_fieldb r' "transfer_id" (xh_transfer_id x) = true →
    dict_get r' "event_name" = PStr name → r' = r.

Lemma metadata_fieldb_spec r k s :
  metadata_fieldb r k s = true ↔ ∃ d, dict_get r "metadata" = PDict d ∧ dict_get d k = PStr s.
Proof.
  unfold metadata_fieldb, metadata_of. destruct (dict_get r "metadata"); try (split; [done|naive_solver]).
  rewrite fieldb_spec. naive_solver.
Qed.

Lemma communication_identity_ok x r :
  communication_identity x r = true →
  endpoint_identity x (xh_recovery_epoch x) r = true ∧
  ∃ d, dict_get r "metadata" = PDict d ∧ dict_get d "block_set_id" = PStr (xh_block_set_id x) ∧
    dict_get d "operation" = PStr "h2d_restore" ∧
    dict_get d "communication_mapping" = PStr KV_RECOVERY_COMMUNICATION_MODE.
Proof.
  unfold communication_identity. rewrite !andb_true_iff, !metadata_fieldb_spec.
  intros [[[? (d & Ed & ?)] (d2 & E2 & ?)] (d3 & E3 & ?)]. split; [done|]. exists d.
  rewrite Ed in E2, E3. by simplify_eq.
Qed.

Lemma transfer_events_one rows x name r :
  transfer_events (filter (λ r, fieldb r "record_type" "event" = true) rows) x name = [r] →
  communication_identity x r = true →
  r ∈ rows ∧ dict_get r "record_type" = PStr "event" ∧ dict_get r "event_name" = PStr name ∧
  transfer_event rows x name r.
Proof.
  intros E Hid.
  assert (∀ r', r' ∈ [r] ↔ metadata_fieldb r' "transfer_id" (xh_transfer_id x) = true ∧
    dict_get r' "event_name" = PStr name ∧ dict_get r' "record_type" = PStr "event" ∧ r' ∈ rows) as Hin.
  { intros r'. rewrite <- E. unfold transfer_events.
    rewrite !list_elem_of_filter, andb_true_iff, !fieldb_spec. tauto. }
  setoid_rewrite list_elem_of_singleton in Hin. destruct (proj1 (Hin r) eq_refl) as (Ht & ? & ? & ?).
  split_and!; try done. split.
  - apply communication_identity_ok in Hid as (_ & d & Ed & ?). exists d.
    apply metadata_fieldb_spec in Ht as (d' & Ed' & ?). rewrite Ed in Ed'. simplify_eq. tauto.
  - intros r' ? ? ? ?. by apply Hin.
Qed.

Lemma communication_pair_ok rows x start done_row :
  communication_pair (filter (λ r, fieldb r "record_type" "event" = true) rows) x = Ok (start, done_row) →
  transfer_events (filter (λ r, fieldb r "record_type" "event" = true) rows) x "communication_started" = [start] ∧
  transfer_events (filter (λ r, fieldb r "record_type" "event" = true) rows) x "communication_done" = [done_row] ∧
  communication_identity x start = true ∧ communication_identity x done_row = true ∧
  ∀ r name, r ∈ rows → dict_get r "record_type" = PStr "event" →
    dict_get r "trace_id" = PStr (xh_trace_id x) → dict_get r "event_name" = PStr name →
    name ∈ ["communication_started"; "communication_done"] → transfer_operation x r = true.
Proof.
  unfold communication_pair. intros HC. apply bind_ok in HC as (comm & Hf & HC).
  apply bind_ok in HC as ([] & Hall & HC). apply raise_v_ok in Hall. bool_prop.
  destruct (transfer_events _ x "communication_started") as [|s [|]]; try done.
  destruct (transfer_events _ x "communication_done") as [|d [|]]; try done.
  inv_profile. bool_prop. split_and!; try done.
  intros r name Hr Ht Htr Hn Hin. apply py_filter_ok in Hf. rewrite Forall_forall in Hf.
  destruct (Hf r) as (b & Hb & Hc).
  { apply list_elem_of_filter. by rewrite fieldb_spec. }
  rewrite forallb_forall in Hall. apply Hall, list_elem_of_In, Hc.
  unfold is_communication in Hb. rewrite (proj2 (fieldb_spec _ _ _) Htr), Hn in Hb.
  simpl in Hb. injection Hb as <-. by apply str_in_spec.
Qed.

Record h2d_edge_evidence (rows : list pydict) (x : ExpectedH2DRecovery) (start_id done_id : string)
    (ids : string * string * string) : Prop := {
  he_edges : ∃ e1 e2 e3,
    sole_edge rows (xh_trace_id x) (xh_preempted_event_id x) start_id "data_dependency"
      KV_RECOVERY_H2D_EVIDENCE ids.1.1 e1 ∧
    sole_edge rows (xh_trace_id x) start_id done_id "program_order"
      "instrumented_execution_context" ids.1.2 e2 ∧
    sole_edge rows (xh_trace_id x) done_id (xh_admission_started_event_id x) "data_dependency"
      KV_RECOVERY_H2D_EVIDENCE ids.2 e3;
  he_specialty : length (filter (λ e, (fieldb e "trace_id" (xh_trace_id x)
    && fieldb e "evidence_source" KV_RECOVERY_H2D_EVIDENCE) = true)
    (filter (λ r, fieldb r "record_type" "edge" = true) rows)) = 2%nat }.

Lemma h2d_edges_ok rows x start_id done_id ids :
  h2d_edges (filter (λ r, fieldb r "record_type" "edge" = true) rows) x start_id done_id = Ok ids →
  h2d_edge_evidence rows x start_id done_id ids.
Proof.
  unfold h2d_edges. intros HE.
  apply bind_ok in HE as (i1 & H1 & HE). apply expected_edge_ok in H1 as [e1 H1].
  apply bind_ok in HE as (i2 & H2 & HE). apply expected_edge_ok in H2 as [e2 H2].
  apply bind_ok in HE as (i3 & H3 & HE). apply expected_edge_ok in H3 as [e3 H3].
  apply bind_ok in HE as (rel & _ & HE). inv_profile. bool_prop. simplify_eq.
  constructor; [by exists e1, e2, e3|done].
Qed.

(** C20. An accepted H2D recovery is proved by its records.  When
    [normalize_h2d_recovery] returns, no loss was recorded; the records hold the
    preempted event of the epoch before, the communication pair of the transfer
    and the admission, of one trace and lifecycle, each with its identifier and
    name; the pair is the only one of the transfer and every communication event
    of the trace belongs to the transfer; the times are in order, the duration is
    their positive difference and the bytes are positive; and the three edges
    preempted - started - done - admission are each recorded exactly once, with no
    other edge of this evidence in the trace. *)
Theorem h2d_recovery_sound rows x complete n :
  normalize_h2d_recovery rows x complete = Ok n →
  complete = true ∧
  (∀ r, r ∈ rows → dict_get r "record_type" ≠ PStr "loss_interval") ∧
  (∃ preempted start done_row admission p s d a,
    lifecycle_event rows x (xh_preempted_event_id x) "preempted" (xh_recovery_epoch x - 1) p preempted ∧
    lifecycle_event rows x (nh_start_event_id n) "communication_started" (xh_recovery_epoch x) s start ∧
    lifecycle_event rows x (nh_done_event_id n) "communication_done" (xh_recovery_epoch x) d done_row ∧
    lifecycle_event rows x (xh_admission_started_event_id x) "admission_started"
      (xh_recovery_epoch x) a admission ∧
    transfer_event rows x "communication_started" start ∧
    transfer_event rows x "communication_done" done_row ∧
    p ≤ s ∧ s < d ∧ d ≤ a ∧ nh_duration_ns n = d - s ∧
    (∃ md, dict_get done_row "metadata" = PDict md ∧
       dict_get md "bytes_moved" = PInt (nh_bytes_moved n)) ∧ 1 ≤ nh_bytes_moved n) ∧
  (∀ r name, r ∈ rows → dict_get r "record_type" = PStr "event" →
     dict_get r "trace_id" = PStr (xh_trace_id x) → dict_get r "event_name" = PStr name →
     name ∈ ["communication_started"; "communication_done"] → transfer_operation x r = true) ∧
  h2d_edge_evidence rows x (nh_start_event_id n) (nh_done_event_id n) (nh_edge_ids n).
Proof.
  unfold normalize_h2d_recovery. intros HN.
  apply bind_ok in HN as ([] & Hc & HN). apply raise_v_ok in Hc. apply negb_false_iff in Hc.
  apply bind_ok in HN as ([] & Hloss & HN). apply raise_v_ok in Hloss.
  apply bind_ok in HN as (events & Hev & HN). apply base_events_ok in Hev as (-> & _ & _).
  apply bind_ok in HN as (preempted & Hp & HN). apply endpoint_ok in Hp as (Hp1 & Hp2 & Hp3).
  apply bind_ok in HN as (admission & Ha & HN). apply endpoint_ok in Ha as (Ha1 & Ha2 & Ha3).
  apply bind_ok in HN as ([] & Hid & HN). apply raise_v_ok, negb_false_iff, andb_true_iff in Hid as [Hidp Hida].
  apply endpoint_identity_ok in Hidp as (? & ? & ?), Hida as (? & ? & ?).
  apply bind_ok in HN as ([start done_row] & Hpair & HN).
  apply communication_pair_ok in Hpair as (Hs & Hd & Cs & Cd & Hclosed).
  destruct (transfer_events_one _ _ _ _ Hs Cs) as (? & ? & ? & ?).
  destruct (transfer_events_one _ _ _ _ Hd Cd) as (? & ? & ? & ?).
  apply communication_identity_ok in Cs as [Cs _], Cd as [Cd (md & Emd & _)].
  apply endpoint_identity_ok in Cs as (? & ? & ?), Cd as (? & ? & ?).
  apply bind_ok in HN as (sid & Hsid & HN). apply event_id_of_row_ok in Hsid.
  apply bind_ok in HN as (did & Hdid & HN). apply event_id_of_row_ok in Hdid.
  apply bind_ok in HN as ([] & _ & HN).
  apply bind_ok in HN as (s & Hst & HN). apply uint64_field_ok in Hst.
  apply bind_ok in HN as (d & Hdt & HN). apply uint64_field_ok in Hdt.
  apply bind_ok in HN as ([] & Hlt & HN). apply raise_v_ok, Z.leb_gt in Hlt.
  apply bind_ok in HN as (p & Hpt & HN). apply uint64_field_ok in Hpt.
  apply bind_ok in HN as (a & Hat & HN). apply uint64_field_ok in Hat.
  apply bind_ok in HN as ([] & Hord & HN). apply raise_v_ok, orb_false_iff in Hord as [Hps Hda].
  apply bind_ok in HN as (bytes & Hb & HN). apply uint64_field_ok in Hb as [Hb _].
  apply bind_ok in HN as ([] & Hb1 & HN). apply raise_v_ok in Hb1.
  apply bind_ok in HN as (ids & Hids & [= <-]). apply h2d_edges_ok in Hids.
  apply list_elem_of_filter in Hp1 as [Hpt1 Hp1], Ha1 as [Hat1 Ha1]. rewrite fieldb_spec in Hpt1, Hat1.
  unfold metadata_of in Hb. rewrite Emd in Hb. simpl in Hb. bool_prop.
  split_and!; try done.
  - intros r Hr Hl. apply not_true_iff_false in Hloss. apply Hloss, existsb_exists.
    exists r. split; [by apply list_elem_of_In|by apply fieldb_spec].
  - exists preempted, start, done_row, admission, p, s, d, a.
    split_and!; try done; eauto; by constructor.
Qed.

(** ** An example *)

Definition example_expected : ExpectedH2DRecovery :=
  mkExpectedH2D example_trace (example_trace +:+ ":e:0") 1 "t-1" "b-1" "e-1" "e-4".

Definition example_event (id name : string) (epoch ns : Z) (more : pydict) : pydict :=
  [("record_type", PStr "event"); ("event_id", PStr id); ("event_name", PStr name);
   ("trace_id", PStr example_trace); ("lifecycle_id", PStr (example_trace +:+ ":e:0"));
   ("preemption_epoch", PInt epoch); ("timestamp_ns", PInt ns)] ++ more.

Definition example_metadata (more : pydict) : string * pyval :=
  ("metadata", PDict ([("operation", PStr "h2d_restore"); ("transfer_id", PStr "t-1");
    ("block_set_id", PStr "b-1"); ("communication_mapping", PStr KV_RECOVERY_COMMUNICATION_MODE)]
    ++ more)).

Definition example_edge (id x y kind evidence : string) : pydict :=
  [("record_type", PStr "edge"); ("edge_id", PStr id); ("trace_id", PStr example_trace);
   ("from_event_id", PStr x); ("to_event_id", PStr y); ("edge_kind", PStr kind);
   ("evidence_source", PStr evidence)].

Definition example_rows : list pydict :=
  [example_event "e-1" "preempted" 0 10 [];
   example_event "e-2" "communication_started" 1 20 [example_metadata []; ("start_span_id", PStr "s-1")];
   example_edge "x-1" "e-1" "e-2" "data_dependency" KV_RECOVERY_H2D_EVIDENCE;
   example_event "e-3" "communication_done" 1 45
     [example_metadata [("bytes_moved", PInt 4096)]; ("end_span_id", PStr "s-1")];
   example_edge "x-2" "e-2" "e-3" "program_order" "instrumented_execution_context";
   example_event "e-4" "admission_started" 1 50 [];
   example_edge "x-3" "e-3" "e-4" "data_dependency" KV_RECOVERY_H2D_EVIDENCE].

Lemma h2d_recovery_sound_witness :
  ∃ n, normalize_h2d_recovery example_rows example_expected true = Ok n ∧ nh_duration_ns n = 25 ∧
    h2d_edge_evidence example_rows example_expected (nh_start_event_id n) (nh_done_event_id n)
      (nh_edge_ids n).
Proof.
  exists (mkNormalizedH2D "e-2" "e-3" 25 4096 ("x-1", "x-2", "x-3")).
  assert (normalize_h2d_recovery example_rows example_expected true =
    Ok (mkNormalizedH2D "e-2" "e-3" 25 4096 ("x-1", "x-2", "x-3"))) as HN
    by (vm_compute; reflexivity).
  split; [exact HN|]. split; [reflexivity|].
  destruct (h2d_recovery_sound _ _ _ _ HN) as (_ & _ & _ & _ & HE). exact HE.
Defined.
