(* ===== verification/EpisodeNormalizer.v ===== *)
(** * kv_recovery_runtime.py: [normalize_kv_recovery_episode]

    The seven stage profile chain of one recovery, validated against the base
    records, the process roster, the content digests and the ledgers of the shards.
    A set of processes is visited in the order of [elements]; the order decides only
    which of several errors is reported. *)

From Stdlib Require Import ZArith Lia Ascii String.
From stdpp Require Import base list strings gmap sorting.
From S2P Require Import Prelude PyValue Sha256 RuntimeProtocol ProfileProtocol SinkState.
From S2P Require Import TraceSink SinkSteps Hooks HooksInterface LifecycleBridge ProfileLedger Normalizer.

(** ** Python's sorting, iteration and sets *)

(** [v < w] *)
Fixpoint py_lt (v w : pyval) {struct v} : res bool :=
  match v, w with
  | PStr a, PStr b => Ok (bool_decide (String.le a b) && negb (String.eqb a b))
  | PList l, PList m =>
      (fix lt_list (l m : list pyval) : res bool :=
         match l, m with
         | _, [] => Ok false
         | [], _ => Ok true
         | x :: l, y :: m => if py_eqb x y then lt_list l m else py_lt x y
         end) l m
  | _, _ =>
      match num_of v, num_of w with
      | Some a, Some b => Ok (a <? b)
      | _, _ => Raise TypeError
      end
  end.

(** [sorted(l, key=k)], by insertion after the equal keys *)
Fixpoint py_insert {A} (k : A → pyval) (x : A) (l : list A) : res (list A) :=
  match l with
  | [] => Ok [x]
  | y :: l' =>
      before ← py_lt (k x) (k y);
      if before : bool then Ok (x :: l) else l' ← py_insert k x l'; Ok (y :: l')
  end.

Fixpoint py_sort_onto {A} (k : A → pyval) (acc l : list A) : res (list A) :=
  match l with
  | [] => Ok acc
  | x :: l => acc ← py_insert k x acc; py_sort_onto k acc l
  end.

Definition py_sort_by {A} (k : A → pyval) (l : list A) : res (list A) := py_sort_onto k [] l.

(** [list(range(n))] *)
Definition py_range (n : nat) : list Z := seqZ 0 (Z.of_nat n).

(** [[k(x) for x in l] == list(range(len(l)))] *)
Definition is_range {A} (k : A → pyval) (l : list A) : bool :=
  bool_decide (mapM num_of (map k l) = Some (py_range (length l))).

(** [hash(v)] exists *)
Definition hashable (v : pyval) : bool :=
  match v with PList _ | PDict _ => false | _ => true end.

Fixpoint py_dedup (l : list pyval) : list pyval :=
  match l with
  | [] => []
  | x :: l => if existsb (py_eqb x) l then py_dedup l else x :: py_dedup l
  end.

(** [len({f(x) for x in l})] where [f(x)] is a tuple *)
Definition py_set_size {A} (f : A → res (list pyval)) (l : list A) : res nat :=
  keys ← res_mapM (λ x, key ← f x; ensure (forallb hashable key) TypeError ;; Ok (PList key)) l;
  Ok (length (py_dedup keys)).

(** [for x in v] *)
Definition py_iter (v : pyval) : res (list pyval) :=
  match v with
  | PList l => Ok l
  | PStr s => Ok (map (λ c, PStr (String c EmptyString)) (list_ascii_of_string s))
  | PDict d => Ok (map (λ kv, PStr kv.1) d)
  | _ => Raise TypeError
  end.

(** [v.get] needs a dict. *)
Definition as_dict (v : pyval) : res pydict :=
  match v with PDict d => Ok d | _ => Raise AttributeError end.

Definition of_type (t : string) (rows : list pydict) : list pydict :=
  filter (λ r, fieldb r "record_type" t = true) rows.

(** ** The shards of the processes *)

Definition _validate_process_roster (rows : list pydict) (record_type : string)
    (expected : gset string) : res unit :=
  let observed := map (λ r, dict_get r "process_uuid") (of_type record_type rows) in
  raise_v (negb (Nat.eqb (length observed) (size expected)))
    (record_type +:+ " process roster differs") ;;
  ensure (forallb hashable observed) TypeError ;;
  raise_v (negb (forallb is_str observed
                 && bool_decide (list_to_set (omap string_of observed) = expected)))
    (record_type +:+ " process roster differs").

Definition process_rows (process_uuid : string) (rows : list pydict) : list pydict :=
  filter (λ r, fieldb r "process_uuid" process_uuid = true) rows.

(** The bytes the summary's digest is over *)
Definition shard_content (encoder : pydict → res string) (summary_type : string)
    (rows : list pydict) : res string :=
  lines ← res_mapM encoder (filter (λ r, fieldb r "record_type" summary_type = false) rows);
  Ok (str_concat "" lines).

Definition validate_shard_digest (rows : list pydict) (summary_type : string)
    (encoder : pydict → res string) (process_uuid : string) : res unit :=
  let rows := process_rows process_uuid rows in
  match of_type summary_type rows with
  | [summary] =>
      content ← shard_content encoder summary_type rows;
      raise_v (negb (fieldb summary "content_sha256" (sha256_hexdigest content)))
        (summary_type +:+ " content digest differs")
  | _ => Raise (ValueError (summary_type +:+ " process roster differs"))
  end.

Definition _validate_shard_content_digests (rows : list pydict) (expected : gset string)
    (summary_type : string) (encoder : pydict → res string) : res unit :=
  res_iter (validate_shard_digest rows summary_type encoder) (elements expected).

Definition is_profile_data (r : pydict) : bool :=
  existsb (λ t, fieldb r "record_type" t) ProfileRecordType.

Definition validate_profile_ledger (rows : list pydict) (process_uuid : string) : res unit :=
  let rows := process_rows process_uuid rows in
  let data := filter (λ r, is_profile_data r = true) rows in
  let n := Z.of_nat (length data) in
  match of_type "profile_summary" rows with
  | [summary] =>
      raise_v (negb (fieldb summary "close_outcome" "drained"
          && eq_int (dict_get summary "dropped_data_count") 0
          && eq_int (dict_get summary "dropped_control_count") 0
          && eq_int (dict_get summary "writer_failure_count") 0
          && eq_int (dict_get summary "attempted_data_count") n))
        "profile process ledger is incomplete" ;;
      sorted ← py_sort_by id (map (λ r, dict_get r "record_seq") data);
      raise_v (negb (is_range id sorted)) "profile process ledger is incomplete" ;;
      res_iter (λ category,
        raise_v (negb (eq_int (dict_get summary ("written_" +:+ category +:+ "_count"))
                         (Z.of_nat (length (of_type category data)))))
          "profile summary category count differs") ProfileRecordType
  | _ => Raise AssertionError
  end.

Definition _validate_profile_ledgers (rows : list pydict) (expected : gset string) : res unit :=
  res_iter (validate_profile_ledger rows) (elements expected).

(** ** One recovery episode *)

Record ExpectedKVRecoveryEpisode := mkExpectedEpisode {
  xe_h2d : ExpectedH2DRecovery;
  xe_run_id : string;
  xe_runtime_request_id : string;
  xe_resumed_event_id : string;
  xe_first_compute_base_event_id : string;
  xe_compute_kind : string;
  xe_requeue_reasons : list string;
  xe_process_uuids : list string }.

Record NormalizedKVRecoveryEpisode := mkNormalizedEpisode {
  ne_h2d : NormalizedH2DRecovery;
  ne_profile_event_ids : list pyval;
  ne_requeue_count : nat }.

(** [ExpectedKVRecoveryEpisode.__post_init__] *)
Definition ExpectedKVRecoveryEpisode_post_init (x : ExpectedKVRecoveryEpisode) : res unit :=
  raise_v (negb (_HEX32 (xe_run_id x)))
    "run_id must be 32 lowercase hexadecimal characters" ;;
  raise_v (negb (_EVENT_ID (xe_resumed_event_id x)))
    "resumed_event_id must be a canonical base event ID" ;;
  raise_v (negb (_EVENT_ID (xe_first_compute_base_event_id x)))
    "first_compute_base_event_id must be a canonical base event ID" ;;
  raise_v (negb (str_in (xe_compute_kind x) ["prefill"; "decode"]))
    "compute_kind must be prefill or decode" ;;
  raise_v (bool_decide (xe_process_uuids x = [])
           || negb (Nat.eqb (length (remove_dups (xe_process_uuids x)))
                      (length (xe_process_uuids x))))
    "process_uuids must be a nonempty unique roster" ;;
  res_iter (λ p, raise_v (negb (_HEX32 p))
    "process_uuid must be 32 lowercase hexadecimal characters") (xe_process_uuids x).

Definition episode_id_of (x : ExpectedKVRecoveryEpisode) : string :=
  xh_engine_lifecycle_id (xe_h2d x) +:+ ":k:" +:+ str_of_Z (xh_recovery_epoch (xe_h2d x)).

(** The profile rows that are data, with distinct identifiers *)
Definition episode_profile_data (rows : list pydict) : res (list pydict) :=
  data ← py_filter (λ r, in_strs (dict_get r "record_type") ProfileRecordType) rows;
  let ids := omap (λ r, string_of (dict_get r "record_id")) data in
  raise_v (negb (Nat.eqb (length (remove_dups ids)) (length data)))
    "profile record IDs are missing or duplicated" ;;
  Ok data.

Definition is_milestone (x : ExpectedKVRecoveryEpisode) (r : pydict) : bool :=
  fieldb r "record_type" "recovery_event" && fieldb r "run_id" (xe_run_id x)
  && fieldb r "trace_id" (xh_trace_id (xe_h2d x))
  && fieldb r "engine_lifecycle_id" (xh_engine_lifecycle_id (xe_h2d x))
  && fieldb r "runtime_request_id" (xe_runtime_request_id x)
  && eq_int (dict_get r "recovery_epoch") (xh_recovery_epoch (xe_h2d x))
  && fieldb r "episode_id" (episode_id_of x).

Definition milestones_of (x : ExpectedKVRecoveryEpisode) (data : list pydict) : list pydict :=
  filter (λ r, is_milestone x r = true) data.

Definition unique_stages : list string :=
  ["preempt"; "restore_start"; "restore_done"; "scheduler_wakeup"; "admission";
   "first_prefill_or_decode"].

(** [by_stage.get(stage, ())] *)
Definition by_stage (milestones : list pydict) (stage : string) : list pydict :=
  filter (λ r, fieldb r "stage" stage = true) milestones.

Definition stage_of (r : pydict) : res string :=
  match dict_get r "stage" with PStr s => Ok s | _ => Raise TypeError end.

(** The milestones by their stage *)
Record EpisodeChain := mkChain {
  ch_preempt : pydict;
  ch_restore_start : pydict;
  ch_restore_done : pydict;
  ch_wakeup : pydict;
  ch_requeues : list pydict;
  ch_admission : pydict;
  ch_first_compute : pydict }.

Definition chain_rows (c : EpisodeChain) : list pydict :=
  [ch_preempt c; ch_restore_start c; ch_restore_done c; ch_wakeup c] ++ ch_requeues c
  ++ [ch_admission c; ch_first_compute c].

(** The only row of a unique stage *)
Definition sole_stage (milestones : list pydict) (stage : string) : res pydict :=
  match by_stage milestones stage with
  | [r] => Ok r
  | _ => Raise (ValueError "unique recovery stage is missing or duplicated")
  end.

Definition episode_stages (x : ExpectedKVRecoveryEpisode) (milestones : list pydict)
    : res EpisodeChain :=
  stages ← res_mapM stage_of milestones;
  preempt ← sole_stage milestones "preempt";
  restore_start ← sole_stage milestones "restore_start";
  restore_done ← sole_stage milestones "restore_done";
  wakeup ← sole_stage milestones "scheduler_wakeup";
  admission ← sole_stage milestones "admission";
  first_compute ← sole_stage milestones "first_prefill_or_decode";
  raise_v (negb (forallb (λ s, str_in s (unique_stages ++ ["requeue"])) stages))
    "recovery episode contains an unknown stage" ;;
  requeues ← py_sort_by (λ r, dict_get r "occurrence") (by_stage milestones "requeue");
  raise_v (negb (is_range (λ r, dict_get r "occurrence") requeues))
    "requeue occurrence sequence is not contiguous" ;;
  raise_v (negb (bool_decide (map (λ r, string_of (dict_get r "requeue_reason")) requeues
                              = map Some (xe_requeue_reasons x))))
    "requeue reasons differ from the exact expectation" ;;
  Ok (mkChain preempt restore_start restore_done wakeup requeues admission first_compute).

(** The loop over [enumerate(chain)] *)
Fixpoint check_chain (first : bool) (previous_id : pyval) (previous_timestamp : Z)
    (chain : list pydict) : res unit :=
  match chain with
  | [] => Ok tt
  | r :: chain =>
      raise_v (negb (py_eqb (dict_get r "from_profile_event_id") previous_id))
        "profile predecessor chain is broken" ;;
      timestamp ← uint64_field r "timestamp_ns" "profile stage timestamps are inverted";
      raise_v (negb first && (timestamp <? previous_timestamp))
        "profile stage timestamps are inverted" ;;
      check_chain false (dict_get r "record_id") timestamp chain
  end.

(** The associations of the milestones with the base events *)
Definition check_base_associations (x : ExpectedKVRecoveryEpisode) (h2d : NormalizedH2DRecovery)
    (c : EpisodeChain) : res unit :=
  raise_v (negb (fieldb (ch_preempt c) "base_event_id" (xh_preempted_event_id (xe_h2d x))))
    "profile preempt base association differs" ;;
  raise_v (negb (fieldb (ch_restore_start c) "base_event_id" (nh_start_event_id h2d)))
    "restore_start base association differs" ;;
  raise_v (negb (fieldb (ch_restore_done c) "base_event_id" (nh_done_event_id h2d)))
    "restore_done base association differs" ;;
  raise_v (negb (forallb (λ r, is_none (dict_get r "base_event_id"))
                   (ch_wakeup c :: ch_requeues c)))
    "profile-only stage contains a base association" ;;
  raise_v (negb (fieldb (ch_admission c) "base_event_id" (xe_resumed_event_id x)
                 && fieldb (ch_admission c) "base_admission_started_event_id"
                      (xh_admission_started_event_id (xe_h2d x))))
    "admission base associations differ" ;;
  raise_v (negb (fieldb (ch_first_compute c) "base_event_id" (xe_first_compute_base_event_id x)
                 && fieldb (ch_first_compute c) "compute_kind" (xe_compute_kind x)
                 && fieldb (ch_first_compute c) "child_observation_kind"
                      "worker_model_forward_entry"
                 && fieldb (ch_first_compute c) "base_association_kind"
                      "phase_child_observation"
                 && fieldb (ch_first_compute c) "base_association_evidence"
                      "instrumented_execution_context"))
    "first compute child association differs".

(** [events] has distinct identifiers: [normalize_h2d_recovery] has checked them. *)
Definition check_later_event (x : ExpectedKVRecoveryEpisode) (events : list pydict)
    (id_name : string * string) : res unit :=
  raise_v (negb match event_named events id_name.1 with
                | Some r => fieldb r "event_name" id_name.2
                            && endpoint_identity (xe_h2d x) (xh_recovery_epoch (xe_h2d x)) r
                | None => false
                end)
    "later base phase association is missing or drifted".

Definition check_transfer_rows (x : ExpectedKVRecoveryEpisode) (h2d : NormalizedH2DRecovery)
    (data : list pydict) (c : EpisodeChain) : res unit :=
  match filter (λ r, (fieldb r "record_type" "transfer_event"
                      && fieldb r "transfer_id" (xh_transfer_id (xe_h2d x))) = true) data with
  | [submitted; done] =>
      raise_v (negb (fieldb submitted "transfer_phase" "submit"
                     && fieldb done "transfer_phase" "done"))
        "profile transfer pair is missing, reordered, or duplicated" ;;
      raise_v (negb (py_eqb (dict_get submitted "timestamp_ns")
                       (dict_get (ch_restore_start c) "timestamp_ns")
                     && py_eqb (dict_get done "timestamp_ns")
                          (dict_get (ch_restore_done c) "timestamp_ns")
                     && eq_int (dict_get done "bytes_moved") (nh_bytes_moved h2d)))
        "restore milestones differ from transfer evidence"
  | _ => Raise (ValueError "profile transfer pair is missing, reordered, or duplicated")
  end.

Definition transfer_identity (x : ExpectedKVRecoveryEpisode) (h2d : NormalizedH2DRecovery)
    (r : pydict) : bool :=
  fieldb r "transfer_id" (xh_transfer_id (xe_h2d x))
  && fieldb r "block_set_id" (xh_block_set_id (xe_h2d x))
  && (fieldb r "stage" "restore_start"
      || eq_int (dict_get r "bytes_moved") (nh_bytes_moved h2d)).

Definition check_chain_transfer (x : ExpectedKVRecoveryEpisode) (h2d : NormalizedH2DRecovery)
    (c : EpisodeChain) : res unit :=
  raise_v (negb (forallb (transfer_identity x h2d) (tail (chain_rows c))))
    "recovery stage transfer identity drifted" ;;
  raise_v (negb (is_none (dict_get (ch_restore_start c) "bytes_moved")))
    "restore_start must not report bytes".

(** [row.get("blocks", ())] *)
Definition chunk_blocks (r : pydict) : res (list pyval) :=
  py_iter (default (PList []) (dict_find r "blocks")).

Definition block_key (names : list string) (v : pyval) : res (list pyval) :=
  d ← as_dict v; Ok (map (dict_get d) names).

(** The block set of the episode *)
Definition check_block_chunks (x : ExpectedKVRecoveryEpisode) (data : list pydict) : res unit :=
  let chunks := filter (λ r, (fieldb r "record_type" "block_set_chunk"
      && fieldb r "block_set_id" (xh_block_set_id (xe_h2d x))
      && fieldb r "episode_id" (episode_id_of x)) = true) data in
  raise_v (bool_decide (chunks = [])) "logical recovery block set is missing" ;;
  chunks ← py_sort_by (λ r, dict_get r "chunk_index") chunks;
  let chunk_count := Z.of_nat (length chunks) in
  raise_v (negb (is_range (λ r, dict_get r "chunk_index") chunks))
    "block chunks are not contiguous" ;;
  raise_v (negb (forallb (λ r, eq_int (dict_get r "chunk_count") chunk_count) chunks))
    "block chunk count differs" ;;
  blocks ← res_mapM chunk_blocks chunks;
  let blocks := concat blocks in
  let bad := "logical recovery block rows are incomplete or duplicated" in
  raise_v (bool_decide (length blocks = 0%nat)
           || negb (forallb (λ r, eq_int (dict_get r "total_block_count")
                                    (Z.of_nat (length blocks))) chunks)) bad ;;
  ordinals ← py_set_size (block_key ["group_index"; "logical_ordinal"]) blocks;
  raise_v (negb (Nat.eqb ordinals (length blocks))) bad ;;
  block_ids ← py_set_size (block_key ["logical_block_id"]) blocks;
  raise_v (negb (Nat.eqb block_ids (length blocks))) bad.

Definition normalize_kv_recovery_episode (base_rows profile_rows : list pydict)
    (x : ExpectedKVRecoveryEpisode) (profile_evidence_complete : bool)
    : res NormalizedKVRecoveryEpisode :=
  h2d ← normalize_h2d_recovery base_rows (xe_h2d x) profile_evidence_complete;
  let processes : gset string := list_to_set (xe_process_uuids x) in
  _validate_process_roster base_rows "process_start" processes ;;
  _validate_process_roster base_rows "process_summary" processes ;;
  _validate_process_roster profile_rows "profile_start" processes ;;
  _validate_process_roster profile_rows "profile_summary" processes ;;
  _validate_shard_content_digests base_rows processes "process_summary" canonical_json_line ;;
  _validate_shard_content_digests profile_rows processes "profile_summary" profile_record_line ;;
  raise_v (existsb (λ r, fieldb r "record_type" "loss_interval") profile_rows)
    "profile evidence contains loss" ;;
  _validate_profile_ledgers profile_rows processes ;;
  data ← episode_profile_data profile_rows;
  chain ← episode_stages x (milestones_of x data);
  check_chain true PNone 0 (chain_rows chain) ;;
  check_base_associations x h2d chain ;;
  res_iter (check_later_event x (of_type "event" base_rows))
    [(xe_resumed_event_id x, "resumed");
     (xe_first_compute_base_event_id x, xe_compute_kind x +:+ "_started")] ;;
  check_transfer_rows x h2d data chain ;;
  check_chain_transfer x h2d chain ;;
  check_block_chunks x data ;;
  Ok (mkNormalizedEpisode h2d (map (λ r, dict_get r "record_id") (chain_rows chain))
        (length (ch_requeues chain))).

(** ** Lemmas *)

Lemma py_insert_permutation {A} (k : A → pyval) x l l' :
  py_insert k x l = Ok l' → l' ≡ₚ x :: l.
Proof.
  revert l'. induction l as [|y l IH]; intros l' Hl; cbn [py_insert] in Hl; [by inv_ok|].
  apply bind_ok in Hl as ([] & _ & Hl); [by inv_ok|].
  apply bind_ok in Hl as (l'' & Hl & [= <-]). rewrite (IH _ Hl). constructor.
Qed.

Lemma py_sort_by_permutation {A} (k : A → pyval) l l' : py_sort_by k l = Ok l' → l' ≡ₚ l.
Proof.
  unfold py_sort_by. enough (∀ acc, py_sort_onto k acc l = Ok l' → l' ≡ₚ acc ++ l) as Hs.
  { by apply Hs. }
  induction l as [|x l IH]; intros acc Hl; cbn [py_sort_onto] in Hl.
  - injection Hl as <-. by rewrite app_nil_r.
  - apply bind_ok in Hl as (acc' & Ha%py_insert_permutation & Hl).
    rewrite (IH _ Hl), Ha. simpl. by rewrite Permutation_middle.
Qed.

(** The keys of a list sorted onto [range]: a permutation of it *)
Lemma is_range_ok {A} (k : A → pyval) l :
  is_range k l = true → Forall2 (λ x z, num_of (k x) = Some z) l (py_range (length l)).
Proof.
  unfold is_range. rewrite bool_decide_eq_true, mapM_Some, Forall2_fmap_l.
  done.
Qed.

Lemma py_dedup_length l : (length (py_dedup l) ≤ length l)%nat.
Proof. induction l as [|x l IH]; simpl; [done|]. destruct (existsb _ _); simpl; lia. Qed.

(** The size of a set of tuples is the number of rows: no two are equal. *)
Lemma py_dedup_all l :
  length (py_dedup l) = length l →
  ∀ i j x y, (i < j)%nat → l !! i = Some x → l !! j = Some y → py_eqb x y = false.
Proof.
  induction l as [|x l IH]; [done|]. simpl. pose proof (py_dedup_length l).
  destruct (existsb (py_eqb x) l) eqn:E; simpl; [lia|]. intros [= Hl] [|i] [|j] a b Hij Ha Hb; try lia.
  - injection Ha as <-. apply not_true_iff_false. intros Hab. apply not_true_iff_false in E.
    apply E, existsb_exists. exists b. split; [|done].
    by apply list_elem_of_In, list_elem_of_lookup_2 in Hb || (apply list_elem_of_In; by eapply list_elem_of_lookup_2).
  - eapply (IH Hl i j); eauto; lia.
Qed.

Lemma py_set_size_ok {A} (f : A → res (list pyval)) l :
  py_set_size f l = Ok (length l) →
  ∃ keys, Forall2 (λ x key, f x = Ok key) l keys ∧
    ∀ i j k1 k2, (i < j)%nat → keys !! i = Some k1 → keys !! j = Some k2 →
      py_eqb (PList k1) (PList k2) = false.
Proof.
  unfold py_set_size. intros Hs. apply bind_ok in Hs as (ks & Hk%res_mapM_ok & [= Hl]).
  assert (∃ keys, ks = map PList keys ∧ Forall2 (λ x key, f x = Ok key) l keys) as (keys & -> & HF).
  { clear Hl. induction Hk as [|x k l ks Hx _ (keys & -> & IH)]; [by exists []|].
    apply bind_ok in Hx as (key & Hx & Hy). inv_ok. exists (key :: keys). by split; [|constructor]. }
  exists keys. split; [done|]. intros i j k1 k2 Hij H1 H2.
  eapply (py_dedup_all (map PList keys)); [|exact Hij|by rewrite list_lookup_fmap, H1|by rewrite list_lookup_fmap, H2].
  rewrite Hl, length_map. by eapply Forall2_length.
Qed.

(** [l] by the classes [ss] of [f] *)
Lemma partition_by_key {A} (f : A → option string) (ss : list string) (l : list A) :
  NoDup ss → Forall (λ x, ∃ s, f x = Some s ∧ s ∈ ss) l →
  concat (map (λ s, filter (λ x, bool_decide (f x = Some s) = true) l) ss) ≡ₚ l.
Proof.
  intros Hnd. revert l. induction Hnd as [|s ss Hs Hnd IH]; intros l Hl.
  - destruct l as [|x l]; [done|]. apply Forall_cons in Hl as [(s & _ & Hs) _].
    by apply elem_of_nil in Hs.
  - simpl. set (p x := bool_decide (f x = Some s) = true).
    trans (filter p l ++ filter (λ x, ¬ p x) l); [|apply filter_app_complement].
    apply Permutation_app_head.
    rewrite <- (IH (filter (λ x, ¬ p x) l)).
    + apply reflexive_eq. f_equal. apply map_ext_in. intros s' Hs'%list_elem_of_In.
      rewrite list_filter_filter. apply list_filter_iff. intros x. unfold p.
      rewrite !bool_decide_eq_true. split; [|tauto]. intros Ex. split; [done|].
      rewrite Ex. intros [= ->]. contradiction.
    + apply Forall_forall. intros x [Hp Hx]%list_elem_of_filter.
      rewrite Forall_forall in Hl. destruct (Hl x Hx) as (s' & Hf & Hin). exists s'.
      split; [done|]. apply elem_of_cons in Hin as [->|]; [|done].
      unfold p in Hp. by rewrite bool_decide_eq_true in Hp.
Qed.

Lemma sole_stage_ok l s r : sole_stage l s = Ok r → by_stage l s = [r].
Proof. unfold sole_stage. destruct (by_stage l s) as [|? [|]]; naive_solver. Qed.

(** The stages of a chain, in its order *)
Definition stage_order (requeues : nat) : list string :=
  ["preempt"; "restore_start"; "restore_done"; "scheduler_wakeup"] ++ replicate requeues "requeue"
  ++ ["admission"; "first_prefill_or_decode"].

Definition stage_rows (l : list pydict) : list (list pydict) :=
  map (by_stage l) ["preempt"; "restore_start"; "restore_done"; "scheduler_wakeup"; "requeue";
                    "admission"; "first_prefill_or_decode"].

Lemma by_stage_partition l stages :
  res_mapM stage_of l = Ok stages →
  forallb (λ s, str_in s (unique_stages ++ ["requeue"])) stages = true →
  concat (stage_rows l) ≡ₚ l.
Proof.
  intros Hs%res_mapM_ok Hall.
  rewrite <- (partition_by_key (λ r, string_of (dict_get r "stage"))
    ["preempt"; "restore_start"; "restore_done"; "scheduler_wakeup"; "requeue"; "admission";
     "first_prefill_or_decode"] l) at 2.
  - apply reflexive_eq. unfold stage_rows. f_equal. apply map_ext. intros s. unfold by_stage.
    apply list_filter_iff. intros r. rewrite fieldb_spec, bool_decide_eq_true. unfold string_of.
    destruct (dict_get r "stage"); naive_solver.
  - apply (bool_decide_unpack _). by vm_compute.
  - induction Hs as [|r s l stages Hr Hs IH]; [constructor|].
    simpl in Hall. apply andb_true_iff in Hall as [Hin Hall]. constructor; [|by apply IH].
    exists s. unfold stage_of in Hr. destruct (dict_get r "stage"); try done. injection Hr as ->.
    split; [done|]. apply str_in_spec in Hin. unfold unique_stages in Hin.
    repeat (apply elem_of_cons in Hin as [->|Hin]; [repeat (by left) || set_solver|]).
    by apply elem_of_nil in Hin.
Qed.

Lemma by_stage_elem l s r : r ∈ by_stage l s ↔ r ∈ l ∧ dict_get r "stage" = PStr s.
Proof. unfold by_stage. rewrite list_elem_of_filter, fieldb_spec. tauto. Qed.

(** The chain is every milestone of the episode, a row for each stage in the order of
    [stage_order], the requeues numbered from 0 and with the expected reasons. *)
Record chain_of_stages (x : ExpectedKVRecoveryEpisode) (l : list pydict) (c : EpisodeChain)
    : Prop := {
  cs_rows : chain_rows c ≡ₚ l;
  cs_stages : map (λ r, dict_get r "stage") (chain_rows c)
    = map PStr (stage_order (length (ch_requeues c)));
  cs_occurrences : Forall2 (λ r z, num_of (dict_get r "occurrence") = Some z)
    (ch_requeues c) (py_range (length (ch_requeues c)));
  cs_reasons : Forall2 (λ r s, dict_get r "requeue_reason" = PStr s)
    (ch_requeues c) (xe_requeue_reasons x) }.

Lemma string_reasons_ok k l (reasons : list string) :
  map (λ r, string_of (dict_get r k)) l = map Some reasons →
  Forall2 (λ r s, dict_get r k = PStr s) l reasons.
Proof.
  revert reasons. induction l as [|r l IH]; intros [|s reasons]; try done.
  intros [= Hr Hl]. constructor; [|by apply IH].
  unfold string_of in Hr. destruct (dict_get r k); naive_solver.
Qed.

Lemma episode_stages_ok x l c : episode_stages x l = Ok c → chain_of_stages x l c.
Proof.
  unfold episode_stages. intros HS.
  apply bind_ok in HS as (stages & Hst & HS).
  apply bind_ok in HS as (r1 & H1%sole_stage_ok & HS).
  apply bind_ok in HS as (r2 & H2%sole_stage_ok & HS).
  apply bind_ok in HS as (r3 & H3%sole_stage_ok & HS).
  apply bind_ok in HS as (r4 & H4%sole_stage_ok & HS).
  apply bind_ok in HS as (r5 & H5%sole_stage_ok & HS).
  apply bind_ok in HS as (r6 & H6%sole_stage_ok & HS).
  apply bind_ok in HS as ([] & Hall & HS). apply raise_v_ok, negb_false_iff in Hall.
  apply bind_ok in HS as (requeues & Hsort%py_sort_by_permutation & HS).
  apply bind_ok in HS as ([] & Hocc & HS).
  apply raise_v_ok, negb_false_iff, is_range_ok in Hocc.
  apply bind_ok in HS as ([] & Hrs & [= <-]).
  apply raise_v_ok, negb_false_iff, bool_decide_eq_true, string_reasons_ok in Hrs.
  constructor; simpl; [| |exact Hocc|exact Hrs].
  - rewrite <- (by_stage_partition l stages) by done. unfold chain_rows, stage_rows. simpl.
    rewrite H1, H2, H3, H4, H5, H6, <- Hsort. done.
  - assert (∀ r s, by_stage l s = [r] → dict_get r "stage" = PStr s) as Hone.
    { intros r s E. apply (by_stage_elem l s r). rewrite E. by left. }
    unfold chain_rows, stage_order. rewrite !map_app. simpl.
    rewrite (Hone _ _ H1), (Hone _ _ H2), (Hone _ _ H3), (Hone _ _ H4), (Hone _ _ H5), (Hone _ _ H6).
    do 5 f_equal. rewrite fmap_replicate. clear Hocc Hrs.
    assert (Forall (λ r, dict_get r "stage" = PStr "requeue") requeues) as Hq.
    { apply Forall_forall. intros r Hr. rewrite Hsort in Hr. by apply by_stage_elem in Hr as [_ ?]. }
    clear Hsort. induction Hq as [|r q Hr _ IH]; [done|]. simpl. by rewrite Hr, IH.
Qed.

(** Each row names its predecessor and carries a time that is not before it. *)
Fixpoint linked (previous_id : pyval) (previous_ns : Z) (chain : list pydict) : Prop :=
  match chain with
  | [] => True
  | r :: chain =>
      py_eqb (dict_get r "from_profile_event_id") previous_id = true ∧
      ∃ ns, dict_get r "timestamp_ns" = PInt ns ∧ previous_ns ≤ ns ≤ _UINT64_MAX ∧
        linked (dict_get r "record_id") ns chain
  end.

Lemma check_chain_ok first id ns l :
  0 ≤ ns → (first = true → ns = 0) → check_chain first id ns l = Ok tt → linked id ns l.
Proof.
  revert first id ns. induction l as [|r l IH]; intros first id ns Hns Hf HC; [done|].
  cbn [check_chain] in HC.
  apply bind_ok in HC as ([] & Hid & HC). apply raise_v_ok, negb_false_iff in Hid.
  apply bind_ok in HC as (t & Ht%uint64_field_ok & HC).
  apply bind_ok in HC as ([] & Hlt & HC). apply raise_v_ok in Hlt.
  split; [done|]. exists t. destruct Ht as [Ht Hb]. split; [done|].
  assert (ns ≤ t) as Hle.
  { destruct first; simpl in Hlt; [rewrite Hf by done; lia|by apply Z.ltb_ge in Hlt]. }
  split; [lia|]. eapply (IH false); [lia|done|exact HC].
Qed.

(** ** Shards *)

(** The shard of [p] has one start and one summary, which holds the digest of the
    other rows. *)
Definition shard_digest_ok (rows : list pydict) (summary_type : string)
    (encoder : pydict → res string) (p : string) : Prop :=
  ∃ summary content, of_type summary_type (process_rows p rows) = [summary] ∧
    shard_content encoder summary_type (process_rows p rows) = Ok content ∧
    dict_get summary "content_sha256" = PStr (sha256_hexdigest content).

Lemma validate_shard_digest_ok rows t enc p :
  validate_shard_digest rows t enc p = Ok tt → shard_digest_ok rows t enc p.
Proof.
  unfold validate_shard_digest. destruct (of_type t (process_rows p rows)) as [|s [|]] eqn:E; try done.
  intros HD. apply bind_ok in HD as (content & Hc & HD). apply raise_v_ok, negb_false_iff, fieldb_spec in HD.
  by exists s, content.
Qed.

(** The summary of [p] was drained without loss; its data rows are as many as were
    attempted, numbered from 0 without a gap, and counted by type. *)
Record ledger_complete (rows : list pydict) (p : string) (summary : pydict) : Prop := {
  lc_summary : of_type "profile_summary" (process_rows p rows) = [summary];
  lc_drained : dict_get summary "close_outcome" = PStr "drained";
  lc_dropped : Forall (λ k, eq_int (dict_get summary k) 0 = true)
    ["dropped_data_count"; "dropped_control_count"; "writer_failure_count"];
  lc_attempted : eq_int (dict_get summary "attempted_data_count")
    (Z.of_nat (length (filter (λ r, is_profile_data r = true) (process_rows p rows)))) = true;
  lc_sequence : ∃ seqs, Forall2 (λ r z, num_of (dict_get r "record_seq") = Some z)
      (filter (λ r, is_profile_data r = true) (process_rows p rows)) seqs ∧
    seqs ≡ₚ py_range (length seqs);
  lc_counts : Forall (λ t, eq_int (dict_get summary ("written_" +:+ t +:+ "_count"))
      (Z.of_nat (length (of_type t (filter (λ r, is_profile_data r = true) (process_rows p rows)))))
      = true) ProfileRecordType }.

Lemma validate_profile_ledger_ok rows p :
  validate_profile_ledger rows p = Ok tt → ∃ summary, ledger_complete rows p summary.
Proof.
  unfold validate_profile_ledger.
  destruct (of_type "profile_summary" (process_rows p rows)) as [|s [|]] eqn:E; try done.
  set (data := filter (λ r, is_profile_data r = true) (process_rows p rows)).
  intros HL. apply bind_ok in HL as ([] & Hhead & HL). apply raise_v_ok, negb_false_iff in Hhead.
  apply bind_ok in HL as (sorted & Hsort%py_sort_by_permutation & HL).
  apply bind_ok in HL as ([] & Hrange & HL). apply raise_v_ok, negb_false_iff, is_range_ok in Hrange.
  apply res_iter_ok in HL. bool_prop.
  exists s. constructor; try done.
  - by apply fieldb_spec.
  - repeat constructor; done.
  - destruct (Permutation_Forall2 Hsort Hrange) as (seqs & Hp & HF).
    rewrite Forall2_fmap_l in HF. exists seqs. split; [exact HF|]. rewrite <- Hp.
    unfold py_range. by rewrite length_seqZ, Nat2Z.id.
  - eapply Forall_impl; [exact HL|]. cbv beta. intros t Ht.
    by apply raise_v_ok, negb_false_iff in Ht.
Qed.

Lemma in_processes (l : list string) (P : string → Prop) :
  Forall P (elements (list_to_set l : gset string)) → Forall P l.
Proof. rewrite !Forall_forall. intros HP p Hp. apply HP. set_solver. Qed.

(** One row of the type for each process *)
Lemma validate_process_roster_ok rows t (l : list string) :
  NoDup l → _validate_process_roster rows t (list_to_set l) = Ok tt →
  map (λ r, dict_get r "process_uuid") (of_type t rows) ≡ₚ map PStr l.
Proof.
  intros Hnd. unfold _validate_process_roster.
  set (obs := map (λ r, dict_get r "process_uuid") (of_type t rows)).
  intros HR. apply bind_ok in HR as ([] & Hlen & HR).
  apply raise_v_ok, negb_false_iff, Nat.eqb_eq in Hlen.
  apply bind_ok in HR as ([] & _ & HR). apply raise_v_ok, negb_false_iff, andb_true_iff in HR as [Hs Hset].
  apply bool_decide_eq_true in Hset. rewrite size_list_to_set in Hlen by done.
  assert (obs = map PStr (omap string_of obs)) as Hobs.
  { clear -Hs. induction obs as [|v obs IH]; [done|]. simpl in Hs. apply andb_true_iff in Hs as [Hv Hs].
    destruct v; try done. rewrite (IH Hs) at 1. done. }
  rewrite Hobs. apply Permutation_map. symmetry.
  apply NoDup_Permutation; [done| |intros p; set_solver].
  rewrite Hobs, length_map in Hlen. apply NoDup_ListNoDup.
  eapply NoDup_incl_NoDup; [by apply NoDup_ListNoDup, Hnd|lia|].
  intros p Hp%list_elem_of_In. apply list_elem_of_In. set_solver.
Qed.

Lemma py_filter_eq {A} (p : A → res bool) (q : A → bool) l l' :
  (∀ x b, p x = Ok b → b = q x) → py_filter p l = Ok l' → l' = filter (λ x, q x = true) l.
Proof.
  intros Hpq. revert l'. induction l as [|x l IH]; intros l' Hl; cbn [py_filter] in Hl.
  - by injection Hl as <-.
  - apply bind_ok in Hl as (b & Hb & Hl). apply bind_ok in Hl as (l'' & Hl & [= <-]).
    apply Hpq in Hb as ->. rewrite filter_cons, <- (IH l'') by done. by destruct (q x).
Qed.

(** The data rows and their distinct identifiers *)
Definition profile_data_rows (rows : list pydict) : list pydict :=
  filter (λ r, is_profile_data r = true) rows.

Lemma episode_profile_data_ok rows data :
  episode_profile_data rows = Ok data →
  data = profile_data_rows rows ∧
  ∃ ids, map (λ r, dict_get r "record_id") data = map PStr ids ∧ NoDup ids.
Proof.
  unfold episode_profile_data. intros HD.
  apply bind_ok in HD as (data' & Hf & HD). apply bind_ok in HD as ([] & Hn & [= <-]).
  apply raise_v_ok, negb_false_iff, Nat.eqb_eq in Hn. split.
  - eapply py_filter_eq; [|exact Hf]. intros r b. unfold is_profile_data, in_strs, fieldb.
    destruct (dict_get r "record_type"); intros [= <-]; try done.
  - clear Hf. pose proof (length_remove_dups (omap (λ r, string_of (dict_get r "record_id")) data')) as Hr.
    pose proof (length_omap_le (λ r, string_of (dict_get r "record_id")) data') as Ho.
    exists (omap (λ r, string_of (dict_get r "record_id")) data'). split; [|apply remove_dups_NoDup; lia].
    assert (length (omap (λ r, string_of (dict_get r "record_id")) data') = length data') as Hl by lia.
    apply length_omap_all in Hl. clear -Hl. induction Hl as [|r l [s Hs] _ IH]; [done|].
    simpl. rewrite Hs. unfold string_of in Hs. destruct (dict_get r "record_id"); try done.
    injection Hs as ->. simpl. by f_equal.
Qed.

(** ** What an accepted episode proves *)

(** The milestones name the base events of the recovery. *)
Record base_associated (x : ExpectedKVRecoveryEpisode) (h2d : NormalizedH2DRecovery)
    (c : EpisodeChain) : Prop := {
  ba_preempt : dict_get (ch_preempt c) "base_event_id" = PStr (xh_preempted_event_id (xe_h2d x));
  ba_start : dict_get (ch_restore_start c) "base_event_id" = PStr (nh_start_event_id h2d);
  ba_done : dict_get (ch_restore_done c) "base_event_id" = PStr (nh_done_event_id h2d);
  ba_profile_only : Forall (λ r, dict_get r "base_event_id" = PNone) (ch_wakeup c :: ch_requeues c);
  ba_admission : dict_get (ch_admission c) "base_event_id" = PStr (xe_resumed_event_id x) ∧
    dict_get (ch_admission c) "base_admission_started_event_id"
    = PStr (xh_admission_started_event_id (xe_h2d x));
  ba_compute : dict_get (ch_first_compute c) "base_event_id" = PStr (xe_first_compute_base_event_id x) ∧
    dict_get (ch_first_compute c) "compute_kind" = PStr (xe_compute_kind x) }.

Lemma check_base_associations_ok x h2d c :
  check_base_associations x h2d c = Ok tt → base_associated x h2d c.
Proof.
  unfold check_base_associations. intros HA. inv_profile.
  repeat match goal with H : negb _ = false |- _ => apply negb_false_iff in H end.
  rewrite !andb_true_iff in *. rewrite !fieldb_spec in *. destruct_and?.
  constructor; try done. apply Forall_forall. intros r Hr.
  match goal with H : forallb _ _ = true |- _ => rewrite forallb_forall in H; specialize (H r) end.
  apply is_none_spec. match goal with H : _ → is_none _ = true |- _ => apply H end.
  by apply list_elem_of_In.
Qed.

(** The chunks of the block set are all there, and so are their blocks, each with its
    own place and identifier. *)
Definition distinct_keys (names : list string) (blocks : list pyval) : Prop :=
  ∃ keys, Forall2 (λ v key, ∃ d, v = PDict d ∧ key = map (dict_get d) names) blocks keys ∧
    ∀ i j k1 k2, (i < j)%nat → keys !! i = Some k1 → keys !! j = Some k2 →
      py_eqb (PList k1) (PList k2) = false.

Definition block_set_complete (x : ExpectedKVRecoveryEpisode) (data : list pydict) : Prop :=
  ∃ chunks blocks,
    chunks ≡ₚ filter (λ r, (fieldb r "record_type" "block_set_chunk"
      && fieldb r "block_set_id" (xh_block_set_id (xe_h2d x))
      && fieldb r "episode_id" (episode_id_of x)) = true) data ∧
    Forall2 (λ r z, num_of (dict_get r "chunk_index") = Some z) chunks (py_range (length chunks)) ∧
    Forall (λ r, eq_int (dict_get r "chunk_count") (Z.of_nat (length chunks)) = true) chunks ∧
    Forall2 (λ r b, chunk_blocks r = Ok b) chunks blocks ∧
    concat blocks ≠ [] ∧
    Forall (λ r, eq_int (dict_get r "total_block_count") (Z.of_nat (length (concat blocks))) = true)
      chunks ∧
    distinct_keys ["group_index"; "logical_ordinal"] (concat blocks) ∧
    distinct_keys ["logical_block_id"] (concat blocks).

Lemma distinct_keys_ok names blocks :
  py_set_size (block_key names) blocks = Ok (length blocks) → distinct_keys names blocks.
Proof.
  intros (keys & Hk & Hd)%py_set_size_ok. exists keys. split; [|exact Hd].
  eapply Forall2_impl; [exact Hk|]. cbv beta. intros v key HK. unfold block_key, as_dict in HK.
  apply bind_ok in HK as (d & Hv & [= <-]). destruct v; try done. injection Hv as ->. by exists d.
Qed.

Lemma forallb_Forall_true {A} (p : A → bool) l : forallb p l = true → Forall (λ x, p x = true) l.
Proof. rewrite forallb_forall, Forall_forall. intros Hp x Hx. by apply Hp, list_elem_of_In. Qed.

Lemma check_block_chunks_ok x data : check_block_chunks x data = Ok tt → block_set_complete x data.
Proof.
  unfold check_block_chunks. intros HB.
  apply bind_ok in HB as ([] & _ & HB).
  apply bind_ok in HB as (chunks & Hsort%py_sort_by_permutation & HB).
  apply bind_ok in HB as ([] & Hr & HB). apply raise_v_ok, negb_false_iff, is_range_ok in Hr.
  apply bind_ok in HB as ([] & Hc & HB). apply raise_v_ok, negb_false_iff, forallb_Forall_true in Hc.
  apply bind_ok in HB as (blocks & Hb%res_mapM_ok & HB).
  apply bind_ok in HB as ([] & Ht & HB). apply raise_v_ok, orb_false_iff in Ht as [Hne Ht].
  apply negb_false_iff, forallb_Forall_true in Ht. apply bool_decide_eq_false in Hne.
  apply bind_ok in HB as (ordinals & Ho & HB).
  apply bind_ok in HB as ([] & Hol & HB). apply raise_v_ok, negb_false_iff, Nat.eqb_eq in Hol.
  apply bind_ok in HB as (ids & Hi & HB). apply raise_v_ok, negb_false_iff, Nat.eqb_eq in HB.
  subst. exists chunks, blocks. split_and!; try done.
  - by intros E; rewrite E in Hne.
  - by apply distinct_keys_ok.
  - by apply distinct_keys_ok.
Qed.

(** The transfer's two profile rows and the milestones agree. *)
Record transfer_agrees (x : ExpectedKVRecoveryEpisode) (h2d : NormalizedH2DRecovery)
    (data : list pydict) (c : EpisodeChain) : Prop := {
  ta_rows : ∃ submitted done_row,
    filter (λ r, (fieldb r "record_type" "transfer_event"
      && fieldb r "transfer_id" (xh_transfer_id (xe_h2d x))) = true) data = [submitted; done_row] ∧
    dict_get submitted "transfer_phase" = PStr "submit" ∧
    dict_get done_row "transfer_phase" = PStr "done" ∧
    eq_int (dict_get done_row "bytes_moved") (nh_bytes_moved h2d) = true;
  ta_chain : Forall (λ r, transfer_identity x h2d r = true) (tail (chain_rows c)) }.

Lemma transfer_agrees_ok x h2d data c :
  check_transfer_rows x h2d data c = Ok tt → check_chain_transfer x h2d c = Ok tt →
  transfer_agrees x h2d data c.
Proof.
  unfold check_transfer_rows, check_chain_transfer. intros HT HC.
  destruct (filter _ data) as [|s [|d [|]]] eqn:E; try done. inv_profile.
  repeat match goal with H : negb _ = false |- _ => apply negb_false_iff in H end.
  rewrite !andb_true_iff, !fieldb_spec in *. destruct_and?.
  constructor; [by exists s, d|by apply forallb_Forall_true].
Qed.

Lemma later_event_ok x events id name :
  check_later_event x events (id, name) = Ok tt →
  ∃ r, r ∈ events ∧ dict_get r "event_id" = PStr id ∧ dict_get r "event_name" = PStr name ∧
    endpoint_identity (xe_h2d x) (xh_recovery_epoch (xe_h2d x)) r = true.
Proof.
  unfold check_later_event, event_named. cbn [fst snd]. intros HE%raise_v_ok%negb_false_iff.
  destruct (head _) as [r|] eqn:Hh; [|done]. apply andb_true_iff in HE as [Hn He].
  apply head_Some_elem_of, list_elem_of_filter in Hh as [Hi Hr].
  rewrite fieldb_spec in Hi, Hn. by exists r.
Qed.

Lemma post_init_processes x :
  ExpectedKVRecoveryEpisode_post_init x = Ok tt → NoDup (xe_process_uuids x).
Proof.
  unfold ExpectedKVRecoveryEpisode_post_init. intros HX. inv_profile. bool_prop.
  by apply remove_dups_NoDup.
Qed.

(** The shards of the processes of an episode *)
Definition shards_complete (base_rows profile_rows : list pydict) (p : string) : Prop :=
  shard_digest_ok base_rows "process_summary" canonical_json_line p ∧
  shard_digest_ok profile_rows "profile_summary" profile_record_line p ∧
  ∃ summary, ledger_complete profile_rows p summary.

Definition roster (rows : list pydict) (t : string) (processes : list string) : Prop :=
  map (λ r, dict_get r "process_uuid") (of_type t rows) ≡ₚ map PStr processes.

(** C21. An accepted recovery episode is proved by its records.  When
    [normalize_kv_recovery_episode] returns, its transfer is the one that
    [normalize_h2d_recovery] accepts; every expected process has exactly one start and
    one summary in both shards, each summary holds the SHA-256 digest of the other
    canonical lines, and the profile ledger was drained without loss with gapless
    numbers and matching counts; the recovery rows of the episode are, up to order,
    one linked chain through all stages whose times never decrease and whose requeues
    are numbered from 0 with the expected reasons; the milestones name the base
    events of the recovery, the later two of which are recorded; the transfer's two
    rows agree with the chain; and the block set is complete. *)
Theorem kv_recovery_episode_sound base_rows profile_rows x complete n :
  ExpectedKVRecoveryEpisode_post_init x = Ok tt →
  normalize_kv_recovery_episode base_rows profile_rows x complete = Ok n →
  normalize_h2d_recovery base_rows (xe_h2d x) complete = Ok (ne_h2d n) ∧
  (∀ t, t ∈ ["process_start"; "process_summary"] → roster base_rows t (xe_process_uuids x)) ∧
  (∀ t, t ∈ ["profile_start"; "profile_summary"] → roster profile_rows t (xe_process_uuids x)) ∧
  Forall (shards_complete base_rows profile_rows) (xe_process_uuids x) ∧
  (∀ r, r ∈ profile_rows → dict_get r "record_type" ≠ PStr "loss_interval") ∧
  ∃ c, chain_of_stages x (milestones_of x (profile_data_rows profile_rows)) c ∧
    linked PNone 0 (chain_rows c) ∧
    ne_profile_event_ids n = map (λ r, dict_get r "record_id") (chain_rows c) ∧
    ne_requeue_count n = length (ch_requeues c) ∧
    base_associated x (ne_h2d n) c ∧
    (∀ id name, (id, name) ∈ [(xe_resumed_event_id x, "resumed");
        (xe_first_compute_base_event_id x, xe_compute_kind x +:+ "_started")] →
      ∃ r, r ∈ of_type "event" base_rows ∧ dict_get r "event_id" = PStr id ∧
        dict_get r "event_name" = PStr name ∧
        endpoint_identity (xe_h2d x) (xh_recovery_epoch (xe_h2d x)) r = true) ∧
    transfer_agrees x (ne_h2d n) (profile_data_rows profile_rows) c ∧
    block_set_complete x (profile_data_rows profile_rows).
Proof.
  intros Hx%post_init_processes. unfold normalize_kv_recovery_episode. intros HN.
  apply bind_ok in HN as (h2d & Hh & HN).
  apply bind_ok in HN as ([] & R1%validate_process_roster_ok & HN); [|done].
  apply bind_ok in HN as ([] & R2%validate_process_roster_ok & HN); [|done].
  apply bind_ok in HN as ([] & R3%validate_process_roster_ok & HN); [|done].
  apply bind_ok in HN as ([] & R4%validate_process_roster_ok & HN); [|done].
  apply bind_ok in HN as ([] & D1%res_iter_ok%in_processes & HN).
  apply bind_ok in HN as ([] & D2%res_iter_ok%in_processes & HN).
  apply bind_ok in HN as ([] & Hloss%raise_v_ok & HN).
  apply bind_ok in HN as ([] & HL%res_iter_ok%in_processes & HN).
  apply bind_ok in HN as (data & [-> _]%episode_profile_data_ok & HN).
  apply bind_ok in HN as (c & Hc%episode_stages_ok & HN).
  apply bind_ok in HN as ([] & Hk & HN). apply check_chain_ok in Hk; [|done..].
  apply bind_ok in HN as ([] & Hb%check_base_associations_ok & HN).
  apply bind_ok in HN as ([] & He%res_iter_ok & HN).
  apply bind_ok in HN as ([] & Ht & HN). apply bind_ok in HN as ([] & Ht' & HN).
  apply bind_ok in HN as ([] & Hbl%check_block_chunks_ok & [= <-]). simpl.
  split_and!; [done| | | | |].
  - intros t Hin. by repeat (apply elem_of_cons in Hin as [->|Hin]; [done|]); apply elem_of_nil in Hin.
  - intros t Hin. by repeat (apply elem_of_cons in Hin as [->|Hin]; [done|]); apply elem_of_nil in Hin.
  - rewrite Forall_forall in *. intros p Hp.
    split_and!; [by apply validate_shard_digest_ok, D1|by apply validate_shard_digest_ok, D2|].
    by apply validate_profile_ledger_ok, HL.
  - intros r Hr El. apply not_true_iff_false in Hloss. apply Hloss, existsb_exists.
    exists r. split; [by apply list_elem_of_In|by apply fieldb_spec].
  - exists c. split; [exact Hc|]. split; [exact Hk|]. split_and!; try done; [|by apply transfer_agrees_ok].
    intros id name Hin. rewrite Forall_forall in He. by apply later_event_ok, (He (id, name)).
Qed.

(** ** An example: one process, one requeue *)

Definition in_process (r : pydict) : pydict := ("process_uuid", PStr example_uuid) :: r.

(** A shard: the rows and the summary with their digest *)
Definition example_shard (encoder : pydict → res string) (start summary : string)
    (rows : list pydict) (counts : pydict) : list pydict :=
  let rows := map in_process ([("record_type", PStr start)] :: rows) in
  let content := match res_mapM encoder rows with Ok lines => str_concat "" lines | _ => "" end in
  rows ++ [in_process (("record_type", PStr summary)
    :: ("content_sha256", PStr (sha256_hexdigest content)) :: counts)].

Definition example_resumed : string := make_id example_uuid "e" 5.
Definition example_compute : string := make_id example_uuid "e" 6.

Definition example_episode : ExpectedKVRecoveryEpisode :=
  mkExpectedEpisode example_expected example_trace "req-1" example_resumed example_compute "decode"
    ["kv_transfer_pending"] [example_uuid].

Definition example_base_rows : list pydict :=
  example_shard canonical_json_line "process_start" "process_summary"
    (example_rows ++ [example_event example_resumed "resumed" 1 60 [];
                      example_event example_compute "decode_started" 1 80 []]) [].

Definition example_milestone (seq ns : Z) (stage : string) (from base : pyval) (more : pydict)
    : pydict :=
  [("record_type", PStr "recovery_event"); ("record_seq", PInt seq);
   ("record_id", PStr (make_id example_uuid "p" seq)); ("run_id", PStr example_trace);
   ("trace_id", PStr example_trace); ("engine_lifecycle_id", PStr (example_trace +:+ ":e:0"));
   ("runtime_request_id", PStr "req-1"); ("recovery_epoch", PInt 1);
   ("episode_id", PStr (example_trace +:+ ":e:0:k:1")); ("stage", PStr stage);
   ("occurrence", PInt 0); ("timestamp_ns", PInt ns); ("from_profile_event_id", from);
   ("base_event_id", base); ("transfer_id", PStr "t-1"); ("block_set_id", PStr "b-1")] ++ more.

Definition example_from (seq : Z) : pyval := PStr (make_id example_uuid "p" seq).
Definition moved : pydict := [("bytes_moved", PInt 4096)].

Definition example_transfer_row (seq ns : Z) (phase : string) (more : pydict) : pydict :=
  [("record_type", PStr "transfer_event"); ("record_seq", PInt seq); ("timestamp_ns", PInt ns);
   ("record_id", PStr (make_id example_uuid "p" seq)); ("transfer_id", PStr "t-1");
   ("transfer_phase", PStr phase)] ++ more.

Definition example_block (ordinal : Z) : pyval :=
  PDict [("group_index", PInt 0); ("logical_ordinal", PInt ordinal);
         ("logical_block_id", PStr (str_of_Z ordinal))].

Definition example_profile_rows : list pydict :=
  example_shard profile_record_line "profile_start" "profile_summary"
   [example_milestone 0 10 "preempt" PNone (PStr "e-1") [];
    [("record_type", PStr "block_set_chunk"); ("record_seq", PInt 1);
     ("record_id", example_from 1); ("block_set_id", PStr "b-1");
     ("episode_id", PStr (example_trace +:+ ":e:0:k:1")); ("chunk_index", PInt 0);
     ("chunk_count", PInt 1); ("total_block_count", PInt 2);
     ("blocks", PList [example_block 0; example_block 1])];
    example_transfer_row 2 20 "submit" [];
    example_milestone 3 20 "restore_start" (example_from 0) (PStr "e-2") [];
    example_transfer_row 4 45 "done" moved;
    example_milestone 5 45 "restore_done" (example_from 3) (PStr "e-3") moved;
    example_milestone 6 46 "scheduler_wakeup" (example_from 5) PNone moved;
    example_milestone 7 48 "requeue" (example_from 6) PNone
      (("requeue_reason", PStr "kv_transfer_pending") :: moved);
    example_milestone 8 60 "admission" (example_from 7) (PStr example_resumed)
      (("base_admission_started_event_id", PStr "e-4") :: moved);
    example_milestone 9 80 "first_prefill_or_decode" (example_from 8) (PStr example_compute)
      ([("compute_kind", PStr "decode");
        ("child_observation_kind", PStr "worker_model_forward_entry");
        ("base_association_kind", PStr "phase_child_observation");
        ("base_association_evidence", PStr "instrumented_execution_context")] ++ moved)]
   [("close_outcome", PStr "drained"); ("dropped_data_count", PInt 0);
    ("dropped_control_count", PInt 0); ("writer_failure_count", PInt 0);
    ("attempted_data_count", PInt 10); ("written_block_set_chunk_count", PInt 1);
    ("written_wait_set_chunk_count", PInt 0); ("written_transfer_event_count", PInt 2);
    ("written_recovery_event_count", PInt 7)].

Definition example_normalized : NormalizedKVRecoveryEpisode :=
  mkNormalizedEpisode (mkNormalizedH2D "e-2" "e-3" 25 4096 ("x-1", "x-2", "x-3"))
    (map example_from [0; 3; 5; 6; 7; 8; 9]) 1.

(** The profile evidence of an episode whose ledger lost a record is refused. *)
Example incomplete_evidence :
  normalize_kv_recovery_episode example_base_rows example_profile_rows example_episode false
  = Raise (ValueError "profile evidence contains loss").
Proof. reflexivity. Qed.

Lemma kv_recovery_episode_sound_witness :
  normalize_kv_recovery_episode example_base_rows example_profile_rows example_episode true
    = Ok example_normalized ∧
  shards_complete example_base_rows example_profile_rows example_uuid.
Proof.
  assert (ExpectedKVRecoveryEpisode_post_init example_episode = Ok tt) as HX by (vm_compute; reflexivity).
  assert (normalize_kv_recovery_episode example_base_rows example_profile_rows example_episode true
    = Ok example_normalized) as HN by (vm_compute; reflexivity).
  split; [exact HN|]. revert HN. generalize example_normalized. intros n HN.
  destruct (kv_recovery_episode_sound _ _ _ _ _ HX HN) as (_ & _ & _ & HS & _).
  rewrite Forall_forall in HS. apply HS. by left.
Defined.
