(* ===== verification/Binary64.v ===== *)
(** * Python's [float]: IEEE 754 binary64

    The offline modules work on [float].  A float is a [spec_float] of the Standard
    Library, and the operations are its executable specification of binary64, rounding
    to nearest even.  Here are the order of floats as a preorder on those that are not
    NaN, the sign of a difference, and [sorted(..., key=...)] for a float key. *)

From Stdlib Require Import ZArith Lia Ascii String.
From Stdlib Require Import SpecFloat.
From stdpp Require Import base list sorting.
From S2P Require Import Prelude.

Definition float := spec_float.

Definition prec : Z := 53.
Definition emax : Z := 1024.

Definition fadd : float → float → float := SFadd prec emax.
Definition fsub : float → float → float := SFsub prec emax.
Definition fmul : float → float → float := SFmul prec emax.
Definition fdiv : float → float → float := SFdiv prec emax.
Definition fabs : float → float := SFabs.
Definition flt : float → float → bool := SFltb.
Definition fle : float → float → bool := SFleb.
Definition feq : float → float → bool := SFeqb.

Definition f0 : float := S754_zero false.

(** [float(n)] for an integer that does not overflow *)
Definition of_Z (n : Z) : float := binary_normalize prec emax n 0 false.

(** The literal whose decimal value is [n / d], when [n] and [d] are exact: division
    rounds correctly, as the literal does. *)
Definition lit (n d : Z) : float := fdiv (of_Z n) (of_Z d).

Definition is_nan (x : float) : bool := match x with S754_nan => true | _ => false end.

(** [math.isfinite] *)
Definition is_finite (x : float) : bool :=
  match x with S754_zero _ | S754_finite _ _ _ => true | _ => false end.

(** A datum of the format *)
Definition b64 (x : float) : Prop := valid_binary prec emax x = true.

#[export] Instance float_eq_dec : EqDecision float.
Proof. solve_decision. Defined.

(** [max(a, b)]: the first of the greatest *)
Definition py_max (a b : float) : float := if flt a b then b else a.

(** [min(a, b)]: the first of the least *)
Definition py_min (a b : float) : float := if flt b a then b else a.

(** [sum(...)]: additions from the left *)
Definition fsum (l : list float) : float := foldl fadd f0 l.

(** [math.ceil(x)] for a finite float *)
Definition fceil (x : float) : Z :=
  match x with
  | S754_finite s m e =>
      let v := if s then Z.neg m else Z.pos m in
      if 0 <=? e then v * 2 ^ e else - (- v / 2 ^ (- e))
  | _ => 0
  end.

(** ** The order *)

(** Floats in their order, as triples in the lexicographic one *)
Definition rank_of (x : float) : Z * Z * Z :=
  match x with
  | S754_zero _ | S754_nan => (0, 0, 0)
  | S754_infinity s => (if s then -2 else 2, 0, 0)
  | S754_finite true m e => (-1, - e, Z.neg m)
  | S754_finite false m e => (1, e, Z.pos m)
  end.

Definition lex_lt (a b : Z * Z * Z) : Prop :=
  a.1.1 < b.1.1 ∨ (a.1.1 = b.1.1 ∧ (a.1.2 < b.1.2 ∨ (a.1.2 = b.1.2 ∧ a.2 < b.2))).

Lemma pos_compare_cont_Z m1 m2 : Pos.compare_cont Eq m1 m2 = (Z.pos m1 ?= Z.pos m2).
Proof. done. Qed.

Lemma compare_rank x y :
  is_nan x = false → is_nan y = false →
  match SFcompare x y with
  | Some Lt => lex_lt (rank_of x) (rank_of y)
  | Some Eq => rank_of x = rank_of y
  | Some Gt => lex_lt (rank_of y) (rank_of x)
  | None => False
  end.
Proof.
  unfold lex_lt. destruct x as [[]|[]| |[] m1 e1], y as [[]|[]| |[] m2 e2]; simpl; try done; try lia.
  all: intros _ _; destruct (Z.compare_spec e1 e2); simpl; try lia.
  all: rewrite pos_compare_cont_Z; destruct (Z.compare_spec (Z.pos m1) (Z.pos m2)); simpl; try lia.
  all: f_equal; [f_equal|]; lia.
Qed.

Lemma flt_rank x y :
  is_nan x = false → is_nan y = false → flt x y = true ↔ lex_lt (rank_of x) (rank_of y).
Proof.
  intros Hx Hy. pose proof (compare_rank x y Hx Hy) as Hc. unfold flt, SFltb.
  destruct (SFcompare x y) as [[]|]; unfold lex_lt in *; try done; split; try done; try lia.
  rewrite Hc. lia.
Qed.

Lemma fle_rank x y :
  is_nan x = false → is_nan y = false → fle x y = true ↔ ¬ lex_lt (rank_of y) (rank_of x).
Proof.
  intros Hx Hy. pose proof (compare_rank x y Hx Hy) as Hc. unfold fle, SFleb.
  destruct (SFcompare x y) as [[]|]; unfold lex_lt in *; try done; split; try done; try lia.
  rewrite Hc. lia.
Qed.

Lemma flt_nan x y : flt x y = true → is_nan x = false ∧ is_nan y = false.
Proof. unfold flt, SFltb. by destruct x, y. Qed.

Lemma fle_nan x y : fle x y = true → is_nan x = false ∧ is_nan y = false.
Proof. unfold fle, SFleb. by destruct x, y. Qed.

Lemma flt_irrefl x : flt x x = false.
Proof.
  destruct (flt x x) eqn:E; [|done]. pose proof (flt_nan _ _ E) as [Hn _].
  apply flt_rank in E; [|done..]. unfold lex_lt in E. lia.
Qed.

Lemma flt_asym x y : flt x y = true → flt y x = false.
Proof.
  intros E. destruct (flt y x) eqn:E'; [|done]. pose proof (flt_nan _ _ E) as [Hx Hy].
  apply flt_rank in E; [|done..]. apply flt_rank in E'; [|done..]. unfold lex_lt in *. lia.
Qed.

Lemma not_flt_fle x y : is_nan x = false → is_nan y = false → flt x y = false → fle y x = true.
Proof.
  intros Hx Hy E. apply fle_rank; [done..|]. intros Hl. apply (flt_rank x y) in Hl; [|done..]. congruence.
Qed.

Lemma fle_not_flt x y : fle x y = true → flt y x = false.
Proof.
  intros E. pose proof (fle_nan _ _ E) as [Hx Hy]. destruct (flt y x) eqn:E'; [|done].
  apply flt_rank in E'; [|done..]. by apply fle_rank in E.
Qed.

Lemma fle_refl x : is_nan x = false → fle x x = true.
Proof. intros Hx. by apply not_flt_fle, flt_irrefl. Qed.

Lemma fle_trans x y z : fle x y = true → fle y z = true → fle x z = true.
Proof.
  intros E1 E2. pose proof (fle_nan _ _ E1) as [Hx Hy]. pose proof (fle_nan _ _ E2) as [_ Hz].
  apply fle_rank in E1; [|done..]. apply fle_rank in E2; [|done..]. apply fle_rank; [done..|].
  unfold lex_lt in *. lia.
Qed.

Lemma flt_fle x y : flt x y = true → fle x y = true.
Proof.
  intros E. pose proof (flt_nan _ _ E) as [Hx Hy]. apply not_flt_fle; [done..|]. by apply flt_asym.
Qed.

Lemma fle_flt_trans x y z : fle x y = true → flt y z = true → flt x z = true.
Proof.
  intros E1 E2. pose proof (fle_nan _ _ E1) as [Hx Hy]. pose proof (flt_nan _ _ E2) as [_ Hz].
  apply fle_rank in E1; [|done..]. apply flt_rank in E2; [|done..]. apply flt_rank; [done..|].
  unfold lex_lt in *. lia.
Qed.

Lemma feq_fle x y : feq x y = true → fle x y = true ∧ fle y x = true.
Proof.
  intros E. assert (is_nan x = false ∧ is_nan y = false) as [Hx Hy] by by destruct x, y.
  pose proof (compare_rank x y Hx Hy) as Hc. unfold feq, SFeqb in E.
  destruct (SFcompare x y) as [[]|]; try done.
  split; apply fle_rank; try done; rewrite Hc; unfold lex_lt; lia.
Qed.

Lemma feq_refl x : is_nan x = false → feq x x = true.
Proof.
  intros Hx. pose proof (compare_rank x x Hx Hx) as Hc. unfold feq, SFeqb.
  destruct (SFcompare x x) as [[]|]; try done; unfold lex_lt in Hc; lia.
Qed.

(** ** The sign of a difference *)

Lemma shr_1_nonneg r : 0 ≤ shr_m r → 0 ≤ shr_m (shr_1 r).
Proof. destruct r as [[|[]|[]] rr s]; simpl; lia. Qed.

Lemma iter_pos_ind {A} (f : A → A) (P : A → Prop) n x :
  (∀ x, P x → P (f x)) → P x → P (SpecFloat.iter_pos f n x).
Proof. intros Hf. revert x. induction n; simpl; auto. Qed.

Lemma shr_nonneg r e n : 0 ≤ shr_m r → 0 ≤ shr_m (shr r e n).1.
Proof.
  intros Hr. destruct n; simpl; [done| |done].
  by apply (iter_pos_ind shr_1 (λ r, 0 ≤ shr_m r)); [apply shr_1_nonneg|].
Qed.

Lemma round_nearest_even_nonneg m l : 0 ≤ m → 0 ≤ round_nearest_even m l.
Proof. destruct l as [|[]]; simpl; try lia. destruct (Z.even m); lia. Qed.

Lemma binary_round_aux_nonneg m e l :
  0 ≤ m → fle f0 (binary_round_aux prec emax false m e l) = true.
Proof.
  intros Hm. unfold binary_round_aux, shr_fexp.
  assert (0 ≤ shr_m (shr_record_of_loc m l)) as H1 by (by destruct l as [|[]]).
  pose proof (shr_nonneg _ e (fexp prec emax (Zdigits2 m + e) - e) H1) as H2.
  destruct (shr (shr_record_of_loc m l) e _) as [r1 e1]. simpl in H2.
  pose proof (round_nearest_even_nonneg _ (loc_of_shr_record r1) H2) as H3.
  set (m2 := round_nearest_even _ _) in *.
  assert (0 ≤ shr_m (shr_record_of_loc m2 loc_Exact)) as H4 by done.
  pose proof (shr_nonneg _ e1 (fexp prec emax (Zdigits2 m2 + e1) - e1) H4) as H5.
  destruct (shr (shr_record_of_loc m2 loc_Exact) e1 _) as [r3 e3]. simpl in H5.
  destruct (shr_m r3); [done| |lia]. by destruct (e3 <=? _).
Qed.

Lemma binary_normalize_nonneg m e : 0 ≤ m → fle f0 (binary_normalize prec emax m e false) = true.
Proof.
  destruct m as [|m|m]; [done| |lia]. intros _. simpl. unfold binary_round.
  destruct (shl_align _ _ _) as [mz ez]. by apply binary_round_aux_nonneg.
Qed.

Lemma digits2_pos_bounds m : 2 ^ (Z.pos (digits2_pos m) - 1) ≤ Z.pos m < 2 ^ Z.pos (digits2_pos m).
Proof.
  induction m as [m IH|m IH|]; cbn [digits2_pos]; [..|done].
  all: rewrite Pos2Z.inj_succ; set (d := Z.pos (digits2_pos m)) in *;
    replace (Z.succ d - 1) with (Z.succ (d - 1)) by lia;
    rewrite !Z.pow_succ_r by lia; lia.
Qed.

Lemma iter_xO m p : Z.pos (Pos.iter xO m p) = Z.pos m * 2 ^ Z.pos p.
Proof.
  induction p as [|p IH] using Pos.peano_ind; [simpl; lia|].
  rewrite Pos.iter_succ, Pos2Z.inj_xO, IH, Pos2Z.inj_succ, Z.pow_succ_r by lia. lia.
Qed.

Lemma shl_align_value m e e' :
  e' ≤ e → Z.pos (shl_align m e e').1 = Z.pos m * 2 ^ (e - e').
Proof.
  intros He. unfold shl_align. destruct (e' - e) as [|p|p] eqn:E; simpl; [|lia|].
  - replace (e - e') with 0 by lia. lia.
  - replace (e - e') with (Z.pos p) by lia. apply iter_xO.
Qed.

(** A mantissa has at most [prec] digits, and exactly as many above the least exponent. *)
Lemma bounded_digits m e :
  bounded prec emax m e = true →
  Z.pos m < 2 ^ 53 ∧ -1074 ≤ e ∧ (-1074 < e → 2 ^ 52 ≤ Z.pos m).
Proof.
  unfold bounded, canonical_mantissa, fexp, emin, prec, emax. intros [Hc _]%andb_prop.
  apply Z.eqb_eq in Hc. pose proof (digits2_pos_bounds m) as [H1 H2].
  set (d := Z.pos (digits2_pos m)) in *. split_and!; [|lia|].
  - eapply Z.lt_le_trans; [exact H2|]. apply Z.pow_le_mono_r; lia.
  - intros He. replace d with 53 in H1 by lia. exact H1.
Qed.

(** The order of positive data is the order of their values. *)
Lemma aligned_le m1 e1 m2 e2 :
  bounded prec emax m1 e1 = true → bounded prec emax m2 e2 = true →
  e1 < e2 ∨ (e1 = e2 ∧ Z.pos m1 ≤ Z.pos m2) →
  Z.pos m1 * 2 ^ (e1 - Z.min e1 e2) ≤ Z.pos m2 * 2 ^ (e2 - Z.min e1 e2).
Proof.
  intros (H1 & H1' & _)%bounded_digits (_ & _ & H2)%bounded_digits [He|[-> Hm]].
  - rewrite Z.min_l by lia. rewrite Z.sub_diag. specialize (H2 ltac:(lia)).
    assert (2 ^ 1 ≤ 2 ^ (e2 - e1)) as Hp by (apply Z.pow_le_mono_r; lia).
    assert (2 ^ 53 = 2 ^ 52 * 2) as E by reflexivity. nia.
  - rewrite Z.min_id. nia.
Qed.

Lemma fsub_nonneg x y :
  b64 x → b64 y → is_finite x = true → is_finite y = true → fle y x = true →
  fle f0 (fsub x y) = true.
Proof.
  intros Hx Hy Fx Fy Hle. apply fle_rank in Hle; [|by destruct y|by destruct x].
  destruct x as [sx| | |sx mx ex], y as [sy| | |sy my ey]; try done; unfold lex_lt in Hle.
  - by destruct sx, sy.
  - destruct sy; [done|]. simpl in Hle. lia.
  - destruct sx; [|done]. simpl in Hle. lia.
  - unfold fsub, SFsub. apply binary_normalize_nonneg.
    rewrite !shl_align_value by lia. unfold b64, valid_binary in *.
    destruct sx, sy; simpl in *; try lia.
    + pose proof (aligned_le mx ex my ey Hx Hy ltac:(lia)). lia.
    + pose proof (aligned_le my ey mx ex Hy Hx ltac:(lia)). rewrite (Z.min_comm ex ey). lia.
Qed.

(** ** Sorting *)

(** [sorted(l, key=f)]: stable, and by [<] alone; for keys that are not NaN every
    stable sort gives this list. *)
Section sorted.
Context {A : Type} (key : A → float).

Fixpoint insert_by (x : A) (l : list A) : list A :=
  match l with
  | [] => [x]
  | y :: l => if flt (key x) (key y) then x :: y :: l else y :: insert_by x l
  end.

Definition sorted_by (l : list A) : list A := foldl (λ acc x, insert_by x acc) [] l.

Definition key_le (x y : A) : Prop := fle (key x) (key y) = true.

#[export] Instance key_le_trans : Transitive key_le.
Proof. intros x y z. apply fle_trans. Qed.

Lemma insert_by_Permutation x l : insert_by x l ≡ₚ x :: l.
Proof.
  induction l as [|y l IH]; simpl; [done|]. destruct (flt _ _); [done|].
  rewrite IH. apply Permutation_swap.
Qed.

Lemma foldl_insert_Permutation l acc : foldl (λ acc x, insert_by x acc) acc l ≡ₚ acc ++ l.
Proof.
  revert acc. induction l as [|x l IH]; intros acc; simpl; [by rewrite app_nil_r|].
  rewrite IH, insert_by_Permutation. by rewrite <- Permutation_middle.
Qed.

Lemma sorted_by_Permutation l : sorted_by l ≡ₚ l.
Proof. apply foldl_insert_Permutation. Qed.

Lemma insert_by_sorted x l :
  Forall (λ y, is_nan (key y) = false) (x :: l) → StronglySorted key_le l →
  StronglySorted key_le (insert_by x l).
Proof.
  intros [Hx Hn]%Forall_cons Hl. induction Hl as [|y l Hl IH Hy]; simpl; [by repeat constructor|].
  apply Forall_cons in Hn as [Hyn Hn]. destruct (flt (key x) (key y)) eqn:E.
  - apply flt_fle in E. constructor; [by constructor|]. constructor; [done|].
    eapply Forall_impl; [exact Hy|]. intros z. by apply (fle_trans (key x) (key y) (key z)).
  - apply not_flt_fle in E; [|done..]. constructor; [by apply IH|].
    rewrite insert_by_Permutation. by constructor.
Qed.

Lemma sorted_by_sorted l :
  Forall (λ y, is_nan (key y) = false) l → StronglySorted key_le (sorted_by l).
Proof.
  unfold sorted_by. assert (∀ acc, Forall (λ y, is_nan (key y) = false) (acc ++ l) →
    StronglySorted key_le acc → StronglySorted key_le (foldl (λ acc x, insert_by x acc) acc l)) as H;
    [|intros Hl; apply H; [done|constructor]].
  induction l as [|x l IH]; intros acc Hn Hacc; simpl; [done|].
  apply IH.
  - rewrite insert_by_Permutation. simpl. by rewrite Permutation_middle.
  - apply insert_by_sorted; [|done]. rewrite Forall_app, Forall_cons in Hn.
    destruct Hn as (? & ? & ?). by constructor.
Qed.

(** A sorted list stays as it is. *)
Lemma insert_by_last x l : Forall (λ y, key_le y x) l → insert_by x l = l ++ [x].
Proof.
  induction 1 as [|y l Hy _ IH]; simpl; [done|]. rewrite (fle_not_flt _ _ Hy). by rewrite IH.
Qed.

Lemma sorted_by_id l : StronglySorted key_le l → sorted_by l = l.
Proof.
  unfold sorted_by. assert (∀ acc, StronglySorted key_le (acc ++ l) →
    foldl (λ acc x, insert_by x acc) acc l = acc ++ l) as H; [|apply (H [])].
  induction l as [|x l IH]; intros acc Hs; simpl; [by rewrite app_nil_r|].
  rewrite insert_by_last.
  - rewrite IH; by rewrite <- app_assoc.
  - apply Forall_forall. intros y Hy. apply list_elem_of_split in Hy as (l1 & l2 & ->).
    rewrite <- app_assoc in Hs. induction l1 as [|z l1 IH1]; simpl in Hs; inversion Hs as [|?? Hs' Hf]; subst.
    + rewrite Forall_app, Forall_cons in Hf. by destruct Hf as (_ & ? & _).
    + by apply IH1.
Qed.

(** With distinct keys the order of the input does not matter. *)
Lemma sorted_by_unique l1 l2 :
  Forall (λ y, is_nan (key y) = false) l1 → l1 ≡ₚ l2 →
  (∀ x y, x ∈ l1 → y ∈ l1 → feq (key x) (key y) = true → x = y) → sorted_by l1 = sorted_by l2.
Proof.
  intros Hn Hp Hk.
  assert (Forall (λ y, is_nan (key y) = false) l2) as Hn2 by by rewrite <- Hp.
  pose proof (sorted_by_sorted _ Hn) as H1. pose proof (sorted_by_sorted _ Hn2) as H2.
  eapply (StronglySorted_unique_strong key_le); [|exact H1|exact H2|].
  - intros x y Hx Hy Hxy Hyx. rewrite sorted_by_Permutation in Hx, Hy. apply Hk; [done|by rewrite Hp|].
    unfold key_le in *. pose proof (fle_nan _ _ Hxy) as [? ?].
    apply fle_not_flt in Hyx. unfold feq, SFeqb. unfold fle, SFleb, flt, SFltb in *.
    by destruct (SFcompare (key x) (key y)) as [[]|].
  - by rewrite !sorted_by_Permutation.
Qed.
End sorted.

Lemma compare_opp x y : SFcompare (SFopp x) (SFopp y) = SFcompare y x.
Proof.
  destruct x as [[]|[]| |[] m e], y as [[]|[]| |[] m' e']; simpl; try done.
  all: rewrite (Z.compare_antisym e' e); destruct (Z.compare_spec e' e); simpl; try done.
  all: rewrite !pos_compare_cont_Z, (Z.compare_antisym (Z.pos m') (Z.pos m));
    by destruct (Z.pos m' ?= Z.pos m).
Qed.

(** ** Median *)

(** [statistics.median] *)
Definition median (values : list float) : res float :=
  let d := sorted_by id values in
  let n := length d in
  if (n =? 0)%nat then Raise (ValueError "no median for empty data")
  else if Nat.odd n then Ok (nth (n / 2) d f0)
  else Ok (fdiv (fadd (nth (n / 2 - 1) d f0) (nth (n / 2) d f0)) (of_Z 2)).
