(* ===== verification/JsonValue.v ===== *)
(** * Values that json.loads returns

    The offline modules read parsed JSON: [json] has the number types of Python, and the
    keys of an object are distinct text.  Here are lookup, the exact comparison of an
    integer with a float, the division of integers, the membership of an unhashable value
    and the operations on text that the readers use. *)

From Stdlib Require Import ZArith Lia Ascii String.
From Stdlib Require Import SpecFloat.
From stdpp Require Import base list strings.
From S2P Require Import Prelude PyValue Binary64.

#[local] Set Warnings "-register-all".

(** [bool | float | int | str] *)
Inductive scalar :=
| SBool (b : bool)
| SFloat (x : float)
| SInt (n : Z)
| SStr (s : string).

Inductive json :=
| JNull
| JScalar (v : scalar)
| JList (l : list json)
| JObject (d : list (string * json)).

Abbreviation JBool b := (JScalar (SBool b)).
Abbreviation JInt n := (JScalar (SInt n)).
Abbreviation JFloat x := (JScalar (SFloat x)).
Abbreviation JStr s := (JScalar (SStr s)).

Definition jdict : Type := list (string * json).

(** ** Objects *)

(** [dict.get(key)] *)
Fixpoint assoc {A} (key : string) (d : list (string * A)) : option A :=
  match d with
  | [] => None
  | (k, v) :: d => if String.eqb k key then Some v else assoc key d
  end.

Lemma assoc_elem {A} key (d : list (string * A)) v : assoc key d = Some v → (key, v) ∈ d.
Proof.
  induction d as [|[k w] d IH]; simpl; [done|]. destruct (String.eqb_spec k key) as [->|_].
  - intros [= ->]. by left.
  - intros H. right. by apply IH.
Qed.

Lemma assoc_inj {A} (d : list (string * A)) p q v :
  NoDup d.*2 → assoc p d = Some v → assoc q d = Some v → p = q.
Proof.
  induction d as [|[k w] d IH]; simpl; [done|]. intros [Hk Hd]%NoDup_cons.
  assert (∀ r, assoc r d = Some w → False) as Hw.
  { intros r Hr%assoc_elem. apply Hk, list_elem_of_fmap. by exists (r, w). }
  destruct (String.eqb_spec k p) as [<-|_], (String.eqb_spec k q) as [<-|_]; intros Hp Hq; simplify_eq; eauto.
  - by apply Hw in Hq.
  - by apply Hw in Hp.
Qed.

(** [d.get(key)] of an object, and [d[key]] for a key that was checked to be there *)
Definition jget (key : string) (d : jdict) : json := default JNull (assoc key d).

(** ** Numbers *)

Inductive number :=
| NInt (n : Z)
| NFloat (x : float).

(** [float(n)], which raises when the integer is too large *)
Definition float_of_int (n : Z) : res float :=
  if is_finite (of_Z n) then Ok (of_Z n) else Raise (OverflowError "int too large to convert to float").

Definition num_to_float (n : number) : res float :=
  match n with NInt n => float_of_int n | NFloat x => Ok x end.

(** A float as a mantissa, without rounding *)
Definition exact (n : Z) : float :=
  match n with
  | 0 => S754_zero false
  | Z.pos p => S754_finite false p 0
  | Z.neg p => S754_finite true p 0
  end.

(** [a / b] for integers rounds the exact quotient once. *)
Definition int_truediv (a b : Z) : res float :=
  let x := SFdiv prec emax (exact a) (exact b) in
  if is_finite x then Ok x else Raise (OverflowError "integer division result too large for a float").

(** The integer nearest to [n / d], to the even one of two *)
Definition half_even (n d : Z) : Z :=
  let q := n / d in
  match 2 * (n mod d) ?= d with
  | Lt => q
  | Gt => q + 1
  | Eq => if Z.even q then q else q + 1
  end.

(** [round(x, digits)]: the decimal nearest to the exact value, as a float *)
Definition round_digits (digits : Z) (x : float) : float :=
  match x with
  | S754_finite s m e =>
      let n := Z.pos m * 10 ^ digits in
      match (if 0 <=? e then n * 2 ^ e else half_even n (2 ^ (- e))) with
      | Z.pos k => SFdiv prec emax (S754_finite s k 0) (exact (10 ^ digits))
      | _ => S754_zero s
      end
  | _ => x
  end.

(** An integer is compared with a float by value, without conversion. *)
Definition cmp_Z_float (n : Z) (x : float) : option comparison :=
  match x with
  | S754_nan => None
  | S754_infinity s => Some (if s then Gt else Lt)
  | S754_zero _ => Some (n ?= 0)
  | S754_finite s m e =>
      let v := if s then Z.neg m else Z.pos m in
      if 0 <=? e then Some (n ?= v * 2 ^ e) else Some (n * 2 ^ (- e) ?= v)
  end.

Definition num_compare (a b : number) : option comparison :=
  match a, b with
  | NInt a, NInt b => Some (a ?= b)
  | NInt a, NFloat y => cmp_Z_float a y
  | NFloat x, NInt b => CompOpp <$> cmp_Z_float b x
  | NFloat x, NFloat y => SFcompare x y
  end.

Definition num_lt (a b : number) : bool :=
  match num_compare a b with Some Lt => true | _ => false end.

(** The value of a number or a [bool] *)
Definition as_number (v : scalar) : option number :=
  match v with
  | SBool b => Some (NInt (if b then 1 else 0))
  | SInt n => Some (NInt n)
  | SFloat x => Some (NFloat x)
  | SStr _ => None
  end.

Definition scalar_eq (a b : scalar) : bool :=
  match a, b with
  | SStr s, SStr t => String.eqb s t
  | _, _ =>
      match as_number a, as_number b with
      | Some m, Some n => bool_decide (num_compare m n = Some Eq)
      | _, _ => false
      end
  end.

(** [v == w] *)
Fixpoint json_eq (v w : json) {struct v} : bool :=
  match v, w with
  | JNull, JNull => true
  | JScalar a, JScalar b => scalar_eq a b
  | JList l, JList m =>
      (fix items (l m : list json) : bool :=
        match l, m with
        | [], [] => true
        | x :: l, y :: m => json_eq x y && items l m
        | _, _ => false
        end) l m
  | JObject d, JObject e =>
      (length d =? length e)%nat
      && (fix fields (d : jdict) : bool :=
           match d with
           | [] => true
           | (k, x) :: d => match assoc k e with Some y => json_eq x y | None => false end && fields d
           end) d
  | _, _ => false
  end.

Lemma json_eq_text v s : json_eq v (JStr s) = true → v = JStr s.
Proof. destruct v as [|[]| |]; try done. simpl. by intros ->%String.eqb_eq. Qed.

(** [isinstance(v, int) and not isinstance(v, bool)] *)
Definition plain_int (v : json) : option Z :=
  match v with JInt n => Some n | _ => None end.

(** [if v] *)
Definition json_truthy (v : json) : bool :=
  match v with
  | JNull => false
  | JBool b => b
  | JInt n => negb (n =? 0)
  | JFloat x => negb (feq x f0)
  | JStr s => negb (String.eqb s "")
  | JList l => match l with [] => false | _ => true end
  | JObject d => match d with [] => false | _ => true end
  end.

(** ** Sets of text *)

(** [v in {...}] for a set of texts: hashing a list or an object raises [TypeError]. *)
Definition json_in (v : json) (l : list string) : res bool :=
  match v with
  | JStr s => Ok (str_in s l)
  | JList _ | JObject _ => Raise TypeError
  | _ => Ok false
  end.

Lemma json_in_true v l : json_in v l = Ok true → ∃ s, v = JStr s ∧ s ∈ l.
Proof.
  destruct v as [|[]| |]; try done. simpl. intros [= H]. exists s. by rewrite <- str_in_spec.
Qed.

(** ** Text *)

(** [a.lower()] on the characters up to 255 *)
Definition lower_char (c : ascii) : ascii :=
  let n := code c in
  if (65 <=? n) && (n <=? 90) || (192 <=? n) && (n <=? 222) && negb (n =? 215) then chr (n + 32) else c.

Fixpoint lower (s : string) : string :=
  match s with
  | EmptyString => EmptyString
  | String c s => String (lower_char c) (lower s)
  end.

(** [a in s] for texts *)
Fixpoint contains (a s : string) : bool :=
  String.prefix a s
  || match s with EmptyString => false | String _ s => contains a s end.

Definition has_nul (s : string) : bool := negb (str_forall (λ c, negb (code c =? 0)) s).

(** The index in a path such as [pairs[3]] *)
Definition index_of (where_ : string) (i : nat) : string :=
  where_ +:+ "[" +:+ str_of_Z (Z.of_nat i) +:+ "]".

(** [enumerate(l)] *)
Definition enumerate {A} (l : list A) : list (nat * A) := zip (seq 0 (length l)) l.

Lemma enumerate_values {A} (l : list A) : (enumerate l).*2 = l.
Proof. apply snd_zip. by rewrite length_seq. Qed.

(** [str(v)], given the text of floats and containers *)
Definition text_of (other : json → string) (v : json) : string :=
  match v with
  | JStr s => s
  | JInt n => str_of_Z n
  | JBool b => if b then "True" else "False"
  | JNull => "None"
  | _ => other v
  end.
