(* ===== verification/PhaseEvaluation.v ===== *)
(** * m0_evaluation.py: a ranking of mechanisms from phase vectors

    The evaluator compares the medians of the phases of two groups of requests, ranks the
    phases that became longer, abstains when too little or no single phase changed, and
    scores the ranking against a known cause.  [phases_from_kv_recovery_and_client] builds
    the vectors from the parsed events of recovery shards.

    A ranking lists the longer phases once each, the greatest difference first:
    [evaluate_case_sound]. *)

From Stdlib Require Import ZArith Lia Ascii String.
From Stdlib Require Import SpecFloat.
From stdpp Require Import base strings gmap sets sorting list.
From S2P Require Import Prelude PyValue Binary64 JsonValue.

Definition PHASE_ORDER :=
  ["tokenization"; "queueing"; "prefill"; "decode"; "kv_recovery"; "streaming"; "cleanup"].

Definition MECHANISM_BY_PHASE :=
  [("tokenization", "tokenization"); ("queueing", "queueing"); ("prefill", "prefill");
   ("decode", "decode"); ("kv_recovery", "restore/wakeup"); ("streaming", "streaming");
   ("cleanup", "cleanup")].

(** A dict from phases to milliseconds *)
Definition phases : Type := list (string * float).

Record RequestPhases := mkRequestPhases {
  rp_request_id : string;
  rp_phases : phases }.

Definition total_ms (r : RequestPhases) : float := fsum (rp_phases r).*2.

Record MechanismRank := mkMechanismRank {
  mr_mechanism : string;
  mr_phase : string;
  mr_delta_ms : float;
  mr_share_of_total_delta : float }.

Record EvaluationReport := mkEvaluationReport {
  er_case_id : string;
  er_baseline_count : Z;
  er_anomaly_count : Z;
  er_per_phase_delta_ms : phases;
  er_ranking : list MechanismRank;
  er_total_positive_delta_ms : float;
  er_top1_share : float;
  er_top3_share : number;
  er_unexplained_residual_ms : float;
  er_unexplained_residual_share : float;
  er_ground_truth : option string;
  er_top1_ok : option bool;
  er_top3_ok : option bool;
  er_mrr : option float;
  er_abstained : bool;
  er_abstain_reason : option string;
  er_m0_status : string }.

(** ** Phases from recovery events *)

(** The entry of a request: ["start"], and ["span_ms"] once the recovery ended *)
Record recovery_span := mkRecoverySpan {
  rs_start : Z;
  rs_span_ms : option float }.

(** [isinstance(v, int)], which holds of a [bool] *)
Definition any_int (v : json) : option Z :=
  match v with JInt n => Some n | JBool b => Some (if b then 1 else 0) | _ => None end.

(** The request that an event concerns, as a key of a dict that is looked up by text:
    other hashable values are keys that nobody asks for. *)
Definition text_key (v : json) : res (option string) :=
  match v with
  | JStr s => Ok (Some s)
  | JList _ | JObject _ => Raise TypeError
  | _ => Ok None
  end.

(** One event: the stage, the request and the time when it is a recovery event *)
Definition recovery_mark (event : json) : res (option (string * json * Z)) :=
  match event with
  | JObject d =>
      if negb (json_eq (jget "record_type" d) (JStr "recovery_event")) then Ok None
      else
        match json_truthy (jget "runtime_request_id" d) && json_truthy (jget "stage" d),
              jget "stage" d, any_int (jget "timestamp_ns" d) with
        | true, JStr stage, Some ts => Ok (Some (stage, jget "runtime_request_id" d, ts))
        | _, _, _ => Ok None
        end
  | _ => Raise AttributeError
  end.

Definition record_span (event : json) (spans : gmap string recovery_span) : res (gmap string recovery_span) :=
  mark ← recovery_mark event;
  match mark with
  | Some (stage, req, ts) =>
      if String.eqb stage "preempt" then
        key ← text_key req;
        Ok (match key with Some req => <[req := mkRecoverySpan ts None]> spans | None => spans end)
      else if String.eqb stage "first_prefill_or_decode" then
        key ← text_key req;
        match key with
        | Some req =>
            match spans !! req with
            | Some span =>
                ns ← float_of_int (ts - rs_start span);
                Ok (<[req := mkRecoverySpan (rs_start span) (Some (fdiv ns (of_Z 1000000)))]> spans)
            | None => Ok spans
            end
        | None => Ok spans
        end
      else Ok spans
  | None => Ok spans
  end.

(** The phases of a request of [total_ms] *)
Definition split_phases (span : option recovery_span) (total : float) : phases :=
  match span with
  | Some (mkRecoverySpan _ (Some span_ms)) =>
      [("kv_recovery", py_max f0 span_ms); ("decode", py_max f0 (fsub total (py_max f0 span_ms)))]
  | _ => [("decode", total)]
  end.

(** The loop over [client_timing], which stops once [max_requests] rows were appended *)
Fixpoint client_rows (spans : gmap string recovery_span) (max_requests : Z) (rows : list RequestPhases)
    (client_timing : list (string * float)) : list RequestPhases :=
  match client_timing with
  | [] => rows
  | (req, total) :: rest =>
      let rows := rows ++ [mkRequestPhases req (split_phases (spans !! req) total)] in
      if max_requests <=? Z.of_nat (length rows) then rows else client_rows spans max_requests rows rest
  end.

(** The events are those of the shards, one after the other. *)
Definition phases_from_kv_recovery_and_client (events : list json) (client_timing : list (string * float))
    (max_requests : Z) : res (list RequestPhases) :=
  spans ← res_foldM record_span events ∅;
  Ok (client_rows spans max_requests [] client_timing).

(** ** Medians and differences *)

Definition phase_values (name : string) (rows : list RequestPhases) : list float :=
  omap (λ r, value ← assoc name (rp_phases r); if fle f0 value then Some value else None) rows.

Definition aggregate_phases (rows : list RequestPhases) : res phases :=
  res_mapM (λ name,
    m ← match phase_values name rows with [] => Ok f0 | values => median values end;
    Ok (name, m)) PHASE_ORDER.

(** [d.get(name, 0.0)] *)
Definition phase_ms (name : string) (d : phases) : float := default f0 (assoc name d).

Definition diff_phases (baseline anomaly : phases) : phases :=
  map (λ name, (name, fsub (phase_ms name anomaly) (phase_ms name baseline))) PHASE_ORDER.

(** ** The ranking *)

Definition positive_sum (deltas : phases) : float := fsum (map (λ d, py_max f0 d.2) deltas).

(** The rows of the loop over the phases *)
Definition rank_phase (deltas : phases) (positive : float) (phase : string) : res (list MechanismRank) :=
  let delta := phase_ms phase deltas in
  if fle delta f0 then Ok []
  else
    match assoc phase MECHANISM_BY_PHASE with
    | Some mechanism =>
        Ok [mkMechanismRank mechanism phase delta (if flt f0 positive then fdiv delta positive else f0)]
    | None => Raise (KeyError phase)
    end.

(** [ranked.sort(key=lambda item: item.delta_ms, reverse=True)], which is stable *)
Definition by_delta (l : list MechanismRank) : list MechanismRank :=
  sorted_by (λ r, SFopp (mr_delta_ms r)) l.

Definition rank_mechanisms (deltas : phases) : res (list MechanismRank) :=
  ranked ← res_mapM (rank_phase deltas (positive_sum deltas)) PHASE_ORDER;
  Ok (by_delta (concat ranked)).

(** ** The evaluation *)

(** [ranking[0].share_of_total_delta], when there is one *)
Definition first_share (ranking : list MechanismRank) : option float :=
  mr_share_of_total_delta <$> head ranking.

(** [sum(r.share_of_total_delta for r in ...)]: the integer 0 for no row *)
Definition share_sum (ranking : list MechanismRank) : number :=
  match ranking with [] => NInt 0 | _ => NFloat (fsum (map mr_share_of_total_delta ranking)) end.

(** The reason to abstain *)
Definition abstention (total_positive abstain_threshold_ms min_dominance_share : float)
    (ranking : list MechanismRank) : option string :=
  if flt total_positive abstain_threshold_ms then Some "insufficient_evidence"
  else
    match first_share ranking with
    | Some share => if flt share min_dominance_share then Some "no_single_root_cause" else None
    | None => None
    end.

(** [names.index(x)] *)
Fixpoint position (x : string) (names : list string) : option nat :=
  match names with
  | [] => None
  | y :: names => if String.eqb y x then Some 0%nat else S <$> position x names
  end.

Definition reciprocal_rank (truth : string) (names : list string) : float :=
  match position truth names with
  | Some i => fdiv (of_Z 1) (of_Z (Z.of_nat (S i)))
  | None => f0
  end.

(** [bool(names and names[0] == ground_truth)] *)
Definition first_is (truth : string) (names : list string) : bool :=
  match names with x :: _ => String.eqb x truth | [] => false end.

Definition report_of (case_id : string) (baseline_count anomaly_count : Z) (deltas : phases)
    (total_positive : float) (truth : option string) (reason : option string)
    (ranking : list MechanismRank) : EvaluationReport :=
  let names := map mr_mechanism ranking in
  let residual := fsub total_positive (default f0 (mr_delta_ms <$> head ranking)) in
  let scored := match reason with Some _ => None | None => truth end in
  mkEvaluationReport case_id baseline_count anomaly_count deltas ranking total_positive
    (default f0 (first_share ranking))
    (share_sum (take 3 ranking))
    residual (if flt f0 total_positive then fdiv residual total_positive else f0)
    truth ((λ t, first_is t names) <$> scored) ((λ t, str_in t (take 3 names)) <$> scored)
    ((λ t, reciprocal_rank t names) <$> scored)
    (is_some_b reason) reason "NOT_M0_PROVEN".

Definition evaluate_case (baseline_rows anomaly_rows : list RequestPhases) (case_id : string)
    (ground_truth : option string) (abstain_threshold_ms min_dominance_share : float)
    : res EvaluationReport :=
  baseline ← aggregate_phases baseline_rows;
  anomaly ← aggregate_phases anomaly_rows;
  let deltas := diff_phases baseline anomaly in
  ranking ← rank_mechanisms deltas;
  let total_positive := positive_sum deltas in
  let reason := abstention total_positive abstain_threshold_ms min_dominance_share ranking in
  Ok (report_of case_id (Z.of_nat (length baseline_rows)) (Z.of_nat (length anomaly_rows)) deltas
        total_positive ground_truth reason (match reason with Some _ => [] | None => ranking end)).

(** ** The report as JSON *)

Definition json_option {A} (f : A → json) (o : option A) : json :=
  match o with Some a => f a | None => JNull end.

Definition round_number (digits : Z) (n : number) : json :=
  match n with NInt n => JInt n | NFloat x => JFloat (round_digits digits x) end.

Definition rank_to_dict (r : MechanismRank) : json :=
  JObject [("mechanism", JStr (mr_mechanism r)); ("phase", JStr (mr_phase r));
    ("delta_ms", JFloat (round_digits 3 (mr_delta_ms r)));
    ("share", JFloat (round_digits 4 (mr_share_of_total_delta r)))].

Definition report_to_dict (r : EvaluationReport) : jdict :=
  [("case_id", JStr (er_case_id r)); ("baseline_count", JInt (er_baseline_count r));
   ("anomaly_count", JInt (er_anomaly_count r));
   ("per_phase_delta_ms", JObject (map (λ d, (d.1, JFloat d.2)) (er_per_phase_delta_ms r)));
   ("ranking", JList (map rank_to_dict (er_ranking r)));
   ("total_positive_delta_ms", JFloat (round_digits 3 (er_total_positive_delta_ms r)));
   ("top1_share", JFloat (round_digits 4 (er_top1_share r)));
   ("top3_share", round_number 4 (er_top3_share r));
   ("unexplained_residual_ms", JFloat (round_digits 3 (er_unexplained_residual_ms r)));
   ("unexplained_residual_share", JFloat (round_digits 4 (er_unexplained_residual_share r)));
   ("ground_truth", json_option (λ s, JStr s) (er_ground_truth r));
   ("top1_ok", json_option (λ b, JBool b) (er_top1_ok r));
   ("top3_ok", json_option (λ b, JBool b) (er_top3_ok r));
   ("mrr", json_option (λ x, JFloat x) (er_mrr r)); ("abstained", JBool (er_abstained r));
   ("abstain_reason", json_option (λ s, JStr s) (er_abstain_reason r)); ("m0_status", JStr (er_m0_status r))].

(** ** The ranking, specified *)

(** A row of the ranking of some differences: the mechanism of its phase, the difference of
    the phase, and its share of the positive sum *)
Definition ranks (deltas : phases) (positive : float) (r : MechanismRank) : Prop :=
  mr_delta_ms r = phase_ms (mr_phase r) deltas ∧ assoc (mr_phase r) MECHANISM_BY_PHASE = Some (mr_mechanism r) ∧
  mr_share_of_total_delta r = (if flt f0 positive then fdiv (mr_delta_ms r) positive else f0).

(** A phase that the ranking does not leave out, and one whose difference is positive: they
    are the same unless the difference is NaN. *)
Definition ranked_phase (deltas : phases) (phase : string) : bool := negb (fle (phase_ms phase deltas) f0).
Definition longer (deltas : phases) (phase : string) : bool := flt f0 (phase_ms phase deltas).

Lemma phase_ms_number deltas phase :
  Forall (λ d, is_nan d.2 = false) deltas → is_nan (phase_ms phase deltas) = false.
Proof.
  intros Hn. unfold phase_ms. destruct (assoc phase deltas) as [x|] eqn:E; [|done].
  apply assoc_elem in E. by apply (proj1 (Forall_forall _ _) Hn) in E.
Qed.

Lemma ranked_longer deltas phase :
  Forall (λ d, is_nan d.2 = false) deltas → ranked_phase deltas phase = longer deltas phase.
Proof.
  intros Hn%(phase_ms_number _ phase). unfold ranked_phase, longer. destruct (flt f0 _) eqn:E.
  - destruct (fle _ f0) eqn:El; [|done]. apply fle_not_flt in El. congruence.
  - by rewrite (not_flt_fle f0 _ eq_refl Hn E).
Qed.

(** A value that is at least a limit, unless one of them is NaN *)
Definition at_least (limit x : float) : Prop := is_nan limit = true ∨ is_nan x = true ∨ fle limit x = true.

Lemma not_below limit x : flt x limit = false → at_least limit x.
Proof.
  intros H. unfold at_least. destruct (is_nan limit) eqn:El; [by left|].
  destruct (is_nan x) eqn:Ex; [by right; left|]. right; right. by apply not_flt_fle.
Qed.

Lemma phases_distinct : NoDup PHASE_ORDER.
Proof. by apply (bool_decide_eq_true_1 _). Qed.

Lemma mechanism_phases_distinct : NoDup MECHANISM_BY_PHASE.*2.
Proof. by apply (bool_decide_eq_true_1 _). Qed.

Lemma ranks_distinct deltas positive l :
  Forall (ranks deltas positive) l → NoDup (map mr_phase l) → NoDup (map mr_mechanism l).
Proof.
  induction 1 as [|r l (_ & Hr & _) Hl IH]; simpl; [constructor|]. intros [Hn Hd]%NoDup_cons.
  apply NoDup_cons. split; [|by apply IH]. intros (r' & Hm & Hin)%list_elem_of_fmap.
  apply Hn, list_elem_of_fmap. exists r'. split; [|done].
  pose proof (proj1 (Forall_forall _ _) Hl r' Hin) as (_ & Hr' & _). rewrite <- Hm in Hr'.
  by apply (assoc_inj MECHANISM_BY_PHASE _ _ (mr_mechanism r)); [apply mechanism_phases_distinct|..].
Qed.

Lemma rank_phases_spec deltas positive names ls :
  Forall2 (λ p l, rank_phase deltas positive p = Ok l) names ls →
  map mr_phase (concat ls) = List.filter (ranked_phase deltas) names ∧
  Forall (ranks deltas positive) (concat ls).
Proof.
  induction 1 as [|p l names ls Hp _ [IHp IHr]]; simpl; [by split|].
  unfold rank_phase in Hp. unfold ranked_phase at 1. destruct (fle (phase_ms p deltas) f0); simpl.
  - injection Hp as <-. done.
  - destruct (assoc p MECHANISM_BY_PHASE) as [m|] eqn:E; [|done]. injection Hp as <-.
    rewrite <- IHp. split; [done|]. constructor; [|done]. by split.
Qed.

(** Greatest difference first *)
Definition delta_ge (a b : MechanismRank) : Prop := fle (mr_delta_ms b) (mr_delta_ms a) = true.

Lemma by_delta_sorted l :
  Forall (λ r, is_nan (mr_delta_ms r) = false) l → StronglySorted delta_ge (by_delta l).
Proof.
  intros Hl. assert (StronglySorted (key_le (λ r, SFopp (mr_delta_ms r))) (by_delta l)) as Hs.
  { apply sorted_by_sorted. eapply Forall_impl; [exact Hl|]. intros r. simpl. by destruct (mr_delta_ms r). }
  induction Hs as [|x k Hk IH Hx]; constructor; [done|]. eapply Forall_impl; [exact Hx|].
  intros y. unfold key_le, delta_ge, fle, SFleb. by rewrite compare_opp.
Qed.

Lemma rank_mechanisms_spec deltas l :
  rank_mechanisms deltas = Ok l →
  map mr_phase l ≡ₚ List.filter (ranked_phase deltas) PHASE_ORDER ∧ Forall (ranks deltas (positive_sum deltas)) l ∧
  (Forall (λ d, is_nan d.2 = false) deltas → StronglySorted delta_ge l).
Proof.
  unfold rank_mechanisms. intros H. apply bind_ok in H as (ls & Hls%res_mapM_ok & H). injection H as <-.
  apply rank_phases_spec in Hls as [Hp Hr]. unfold by_delta. split_and!.
  - by rewrite sorted_by_Permutation, Hp.
  - by rewrite sorted_by_Permutation.
  - intros Hn. apply by_delta_sorted. eapply Forall_impl; [exact Hr|]. intros r (-> & _).
    by apply phase_ms_number.
Qed.

Lemma position_lookup x names i :
  NoDup names → names !! i = Some x → position x names = Some i.
Proof.
  revert i. induction names as [|y names IH]; intros i; [done|]. intros [Hy Hn]%NoDup_cons Hi. simpl.
  destruct i as [|i]; simpl in Hi; [injection Hi as ->; by rewrite String.eqb_refl|].
  destruct (String.eqb_spec y x) as [->|_]; [|by rewrite (IH i)].
  destruct Hy. by apply list_elem_of_lookup_2 in Hi.
Qed.

Lemma position_none x names : x ∉ names → position x names = None.
Proof.
  induction names as [|y names IH]; [done|]. intros [Hy Hn]%not_elem_of_cons. simpl.
  destruct (String.eqb_spec y x) as [->|_]; [done|]. by rewrite IH.
Qed.

(** ** The evaluation *)

(** The median of the values of a phase that are not negative; zero when there are none *)
Definition phase_median (rows : list RequestPhases) (name : string) (x : float) : Prop :=
  match List.filter (fle f0) (omap (M:=list) (λ r, assoc name (rp_phases r)) rows) with
  | [] => x = f0
  | values => median values = Ok x
  end.

Lemma phase_values_filter name rows :
  phase_values name rows = List.filter (fle f0) (omap (M:=list) (λ r, assoc name (rp_phases r)) rows).
Proof.
  unfold phase_values. induction rows as [|r rows IH]; [done|]. simpl.
  destruct (assoc name (rp_phases r)) as [x|]; simpl; [|exact IH].
  destruct (fle f0 x); simpl; [f_equal|]; exact IH.
Qed.

Lemma aggregate_median rows aggregated name :
  aggregate_phases rows = Ok aggregated → name ∈ PHASE_ORDER → phase_median rows name (phase_ms name aggregated).
Proof.
  unfold aggregate_phases. intros H%res_mapM_ok. revert aggregated H. generalize PHASE_ORDER as names.
  induction names as [|n names IH]; intros aggregated H; [by intros ?%elem_of_nil|].
  inversion H as [|? p ? rest Hp Hrest]; subst. apply bind_ok in Hp as (m & Hm & [= <-]).
  unfold phase_ms. cbn [assoc]. destruct (String.eqb_spec n name) as [->|Hne].
  - intros _. unfold phase_median. rewrite <- phase_values_filter. destruct (phase_values name rows); [by injection Hm|done].
  - intros [->|Hin]%elem_of_cons; [done|]. by apply (IH rest).
Qed.

(** The differences of the medians, a phase after the other *)
Definition median_deltas (baseline_rows anomaly_rows : list RequestPhases) (deltas : phases) : Prop :=
  Forall2 (λ name delta, ∃ b a, phase_median baseline_rows name b ∧ phase_median anomaly_rows name a ∧
    delta = (name, fsub a b)) PHASE_ORDER deltas.

Lemma diff_median_deltas baseline_rows anomaly_rows baseline anomaly :
  aggregate_phases baseline_rows = Ok baseline → aggregate_phases anomaly_rows = Ok anomaly →
  median_deltas baseline_rows anomaly_rows (diff_phases baseline anomaly).
Proof.
  intros Hb Ha. unfold median_deltas, diff_phases. apply Forall2_fmap_r, Forall_Forall2_diag, Forall_forall.
  intros name Hin. exists (phase_ms name baseline), (phase_ms name anomaly).
  split; [by apply aggregate_median|]. split; [by apply aggregate_median|]. reflexivity.
Qed.

(** How the ranking is scored against a known cause *)
Definition scored_against (truth : string) (r : EvaluationReport) : Prop :=
  let names := map mr_mechanism (er_ranking r) in
  (er_top1_ok r = Some true ↔ head names = Some truth) ∧
  (er_top3_ok r = Some true ↔ truth ∈ take 3 names) ∧
  (∀ i, names !! i = Some truth → er_mrr r = Some (fdiv (of_Z 1) (of_Z (Z.of_nat (S i))))) ∧
  (truth ∉ names → er_mrr r = Some f0).

Lemma report_scored case_id n k deltas total truth ranking :
  NoDup (map mr_mechanism ranking) →
  scored_against truth (report_of case_id n k deltas total (Some truth) None ranking).
Proof.
  intros Hn. unfold scored_against, report_of. cbn [er_ranking er_top1_ok er_top3_ok er_mrr fmap option_fmap option_map].
  set (names := map mr_mechanism ranking) in *. split_and!.
  - destruct names as [|x names]; simpl; [done|]. split.
    + by intros [= ->%String.eqb_eq].
    + intros [= ->]. by rewrite String.eqb_refl.
  - rewrite <- str_in_spec. split; [by intros [=]|by intros ->].
  - intros i Hi. unfold reciprocal_rank. by rewrite (position_lookup _ _ i).
  - intros Hi. unfold reciprocal_rank. by rewrite position_none.
Qed.

Lemma abstention_some total threshold dominance ranking why :
  abstention total threshold dominance ranking = Some why →
  why = "insufficient_evidence" ∨ why = "no_single_root_cause".
Proof.
  unfold abstention. destruct (flt total threshold); [intros [= <-]; by left|].
  destruct (first_share ranking) as [share|]; [|done]. destruct (flt share dominance); [|done].
  intros [= <-]. by right.
Qed.

Lemma abstention_none total threshold dominance ranking :
  abstention total threshold dominance ranking = None →
  at_least threshold total ∧ ∀ m, head ranking = Some m → at_least dominance (mr_share_of_total_delta m).
Proof.
  unfold abstention, first_share. destruct (flt total threshold) eqn:Et; [done|]. intros H. split; [by apply not_below|].
  intros m Hm. rewrite Hm in H. simpl in H. apply not_below. by destruct (flt (mr_share_of_total_delta m) dominance).
Qed.

(** C38. An evaluation either abstains, with a reason, an empty ranking and no score, or it
    ranks.  Then the sum of the positive differences of medians reaches the threshold and the
    first mechanism's share of it the required share, unless one of the compared values is
    NaN; every row holds the mechanism of its phase, the difference of the phase and its
    share; and the scores against a known cause are those of its position.  The ranking holds
    once each phase whose difference is not at most zero; when no difference is NaN, these
    are the phases whose median became longer, and the greatest difference is first. *)
Theorem evaluate_case_sound baseline_rows anomaly_rows case_id truth threshold dominance r :
  evaluate_case baseline_rows anomaly_rows case_id truth threshold dominance = Ok r →
  let deltas := er_per_phase_delta_ms r in
  median_deltas baseline_rows anomaly_rows deltas ∧
  er_total_positive_delta_ms r = fsum (map (λ d, py_max f0 d.2) deltas) ∧
  (er_abstained r = true →
    er_ranking r = [] ∧ er_top1_ok r = None ∧ er_top3_ok r = None ∧ er_mrr r = None ∧
    (er_abstain_reason r = Some "insufficient_evidence" ∨ er_abstain_reason r = Some "no_single_root_cause")) ∧
  (er_abstained r = false →
    er_abstain_reason r = None ∧ at_least threshold (er_total_positive_delta_ms r) ∧
    (∀ m, head (er_ranking r) = Some m → at_least dominance (mr_share_of_total_delta m)) ∧
    map mr_phase (er_ranking r) ≡ₚ List.filter (ranked_phase deltas) PHASE_ORDER ∧
    Forall (ranks deltas (er_total_positive_delta_ms r)) (er_ranking r) ∧
    (Forall (λ d, is_nan d.2 = false) deltas →
       map mr_phase (er_ranking r) ≡ₚ List.filter (longer deltas) PHASE_ORDER ∧
       StronglySorted delta_ge (er_ranking r)) ∧
    (∀ t, truth = Some t → scored_against t r)).
Proof.
  unfold evaluate_case. intros H. apply bind_ok in H as (baseline & Hb & H).
  apply bind_ok in H as (anomaly & Ha & H). apply bind_ok in H as (ranking & Hr & H). injection H as <-.
  cbn [er_per_phase_delta_ms er_total_positive_delta_ms report_of]. apply rank_mechanisms_spec in Hr as (Hp & Hranks & Hs).
  split; [by apply diff_median_deltas|]. split; [reflexivity|].
  set (deltas := diff_phases baseline anomaly) in *. pose proof (ranks_distinct deltas _ ranking Hranks) as Hd. rewrite Hp in Hd.
  specialize (Hd (proj2 (NoDup_ListNoDup _) (List.NoDup_filter _ (proj1 (NoDup_ListNoDup _) phases_distinct)))).
  clearbody deltas. clear Hb Ha. revert Hp Hranks Hs Hd. generalize (positive_sum deltas) as total.
  intros total Hp Hranks Hs Hd. destruct (abstention _ _ _ _) as [why|] eqn:E.
  - apply abstention_some in E. split; [intros _|intros [=]].
    cbn [report_of er_ranking er_top1_ok er_top3_ok er_mrr er_abstain_reason]. split_and!; [done..|].
    by destruct E as [->| ->]; [left|right].
  - apply abstention_none in E as [Et Es]. split; [intros [=]|intros _].
    split; [reflexivity|]. split; [exact Et|]. split; [exact Es|].
    split; [exact Hp|]. split; [exact Hranks|]. split; [|intros t ->; by apply report_scored].
    intros Hn. split; [|by apply Hs]. cbn [report_of er_ranking]. rewrite Hp.
    erewrite (List.filter_ext (longer deltas)); [reflexivity|]. intros phase. symmetry. by apply ranked_longer.
Qed.

Definition prefill_case (queueing prefill decode : Z) : list RequestPhases :=
  [mkRequestPhases "p1" [("queueing", of_Z queueing); ("prefill", of_Z prefill); ("decode", of_Z decode)]].

Lemma evaluate_case_sound_witness :
  ∃ r, evaluate_case (prefill_case 10 65 102) (prefill_case 12 98 102) "prefill" (Some "prefill") (of_Z 5)
      (lit 60 100) = Ok r ∧ er_abstained r = false ∧
    map mr_mechanism (er_ranking r) = ["prefill"; "queueing"] ∧
    StronglySorted delta_ge (er_ranking r) ∧ scored_against "prefill" r.
Proof.
  assert (∃ r, evaluate_case (prefill_case 10 65 102) (prefill_case 12 98 102) "prefill" (Some "prefill")
      (of_Z 5) (lit 60 100) = Ok r ∧ er_abstained r = false ∧
      map mr_mechanism (er_ranking r) = ["prefill"; "queueing"] ∧
      Forall (λ d, is_nan d.2 = false) (er_per_phase_delta_ms r)) as (r & Hr & Ha & Hn & Hf).
  { eexists. split; [vm_compute; reflexivity|]. split; [reflexivity|]. split; [reflexivity|].
    vm_compute. repeat constructor. }
  exists r. split; [exact Hr|]. split; [exact Ha|]. split; [exact Hn|]. revert Hr.
  generalize (prefill_case 10 65 102) (prefill_case 12 98 102) (lit 60 100) (of_Z 5).
  intros baseline anomaly dominance threshold Hr.
  destruct (evaluate_case_sound _ _ _ _ _ _ _ Hr) as (_ & _ & _ & H).
  destruct (H Ha) as (_ & _ & _ & _ & _ & Hs & Hscore).
  split; [exact (proj2 (Hs Hf))|]. exact (Hscore _ eq_refl).
Defined.

(** ** The span of a recovery *)

(** An event of the request in the stage *)
Definition marks_stage (req stage : string) (event : json) : Prop :=
  ∃ t, recovery_mark event = Ok (Some (stage, JStr req, t)).

Lemma record_span_other req event spans spans' :
  record_span event spans = Ok spans' → ¬ marks_stage req "preempt" event →
  ¬ marks_stage req "first_prefill_or_decode" event → spans' !! req = spans !! req.
Proof.
  unfold record_span, marks_stage. intros H Hp Hf. apply bind_ok in H as ([[[stage who] ts]|] & Hm & H);
    [|by injection H as <-].
  destruct (String.eqb_spec stage "preempt") as [->|_].
  - apply bind_ok in H as ([key|] & Hk & H); injection H as <-; [|done].
    destruct who as [|[]| |]; try done. injection Hk as ->.
    apply lookup_insert_ne. intros ->. apply Hp. by exists ts.
  - destruct (String.eqb_spec stage "first_prefill_or_decode") as [->|_]; [|by injection H as <-].
    apply bind_ok in H as ([key|] & Hk & H); [|by injection H as <-].
    destruct who as [|[]| |]; try done. injection Hk as ->.
    destruct (spans !! key) as [span|]; [|by injection H as <-].
    apply bind_ok in H as (ns & _ & H). injection H as <-.
    apply lookup_insert_ne. intros ->. apply Hf. by exists ts.
Qed.

Lemma record_span_start req event spans spans' :
  record_span event spans = Ok spans' → ¬ marks_stage req "preempt" event →
  rs_start <$> spans' !! req = rs_start <$> spans !! req.
Proof.
  unfold record_span, marks_stage. intros H Hp. apply bind_ok in H as ([[[stage who] ts]|] & Hm & H);
    [|by injection H as <-].
  destruct (String.eqb_spec stage "preempt") as [->|_].
  - apply bind_ok in H as ([key|] & Hk & H); injection H as <-; [|done].
    destruct who as [|[]| |]; try done. injection Hk as ->.
    rewrite lookup_insert_ne; [done|]. intros ->. apply Hp. by exists ts.
  - destruct (String.eqb_spec stage "first_prefill_or_decode") as [->|_]; [|by injection H as <-].
    apply bind_ok in H as ([key|] & Hk & H); [|by injection H as <-].
    destruct (spans !! key) as [span|] eqn:E; [|by injection H as <-].
    apply bind_ok in H as (ns & _ & H). injection H as <-.
    destruct (decide (key = req)) as [->|]; [by rewrite lookup_insert_eq, E|by rewrite lookup_insert_ne].
Qed.

Lemma client_rows_lookup spans max_requests rows client_timing i req total :
  client_timing !! i = Some (req, total) → Z.of_nat (length rows + i) < max_requests →
  client_rows spans max_requests rows client_timing !! (length rows + i)%nat
  = Some (mkRequestPhases req (split_phases (spans !! req) total)).
Proof.
  revert rows i. induction client_timing as [|[req' total'] rest IH]; intros rows i Hi Hn; [done|].
  cbn [client_rows]. set (row := mkRequestPhases req' _). destruct i as [|i]; simpl in Hi.
  - injection Hi as -> ->. assert ((rows ++ [row]) !! length rows = Some row) as Hrow by by apply list_lookup_middle.
    rewrite Nat.add_0_r. case_match; [exact Hrow|]. clear -Hrow.
    assert (∀ r t, r !! length rows = Some row → client_rows spans max_requests r t !! length rows = Some row) as Hk;
      [|by apply Hk].
    intros r t. revert r. induction t as [|[q x] t IH]; intros r Hr; cbn [client_rows]; [done|].
    assert ((r ++ [mkRequestPhases q (split_phases (spans !! q) x)]) !! length rows = Some row)
      by by apply lookup_app_l_Some.
    case_match; [done|by apply IH].
  - rewrite length_app. simpl. rewrite (proj2 (Z.leb_gt _ _)) by lia.
    specialize (IH (rows ++ [row]) i Hi). rewrite length_app in IH. simpl in IH.
    replace (length rows + S i)%nat with (length rows + 1 + i)%nat by lia. apply IH. lia.
Qed.

(** The phases that are built from the events of the shards charge a request with one
    recovery: from its last preemption to its last first compute after that, in
    milliseconds; the rest of its time is decode. *)
Theorem recovery_phase_last before p between f after client_timing max_requests rows req t1 t2 i total :
  phases_from_kv_recovery_and_client (before ++ p :: between ++ f :: after) client_timing max_requests
  = Ok rows →
  recovery_mark p = Ok (Some ("preempt", JStr req, t1)) →
  recovery_mark f = Ok (Some ("first_prefill_or_decode", JStr req, t2)) →
  Forall (λ e, ¬ marks_stage req "preempt" e) (between ++ after) →
  Forall (λ e, ¬ marks_stage req "first_prefill_or_decode" e) after →
  client_timing !! i = Some (req, total) → Z.of_nat i < max_requests →
  ∃ ns, float_of_int (t2 - t1) = Ok ns ∧
    let recovery := py_max f0 (fdiv ns (of_Z 1000000)) in
    rows !! i = Some (mkRequestPhases req [("kv_recovery", recovery); ("decode", py_max f0 (fsub total recovery))]).
Proof.
  unfold phases_from_kv_recovery_and_client. intros H Hp Hf [Hbet Haft]%Forall_app Hnof Hi Hmax.
  apply bind_ok in H as (spans & Hs & H). injection H as <-.
  apply res_foldM_app in Hs as (s0 & _ & Hs). cbn [res_foldM] in Hs.
  apply bind_ok in Hs as (s1 & Hs1 & Hs). unfold record_span in Hs1. rewrite Hp in Hs1. injection Hs1 as <-.
  apply res_foldM_app in Hs as (s2 & Hs2 & Hs). cbn [res_foldM] in Hs.
  apply bind_ok in Hs as (s3 & Hs3 & Hs).
  assert (rs_start <$> s2 !! req = Some t1) as Hstart.
  { rewrite (res_foldM_kept _ (λ s, rs_start <$> s !! req) _ _ _ _ (record_span_start req) Hs2 Hbet).
    by rewrite lookup_insert_eq. }
  unfold record_span in Hs3. rewrite Hf in Hs3. simpl in Hs3.
  destruct (s2 !! req) as [span|]; [|done]. injection Hstart as <-.
  apply bind_ok in Hs3 as (ns & Hns & Hs3). injection Hs3 as <-.
  exists ns. split; [exact Hns|]. simpl.
  assert (spans !! req = Some (mkRecoverySpan (rs_start span) (Some (fdiv ns (of_Z 1000000))))) as Hspan.
  { rewrite (res_foldM_kept _ (λ s, s !! req)
      (λ e, ¬ marks_stage req "preempt" e ∧ ¬ marks_stage req "first_prefill_or_decode" e) _ _ _
      (λ e a b Hab Hn, record_span_other req e a b Hab (proj1 Hn) (proj2 Hn)) Hs); [by rewrite lookup_insert_eq|].
    by apply Forall_and. }
  rewrite (client_rows_lookup _ _ [] _ i req total); [|done..|simpl; lia]. by rewrite Hspan.
Qed.

Definition stage_event (stage req : string) (ns : Z) : json :=
  JObject [("record_type", JStr "recovery_event"); ("runtime_request_id", JStr req); ("stage", JStr stage);
    ("timestamp_ns", JInt ns)].

Lemma recovery_phase_last_witness :
  ∃ rows, phases_from_kv_recovery_and_client
      [stage_event "preempt" "r" 1000000; stage_event "preempt" "r" 5000000;
       stage_event "restore_done" "r" 6000000; stage_event "first_prefill_or_decode" "r" 9000000]
      [("q", of_Z 3); ("r", of_Z 10)] 200 = Ok rows ∧
    ∃ ns, float_of_int 4000000 = Ok ns ∧
      rows !! 1%nat = Some (mkRequestPhases "r" [("kv_recovery", py_max f0 (fdiv ns (of_Z 1000000)));
        ("decode", py_max f0 (fsub (of_Z 10) (py_max f0 (fdiv ns (of_Z 1000000)))))]).
Proof.
  assert (∀ stage e, recovery_mark e = Ok (Some ("restore_done", JStr "r", 6000000)) →
    stage ≠ "restore_done" → ¬ marks_stage "r" stage e) as Hno.
  { intros stage e He Hne [t Ht]. congruence. }
  eexists. split; [vm_compute; reflexivity|].
  apply (recovery_phase_last [stage_event "preempt" "r" 1000000] (stage_event "preempt" "r" 5000000)
    [stage_event "restore_done" "r" 6000000] (stage_event "first_prefill_or_decode" "r" 9000000) []
    [("q", of_Z 3); ("r", of_Z 10)] 200 _ "r" 5000000 9000000 1 (of_Z 10));
    [vm_compute; reflexivity|reflexivity|reflexivity| |constructor|reflexivity|lia].
  constructor; [|constructor]. by apply Hno.
Defined.
