(* ===== verification/RecoveryDecomposition.v ===== *)
(** * kv_recovery.py: one recovery timeline, decomposed

    [decompose_kv_recovery] checks the events of one preemption episode and separates
    the copy from the waiting.  It accepts exactly the well-formed timelines, and the
    latencies of one it accepts are not negative. *)

From Stdlib Require Import ZArith Lia Ascii String.
From stdpp Require Import base list strings gmap sets sorting.
From S2P Require Import Prelude Binary64.

Module KVRecoveryStage.
Inductive kv_stage := PREEMPT | RESTORE_START | RESTORE_DONE | SCHEDULER_WAKEUP | REQUEUE | ADMISSION
  | FIRST_COMPUTE.

Definition kv_stage_value (s : kv_stage) : string :=
  match s with
  | PREEMPT => "preempt"
  | RESTORE_START => "restore_start"
  | RESTORE_DONE => "restore_done"
  | SCHEDULER_WAKEUP => "scheduler_wakeup"
  | REQUEUE => "requeue"
  | ADMISSION => "admission"
  | FIRST_COMPUTE => "first_prefill_or_decode"
  end.

#[export] Instance t_eq_dec : EqDecision kv_stage.
Proof. solve_decision. Defined.
End KVRecoveryStage.
Import KVRecoveryStage.

Record KVRecoveryEvent := mkKVEvent {
  ke_request_id : string;
  ke_sequence_id : string;
  ke_stage : KVRecoveryStage.kv_stage;
  ke_timestamp_ms : float;
  ke_block_ids : list string;
  ke_bytes_moved : option Z;
  ke_reason : option string }.

Record KVRecoveryDecomposition := mkDecomposition {
  kd_request_id : string;
  kd_sequence_id : string;
  kd_block_count : Z;
  kd_bytes_moved : Z;
  kd_copy_ms : float;
  kd_restore_to_wakeup_ms : float;
  kd_wakeup_to_admission_ms : float;
  kd_restore_to_admission_ms : float;
  kd_admission_to_first_compute_ms : float;
  kd_total_recovery_ms : float;
  kd_requeue_count : Z;
  kd_requeue_reasons : list string }.

Definition _REQUIRED_STAGES : list KVRecoveryStage.kv_stage :=
  [PREEMPT; RESTORE_START; RESTORE_DONE; SCHEDULER_WAKEUP; ADMISSION; FIRST_COMPUTE].

(** [by_stage[stage]], the dict as the list of its values *)
Definition at_stage (s : KVRecoveryStage.kv_stage) (by_stage : list KVRecoveryEvent)
    : option KVRecoveryEvent :=
  List.find (λ e, bool_decide (ke_stage e = s)) by_stage.

Fixpoint collect_stages (by_stage events : list KVRecoveryEvent) : res (list KVRecoveryEvent) :=
  match events with
  | [] => Ok by_stage
  | e :: events =>
      if bool_decide (ke_stage e = REQUEUE) then collect_stages by_stage events
      else
        ensure (negb (is_some_b (at_stage (ke_stage e) by_stage)))
          (ValueError ("duplicate recovery milestone: " +:+ kv_stage_value (ke_stage e))) ;;
        collect_stages (by_stage ++ [e]) events
  end.

(** [timestamps == sorted(timestamps)] *)
Fixpoint same_floats (l1 l2 : list float) : bool :=
  match l1, l2 with
  | [], [] => true
  | x :: l1, y :: l2 => feq x y && same_floats l1 l2
  | _, _ => false
  end.

Definition is_requeue (e : KVRecoveryEvent) : bool := bool_decide (ke_stage e = REQUEUE).

(** [not event.reason] *)
Definition no_reason (e : KVRecoveryEvent) : bool :=
  String.eqb (default "" (ke_reason e)) "".

Definition decompose_kv_recovery (events : list KVRecoveryEvent) : res KVRecoveryDecomposition :=
  let ordered := sorted_by ke_timestamp_ms events in
  match ordered with
  | [] => Raise (ValueError "kv recovery timeline is empty")
  | first :: _ =>
      ensure (forallb (λ e, String.eqb (ke_request_id e) (ke_request_id first)) ordered
              && forallb (λ e, String.eqb (ke_sequence_id e) (ke_sequence_id first)) ordered)
        (ValueError "all recovery events must use one stable request/sequence id") ;;
      by_stage ← collect_stages [] ordered;
      match at_stage PREEMPT by_stage, at_stage RESTORE_START by_stage,
            at_stage RESTORE_DONE by_stage, at_stage SCHEDULER_WAKEUP by_stage,
            at_stage ADMISSION by_stage, at_stage FIRST_COMPUTE by_stage with
      | Some preempt, Some restore_start, Some restore_done, Some wakeup, Some admission,
        Some first_compute =>
          let timestamps := map ke_timestamp_ms
            [preempt; restore_start; restore_done; wakeup; admission; first_compute] in
          ensure (same_floats timestamps (sorted_by id timestamps))
            (ValueError "recovery milestones are not causally ordered") ;;
          ensure (negb (bool_decide (ke_block_ids restore_start = [])))
            (ValueError "restore_start must carry stable block ids") ;;
          ensure (bool_decide (ke_block_ids restore_start = ke_block_ids restore_done))
            (ValueError "restore_start/restore_done block ids differ") ;;
          match ke_bytes_moved restore_done with
          | Some bytes =>
              ensure (0 <? bytes) (ValueError "restore_done must carry positive bytes_moved") ;;
              let requeues := List.filter is_requeue ordered in
              ensure (negb (existsb no_reason requeues))
                (ValueError "every requeue event must carry a reason") ;;
              let between a b := fsub (ke_timestamp_ms b) (ke_timestamp_ms a) in
              Ok (mkDecomposition (ke_request_id first) (ke_sequence_id first)
                (Z.of_nat (length (ke_block_ids restore_start))) bytes
                (between restore_start restore_done) (between restore_done wakeup)
                (between wakeup admission) (between restore_done admission)
                (between admission first_compute) (between preempt first_compute)
                (Z.of_nat (length requeues)) (map (λ e, default "" (ke_reason e)) requeues))
          | None => Raise (ValueError "restore_done must carry positive bytes_moved")
          end
      | _, _, _, _, _, _ =>
          let missing := List.filter (λ s, negb (is_some_b (at_stage s by_stage))) _REQUIRED_STAGES in
          Raise (ValueError ("missing recovery milestones: " +:+ String.concat ", " (map kv_stage_value missing)))
      end
  end.

(** ** The timelines it accepts *)

(** The milestone of each required stage, in causal order *)
Record milestones := mkMilestones {
  mi_preempt : KVRecoveryEvent;
  mi_restore_start : KVRecoveryEvent;
  mi_restore_done : KVRecoveryEvent;
  mi_wakeup : KVRecoveryEvent;
  mi_admission : KVRecoveryEvent;
  mi_first_compute : KVRecoveryEvent }.

Definition milestone_list (m : milestones) : list KVRecoveryEvent :=
  [mi_preempt m; mi_restore_start m; mi_restore_done m; mi_wakeup m; mi_admission m;
   mi_first_compute m].

Definition timestamps_of (m : milestones) : list float := map ke_timestamp_ms (milestone_list m).

(** The requeues, in the order of time *)
Definition requeues_of (events : list KVRecoveryEvent) : list KVRecoveryEvent :=
  List.filter is_requeue (sorted_by ke_timestamp_ms events).

(** One request, one sequence; apart from requeues, one event for each required stage,
    in causal order; the same blocks at both ends of the restore and a positive size;
    a reason for every requeue. *)
Record well_formed (events : list KVRecoveryEvent) (m : milestones) (request sequence : string)
    (bytes : Z) : Prop := {
  wf_ids : Forall (λ e, ke_request_id e = request ∧ ke_sequence_id e = sequence) events;
  wf_events : List.filter (λ e, negb (is_requeue e)) events ≡ₚ milestone_list m;
  wf_stages : map ke_stage (milestone_list m) = _REQUIRED_STAGES;
  wf_order : StronglySorted (λ x y, fle x y = true) (timestamps_of m);
  wf_blocks : ke_block_ids (mi_restore_start m) ≠ [] ∧
    ke_block_ids (mi_restore_done m) = ke_block_ids (mi_restore_start m);
  wf_bytes : ke_bytes_moved (mi_restore_done m) = Some bytes ∧ 0 < bytes;
  wf_reasons : Forall (λ e, ∃ s, ke_reason e = Some s ∧ s ≠ "") (requeues_of events) }.

Definition decomposition_of (events : list KVRecoveryEvent) (m : milestones)
    (request sequence : string) (bytes : Z) : KVRecoveryDecomposition :=
  let between a b := fsub (ke_timestamp_ms b) (ke_timestamp_ms a) in
  mkDecomposition request sequence (Z.of_nat (length (ke_block_ids (mi_restore_start m)))) bytes
    (between (mi_restore_start m) (mi_restore_done m)) (between (mi_restore_done m) (mi_wakeup m))
    (between (mi_wakeup m) (mi_admission m)) (between (mi_restore_done m) (mi_admission m))
    (between (mi_admission m) (mi_first_compute m)) (between (mi_preempt m) (mi_first_compute m))
    (Z.of_nat (length (requeues_of events)))
    (map (λ e, default "" (ke_reason e)) (requeues_of events)).

Lemma at_stage_some s l e : at_stage s l = Some e → e ∈ l ∧ ke_stage e = s.
Proof.
  unfold at_stage. intros [Hin Hs]%List.find_some. split; [by apply list_elem_of_In|].
  by apply bool_decide_eq_true in Hs.
Qed.

Lemma at_stage_none s l : at_stage s l = None → ∀ e, e ∈ l → ke_stage e ≠ s.
Proof.
  intros Hn e Hin Hs. apply list_elem_of_In in Hin.
  pose proof (List.find_none _ _ Hn e Hin) as Hb. simpl in Hb. by apply bool_decide_eq_false in Hb.
Qed.

Lemma at_stage_unique l e : NoDup (map ke_stage l) → e ∈ l → at_stage (ke_stage e) l = Some e.
Proof.
  intros Hnd Hin. destruct (at_stage (ke_stage e) l) as [e'|] eqn:E.
  - apply at_stage_some in E as [Hin' Hs]. f_equal.
    apply list_elem_of_lookup in Hin as [i Hi]. apply list_elem_of_lookup in Hin' as [j Hj].
    assert (i = j) as ->; [|congruence].
    eapply (NoDup_lookup (map ke_stage l)); [done|..]; rewrite list_lookup_fmap;
      [by rewrite Hi|rewrite Hj; simpl; by rewrite Hs].
  - by pose proof (at_stage_none _ _ E e Hin).
Qed.

(** The loop keeps the events that are not requeues, when their stages are distinct. *)
Definition milestones_in (l : list KVRecoveryEvent) : list KVRecoveryEvent :=
  List.filter (λ e, negb (is_requeue e)) l.

Lemma collect_stages_ok acc l r :
  collect_stages acc l = Ok r →
  r = acc ++ milestones_in l ∧ (NoDup (map ke_stage acc) → NoDup (map ke_stage r)).
Proof.
  revert acc. induction l as [|e l IH]; intros acc; cbn [collect_stages milestones_in List.filter].
  - intros [= <-]. by rewrite app_nil_r.
  - unfold is_requeue. destruct (bool_decide (ke_stage e = REQUEUE)); simpl; [apply IH|].
    intros H. inv_ok. match goal with H : collect_stages _ _ = _ |- _ => apply IH in H as [-> Hnd] end.
    rewrite <- app_assoc. split; [done|]. intros Hacc. rewrite <- app_assoc in Hnd. apply Hnd.
    rewrite map_app. apply NoDup_app. split; [done|]. split; [|apply NoDup_singleton].
    intros s Hs ->%list_elem_of_singleton. apply list_elem_of_fmap in Hs as (e' & Hs & Hin).
    destruct (at_stage (ke_stage e) acc) eqn:E; [done|].
    by apply (at_stage_none _ _ E e' Hin).
Qed.

Lemma collect_stages_complete acc l :
  NoDup (map ke_stage (acc ++ milestones_in l)) →
  collect_stages acc l = Ok (acc ++ milestones_in l).
Proof.
  revert acc. induction l as [|e l IH]; intros acc; cbn [collect_stages milestones_in List.filter].
  - by rewrite app_nil_r.
  - unfold is_requeue. destruct (bool_decide (ke_stage e = REQUEUE)); simpl; [apply IH|].
    intros Hnd. destruct (at_stage (ke_stage e) acc) as [e'|] eqn:E.
    + apply at_stage_some in E as [Hin Hs]. exfalso.
      rewrite map_app in Hnd. apply NoDup_app in Hnd as (_ & Hd & _).
      apply (Hd (ke_stage e')); [by apply list_elem_of_fmap_2|]. rewrite Hs. by left.
    + simpl. rewrite IH; rewrite <- app_assoc; [done|exact Hnd].
Qed.

Lemma same_floats_sorted l1 l2 :
  same_floats l1 l2 = true → StronglySorted (λ x y, fle x y = true) l2 →
  StronglySorted (λ x y, fle x y = true) l1.
Proof.
  revert l2. induction l1 as [|x l1 IH]; intros [|y l2]; simpl; try done.
  intros [Hxy Hl]%andb_prop Hs. inversion Hs as [|?? Hs' Hf]; subst.
  constructor; [by eapply IH|]. apply feq_fle in Hxy as [Hxy _]. clear IH Hs Hs'.
  revert l2 Hl Hf. induction l1 as [|z l1 IH]; intros [|w l2]; simpl; try done.
  intros [Hzw Hl]%andb_prop [Hw Hf]%Forall_cons. constructor; [|by eapply IH].
  apply feq_fle in Hzw as [_ Hwz]. exact (fle_trans _ _ _ Hxy (fle_trans _ _ _ Hw Hwz)).
Qed.

Lemma same_floats_refl l : Forall (λ x, is_nan x = false) l → same_floats l l = true.
Proof. induction 1 as [|x l Hx _ IH]; simpl; [done|]. by rewrite feq_refl, IH. Qed.

(** The milestones found by stage are all there is. *)
Lemma milestones_found r m :
  NoDup (map ke_stage r) → Forall (λ e, ke_stage e ≠ REQUEUE) r →
  map ke_stage (milestone_list m) = _REQUIRED_STAGES → Forall (λ e, e ∈ r) (milestone_list m) →
  r ≡ₚ milestone_list m.
Proof.
  intros Hnd Hq Hs Hin. apply NoDup_Permutation.
  - by eapply NoDup_fmap_1.
  - eapply (NoDup_fmap_1 ke_stage). change (NoDup (map ke_stage (milestone_list m))). rewrite Hs. unfold _REQUIRED_STAGES.
    repeat (constructor; [set_solver|]). constructor.
  - intros e. split; [|by apply (proj1 (Forall_forall _ _) Hin)].
    intros He. assert (ke_stage e ∈ map ke_stage (milestone_list m)) as Hst.
    { rewrite Hs. pose proof (proj1 (Forall_forall _ _) Hq e He) as Hne.
      simpl in Hne. unfold _REQUIRED_STAGES. rewrite !elem_of_cons. destruct (ke_stage e); by auto 10. }
    apply list_elem_of_fmap in Hst as (e' & He' & Hm).
    pose proof (proj1 (Forall_forall _ _) Hin e' Hm) as Hr.
    pose proof (at_stage_unique _ _ Hnd He) as E1. pose proof (at_stage_unique _ _ Hnd Hr) as E2.
    rewrite He', E2 in E1. by injection E1 as <-.
Qed.

Lemma sorted_nil {A} (key : A → float) l : sorted_by key l = [] → l = [].
Proof. intros E. apply Permutation_nil_r. by rewrite <- (sorted_by_Permutation key l), E. Qed.

Lemma milestones_in_sorted l :
  milestones_in (sorted_by ke_timestamp_ms l) ≡ₚ milestones_in l.
Proof.
  unfold milestones_in. generalize (sorted_by_Permutation ke_timestamp_ms l).
  induction 1 as [|x l1 l2 _ IH|x y l1|l1 l2 l3 _ IH1 _ IH2]; simpl; repeat case_match; try done.
  - by constructor.
  - apply Permutation_swap.
  - by etrans.
Qed.

Lemma not_requeue_milestones l : Forall (λ e, ke_stage e ≠ REQUEUE) (milestones_in l).
Proof.
  apply Forall_forall. intros e He. apply list_elem_of_In, List.filter_In in He as [_ Hr].
  unfold is_requeue in Hr. by apply negb_true_iff, bool_decide_eq_false in Hr.
Qed.

(** The checks after the milestones are found *)
Lemma same_ids_spec first l :
  forallb (λ e, String.eqb (ke_request_id e) (ke_request_id first)) l
  && forallb (λ e, String.eqb (ke_sequence_id e) (ke_sequence_id first)) l = true ↔
  Forall (λ e, ke_request_id e = ke_request_id first ∧ ke_sequence_id e = ke_sequence_id first) l.
Proof.
  rewrite andb_true_iff, !forallb_forall, Forall_forall. setoid_rewrite list_elem_of_In.
  setoid_rewrite String.eqb_eq. naive_solver.
Qed.

Lemma no_reason_spec l :
  existsb no_reason l = false ↔ Forall (λ e, ∃ s, ke_reason e = Some s ∧ s ≠ "") l.
Proof.
  induction l as [|e l IH]; simpl; [split; [constructor|done]|].
  rewrite orb_false_iff, IH, Forall_cons. unfold no_reason.
  destruct (ke_reason e) as [s|]; simpl.
  - rewrite String.eqb_neq. naive_solver.
  - split; [intros [? _]; done|]. by intros [(? & ? & _) _].
Qed.

Lemma decompose_ok events d :
  Forall (λ e, is_nan (ke_timestamp_ms e) = false) events →
  decompose_kv_recovery events = Ok d →
  ∃ m request sequence bytes, well_formed events m request sequence bytes ∧
    d = decomposition_of events m request sequence bytes.
Proof.
  intros Hnan. unfold decompose_kv_recovery.
  destruct (sorted_by ke_timestamp_ms events) as [|first rest] eqn:Eo; [done|].
  set (ordered := first :: rest) in *. intros H.
  apply bind_ok in H as ([] & Hids & H). apply ensure_ok in Hids.
  apply bind_ok in H as (r & Hr & H). apply collect_stages_ok in Hr as [-> Hnd].
  specialize (Hnd NoDup_nil_2). cbn [app] in *. set (r := milestones_in ordered) in *.
  destruct (at_stage PREEMPT r) as [p|] eqn:E1; [|done].
  destruct (at_stage RESTORE_START r) as [rs|] eqn:E2; [|done].
  destruct (at_stage RESTORE_DONE r) as [rd|] eqn:E3; [|done].
  destruct (at_stage SCHEDULER_WAKEUP r) as [w|] eqn:E4; [|done].
  destruct (at_stage ADMISSION r) as [a|] eqn:E5; [|done].
  destruct (at_stage FIRST_COMPUTE r) as [f|] eqn:E6; [|done].
  apply bind_ok in H as ([] & Hsame & H). apply ensure_ok in Hsame.
  apply bind_ok in H as ([] & Hne & H). apply ensure_ok, negb_true_iff, bool_decide_eq_false in Hne.
  apply bind_ok in H as ([] & Heq & H). apply ensure_ok, bool_decide_eq_true in Heq.
  destruct (ke_bytes_moved rd) as [bytes|] eqn:Eb; [|done].
  apply bind_ok in H as ([] & Hpos & H). apply ensure_ok, Z.ltb_lt in Hpos.
  apply bind_ok in H as ([] & Hreq & H). apply ensure_ok, negb_true_iff, no_reason_spec in Hreq.
  exists (mkMilestones p rs rd w a f), (ke_request_id first), (ke_sequence_id first), bytes.
  repeat match goal with E : at_stage _ _ = Some _ |- _ => apply at_stage_some in E as [? ?] end.
  assert (ordered ≡ₚ events) as Hp by (rewrite <- Eo; apply sorted_by_Permutation).
  split; [|unfold decomposition_of, requeues_of; rewrite Eo; by injection H as <-].
  constructor; simpl; try done.
  - by rewrite <- Hp; apply same_ids_spec.
  - rewrite <- milestones_in_sorted, Eo. fold ordered r.
    apply milestones_found; [done|apply not_requeue_milestones|unfold _REQUIRED_STAGES; simpl; congruence|].
    by repeat constructor.
  - unfold _REQUIRED_STAGES. congruence.
  - eapply same_floats_sorted; [exact Hsame|]. apply (sorted_by_sorted id).
    assert (Forall (λ e, is_nan (ke_timestamp_ms e) = false) r) as Hn.
    { apply Forall_forall. intros e He. apply (proj1 (Forall_forall _ _) Hnan).
      rewrite <- Hp. apply list_elem_of_In. apply list_elem_of_In, List.filter_In in He as [He _]. done. }
    rewrite Forall_forall in Hn. repeat constructor; by apply Hn.
  - unfold requeues_of. by rewrite Eo.
Qed.

Lemma milestone_at r m s e :
  r ≡ₚ milestone_list m → map ke_stage (milestone_list m) = _REQUIRED_STAGES →
  e ∈ milestone_list m → ke_stage e = s → at_stage s r = Some e.
Proof.
  intros Hp Hs He <-. apply at_stage_unique; [|by rewrite Hp].
  assert (map ke_stage r ≡ₚ _REQUIRED_STAGES) as ->.
  { rewrite <- Hs. by apply (Permutation_map ke_stage). }
  unfold _REQUIRED_STAGES. repeat (constructor; [set_solver|]). constructor.
Qed.

Lemma decompose_complete events m request sequence bytes :
  Forall (λ e, is_nan (ke_timestamp_ms e) = false) events →
  well_formed events m request sequence bytes →
  decompose_kv_recovery events = Ok (decomposition_of events m request sequence bytes).
Proof.
  intros Hnan [Hids Hev Hst Hord [Hb1 Hb2] [Hby1 Hby2] Hre].
  unfold decompose_kv_recovery, requeues_of in *.
  assert (Forall (λ e, is_nan (ke_timestamp_ms e) = false) (milestone_list m)) as Hmn.
  { apply Forall_forall. intros e He. rewrite <- Hev in He.
    apply list_elem_of_In, List.filter_In in He as [He _].
    apply (proj1 (Forall_forall _ _) Hnan). by apply list_elem_of_In. }
  pose proof (sorted_by_Permutation ke_timestamp_ms events) as Hp.
  rewrite <- milestones_in_sorted in Hev. unfold decomposition_of, requeues_of.
  destruct (sorted_by ke_timestamp_ms events) as [|first rest] eqn:Eo.
  { apply Permutation_nil in Hev. discriminate. }
  rewrite <- Hp in Hids. pose proof Hids as [[<- <-] _]%Forall_cons.
  apply bind_ok. exists tt. split; [by apply ensure_ok, same_ids_spec|].
  assert (∀ s e, e ∈ milestone_list m → ke_stage e = s →
    at_stage s (milestones_in (first :: rest)) = Some e) as Hat by (intros; by eapply milestone_at).
  apply bind_ok. exists (milestones_in (first :: rest)). split.
  { apply (collect_stages_complete []). simpl.
    assert (map ke_stage (milestones_in (first :: rest)) ≡ₚ _REQUIRED_STAGES) as ->.
    { rewrite <- Hst. by apply (Permutation_map ke_stage). }
    unfold _REQUIRED_STAGES. repeat (constructor; [set_solver|]). constructor. }
  unfold _REQUIRED_STAGES in Hst. simpl in Hst. injection Hst as S1 S2 S3 S4 S5 S6.
  rewrite (Hat PREEMPT (mi_preempt m)), (Hat RESTORE_START (mi_restore_start m)),
    (Hat RESTORE_DONE (mi_restore_done m)), (Hat SCHEDULER_WAKEUP (mi_wakeup m)),
    (Hat ADMISSION (mi_admission m)), (Hat FIRST_COMPUTE (mi_first_compute m))
    by (done || (unfold milestone_list; set_solver)).
  apply bind_ok. exists tt. split.
  { apply ensure_ok. rewrite (sorted_by_id id) by exact Hord. apply same_floats_refl.
    apply Forall_map. exact Hmn. }
  apply bind_ok. exists tt. split; [by apply ensure_ok, negb_true_iff, bool_decide_eq_false|].
  apply bind_ok. exists tt. split; [by apply ensure_ok, bool_decide_eq_true|].
  rewrite Hby1. apply bind_ok. exists tt. split; [by apply ensure_ok, Z.ltb_lt|].
  apply bind_ok. exists tt. split; [by apply ensure_ok, negb_true_iff, no_reason_spec|done].
Qed.

(** C22. A recovery timeline is decomposed exactly when it is well formed.  When no
    timestamp is NaN, [decompose_kv_recovery] returns a decomposition if and only if
    the events are of one request and sequence, hold one event for each required stage
    and, apart from requeues, no other, in causal order, with the same non-empty blocks
    at both ends of the restore, a positive size and a reason for every requeue; and
    the decomposition is made of the differences of those milestones. *)
Theorem decompose_kv_recovery_iff events d :
  Forall (λ e, is_nan (ke_timestamp_ms e) = false) events →
  decompose_kv_recovery events = Ok d ↔
  ∃ m request sequence bytes, well_formed events m request sequence bytes ∧
    d = decomposition_of events m request sequence bytes.
Proof.
  intros Hn. split; [by apply decompose_ok|].
  intros (m & request & sequence & bytes & Hw & ->). by apply decompose_complete.
Qed.

(** The latencies of a decomposition *)
Definition latencies (d : KVRecoveryDecomposition) : list float :=
  [kd_copy_ms d; kd_restore_to_wakeup_ms d; kd_wakeup_to_admission_ms d;
   kd_restore_to_admission_ms d; kd_admission_to_first_compute_ms d; kd_total_recovery_ms d].

(** No latency is negative.  When the timestamps are finite binary64 numbers, every
    latency of a decomposition is at least zero, with the rounding of the subtraction
    taken into account; the blocks and the bytes are positive; and the order of the
    input does not matter when no two timestamps are equal. *)
Theorem decomposition_bounds events d :
  Forall (λ e, b64 (ke_timestamp_ms e) ∧ is_finite (ke_timestamp_ms e) = true) events →
  decompose_kv_recovery events = Ok d →
  Forall (λ x, fle f0 x = true) (latencies d) ∧ 0 < kd_block_count d ∧ 0 < kd_bytes_moved d ∧
  ∀ events', events ≡ₚ events' →
    (∀ x y, x ∈ events → y ∈ events → feq (ke_timestamp_ms x) (ke_timestamp_ms y) = true → x = y) →
    decompose_kv_recovery events' = Ok d.
Proof.
  intros Hf Hd.
  assert (Forall (λ e, is_nan (ke_timestamp_ms e) = false) events) as Hn.
  { eapply Forall_impl; [exact Hf|]. intros e [_ He]. by destruct (ke_timestamp_ms e). }
  pose proof (decompose_ok _ _ Hn Hd) as (m & rq & sq & bytes & [Hids Hev Hst Hord [Hb _] [_ Hby] _] & ->).
  assert (Forall (λ e, b64 (ke_timestamp_ms e) ∧ is_finite (ke_timestamp_ms e) = true)
    (milestone_list m)) as Hm.
  { apply Forall_forall. intros e He. rewrite <- Hev in He.
    apply list_elem_of_In, List.filter_In in He as [He _].
    apply (proj1 (Forall_forall _ _) Hf). by apply list_elem_of_In. }
  split_and!; [| |done|].
  - unfold milestone_list in Hm. unfold timestamps_of, milestone_list in Hord. simpl in Hord.
    repeat match goal with
    | H : StronglySorted _ (_ :: _) |- _ => inversion H; clear H; subst
    | H : Forall _ (_ :: _) |- _ => apply Forall_cons in H as [? H]
    end.
    repeat match goal with H : b64 _ ∧ _ |- _ => destruct H end.
    repeat constructor; simpl; by apply fsub_nonneg.
  - simpl. destruct (ke_block_ids (mi_restore_start m)); simpl; [done|lia].
  - intros events' Hp Hk. rewrite <- Hd. unfold decompose_kv_recovery.
    by rewrite (sorted_by_unique ke_timestamp_ms events events' Hn Hp Hk).
Qed.

(** ** An example: two requeues, the events out of order *)

Definition kv_event (s : KVRecoveryStage.kv_stage) (ms : float) (blocks : list string)
    (bytes : option Z) (reason : option string) : KVRecoveryEvent :=
  mkKVEvent "req" "seq" s ms blocks bytes reason.

Definition example_timeline : list KVRecoveryEvent :=
  [kv_event FIRST_COMPUTE (lit 401 10) [] None None;
   kv_event PREEMPT (of_Z 10) [] None None;
   kv_event RESTORE_START (lit 121 10) ["b0"; "b1"] None None;
   kv_event REQUEUE (of_Z 22) [] None (Some "token_budget");
   kv_event RESTORE_DONE (lit 187 10) ["b0"; "b1"] (Some 8192) None;
   kv_event SCHEDULER_WAKEUP (of_Z 20) [] None None;
   kv_event REQUEUE (of_Z 21) [] None (Some "block_capacity");
   kv_event ADMISSION (of_Z 30) [] None None].

Definition example_decomposition : option KVRecoveryDecomposition :=
  match decompose_kv_recovery example_timeline with Ok d => Some d | Raise _ => None end.

Lemma decompose_kv_recovery_iff_witness :
  ∃ d, example_decomposition = Some d ∧ kd_requeue_reasons d = ["block_capacity"; "token_budget"] ∧
    ∃ m request sequence bytes, well_formed example_timeline m request sequence bytes ∧
      d = decomposition_of example_timeline m request sequence bytes.
Proof.
  assert (∃ d, decompose_kv_recovery example_timeline = Ok d ∧
    kd_requeue_reasons d = ["block_capacity"; "token_budget"]) as (d & Hd & Hr)
    by (eexists; vm_compute; split; reflexivity).
  exists d. unfold example_decomposition. rewrite Hd. split; [reflexivity|]. split; [exact Hr|].
  assert (Forall (λ e, is_nan (ke_timestamp_ms e) = false) example_timeline) as Hn
    by (repeat constructor).
  revert Hn Hd. generalize example_timeline. intros l Hn Hd.
  apply (decompose_kv_recovery_iff l d Hn). exact Hd.
Defined.

Lemma decomposition_bounds_witness :
  ∃ d, example_decomposition = Some d ∧ kd_copy_ms d = fsub (lit 187 10) (lit 121 10) ∧
    Forall (λ x, fle f0 x = true) (latencies d).
Proof.
  assert (∃ d, decompose_kv_recovery example_timeline = Ok d ∧
    kd_copy_ms d = fsub (lit 187 10) (lit 121 10)) as (d & Hd & Hc)
    by (eexists; vm_compute; split; reflexivity).
  exists d. unfold example_decomposition. rewrite Hd. split; [reflexivity|]. split; [exact Hc|].
  assert (Forall (λ e, b64 (ke_timestamp_ms e) ∧ is_finite (ke_timestamp_ms e) = true)
    example_timeline) as Hf by (repeat constructor).
  revert Hf Hd. generalize example_timeline. intros l Hf Hd.
  apply (decomposition_bounds l d Hf Hd).
Defined.
