(* ===== verification/Trace.v ===== *)
(** * trace.py: lifecycle spans and the attribution of a bottleneck

    [compute_spans] takes the first event of each stage, [attribute_bottleneck] the
    longest span, and the fault matrix counts how often the attribution is right.  An
    enumeration is an inductive type in a module of its name. *)

From Stdlib Require Import ZArith Lia Ascii String.
From stdpp Require Import base list strings gmap sets sorting.
From S2P Require Import Prelude Binary64 JsonValue.

Module LifecycleStage.
Inductive stage := RECEIVED | TOKENIZED | QUEUED | SCHEDULED | PREFILL_DONE | FIRST_TOKEN
  | DECODE_DONE | STREAM_DONE | CLEANUP_DONE.

Definition stage_value (s : stage) : string :=
  match s with
  | RECEIVED => "received" | TOKENIZED => "tokenized" | QUEUED => "queued"
  | SCHEDULED => "scheduled" | PREFILL_DONE => "prefill_done" | FIRST_TOKEN => "first_token"
  | DECODE_DONE => "decode_done" | STREAM_DONE => "stream_done" | CLEANUP_DONE => "cleanup_done"
  end.

(** [tuple(LifecycleStage)] *)
Definition all_stages : list stage :=
  [RECEIVED; TOKENIZED; QUEUED; SCHEDULED; PREFILL_DONE; FIRST_TOKEN; DECODE_DONE; STREAM_DONE;
   CLEANUP_DONE].

#[global] Instance t_eq_dec : EqDecision stage.
Proof. solve_decision. Defined.
End LifecycleStage.

Module BottleneckKind.
Inductive kind := TOKENIZATION | QUEUEING | PREFILL | DECODE | KV_PRESSURE | STREAMING | CLEANUP
  | UNKNOWN.

Definition kind_value (k : kind) : string :=
  match k with
  | TOKENIZATION => "tokenization" | QUEUEING => "queueing" | PREFILL => "prefill"
  | DECODE => "decode" | KV_PRESSURE => "kv_pressure" | STREAMING => "streaming"
  | CLEANUP => "cleanup" | UNKNOWN => "unknown"
  end.

#[global] Instance t_eq_dec : EqDecision kind.
Proof. solve_decision. Defined.
End BottleneckKind.

Record TraceEvent := mkTraceEvent {
  te_request_id : string;
  te_stage : LifecycleStage.stage;
  te_timestamp_ms : float;
  te_metadata : option (list (string * scalar)) }.

Record StageSpan := mkSpan {
  sp_name : string;
  sp_start_stage : LifecycleStage.stage;
  sp_end_stage : LifecycleStage.stage;
  sp_duration_ms : float }.

Record BottleneckAttribution := mkAttribution {
  ba_kind : BottleneckKind.kind;
  ba_span_name : string;
  ba_duration_ms : float;
  ba_reason : string }.

Record SchemaCoverage := mkCoverage {
  cv_request_id : string;
  cv_observed_stages : list LifecycleStage.stage;
  cv_missing_stages : list LifecycleStage.stage;
  cv_complete_span_names : list string;
  cv_missing_span_names : list string;
  cv_missing_event_rate : float }.

Record FaultInjectionScenario := mkScenario {
  fs_name : string;
  fs_expected_bottleneck : BottleneckKind.kind;
  fs_events : list TraceEvent }.

Record AttributionMatrix := mkMatrix {
  am_scenario_count : Z;
  am_correct_count : Z;
  am_false_positive_count : Z;
  am_false_negative_count : Z;
  am_accuracy : float;
  am_rows : list (list (string * scalar)) }.

Definition SPAN_DEFINITIONS : list (string * LifecycleStage.stage * LifecycleStage.stage) :=
  [("tokenization", LifecycleStage.RECEIVED, LifecycleStage.TOKENIZED);
   ("queueing", LifecycleStage.QUEUED, LifecycleStage.SCHEDULED);
   ("prefill", LifecycleStage.SCHEDULED, LifecycleStage.FIRST_TOKEN);
   ("decode", LifecycleStage.FIRST_TOKEN, LifecycleStage.DECODE_DONE);
   ("streaming", LifecycleStage.DECODE_DONE, LifecycleStage.STREAM_DONE);
   ("cleanup", LifecycleStage.STREAM_DONE, LifecycleStage.CLEANUP_DONE)].

Definition REQUIRED_SCHEMA_STAGES : list LifecycleStage.stage := LifecycleStage.all_stages.

Definition SPAN_TO_BOTTLENECK : list (string * BottleneckKind.kind) :=
  [("tokenization", BottleneckKind.TOKENIZATION); ("queueing", BottleneckKind.QUEUEING);
   ("prefill", BottleneckKind.PREFILL); ("decode", BottleneckKind.DECODE);
   ("streaming", BottleneckKind.STREAMING); ("cleanup", BottleneckKind.CLEANUP)].

(** ** Spans *)

(** [by_stage[stage]] after the loop of [setdefault] over the sorted events *)
Definition first_at (stage : LifecycleStage.stage) (ordered : list TraceEvent) : option TraceEvent :=
  List.find (λ e, bool_decide (te_stage e = stage)) ordered.

Definition span_of (ordered : list TraceEvent) (d : string * LifecycleStage.stage * LifecycleStage.stage)
    : list StageSpan :=
  let '(name, start, end_) := d in
  match first_at start ordered, first_at end_ ordered with
  | Some s, Some e =>
      let duration := fsub (te_timestamp_ms e) (te_timestamp_ms s) in
      if fle f0 duration then [mkSpan name start end_ duration] else []
  | _, _ => []
  end.

Definition compute_spans (events : list TraceEvent) : list StageSpan :=
  concat (map (span_of (sorted_by te_timestamp_ms events)) SPAN_DEFINITIONS).

(** [tuple(dict.fromkeys(l))] *)
Fixpoint first_occurrences (seen l : list LifecycleStage.stage) : list LifecycleStage.stage :=
  match l with
  | [] => []
  | x :: l =>
      if bool_decide (x ∈ seen) then first_occurrences seen l
      else x :: first_occurrences (x :: seen) l
  end.

Definition evaluate_schema_coverage (events : list TraceEvent) : SchemaCoverage :=
  let ordered := sorted_by te_timestamp_ms events in
  let request_id := match ordered with e :: _ => te_request_id e | [] => "" end in
  let observed := first_occurrences [] (map te_stage ordered) in
  let missing := List.filter (λ s, negb (bool_decide (s ∈ observed))) REQUIRED_SCHEMA_STAGES in
  let complete := map sp_name (compute_spans ordered) in
  let missing_names := List.filter (λ n, negb (str_in n complete)) (map (λ d, d.1.1) SPAN_DEFINITIONS) in
  mkCoverage request_id observed missing complete missing_names
    (fdiv (of_Z (Z.of_nat (length missing))) (of_Z (Z.of_nat (length REQUIRED_SCHEMA_STAGES)))).

(** ** Attribution *)

(** [isinstance(v, int | float) and v >= 0.9]; a [bool] is an [int]. *)
Definition high_pressure (v : option scalar) : bool :=
  match v with
  | Some (SBool b) => b
  | Some (SInt n) => 1 <=? n
  | Some (SFloat x) => fle (lit 9 10) x
  | _ => false
  end.

Definition event_pressure (e : TraceEvent) : bool :=
  let metadata := default [] (te_metadata e) in
  match assoc "kv_pressure" metadata with
  | Some (SBool true) => true
  | _ => high_pressure (assoc "kv_cache_pressure_ratio" metadata)
  end.

Definition _metadata_indicates_kv_pressure (events : list TraceEvent) : bool :=
  existsb event_pressure events.

(** [max(spans, key=lambda span: span.duration_ms)] *)
Definition longest (first : StageSpan) (rest : list StageSpan) : StageSpan :=
  foldl (λ best s, if flt (sp_duration_ms best) (sp_duration_ms s) then s else best) first rest.

Definition attribute_bottleneck (events : list TraceEvent) (min_duration_ms : float)
    : BottleneckAttribution :=
  match compute_spans events with
  | [] => mkAttribution BottleneckKind.UNKNOWN "missing_spans" f0 "no_complete_lifecycle_span"
  | first :: rest =>
      let worst := longest first rest in
      let d := sp_duration_ms worst in
      if flt d min_duration_ms then
        mkAttribution BottleneckKind.UNKNOWN (sp_name worst) d "all_spans_below_threshold"
      else if _metadata_indicates_kv_pressure events && str_in (sp_name worst) ["queueing"; "prefill"] then
        mkAttribution BottleneckKind.KV_PRESSURE (sp_name worst) d
          ("kv_pressure_marker_on_largest_span:" +:+ sp_name worst)
      else
        mkAttribution (default BottleneckKind.UNKNOWN (assoc (sp_name worst) SPAN_TO_BOTTLENECK))
          (sp_name worst) d ("largest_lifecycle_span:" +:+ sp_name worst)
  end.

(** ** Fault injection *)

Definition durations := list (string * float).

(** [durations.get(name, dflt)] *)
Definition duration_or (name : string) (dflt : float) (d : durations) : float :=
  default dflt (assoc name d).

(** The inner function [events_for] *)
Definition events_for (name : string) (d : durations) (expected : BottleneckKind.kind)
    (metadata : option (list (string * scalar))) : FaultInjectionScenario :=
  let tokenized := fadd f0 (duration_or "tokenization" (of_Z 1) d) in
  let queued := fadd tokenized (duration_or "admission_gap" (lit 1 10) d) in
  let scheduled := fadd queued (duration_or "queueing" (of_Z 1) d) in
  let prefilled := fadd scheduled (duration_or "prefill" (of_Z 1) d) in
  let decoded := fadd prefilled (duration_or "decode" (of_Z 1) d) in
  let streamed := fadd decoded (duration_or "streaming" (of_Z 1) d) in
  let cleaned := fadd streamed (duration_or "cleanup" (of_Z 1) d) in
  mkScenario name expected
    [mkTraceEvent name LifecycleStage.RECEIVED f0 None;
     mkTraceEvent name LifecycleStage.TOKENIZED tokenized None;
     mkTraceEvent name LifecycleStage.QUEUED queued None;
     mkTraceEvent name LifecycleStage.SCHEDULED scheduled metadata;
     mkTraceEvent name LifecycleStage.PREFILL_DONE prefilled metadata;
     mkTraceEvent name LifecycleStage.FIRST_TOKEN prefilled metadata;
     mkTraceEvent name LifecycleStage.DECODE_DONE decoded None;
     mkTraceEvent name LifecycleStage.STREAM_DONE streamed None;
     mkTraceEvent name LifecycleStage.CLEANUP_DONE cleaned None].

Definition baseline : durations :=
  [("tokenization", of_Z 2); ("queueing", of_Z 3); ("prefill", of_Z 4); ("decode", of_Z 5);
   ("streaming", of_Z 2); ("cleanup", of_Z 1)].

(** [baseline | {name: ms}] *)
Definition slowed (name : string) (ms : Z) : durations := (name, of_Z ms) :: baseline.

Definition synthetic_fault_scenarios : list FaultInjectionScenario :=
  [events_for "tokenizer_slow_path" (slowed "tokenization" 80) BottleneckKind.TOKENIZATION None;
   events_for "queue_surge" (slowed "queueing" 95) BottleneckKind.QUEUEING None;
   events_for "prefill_long_prompt" (slowed "prefill" 120) BottleneckKind.PREFILL None;
   events_for "decode_heavy_output" (slowed "decode" 140) BottleneckKind.DECODE None;
   events_for "kv_pressure_boundary" (slowed "prefill" 90) BottleneckKind.KV_PRESSURE
     (Some [("kv_pressure", SBool true); ("kv_cache_pressure_ratio", SFloat (lit 97 100))]);
   events_for "streaming_backpressure" (slowed "streaming" 110) BottleneckKind.STREAMING None;
   events_for "cleanup_stall" (slowed "cleanup" 100) BottleneckKind.CLEANUP None].

Definition is_correct (min_duration_ms : float) (s : FaultInjectionScenario) : bool :=
  bool_decide (ba_kind (attribute_bottleneck (fs_events s) min_duration_ms) = fs_expected_bottleneck s).

Definition is_unknown (min_duration_ms : float) (s : FaultInjectionScenario) : bool :=
  bool_decide (ba_kind (attribute_bottleneck (fs_events s) min_duration_ms) = BottleneckKind.UNKNOWN).

Definition matrix_row (min_duration_ms : float) (s : FaultInjectionScenario) : list (string * scalar) :=
  let attribution := attribute_bottleneck (fs_events s) min_duration_ms in
  [("scenario", SStr (fs_name s)); ("expected", SStr (BottleneckKind.kind_value (fs_expected_bottleneck s)));
   ("observed", SStr (BottleneckKind.kind_value (ba_kind attribution)));
   ("span", SStr (ba_span_name attribution)); ("duration_ms", SFloat (ba_duration_ms attribution));
   ("missing_event_rate", SFloat (cv_missing_event_rate (evaluate_schema_coverage (fs_events s))));
   ("correct", SBool (is_correct min_duration_ms s))].

Definition int_of_bool (b : bool) : Z := if b then 1 else 0.

(** The loop over the scenarios *)
Fixpoint matrix_loop (min_duration_ms : float) (scenarios : list FaultInjectionScenario)
    (m : list (list (string * scalar)) * Z * Z * Z) : list (list (string * scalar)) * Z * Z * Z :=
  match scenarios with
  | [] => m
  | s :: scenarios =>
      let '(rows, correct, false_positive, false_negative) := m in
      let ok := is_correct min_duration_ms s in
      let unknown := is_unknown min_duration_ms s in
      matrix_loop min_duration_ms scenarios
        (rows ++ [matrix_row min_duration_ms s], correct + int_of_bool ok,
         false_positive + int_of_bool (negb ok && negb unknown),
         false_negative + int_of_bool (negb ok && unknown))
  end.

Definition evaluate_fault_injection_matrix (scenarios : list FaultInjectionScenario)
    (min_duration_ms : float) : AttributionMatrix :=
  let '(rows, correct, false_positive, false_negative) :=
    matrix_loop min_duration_ms scenarios ([], 0, 0, 0) in
  let scenario_count := Z.of_nat (length rows) in
  let accuracy := if scenario_count =? 0 then f0 else fdiv (of_Z correct) (of_Z scenario_count) in
  mkMatrix scenario_count correct false_positive false_negative accuracy rows.

(** ** What the attribution rests on *)

Lemma first_at_some stage l e : first_at stage l = Some e → e ∈ l ∧ te_stage e = stage.
Proof.
  unfold first_at. intros [Hin Hs]%List.find_some. split; [by apply list_elem_of_In|].
  by apply bool_decide_eq_true in Hs.
Qed.

Lemma first_at_none stage l e : first_at stage l = None → e ∈ l → te_stage e ≠ stage.
Proof.
  intros Hn Hin Hs. apply list_elem_of_In in Hin.
  pose proof (List.find_none _ _ Hn e Hin) as Hb. simpl in Hb. by apply bool_decide_eq_false in Hb.
Qed.

(** In a sorted list the first event of a stage is an earliest one. *)
Lemma first_at_least stage l e e' :
  StronglySorted (key_le te_timestamp_ms) l → Forall (λ e, is_nan (te_timestamp_ms e) = false) l →
  first_at stage l = Some e → e' ∈ l → te_stage e' = stage →
  fle (te_timestamp_ms e) (te_timestamp_ms e') = true.
Proof.
  induction 1 as [|x l Hl IH Hx]; [done|]. intros [Hxn Hn]%Forall_cons. unfold first_at. cbn [List.find].
  case_bool_decide as Hs.
  - intros [= ->] [->|Hin]%elem_of_cons _; [by apply fle_refl|]. exact (proj1 (Forall_forall _ _) Hx e' Hin).
  - intros Hf [->|Hin]%elem_of_cons He'; [done|]. by apply IH.
Qed.

(** [e] is an earliest event of the stage. *)
Definition earliest (events : list TraceEvent) (stage : LifecycleStage.stage) (e : TraceEvent) : Prop :=
  e ∈ events ∧ te_stage e = stage ∧
  ∀ e', e' ∈ events → te_stage e' = stage → fle (te_timestamp_ms e) (te_timestamp_ms e') = true.

Definition no_nan (events : list TraceEvent) : Prop :=
  Forall (λ e, is_nan (te_timestamp_ms e) = false) events.

Lemma first_at_earliest events stage e :
  no_nan events → first_at stage (sorted_by te_timestamp_ms events) = Some e →
  earliest events stage e.
Proof.
  intros Hn Hf. pose proof (sorted_by_Permutation te_timestamp_ms events) as Hp.
  destruct (first_at_some _ _ _ Hf) as [Hin Hs]. split_and!; [by rewrite <- Hp|done|].
  intros e' Hin' Hs'. eapply first_at_least; [by apply sorted_by_sorted|by rewrite Hp|exact Hf| |done].
  by rewrite Hp.
Qed.

Lemma span_in events sp :
  sp ∈ compute_spans events ↔
  (sp_name sp, sp_start_stage sp, sp_end_stage sp) ∈ SPAN_DEFINITIONS ∧
  ∃ s e, first_at (sp_start_stage sp) (sorted_by te_timestamp_ms events) = Some s ∧
    first_at (sp_end_stage sp) (sorted_by te_timestamp_ms events) = Some e ∧
    sp_duration_ms sp = fsub (te_timestamp_ms e) (te_timestamp_ms s) ∧
    fle f0 (sp_duration_ms sp) = true.
Proof.
  unfold compute_spans. rewrite list_elem_of_In, List.in_concat. split.
  - intros (l & Hl & Hin). apply List.in_map_iff in Hl as ([[name start] end_] & <- & Hd).
    unfold span_of in Hin. destruct (first_at start _) as [s|] eqn:Es; [|done].
    destruct (first_at end_ _) as [e|] eqn:Ee; [|done].
    destruct (fle f0 _) eqn:Ed; [|done]. destruct Hin as [<-|[]]. simpl.
    split; [by apply list_elem_of_In|]. by exists s, e.
  - intros (Hd & s & e & Es & Ee & Hdur & Hpos).
    exists [sp]. split; [|by left]. apply List.in_map_iff.
    eexists (_, _, _). split; [|by apply list_elem_of_In]. simpl. rewrite Es, Ee, <- Hdur, Hpos.
    by destruct sp.
Qed.

(** A difference that is at least zero is not NaN. *)
Lemma longest_spec first rest :
  Forall (λ s, fle f0 (sp_duration_ms s) = true) (first :: rest) →
  longest first rest ∈ first :: rest ∧
  Forall (λ s, fle (sp_duration_ms s) (sp_duration_ms (longest first rest)) = true) (first :: rest).
Proof.
  unfold longest. revert first. induction rest as [|s rest IH]; intros first.
  - intros [Hf _]%Forall_cons. simpl. split; [by left|]. constructor; [|constructor].
    apply fle_refl. by apply fle_nan in Hf as [_ ?].
  - intros [Hf Hr]%Forall_cons. pose proof Hr as [Hs _]%Forall_cons. cbn [foldl].
    set (b := if flt (sp_duration_ms first) (sp_duration_ms s) then s else first).
    assert (b = first ∨ b = s) as Hb by (unfold b; destruct (flt _ _); auto).
    assert (fle (sp_duration_ms first) (sp_duration_ms b) = true ∧
            fle (sp_duration_ms s) (sp_duration_ms b) = true) as [Hfb Hsb].
    { apply fle_nan in Hf as [_ Hf]. apply fle_nan in Hs as [_ Hs]. unfold b.
      destruct (flt _ _) eqn:E; split; try (by apply fle_refl); [by apply flt_fle|by apply not_flt_fle]. }
    destruct (IH b) as [Hin Hall].
    { apply Forall_cons in Hr as [_ Hr]. constructor; [by destruct Hb as [-> | ->]|done]. }
    apply Forall_cons in Hall as [Hbl Hall]. split.
    + apply elem_of_cons in Hin as [->|Hin]; [|by right; right].
      destruct Hb as [-> | ->]; [by left|by right; left].
    + constructor; [by eapply fle_trans|]. constructor; [by eapply fle_trans|done].
Qed.

Lemma span_kind name start end_ :
  (name, start, end_) ∈ SPAN_DEFINITIONS →
  ∃ k, assoc name SPAN_TO_BOTTLENECK = Some k ∧ k ≠ BottleneckKind.UNKNOWN ∧
    k ≠ BottleneckKind.KV_PRESSURE.
Proof.
  unfold SPAN_DEFINITIONS. rewrite !elem_of_cons, elem_of_nil. intros Hd.
  repeat (destruct Hd as [Hd|Hd]; [simplify_eq; by eexists|]). done.
Qed.

(** The longest span, when there is one *)
Lemma attribution_worst events first rest :
  compute_spans events = first :: rest →
  longest first rest ∈ compute_spans events ∧
  ∀ s, s ∈ compute_spans events → fle (sp_duration_ms s) (sp_duration_ms (longest first rest)) = true.
Proof.
  intros E. destruct (longest_spec first rest) as [Hin Hall].
  { rewrite <- E. apply Forall_forall. intros s Hs. apply span_in in Hs. by destruct Hs as (_ & ? & ? & ? & ? & ? & ?). }
  rewrite <- E in Hin, Hall. split; [done|]. by apply Forall_forall.
Qed.

(** An attribution is grounded.  For events whose timestamps are not NaN,
    [attribute_bottleneck] names a bottleneck exactly when some span reaches the
    threshold; the span it names runs between the earliest events of its two stages,
    no complete span is longer, its duration is their difference; it blames the
    pressure on the KV cache only for a queueing or prefill span of a trace that
    carries the marker, and otherwise the kind is that of the span. *)
Theorem attribution_grounded events min :
  no_nan events →
  let a := attribute_bottleneck events min in
  (ba_kind a ≠ BottleneckKind.UNKNOWN ↔
   ∃ sp, sp ∈ compute_spans events ∧ flt (sp_duration_ms sp) min = false ∧
     ∀ sp', sp' ∈ compute_spans events → fle (sp_duration_ms sp') (sp_duration_ms sp) = true) ∧
  (ba_kind a ≠ BottleneckKind.UNKNOWN → ∃ start end_ s e,
     (ba_span_name a, start, end_) ∈ SPAN_DEFINITIONS ∧
     earliest events start s ∧ earliest events end_ e ∧
     ba_duration_ms a = fsub (te_timestamp_ms e) (te_timestamp_ms s) ∧
     (∀ sp, sp ∈ compute_spans events → fle (sp_duration_ms sp) (ba_duration_ms a) = true) ∧
     if bool_decide (ba_kind a = BottleneckKind.KV_PRESSURE) then
       (∃ x, x ∈ events ∧ event_pressure x = true) ∧ ba_span_name a ∈ ["queueing"; "prefill"]
     else assoc (ba_span_name a) SPAN_TO_BOTTLENECK = Some (ba_kind a)).
Proof.
  intros Hn a. unfold a, attribute_bottleneck.
  destruct (compute_spans events) as [|first rest] eqn:E.
  { split; [|done]. split; [done|]. intros (sp & Hin & _). by apply elem_of_nil in Hin. }
  destruct (attribution_worst _ _ _ E) as [Hin Hmax]. rewrite <- E in *. clear E.
  set (w := longest first rest) in *.
  pose proof (proj1 (span_in _ _) Hin) as (Hdef & s & e & Hs & He & Hdur & Hpos).
  destruct (span_kind _ _ _ Hdef) as (k & Hk & Hku & Hkp). rewrite Hk. simpl.
  assert (∃ start end_ s e, (sp_name w, start, end_) ∈ SPAN_DEFINITIONS ∧
     earliest events start s ∧ earliest events end_ e ∧
     sp_duration_ms w = fsub (te_timestamp_ms e) (te_timestamp_ms s)) as (st & en & s' & e' & Hb).
  { exists (sp_start_stage w), (sp_end_stage w), s, e. split_and!; try done; by apply first_at_earliest. }
  destruct (flt (sp_duration_ms w) min) eqn:Em; simpl.
  { split; [|done]. split; [done|]. intros (sp & Hsp & Hlt & Hle).
    pose proof (fle_flt_trans _ _ _ (Hmax sp Hsp) Em). congruence. }
  destruct (_ && _) eqn:Ep; simpl; (split; [split; [by exists w|done]|]); intros _;
    exists st, en, s', e'; destruct Hb as (? & ? & ? & ?); split_and!; try done.
  - apply andb_prop in Ep as [Ep Ename].
    apply existsb_exists in Ep as (x & Hx & Hpx). exists x. by rewrite list_elem_of_In.
  - apply andb_prop in Ep as [_ Ename]. by apply str_in_spec.
  - by rewrite bool_decide_eq_false_2.
Qed.

(** C23. The order of the trace does not matter.  For events with distinct timestamps,
    none of them NaN, the spans, the coverage of the schema and the attribution are the
    same for every order in which the events are given. *)
Theorem trace_order_free events events' min :
  no_nan events → events ≡ₚ events' →
  (∀ x y, x ∈ events → y ∈ events → feq (te_timestamp_ms x) (te_timestamp_ms y) = true → x = y) →
  compute_spans events = compute_spans events' ∧
  evaluate_schema_coverage events = evaluate_schema_coverage events' ∧
  attribute_bottleneck events min = attribute_bottleneck events' min.
Proof.
  intros Hn Hp Hk. pose proof (sorted_by_unique te_timestamp_ms events events' Hn Hp Hk) as Es.
  assert (compute_spans events = compute_spans events') as Ec by (unfold compute_spans; by rewrite Es).
  split_and!; [done|unfold evaluate_schema_coverage; by rewrite Es|].
  unfold attribute_bottleneck. rewrite <- Ec.
  assert (_metadata_indicates_kv_pressure events = _metadata_indicates_kv_pressure events') as ->; [|done].
  apply eq_bool_prop_intro. unfold _metadata_indicates_kv_pressure.
  rewrite !Is_true_true, !existsb_exists. setoid_rewrite <- list_elem_of_In. by setoid_rewrite Hp.
Qed.

Lemma matrix_loop_counts min scenarios rows c p n :
  let '(rows', c', p', n') := matrix_loop min scenarios (rows, c, p, n) in
  length rows' = (length rows + length scenarios)%nat ∧
  c' = c + Z.of_nat (length (List.filter (is_correct min) scenarios)) ∧
  c' + p' + n' = c + p + n + Z.of_nat (length scenarios) ∧ p ≤ p' ∧ n ≤ n'.
Proof.
  revert rows c p n. induction scenarios as [|s scenarios IH]; intros rows c p n; cbn [matrix_loop].
  { simpl. lia. }
  specialize (IH (rows ++ [matrix_row min s]) (c + int_of_bool (is_correct min s))
    (p + int_of_bool (negb (is_correct min s) && negb (is_unknown min s)))
    (n + int_of_bool (negb (is_correct min s) && is_unknown min s))).
  destruct (matrix_loop _ _ _) as [[[rows' c'] p'] n']. rewrite length_app in IH. cbn [List.filter length] in *.
  destruct (is_correct min s), (is_unknown min s); simpl in *; lia.
Qed.

(** The matrix adds up.  Every scenario is counted once, as correct, as a false
    positive or as a false negative, and has its row; and the seven synthetic faults
    are all attributed to the fault that was injected. *)
Theorem fault_matrix_exact :
  (∀ scenarios min, let m := evaluate_fault_injection_matrix scenarios min in
     am_scenario_count m = Z.of_nat (length scenarios) ∧
     length (am_rows m) = length scenarios ∧
     am_correct_count m = Z.of_nat (length (List.filter (is_correct min) scenarios)) ∧
     am_correct_count m + am_false_positive_count m + am_false_negative_count m
       = am_scenario_count m ∧
     0 ≤ am_false_positive_count m ∧ 0 ≤ am_false_negative_count m) ∧
  let m := evaluate_fault_injection_matrix synthetic_fault_scenarios (of_Z 1) in
  am_scenario_count m = 7 ∧ am_correct_count m = 7 ∧ am_accuracy m = of_Z 1.
Proof.
  split; [|vm_compute; split_and!; reflexivity].
  intros scenarios min m. unfold m, evaluate_fault_injection_matrix.
  pose proof (matrix_loop_counts min scenarios [] 0 0 0) as Hl.
  destruct (matrix_loop _ _ _) as [[[rows c] p] n]. simpl in *. lia.
Qed.

(** ** Examples *)

Definition surge : list TraceEvent :=
  fs_events (events_for "queue_surge" (slowed "queueing" 95) BottleneckKind.QUEUEING None).

Lemma attribution_grounded_witness :
  no_nan surge ∧ ba_kind (attribute_bottleneck surge (of_Z 1)) = BottleneckKind.QUEUEING ∧
  ∃ start end_ s e,
    (ba_span_name (attribute_bottleneck surge (of_Z 1)), start, end_) ∈ SPAN_DEFINITIONS ∧
    earliest surge start s ∧ earliest surge end_ e ∧
    ba_duration_ms (attribute_bottleneck surge (of_Z 1)) = fsub (te_timestamp_ms e) (te_timestamp_ms s).
Proof.
  assert (no_nan surge) as Hn by (unfold no_nan, surge, events_for; repeat constructor).
  assert (ba_kind (attribute_bottleneck surge (of_Z 1)) = BottleneckKind.QUEUEING) as Hk
    by (vm_compute; reflexivity).
  split; [exact Hn|]. split; [exact Hk|]. revert Hn Hk. generalize surge. intros l Hn Hk.
  destruct (attribution_grounded l (of_Z 1) Hn) as [_ HG].
  destruct HG as (start & end_ & s & e & H1 & H2 & H3 & H4 & _); [rewrite Hk; discriminate|].
  exists start, end_, s, e. exact (conj H1 (conj H2 (conj H3 H4))).
Defined.

Definition two_spans : list TraceEvent :=
  [mkTraceEvent "r" LifecycleStage.RECEIVED (of_Z 1) None;
   mkTraceEvent "r" LifecycleStage.TOKENIZED (lit 35 10) None;
   mkTraceEvent "r" LifecycleStage.QUEUED (of_Z 4) None;
   mkTraceEvent "r" LifecycleStage.SCHEDULED (of_Z 9) (Some [("kv_cache_pressure_ratio", SInt 1)])].

Lemma trace_order_free_witness :
  two_spans ≡ₚ reverse two_spans ∧
  ba_kind (attribute_bottleneck two_spans (of_Z 1)) = BottleneckKind.KV_PRESSURE ∧
  attribute_bottleneck two_spans (of_Z 1) = attribute_bottleneck (reverse two_spans) (of_Z 1).
Proof.
  assert (two_spans ≡ₚ reverse two_spans) as Hp by (symmetry; apply reverse_Permutation).
  assert (no_nan two_spans) as Hn by (unfold no_nan, two_spans; repeat constructor).
  assert (Forall (λ x, Forall (λ y, feq (te_timestamp_ms x) (te_timestamp_ms y) = true → x = y)
    two_spans) two_spans) as Hk.
  { unfold two_spans. repeat constructor; vm_compute; intros H; first [reflexivity|discriminate H]. }
  assert (ba_kind (attribute_bottleneck two_spans (of_Z 1)) = BottleneckKind.KV_PRESSURE) as HK
    by (vm_compute; reflexivity).
  split; [exact Hp|]. split; [exact HK|]. revert Hp Hn Hk.
  generalize (reverse two_spans). generalize two_spans. intros l l' Hp Hn Hk.
  apply (trace_order_free l l' (of_Z 1) Hn Hp).
  intros x y Hx Hy. rewrite Forall_forall in Hk. specialize (Hk x Hx).
  rewrite Forall_forall in Hk. exact (Hk y Hy).
Defined.
