(* ===== verification/LegacyTrace.v ===== *)
(** * legacy_trace.py: the historical nine-event records

    The reader of a parsed record and the writer of events.  A parsed JSON value is a
    [json]; the keys of an object are distinct, as [json.loads] makes them.  The line
    reader around [json.loads] is not modelled. *)

From Stdlib Require Import ZArith Lia Ascii String.
From stdpp Require Import base list strings sets sorting.
From S2P Require Import Prelude Binary64 JsonValue Trace.

(** [LifecycleStage(stage)] *)
Definition stage_of_value (s : string) : res LifecycleStage.stage :=
  match List.find (λ x, String.eqb (LifecycleStage.stage_value x) s) LifecycleStage.all_stages with
  | Some x => Ok x
  | None => Raise (ValueError ("'" +:+ s +:+ "' is not a valid LifecycleStage"))
  end.

(** [set(record) == {...}] *)
Definition fields_are {A} (d : list (string * A)) (keys : list string) : bool :=
  forallb (λ k, str_in k d.*1) keys && forallb (λ k, str_in k keys) d.*1.

Definition LEGACY_FIELDS := ["request_id"; "stage"; "timestamp_ms"; "metadata"].

(** The loop over the metadata *)
Fixpoint normalize_metadata (d : list (string * json)) : res (list (string * scalar)) :=
  match d with
  | [] => Ok []
  | (key, JScalar v) :: d =>
      ensure (match v with SFloat x => is_finite x | _ => true end)
        (ValueError "legacy metadata floats must be finite") ;;
      rest ← normalize_metadata d;
      Ok ((key, v) :: rest)
  | _ :: _ => Raise TypeError
  end.

(** [math.isfinite] and [float] of a number that is not a [bool] *)
Definition legacy_timestamp (v : json) : res float :=
  match v with
  | JScalar (SInt n) => float_of_int n
  | JScalar (SFloat x) => ensure (is_finite x) (ValueError "legacy timestamp_ms must be finite") ;; Ok x
  | _ => Raise TypeError
  end.

(** [record[key]] for a key that was checked *)
Definition field (key : string) (record : list (string * json)) : json :=
  default JNull (assoc key record).

Definition legacy_trace_event_from_json (record : list (string * json)) : res TraceEvent :=
  ensure (fields_are record LEGACY_FIELDS)
    (ValueError "legacy trace record has an unexpected field set") ;;
  match field "request_id" record, field "stage" record with
  | JScalar (SStr request_id), JScalar (SStr stage) =>
      timestamp_ms ← legacy_timestamp (field "timestamp_ms" record);
      match field "metadata" record with
      | JObject metadata =>
          normalized ← normalize_metadata metadata;
          s ← stage_of_value stage;
          Ok (mkTraceEvent request_id s timestamp_ms (Some normalized))
      | _ => Raise TypeError
      end
  | _, _ => Raise TypeError
  end.

Definition event_to_json (e : TraceEvent) : list (string * json) :=
  [("request_id", JScalar (SStr (te_request_id e)));
   ("stage", JScalar (SStr (LifecycleStage.stage_value (te_stage e))));
   ("timestamp_ms", JScalar (SFloat (te_timestamp_ms e)));
   ("metadata", JObject (prod_map id JScalar <$> default [] (te_metadata e)))].

Definition legacy_trace_events_to_json (events : list TraceEvent) : list (list (string * json)) :=
  map event_to_json events.

(** ** Round trip *)

(** What the format can hold: finite floats *)
Definition finite_event (e : TraceEvent) : Prop :=
  is_finite (te_timestamp_ms e) = true ∧
  Forall (λ kv : string * scalar, match kv.2 with SFloat x => is_finite x = true | _ => True end)
    (default [] (te_metadata e)).

(** The metadata that a reader returns is never [None]. *)
Definition with_metadata (e : TraceEvent) : TraceEvent :=
  mkTraceEvent (te_request_id e) (te_stage e) (te_timestamp_ms e) (Some (default [] (te_metadata e))).

Lemma stage_of_value_ok s : stage_of_value (LifecycleStage.stage_value s) = Ok s.
Proof. by destruct s. Qed.

Lemma stage_of_value_inv v s : stage_of_value v = Ok s → LifecycleStage.stage_value s = v.
Proof.
  unfold stage_of_value. destruct (List.find _ _) as [x|] eqn:E; [|done]. intros [= <-].
  apply List.find_some in E as [_ E]. by apply String.eqb_eq.
Qed.

Lemma normalize_metadata_ok d r :
  normalize_metadata d = Ok r ↔
  d = prod_map id JScalar <$> r ∧
  Forall (λ kv : string * scalar, match kv.2 with SFloat x => is_finite x = true | _ => True end) r.
Proof.
  revert r. induction d as [|[key v] d IH]; intros r.
  - split; [intros [= <-]; by split|]. intros [E _]. by destruct r.
  - split.
    + cbn [normalize_metadata]. destruct v as [|v| |]; try done. intros H.
      apply bind_ok in H as ([] & Hv & H). apply ensure_ok in Hv.
      apply bind_ok in H as (rest & Hr & H). injection H as <-. apply IH in Hr as [-> Hf].
      split; [done|]. constructor; [by destruct v|done].
    + intros [E Hf]. destruct r as [|[key' v'] r]; [done|]. cbn in E. injection E as -> -> ->.
      apply Forall_cons in Hf as [Hv Hf]. cbn [normalize_metadata].
      apply bind_ok. exists tt. split; [apply ensure_ok; by destruct v'|].
      apply bind_ok. exists r. split; [by apply IH|done].
Qed.

(** C24. Events survive the legacy format.  Writing events whose floats are finite and
    reading the records back gives the events again, with an empty object for metadata
    that was absent; and whatever record the reader accepts, it is the event's own but
    for the order of the fields and the number format of the timestamp: the names, the
    stage and the metadata are read as they are, and the timestamp is finite. *)
Theorem legacy_roundtrip :
  (∀ events, Forall finite_event events →
     res_mapM legacy_trace_event_from_json (legacy_trace_events_to_json events)
     = Ok (map with_metadata events)) ∧
  (∀ record e, legacy_trace_event_from_json record = Ok e →
     finite_event e ∧
     assoc "request_id" record = Some (JScalar (SStr (te_request_id e))) ∧
     assoc "stage" record = Some (JScalar (SStr (LifecycleStage.stage_value (te_stage e)))) ∧
     assoc "metadata" record = assoc "metadata" (event_to_json e) ∧
     legacy_timestamp (field "timestamp_ms" record) = Ok (te_timestamp_ms e)).
Proof.
  split.
  - intros events. induction 1 as [|e events [Ht Hm] _ IH]; [done|].
    cbn [legacy_trace_events_to_json map res_mapM].
    assert (legacy_trace_event_from_json (event_to_json e) = Ok (with_metadata e)) as He.
    { unfold legacy_trace_event_from_json, event_to_json, field. cbn -[normalize_metadata stage_of_value].
      rewrite Ht. cbn -[normalize_metadata stage_of_value].
      rewrite (proj2 (normalize_metadata_ok _ (default [] (te_metadata e)))) by done.
      cbn -[stage_of_value]. by rewrite stage_of_value_ok. }
    unfold legacy_trace_events_to_json in IH. by rewrite He; cbn; rewrite IH.
  - intros record e. unfold legacy_trace_event_from_json, field. intros H.
    apply bind_ok in H as ([] & _ & H).
    destruct (assoc "request_id" record) as [[|[| | |rq]| |]|] eqn:E1; try done. simpl in H.
    destruct (assoc "stage" record) as [[|[| | |st]| |]|] eqn:E2; try done. simpl in H.
    apply bind_ok in H as (ts & Hts & H).
    destruct (assoc "metadata" record) as [[| | |md]|] eqn:E3; try done. simpl in H.
    apply bind_ok in H as (nm & Hnm & H). apply normalize_metadata_ok in Hnm as [-> Hfin].
    apply bind_ok in H as (s & Hs & H). apply stage_of_value_inv in Hs as <-. injection H as <-.
    split_and!; try done. split; [|done]. simpl.
    destruct (default JNull (assoc "timestamp_ms" record)) as [|[| | |]| |]; try done; simpl in Hts.
    + destruct (is_finite x) eqn:Ex; [|done]. by injection Hts as <-.
    + unfold float_of_int in Hts. destruct (is_finite (of_Z n)) eqn:Ex; [|done]. by injection Hts as <-.
Qed.

Definition legacy_example : list TraceEvent :=
  [mkTraceEvent "r" LifecycleStage.QUEUED (lit 25 10) None;
   mkTraceEvent "r" LifecycleStage.SCHEDULED (of_Z 9)
     (Some [("kv_cache_pressure_ratio", SFloat (lit 97 100)); ("kv_pressure", SBool true)])].

Definition legacy_record : list (string * json) :=
  [("stage", JScalar (SStr "queued")); ("request_id", JScalar (SStr "r"));
   ("timestamp_ms", JScalar (SInt 3)); ("metadata", JObject [])].

Lemma legacy_roundtrip_witness :
  res_mapM legacy_trace_event_from_json (legacy_trace_events_to_json legacy_example)
  = Ok (map with_metadata legacy_example) ∧
  ∃ e, legacy_trace_event_from_json legacy_record = Ok e ∧ finite_event e.
Proof.
  destruct legacy_roundtrip as [Hw Hr]. split.
  - apply Hw. unfold legacy_example. repeat constructor.
  - assert (∃ e, legacy_trace_event_from_json legacy_record = Ok e) as [e He]
      by (eexists; vm_compute; reflexivity).
    exists e. exact (conj He (proj1 (Hr legacy_record e He))).
Defined.
