(* ===== verification/CausalAttribution.v ===== *)
(** * causal_attribution.py: interventions behind an attribution

    The offline evaluator keeps two things apart: the dominant span of a trace, and the
    evidence that an intervention caused it.  A fixture is modelled with the types of its
    schema: what the code reads with [get] may be absent, and a JSON value of another
    type is outside the model. *)

From Stdlib Require Import ZArith Lia Ascii String.
From stdpp Require Import base list strings sets sorting.
From S2P Require Import Prelude Binary64 JsonValue Trace.

Definition SPAN_NAMES := ["tokenization"; "queueing"; "prefill"; "decode"; "streaming"; "cleanup"].

Record intervention := mkIntervention {
  iv_target_span : option string;
  iv_intervention_id : option string;
  iv_assignment : option string;
  iv_only_intentional_change : option (list string) }.

Record fixture_case := mkCase {
  fc_case_id : string;
  fc_observed_durations_ms : durations;
  fc_intervention : option intervention;
  fc_control_durations_ms : option durations }.

Record fixture := mkFixture {
  fx_schema_version : option Z;
  fx_evidence_label : option string;
  fx_cases : option (list fixture_case) }.

(** [durations[name]] *)
Definition duration (name : string) (d : durations) : res float :=
  match assoc name d with Some x => Ok x | None => Raise (KeyError name) end.

Definition trace_event (request : string) (s : LifecycleStage.stage) (t : float) : TraceEvent :=
  mkTraceEvent request s t None.

Definition _events (request : string) (d : durations) : res (list TraceEvent) :=
  let missing := List.filter (λ n, negb (is_some_b (assoc n d))) SPAN_NAMES in
  ensure (bool_decide (missing = []))
    (ValueError ("missing fixture durations: " +:+ String.concat "," missing)) ;;
  ensure (negb (existsb (λ n, match assoc n d with Some x => flt x f0 | None => false end) SPAN_NAMES))
    (ValueError "fixture durations must be non-negative") ;;
  tokenization ← duration "tokenization" d;
  let t1 := fadd f0 tokenization in
  queueing ← duration "queueing" d;
  let t2 := fadd t1 queueing in
  prefill ← duration "prefill" d;
  let t3 := fadd t2 prefill in
  decode ← duration "decode" d;
  let t4 := fadd t3 decode in
  streaming ← duration "streaming" d;
  let t5 := fadd t4 streaming in
  cleanup ← duration "cleanup" d;
  let t6 := fadd t5 cleanup in
  Ok [trace_event request LifecycleStage.RECEIVED f0; trace_event request LifecycleStage.TOKENIZED t1;
      trace_event request LifecycleStage.QUEUED t1; trace_event request LifecycleStage.SCHEDULED t2;
      trace_event request LifecycleStage.PREFILL_DONE t3; trace_event request LifecycleStage.FIRST_TOKEN t3;
      trace_event request LifecycleStage.DECODE_DONE t4; trace_event request LifecycleStage.STREAM_DONE t5;
      trace_event request LifecycleStage.CLEANUP_DONE t6].

Definition _span_durations (events : list TraceEvent) : durations :=
  map (λ s, (sp_name s, sp_duration_ms s)) (compute_spans events).

(** The dict [causal_evidence] of a row *)
Inductive causal_evidence :=
| LocalizationOnly
| Tested (supported : bool) (target_span : string) (span_deltas_ms : durations)
    (linkage_complete non_target_spans_unchanged target_effect_above_threshold : bool).

Definition ce_supported (c : causal_evidence) : bool :=
  match c with LocalizationOnly => false | Tested b _ _ _ _ _ => b end.

Definition ce_status (c : causal_evidence) : string :=
  match c with
  | LocalizationOnly => "localization_only"
  | Tested true _ _ _ _ _ => "intervention_supported_offline_fixture"
  | Tested false _ _ _ _ _ => "intervention_not_supported"
  end.

Record fixture_row := mkRow {
  fr_case_id : string;
  fr_dominant_span_localization : BottleneckAttribution;
  fr_causal_evidence : causal_evidence }.

Record fixture_report := mkReport {
  rp_evidence_label : string;
  rp_case_count : Z;
  rp_intervention_supported_case_count : Z;
  rp_rows : list fixture_row }.

(** [{name: observed_spans[name] - control_spans[name] for name in SPAN_NAMES}] *)
Definition span_deltas (observed control : durations) : res durations :=
  res_mapM (λ name, x ← duration name observed; y ← duration name control; Ok (name, fsub x y)) SPAN_NAMES.

Definition linkage_complete (i : intervention) (target : string) : bool :=
  negb (String.eqb (default "" (iv_intervention_id i)) "")
  && bool_decide (iv_assignment i = Some "deterministic")
  && bool_decide (iv_only_intentional_change i = Some [target])
  && str_in target SPAN_NAMES.

Definition non_target_unchanged (target : string) (tolerance : float) (deltas : durations) : bool :=
  forallb (λ kv, String.eqb kv.1 target || fle (fabs kv.2) tolerance) deltas.

Definition test_intervention (case_id : string) (i : intervention) (control : durations)
    (observed_events : list TraceEvent) (min_effect_ms unchanged_tolerance_ms : float)
    : res causal_evidence :=
  control_events ← _events (case_id +:+ ":control") control;
  deltas ← span_deltas (_span_durations observed_events) (_span_durations control_events);
  let target := default "" (iv_target_span i) in
  let linked := linkage_complete i target in
  let unchanged := non_target_unchanged target unchanged_tolerance_ms deltas in
  let effect := fle min_effect_ms (duration_or target f0 deltas) in
  Ok (Tested (linked && unchanged && effect) target deltas linked unchanged effect).

Definition evaluate_case_row (min_effect_ms unchanged_tolerance_ms : float) (c : fixture_case)
    : res fixture_row :=
  observed_events ← _events (fc_case_id c +:+ ":observed") (fc_observed_durations_ms c);
  let localization := attribute_bottleneck observed_events (of_Z 1) in
  causal ←
    match fc_intervention c, fc_control_durations_ms c with
    | Some i, Some control =>
        test_intervention (fc_case_id c) i control observed_events min_effect_ms
          unchanged_tolerance_ms
    | _, _ => Ok LocalizationOnly
    end;
  Ok (mkRow (fc_case_id c) localization causal).

Definition evaluate_intervention_fixture (f : fixture) (min_effect_ms unchanged_tolerance_ms : float)
    : res fixture_report :=
  ensure (bool_decide (fx_schema_version f = Some 1)) (ValueError "schema_version must equal 1") ;;
  match fx_evidence_label f with
  | Some label =>
      ensure (str_in label ["simulation/model"; "replay"; "derived-artifact"])
        (ValueError "offline fixture must use an offline evidence label") ;;
      let cases := default [] (fx_cases f) in
      ensure (negb (bool_decide (length cases = 0%nat)))
        (ValueError "fixture requires at least one case") ;;
      rows ← res_mapM (evaluate_case_row min_effect_ms unchanged_tolerance_ms) cases;
      Ok (mkReport label (Z.of_nat (length rows))
        (Z.of_nat (length (List.filter (λ r, ce_supported (fr_causal_evidence r)) rows))) rows)
  | None => Raise (ValueError "offline fixture must use an offline evidence label")
  end.

(** ** What support means *)

(** The delta of a span between the two traces *)
Definition has_delta (observed control : durations) (name : string) (d : float) : Prop :=
  ∃ x y, assoc name observed = Some x ∧ assoc name control = Some y ∧ d = fsub x y.

Lemma span_duration_ok name d x : duration name d = Ok x ↔ assoc name d = Some x.
Proof. unfold duration. destruct (assoc name d); naive_solver. Qed.

Lemma span_deltas_ok observed control deltas :
  span_deltas observed control = Ok deltas →
  Forall2 (λ name kv, kv.1 = name ∧ has_delta observed control name kv.2) SPAN_NAMES deltas.
Proof.
  unfold span_deltas. revert deltas. induction SPAN_NAMES as [|name names IH]; intros deltas; cbn [res_mapM].
  - intros [= <-]. constructor.
  - intros H. apply bind_ok in H as (kv & Hkv & H).
    apply bind_ok in Hkv as (x & Hx & Hkv). apply bind_ok in Hkv as (y & Hy & Hkv). injection Hkv as <-.
    apply bind_ok in H as (rest & Hrest & H). injection H as <-.
    constructor; [|by apply IH]. split; [done|]. exists x, y. by rewrite <- !span_duration_ok.
Qed.

Lemma assoc_delta observed control names deltas name :
  Forall2 (λ name kv, kv.1 = name ∧ has_delta observed control name kv.2) names deltas →
  name ∈ names → ∃ d, assoc name deltas = Some d ∧ has_delta observed control name d.
Proof.
  induction 1 as [|n [k d] names deltas [Hk Hd] _ IH]; [by intros ?%elem_of_nil|].
  simpl in *. subst k. intros Hin. destruct (String.eqb_spec n name) as [->|Hne]; [by exists d|].
  apply IH. by apply elem_of_cons in Hin as [->|Hin].
Qed.

Lemma non_target_unchanged_spec observed control names deltas target tolerance :
  Forall2 (λ name kv, kv.1 = name ∧ has_delta observed control name kv.2) names deltas →
  non_target_unchanged target tolerance deltas = true ↔
  ∀ name, name ∈ names → name ≠ target →
    ∃ d, has_delta observed control name d ∧ fle (fabs d) tolerance = true.
Proof.
  unfold non_target_unchanged. induction 1 as [|n [k d] names deltas [Hk Hd] _ IH]; simpl in *.
  { split; [|done]. by intros _ name ?%elem_of_nil. }
  subst k. rewrite andb_true_iff, IH, orb_true_iff, String.eqb_eq. split.
  - intros [Hh Ht] name [->|Hin]%elem_of_cons Hne; [|by apply Ht]. destruct Hh as [Hh|Hh]; [done|].
    by exists d.
  - intros Hall. split; [|intros name Hin; apply Hall; by right].
    destruct (decide (n = target)) as [Hn|Hn]; [by left|right].
    destruct (Hall n ltac:(by left) Hn) as (d' & (x & y & Hx & Hy & ->) & Hle).
    destruct Hd as (x' & y' & Hx' & Hy' & ->). congruence.
Qed.

(** The intervention is declared, deterministic and changes only its target. *)
Definition declared (i : intervention) (target : string) : Prop :=
  (∃ id, iv_intervention_id i = Some id ∧ id ≠ "") ∧ iv_assignment i = Some "deterministic" ∧
  iv_only_intentional_change i = Some [target] ∧ target ∈ SPAN_NAMES.

Lemma linkage_complete_spec i target : linkage_complete i target = true ↔ declared i target.
Proof.
  unfold linkage_complete, declared.
  rewrite !andb_true_iff, negb_true_iff, String.eqb_neq, !bool_decide_eq_true, str_in_spec.
  destruct (iv_intervention_id i) as [id|]; simpl; [|naive_solver]. split; [|naive_solver].
  intros [[[Hid Ha] Hc] Ht]. by split_and!; [exists id|..].
Qed.

(** What the code calls support, on the spans of the two traces: the target is slower by
    the threshold at least, and no other span differs by more than the tolerance. *)
Definition supports (min_effect_ms tolerance : float) (c : fixture_case) : Prop :=
  ∃ i control observed_events control_events,
    fc_intervention c = Some i ∧ fc_control_durations_ms c = Some control ∧
    _events (fc_case_id c +:+ ":observed") (fc_observed_durations_ms c) = Ok observed_events ∧
    _events (fc_case_id c +:+ ":control") control = Ok control_events ∧
    let target := default "" (iv_target_span i) in
    let delta := has_delta (_span_durations observed_events) (_span_durations control_events) in
    declared i target ∧
    (∀ name, name ∈ SPAN_NAMES → name ≠ target → ∃ d, delta name d ∧ fle (fabs d) tolerance = true) ∧
    ∃ d, delta target d ∧ fle min_effect_ms d = true.

Lemma has_delta_fun observed control name d d' :
  has_delta observed control name d → has_delta observed control name d' → d = d'.
Proof. intros (x & y & Hx & Hy & ->) (x' & y' & Hx' & Hy' & ->). congruence. Qed.

Lemma test_intervention_ok case_id i control observed_events me tol ce control_events :
  _events (case_id +:+ ":control") control = Ok control_events →
  test_intervention case_id i control observed_events me tol = Ok ce →
  let target := default "" (iv_target_span i) in
  let delta := has_delta (_span_durations observed_events) (_span_durations control_events) in
  ce_supported ce = true ↔ declared i target ∧
    (∀ name, name ∈ SPAN_NAMES → name ≠ target → ∃ d, delta name d ∧ fle (fabs d) tol = true) ∧
    ∃ d, delta target d ∧ fle me d = true.
Proof.
  intros Hc H target delta. unfold test_intervention in H. rewrite Hc in H. cbn [mbind] in H.
  apply bind_ok in H as (? & [= <-] & H). apply bind_ok in H as (deltas & Hd & H). injection H as <-.
  apply span_deltas_ok in Hd. cbn [ce_supported]. fold target.
  pose proof (non_target_unchanged_spec _ _ _ _ target tol Hd) as Hn.
  pose proof (linkage_complete_spec i target) as Hl. rewrite !andb_true_iff.
  assert (declared i target → fle me (duration_or target f0 deltas) = true ↔
    ∃ d, delta target d ∧ fle me d = true) as Ht; [|naive_solver].
  intros (_ & _ & _ & Hin). destruct (assoc_delta _ _ _ _ _ Hd Hin) as (d & Ha & Hdd).
  unfold duration_or. rewrite Ha. simpl. split; [by exists d|].
  intros (d' & Hd' & Hle). by rewrite (has_delta_fun _ _ _ _ _ Hdd Hd').
Qed.

(** C25. Support needs a matched control.  When the evaluator returns a report, it has a
    row for every case in order, and a row is supported exactly when its case declares a
    deterministic intervention on one span and a control, and the spans of the two traces
    differ on the target by the threshold and on no other span beyond the tolerance; a
    dominant span alone is never evidence of a cause.  The report counts the supported
    rows. *)
Theorem causal_support_iff f me tol rp :
  evaluate_intervention_fixture f me tol = Ok rp →
  Forall2 (λ c r, fr_case_id r = fc_case_id c ∧
      (ce_supported (fr_causal_evidence r) = true ↔ supports me tol c) ∧
      (fc_control_durations_ms c = None → ce_status (fr_causal_evidence r) = "localization_only"))
    (default [] (fx_cases f)) (rp_rows rp) ∧
  rp_intervention_supported_case_count rp =
    Z.of_nat (length (List.filter (λ r, ce_supported (fr_causal_evidence r)) (rp_rows rp))) ∧
  rp_case_count rp = Z.of_nat (length (default [] (fx_cases f))).
Proof.
  unfold evaluate_intervention_fixture. intros H. apply bind_ok in H as ([] & _ & H).
  destruct (fx_evidence_label f) as [label|]; [|done].
  apply bind_ok in H as ([] & _ & H). apply bind_ok in H as ([] & _ & H).
  apply bind_ok in H as (rows & Hrows & H). injection H as <-. simpl.
  apply res_mapM_ok in Hrows. split_and!; [|done|by rewrite (Forall2_length _ _ _ Hrows)].
  eapply Forall2_impl; [exact Hrows|]. intros c r Hr. unfold evaluate_case_row in Hr.
  apply bind_ok in Hr as (oe & Hoe & Hr). unfold supports.
  destruct (fc_intervention c) as [i|] eqn:Ei; [destruct (fc_control_durations_ms c) as [control|] eqn:Ec|].
  - apply bind_ok in Hr as (ce & Hce & Hr). injection Hr as <-. simpl. split_and!; [done| |done].
    pose proof Hce as Hce'. unfold test_intervention in Hce'. apply bind_ok in Hce' as (ev & Hev & _).
    rewrite (test_intervention_ok _ _ _ _ _ _ _ _ Hev Hce). split.
    + intros Hs. exists i, control, oe, ev. exact (conj eq_refl (conj eq_refl (conj Hoe (conj Hev Hs)))).
    + intros (i' & control' & oe' & ev' & [= <-] & [= <-] & Hoe' & Hev' & Hs).
      rewrite Hoe in Hoe'. rewrite Hev in Hev'. injection Hoe' as <-. injection Hev' as <-. exact Hs.
  - apply bind_ok in Hr as (ce & Hce & Hr). injection Hce as <-. injection Hr as <-. simpl.
    split_and!; [done| |done]. split; [done|]. intros (? & ? & ? & ? & _ & ? & _). done.
  - apply bind_ok in Hr as (ce & Hce & Hr). injection Hce as <-. injection Hr as <-. simpl.
    split_and!; [done| |done]. split; [done|]. intros (? & ? & ? & ? & ? & _). done.
Qed.

(** ** An example: a supported case, a long span without a control, a confounded case *)

Definition slow_queue : durations :=
  [("tokenization", of_Z 2); ("queueing", of_Z 40); ("prefill", of_Z 4); ("decode", of_Z 5);
   ("streaming", of_Z 2); ("cleanup", of_Z 1)].

Definition queue_intervention : intervention :=
  mkIntervention (Some "queueing") (Some "surge-1") (Some "deterministic") (Some ["queueing"]).

Definition example_fixture : fixture :=
  mkFixture (Some 1) (Some "replay")
    (Some [mkCase "supported" slow_queue (Some queue_intervention) (Some baseline);
           mkCase "no-control" slow_queue (Some queue_intervention) None;
           mkCase "confounded" (slowed "decode" 90) (Some queue_intervention) (Some baseline)]).

Lemma causal_support_iff_witness :
  ∃ rp, evaluate_intervention_fixture example_fixture (of_Z 5) (lit 1 1000000000) = Ok rp ∧
    map (λ r, ce_status (fr_causal_evidence r)) (rp_rows rp) =
      ["intervention_supported_offline_fixture"; "localization_only"; "intervention_not_supported"] ∧
    rp_intervention_supported_case_count rp = 1 ∧
    Forall2 (λ c r, fr_case_id r = fc_case_id c ∧
        (ce_supported (fr_causal_evidence r) = true ↔ supports (of_Z 5) (lit 1 1000000000) c) ∧
        (fc_control_durations_ms c = None → ce_status (fr_causal_evidence r) = "localization_only"))
      (default [] (fx_cases example_fixture)) (rp_rows rp).
Proof.
  assert (∃ rp, evaluate_intervention_fixture example_fixture (of_Z 5) (lit 1 1000000000) = Ok rp ∧
    map (λ r, ce_status (fr_causal_evidence r)) (rp_rows rp) =
      ["intervention_supported_offline_fixture"; "localization_only"; "intervention_not_supported"] ∧
    rp_intervention_supported_case_count rp = 1) as (rp & Hrp & Hs & Hc)
    by (eexists; vm_compute; repeat split; reflexivity).
  exists rp. split; [exact Hrp|]. split; [exact Hs|]. split; [exact Hc|].
  revert Hrp. generalize example_fixture. intros f Hrp.
  exact (proj1 (causal_support_iff f (of_Z 5) (lit 1 1000000000) rp Hrp)).
Defined.
