(* ===== verification/CaseRecords.v ===== *)
(** * blind_attribution.py: the objects of a case bundle

    A validated object of the bundle is returned as a record of its fields, in which
    [None] is a key that is absent; the scorer reads the same fields. *)

From Stdlib Require Import ZArith Lia Ascii String.
From stdpp Require Import base list strings.
From S2P Require Import Prelude Binary64 JsonValue.

(** The keys that name one lifecycle of one request *)
Record LifecycleIdentity := mkIdentity {
  id_trace_id : string;
  id_engine_lifecycle_id : string;
  id_recovery_epoch : Z;
  id_request_id : string }.

(** The batch and the step, which are optional *)
Record BatchStep := mkBatchStep {
  bs_batch_id : option string;
  bs_step_id : option string }.

Record NormalizedEvent := mkNormalizedEvent {
  ne_event_id : string;
  ne_identity : LifecycleIdentity;
  ne_scope : string;
  ne_component : string;
  ne_event_name : string;
  ne_timestamp_ns : Z;
  ne_clock_domain : string;
  ne_evidence_source : string;
  ne_support_state : string;
  ne_batch_step : BatchStep }.

Record LifecycleSpan := mkLifecycleSpan {
  ls_span_id : string;
  ls_start_event_id : string;
  ls_end_event_id : string;
  ls_candidate_id : string;
  ls_identity : LifecycleIdentity;
  ls_owner : string;
  ls_clock_domain : string;
  ls_evidence_source : string;
  ls_support_state : string;
  ls_start_ns : Z;
  ls_end_ns : Z;
  ls_accounted_duration_ms : number;
  ls_batch_step : BatchStep }.

Record LifecycleEdge := mkLifecycleEdge {
  le_source_span_id : string;
  le_target_span_id : string;
  le_kind : string }.

(** [tl_json] is the object of the link and [tl_texts] its optional keys that are text. *)
Record TraceLoomLink := mkTraceLoomLink {
  tl_json : jdict;
  tl_span_id : string;
  tl_link_kind : string;
  tl_identity : LifecycleIdentity;
  tl_owner : string;
  tl_clock_domain : string;
  tl_support_state : string;
  tl_texts : list (string * string);
  tl_occurrence_idx : option Z }.

Record EvidenceStatus := mkEvidenceStatus {
  es_identity_complete : bool;
  es_event_loss_count : Z;
  es_clock_ambiguous : bool;
  es_configuration_matched : bool }.

Record Observation := mkObservation {
  ob_run_id : string;
  ob_configuration_id : string;
  ob_clock_model_id : string;
  ob_evidence_status : EvidenceStatus;
  ob_normalized_events : list NormalizedEvent;
  ob_lifecycle_spans : list LifecycleSpan;
  ob_lifecycle_edges : list LifecycleEdge;
  ob_traceloom_links : list TraceLoomLink }.

Record MatchedPair := mkMatchedPair {
  mp_pair_id : string;
  mp_order : string;
  mp_baseline : Observation;
  mp_treatment : Observation }.

(** [pair["baseline"]], then [pair["treatment"]] *)
Definition arms (p : MatchedPair) : list Observation := [mp_baseline p; mp_treatment p].

#[export] Instance LifecycleIdentity_eq_dec : EqDecision LifecycleIdentity.
Proof. solve_decision. Defined.

#[export] Instance BatchStep_eq_dec : EqDecision BatchStep.
Proof. solve_decision. Defined.

#[export] Instance LifecycleEdge_eq_dec : EqDecision LifecycleEdge.
Proof. solve_decision. Defined.

(** [link.get(key)] *)
Definition tl_get (key : string) (l : TraceLoomLink) : option string := assoc key (tl_texts l).
