(* ===== verification/SpanGraph.v ===== *)
(** * blind_attribution.py: the graph of the spans and the time they account for

    [_validate_acyclic_edges] is a depth-first search whose depth is the recursion limit
    of the interpreter; [_validate_overlap_accounting] merges the sorted intervals of a
    group.  The search is shown to decide that there is no cycle, and the merge to
    measure the union of the intervals. *)

From Stdlib Require Import ZArith Lia Ascii String.
From stdpp Require Import base numbers relations sorting strings gmap sets list.
From S2P Require Import Prelude Binary64 JsonValue CaseRecords.

(** ** Cycles *)

(** [visiting] and [visited] *)
Definition marks : Type := gset string * gset string.

(** [successors[x]]: the targets in the order of the edges *)
Definition successors (edges : list (string * string)) (x : string) : list string :=
  (filter (λ e, e.1 = x) edges).*2.

Definition cycle_error (where_ : string) : exn :=
  CaseValidationError (where_ +:+ ".lifecycle_edges contain a cycle").

Definition recursion_error : exn := RuntimeError "maximum recursion depth exceeded".

(** The inner function [visit], within a number of frames *)
Fixpoint visit (edges : list (string * string)) (where_ : string) (frames : nat) (x : string)
    (m : marks) : res marks :=
  match frames with
  | O => Raise recursion_error
  | S frames =>
      if bool_decide (x ∈ m.1) then Raise (cycle_error where_)
      else if bool_decide (x ∈ m.2) then Ok m
      else
        m ← res_foldM (visit edges where_ frames) (successors edges x) ({[x]} ∪ m.1, m.2);
        Ok (m.1 ∖ {[x]}, {[x]} ∪ m.2)
  end.

Definition _validate_acyclic_edges (frames : nat) (edges : list (string * string))
    (span_ids : list string) (where_ : string) : res unit :=
  _ ← res_foldM (visit edges where_ frames) span_ids (∅, ∅);
  Ok tt.

Section search.
Context (edges : list (string * string)) (where_ : string) (nodes : gset string).
Context (Hclosed : ∀ x y, (x, y) ∈ edges → x ∈ nodes ∧ y ∈ nodes) (depth : nat).

Definition step (x y : string) : Prop := (x, y) ∈ edges.

Lemma successors_spec x y : y ∈ successors edges x ↔ step x y.
Proof.
  unfold successors, step. rewrite list_elem_of_fmap. setoid_rewrite list_elem_of_filter.
  split; [by intros ([a b] & -> & [Ha ?]); simpl in *; subst|]. intros H. by exists (x, y).
Qed.

(** What is visited is closed and free of cycles, and disjoint from what is being visited. *)
Record search_inv (m : marks) : Prop := {
  si_disjoint : m.1 ## m.2;
  si_closed : ∀ x y, x ∈ m.2 → step x y → y ∈ m.2;
  si_acyclic : ∀ x, x ∈ m.2 → ¬ tc step x x;
  si_nodes : m.1 ⊆ nodes }.

Definition visited_all (l : list string) (m : marks) (r : res marks) : Prop :=
  match r with
  | Ok m' => m'.1 = m.1 ∧ m.2 ⊆ m'.2 ∧ (∀ y, y ∈ l → y ∈ m'.2) ∧ search_inv m'
  | Raise e => (e = cycle_error where_ ∧ ∃ z, tc step z z) ∨ (e = recursion_error ∧ (depth ≤ size nodes)%nat)
  end.

Lemma closed_tc (V : gset string) x y :
  (∀ x y, x ∈ V → step x y → y ∈ V) → x ∈ V → tc step x y → y ∈ V.
Proof. intros HV Hx Ht. induction Ht; eauto. Qed.

Lemma fold_visit frames l m :
  (∀ y m', y ∈ l → m'.1 = m.1 → search_inv m' →
     visited_all [y] m' (visit edges where_ frames y m')) →
  search_inv m → visited_all l m (res_foldM (visit edges where_ frames) l m).
Proof.
  revert m. induction l as [|y l IH]; intros m Hv Hm; cbn [res_foldM].
  { split_and!; [done..|by intros ? ?%elem_of_nil|done]. }
  pose proof (Hv y m ltac:(by left) eq_refl Hm) as Hy.
  destruct (visit _ _ _ y m) as [m1|e]; cbn [mbind res_bind]; [|done].
  destruct Hy as (E1 & Hs1 & Hy & Hm1).
  assert (visited_all l m1 (res_foldM (visit edges where_ frames) l m1)) as Hl.
  { apply IH; [|done]. intros z m' Hz Em Hm'. apply Hv; [by right|congruence|done]. }
  destruct (res_foldM _ _ _) as [m2|e]; [|done]. destruct Hl as (E2 & Hs2 & Hl & Hm2).
  split_and!; [congruence|set_solver| |done]. intros z [->|Hz]%elem_of_cons; [|by apply Hl].
  apply Hs2, Hy. by left.
Qed.

Lemma visit_spec frames x m :
  search_inv m → x ∈ nodes → (frames + size m.1 = depth)%nat →
  (∀ z, z ∈ m.1 → tc step z x) → visited_all [x] m (visit edges where_ frames x m).
Proof.
  revert x m. induction frames as [|frames IH]; intros x m Hm Hx Hsize Hpath; cbn [visit].
  { pose proof (subseteq_size _ _ (si_nodes _ Hm)). right. split; [done|]. simpl in Hsize. lia. }
  case_bool_decide as H1; [by left; split; [|exists x; apply Hpath]|].
  case_bool_decide as H2.
  { split_and!; [done..| |done]. by intros y ->%list_elem_of_singleton. }
  assert (search_inv ({[x]} ∪ m.1, m.2)) as Hin.
  { destruct Hm as [Hd Hc Ha Hn]. constructor; simpl; [set_solver|done..|set_solver]. }
  assert (visited_all (successors edges x) ({[x]} ∪ m.1, m.2)
    (res_foldM (visit edges where_ frames) (successors edges x) ({[x]} ∪ m.1, m.2))) as Hf.
  { apply fold_visit; [|done]. intros y m' Hy%successors_spec E Hm'. apply IH; [done| | |].
    - by apply (Hclosed x y).
    - rewrite E. simpl. rewrite size_union, size_singleton by set_solver. lia.
    - rewrite E. simpl. intros z [->%elem_of_singleton|Hz]%elem_of_union; [by apply tc_once|].
      eapply tc_r; [by apply Hpath|done]. }
  destruct (res_foldM _ _ _) as [m'|e]; cbn [mbind res_bind]; [|done].
  destruct Hf as (E & Hs & Hl & [Hd Hc Ha Hn]). simpl in *.
  assert (x ∉ m'.2) as Hxv by (rewrite E in Hd; set_solver).
  assert (∀ y, step x y → y ∈ m'.2) as Hsucc by (intros y Hy; by apply Hl, successors_spec).
  split_and!; simpl; [rewrite E; set_solver|set_solver|set_solver|].
  constructor; simpl.
  - rewrite E. rewrite E in Hd. set_solver.
  - intros y z [->%elem_of_singleton|Hy]%elem_of_union Hyz; apply elem_of_union; right; eauto.
  - intros y [->%elem_of_singleton|Hy]%elem_of_union Ht; [|by eapply Ha].
    apply Hxv. inversion Ht; subst; [by apply Hsucc|]. eapply closed_tc; [exact Hc| |done]. by apply Hsucc.
  - set_solver.
Qed.
End search.

Lemma validate_acyclic_spec frames edges span_ids where_ :
  (∀ x y, (x, y) ∈ edges → x ∈ span_ids ∧ y ∈ span_ids) →
  match _validate_acyclic_edges frames edges span_ids where_ with
  | Ok _ => ∀ x, ¬ tc (step edges) x x
  | Raise e =>
      (e = cycle_error where_ ∧ ∃ x, tc (step edges) x x) ∨
      (e = recursion_error ∧ (frames ≤ length span_ids)%nat)
  end.
Proof.
  intros Hcl. set (nodes := list_to_set span_ids : gset string).
  assert (∀ x y, (x, y) ∈ edges → x ∈ nodes ∧ y ∈ nodes) as Hcl'.
  { intros x y Hxy. unfold nodes. rewrite !elem_of_list_to_set. by apply Hcl. }
  assert (size nodes ≤ length span_ids)%nat as Hsize.
  { unfold nodes. clear. induction span_ids as [|x l IH]; [change (size (∅ : gset string) ≤ 0)%nat; by rewrite size_empty|]. cbn [list_to_set length].
    destruct (decide (x ∈@{gset string} list_to_set l)).
    - replace ({[x]} ∪ list_to_set l) with (list_to_set l : gset string) by set_solver. lia.
    - rewrite size_union, size_singleton by set_solver. lia. }
  assert (visited_all edges where_ nodes frames span_ids (∅, ∅)
    (res_foldM (visit edges where_ frames) span_ids (∅, ∅))) as Hv.
  { apply fold_visit; [done| |constructor; simpl; set_solver]. intros y m' Hy E Hm'.
    apply visit_spec; [done..| | |]; [by apply elem_of_list_to_set|rewrite E; cbn [fst]; rewrite size_empty; lia|rewrite E; set_solver]. }
  unfold _validate_acyclic_edges. destruct (res_foldM _ _ _) as [m|e]; cbn [mbind res_bind];
    [|destruct Hv as [?|[-> ?]]; [by left|right; split; [done|lia]]].
  destruct Hv as (_ & _ & Hl & [_ _ Ha _]). intros x Hx. apply (Ha x); [|done]. apply Hl.
  assert (∃ y, step edges x y) as [y Hy] by (inversion Hx; eauto). by apply (Hcl x y).
Qed.

(** With more frames than spans there is room for the longest path. *)
Lemma validate_acyclic_within frames edges span_ids where_ :
  (∀ x y, (x, y) ∈ edges → x ∈ span_ids ∧ y ∈ span_ids) → (length span_ids < frames)%nat →
  match _validate_acyclic_edges frames edges span_ids where_ with
  | Ok _ => ∀ x, ¬ tc (step edges) x x
  | Raise e => e = cycle_error where_ ∧ ∃ x, tc (step edges) x x
  end.
Proof.
  intros Hcl Hf. pose proof (validate_acyclic_spec frames edges span_ids where_ Hcl) as Hs.
  destruct (_validate_acyclic_edges _ _ _ _); [done|]. destruct Hs as [?|[_ ?]]; [done|lia].
Qed.

(** C28. The search decides acyclicity.  For edges between the given spans, and with more
    frames than there are spans, [_validate_acyclic_edges] returns exactly when no span
    reaches itself; otherwise it raises the error about the cycle, and never runs out of
    frames; the answer does not depend on the order of the spans or of the edges. *)
Theorem acyclic_edges_iff frames edges span_ids where_ :
  (∀ x y, (x, y) ∈ edges → x ∈ span_ids ∧ y ∈ span_ids) → (length span_ids < frames)%nat →
  (_validate_acyclic_edges frames edges span_ids where_ = Ok tt ↔ ∀ x, ¬ tc (step edges) x x) ∧
  (_validate_acyclic_edges frames edges span_ids where_ = Raise (cycle_error where_) ↔
     ∃ x, tc (step edges) x x) ∧
  ∀ edges' span_ids', edges ≡ₚ edges' → span_ids ≡ₚ span_ids' →
    _validate_acyclic_edges frames edges' span_ids' where_ =
    _validate_acyclic_edges frames edges span_ids where_.
Proof.
  intros Hcl Hf. pose proof (validate_acyclic_within _ _ _ where_ Hcl Hf) as Hs. split_and!.
  - destruct (_validate_acyclic_edges _ _ _ _) as [[]|e]; [by split|]. destruct Hs as [_ [x Hx]].
    split; [done|]. intros Ha. by destruct (Ha x).
  - destruct (_validate_acyclic_edges _ _ _ _) as [[]|e]; [|by destruct Hs as [-> ?]].
    split; [done|]. intros [x Hx]. by destruct (Hs x).
  - intros edges' span_ids' He Hi.
    assert (∀ x y, (x, y) ∈ edges' → x ∈ span_ids' ∧ y ∈ span_ids') as Hcl'.
    { intros x y Hxy. rewrite <- Hi. apply Hcl. by rewrite He. }
    pose proof (validate_acyclic_within frames edges' span_ids' where_ Hcl' ltac:(by rewrite <- Hi)) as Hs'.
    assert (∀ x, tc (step edges) x x ↔ tc (step edges') x x) as Ht.
    { assert (∀ l l' : list (string * string), l ≡ₚ l' → ∀ x y, tc (step l) x y → tc (step l') x y) as Hm.
      { intros l l' Hl x y. apply tc_congruence with (f := id). intros a b. unfold step. by rewrite Hl. }
      intros x. split; by apply Hm. }
    destruct (_validate_acyclic_edges _ edges' _ _) as [[]|e'], (_validate_acyclic_edges _ edges _ _) as [[]|e];
      [done|..|by destruct Hs as [-> _], Hs' as [-> _]].
    + destruct Hs as [_ [x Hx]]. by destruct (Hs' x (proj1 (Ht x) Hx)).
    + destruct Hs' as [_ [x Hx]]. by destruct (Hs x (proj2 (Ht x) Hx)).
Qed.

(** A chain of spans, longer than the frames: no cycle, and an error all the same *)
Definition chain_id (n : nat) : string := index_of "span" n.

Definition chain_ids (n : nat) : list string := map chain_id (seq 0 n).

Definition chain_edges (n : nat) : list (string * string) :=
  map (λ i, (chain_id i, chain_id (S i))) (seq 0 (Nat.pred n)).

Example long_chain_overflows :
  _validate_acyclic_edges 20 (chain_edges 19) (chain_ids 19) "observation" = Ok tt ∧
  _validate_acyclic_edges 20 (chain_edges 21) (chain_ids 21) "observation"
  = Raise (RuntimeError "maximum recursion depth exceeded").
Proof. split; vm_compute; reflexivity. Qed.

Definition diamond : list (string * string) := [("a", "b"); ("a", "c"); ("b", "d"); ("c", "d")].

Lemma acyclic_edges_iff_witness :
  (∀ x, ¬ tc (step diamond) x x) ∧ ∃ x, tc (step (("d", "a") :: diamond)) x x.
Proof.
  split.
  - apply (acyclic_edges_iff 5 diamond ["a"; "b"; "c"; "d"] "observation"); [|simpl; lia|vm_compute; reflexivity].
    intros x y H. unfold diamond in H. set_solver.
  - apply (acyclic_edges_iff 5 (("d", "a") :: diamond) ["a"; "b"; "c"; "d"] "observation");
      [|simpl; lia|vm_compute; reflexivity].
    intros x y H. unfold diamond in H. set_solver.
Defined.

(** ** Overlap *)

Definition interval_le (a b : Z * Z) : Prop := a.1 < b.1 ∨ (a.1 = b.1 ∧ a.2 ≤ b.2).

#[export] Instance interval_le_dec : RelDecision interval_le.
Proof. unfold interval_le. intros a b. apply _. Defined.

#[export] Instance interval_le_total : Total interval_le.
Proof. intros a b. unfold interval_le. lia. Qed.

#[export] Instance interval_le_trans : Transitive interval_le.
Proof. intros a b c. unfold interval_le. lia. Qed.

(** The loop over the sorted intervals after the first *)
Fixpoint union_loop (current_start current_end union_ns : Z) (l : list (Z * Z)) : Z :=
  match l with
  | [] => union_ns + (current_end - current_start)
  | (start, end_) :: l =>
      if start <=? current_end then union_loop current_start (Z.max current_end end_) union_ns l
      else union_loop start end_ (union_ns + (current_end - current_start)) l
  end.

(** [union_ns] of a group, from its intervals *)
Definition union_of (l : list (Z * Z)) : Z :=
  match merge_sort interval_le l with
  | [] => 0
  | (start, end_) :: l => union_loop start end_ 0 l
  end.

(** The nanoseconds that some interval holds *)
Definition ticks (i : Z * Z) : gset Z := list_to_set (seqZ i.1 (i.2 - i.1)).
Definition covered (l : list (Z * Z)) : gset Z := ⋃ (ticks <$> l).

Lemma elem_of_ticks t i : t ∈ ticks i ↔ i.1 ≤ t < i.2.
Proof. unfold ticks. rewrite elem_of_list_to_set, elem_of_seqZ. lia. Qed.

Lemma elem_of_covered t l : t ∈ covered l ↔ ∃ i, i ∈ l ∧ i.1 ≤ t < i.2.
Proof.
  unfold covered. rewrite elem_of_union_list. setoid_rewrite list_elem_of_fmap.
  setoid_rewrite <- elem_of_ticks. naive_solver.
Qed.

Lemma size_ticks i : i.1 ≤ i.2 → Z.of_nat (size (ticks i)) = i.2 - i.1.
Proof.
  intros Hi. unfold ticks. rewrite size_list_to_set by apply NoDup_seqZ. rewrite length_seqZ. lia.
Qed.

Lemma union_loop_spec cs ce u l :
  cs ≤ ce → Forall (λ i, cs ≤ i.1 ≤ i.2) l → StronglySorted interval_le l →
  union_loop cs ce u l = u + Z.of_nat (size (ticks (cs, ce) ∪ covered l)).
Proof.
  revert cs ce u. induction l as [|[s e] l IH]; intros cs ce u Hc Hf Hs; cbn [union_loop].
  { assert (ticks (cs, ce) ∪ covered [] = ticks (cs, ce)) as -> by (unfold covered; set_solver).
    rewrite size_ticks; simpl; lia. }
  apply Forall_cons in Hf as [Hse Hf]. apply StronglySorted_inv in Hs as [Hs Hle]. simpl in Hse.
  destruct (Z.leb_spec s ce).
  - rewrite IH; [|lia|done..]. do 3 f_equal. apply set_eq. intros t.
    rewrite !elem_of_union, elem_of_covered, elem_of_ticks, elem_of_covered, elem_of_ticks. simpl.
    setoid_rewrite elem_of_cons. split; [intros [?|(i & ? & ?)]|intros [?|(i & [->|?] & ?)]]; simpl in *.
    + destruct (decide (t < ce)); [left; lia|right; exists (s, e); simpl; split; [by left|lia]].
    + right. exists i. split; [by right|done].
    + left. lia.
    + left. lia.
    + right. by exists i.
  - rewrite IH; [|lia| |done].
    + assert (covered ((s, e) :: l) = ticks (s, e) ∪ covered l) as -> by (unfold covered; set_solver).
      assert (ticks (cs, ce) ## ticks (s, e) ∪ covered l) as Hd.
      { intros t. rewrite elem_of_union, !elem_of_ticks, elem_of_covered. simpl.
        intros Ht [Hit|(i & Hi & Hit)]; [lia|].
        pose proof (proj1 (Forall_forall _ _) Hle i Hi) as [|]; simpl in *; lia. }
      rewrite (size_union _ _ Hd), Nat2Z.inj_add, (size_ticks (cs, ce)) by done. cbn [fst snd]. lia.
    + rewrite Forall_forall in *. intros i Hi. specialize (Hf i Hi). specialize (Hle i Hi).
      unfold interval_le in Hle. simpl in Hle. lia.
Qed.

Lemma union_of_spec l : Forall (λ i, i.1 ≤ i.2) l → union_of l = Z.of_nat (size (covered l)).
Proof.
  intros Hf. unfold union_of.
  pose proof (merge_sort_Permutation interval_le l) as Hp.
  pose proof (StronglySorted_merge_sort interval_le l) as Hs.
  assert (covered l = covered (merge_sort interval_le l)) as ->.
  { apply set_eq. intros t. rewrite !elem_of_covered. by setoid_rewrite Hp. }
  assert (Forall (λ i, i.1 ≤ i.2) (merge_sort interval_le l)) as Hm by (by rewrite Hp). clear Hf.
  rename Hm into Hf. destruct (merge_sort interval_le l) as [|[s e] l']; [done|].
  apply Forall_cons in Hf as [Hse Hf]. apply StronglySorted_inv in Hs as [Hs Hle]. simpl in Hse.
  rewrite (union_loop_spec s e 0 l'); [|done| |done].
  - assert (covered ((s, e) :: l') = ticks (s, e) ∪ covered l') as -> by (unfold covered; set_solver). lia.
  - rewrite Forall_forall in *. intros i Hi. specialize (Hf i Hi). specialize (Hle i Hi).
    unfold interval_le in Hle. simpl in Hle. lia.
Qed.

(** The key of a group *)
Definition group_key (s : LifecycleSpan) : LifecycleIdentity * string :=
  (ls_identity s, ls_clock_domain s).

Abbreviation span_group := ((LifecycleIdentity * string) * list LifecycleSpan)%type.

(** [groups.setdefault(key, []).append(span)] *)
Fixpoint add_to_group (s : LifecycleSpan) (groups : list span_group) : list span_group :=
  match groups with
  | [] => [(group_key s, [s])]
  | (k, l) :: groups =>
      if bool_decide (k = group_key s) then (k, l ++ [s]) :: groups
      else (k, l) :: add_to_group s groups
  end.

Definition groups_of (spans : list LifecycleSpan) : list span_group :=
  foldl (λ groups s, add_to_group s groups) [] spans.

Definition interval_of (s : LifecycleSpan) : Z * Z := (ls_start_ns s, ls_end_ns s).

(** [sum(float(span["accounted_duration_ms"]) for span in group)] *)
Definition accounted_sum (group : list LifecycleSpan) : res float :=
  res_foldM (λ s acc, x ← num_to_float (ls_accounted_duration_ms s); Ok (fadd acc x)) group f0.

(** [1e-9] *)
Definition tolerance : float := lit 1 1000000000.

Definition check_group (where_ : string) (group : list LifecycleSpan) : res unit :=
  let union_ns := union_of (map interval_of group) in
  accounted_ms ← accounted_sum group;
  union_ms ← int_truediv union_ns 1000000;
  ensure (negb (flt (fadd union_ms tolerance) accounted_ms))
    (CaseValidationError (where_ +:+ ".lifecycle_spans double-charge overlapping evidence")).

Definition _validate_overlap_accounting (spans : list LifecycleSpan) (where_ : string) : res unit :=
  res_iter (check_group where_) (groups_of spans).*2.

Lemma add_to_group_keys s G k : k ∈ (add_to_group s G).*1 ↔ k = group_key s ∨ k ∈ G.*1.
Proof.
  induction G as [|[k' l] G IH]; cbn [add_to_group]; [set_solver|].
  case_bool_decide; rewrite !fmap_cons, !elem_of_cons, ?IH; naive_solver.
Qed.

Lemma add_to_group_NoDup s G : NoDup G.*1 → NoDup (add_to_group s G).*1.
Proof.
  induction G as [|[k l] G IH]; cbn [add_to_group]; intros Hn; [apply NoDup_singleton|].
  rewrite fmap_cons in Hn. apply NoDup_cons in Hn as [Hk Hn].
  case_bool_decide; rewrite fmap_cons; apply NoDup_cons; [done|].
  rewrite add_to_group_keys. split; [naive_solver|by apply IH].
Qed.

Lemma add_to_group_elem s G k l :
  NoDup G.*1 →
  (k, l) ∈ add_to_group s G ↔
  (group_key s ≠ k ∧ (k, l) ∈ G) ∨
  (group_key s = k ∧ ∃ l0, l = l0 ++ [s] ∧ ((k, l0) ∈ G ∨ (l0 = [] ∧ k ∉ G.*1))).
Proof.
  intros Hn. destruct (decide (group_key s = k)) as [<-|Hne].
  - trans (∃ l0, l = l0 ++ [s] ∧ ((group_key s, l0) ∈ G ∨ (l0 = [] ∧ group_key s ∉ G.*1)));
      [|split; [intros; by right|intros [[? _]|[_ ?]]; done]].
    induction G as [|[k' l'] G IH]; cbn [add_to_group].
    { rewrite list_elem_of_singleton. split; [intros [= ->]; exists []; split; [done|right; set_solver]|].
      intros (l0 & -> & [[]%elem_of_nil|[-> _]]). done. }
    rewrite fmap_cons in Hn |- *. apply NoDup_cons in Hn as [Hk' Hn]. specialize (IH Hn).
    case_bool_decide as E; rewrite elem_of_cons; setoid_rewrite elem_of_cons.
    + subst k'. assert (∀ l, (group_key s, l) ∉ G) as Hout.
      { intros l2 Hin. destruct Hk'. apply list_elem_of_fmap. by exists (group_key s, l2). }
      split; [intros [[= ->]|[]%Hout]; exists l'; split; [done|left; by left]|].
      intros (l0 & -> & [[[= ->]|[]%Hout]|[_ Hk]]); [by left|]. destruct Hk. by left.
    + rewrite IH. split.
      * intros [[= ? _]|(l0 & -> & Hl0)]; [done|]. exists l0. split; [done|].
        destruct Hl0 as [?|[-> Hk]]; [by left; right|]. right. split; [done|]. naive_solver.
      * intros (l0 & -> & [[[= ? _]|Hin]|[-> Hk]]); [done|right; exists l0; by eauto|].
        right. exists []. split; [done|]. right. split; [done|]. naive_solver.
  - trans ((k, l) ∈ G); [|split; [intros; by left|intros [[_ ?]|[? _]]; done]]. clear Hn.
    induction G as [|[k' l'] G IH]; cbn [add_to_group].
    + rewrite list_elem_of_singleton. split; [intros [= -> _]; done|by intros ?%elem_of_nil].
    + case_bool_decide as E; rewrite !elem_of_cons, ?IH; [|done]. naive_solver.
Qed.

(** The members of the groups are those of the key, in order. *)
Lemma groups_of_spec spans :
  NoDup (groups_of spans).*1 ∧
  ∀ k l, (k, l) ∈ groups_of spans ↔ l = filter (λ s, group_key s = k) spans ∧ l ≠ [].
Proof.
  unfold groups_of. induction spans as [|s spans [Hn IH]] using rev_ind.
  { split; [apply NoDup_nil_2|]. intros k l. simpl. split; [by intros ?%elem_of_nil|naive_solver]. }
  rewrite foldl_app. cbn [foldl]. split; [by apply add_to_group_NoDup|]. intros k l.
  rewrite add_to_group_elem by done. set (G := foldl _ [] spans) in *.
  rewrite filter_app, filter_cons, filter_nil. case_decide as E.
  - trans (∃ l0, l = l0 ++ [s] ∧ ((k, l0) ∈ G ∨ (l0 = [] ∧ k ∉ G.*1)));
      [split; [intros [[? _]|[_ ?]]; done|intros; by right]|]. split.
    + intros (l0 & -> & Hl0). split; [|by destruct l0]. f_equal.
      destruct Hl0 as [[-> _]%IH|[-> Hk]]; [done|].
      destruct (filter (λ s, group_key s = k) spans) as [|x l] eqn:Ef; [done|].
      destruct Hk. apply list_elem_of_fmap. exists (k, x :: l). split; [done|]. by apply IH.
    + intros [-> _]. eexists. split; [done|].
      destruct (filter (λ s, group_key s = k) spans) as [|x l] eqn:Ef; [right|left; apply IH; by rewrite Ef].
      split; [done|]. intros ([k' l] & -> & Hin)%list_elem_of_fmap. by apply IH in Hin as [-> ?].
  - rewrite app_nil_r, <- IH. split; [intros [[_ ?]|[? _]]; done|intros; by left].
Qed.

(** C29. No time is charged twice.  For spans that end no earlier than they start,
    [_validate_overlap_accounting] accepts them exactly when, for the spans of each
    request lifecycle and clock domain, the sum of the durations they account for is at
    most the time that the union of their intervals covers, in milliseconds and up to
    the tolerance: overlapping spans share what they overlap. *)
Theorem overlap_accounting_iff spans where_ :
  Forall (λ s, ls_start_ns s ≤ ls_end_ns s) spans →
  _validate_overlap_accounting spans where_ = Ok tt ↔
  ∀ s, s ∈ spans →
    let group := filter (λ s', group_key s' = group_key s) spans in
    ∃ accounted_ms covered_ms,
      accounted_sum group = Ok accounted_ms ∧
      int_truediv (Z.of_nat (size (covered (map interval_of group)))) 1000000 = Ok covered_ms ∧
      flt (fadd covered_ms tolerance) accounted_ms = false.
Proof.
  intros Hf. unfold _validate_overlap_accounting. rewrite res_iter_ok, Forall_forall.
  destruct (groups_of_spec spans) as [_ Hg].
  assert (∀ l, l ∈ (groups_of spans).*2 ↔
    ∃ s, s ∈ spans ∧ l = filter (λ s', group_key s' = group_key s) spans) as Hl.
  { intros l. rewrite list_elem_of_fmap. split.
    - intros ([k l'] & -> & [-> Hne]%Hg). simpl in *.
      destruct (filter (λ s, group_key s = k) spans) as [|s l] eqn:E; [done|].
      assert (s ∈ filter (λ s, group_key s = k) spans) as Hs by (rewrite E; by left).
      apply list_elem_of_filter in Hs as [Hk Hs]. exists s. split; [done|]. by rewrite Hk.
    - intros (s & Hs & ->). set (l := filter _ spans). exists (group_key s, l). split; [done|].
      apply Hg. split; [done|]. assert (s ∈ l) as Hin by by apply list_elem_of_filter.
      intros E. rewrite E in Hin. by apply elem_of_nil in Hin. }
  assert (∀ l, l ∈ (groups_of spans).*2 → check_group where_ l = Ok tt ↔
    ∃ accounted_ms covered_ms, accounted_sum l = Ok accounted_ms ∧
      int_truediv (Z.of_nat (size (covered (map interval_of l)))) 1000000 = Ok covered_ms ∧
      flt (fadd covered_ms tolerance) accounted_ms = false) as Hc.
  { intros l (s & Hs & ->)%Hl. unfold check_group. rewrite union_of_spec.
    - split.
      + intros (a & Ha & (c & Hc & Hle%ensure_ok%negb_true_iff)%bind_ok)%bind_ok. by exists a, c.
      + intros (a & c & Ha & Hc & Hle). apply bind_ok. exists a. split; [done|]. apply bind_ok.
        exists c. split; [done|]. apply ensure_ok. by rewrite Hle.
    - apply Forall_fmap, Forall_forall. intros s' [_ Hs']%list_elem_of_filter. simpl.
      by apply (proj1 (Forall_forall _ _) Hf). }
  split.
  - intros H s Hs. set (group := filter _ spans). assert (group ∈ (groups_of spans).*2) as Hin by (apply Hl; by exists s).
    apply (Hc group Hin), (H group Hin).
  - intros H l Hin. apply (Hc l Hin). apply Hl in Hin as (s & Hs & ->). by apply H.
Qed.

(** Two spans of one request that overlap by half, charged for what they cover *)
Definition example_span (id : string) (start end_ : Z) (ms : float) : LifecycleSpan :=
  mkLifecycleSpan id "e1" "e2" "queue" (mkIdentity "t" "l" 0 "r") "scheduler" "host" "fixture"
    "supported_exact" start end_ (NFloat ms) (mkBatchStep None None).

Definition overlapping (ms : Z) : list LifecycleSpan :=
  [example_span "a" 0 10000000 (of_Z 10); example_span "b" 5000000 15000000 (of_Z ms)].

Lemma overlap_accounting_iff_witness :
  (∀ s, s ∈ overlapping 5 →
    let group := filter (λ s', group_key s' = group_key s) (overlapping 5) in
    ∃ accounted_ms covered_ms,
      accounted_sum group = Ok accounted_ms ∧
      int_truediv (Z.of_nat (size (covered (map interval_of group)))) 1000000 = Ok covered_ms ∧
      flt (fadd covered_ms tolerance) accounted_ms = false) ∧
  _validate_overlap_accounting (overlapping 6) "observation" =
    Raise (CaseValidationError "observation.lifecycle_spans double-charge overlapping evidence").
Proof.
  split; [|vm_compute; reflexivity].
  assert (_validate_overlap_accounting (overlapping 5) "observation" = Ok tt) as H
    by (vm_compute; reflexivity).
  assert (Forall (λ s, ls_start_ns s ≤ ls_end_ns s) (overlapping 5)) as Hf
    by (repeat constructor; vm_compute; discriminate).
  revert H Hf. generalize (overlapping 5). intros spans H Hf.
  exact (proj1 (overlap_accounting_iff spans "observation" Hf) H).
Defined.
