(* ===== verification/CaseBundle.v ===== *)
(** * blind_attribution.py: the validator of a case bundle

    A bundle is the input of the blind attribution: matched pairs of observations, each
    with normalized events, lifecycle spans, edges and TraceLoom links.  One definition
    per validator of the module; where the source has one function of several loops,
    each loop is a definition.  The checks are in the order of the source, and the value
    that passes is returned as its record. *)

From Stdlib Require Import ZArith Lia Ascii String.
From stdpp Require Import base strings gmap sets list.
From S2P Require Import Prelude PyValue RuntimeProtocol Binary64 JsonValue CaseRecords SpanGraph.

Definition CASE_SCHEMA := "request-lifecycle-blind-case/v1".

Definition _TOP_LEVEL_KEYS := ["schema"; "case_id"; "pairs"].
Definition _PAIR_KEYS := ["pair_id"; "order"; "matching"; "baseline"; "treatment"].
Definition _MATCHING_KEYS :=
  ["workload_id"; "request_order_id"; "prompt_tokens"; "output_tokens"; "concurrency"; "batch_shape"].
Definition _OBSERVATION_KEYS :=
  ["run_id"; "configuration_id"; "clock_model_id"; "metrics"; "evidence_status";
   "normalized_events"; "lifecycle_spans"; "lifecycle_edges"; "traceloom_links"].
Definition _NORMALIZED_EVENT_KEYS :=
  ["event_id"; "trace_id"; "engine_lifecycle_id"; "recovery_epoch"; "request_id"; "scope";
   "component"; "event_name"; "timestamp_ns"; "clock_domain"; "evidence_source"; "support_state";
   "batch_id"; "step_id"].
Definition _METRIC_KEYS := ["ttft_ms"; "tpot_ms"; "latency_ms"; "throughput_rps"; "error_count"].
Definition _EVIDENCE_KEYS :=
  ["identity_complete"; "event_loss_count"; "clock_ambiguous"; "configuration_matched"].
Definition _SPAN_KEYS :=
  ["span_id"; "start_event_id"; "end_event_id"; "candidate_id"; "trace_id"; "engine_lifecycle_id";
   "recovery_epoch"; "request_id"; "owner"; "clock_domain"; "evidence_source"; "support_state";
   "start_ns"; "end_ns"; "accounted_duration_ms"; "batch_id"; "step_id"].
Definition _EDGE_KEYS := ["source_span_id"; "target_span_id"; "kind"].
Definition _LINK_KEYS :=
  ["span_id"; "trace_id"; "engine_lifecycle_id"; "recovery_epoch"; "request_id"; "batch_id";
   "step_id"; "tree_id"; "node_id"; "occurrence_idx"; "anchor_id"; "event_id";
   "runtime_relation_id"; "runtime_call_id"; "device_work_id"; "sync_action_id"; "graph_event_id";
   "graph_envelope_id"; "link_kind"; "owner"; "clock_domain"; "evidence_source"; "support_state";
   "reason"].
Definition _LINK_KINDS := ["request_handoff"; "batch_membership"; "execution_support"; "resource_owner"].
Definition _EDGE_KINDS :=
  ["request_handoff"; "batch_membership"; "execution_support"; "resource_owner"; "precedes"].
Definition _SUPPORTED_STATES := ["supported_exact"; "supported_deterministic"].
Definition _FORBIDDEN_KEYS :=
  ["oracle"; "ground_truth"; "fault_name"; "fault_manifest"; "injected_pressure";
   "intervention_assignment"; "salt"; "answer"].
Definition _FORBIDDEN_CASE_TOKENS := ["fault"; "oracle"; "token"; "queue"; "prefill"; "decode"].

(** The candidate that stands for abstention *)
Definition ABSTENTION := "insufficient_evidence_or_multi_cause".

(** ** Fields *)

Definition invalid {A} (msg : string) : res A := Raise (CaseValidationError msg).
Definition require (b : bool) (msg : string) : res unit := ensure b (CaseValidationError msg).

Definition bounded_string (limit : Z) (s : string) : bool :=
  (0 <? Z.of_nat (String.length s)) && (Z.of_nat (String.length s) <=? limit) && negb (has_nul s).

Definition _bounded_text (limit : Z) (v : json) : bool :=
  match v with JStr s => bounded_string limit s | _ => false end.

(** The number, when the value is a finite one; a very large integer raises. *)
Definition _finite_number (v : json) : res (option number) :=
  match v with
  | JInt n => _ ← float_of_int n; Ok (Some (NInt n))
  | JFloat x => Ok (if is_finite x then Some (NFloat x) else None)
  | _ => Ok None
  end.

(** The keys are those allowed, and none is missing but optional ones; the list of the
    keys in the message is left out. *)
Definition _exact_keys (value : jdict) (allowed : list string) (where_ : string)
    (optional : list string) : res unit :=
  require (forallb (λ k, str_in k allowed) value.*1) (where_ +:+ " contains unknown keys") ;;
  require (forallb (λ k, str_in k optional || str_in k value.*1) allowed)
    (where_ +:+ " is missing keys").

Fixpoint _reject_forbidden_keys (path : string) (v : json) : res unit :=
  match v with
  | JObject d =>
      (fix items (d : jdict) : res unit :=
        match d with
        | [] => Ok tt
        | (key, child) :: d =>
            require (negb (str_in (lower key) _FORBIDDEN_KEYS))
              (path +:+ "." +:+ key +:+ " is answer-bearing and forbidden") ;;
            _reject_forbidden_keys (path +:+ "." +:+ key) child ;;
            items d
        end) d
  | JList l =>
      (fix children (index : nat) (l : list json) : res unit :=
        match l with
        | [] => Ok tt
        | child :: l => _reject_forbidden_keys (index_of path index) child ;; children (S index) l
        end) 0%nat l
  | _ => Ok tt
  end.

Definition as_object (v : json) (msg : string) : res jdict :=
  match v with JObject d => Ok d | _ => invalid msg end.

Definition as_list (v : json) (msg : string) : res (list json) :=
  match v with JList l => Ok l | _ => invalid msg end.

Definition as_text (limit : Z) (v : json) (msg : string) : res string :=
  match v with
  | JStr s => require (bounded_string limit s) msg ;; Ok s
  | _ => invalid msg
  end.

Definition text_field (where_ : string) (limit : Z) (d : jdict) (key : string) : res string :=
  as_text limit (jget key d) (where_ +:+ "." +:+ key +:+ " must be bounded").

(** [if key in d and not _bounded_text(d[key])] *)
Definition opt_text_field (where_ : string) (limit : Z) (d : jdict) (key : string)
    : res (option string) :=
  match assoc key d with
  | None => Ok None
  | Some v => s ← as_text limit v (where_ +:+ "." +:+ key +:+ " must be bounded"); Ok (Some s)
  end.

Definition as_int (least : Z) (v : json) (msg : string) : res Z :=
  match v with
  | JInt n => require (least <=? n) msg ;; Ok n
  | _ => invalid msg
  end.

Definition count_field (where_ : string) (d : jdict) (key : string) : res Z :=
  as_int 0 (jget key d) (where_ +:+ "." +:+ key +:+ " must be non-negative integer").

Definition bool_field (where_ : string) (d : jdict) (key : string) : res bool :=
  match jget key d with
  | JBool b => Ok b
  | _ => invalid (where_ +:+ "." +:+ key +:+ " must be boolean")
  end.

(** A member of a set of texts *)
Definition member_of (v : json) (l : list string) (msg : string) : res string :=
  b ← json_in v l;
  match b, v with
  | true, JStr s => Ok s
  | _, _ => invalid msg
  end.

(** The loop that validates each item against those before it *)
Fixpoint collect {A} (f : string → list A → json → res A) (where_ : string) (acc : list A)
    (index : nat) (l : list json) : res (list A) :=
  match l with
  | [] => Ok acc
  | v :: l => a ← f (index_of where_ index) acc v; collect f where_ (acc ++ [a]) (S index) l
  end.

(** ** Events and spans *)

Definition read_batch_step (where_ : string) (d : jdict) : res BatchStep :=
  batch_id ← opt_text_field where_ 128 d "batch_id";
  step_id ← opt_text_field where_ 128 d "step_id";
  Ok (mkBatchStep batch_id step_id).

(** A bounded identifier that no earlier item has *)
Definition fresh_id (where_ key : string) (limit : Z) (d : jdict) (seen : list string) : res string :=
  let msg := where_ +:+ "." +:+ key +:+ " must be bounded and unique" in
  id ← as_text limit (jget key d) msg;
  require (negb (str_in id seen)) msg ;;
  Ok id.

Definition validate_event (where_ : string) (seen : list NormalizedEvent) (event : json)
    : res NormalizedEvent :=
  d ← as_object event (where_ +:+ " must be an object");
  _exact_keys d _NORMALIZED_EVENT_KEYS where_ ["batch_id"; "step_id"] ;;
  event_id ← fresh_id where_ "event_id" 96 d (map ne_event_id seen);
  trace_id ← text_field where_ 128 d "trace_id";
  engine_lifecycle_id ← text_field where_ 128 d "engine_lifecycle_id";
  request_id ← text_field where_ 128 d "request_id";
  clock_domain ← text_field where_ 128 d "clock_domain";
  evidence_source ← text_field where_ 128 d "evidence_source";
  support_state ← text_field where_ 128 d "support_state";
  batch_step ← read_batch_step where_ d;
  scope ← member_of (jget "scope" d) SCOPES (where_ +:+ ".scope is not a runtime scope");
  component ← member_of (jget "component" d) COMPONENTS (where_ +:+ ".component is not a runtime component");
  event_name ← member_of (jget "event_name" d) EVENT_NAMES (where_ +:+ ".event_name is not a runtime event");
  require (bool_decide (_COMPONENT_BY_SCOPE_EVENT !! (scope, event_name) = Some component))
    (where_ +:+ " has a component/event/scope ownership mismatch") ;;
  recovery_epoch ← count_field where_ d "recovery_epoch";
  timestamp_ns ← count_field where_ d "timestamp_ns";
  Ok (mkNormalizedEvent event_id
    (mkIdentity trace_id engine_lifecycle_id recovery_epoch request_id) scope component event_name
    timestamp_ns clock_domain evidence_source support_state batch_step).

(** [event_records.get(v)] *)
Definition event_record (events : list NormalizedEvent) (v : json) : res (option NormalizedEvent) :=
  match v with
  | JStr s => Ok (List.find (λ e, String.eqb (ne_event_id e) s) events)
  | JList _ | JObject _ => Raise TypeError
  | _ => Ok None
  end.

(** The identity fields of the span are those of a boundary event. *)
Definition is_boundary (e : NormalizedEvent) (i : LifecycleIdentity) (clock_domain : string)
    (bs : BatchStep) : bool :=
  bool_decide (ne_identity e = i) && String.eqb (ne_clock_domain e) clock_domain
  && bool_decide (ne_batch_step e = bs).

(** The two ends of a span *)
Definition read_interval (where_ : string) (d : jdict) : res (Z * Z) :=
  match plain_int (jget "start_ns" d), plain_int (jget "end_ns" d) with
  | Some start, Some end_ =>
      require (start <=? end_) (where_ +:+ " has invalid interval") ;; Ok (start, end_)
  | _, _ => invalid (where_ +:+ " has invalid interval")
  end.

Definition read_accounted (where_ : string) (d : jdict) (start end_ : Z) : res number :=
  let msg := where_ +:+ ".accounted_duration_ms exceeds its interval" in
  duration ← int_truediv (end_ - start) 1000000;
  accounted ← _finite_number (jget "accounted_duration_ms" d);
  match accounted with
  | Some n =>
      require (negb (num_lt n (NInt 0)) && negb (num_lt (NFloat (fadd duration tolerance)) n)) msg ;;
      Ok n
  | None => invalid msg
  end.

Definition validate_span (candidates : list string) (events : list NormalizedEvent)
    (where_ : string) (seen : list LifecycleSpan) (span : json) : res LifecycleSpan :=
  d ← as_object span (where_ +:+ " must be an object");
  _exact_keys d _SPAN_KEYS where_ ["batch_id"; "step_id"] ;;
  span_id ← fresh_id where_ "span_id" 96 d (map ls_span_id seen);
  start_event ← event_record events (jget "start_event_id" d);
  end_event ← event_record events (jget "end_event_id" d);
  match start_event, end_event with
  | Some start_event, Some end_event =>
      let msg := where_ +:+ ".candidate_id is not a measurable candidate" in
      candidate_id ← member_of (jget "candidate_id" d) candidates msg;
      require (negb (String.eqb candidate_id ABSTENTION)) msg ;;
      trace_id ← text_field where_ 128 d "trace_id";
      engine_lifecycle_id ← text_field where_ 128 d "engine_lifecycle_id";
      request_id ← text_field where_ 128 d "request_id";
      owner ← text_field where_ 128 d "owner";
      clock_domain ← text_field where_ 128 d "clock_domain";
      evidence_source ← text_field where_ 128 d "evidence_source";
      support_state ← text_field where_ 128 d "support_state";
      batch_step ← read_batch_step where_ d;
      recovery_epoch ← count_field where_ d "recovery_epoch";
      interval ← read_interval where_ d;
      let '(start, end_) := interval in
      accounted ← read_accounted where_ d start end_;
      let identity := mkIdentity trace_id engine_lifecycle_id recovery_epoch request_id in
      require (is_boundary start_event identity clock_domain batch_step
               && is_boundary end_event identity clock_domain batch_step)
        (where_ +:+ " identity does not match its boundary events") ;;
      require ((ne_timestamp_ns start_event =? start) && (ne_timestamp_ns end_event =? end_))
        (where_ +:+ " timestamps do not match its boundary events") ;;
      Ok (mkLifecycleSpan span_id (ne_event_id start_event) (ne_event_id end_event) candidate_id
        identity owner clock_domain evidence_source support_state start end_ accounted batch_step)
  | _, _ => invalid (where_ +:+ " references an unknown normalized event")
  end.

(** ** Edges *)

(** [span_by_id[id]] *)
Definition span_by_id (spans : list LifecycleSpan) (id : string) : option LifecycleSpan :=
  List.find (λ s, String.eqb (ls_span_id s) id) spans.

Definition validate_edge (spans : list LifecycleSpan) (where_ : string) (seen : list LifecycleEdge)
    (edge : json) : res LifecycleEdge :=
  d ← as_object edge (where_ +:+ " must be an object");
  _exact_keys d _EDGE_KEYS where_ [] ;;
  let unknown := where_ +:+ " references an unknown span" in
  source_id ← member_of (jget "source_span_id" d) (map ls_span_id spans) unknown;
  target_id ← member_of (jget "target_span_id" d) (map ls_span_id spans) unknown;
  kind ← member_of (jget "kind" d) _EDGE_KINDS (where_ +:+ ".kind is unsupported");
  let e := mkLifecycleEdge source_id target_id kind in
  require (negb (bool_decide (e ∈ seen))) (where_ +:+ " duplicates an existing edge") ;;
  match span_by_id spans source_id, span_by_id spans target_id with
  | Some source, Some target =>
      require (bool_decide (ls_identity source = ls_identity target))
        (where_ +:+ " crosses request/lifecycle identity") ;;
      require (negb (String.eqb kind "precedes" && (ls_start_ns target <? ls_end_ns source)))
        (where_ +:+ " violates temporal precedence") ;;
      Ok e
  | _, _ => Raise (KeyError source_id)
  end.

(** ** TraceLoom links *)

Definition LINK_TEXTS :=
  ["batch_id"; "step_id"; "tree_id"; "node_id"; "anchor_id"; "event_id"; "runtime_relation_id";
   "runtime_call_id"; "device_work_id"; "sync_action_id"; "graph_event_id"; "graph_envelope_id";
   "reason"].

(** The keys of a link that may be absent *)
Definition LINK_OPTIONAL := "occurrence_idx" :: LINK_TEXTS.

Definition trace_identity_keys :=
  ["tree_id"; "event_id"; "runtime_relation_id"; "runtime_call_id"; "device_work_id";
   "sync_action_id"; "graph_event_id"; "graph_envelope_id"].

Fixpoint read_texts (where_ : string) (d : jdict) (keys : list string)
    : res (list (string * string)) :=
  match keys with
  | [] => Ok []
  | key :: keys =>
      text ← opt_text_field where_ 256 d key;
      rest ← read_texts where_ d keys;
      Ok (match text with Some s => (key, s) :: rest | None => rest end)
  end.

Definition read_occurrence (where_ : string) (d : jdict) : res (option Z) :=
  match assoc "occurrence_idx" d with
  | None => Ok None
  | Some v =>
      n ← as_int 0 v (where_ +:+ ".occurrence_idx must be non-negative integer");
      Ok (Some n)
  end.

Definition has_key (l : TraceLoomLink) (key : string) : bool := is_some_b (tl_get key l).

(** The identity fields of the link are those of its span. *)
Definition of_span (l : TraceLoomLink) (s : LifecycleSpan) : bool :=
  bool_decide (tl_identity l = ls_identity s) && String.eqb (tl_owner l) (ls_owner s)
  && String.eqb (tl_clock_domain l) (ls_clock_domain s)
  && bool_decide (mkBatchStep (tl_get "batch_id" l) (tl_get "step_id" l) = ls_batch_step s).

(** [link_identity] *)
Definition link_identity (l : TraceLoomLink) : list (option string) * option Z :=
  (Some (tl_span_id l) :: Some (tl_link_kind l) ::
     map (λ key, tl_get key l)
       ["tree_id"; "node_id"; "anchor_id"; "event_id"; "runtime_relation_id"; "runtime_call_id";
        "device_work_id"; "sync_action_id"; "graph_event_id"; "graph_envelope_id"],
   tl_occurrence_idx l).

Definition is_device (clock_domain : string) : bool := contains "device" (lower clock_domain).

Definition is_supported (state : string) : bool := str_in state _SUPPORTED_STATES.

(** A device chain: tree, node, occurrence and anchor *)
Definition has_chain (l : TraceLoomLink) : bool :=
  has_key l "tree_id" && has_key l "node_id" && is_some_b (tl_occurrence_idx l) && has_key l "anchor_id".

(** What a link in a supported state must name *)
Definition check_supported_link (where_ : string) (l : TraceLoomLink) (s : LifecycleSpan) : res unit :=
  require (existsb (has_key l) trace_identity_keys)
    (where_ +:+ " lacks an applicable TraceLoom identity") ;;
  require (negb (is_device (ls_clock_domain s)) || has_chain l)
    (where_ +:+ " lacks the required device drill-down chain") ;;
  require (negb (is_device (ls_clock_domain s))
           || is_some_b (bs_batch_id (ls_batch_step s)) && is_some_b (bs_step_id (ls_batch_step s)))
    (where_ +:+ " device evidence lacks batch/step identity").

(** [span_by_id.get(v)] *)
Definition span_record (spans : list LifecycleSpan) (v : json) : res (option LifecycleSpan) :=
  match v with
  | JStr s => Ok (span_by_id spans s)
  | JList _ | JObject _ => Raise TypeError
  | _ => Ok None
  end.

Definition validate_link (spans : list LifecycleSpan) (where_ : string) (seen : list TraceLoomLink)
    (link : json) : res TraceLoomLink :=
  d ← as_object link (where_ +:+ " must be an object");
  _exact_keys d _LINK_KEYS where_ LINK_OPTIONAL ;;
  link_kind ← member_of (jget "link_kind" d) _LINK_KINDS (where_ +:+ ".link_kind is unsupported");
  require (match jget "evidence_source" d with JStr s => String.eqb s "traceloom_sqlite" | _ => false end)
    (where_ +:+ ".evidence_source must be traceloom_sqlite") ;;
  linked_span ← span_record spans (jget "span_id" d);
  match linked_span with
  | Some s =>
      trace_id ← text_field where_ 128 d "trace_id";
      engine_lifecycle_id ← text_field where_ 128 d "engine_lifecycle_id";
      request_id ← text_field where_ 128 d "request_id";
      owner ← text_field where_ 128 d "owner";
      clock_domain ← text_field where_ 128 d "clock_domain";
      support_state ← text_field where_ 128 d "support_state";
      recovery_epoch ← count_field where_ d "recovery_epoch";
      texts ← read_texts where_ d LINK_TEXTS;
      occurrence_idx ← read_occurrence where_ d;
      let l := mkTraceLoomLink d (ls_span_id s) link_kind
        (mkIdentity trace_id engine_lifecycle_id recovery_epoch request_id) owner clock_domain
        support_state texts occurrence_idx in
      require (of_span l s) (where_ +:+ " identity does not match its lifecycle span") ;;
      require (negb (bool_decide (link_identity l ∈ map link_identity seen)))
        (where_ +:+ " duplicates an existing link") ;;
      (if is_supported support_state then check_supported_link where_ l s
       else require (has_key l "reason") (where_ +:+ ".reason is required for residual evidence")) ;;
      Ok l
  | None => invalid (where_ +:+ " references an unknown span")
  end.

(** A device-backed span has a link in a supported state. *)
Definition check_device_span (where_ : string) (links : list TraceLoomLink) (s : LifecycleSpan)
    : res unit :=
  require (negb (is_device (ls_clock_domain s))
           || existsb (λ l, is_supported (tl_support_state l) && String.eqb (tl_span_id l) (ls_span_id s))
                links)
    (where_ +:+ " has a device-backed span without an explicit TraceLoom drill-down link").

(** ** Observations *)

(** A metric is a finite number and not negative. *)
Definition check_metric (where_ : string) (kv : string * json) : res unit :=
  metric ← _finite_number kv.2;
  require (match metric with Some n => negb (num_lt n (NInt 0)) | None => false end)
    (where_ +:+ ".metrics." +:+ kv.1 +:+ " must be non-negative").

Definition validate_metrics (where_ : string) (v : json) : res unit :=
  metrics ← as_object v (where_ +:+ ".metrics must be an object");
  _exact_keys metrics _METRIC_KEYS (where_ +:+ ".metrics") [] ;;
  res_iter (check_metric where_) metrics ;;
  require (is_some_b (plain_int (jget "error_count" metrics)))
    (where_ +:+ ".metrics.error_count must be an integer").

Definition validate_status (where_ : string) (v : json) : res EvidenceStatus :=
  status ← as_object v (where_ +:+ ".evidence_status must be an object");
  let where_ := where_ +:+ ".evidence_status" in
  _exact_keys status _EVIDENCE_KEYS where_ [] ;;
  identity_complete ← bool_field where_ status "identity_complete";
  clock_ambiguous ← bool_field where_ status "clock_ambiguous";
  configuration_matched ← bool_field where_ status "configuration_matched";
  loss ← count_field where_ status "event_loss_count";
  Ok (mkEvidenceStatus identity_complete loss clock_ambiguous configuration_matched).

Definition check_capacity (where_ name : string) (l : list json) : res unit :=
  require (Z.of_nat (length l) <=? DATA_CAPACITY_RECORDS)
    (where_ +:+ "." +:+ name +:+ " exceeds repository record capacity").

Definition edge_ends (e : LifecycleEdge) : string * string :=
  (le_source_span_id e, le_target_span_id e).

Definition is_nil {A} (l : list A) : bool := match l with [] => true | _ => false end.

(** [frames] is what the interpreter leaves to the search for a cycle. *)
Definition _validate_observation (frames : nat) (candidates run_ids : list string) (where_ : string)
    (value : json) : res Observation :=
  d ← as_object value (where_ +:+ " must be an object");
  _exact_keys d _OBSERVATION_KEYS where_ [] ;;
  run_id ← fresh_id where_ "run_id" 64 d run_ids;
  configuration_id ← text_field where_ 128 d "configuration_id";
  clock_model_id ← text_field where_ 128 d "clock_model_id";
  validate_metrics where_ (jget "metrics" d) ;;
  status ← validate_status where_ (jget "evidence_status" d);
  let lists := where_ +:+ " events, spans, edges, and links must be lists" in
  normalized_events ← as_list (jget "normalized_events" d) lists;
  spans ← as_list (jget "lifecycle_spans" d) lists;
  edges ← as_list (jget "lifecycle_edges" d) lists;
  links ← as_list (jget "traceloom_links" d) lists;
  require (negb (is_nil normalized_events || is_nil spans))
    (where_ +:+ " must contain normalized events and lifecycle spans") ;;
  check_capacity where_ "normalized_events" normalized_events ;;
  check_capacity where_ "lifecycle_spans" spans ;;
  check_capacity where_ "lifecycle_edges" edges ;;
  check_capacity where_ "traceloom_links" links ;;
  events ← collect validate_event (where_ +:+ ".normalized_events") [] 0 normalized_events;
  spans ← collect (validate_span candidates events) (where_ +:+ ".lifecycle_spans") [] 0 spans;
  edges ← collect (validate_edge spans) (where_ +:+ ".lifecycle_edges") [] 0 edges;
  _validate_acyclic_edges frames (map edge_ends edges) (map ls_span_id spans) where_ ;;
  _validate_overlap_accounting spans where_ ;;
  links ← collect (validate_link spans) (where_ +:+ ".traceloom_links") [] 0 links;
  res_iter (check_device_span where_ links) spans ;;
  Ok (mkObservation run_id configuration_id clock_model_id status events spans edges links).

(** ** Pairs and bundles *)

Definition _validate_matching (where_ : string) (value : json) : res unit :=
  d ← as_object value (where_ +:+ " must be an object");
  _exact_keys d _MATCHING_KEYS where_ [] ;;
  res_iter (λ key, _ ← text_field where_ 128 d key; Ok tt) ["workload_id"; "request_order_id"] ;;
  res_iter (λ key, _ ← as_int 1 (jget key d) (where_ +:+ "." +:+ key +:+ " must be a positive integer");
      Ok tt) ["prompt_tokens"; "output_tokens"; "concurrency"] ;;
  let msg := where_ +:+ ".batch_shape must contain 1-16 positive integers" in
  batch_shape ← as_list (jget "batch_shape" d) msg;
  require (negb (is_nil batch_shape) && (Z.of_nat (length batch_shape) <=? 16)
           && forallb (λ v, match plain_int v with Some n => 1 <=? n | None => false end) batch_shape)
    msg.

Definition ORDERS := ["AB"; "BA"].

Definition validate_pair (frames : nat) (candidates : list string) (where_ : string)
    (seen : list MatchedPair) (pair : json) : res MatchedPair :=
  d ← as_object pair (where_ +:+ " must be an object");
  _exact_keys d _PAIR_KEYS where_ [] ;;
  pair_id ← fresh_id where_ "pair_id" 64 d (map mp_pair_id seen);
  order ← member_of (jget "order" d) ORDERS (where_ +:+ ".order must be AB or BA");
  _validate_matching (where_ +:+ ".matching") (jget "matching" d) ;;
  let run_ids := concat (map (λ p, map ob_run_id (arms p)) seen) in
  baseline ← _validate_observation frames candidates run_ids (where_ +:+ ".baseline") (jget "baseline" d);
  treatment ← _validate_observation frames candidates (run_ids ++ [ob_run_id baseline])
    (where_ +:+ ".treatment") (jget "treatment" d);
  require (String.eqb (ob_configuration_id baseline) (ob_configuration_id treatment))
    (where_ +:+ " has unmatched configuration_id") ;;
  require (String.eqb (ob_clock_model_id baseline) (ob_clock_model_id treatment))
    (where_ +:+ " has unmatched clock_model_id") ;;
  Ok (mkMatchedPair pair_id order baseline treatment).

(** [[pair.get("order") for pair in pairs if isinstance(pair, Mapping)]] *)
Definition orders_of (pairs : list json) : list json :=
  omap (λ v, match v with JObject d => Some (jget "order" d) | _ => None end) pairs.

(** [any(left == right for left, right in pairwise(orders))] *)
Fixpoint repeats (l : list string) : bool :=
  match l with
  | x :: (y :: _) as l' => String.eqb x y || repeats l'
  | _ => false
  end.

Definition check_candidates (candidate_ids : list string) : res unit :=
  require (negb (is_nil candidate_ids) && forallb (bounded_string 128) candidate_ids)
    "candidate vocabulary is invalid" ;;
  require (bool_decide (NoDup candidate_ids)) "candidate vocabulary ids must be unique".

Definition validate_case_bundle (frames : nat) (bundle : jdict) (candidate_ids : list string)
    : res (string * list MatchedPair) :=
  check_candidates candidate_ids ;;
  _reject_forbidden_keys "bundle" (JObject bundle) ;;
  _exact_keys bundle _TOP_LEVEL_KEYS "bundle" [] ;;
  require (match jget "schema" bundle with JStr s => String.eqb s CASE_SCHEMA | _ => false end)
    ("schema must be " +:+ CASE_SCHEMA) ;;
  case_id ← as_text 64 (jget "case_id" bundle)
    "case_id must be a non-empty string of at most 64 characters";
  require (negb (existsb (λ token, contains token (lower case_id)) _FORBIDDEN_CASE_TOKENS))
    "case_id must be semantically neutral" ;;
  let count := "a pilot case must contain 5-4096 matched pairs" in
  pairs ← as_list (jget "pairs" bundle) count;
  require ((5 <=? Z.of_nat (length pairs)) && (Z.of_nat (length pairs) <=? DATA_CAPACITY_RECORDS)) count ;;
  let alternate := "matched pair order must alternate AB/BA" in
  orders ← res_mapM (λ v, member_of v ORDERS alternate) (orders_of pairs);
  require (negb (repeats orders)) alternate ;;
  matched ← collect (validate_pair frames candidate_ids) "pairs" [] 0 pairs;
  Ok (case_id, matched).
