(* ===== verification/TraceLoom.v ===== *)
(** * traceloom_adapter.py: explicit links resolved in a TraceLoom database

    The adapter resolves the links of a case to the rows of a TraceLoom database.  The
    SQLite engine and the database are not part of the repository: they are the class
    [Connection], which answers the text of a query and its parameters with rows, or
    fails.  No law is assumed of the answers; what a theorem says of a resolved link, it
    says of the answers that were given. *)

From Stdlib Require Import ZArith Lia Ascii String.
From stdpp Require Import base strings gmap sorting list.
From S2P Require Import Prelude PyValue Binary64 JsonValue.

Definition CORE_RELATIONS :=
  ["traceloom_event"; "traceloom_event_source"; "traceloom_anchor"; "traceloom_semantic_tree";
   "traceloom_semantic_node"; "traceloom_semantic_edge"; "traceloom_viz_node_anchor";
   "traceloom_tree_node_occurrence"].
Definition SUPPORT_RELATIONS :=
  ["traceloom_runtime_call"; "traceloom_device_work"; "traceloom_runtime_device_relation";
   "traceloom_v_sync_runtime_call"].
Definition OPTIONAL_GRAPH_RELATIONS := ["traceloom_cuda_graph_replay"; "traceloom_cuda_graph_envelope"].
Definition SUPPORTED_STATES := ["supported_exact"; "supported_deterministic"].
Definition MAX_LINKS : Z := 4096.

(** A row by its columns *)
Definition row : Type := jdict.

(** [execute] is [None] when SQLite raises; [other_str] is [str] of a float, a list or an
    object, none of which the database or a validated link holds. *)
Class Connection := {
  execute : string → list json → option (list row);
  other_str : json → string }.

Record lineage := mkLineage {
  lg_source_table : string;
  lg_source_key : string;
  lg_source_role : string }.

#[export] Instance lineage_eq_dec : EqDecision lineage.
Proof. solve_decision. Defined.

Record tree_occurrence := mkOccurrence {
  to_node_id : json;
  to_occurrence_idx : json;
  to_start_ns : json;
  to_end_ns : json;
  to_total_us : json;
  to_self_us : json }.

(** [{**link, "resolved": ..., "source_lineage": ..., "tree_occurrence": ...}] *)
Record resolved_link := mkResolved {
  rl_link : jdict;
  rl_resolved : bool;
  rl_source_lineage : list lineage;
  rl_tree_occurrence : option tree_occurrence }.

Definition adapter_error {A} (msg : string) : res A := Raise (TraceLoomAdapterError msg).

Definition supported_link (index : nat) (msg : string) : string :=
  "supported link " +:+ str_of_Z (Z.of_nat index) +:+ " " +:+ msg.

(** [link.get(key) is not None] *)
Definition present (link : jdict) (key : string) : bool :=
  match jget key link with JNull => false | _ => true end.

(** [state in SUPPORTED_STATES] *)
Definition in_states (v : json) : res bool := json_in v SUPPORTED_STATES.

Section adapter.
Context {conn : Connection}.

(** [str(v)] *)
Definition py_str (v : json) : string := text_of other_str v.

Definition _unique_row (query : string) (parameters : list json) (index : nat) (description : string)
    : res row :=
  match execute query parameters with
  | None => adapter_error (supported_link index ("cannot query " +:+ description))
  | Some [] => adapter_error (supported_link index ("references an unknown " +:+ description))
  | Some [r] => Ok r
  | Some _ => adapter_error (supported_link index ("references an ambiguous " +:+ description))
  end.

Definition _lineage_row (r : row) (role : json) : res lineage :=
  match assoc "source_table" r, assoc "source_key" r with
  | Some source_table, Some source_key =>
      match source_table, source_key, role with
      | JStr t, JStr k, JStr o =>
          ensure (negb (String.eqb t "" || String.eqb k "" || String.eqb o ""))
            (TraceLoomAdapterError "TraceLoom lineage identity is malformed") ;;
          Ok (mkLineage t k o)
      | _, _, _ => adapter_error "TraceLoom lineage identity is malformed"
      end
  | _, _ => adapter_error "TraceLoom lineage row lacks source identity"
  end.

Definition _resolve_source_row (relation identity_column identity : string) (index : nat) (role : string)
    : res lineage :=
  r ← _unique_row ("SELECT source_table, source_key FROM " +:+ relation +:+ " WHERE "
                   +:+ identity_column +:+ " = ?") [JStr identity] index role;
  _lineage_row r (JStr role).

(** [row["source_role"] or "event_source"] *)
Definition role_of (r : row) : json :=
  match jget "source_role" r with
  | JStr "" | JNull | JInt 0 | JBool false | JFloat (SpecFloat.S754_zero _) => JStr "event_source"
  | role => role
  end.

Definition _event_lineage (event_id : string) (index : nat) : res (list lineage) :=
  event ← _unique_row "SELECT source_table, source_key FROM traceloom_event WHERE event_id = ?"
            [JStr event_id] index "event";
  match execute ("SELECT source_table, source_key, source_role FROM traceloom_event_source "
                 +:+ "WHERE event_id = ? ORDER BY source_ordinal") [JStr event_id] with
  | None => adapter_error "cannot read TraceLoom database"
  | Some [] => l ← _lineage_row event (JStr "event"); Ok [l]
  | Some sources => res_mapM (λ r, _lineage_row r (role_of r)) sources
  end.

Fixpoint _deduplicate_lineage (seen rows : list lineage) : list lineage :=
  match rows with
  | [] => []
  | r :: rows =>
      if bool_decide (r ∈ seen) then _deduplicate_lineage seen rows
      else r :: _deduplicate_lineage (r :: seen) rows
  end.

Definition _resolve_tree_chain (link : jdict) (index : nat) : res (string * tree_occurrence) :=
  let tree_id := jget "tree_id" link in
  let node_id := jget "node_id" link in
  let occurrence_idx := jget "occurrence_idx" link in
  let anchor_id := jget "anchor_id" link in
  _ ← _unique_row "SELECT tree_id FROM traceloom_semantic_tree WHERE tree_id = ?" [tree_id] index "tree";
  node ← _unique_row "SELECT tree_id FROM traceloom_semantic_node WHERE node_id = ?" [node_id] index
           "tree node";
  ensure (json_eq (jget "tree_id" node) tree_id)
    (TraceLoomAdapterError (supported_link index "has inconsistent tree/node identity")) ;;
  o ← _unique_row ("SELECT node_id, occurrence_idx, start_ns, end_ns, total_us, self_us "
        +:+ "FROM traceloom_tree_node_occurrence WHERE node_id = ? AND occurrence_idx = ?")
        [node_id; occurrence_idx] index "tree occurrence";
  _ ← _unique_row ("SELECT node_id FROM traceloom_viz_node_anchor "
        +:+ "WHERE node_id = ? AND occurrence_idx = ? AND anchor_id = ?")
        [node_id; occurrence_idx; anchor_id] index "exact anchor membership";
  anchor ← _unique_row "SELECT event_id FROM traceloom_anchor WHERE anchor_id = ?" [anchor_id] index
             "anchor";
  Ok (py_str (jget "event_id" anchor),
      mkOccurrence (jget "node_id" o) (jget "occurrence_idx" o) (jget "start_ns" o) (jget "end_ns" o)
        (jget "total_us" o) (jget "self_us" o)).

(** The row of a device work, and the event it names *)
Definition resolve_device_work (device_work_id : json) (index : nat) : res (lineage * list string) :=
  r ← _unique_row ("SELECT event_id, source_table, source_key FROM traceloom_device_work "
        +:+ "WHERE device_work_id = ?") [device_work_id] index "device work";
  l ← _lineage_row r (JStr "device_work");
  Ok (l, if present r "event_id" then [py_str (jget "event_id" r)] else []).

Definition resolve_runtime_call (runtime_call_id : json) (index : nat) : res lineage :=
  _resolve_source_row "traceloom_runtime_call" "runtime_call_id" (py_str runtime_call_id) index
    "runtime_call".

Definition _resolve_runtime_relation (link : jdict) (index : nat)
    : res (list lineage * list string) :=
  relation ← _unique_row ("SELECT runtime_call_id, device_work_id, support_state FROM "
      +:+ "traceloom_runtime_device_relation WHERE relation_id = ?") [jget "runtime_relation_id" link]
      index "runtime/device relation";
  supported ← in_states (jget "support_state" relation);
  ensure supported (TraceLoomAdapterError
    (supported_link index "references an unsupported runtime/device relation")) ;;
  res_iter (λ key, ensure (negb (present link key) || json_eq (jget key link) (jget key relation))
      (TraceLoomAdapterError (supported_link index ("has inconsistent " +:+ key))))
    ["runtime_call_id"; "device_work_id"] ;;
  call ← (if present relation "runtime_call_id" then
            l ← resolve_runtime_call (jget "runtime_call_id" relation) index; Ok [l]
          else Ok []);
  work ← (if present relation "device_work_id" then
            w ← resolve_device_work (jget "device_work_id" relation) index; Ok ([w.1], w.2)
          else Ok ([], []));
  Ok (call ++ work.1, work.2).

Definition tree_keys := ["tree_id"; "node_id"; "occurrence_idx"; "anchor_id"].

(** The tree chain: all of its keys or none *)
Definition resolve_tree (link : jdict) (index : nat) : res (list string * option tree_occurrence) :=
  if existsb (present link) tree_keys then
    ensure (forallb (present link) tree_keys)
      (TraceLoomAdapterError (supported_link index "has a partial tree drill-down chain")) ;;
    chain ← _resolve_tree_chain link index;
    Ok ([chain.1], Some chain.2)
  else Ok ([], None).

(** The runtime relation, or the runtime call and the device work of their own *)
Definition resolve_runtime (link : jdict) (index : nat) : res (list lineage * list string) :=
  if present link "runtime_relation_id" then _resolve_runtime_relation link index
  else
    call ← (if present link "runtime_call_id" then
              l ← resolve_runtime_call (jget "runtime_call_id" link) index; Ok [l]
            else Ok []);
    work ← (if present link "device_work_id" then
              w ← resolve_device_work (jget "device_work_id" link) index; Ok ([w.1], w.2)
            else Ok ([], []));
    Ok (call ++ work.1, work.2).

Definition resolve_sync (link : jdict) (index : nat) : res (list lineage * list string) :=
  if present link "sync_action_id" then
    r ← _unique_row ("SELECT event_id, device_source_table AS source_table, "
          +:+ "device_source_key AS source_key FROM traceloom_v_sync_runtime_call "
          +:+ "WHERE sync_action_id = ? AND support_state IN "
          +:+ "('supported_exact', 'supported_deterministic')")
          [jget "sync_action_id" link] index "synchronization action";
    l ← _lineage_row r (JStr "synchronization");
    Ok ([l], if present r "event_id" then [py_str (jget "event_id" r)] else [])
  else Ok ([], []).

Definition resolve_graph (link : jdict) (index : nat) : res (list string) :=
  graph_event_row ← (if present link "graph_event_id" then
      r ← _unique_row "SELECT event_id FROM traceloom_cuda_graph_replay WHERE graph_event_id = ?"
            [jget "graph_event_id" link] index "graph replay";
      Ok [py_str (jget "event_id" r)]
    else Ok []);
  if present link "graph_envelope_id" then
    envelope ← _unique_row ("SELECT graph_event_id, child_event_id FROM traceloom_cuda_graph_envelope "
        +:+ "WHERE envelope_id = ?") [jget "graph_envelope_id" link] index "graph envelope";
    ensure (negb (present link "graph_event_id")
            || String.eqb (py_str (jget "graph_event_id" envelope)) (py_str (jget "graph_event_id" link)))
      (TraceLoomAdapterError (supported_link index "has inconsistent graph envelope identity")) ;;
    Ok [py_str (jget "child_event_id" envelope)]
  else Ok graph_event_row.

Definition _resolve_supported_link (link : jdict) (index : nat) : res resolved_link :=
  tree ← resolve_tree link index;
  let declared := if present link "event_id" then [py_str (jget "event_id" link)] else [] in
  runtime ← resolve_runtime link index;
  sync ← resolve_sync link index;
  graph ← resolve_graph link index;
  let resolved_ids : gset string :=
    list_to_set (tree.1 ++ declared ++ runtime.2 ++ sync.2 ++ graph) in
  let rows := runtime.1 ++ sync.1 in
  ensure (negb (bool_decide (resolved_ids = ∅) && bool_decide (rows = [])))
    (TraceLoomAdapterError (supported_link index "contains no applicable TraceLoom identity")) ;;
  ensure (forallb (λ id, bool_decide (resolved_ids = {[id]})) declared)
    (TraceLoomAdapterError (supported_link index "has inconsistent event identity")) ;;
  events ← res_mapM (λ id, _event_lineage id index) (merge_sort String.le (elements resolved_ids));
  Ok (mkResolved link true (_deduplicate_lineage [] (rows ++ concat events)) tree.2).

(** A link in another state is kept with its reason. *)
Definition residual_link (link : jdict) (index : nat) : res resolved_link :=
  let msg := "link " +:+ str_of_Z (Z.of_nat index) +:+ " needs a reason for residual evidence" in
  match jget "reason" link with
  | JStr reason =>
      ensure (negb (String.eqb reason "")) (TraceLoomAdapterError msg) ;;
      Ok (mkResolved link false [] None)
  | _ => adapter_error msg
  end.

(** The loop over the links *)
Fixpoint resolve_links (index : nat) (links : list jdict) : res (list resolved_link) :=
  match links with
  | [] => Ok []
  | link :: links =>
      supported ← in_states (jget "support_state" link);
      r ← match supported with
          | true => _resolve_supported_link link index
          | false => residual_link link index
          end;
      rest ← resolve_links (S index) links;
      Ok (r :: rest)
  end.

Definition resolve_explicit_links (links : list jdict) : res (list resolved_link) :=
  match links with
  | [] => Ok []
  | _ =>
      ensure (Z.of_nat (length links) <=? MAX_LINKS)
        (TraceLoomAdapterError "link count exceeds the repository record capacity") ;;
      resolve_links 0 links
  end.

(** The report of [inspect_traceloom_schema] *)
Record schema_report := mkReport {
  sr_core_complete : bool;
  sr_missing_core_relations : list string;
  sr_available_support_relations : list string;
  sr_missing_support_relations : list string;
  sr_available_optional_graph_relations : list string }.

Definition inspect_traceloom_schema : res schema_report :=
  match execute "SELECT name FROM sqlite_master WHERE type IN ('table', 'view')" [] with
  | None => adapter_error "cannot inspect TraceLoom database"
  | Some rows =>
      let available := map (λ r, py_str (jget "name" r)) rows in
      let kept (b : bool) relations :=
        merge_sort String.le (List.filter (λ n, Bool.eqb b (str_in n available)) relations) in
      Ok (mkReport (forallb (λ n, str_in n available) CORE_RELATIONS) (kept false CORE_RELATIONS)
        (kept true SUPPORT_RELATIONS) (kept false SUPPORT_RELATIONS) (kept true OPTIONAL_GRAPH_RELATIONS))
  end.

(** ** What a resolved link stands for *)

(** The row is the whole answer of the database to a query. *)
Definition sole_answer (r : row) (query : string) (parameters : list json) : Prop :=
  execute query parameters = Some [r].

Lemma unique_row_ok query ps index d r :
  _unique_row query ps index d = Ok r → sole_answer r query ps.
Proof. unfold _unique_row, sole_answer. by destruct (execute query ps) as [[|r' [|]]|]; try done; intros [= <-]. Qed.

(** A row of the lineage has a place in the database and a role. *)
Record lineage_ok (l : lineage) : Prop := {
  lin_named : lg_source_table l ≠ "" ∧ lg_source_key l ≠ "" ∧ lg_source_role l ≠ "";
  lin_answered : ∃ query ps rows r, execute query ps = Some rows ∧ r ∈ rows ∧
    assoc "source_table" r = Some (JStr (lg_source_table l)) ∧
    assoc "source_key" r = Some (JStr (lg_source_key l)) }.

(** The drill-down chain of a link, each step the only answer of its query *)
Record chain_ok (link : jdict) (event_id : string) (o : tree_occurrence) : Prop := {
  ch_node : ∃ node, sole_answer node "SELECT tree_id FROM traceloom_semantic_node WHERE node_id = ?"
      [jget "node_id" link] ∧ json_eq (jget "tree_id" node) (jget "tree_id" link) = true;
  ch_occurrence : ∃ r, sole_answer r
      ("SELECT node_id, occurrence_idx, start_ns, end_ns, total_us, self_us "
       +:+ "FROM traceloom_tree_node_occurrence WHERE node_id = ? AND occurrence_idx = ?")
      [jget "node_id" link; jget "occurrence_idx" link] ∧
    to_start_ns o = jget "start_ns" r ∧ to_end_ns o = jget "end_ns" r ∧ to_total_us o = jget "total_us" r;
  ch_anchor : ∃ r, sole_answer r "SELECT event_id FROM traceloom_anchor WHERE anchor_id = ?"
      [jget "anchor_id" link] ∧ event_id = py_str (jget "event_id" r);
  ch_member : ∃ r, sole_answer r
      ("SELECT node_id FROM traceloom_viz_node_anchor "
       +:+ "WHERE node_id = ? AND occurrence_idx = ? AND anchor_id = ?")
      [jget "node_id" link; jget "occurrence_idx" link; jget "anchor_id" link] }.

Lemma lineage_row_ok query ps rows r role l :
  execute query ps = Some rows → r ∈ rows → _lineage_row r role = Ok l → lineage_ok l.
Proof.
  intros He Hr H. unfold _lineage_row in H.
  destruct (assoc "source_table" r) as [t|] eqn:Et; [|done].
  destruct (assoc "source_key" r) as [k|] eqn:Ek; [|done].
  destruct t as [|[| | |t]| |]; try done. destruct k as [|[| | |k]| |]; try done.
  destruct role as [|[| | |o]| |]; try done.
  apply bind_ok in H as (? & Hn & H). injection H as <-. apply ensure_ok, negb_true_iff in Hn.
  apply orb_false_iff in Hn as [[Ht Hk]%orb_false_iff Ho].
  apply String.eqb_neq in Ht, Hk, Ho. constructor; [done|]. by exists query, ps, rows, r.
Qed.

Lemma sole_lineage_ok query ps index d r role l :
  _unique_row query ps index d = Ok r → _lineage_row r role = Ok l → lineage_ok l.
Proof. intros Hr%unique_row_ok. eapply lineage_row_ok; [exact Hr|by left]. Qed.

Lemma resolve_runtime_call_ok v index l : resolve_runtime_call v index = Ok l → lineage_ok l.
Proof.
  unfold resolve_runtime_call, _resolve_source_row. intros H. apply bind_ok in H as (r & Hr & H).
  by eapply sole_lineage_ok.
Qed.

Lemma resolve_device_work_ok v index w : resolve_device_work v index = Ok w → lineage_ok w.1.
Proof.
  unfold resolve_device_work. intros H. apply bind_ok in H as (r & Hr & H).
  apply bind_ok in H as (l & Hl & H). injection H as <-. by eapply sole_lineage_ok.
Qed.

(** The call and the work that a relation or a link names *)
Lemma call_and_work_ok (b b' : bool) v v' index rows :
  (call ← (if b then l ← resolve_runtime_call v index; Ok [l] else Ok []);
   work ← (if b' then w ← resolve_device_work v' index; Ok ([w.1], w.2) else Ok ([], []));
   Ok (call ++ work.1, work.2)) = Ok rows → Forall lineage_ok rows.1.
Proof.
  intros H. apply bind_ok in H as (call & Hc & H). apply bind_ok in H as (work & Hw & H).
  injection H as <-. apply Forall_app. split.
  - destruct b; [|by injection Hc as <-]. apply bind_ok in Hc as (l & Hl & Hc). injection Hc as <-.
    apply Forall_singleton. by eapply resolve_runtime_call_ok.
  - destruct b'; [|by injection Hw as <-]. apply bind_ok in Hw as (w & Hl & Hw). injection Hw as <-.
    apply Forall_singleton. by eapply resolve_device_work_ok.
Qed.

Lemma resolve_runtime_ok link index rows : resolve_runtime link index = Ok rows → Forall lineage_ok rows.1.
Proof.
  unfold resolve_runtime. destruct (present link "runtime_relation_id").
  - unfold _resolve_runtime_relation. intros H. apply bind_ok in H as (rel & _ & H).
    do 3 apply bind_ok in H as (? & _ & H). by eapply call_and_work_ok.
  - apply call_and_work_ok.
Qed.

Lemma resolve_sync_ok link index rows : resolve_sync link index = Ok rows → Forall lineage_ok rows.1.
Proof.
  unfold resolve_sync. destruct (present link "sync_action_id"); [|by intros [= <-]]. intros H.
  apply bind_ok in H as (r & Hr & H). apply bind_ok in H as (l & Hl & H). injection H as <-.
  apply Forall_singleton. by eapply sole_lineage_ok.
Qed.

Lemma event_lineage_ok id index rows :
  _event_lineage id index = Ok rows → rows ≠ [] ∧ Forall lineage_ok rows.
Proof.
  unfold _event_lineage. intros H. apply bind_ok in H as (event & He & H).
  destruct (execute _ _) as [[|r sources]|] eqn:E; [..|done].
  - apply bind_ok in H as (l & Hl & H). injection H as <-. split; [done|].
    apply Forall_singleton. by eapply sole_lineage_ok.
  - apply res_mapM_ok in H. split; [by inversion H|]. apply Forall_forall. intros l Hl.
    apply list_elem_of_lookup in Hl as [i Hi].
    destruct (Forall2_lookup_r _ _ _ _ _ H Hi) as (r' & Hr' & Hl'). eapply lineage_row_ok; [exact E| |exact Hl'].
    by eapply list_elem_of_lookup_2.
Qed.

Lemma resolve_tree_ok link index ids occ :
  resolve_tree link index = Ok (ids, occ) →
  if existsb (present link) tree_keys then
    ∃ event_id o, ids = [event_id] ∧ occ = Some o ∧ chain_ok link event_id o
  else occ = None.
Proof.
  unfold resolve_tree. destruct (existsb _ _); [|by intros [= <- <-]].
  intros H. apply bind_ok in H as (? & _ & H). apply bind_ok in H as ([event_id o] & Hc & H).
  injection H as <- <-. exists event_id, o. split_and!; [done..|]. unfold _resolve_tree_chain in Hc.
  apply bind_ok in Hc as (? & _ & Hc). apply bind_ok in Hc as (node & Hnode & Hc).
  apply bind_ok in Hc as (? & Heq & Hc). apply bind_ok in Hc as (occ & Hocc & Hc).
  apply bind_ok in Hc as (mem & Hmem & Hc). apply bind_ok in Hc as (anchor & Hanchor & Hc).
  injection Hc as <- <-. apply ensure_ok in Heq. apply unique_row_ok in Hnode, Hocc, Hmem, Hanchor.
  constructor; [by exists node|by exists occ|by exists anchor|by exists mem].
Qed.

Lemma dedup_spec seen rows :
  (∀ l, l ∈ _deduplicate_lineage seen rows ↔ l ∈ rows ∧ l ∉ seen) ∧
  NoDup (_deduplicate_lineage seen rows).
Proof.
  revert seen. induction rows as [|r rows IH]; intros seen; cbn [_deduplicate_lineage].
  { split; [set_solver|apply NoDup_nil_2]. }
  case_bool_decide as Hr.
  - destruct (IH seen) as [Hi Hn]. split; [|done]. intros l. rewrite Hi. set_solver.
  - destruct (IH (r :: seen)) as [Hi Hn]. split.
    + intros l. rewrite elem_of_cons, Hi. destruct (decide (l = r)); set_solver.
    + apply NoDup_cons. split; [|done]. rewrite Hi. set_solver.
Qed.

(** A supported link is resolved to the lineage of one event, when it declares one. *)
Record resolution_ok (link : jdict) (r : resolved_link) : Prop := {
  ro_lineage : rl_source_lineage r ≠ [] ∧ NoDup (rl_source_lineage r) ∧
    Forall lineage_ok (rl_source_lineage r);
  ro_chain : if existsb (present link) tree_keys then
      ∃ event_id o, rl_tree_occurrence r = Some o ∧ chain_ok link event_id o ∧
        (present link "event_id" = true → py_str (jget "event_id" link) = event_id)
    else rl_tree_occurrence r = None }.

Lemma resolve_supported_ok link index r :
  _resolve_supported_link link index = Ok r →
  rl_link r = link ∧ rl_resolved r = true ∧ resolution_ok link r.
Proof.
  unfold _resolve_supported_link. intros H. apply bind_ok in H as ([ids occ] & Ht & H).
  apply bind_ok in H as ([rows1 ids1] & Hr%resolve_runtime_ok & H).
  apply bind_ok in H as ([rows2 ids2] & Hs%resolve_sync_ok & H).
  apply bind_ok in H as (graph & _ & H). apply bind_ok in H as (? & Hne & H).
  apply bind_ok in H as (? & Hd & H). apply bind_ok in H as (events & He & H). injection H as <-.
  apply ensure_ok in Hne, Hd. apply negb_true_iff, andb_false_iff in Hne. simpl in Hr, Hs, Hne, Hd, He |- *.
  split; [done|]. split; [done|].
  set (declared := if present link "event_id" then _ else _) in *.
  set (resolved := list_to_set (ids ++ declared ++ ids1 ++ ids2 ++ graph) : gset string) in *.
  apply res_mapM_ok in He.
  destruct (dedup_spec [] ((rows1 ++ rows2) ++ concat events)) as [Hin Hnd].
  assert (Forall (λ rows, rows ≠ [] ∧ Forall lineage_ok rows) events) as Hev.
  { apply Forall_forall. intros rows Hrows. apply list_elem_of_lookup in Hrows as [i Hi].
    destruct (Forall2_lookup_r _ _ _ _ _ He Hi) as (id & _ & Hid). by eapply event_lineage_ok. }
  constructor; cbn [rl_source_lineage rl_tree_occurrence].
  - split_and!; [|done|].
    + assert (∃ l, l ∈ (rows1 ++ rows2) ++ concat events) as [l Hl].
      { destruct Hne as [Hres|Hrows].
        - apply bool_decide_eq_false in Hres. destruct events as [|rows events].
          + apply Forall2_nil_inv_r in He. pose proof (merge_sort_Permutation String.le (elements resolved)) as Hp.
            rewrite He in Hp. apply Permutation_nil, elements_empty_inv in Hp. set_solver.
          + apply Forall_cons in Hev as [[Hr0 _] _]. destruct rows as [|l rows]; [done|]. exists l.
            simpl. set_solver.
        - apply bool_decide_eq_false in Hrows. destruct (rows1 ++ rows2) as [|l rows]; [done|].
          exists l. set_solver. }
      assert (l ∈ _deduplicate_lineage [] ((rows1 ++ rows2) ++ concat events)) as Hl' by (apply Hin; set_solver).
      intros E. rewrite E in Hl'. by apply elem_of_nil in Hl'.
    + apply Forall_forall. intros l [Hl _]%Hin. revert l Hl. apply Forall_forall.
      rewrite !Forall_app, Forall_concat. split; [by split|]. eapply Forall_impl; [exact Hev|]. by intros ? [_ ?].
  - apply resolve_tree_ok in Ht. destruct (existsb (present link) tree_keys); [|done].
    destruct Ht as (event_id & o & -> & -> & Hc). exists event_id, o. split_and!; [done..|].
    intros Hp. unfold declared in Hd. rewrite Hp in Hd. simpl in Hd. apply andb_true_iff in Hd as [Hd _].
    apply bool_decide_eq_true in Hd. assert (event_id ∈ resolved) as Hmem by set_solver.
    rewrite Hd in Hmem. by apply elem_of_singleton in Hmem.
Qed.

(** C31. A link is resolved by the database or not at all.  When [resolve_explicit_links]
    returns, there is one result for each link, in order; a link in a supported state is
    resolved to a lineage that is not empty and has no duplicates, each of whose rows is
    an answer of the database with a place and a role; its tree chain, when it has one,
    is made of rows that are the only answer of their query and is of the event that the
    link declares; any other link is kept unresolved, with its reason. *)
Theorem explicit_links_resolved links rows :
  resolve_explicit_links links = Ok rows →
  Z.of_nat (length links) ≤ MAX_LINKS ∧
  Forall2 (λ link r, rl_link r = link ∧
    match in_states (jget "support_state" link) with
    | Ok true => rl_resolved r = true ∧ resolution_ok link r
    | _ => rl_resolved r = false ∧ rl_source_lineage r = [] ∧
        ∃ reason, jget "reason" link = JStr reason ∧ reason ≠ ""
    end) links rows.
Proof.
  intros H. assert (Z.of_nat (length links) ≤ MAX_LINKS ∧ resolve_links 0 links = Ok rows) as [Hn Hr].
  { unfold resolve_explicit_links in H. destruct links; [by injection H as <-|].
    apply bind_ok in H as (? & Hn%ensure_ok & H). split; [lia|done]. }
  split; [done|]. clear H Hn. revert rows Hr. generalize 0%nat.
  induction links as [|link links IH]; intros index rows H; cbn [resolve_links] in H.
  { injection H as <-. constructor. }
  apply bind_ok in H as (supported & Hs & H). apply bind_ok in H as (r & Hr & H).
  apply bind_ok in H as (rest & Hrest & H). injection H as <-. constructor; [|by eapply IH].
  rewrite Hs. destruct supported.
  - apply resolve_supported_ok in Hr as (? & ? & ?). done.
  - unfold residual_link in Hr. destruct (jget "reason" link) as [|[| | |reason]| |] eqn:E; try done.
    apply bind_ok in Hr as (? & Hne%ensure_ok & Hr). injection Hr as <-.
    apply negb_true_iff, String.eqb_neq in Hne. split_and!; [done..|]. by exists reason.
Qed.
End adapter.

(** ** An example: a device link with its chain, and a link without support *)

Definition answer : Type := (string * list json) * list row.

(** A database by its answers; other queries have none. *)
Definition table_connection (answers : list answer) : Connection := {|
  execute query parameters :=
    Some (match List.find (λ a, String.eqb a.1.1 query && json_eq (JList a.1.2) (JList parameters)) answers with
          | Some a => a.2
          | None => []
          end);
  other_str _ := "" |}.

Definition device_link : jdict :=
  [("span_id", JStr "s1"); ("support_state", JStr "supported_exact"); ("tree_id", JStr "T");
   ("node_id", JStr "N"); ("occurrence_idx", JInt 0); ("anchor_id", JStr "A"); ("event_id", JStr "E")].

Definition ambiguous_link : jdict :=
  [("span_id", JStr "s2"); ("support_state", JStr "ambiguous"); ("reason", JStr "two candidates")].

Definition example_database : Connection := table_connection
  [("SELECT tree_id FROM traceloom_semantic_tree WHERE tree_id = ?", [JStr "T"], [[("tree_id", JStr "T")]]);
   ("SELECT tree_id FROM traceloom_semantic_node WHERE node_id = ?", [JStr "N"], [[("tree_id", JStr "T")]]);
   ("SELECT node_id, occurrence_idx, start_ns, end_ns, total_us, self_us "
     +:+ "FROM traceloom_tree_node_occurrence WHERE node_id = ? AND occurrence_idx = ?", [JStr "N"; JInt 0],
    [[("node_id", JStr "N"); ("occurrence_idx", JInt 0); ("start_ns", JInt 0); ("end_ns", JInt 2000);
      ("total_us", JInt 2); ("self_us", JInt 1)]]);
   ("SELECT node_id FROM traceloom_viz_node_anchor "
     +:+ "WHERE node_id = ? AND occurrence_idx = ? AND anchor_id = ?", [JStr "N"; JInt 0; JStr "A"],
    [[("node_id", JStr "N")]]);
   ("SELECT event_id FROM traceloom_anchor WHERE anchor_id = ?", [JStr "A"], [[("event_id", JStr "E")]]);
   ("SELECT source_table, source_key FROM traceloom_event WHERE event_id = ?", [JStr "E"],
    [[("source_table", JStr "kernels"); ("source_key", JStr "7")]])].

Lemma explicit_links_resolved_witness :
  ∃ rows, resolve_explicit_links (conn:=example_database) [device_link; ambiguous_link] = Ok rows ∧
    map rl_source_lineage rows = [[mkLineage "kernels" "7" "event"]; []] ∧
    Forall2 (λ link r, rl_link r = link ∧
      match in_states (jget "support_state" link) with
      | Ok true => rl_resolved r = true ∧ resolution_ok (conn:=example_database) link r
      | _ => rl_resolved r = false ∧ rl_source_lineage r = [] ∧
          ∃ reason, jget "reason" link = JStr reason ∧ reason ≠ ""
      end) [device_link; ambiguous_link] rows.
Proof.
  assert (∃ rows, resolve_explicit_links (conn:=example_database) [device_link; ambiguous_link] = Ok rows ∧
    map rl_source_lineage rows = [[mkLineage "kernels" "7" "event"]; []]) as (rows & Hr & Hl)
    by (eexists; vm_compute; split; reflexivity).
  exists rows. split; [exact Hr|]. split; [exact Hl|]. clear Hl. revert Hr.
  generalize example_database [device_link; ambiguous_link]. intros db links Hr.
  exact (proj2 (explicit_links_resolved (conn:=db) links rows Hr)).
Defined.
