(* ===== verification/DevelopmentCase.v ===== *)
(** * The development case of the repository

    The bundle of data/fixtures/blind_attribution_development_case.json and the candidates
    of docs/blind_attribution_candidate_vocabulary.json, as parsed JSON.  The theorems on
    the blind attribution are applied to it. *)

From Stdlib Require Import ZArith Ascii String.
From stdpp Require Import base strings list.
From S2P Require Import Prelude Binary64 JsonValue.

Definition candidate_vocabulary : list string :=
  ["frontend_tokenization"; "queue_or_admission"; "scheduler_dispatch"; "worker_handoff";
   "kv_allocation_or_capacity"; "graph_or_batch_transition"; "device_prefill";
   "decode_execution"; "communication_or_synchronization"; "response_streaming";
   "cleanup_or_resource_release"; "insufficient_evidence_or_multi_cause"].

Definition milliseconds (n : Z) : json := JFloat (of_Z n).

Definition development_event (run name component : string) (i : string) (ns : Z) : json :=
  JObject [("event_id", JStr ("e-" +:+ run +:+ "-" +:+ i)); ("trace_id", JStr ("trace-" +:+ run));
    ("engine_lifecycle_id", JStr ("life-" +:+ run)); ("recovery_epoch", JInt 0);
    ("request_id", JStr ("req-" +:+ run)); ("scope", JStr "engine_sample");
    ("component", JStr component); ("event_name", JStr name); ("timestamp_ns", JInt ns);
    ("clock_domain", JStr "host-monotonic"); ("evidence_source", JStr "development_fixture");
    ("support_state", JStr "supported_exact")].

Definition development_span (run id candidate start_id end_id : string) (start end_ ms : Z) : json :=
  JObject [("span_id", JStr id); ("start_event_id", JStr ("e-" +:+ run +:+ "-" +:+ start_id));
    ("end_event_id", JStr ("e-" +:+ run +:+ "-" +:+ end_id)); ("candidate_id", JStr candidate);
    ("trace_id", JStr ("trace-" +:+ run)); ("engine_lifecycle_id", JStr ("life-" +:+ run));
    ("recovery_epoch", JInt 0); ("request_id", JStr ("req-" +:+ run)); ("owner", JStr "scheduler");
    ("clock_domain", JStr "host-monotonic"); ("evidence_source", JStr "development_fixture");
    ("support_state", JStr "supported_exact"); ("start_ns", JInt start); ("end_ns", JInt end_);
    ("accounted_duration_ms", milliseconds ms)].

(** One arm: a wait in the queue and a dispatch, in milliseconds *)
Definition development_arm (run : string) (queue dispatch ttft : Z) (rps : float) : json :=
  let queued := queue * 1000000 in
  let dispatched := (queue + dispatch) * 1000000 in
  JObject [("run_id", JStr ("run-" +:+ run)); ("configuration_id", JStr "dev-config-1");
    ("clock_model_id", JStr "dev-clock-model-1");
    ("metrics", JObject [("ttft_ms", milliseconds ttft); ("tpot_ms", milliseconds 10);
       ("latency_ms", milliseconds (ttft + 100)); ("throughput_rps", JFloat rps); ("error_count", JInt 0)]);
    ("evidence_status", JObject [("identity_complete", JBool true); ("event_loss_count", JInt 0);
       ("clock_ambiguous", JBool false); ("configuration_matched", JBool true)]);
    ("normalized_events", JList [development_event run "queued" "engine_client" "0" 0;
       development_event run "scheduled" "engine_core" "1" queued;
       development_event run "prefill_started" "engine_core" "2" dispatched]);
    ("lifecycle_spans",
       JList [development_span run ("s-" +:+ run) "queue_or_admission" "0" "1" 0 queued queue;
         development_span run ("s-" +:+ run +:+ "-dispatch") "scheduler_dispatch" "1" "2" queued
           dispatched dispatch]);
    ("lifecycle_edges", JList [JObject [("source_span_id", JStr ("s-" +:+ run));
       ("target_span_id", JStr ("s-" +:+ run +:+ "-dispatch")); ("kind", JStr "request_handoff")]]);
    ("traceloom_links", JList [])].

Definition development_pair (n order : string) (baseline treatment : json) : json :=
  JObject [("pair_id", JStr ("pair-" +:+ n)); ("order", JStr order);
    ("matching", JObject [("workload_id", JStr "dev-workload"); ("request_order_id", JStr ("order-" +:+ n));
       ("prompt_tokens", JInt 128); ("output_tokens", JInt 32); ("concurrency", JInt 1);
       ("batch_shape", JList [JInt 1])]);
    ("baseline", baseline); ("treatment", treatment)].

Definition development_case : jdict :=
  [("schema", JStr "request-lifecycle-blind-case/v1"); ("case_id", JStr "case-dev-001");
   ("pairs", JList [
      development_pair "01" "AB" (development_arm "01-a" 10 5 100 (of_Z 4))
        (development_arm "01-b" 30 7 120 (lit 38 10));
      development_pair "02" "BA" (development_arm "02-a" 10 5 101 (of_Z 4))
        (development_arm "02-b" 31 7 122 (lit 38 10));
      development_pair "03" "AB" (development_arm "03-a" 10 5 99 (lit 41 10))
        (development_arm "03-b" 29 7 118 (lit 39 10));
      development_pair "04" "BA" (development_arm "04-a" 10 5 100 (of_Z 4))
        (development_arm "04-b" 32 7 122 (lit 37 10));
      development_pair "05" "AB" (development_arm "05-a" 10 5 100 (of_Z 4))
        (development_arm "05-b" 30 7 120 (lit 38 10))])].
