(* ===== verification/CaseBundleProps.v ===== *)
(** * blind_attribution.py: what an accepted case bundle is

    The validator accepts a bundle only when the records it returns are well formed, and
    no answer-bearing key occurs in the bundle at any depth. *)

From Stdlib Require Import ZArith Lia Ascii String.
From stdpp Require Import base relations strings gmap sets list.
From S2P Require Import Prelude PyValue RuntimeProtocol Binary64 JsonValue CaseRecords SpanGraph CaseBundle.
From S2P Require Import DevelopmentCase.

(** ** Well-formed records *)

(** The event at one end of the span *)
Definition bounds_span (events : list NormalizedEvent) (s : LifecycleSpan) (id : string) (t : Z) : Prop :=
  ∃ e, e ∈ events ∧ ne_event_id e = id ∧ ne_timestamp_ns e = t ∧ ne_identity e = ls_identity s ∧
    ne_clock_domain e = ls_clock_domain s ∧ ne_batch_step e = ls_batch_step s.

Record span_ok (candidates : list string) (events : list NormalizedEvent) (s : LifecycleSpan) : Prop := {
  so_start : bounds_span events s (ls_start_event_id s) (ls_start_ns s);
  so_end : bounds_span events s (ls_end_event_id s) (ls_end_ns s);
  so_candidate : ls_candidate_id s ∈ candidates ∧ ls_candidate_id s ≠ ABSTENTION;
  so_interval : ls_start_ns s ≤ ls_end_ns s;
  so_accounted : num_lt (ls_accounted_duration_ms s) (NInt 0) = false ∧
    ∃ duration, int_truediv (ls_end_ns s - ls_start_ns s) 1000000 = Ok duration ∧
      num_lt (NFloat (fadd duration tolerance)) (ls_accounted_duration_ms s) = false }.

Record edge_ok (spans : list LifecycleSpan) (e : LifecycleEdge) : Prop := {
  eo_ends : ∃ s t, s ∈ spans ∧ t ∈ spans ∧ ls_span_id s = le_source_span_id e ∧
    ls_span_id t = le_target_span_id e ∧ ls_identity s = ls_identity t ∧
    (le_kind e = "precedes" → ls_end_ns s ≤ ls_start_ns t);
  eo_kind : le_kind e ∈ _EDGE_KINDS }.

Record link_ok (spans : list LifecycleSpan) (l : TraceLoomLink) : Prop := {
  lo_span : ∃ s, s ∈ spans ∧ ls_span_id s = tl_span_id l ∧ tl_identity l = ls_identity s ∧
    tl_owner l = ls_owner s ∧ tl_clock_domain l = ls_clock_domain s ∧
    (is_supported (tl_support_state l) = true → is_device (ls_clock_domain s) = true →
     has_chain l = true ∧ is_Some (bs_batch_id (ls_batch_step s)) ∧ is_Some (bs_step_id (ls_batch_step s)));
  lo_named : is_supported (tl_support_state l) = true →
    ∃ key, key ∈ trace_identity_keys ∧ has_key l key = true;
  lo_reason : is_supported (tl_support_state l) = false → has_key l "reason" = true }.

Record observation_ok (candidates : list string) (ob : Observation) : Prop := {
  oo_counts : (0 < length (ob_normalized_events ob))%nat ∧ (0 < length (ob_lifecycle_spans ob))%nat ∧
    Z.of_nat (length (ob_normalized_events ob)) ≤ DATA_CAPACITY_RECORDS ∧
    Z.of_nat (length (ob_lifecycle_spans ob)) ≤ DATA_CAPACITY_RECORDS ∧
    Z.of_nat (length (ob_lifecycle_edges ob)) ≤ DATA_CAPACITY_RECORDS ∧
    Z.of_nat (length (ob_traceloom_links ob)) ≤ DATA_CAPACITY_RECORDS;
  oo_event_ids : NoDup (map ne_event_id (ob_normalized_events ob));
  oo_owned : Forall (λ e, _COMPONENT_BY_SCOPE_EVENT !! (ne_scope e, ne_event_name e) = Some (ne_component e))
    (ob_normalized_events ob);
  oo_span_ids : NoDup (map ls_span_id (ob_lifecycle_spans ob));
  oo_spans : Forall (span_ok candidates (ob_normalized_events ob)) (ob_lifecycle_spans ob);
  oo_edges_unique : NoDup (ob_lifecycle_edges ob);
  oo_edges : Forall (edge_ok (ob_lifecycle_spans ob)) (ob_lifecycle_edges ob);
  oo_acyclic : ∀ id, ¬ tc (step (map edge_ends (ob_lifecycle_edges ob))) id id;
  oo_links_unique : NoDup (map link_identity (ob_traceloom_links ob));
  oo_links : Forall (link_ok (ob_lifecycle_spans ob)) (ob_traceloom_links ob);
  oo_device : ∀ s, s ∈ ob_lifecycle_spans ob → is_device (ls_clock_domain s) = true →
    ∃ l, l ∈ ob_traceloom_links ob ∧ tl_span_id l = ls_span_id s ∧
      is_supported (tl_support_state l) = true;
  oo_status : 0 ≤ es_event_loss_count (ob_evidence_status ob) }.

Record pair_ok (candidates : list string) (p : MatchedPair) : Prop := {
  po_arms : Forall (observation_ok candidates) (arms p);
  po_configuration : ob_configuration_id (mp_baseline p) = ob_configuration_id (mp_treatment p);
  po_clock : ob_clock_model_id (mp_baseline p) = ob_clock_model_id (mp_treatment p) }.

(** A key that occurs in a value, at any depth *)
Inductive key_inside (key : string) : json → Prop :=
| key_here d v : (key, v) ∈ d → key_inside key (JObject d)
| key_in_field d key' v : (key', v) ∈ d → key_inside key v → key_inside key (JObject d)
| key_in_item l v : v ∈ l → key_inside key v → key_inside key (JList l).

(** ** Inversion of the validators *)

Lemma require_ok b msg u : require b msg = Ok u ↔ b = true.
Proof. apply ensure_ok. Qed.

(** Take a validator that returned apart, step by step. *)
Ltac returned H :=
  repeat match type of H with
  | (_ ≫= _) = Ok _ => let x := fresh "x" in let Hx := fresh "Hx" in apply bind_ok in H as (x & Hx & H)
  | (let '(_, _) := ?x in _) = Ok _ => destruct x
  | match ?x with _ => _ end = Ok _ => let E := fresh "E" in destruct x eqn:E; try done
  | Ok _ = Ok _ => injection H as <-
  end.

Ltac required :=
  repeat match goal with
  | Hr : require _ _ = Ok _ |- _ => apply require_ok in Hr
  | Hr : _ && _ = true |- _ => apply andb_true_iff in Hr as [? ?]
  | Hr : negb _ = true |- _ => apply negb_true_iff in Hr
  | Hr : bool_decide _ = true |- _ => apply bool_decide_eq_true in Hr
  | Hr : bool_decide _ = false |- _ => apply bool_decide_eq_false in Hr
  | Hr : String.eqb _ _ = true |- _ => apply String.eqb_eq in Hr
  | Hr : String.eqb _ _ = false |- _ => apply String.eqb_neq in Hr
  end.

Lemma collect_ok {A} (f : string → list A → json → res A) where_ acc index l r :
  collect f where_ acc index l = Ok r →
  ∃ r', r = acc ++ r' ∧ length r' = length l ∧
    ∀ r1 a r2, r' = r1 ++ a :: r2 → ∃ w v, f w (acc ++ r1) v = Ok a.
Proof.
  revert acc index r. induction l as [|v l IH]; intros acc index r H; cbn [collect] in H.
  { injection H as <-. exists []. rewrite app_nil_r. split_and!; [done..|]. by intros [|] ? ?. }
  apply bind_ok in H as (a & Ha & H). apply IH in H as (r' & -> & Hlen & Hr).
  exists (a :: r'). rewrite <- app_assoc. split_and!; [done|simpl; lia|].
  intros [|b r1] a' r2 [= <- E].
  - rewrite app_nil_r. by eauto.
  - destruct (Hr r1 a' r2 E) as (w & v' & Hv). rewrite <- app_assoc in Hv. by eauto.
Qed.

(** What every item satisfies, and a key that no two share *)
Lemma collect_items {A B} (f : string → list A → json → res A) (P : A → Prop) (key : A → B) where_ l r :
  collect f where_ [] 0 l = Ok r →
  (∀ w seen v a, f w seen v = Ok a → P a ∧ key a ∉ map key seen) →
  length r = length l ∧ Forall P r ∧ NoDup (map key r).
Proof.
  intros H Hf. apply collect_ok in H as (r' & -> & Hlen & Hr). simpl in *. split; [done|].
  assert (∀ r1 a r2, r' = r1 ++ a :: r2 → P a ∧ key a ∉ map key r1) as Hp.
  { intros r1 a r2 E. destruct (Hr r1 a r2 E) as (w & v & Hv). by eapply Hf. }
  clear Hr Hlen. split.
  - apply Forall_forall. intros a (r1 & r2 & E)%list_elem_of_split. by eapply Hp.
  - induction r' as [|a r' IH] using rev_ind; [apply NoDup_nil_2|].
    rewrite map_app. apply NoDup_app. split_and!.
    + apply IH. intros r1 b r2 ->. eapply (Hp r1 b (r2 ++ [a])). by rewrite <- app_assoc.
    + intros k Hk ->%list_elem_of_singleton. by eapply (Hp r' a []).
    + apply NoDup_singleton.
Qed.

Lemma fresh_id_ok w key limit d seen id : fresh_id w key limit d seen = Ok id → id ∉ seen.
Proof. unfold fresh_id. intros H. returned H. required. by apply str_in_spec_false. Qed.

Lemma member_of_ok v l msg s : member_of v l msg = Ok s → s ∈ l.
Proof.
  unfold member_of. intros H. apply bind_ok in H as ([] & Hb & H); [|done].
  apply json_in_true in Hb as (s' & -> & Hs). by injection H as <-.
Qed.

Lemma count_field_ok w d key n : count_field w d key = Ok n → 0 ≤ n.
Proof. unfold count_field, as_int. intros H. returned H. required. lia. Qed.

Lemma find_spec {A} (p : A → bool) l a : List.find p l = Some a → a ∈ l ∧ p a = true.
Proof. intros [Hin Hp]%List.find_some. split; [by apply list_elem_of_In|done]. Qed.

Lemma event_record_ok events v e :
  event_record events v = Ok (Some e) → e ∈ events.
Proof. destruct v as [|[]| |]; try done. simpl. intros [= H]. by apply find_spec in H as [? _]. Qed.

Lemma span_by_id_ok spans id s : span_by_id spans id = Some s → s ∈ spans ∧ ls_span_id s = id.
Proof. intros [Hin Hid]%find_spec. split; [done|]. by apply String.eqb_eq. Qed.

Lemma is_boundary_ok e i clock bs :
  is_boundary e i clock bs = true → ne_identity e = i ∧ ne_clock_domain e = clock ∧ ne_batch_step e = bs.
Proof. unfold is_boundary. intros H. required. done. Qed.

Lemma read_interval_ok w d start end_ : read_interval w d = Ok (start, end_) → start ≤ end_.
Proof. unfold read_interval. intros H. returned H. required. lia. Qed.

Lemma read_accounted_ok w d start end_ n :
  read_accounted w d start end_ = Ok n →
  num_lt n (NInt 0) = false ∧ ∃ duration, int_truediv (end_ - start) 1000000 = Ok duration ∧
    num_lt (NFloat (fadd duration tolerance)) n = false.
Proof. unfold read_accounted. intros H. returned H. required. eauto. Qed.

Definition event_owned (e : NormalizedEvent) : Prop :=
  _COMPONENT_BY_SCOPE_EVENT !! (ne_scope e, ne_event_name e) = Some (ne_component e).

Lemma validate_event_ok w seen v e :
  validate_event w seen v = Ok e → event_owned e ∧ ne_event_id e ∉ map ne_event_id seen.
Proof.
  unfold validate_event. intros H. returned H. required. unfold event_owned. simpl.
  split; [done|]. by eapply fresh_id_ok.
Qed.

Lemma validate_span_ok candidates events w seen v s :
  validate_span candidates events w seen v = Ok s →
  span_ok candidates events s ∧ ls_span_id s ∉ map ls_span_id seen.
Proof.
  unfold validate_span. intros H. returned H. required. subst. simpl in *.
  split; [|by eapply fresh_id_ok].
  repeat match goal with
  | Hx : is_boundary _ _ _ _ = true |- _ => apply is_boundary_ok in Hx as (? & ? & ?)
  | Hx : event_record _ _ = Ok (Some _) |- _ => apply event_record_ok in Hx
  | Hx : (_ =? _) = true |- _ => apply Z.eqb_eq in Hx
  | Hx : member_of _ _ _ = Ok _ |- _ => apply member_of_ok in Hx
  | Hx : read_interval _ _ = Ok _ |- _ => apply read_interval_ok in Hx
  | Hx : read_accounted _ _ _ _ = Ok _ |- _ => apply read_accounted_ok in Hx as (? & ? & ? & ?)
  end.
  constructor; simpl; [..|done|done|by eauto]; eexists; (split_and!; [|reflexivity|..]); done.
Qed.

Lemma validate_edge_ok spans w seen v e :
  validate_edge spans w seen v = Ok e → edge_ok spans e ∧ e ∉ map id seen.
Proof.
  unfold validate_edge. intros H. apply bind_ok in H as (d & _ & H). apply bind_ok in H as (? & _ & H).
  apply bind_ok in H as (source_id & _ & H). apply bind_ok in H as (target_id & _ & H).
  apply bind_ok in H as (kind & Hk%member_of_ok & H). apply bind_ok in H as (? & Hnew & H).
  destruct (span_by_id spans source_id) as [s|] eqn:Es; [|done].
  destruct (span_by_id spans target_id) as [t|] eqn:Et; [|done].
  apply span_by_id_ok in Es as [Hs <-]. apply span_by_id_ok in Et as [Ht <-].
  apply bind_ok in H as (? & Hid & H). apply bind_ok in H as (? & Hp & H). injection H as <-. required.
  split; [|by rewrite list_fmap_id]. constructor; [|done]. exists s, t. split_and!; [done..|].
  simpl. intros ->. apply andb_false_iff in Hp as [?|?]; [done|lia].
Qed.

Lemma check_supported_link_ok w l s u :
  check_supported_link w l s = Ok u →
  (∃ key, key ∈ trace_identity_keys ∧ has_key l key = true) ∧
  (is_device (ls_clock_domain s) = true →
   has_chain l = true ∧ is_Some (bs_batch_id (ls_batch_step s)) ∧ is_Some (bs_step_id (ls_batch_step s))).
Proof.
  unfold check_supported_link. intros H. apply bind_ok in H as (? & H1 & H).
  apply bind_ok in H as (? & H2 & H). apply require_ok in H1, H2, H. split.
  - apply existsb_exists in H1 as (key & Hin & Hk). exists key. by rewrite list_elem_of_In.
  - intros Hd. rewrite Hd in H2, H. simpl in *. apply andb_true_iff in H as [Hb Hs].
    split; [done|]. by destruct (bs_batch_id _), (bs_step_id _).
Qed.

Lemma of_span_ok l s :
  of_span l s = true →
  tl_identity l = ls_identity s ∧ tl_owner l = ls_owner s ∧ tl_clock_domain l = ls_clock_domain s.
Proof. unfold of_span. intros H. required. done. Qed.

Lemma span_record_ok spans v s : span_record spans v = Ok (Some s) → s ∈ spans.
Proof. destruct v as [|[]| |]; try done. simpl. intros [= H]. by apply span_by_id_ok in H as [? _]. Qed.

Lemma validate_link_ok spans w seen v l :
  validate_link spans w seen v = Ok l → link_ok spans l ∧ link_identity l ∉ map link_identity seen.
Proof.
  unfold validate_link. intros H. apply bind_ok in H as (d & _ & H). apply bind_ok in H as (? & _ & H).
  apply bind_ok in H as (kind & _ & H). apply bind_ok in H as (? & _ & H).
  apply bind_ok in H as ([s|] & Hs & H); [|done]. apply span_record_ok in Hs.
  do 9 apply bind_ok in H as (? & _ & H). cbv zeta in H.
  match type of H with context [of_span ?l' s] => set (l0 := l') in * end.
  apply bind_ok in H as (? & Hof & H). apply bind_ok in H as (? & Hnew & H).
  apply bind_ok in H as (? & Hlink & H). injection H as <-. required.
  apply of_span_ok in Hof as (? & ? & ?). split; [|done].
  destruct (is_supported _) eqn:E in Hlink; [apply check_supported_link_ok in Hlink as [Hk Hd]|required].
  all: constructor; simpl in E |- *.
  all: try (intros; congruence); try done.
  all: exists s; split_and!; try done; by rewrite ?E.
Qed.

Lemma check_capacity_ok w name l u :
  check_capacity w name l = Ok u → Z.of_nat (length l) ≤ DATA_CAPACITY_RECORDS.
Proof. unfold check_capacity. intros H. required. lia. Qed.

Lemma validate_status_ok w v st : validate_status w v = Ok st → 0 ≤ es_event_loss_count st.
Proof. unfold validate_status. intros H. returned H. simpl. by eapply count_field_ok. Qed.

Lemma edge_ends_known spans edges x y :
  Forall (edge_ok spans) edges → (x, y) ∈ map edge_ends edges →
  x ∈ map ls_span_id spans ∧ y ∈ map ls_span_id spans.
Proof.
  intros Hf ([s t k] & [= -> ->] & He)%list_elem_of_fmap.
  apply (proj1 (Forall_forall _ _) Hf) in He as [(a & b & Ha & Hb & Ea & Eb & _) _].
  simpl in Ea, Eb. subst. split; apply list_elem_of_fmap; eauto.
Qed.

Lemma validate_observation_ok frames candidates run_ids w v ob :
  _validate_observation frames candidates run_ids w v = Ok ob →
  observation_ok candidates ob ∧ ob_run_id ob ∉ run_ids.
Proof.
  unfold _validate_observation. intros H. apply bind_ok in H as (d & _ & H).
  apply bind_ok in H as (? & _ & H). apply bind_ok in H as (run_id & Hrun%fresh_id_ok & H).
  do 3 apply bind_ok in H as (? & _ & H). apply bind_ok in H as (st & Hst%validate_status_ok & H).
  apply bind_ok in H as (jevents & _ & H). apply bind_ok in H as (jspans & _ & H).
  apply bind_ok in H as (jedges & _ & H). apply bind_ok in H as (jlinks & _ & H).
  apply bind_ok in H as (? & Hne & H).
  apply bind_ok in H as (? & Hc1%check_capacity_ok & H).
  apply bind_ok in H as (? & Hc2%check_capacity_ok & H).
  apply bind_ok in H as (? & Hc3%check_capacity_ok & H).
  apply bind_ok in H as (? & Hc4%check_capacity_ok & H).
  apply bind_ok in H as (events & Hev & H). apply bind_ok in H as (spans & Hsp & H).
  apply bind_ok in H as (edges & Hed & H). apply bind_ok in H as ([] & Hac & H).
  apply bind_ok in H as (? & _ & H). apply bind_ok in H as (links & Hli & H).
  apply bind_ok in H as (? & Hdev & H). injection H as <-.
  apply (collect_items _ event_owned ne_event_id) in Hev as (L1 & Fev & Nev);
    [|intros w' seen v'; apply validate_event_ok].
  apply (collect_items _ (span_ok candidates events) ls_span_id) in Hsp as (L2 & Fsp & Nsp);
    [|intros w' seen v'; apply validate_span_ok].
  apply (collect_items _ (edge_ok spans) id) in Hed as (L3 & Fed & Ned);
    [|intros w' seen v'; apply validate_edge_ok].
  apply (collect_items _ (link_ok spans) link_identity) in Hli as (L4 & Fli & Nli);
    [|intros w' seen v'; apply validate_link_ok].
  rewrite list_fmap_id in Ned. apply res_iter_ok in Hdev. required.
  split; [|done]. constructor; simpl; try done; try lia.
  - destruct jevents, jspans; try done; simpl in *; lia.
  - pose proof (validate_acyclic_spec frames (map edge_ends edges) (map ls_span_id spans) w
      (λ x y, edge_ends_known spans edges x y Fed)) as Ha.
    by rewrite Hac in Ha.
  - intros s Hs Hd. apply (proj1 (Forall_forall _ _) Hdev) in Hs. unfold check_device_span in Hs.
    required. rewrite Hd in Hs. simpl in Hs. apply existsb_exists in Hs as (l & Hl & Hsl).
    apply andb_true_iff in Hsl as [? ?%String.eqb_eq]. exists l. by rewrite list_elem_of_In.
Qed.

(** ** Pairs and the bundle *)

Lemma validate_pair_ok frames candidates w seen v p :
  validate_pair frames candidates w seen v = Ok p →
  (pair_ok candidates p ∧ mp_order p ∈ ORDERS ∧ ob_run_id (mp_baseline p) ≠ ob_run_id (mp_treatment p) ∧
   ∀ ob, ob ∈ arms p → ob_run_id ob ∉ concat (map (λ p, map ob_run_id (arms p)) seen)) ∧
  mp_pair_id p ∉ map mp_pair_id seen.
Proof.
  unfold validate_pair. intros H. apply bind_ok in H as (d & _ & H). apply bind_ok in H as (? & _ & H).
  apply bind_ok in H as (pair_id & Hid%fresh_id_ok & H). apply bind_ok in H as (order & Ho%member_of_ok & H).
  apply bind_ok in H as (? & _ & H). apply bind_ok in H as (ba & Hba & H).
  apply bind_ok in H as (tr & Htr & H). apply bind_ok in H as (? & Hc & H).
  apply bind_ok in H as (? & Hk & H). injection H as <-. required.
  apply validate_observation_ok in Hba as [Oba Hba]. apply validate_observation_ok in Htr as [Otr Htr].
  rewrite elem_of_app, list_elem_of_singleton in Htr. split; [|done].
  split_and!; simpl; [|done|naive_solver|].
  - constructor; simpl; [|done..]. apply Forall_cons_2; [done|by apply Forall_singleton].
  - intros ob [->|[->|[]%elem_of_nil]%elem_of_cons]%elem_of_cons; naive_solver.
Qed.

(** The order of each pair is the one that was checked to alternate. *)
Lemma pair_order frames candidates w seen v p :
  validate_pair frames candidates w seen v = Ok p →
  ∃ d, v = JObject d ∧ jget "order" d = JStr (mp_order p).
Proof.
  unfold validate_pair. intros H. apply bind_ok in H as (d & Hd & H).
  assert (v = JObject d) as -> by (destruct v; try done; by injection Hd as ->).
  do 2 apply bind_ok in H as (? & _ & H). apply bind_ok in H as (order & Ho & H).
  do 5 apply bind_ok in H as (? & _ & H). injection H as <-. exists d. split; [done|]. simpl.
  unfold member_of in Ho. apply bind_ok in Ho as ([] & Hb & Ho); [|done].
  apply json_in_true in Hb as (s & E & _). rewrite E in Ho |- *. by injection Ho as ->.
Qed.

Lemma collect_orders frames candidates w acc i pairs matched :
  collect (validate_pair frames candidates) w acc i pairs = Ok matched →
  ∃ r, matched = acc ++ r ∧ orders_of pairs = map (λ p, JStr (mp_order p)) r.
Proof.
  revert acc i matched. induction pairs as [|v pairs IH]; intros acc i matched H; cbn [collect] in H.
  { injection H as <-. exists []. by rewrite app_nil_r. }
  apply bind_ok in H as (p & Hp & H). apply IH in H as (r & -> & Hr). exists (p :: r).
  rewrite <- app_assoc. split; [done|]. apply pair_order in Hp as (d & -> & Ho).
  change (orders_of (JObject d :: pairs)) with (jget "order" d :: orders_of pairs). simpl.
  by rewrite Ho, Hr.
Qed.

(** No two adjacent values are equal. *)
Inductive alternating : list string → Prop :=
| alternating_nil : alternating []
| alternating_one x : alternating [x]
| alternating_cons x y l : x ≠ y → alternating (y :: l) → alternating (x :: y :: l).

Lemma repeats_spec l : repeats l = false → alternating l.
Proof.
  induction l as [|x [|y l] IH]; intros H; [constructor..|]. cbn [repeats] in H.
  apply orb_false_iff in H as [Hxy Hl]. constructor; [by apply String.eqb_neq|by apply IH].
Qed.

Lemma read_orders pairs r orders msg :
  orders_of pairs = map (λ p, JStr (mp_order p)) r →
  res_mapM (λ v, member_of v ORDERS msg) (orders_of pairs) = Ok orders → orders = map mp_order r.
Proof.
  intros ->. revert orders. induction r as [|p r IH]; intros orders; cbn [map res_mapM]; [by intros [= <-]|].
  intros H. apply bind_ok in H as (o & Ho & H). apply bind_ok in H as (os & Hos & H). injection H as <-.
  apply IH in Hos as ->. unfold member_of in Ho. apply bind_ok in Ho as ([] & _ & Ho); [|done].
  by injection Ho as ->.
Qed.

Lemma reject_forbidden_ok path d :
  _reject_forbidden_keys path (JObject d) = Ok tt →
  ∀ key v, (key, v) ∈ d → (lower key ∉ _FORBIDDEN_KEYS) ∧ (∃ path', _reject_forbidden_keys path' v = Ok tt).
Proof.
  cbn [_reject_forbidden_keys]. induction d as [|[key' v'] d IH]; [by intros _ ?? ?%elem_of_nil|].
  intros H. apply bind_ok in H as (? & Hk & H). apply bind_ok in H as ([] & Hv & H). required.
  intros key v [[= -> ->]|Hin]%elem_of_cons; [|by apply IH].
  split; [by apply str_in_spec_false|by eexists].
Qed.

Lemma reject_forbidden_list_ok path l :
  _reject_forbidden_keys path (JList l) = Ok tt →
  ∀ v, v ∈ l → ∃ path', _reject_forbidden_keys path' v = Ok tt.
Proof.
  cbn [_reject_forbidden_keys]. generalize 0%nat. induction l as [|v' l IH]; [by intros _ _ ? ?%elem_of_nil|].
  intros i H. apply bind_ok in H as ([] & Hv & H). intros v [->|Hin]%elem_of_cons; [by eexists|].
  by eapply IH.
Qed.

Lemma no_forbidden_key path v key :
  _reject_forbidden_keys path v = Ok tt → key_inside key v → lower key ∉ _FORBIDDEN_KEYS.
Proof.
  intros H Hin. revert path H. induction Hin as [d v Hin|d key' v Hin _ IH|l v Hin _ IH]; intros path H.
  - by eapply reject_forbidden_ok.
  - destruct (reject_forbidden_ok _ _ H _ _ Hin) as [_ [path' H']]. by eapply IH.
  - destruct (reject_forbidden_list_ok _ _ H _ Hin) as [path' H']. by eapply IH.
Qed.

(** Run identifiers of all the arms *)
Definition run_ids_of (pairs : list MatchedPair) : list string :=
  concat (map (λ p, map ob_run_id (arms p)) pairs).

(** C27. An accepted bundle is a closed and well-formed case.  When [validate_case_bundle]
    returns, no answer-bearing key occurs in the bundle at any depth and the name of the
    case gives nothing away; there are 5 to 4096 pairs that alternate their order, with
    unique pair and run identifiers and one configuration and clock in both arms; and in
    every observation the spans lie between two of its events and carry their identity,
    are charged within their interval to a measurable candidate, the edges join spans of
    one request without a cycle, those of kind precedes in temporal order, and the links
    belong to their span, with a supported link for every span of a device. *)
Theorem case_bundle_sound frames bundle candidate_ids case_id pairs :
  validate_case_bundle frames bundle candidate_ids = Ok (case_id, pairs) →
  (∀ key, key_inside key (JObject bundle) → lower key ∉ _FORBIDDEN_KEYS) ∧
  (∀ token, token ∈ _FORBIDDEN_CASE_TOKENS → contains token (lower case_id) = false) ∧
  5 ≤ Z.of_nat (length pairs) ≤ DATA_CAPACITY_RECORDS ∧
  Forall (λ p, mp_order p ∈ ORDERS) pairs ∧ alternating (map mp_order pairs) ∧
  NoDup (map mp_pair_id pairs) ∧ NoDup (run_ids_of pairs) ∧
  Forall (pair_ok candidate_ids) pairs.
Proof.
  unfold validate_case_bundle. intros H. apply bind_ok in H as (? & _ & H).
  apply bind_ok in H as ([] & Hfk & H). do 2 apply bind_ok in H as (? & _ & H).
  apply bind_ok in H as (id & _ & H). apply bind_ok in H as (? & Htok & H).
  apply bind_ok in H as (jpairs & _ & H). apply bind_ok in H as (? & Hn & H).
  apply bind_ok in H as (orders & Hor & H). apply bind_ok in H as (? & Halt & H).
  apply bind_ok in H as (matched & Hm & H). injection H as -> ->. required.
  pose proof (collect_orders _ _ _ _ _ _ _ Hm) as (r & -> & Hr). simpl in Hm |- *.
  apply (read_orders _ r) in Hor as ->; [|done].
  pose proof (collect_ok _ _ _ _ _ _ Hm) as (r' & -> & Hlen & Hpre). simpl in Hlen, Hpre.
  assert (∀ r1 p r2, r' = r1 ++ p :: r2 →
    (pair_ok candidate_ids p ∧ mp_order p ∈ ORDERS ∧ ob_run_id (mp_baseline p) ≠ ob_run_id (mp_treatment p) ∧
     ∀ ob, ob ∈ arms p → ob_run_id ob ∉ run_ids_of r1) ∧ mp_pair_id p ∉ map mp_pair_id r1) as Hp.
  { intros r1 p r2 E. destruct (Hpre r1 p r2 E) as (w & v & Hv). by eapply validate_pair_ok. }
  apply (collect_items _ (λ p, pair_ok candidate_ids p ∧ mp_order p ∈ ORDERS) mp_pair_id) in Hm
    as (_ & [Fp Fo]%Forall_and & Nid);
    [|intros w seen v p Hv; apply validate_pair_ok in Hv as [(? & ? & _) ?]; done].
  change ([] ++ r') with r' in *. split_and!; try done; try (rewrite Hlen; lia).
  - intros key. by apply (no_forbidden_key "bundle").
  - intros token Hin. apply not_true_is_false. intros Hc.
    assert (existsb (λ token, contains token (lower case_id)) _FORBIDDEN_CASE_TOKENS = true) as E; [|congruence].
    apply existsb_exists. exists token. by rewrite <- list_elem_of_In.
  - by apply repeats_spec.
  - clear - Hp. induction r' as [|p r' IH] using rev_ind; [apply NoDup_nil_2|].
    unfold run_ids_of in *. rewrite map_app, concat_app. simpl. apply NoDup_app.
    destruct (Hp r' p [] eq_refl) as [(_ & _ & Hne & Hout) _]. split_and!.
    + apply IH. intros r1 q r2 ->. apply (Hp r1 q (r2 ++ [p])). by rewrite <- app_assoc.
    + intros k Hk Hk'. cut (∃ ob, ob ∈ arms p ∧ ob_run_id ob = k); [by intros (ob & Hob & <-); apply (Hout ob)|].
      apply elem_of_cons in Hk' as [-> | ->%list_elem_of_singleton]; eexists; (split; [|reflexivity]).
      * by left.
      * right. by left.
    + apply NoDup_cons. split; [|apply NoDup_singleton]. by rewrite list_elem_of_singleton.
Qed.

(** ** The development case *)

Lemma case_bundle_sound_witness :
  ∃ pairs, validate_case_bundle 100 development_case candidate_vocabulary = Ok ("case-dev-001", pairs) ∧
    length pairs = 5%nat ∧ NoDup (run_ids_of pairs) ∧ Forall (pair_ok candidate_vocabulary) pairs ∧
    ∀ key, key_inside key (JObject development_case) → lower key ∉ _FORBIDDEN_KEYS.
Proof.
  assert (∃ pairs, validate_case_bundle 100 development_case candidate_vocabulary = Ok ("case-dev-001", pairs) ∧
    length pairs = 5%nat) as (pairs & Hv & Hn) by (eexists; split; vm_compute; reflexivity).
  exists pairs. split; [exact Hv|]. split; [exact Hn|]. revert Hv.
  generalize development_case candidate_vocabulary. intros bundle candidates Hv.
  destruct (case_bundle_sound 100 bundle candidates _ pairs Hv) as (Hk & _ & _ & _ & _ & _ & Hr & Hp).
  done.
Defined.
