(* ===== verification/BlindViews.v ===== *)
(** * blind_attribution.py: the comparison views and the noise floor

    [render_comparison_views] derives the five inputs that the methods of the comparison
    are given from one validated bundle.  A view is shown to depend on the fields it is
    meant to show and on nothing else.  [calibrate_noise_floor] turns five null
    differences into the floor of the scorer. *)

From Stdlib Require Import ZArith Lia Ascii String.
From stdpp Require Import base strings sorting list.
From S2P Require Import Prelude PyValue Binary64 JsonValue CaseRecords CaseBundle DevelopmentCase.

(** ** Reading a validated bundle *)

(** [v[key]] *)
Definition jitem (key : string) (v : json) : res json :=
  match v with
  | JObject d => match assoc key d with Some x => Ok x | None => Raise (KeyError key) end
  | _ => Raise TypeError
  end.

(** [for x in v] for a list *)
Definition jitems (v : json) : res (list json) :=
  match v with JList l => Ok l | _ => Raise TypeError end.

(** [float(v)] of a number *)
Definition jfloat (v : json) : res float :=
  match v with
  | JScalar s => match as_number s with Some n => num_to_float n | None => Raise TypeError end
  | _ => Raise TypeError
  end.

(** ** Totals *)

(** [totals[key] = totals.get(key, 0.0) + x] *)
Fixpoint add_total (key : string) (x : float) (totals : list (string * float)) : list (string * float) :=
  match totals with
  | [] => [(key, fadd f0 x)]
  | (k, y) :: totals => if String.eqb k key then (k, fadd y x) :: totals else (k, y) :: add_total key x totals
  end.

(** The charge of a span: its candidate and its duration *)
Definition charge_of (span : json) : res (string * float) :=
  candidate ← jitem "candidate_id" span;
  x ← jitem "accounted_duration_ms" span;
  x ← jfloat x;
  match candidate with JStr c => Ok (c, x) | _ => Raise TypeError end.

Definition totals_of (charges : list (string * float)) : list (string * float) :=
  foldl (λ totals c, add_total c.1 c.2 totals) [] charges.

Definition _stage_totals (spans : list json) : res json :=
  charges ← res_mapM charge_of spans;
  Ok (JObject (map (λ kv, (kv.1, JFloat (round_digits 9 kv.2))) (merge_sort PyValue.key_le (totals_of charges)))).

(** ** Views *)

Definition VIEW_SCHEMA := "request-lifecycle-blind-view/v1".

Definition VIEW_NAMES :=
  ["aggregate_metrics"; "flat_stage_timers"; "raw_normalized_events";
   "lifecycle_spans_without_causal_ranking"; "full_lifecycle_dag"].

(** [{key: d[key] ...}] *)
Definition fields_of (keys : list (string * string)) (v : json) : res jdict :=
  res_mapM (λ k, x ← jitem k.2 v; Ok (k.1, x)) keys.

Definition BASE_FIELDS :=
  [("run_id", "run_id"); ("configuration_id", "configuration_id");
   ("clock_model_id", "clock_model_id"); ("evidence_status", "evidence_status")].

(** What a view adds to the base of an arm *)
Definition shown_fields (view_name : string) (observation : json) : res jdict :=
  if String.eqb view_name "aggregate_metrics" then fields_of [("metrics", "metrics")] observation
  else if String.eqb view_name "flat_stage_timers" then
    spans ← jitem "lifecycle_spans" observation;
    spans ← jitems spans;
    totals ← _stage_totals spans;
    Ok [("stage_timers_ms", totals)]
  else if String.eqb view_name "raw_normalized_events" then
    fields_of [("metrics", "metrics"); ("events", "normalized_events")] observation
  else if String.eqb view_name "lifecycle_spans_without_causal_ranking" then
    fields_of [("metrics", "metrics"); ("spans", "lifecycle_spans")] observation
  else
    fields_of [("metrics", "metrics"); ("spans", "lifecycle_spans"); ("edges", "lifecycle_edges");
               ("traceloom_links", "traceloom_links")] observation.

Definition arm_view (view_name arm : string) (pair : json) : res (json * json) :=
  observation ← jitem arm pair;
  base ← fields_of BASE_FIELDS observation;
  matching ← jitem "matching" pair;
  shown ← shown_fields view_name observation;
  Ok (matching, JObject (base ++ shown)).

Definition pair_view (view_name : string) (pair : json) : res json :=
  head ← fields_of [("pair_id", "pair_id"); ("order", "order")] pair;
  baseline ← arm_view view_name "baseline" pair;
  treatment ← arm_view view_name "treatment" pair;
  Ok (JObject (head ++ [("matching", baseline.1); ("baseline", baseline.2); ("treatment", treatment.2)])).

Definition render_view (bundle : json) (view_name : string) : res (string * json) :=
  case_id ← jitem "case_id" bundle;
  pairs ← jitem "pairs" bundle;
  pairs ← jitems pairs;
  view_pairs ← res_mapM (pair_view view_name) pairs;
  Ok (view_name, JObject [("schema", JStr VIEW_SCHEMA); ("case_id", case_id); ("view", JStr view_name);
    ("pairs", JList view_pairs)]).

Definition render_comparison_views (bundle : json) : res (list (string * json)) :=
  res_mapM (render_view bundle) VIEW_NAMES.

(** ** What a view may show *)

(** The fields of an observation that each view is meant to show *)
Definition view_sources (view_name : string) : list string :=
  if String.eqb view_name "aggregate_metrics" then ["metrics"]
  else if String.eqb view_name "flat_stage_timers" then ["lifecycle_spans"]
  else if String.eqb view_name "raw_normalized_events" then ["metrics"; "normalized_events"]
  else if String.eqb view_name "lifecycle_spans_without_causal_ranking" then ["metrics"; "lifecycle_spans"]
  else ["metrics"; "lifecycle_spans"; "lifecycle_edges"; "traceloom_links"].

(** Two values that cannot be told apart by the keys *)
Definition agree_on (keys : list string) (v w : json) : Prop :=
  Forall (λ key, jitem key v = jitem key w) keys.

(** Two arms that agree on the base fields and on those the view shows *)
Definition same_arm (view_name arm : string) (p q : json) : Prop :=
  ∃ v w, jitem arm p = Ok v ∧ jitem arm q = Ok w ∧ agree_on (BASE_FIELDS.*2 ++ view_sources view_name) v w.

Record same_bundle (view_name : string) (b c : json) : Prop := {
  sb_case : jitem "case_id" b = jitem "case_id" c;
  sb_pairs : ∃ ps qs, jitem "pairs" b = Ok (JList ps) ∧ jitem "pairs" c = Ok (JList qs) ∧
    Forall2 (λ p q, agree_on ["pair_id"; "order"; "matching"] p q ∧
      same_arm view_name "baseline" p q ∧ same_arm view_name "treatment" p q) ps qs }.

Lemma fields_of_ext keys v w : agree_on keys.*2 v w → fields_of keys v = fields_of keys w.
Proof.
  unfold fields_of, agree_on. induction keys as [|[k key] keys IH]; intros H; [done|].
  apply Forall_cons in H as [Hk H]. cbn [res_mapM]. simpl in Hk |- *. by rewrite Hk, IH.
Qed.

Lemma agree_on_app l1 l2 v w : agree_on (l1 ++ l2) v w ↔ agree_on l1 v w ∧ agree_on l2 v w.
Proof. apply Forall_app. Qed.

Lemma shown_fields_ext name v w :
  agree_on (view_sources name) v w → shown_fields name v = shown_fields name w.
Proof.
  unfold view_sources, shown_fields. repeat case_match; intros Ha; try by apply fields_of_ext.
  by rewrite (Forall_inv Ha).
Qed.

Lemma arm_view_ext name arm p q :
  jitem "matching" p = jitem "matching" q → same_arm name arm p q →
  arm_view name arm p = arm_view name arm q.
Proof.
  intros Hm (v & w & Hv & Hw & [Hb Hs]%agree_on_app). unfold arm_view. rewrite Hv, Hw, Hm. cbn [mbind res_bind].
  by rewrite (fields_of_ext _ v w Hb), (shown_fields_ext _ v w Hs).
Qed.

Lemma render_view_ext name b c : same_bundle name b c → render_view b name = render_view c name.
Proof.
  intros [Hc (ps & qs & Hp & Hq & Hf)]. unfold render_view. rewrite Hc, Hp, Hq. cbn [mbind res_bind jitems].
  assert (res_mapM (pair_view name) ps = res_mapM (pair_view name) qs) as ->; [|done].
  clear - Hf. induction Hf as [|p q ps qs (Ha & Hb & Ht) _ IH]; [done|]. cbn [res_mapM]. rewrite IH.
  assert (pair_view name p = pair_view name q) as ->; [|done].
  unfold pair_view. apply Forall_cons in Ha as [H1 Ha]. apply Forall_cons in Ha as [H2 Ha].
  pose proof (Forall_inv Ha) as H3.
  rewrite (fields_of_ext _ p q) by (by repeat constructor).
  by rewrite (arm_view_ext _ _ _ _ H3 Hb), (arm_view_ext _ _ _ _ H3 Ht).
Qed.

(** ** What a view shows

    Written out from the purpose of each view, apart from the tables that render it. *)

(** The field of the observation that each field of an arm holds *)
Definition view_contents (view_name : string) : list (string * string) :=
  match view_name with
  | "aggregate_metrics" => [("metrics", "metrics")]
  | "raw_normalized_events" => [("metrics", "metrics"); ("events", "normalized_events")]
  | "lifecycle_spans_without_causal_ranking" => [("metrics", "metrics"); ("spans", "lifecycle_spans")]
  | "full_lifecycle_dag" =>
      [("metrics", "metrics"); ("spans", "lifecycle_spans"); ("edges", "lifecycle_edges");
       ("traceloom_links", "traceloom_links")]
  | _ => []
  end.

Definition arm_keys (view_name : string) : list string :=
  ["run_id"; "configuration_id"; "clock_model_id"; "evidence_status"] ++
  if String.eqb view_name "flat_stage_timers" then ["stage_timers_ms"] else (view_contents view_name).*1.

(** The field [k.1] of [a] is the field [k.2] of [o]. *)
Definition shows_field (o : json) (a : jdict) (k : string * string) : Prop :=
  ∃ v, jitem k.2 o = Ok v ∧ assoc k.1 a = Some v.

Definition charged (span : json) (c : string * float) : Prop :=
  jitem "candidate_id" span = Ok (JStr c.1) ∧
  ∃ v, jitem "accounted_duration_ms" span = Ok v ∧ jfloat v = Ok c.2.

(** The durations charged to a candidate, in the order of the spans *)
Definition durations_of (candidate : string) (charges : list (string * float)) : list float :=
  map snd (List.filter (λ c, String.eqb c.1 candidate) charges).

(** One timer for each candidate that is charged: the rounded sum of its durations *)
Definition timers_of (spans : list json) (timers : jdict) : Prop :=
  ∃ charges, Forall2 charged spans charges ∧ NoDup timers.*1 ∧
    (∀ c, c ∈ timers.*1 ↔ c ∈ charges.*1) ∧
    (∀ c v, (c, v) ∈ timers →
       v = JFloat (round_digits 9 (fold_left fadd (durations_of c charges) f0))).

Record arm_shows (view_name : string) (o : json) (a : jdict) : Prop := {
  as_keys : a.*1 = arm_keys view_name;
  as_base : Forall (shows_field o a)
    [("run_id", "run_id"); ("configuration_id", "configuration_id");
     ("clock_model_id", "clock_model_id"); ("evidence_status", "evidence_status")];
  as_fields : Forall (shows_field o a) (view_contents view_name);
  as_timers : view_name = "flat_stage_timers" →
    ∃ spans timers, jitem "lifecycle_spans" o = Ok (JList spans) ∧
      assoc "stage_timers_ms" a = Some (JObject timers) ∧ timers_of spans timers }.

Definition pair_shows (view_name : string) (p v : json) : Prop :=
  ∃ d, v = JObject d ∧ d.*1 = ["pair_id"; "order"; "matching"; "baseline"; "treatment"] ∧
    Forall (shows_field p d) [("pair_id", "pair_id"); ("order", "order"); ("matching", "matching")] ∧
    ∀ arm, arm ∈ ["baseline"; "treatment"] →
      ∃ o a, jitem arm p = Ok o ∧ assoc arm d = Some (JObject a) ∧ arm_shows view_name o a.

Definition view_shows (b : json) (view_name : string) (view : json) : Prop :=
  ∃ case_id ps vs, jitem "case_id" b = Ok case_id ∧ jitem "pairs" b = Ok (JList ps) ∧
    view = JObject [("schema", JStr "request-lifecycle-blind-view/v1"); ("case_id", case_id);
      ("view", JStr view_name); ("pairs", JList vs)] ∧
    Forall2 (pair_shows view_name) ps vs.

Lemma assoc_distinct {A} k (v : A) d : NoDup d.*1 → (k, v) ∈ d → assoc k d = Some v.
Proof.
  induction d as [|[k' v'] d IH]; [by intros _ ?%not_elem_of_nil|].
  intros [Hk Hd]%NoDup_cons [[= -> ->]|Hin]%elem_of_cons; simpl; [by rewrite String.eqb_refl|].
  destruct (String.eqb_spec k' k) as [->|]; [|by apply IH].
  destruct Hk. apply list_elem_of_fmap. by exists (k, v).
Qed.

(** *** Timers *)

Lemma assoc_add_total k key x T :
  assoc k (add_total key x T) =
  if String.eqb key k then Some (fadd (default f0 (assoc key T)) x) else assoc k T.
Proof.
  induction T as [|[k' y] T IH]; cbn [add_total assoc]; [reflexivity|].
  destruct (String.eqb_spec k' key) as [->|Hne]; cbn [assoc].
  - destruct (String.eqb key k); reflexivity.
  - rewrite IH. destruct (String.eqb_spec k' k) as [->|]; [|reflexivity].
    rewrite (proj2 (String.eqb_neq key k)) by congruence. reflexivity.
Qed.

Lemma add_total_keys key x T : NoDup T.*1 →
  NoDup (add_total key x T).*1 ∧ ∀ k, k ∈ (add_total key x T).*1 ↔ k = key ∨ k ∈ T.*1.
Proof.
  induction T as [|[k' y] T IH]; cbn [add_total]; intros Hn.
  - rewrite !fmap_cons, fmap_nil. split; [apply NoDup_singleton|]. intros k.
    rewrite elem_of_cons. tauto.
  - rewrite fmap_cons in Hn. apply NoDup_cons in Hn as [Hk Hn]. destruct (IH Hn) as [IH1 IH2].
    simpl in Hk. destruct (String.eqb_spec k' key) as [->|Hne]; rewrite !fmap_cons; simpl.
    + split; [by apply NoDup_cons|]. intros k. rewrite elem_of_cons. tauto.
    + split.
      * apply NoDup_cons. split; [|exact IH1]. rewrite IH2. by intros [->|?].
      * intros k. rewrite !elem_of_cons, IH2. tauto.
Qed.

Lemma durations_cons c k x charges :
  durations_of c ((k, x) :: charges) = (if String.eqb k c then [x] else []) ++ durations_of c charges.
Proof. unfold durations_of. simpl. by destruct (String.eqb k c). Qed.

Lemma totals_fold charges T : NoDup T.*1 →
  let T' := foldl (λ totals c, add_total c.1 c.2 totals) T charges in
  NoDup T'.*1 ∧ (∀ k, k ∈ T'.*1 ↔ k ∈ T.*1 ∨ k ∈ charges.*1) ∧
  ∀ c y, assoc c T' = Some y → y = fold_left fadd (durations_of c charges) (default f0 (assoc c T)).
Proof.
  revert T. induction charges as [|[k x] charges IH]; intros T Hn; cbn [foldl].
  - split; [exact Hn|]. split.
    + intros k. rewrite fmap_nil, elem_of_nil. tauto.
    + intros c y E. rewrite E. reflexivity.
  - cbn [fst snd]. destruct (add_total_keys k x T Hn) as [Hn' Hk'].
    destruct (IH _ Hn') as (H1 & H2 & H3). split; [exact H1|]. split.
    + intros c. rewrite H2, Hk', fmap_cons, elem_of_cons. simpl. tauto.
    + intros c y E. rewrite (H3 c y E), durations_cons, assoc_add_total.
      destruct (String.eqb_spec k c) as [->|]; reflexivity.
Qed.

Lemma charge_of_charged span c : charge_of span = Ok c → charged span c.
Proof.
  unfold charge_of. intros H. apply bind_ok in H as (v & Hv & H). apply bind_ok in H as (x & Hx & H).
  apply bind_ok in H as (y & Hy & H). destruct v as [|[]| |]; try done.
  injection H as <-. split; [done|]. by exists x.
Qed.

Lemma stage_totals_shows spans t :
  _stage_totals spans = Ok t → ∃ timers, t = JObject timers ∧ timers_of spans timers.
Proof.
  unfold _stage_totals. intros H. apply bind_ok in H as (charges & Hc & [= <-]).
  eexists. split; [reflexivity|]. exists charges.
  destruct (totals_fold charges [] (NoDup_nil_2)) as (Hn & Hk & Hv). fold (totals_of charges) in *.
  set (sorted := merge_sort PyValue.key_le (totals_of charges)).
  assert (sorted ≡ₚ totals_of charges) as Hp by apply merge_sort_Permutation.
  assert ((map (λ kv : string * float, (kv.1, JFloat (round_digits 9 kv.2))) sorted).*1 = sorted.*1) as Ek.
  { clear. induction sorted as [|x l IH]; [done|]. cbn [map]. by rewrite !fmap_cons, IH. }
  split_and!.
  - apply res_mapM_ok in Hc. eapply Forall2_impl; [exact Hc|]. intros. by apply charge_of_charged.
  - rewrite Ek. by rewrite Hp.
  - intros c. rewrite Ek, Hp, Hk, fmap_nil, elem_of_nil. tauto.
  - intros c v ([c' y] & [= -> ->] & Hin)%list_elem_of_fmap. simpl. rewrite Hp in Hin.
    apply (assoc_distinct c' y) in Hin; [|done]. rewrite (Hv _ _ Hin). reflexivity.
Qed.

(** *** Copied fields *)

Lemma fields_of_shows keys v d :
  fields_of keys v = Ok d →
  d.*1 = keys.*1 ∧ Forall (λ k, ∃ x, jitem k.2 v = Ok x ∧ (k.1, x) ∈ d) keys.
Proof.
  unfold fields_of. intros H. apply res_mapM_ok in H. induction H as [|k e keys d Hk _ [IH1 IH2]]; [done|].
  apply bind_ok in Hk as (x & Hx & [= <-]). rewrite !fmap_cons, IH1. split; [done|].
  constructor; [exists x; split; [done|by left]|].
  eapply Forall_impl; [exact IH2|]. intros k' (y & ? & ?). exists y. split; [done|by right].
Qed.

(** Fields that are in an object with distinct keys are shown by it. *)
Lemma shown_in keys v (d a : jdict) :
  NoDup a.*1 → d ⊆ a → Forall (λ k : string * string, ∃ x, jitem k.2 v = Ok x ∧ (k.1, x) ∈ d) keys →
  Forall (shows_field v a) keys.
Proof.
  intros Hn Hs Hf. eapply Forall_impl; [exact Hf|]. intros k (x & Hx & Hin). exists x.
  split; [done|]. by apply assoc_distinct, Hs.
Qed.

Lemma arm_keys_distinct name : name ∈ VIEW_NAMES → NoDup (arm_keys name).
Proof.
  intros Hn. refine (bool_decide_unpack _ _).
  repeat (apply elem_of_cons in Hn as [->|Hn]); [vm_compute; exact I..|by apply elem_of_nil in Hn].
Qed.

(** What [shown_fields] adds, for a view of the roster *)
Lemma shown_fields_shows name o d :
  name ∈ VIEW_NAMES → shown_fields name o = Ok d →
  d.*1 = drop 4 (arm_keys name) ∧
  Forall (λ k : string * string, ∃ x, jitem k.2 o = Ok x ∧ (k.1, x) ∈ d) (view_contents name) ∧
  (name = "flat_stage_timers" → ∃ spans timers, jitem "lifecycle_spans" o = Ok (JList spans) ∧
     ("stage_timers_ms", JObject timers) ∈ d ∧ timers_of spans timers).
Proof.
  intros Hn. unfold shown_fields.
  repeat (apply elem_of_cons in Hn as [->|Hn]); [..|by apply elem_of_nil in Hn];
    cbn [String.eqb Ascii.eqb Bool.eqb].
  2: { intros H. apply bind_ok in H as (v & Hv & H). apply bind_ok in H as (spans & Hs & H).
       apply bind_ok in H as (t & Ht & [= <-]). destruct v; try done. injection Hs as ->.
       apply stage_totals_shows in Ht as (timers & -> & Ht).
       split; [done|]. split; [constructor|]. intros _. exists spans, timers.
       split_and!; [done|by left|done]. }
  all: intros [Hk Hf]%fields_of_shows; (split; [exact Hk|]); (split; [exact Hf|]); discriminate.
Qed.

Lemma arm_view_shows name arm p m a :
  name ∈ VIEW_NAMES → arm_view name arm p = Ok (m, a) →
  jitem "matching" p = Ok m ∧
  ∃ o d, jitem arm p = Ok o ∧ a = JObject d ∧ arm_shows name o d.
Proof.
  intros Hn H. unfold arm_view in H. apply bind_ok in H as (o & Ho & H).
  apply bind_ok in H as (b & Hb & H). apply bind_ok in H as (m' & Hm & H).
  apply bind_ok in H as (d & Hd & [= -> <-]).
  apply fields_of_shows in Hb as [Hbk Hb].
  apply shown_fields_shows in Hd as (Hdk & Hd & Ht); [|done].
  assert ((b ++ d).*1 = arm_keys name) as Hk.
  { rewrite fmap_app, Hbk, Hdk. done. }
  assert (NoDup (b ++ d).*1) as Hnd by (rewrite Hk; by apply arm_keys_distinct).
  split; [done|]. exists o, (b ++ d). split; [done|]. split; [done|]. constructor; [exact Hk| | |].
  - eapply (shown_in _ o b); [exact Hnd|intros z Hz; apply elem_of_app; by left|exact Hb].
  - eapply (shown_in _ o d); [exact Hnd|intros z Hz; apply elem_of_app; by right|exact Hd].
  - intros E. destruct (Ht E) as (spans & timers & Hs & Hin & Hof). exists spans, timers.
    split_and!; [done| |done]. apply assoc_distinct; [exact Hnd|]. apply elem_of_app. by right.
Qed.

Lemma pair_view_shows name p v : name ∈ VIEW_NAMES → pair_view name p = Ok v → pair_shows name p v.
Proof.
  intros Hn H. unfold pair_view in H. apply bind_ok in H as (h & Hh & H).
  apply bind_ok in H as ([m b] & Hb & H). apply bind_ok in H as ([m' t] & Ht & [= <-]).
  apply arm_view_shows in Hb as (Hm & ob & db & Hob & -> & Hsb); [|done].
  apply arm_view_shows in Ht as (_ & ot & dt & Hot & -> & Hst); [|done].
  unfold fields_of in Hh. cbn [res_mapM] in Hh.
  apply bind_ok in Hh as (f1 & H1 & Hh). apply bind_ok in H1 as (x1 & Hx1 & [= <-]).
  apply bind_ok in Hh as (r & Hh & [= <-]).
  apply bind_ok in Hh as (f2 & H2 & [= <-]). apply bind_ok in H2 as (x2 & Hx2 & [= <-]).
  simpl in *. eexists. split; [reflexivity|]. split; [reflexivity|]. split.
  - repeat constructor; eexists; (split; [eassumption|reflexivity]).
  - intros arm [->| ->%list_elem_of_singleton]%elem_of_cons; do 2 eexists; by split_and!.
Qed.

Lemma render_view_shows b name v :
  name ∈ VIEW_NAMES → render_view b name = Ok v → view_shows b name v.2.
Proof.
  intros Hn H. unfold render_view in H. apply bind_ok in H as (case_id & Hc & H).
  apply bind_ok in H as (ps & Hp & H). apply bind_ok in H as (l & Hl & H).
  apply bind_ok in H as (vs & Hv & [= <-]). destruct ps; try done. injection Hl as ->.
  exists case_id, l, vs. split_and!; try done. apply res_mapM_ok in Hv.
  eapply Forall2_impl; [exact Hv|]. intros. by apply pair_view_shows.
Qed.

(** C30. A view shows what it is meant to show, and no more.  When the views of a bundle
    are rendered, they are the five views in their order; each has the case of the bundle
    and, pair by pair, its identifier, order and matching; each arm of it has exactly the
    keys of the view, and each of them holds the value of the field of the observation it
    stands for: run, configuration, clock model and evidence status in every view, the
    metrics in all but the timers, the events, spans, edges and links where the view is
    about them, and the timers are the rounded sums of the durations charged to each
    candidate.  And when two bundles differ at most in fields of the observations that a
    view is not meant to show, that view is the same for both: the aggregate view is blind
    to events, spans, edges and links, the timers to everything but the spans, the raw
    events to spans, edges and links, and the spans to events, edges and links. *)
Theorem view_isolation b c views views' name :
  render_comparison_views b = Ok views → render_comparison_views c = Ok views' →
  views.*1 = ["aggregate_metrics"; "flat_stage_timers"; "raw_normalized_events";
    "lifecycle_spans_without_causal_ranking"; "full_lifecycle_dag"] ∧
  (name ∈ views.*1 →
   (∃ view, assoc name views = Some view ∧ view_shows b name view) ∧
   (same_bundle name b c →
    ∃ view, assoc name views = Some view ∧ assoc name views' = Some view)).
Proof.
  unfold render_comparison_views. intros H H'. apply res_mapM_ok in H, H'.
  assert (∀ b names views, Forall2 (λ n v, render_view b n = Ok v) names views → views.*1 = names) as Hn.
  { clear. intros b names views. induction 1 as [|n v names views Hv _ IH]; [done|].
    rewrite fmap_cons, IH. f_equal. unfold render_view in Hv. do 4 apply bind_ok in Hv as (? & _ & Hv).
    by injection Hv as <-. }
  assert (∀ b names views, Forall2 (λ n v, render_view b n = Ok v) names views →
    name ∈ names → ∃ view, assoc name views = Some view ∧ render_view b name = Ok (name, view)) as Ha.
  { clear - Hn. intros b names views. induction 1 as [|n v names views Hv Hf IH]; [by intros ?%elem_of_nil|].
    assert ([v].*1 = [n]) as [= E] by (eapply (Hn b); constructor; [exact Hv|constructor]).
    destruct v as [k view]. simpl in *. subst k. destruct (String.eqb_spec n name) as [->|Hne]; [by exists view|].
    intros [->|Hin]%elem_of_cons; [done|by apply IH]. }
  split; [by eapply Hn|]. rewrite (Hn _ _ _ H). intros Hin.
  destruct (Ha _ _ _ H Hin) as (view & Hv & Hr). split.
  { exists view. split; [done|]. exact (render_view_shows b name (name, view) Hin Hr). }
  intros Hs. destruct (Ha _ _ _ H' Hin) as (view' & Hv' & Hr').
  rewrite (render_view_ext _ _ _ Hs), Hr' in Hr. injection Hr as ->. by exists view.
Qed.

(** A bundle without the lists of the given fields *)
Fixpoint blank (keys : list string) (v : json) : json :=
  match v with
  | JObject d => JObject (map (λ kv, (kv.1, if str_in kv.1 keys then JList [] else blank keys kv.2)) d)
  | JList l => JList (map (blank keys) l)
  | v => v
  end.

Definition hidden_fields := ["normalized_events"; "lifecycle_spans"; "lifecycle_edges"].

Definition hidden_case : json := blank hidden_fields (JObject development_case).

Definition case_pairs (v : json) : list json :=
  match jitem "pairs" v with Ok (JList l) => l | _ => [] end.

Lemma hidden_case_same : same_bundle "aggregate_metrics" (JObject development_case) hidden_case.
Proof.
  constructor; [vm_compute; reflexivity|].
  exists (case_pairs (JObject development_case)), (case_pairs hidden_case).
  split; [vm_compute; reflexivity|]. split; [vm_compute; reflexivity|].
  vm_compute (case_pairs hidden_case). vm_compute (case_pairs (JObject development_case)).
  repeat first [apply Forall2_nil_2 | apply Forall2_cons; split].
  all: split; [repeat constructor; vm_compute; reflexivity|].
  all: split; eexists _, _; (split; [vm_compute; reflexivity|]); (split; [vm_compute; reflexivity|]);
    repeat constructor; vm_compute; reflexivity.
Qed.

Lemma view_isolation_witness :
  ∃ views views' view,
    render_comparison_views (JObject development_case) = Ok views ∧
    render_comparison_views hidden_case = Ok views' ∧
    assoc "aggregate_metrics" views = Some view ∧ assoc "aggregate_metrics" views' = Some view ∧
    view_shows (JObject development_case) "aggregate_metrics" view.
Proof.
  assert (is_ok (render_comparison_views (JObject development_case)) = true) as H1 by (vm_compute; reflexivity).
  assert (is_ok (render_comparison_views hidden_case) = true) as H2 by (vm_compute; reflexivity).
  pose proof hidden_case_same as Hs. revert H1 H2 Hs. generalize (JObject development_case) hidden_case.
  intros b c [views Hv]%is_ok_spec [views' Hv']%is_ok_spec Hs. exists views, views'.
  destruct (view_isolation b c views views' "aggregate_metrics" Hv Hv') as (Hn & Hi).
  destruct Hi as [(view & Hview & Hshow) Hi]; [rewrite Hn; by left|].
  destruct (Hi Hs) as (view' & Hview' & ?). exists view.
  assert (view' = view) as -> by congruence. by split_and!.
Defined.

(** ** The noise floor *)

(** [MIN_ABSOLUTE_FLOOR_MS] *)
Definition MIN_ABSOLUTE_FLOOR_MS : float := of_Z 5.

(** One difference: the absolute value of a finite number *)
Definition null_delta (value : json) : res float :=
  n ← _finite_number value;
  match n with
  | Some n => x ← num_to_float n; Ok (fabs x)
  | None => Raise (ValueError "calibration deltas must be finite numbers")
  end.

(** The 95th percentile and the floor *)
Definition calibrate_noise_floor (total_matched_deltas_ms : list json) : res (float * float) :=
  ensure (bool_decide (length total_matched_deltas_ms = 5%nat))
    (ValueError "formal calibration requires exactly five matched null pairs") ;;
  values ← res_mapM null_delta total_matched_deltas_ms;
  let ordered := sorted_by id values in
  let rank := Z.max 1 (fceil (fmul (lit 95 100) (of_Z (Z.of_nat (length ordered))))) in
  match ordered !! Z.to_nat (rank - 1) with
  | Some null_p95 => Ok (null_p95, py_max MIN_ABSOLUTE_FLOOR_MS null_p95)
  | None => Raise IndexError
  end.

Lemma sorted_lookup {A} (R : A → A → Prop) l :
  StronglySorted R l → ∀ i j x y, (i < j)%nat → l !! i = Some x → l !! j = Some y → R x y.
Proof.
  induction 1 as [|z l _ IH Hz]; intros [|i] [|j] x y Hij Hx Hy; try done; try lia.
  - injection Hx as <-. apply (proj1 (Forall_forall _ _) Hz). by eapply list_elem_of_lookup_2.
  - eapply IH; [|done..]. lia.
Qed.

Lemma null_delta_ok v x : null_delta v = Ok x → is_nan x = false.
Proof.
  unfold null_delta. intros H. apply bind_ok in H as ([n|] & Hn & H); [|done].
  apply bind_ok in H as (y & Hy & H). injection H as <-.
  assert (is_finite y = true) as Hf; [|by destruct y].
  destruct v as [|[|z|z|]| |]; try done; cbn [_finite_number] in Hn.
  - destruct (is_finite z) eqn:E; [|done]. injection Hn as <-. by injection Hy as <-.
  - apply bind_ok in Hn as (z' & Hz & Hn). injection Hn as <-. simpl in Hy. unfold float_of_int in Hy.
    destruct (is_finite (of_Z z)) eqn:E; [|done]. by injection Hy as <-.
Qed.

Lemma py_max_spec a b :
  is_nan a = false → is_nan b = false → fle a (py_max a b) = true ∧ fle b (py_max a b) = true.
Proof.
  intros Ha Hb. unfold py_max. destruct (flt a b) eqn:E.
  - split; [by apply flt_fle|by apply fle_refl].
  - split; [by apply fle_refl|by apply not_flt_fle].
Qed.

(** The noise floor is the worst null difference.  [calibrate_noise_floor] returns
    exactly for five finite numbers; the percentile of five is the greatest of their
    absolute values, and the floor is at least that and at least five milliseconds, and
    one of the two. *)
Lemma noise_floor_max l :
  ((∃ r, calibrate_noise_floor l = Ok r) ↔ length l = 5%nat ∧ ∃ xs, res_mapM null_delta l = Ok xs) ∧
  ∀ p95 floor, calibrate_noise_floor l = Ok (p95, floor) →
    ∃ xs, res_mapM null_delta l = Ok xs ∧ p95 ∈ xs ∧ Forall (λ x, fle x p95 = true) xs ∧
      fle p95 floor = true ∧ fle MIN_ABSOLUTE_FLOOR_MS floor = true ∧
      (floor = p95 ∨ floor = MIN_ABSOLUTE_FLOOR_MS).
Proof.
  assert (∀ xs, res_mapM null_delta l = Ok xs → length l = 5%nat →
    ∃ p95, calibrate_noise_floor l = Ok (p95, py_max MIN_ABSOLUTE_FLOOR_MS p95) ∧
      sorted_by id xs !! 4%nat = Some p95) as Hok.
  { intros xs Hxs Hlen. pose proof (Forall2_length _ _ _ (proj1 (res_mapM_ok _ _ _) Hxs)) as E. unfold calibrate_noise_floor.
    rewrite bool_decide_eq_true_2 by done. cbn [ensure mbind res_bind]. rewrite Hxs. cbn [mbind res_bind].
    rewrite (Permutation_length (sorted_by_Permutation id xs)), <- E, Hlen.
    change (Z.to_nat _) with 4%nat.
    destruct (lookup_lt_is_Some_2 (sorted_by id xs) 4) as [p95 Hp];
      [rewrite (Permutation_length (sorted_by_Permutation id xs)); lia|].
    rewrite Hp. by exists p95. }
  split.
  - split.
    + intros [r H]. unfold calibrate_noise_floor in H. apply bind_ok in H as (? & Hl%ensure_ok & H).
      apply bind_ok in H as (xs & Hxs & _). apply bool_decide_eq_true in Hl. by split; [|exists xs].
    + intros [Hlen [xs Hxs]]. destruct (Hok xs Hxs Hlen) as (p95 & Hp & _). by eexists.
  - intros p95 floor H. assert (∃ xs, res_mapM null_delta l = Ok xs ∧ length l = 5%nat) as (xs & Hxs & Hlen).
    { unfold calibrate_noise_floor in H. apply bind_ok in H as (? & Hl%ensure_ok & H).
      apply bind_ok in H as (xs & Hxs & _). apply bool_decide_eq_true in Hl. by exists xs. }
    destruct (Hok xs Hxs Hlen) as (p & Hp & Hat). rewrite Hp in H. injection H as <- <-.
    pose proof (Forall2_length _ _ _ (proj1 (res_mapM_ok _ _ _) Hxs)) as E.
    assert (Forall (λ x, is_nan x = false) xs) as Hn.
    { apply res_mapM_ok in Hxs. apply Forall_forall. intros x Hx. apply list_elem_of_lookup in Hx as [i Hi].
      destruct (Forall2_lookup_r _ _ _ _ _ Hxs Hi) as (v & _ & Hv). by eapply null_delta_ok. }
    pose proof (sorted_by_sorted id xs Hn) as Hs.
    assert (p ∈ xs) as Hin.
    { rewrite <- (sorted_by_Permutation id xs). by eapply list_elem_of_lookup_2. }
    assert (is_nan p = false) as Hpn by by apply (proj1 (Forall_forall _ _) Hn).
    destruct (py_max_spec MIN_ABSOLUTE_FLOOR_MS p eq_refl Hpn) as [H1 H2].
    exists xs. split_and!; try done; [|unfold py_max; destruct (flt _ _); auto].
    apply Forall_forall. intros x Hx. rewrite <- (sorted_by_Permutation id xs) in Hx.
    apply list_elem_of_lookup in Hx as [i Hi]. apply lookup_lt_Some in Hi as Hlt.
    rewrite (Permutation_length (sorted_by_Permutation id xs)) in Hlt.
    destruct (decide (i = 4%nat)) as [->|Hne].
    + rewrite Hat in Hi. injection Hi as <-. by apply fle_refl.
    + apply (sorted_lookup (key_le id) _ Hs i 4%nat); [lia|done..].
Qed.

Definition null_deltas : list json := [JFloat (of_Z 1); JInt (-2); JFloat (of_Z 4); JInt 3; JFloat (lit 25 10)].

Lemma noise_floor_example :
  (∃ r, calibrate_noise_floor null_deltas = Ok r) ∧
  calibrate_noise_floor null_deltas = Ok (of_Z 4, of_Z 5) ∧
  ∃ xs, res_mapM null_delta null_deltas = Ok xs ∧ of_Z 4 ∈ xs ∧ Forall (λ x, fle x (of_Z 4) = true) xs.
Proof.
  assert (calibrate_noise_floor null_deltas = Ok (of_Z 4, of_Z 5)) as H by (vm_compute; reflexivity).
  assert (length null_deltas = 5%nat ∧ ∃ xs, res_mapM null_delta null_deltas = Ok xs) as Hl
    by (split; [reflexivity|eexists; vm_compute; reflexivity]).
  revert H Hl. generalize null_deltas (of_Z 4) (of_Z 5). intros l p95 floor H Hl.
  split; [exact (proj2 (proj1 (noise_floor_max l)) Hl)|]. split; [exact H|].
  destruct (proj2 (noise_floor_max l) p95 floor H) as (xs & Hxs & Hin & Hf & _). by exists xs.
Defined.
