(* ===== verification/BlindScoring.v ===== *)
(** * blind_attribution.py: the scorer

    [score_case] scores one validated bundle: the paired differences of each candidate,
    their medians, a bootstrap over the pairs, and the reasons to abstain.  The draws of
    the seeded generator are an argument, [draw k i] for the [i]-th index of the [k]-th
    resample; the theorems hold for every stream of draws. *)

From Stdlib Require Import ZArith Lia Ascii String.
From Stdlib Require Import SpecFloat.
From stdpp Require Import base strings gmap sets sorting list.
From S2P Require Import Prelude PyValue Binary64 JsonValue CaseRecords SpanGraph CaseBundle TraceLoom.
From S2P Require Import BlindViews DevelopmentCase.

Definition RESULT_SCHEMA := "request-lifecycle-blind-result/v1".
Definition BOOTSTRAP_SEED : Z := 2026082701.
Definition BOOTSTRAP_RESAMPLES : Z := 10000.
Definition MIN_DOMINANCE_SHARE : float := lit 60 100.
Definition MAX_RESIDUAL_SHARE : float := lit 40 100.

(** ** Evidence *)

(** The packet of a candidate *)
Record evidence_packet := mkPacket {
  pk_span_ids : gset string;
  pk_owners : gset string;
  pk_edge_kinds : gset string;
  pk_traceloom_link_count : Z }.

Definition empty_packet : evidence_packet := mkPacket ∅ ∅ ∅ 0.

(** What the loop over the observations accumulates *)
Record scoring_state := mkScoring {
  ss_reasons : gset string;
  ss_evidence : gmap string evidence_packet;
  ss_loss_count : Z }.

Definition add_reason (b : bool) (reason : string) (reasons : gset string) : gset string :=
  if b then {[reason]} ∪ reasons else reasons.

(** The reasons that the status and the support states of an observation give *)
Definition status_reasons (ob : Observation) (reasons : gset string) : gset string :=
  let status := ob_evidence_status ob in
  add_reason (existsb (λ l, negb (is_supported (tl_support_state l))) (ob_traceloom_links ob))
    "unsupported_or_ambiguous_traceloom_link"
  (add_reason (existsb (λ e, negb (is_supported (ne_support_state e))) (ob_normalized_events ob))
    "unsupported_normalized_event"
  (add_reason (existsb (λ s, negb (is_supported (ls_support_state s))) (ob_lifecycle_spans ob))
    "unsupported_lifecycle_span"
  (add_reason (negb (es_configuration_matched status)) "unmatched_configuration"
  (add_reason (es_clock_ambiguous status) "clock_ambiguity"
  (add_reason (negb (es_event_loss_count status =? 0)) "event_loss"
  (add_reason (negb (es_identity_complete status)) "incomplete_identity" reasons)))))).

(** [total_us / 1000] *)
Definition thousandth (n : number) : res float :=
  match n with NInt n => int_truediv n 1000 | NFloat x => Ok (fdiv x (of_Z 1000)) end.

(** The cost of the occurrence covers what the span accounts for. *)
Definition cost_covers (s : LifecycleSpan) (total_us : json) : res bool :=
  n ← _finite_number total_us;
  match n with
  | Some n =>
      if num_lt n (NInt 0) then Ok false
      else
        ms ← thousandth n;
        Ok (negb (num_lt (NFloat (fadd ms tolerance)) (ls_accounted_duration_ms s)))
  | None => Ok false
  end.

(** One resolved row against its span *)
Definition check_row (spans : list LifecycleSpan) (r : resolved_link) (reasons : gset string)
    : res (gset string) :=
  let reasons := add_reason (is_nil (rl_source_lineage r)) "traceloom_resolution_failure" reasons in
  match span_record spans (jget "span_id" (rl_link r)) with
  | Ok (Some s) =>
      if is_device (ls_clock_domain s) then
        match rl_tree_occurrence r with
        | None => Ok (add_reason true "traceloom_device_occurrence_missing" reasons)
        | Some o =>
            covers ← cost_covers s (to_total_us o);
            Ok (add_reason (negb covers) "traceloom_device_cost_mismatch"
              (add_reason (negb (json_eq (to_start_ns o) (JInt (ls_start_ns s))
                                 && json_eq (to_end_ns o) (JInt (ls_end_ns s))))
                 "traceloom_device_occurrence_mismatch" reasons))
        end
      else Ok reasons
  | Ok None => Raise (KeyError "span_id")
  | Raise e => Raise e
  end.

Definition _verify_traceloom_evidence (databases : string → option Connection) (ob : Observation)
    (reasons : gset string) : res (gset string) :=
  match ob_traceloom_links ob with
  | [] => Ok reasons
  | links =>
      match databases (ob_run_id ob) with
      | None => Ok (add_reason true "traceloom_evidence_not_verified" reasons)
      | Some database =>
          match resolve_explicit_links (conn:=database) (map tl_json links) with
          | Raise (TraceLoomAdapterError _) => Ok (add_reason true "traceloom_resolution_failure" reasons)
          | Raise e => Raise e
          | Ok resolved =>
              if negb (length resolved =? length links)%nat || existsb (λ r, negb (rl_resolved r)) resolved
              then Ok (add_reason true "unsupported_or_ambiguous_traceloom_link" reasons)
              else res_foldM (check_row (ob_lifecycle_spans ob)) resolved reasons
          end
      end
  end.

(** [incident_edges[span_id]] *)
Definition incident_kinds (edges : list LifecycleEdge) (id : string) : gset string :=
  list_to_set (map le_kind (List.filter (λ e, String.eqb (le_source_span_id e) id
                                           || String.eqb (le_target_span_id e) id) edges)).

(** [supported_links[span_id]] *)
Definition supported_link_count (links : list TraceLoomLink) (id : string) : Z :=
  Z.of_nat (length (List.filter (λ l, is_supported (tl_support_state l) && String.eqb (tl_span_id l) id) links)).

Definition NUL : string := String (chr 0) "".

Definition collect_span (ob : Observation) (s : LifecycleSpan)
    (st : gmap string evidence_packet * gset string) : res (gmap string evidence_packet * gset string) :=
  let '(evidence, reasons) := st in
  let kinds := incident_kinds (ob_lifecycle_edges ob) (ls_span_id s) in
  let links := supported_link_count (ob_traceloom_links ob) (ls_span_id s) in
  match evidence !! ls_candidate_id s with
  | None => Raise (KeyError (ls_candidate_id s))
  | Some p =>
      let p := mkPacket ({[ob_run_id ob +:+ NUL +:+ ls_span_id s]} ∪ pk_span_ids p)
        ({[ls_owner s]} ∪ pk_owners p) (kinds ∪ pk_edge_kinds p) (pk_traceloom_link_count p + links) in
      Ok (<[ls_candidate_id s := p]> evidence,
          add_reason (bool_decide (kinds ∖ {["precedes"]} = ∅) && (links =? 0)) "unlinked_lifecycle_span"
            reasons)
  end.

Definition _collect_candidate_evidence (ob : Observation) (st : gmap string evidence_packet * gset string)
    : res (gmap string evidence_packet * gset string) :=
  res_foldM (collect_span ob) (ob_lifecycle_spans ob) st.

(** The body of the loop over the arms *)
Definition observe (databases : string → option Connection) (ob : Observation) (st : scoring_state)
    : res scoring_state :=
  reasons ← _verify_traceloom_evidence databases ob (status_reasons ob (ss_reasons st));
  collected ← _collect_candidate_evidence ob (ss_evidence st, reasons);
  Ok (mkScoring collected.2 collected.1
    (ss_loss_count st + es_event_loss_count (ob_evidence_status ob))).

(** ** Differences *)

Definition _candidate_totals (spans : list LifecycleSpan) : res (list (string * float)) :=
  charges ← res_mapM (λ s, x ← num_to_float (ls_accounted_duration_ms s); Ok (ls_candidate_id s, x)) spans;
  Ok (totals_of charges).

(** [totals.get(candidate, 0.0)] *)
Definition total_for (candidate : string) (totals : list (string * float)) : float :=
  default f0 (assoc candidate totals).

Definition pair_totals (p : MatchedPair) : res (list (string * float) * list (string * float)) :=
  baseline ← _candidate_totals (ob_lifecycle_spans (mp_baseline p));
  treatment ← _candidate_totals (ob_lifecycle_spans (mp_treatment p));
  Ok (baseline, treatment).

Definition pair_delta (candidate : string) (t : list (string * float) * list (string * float)) : float :=
  fsub (total_for candidate t.2) (total_for candidate t.1).

(** ** Statistics *)

Definition _nearest_rank {A} (ordered : list A) (quantile : float) : res A :=
  if is_nil ordered then Raise (ValueError "cannot select a percentile from an empty sequence")
  else
    match ordered !! Z.to_nat (Z.max 0 (fceil (fmul quantile (of_Z (Z.of_nat (length ordered)))) - 1)) with
    | Some x => Ok x
    | None => Raise IndexError
    end.

Definition _iqr (values : list float) : res float :=
  let ordered := sorted_by id values in
  upper ← _nearest_rank ordered (lit 75 100);
  lower ← _nearest_rank ordered (lit 25 100);
  Ok (fsub upper lower).

Definition _percentile_interval (values : list float) : res (float * float) :=
  let ordered := sorted_by id values in
  lower ← _nearest_rank ordered (lit 25 1000);
  upper ← _nearest_rank ordered (lit 975 1000);
  Ok (lower, upper).

(** [(-medians[a], a) < (-medians[b], b)], of pairs of a candidate and its median *)
Definition ranks_before (a b : string * float) : bool :=
  if feq (SFopp a.2) (SFopp b.2) then negb (bool_decide (String.le b.1 a.1)) else flt (SFopp a.2) (SFopp b.2).

(** [sorted(candidates, key=lambda item: (-medians[item], item))] *)
Definition ranked (medians : list (string * float)) : list (string * float) :=
  stable_sort ranks_before medians.

(** [min(candidates, key=...)] *)
Definition winner (medians : list (string * float)) : option (string * float) :=
  match medians with
  | [] => None
  | x :: l => Some (foldl (λ best y, if ranks_before y best then y else best) x l)
  end.

(** ** The bootstrap *)

(** One resample: the median of each candidate over the pairs that were drawn *)
Definition resample (pair_deltas : list (string * list float)) (indices : list nat)
    : res (list (string * float)) :=
  res_mapM (λ cv,
    picked ← res_mapM (λ index, match cv.2 !! index with Some x => Ok x | None => Raise IndexError end)
      indices;
    m ← median picked;
    Ok (cv.1, m)) pair_deltas.

(** [medians] and [top1_counts] of the bootstrap, as the resamples they are read from *)
Definition bootstrap_medians (samples : list (list (string * float))) (candidate : string) : list float :=
  omap (assoc candidate) samples.

Definition wins (candidate : string) (sample : list (string * float)) : bool :=
  match winner sample with
  | Some (c, m) => flt f0 m && String.eqb c candidate
  | None => false
  end.

Definition top1_count (samples : list (list (string * float))) (candidate : string) : Z :=
  Z.of_nat (length (List.filter (wins candidate) samples)).

Definition _bootstrap (draw : nat → nat → nat → nat) (pair_deltas : list (string * list float))
    (resamples : Z) : res (list (list (string * float))) :=
  if resamples <=? 0 then Raise (ValueError "bootstrap_resamples must be positive")
  else
    let pair_count := match pair_deltas with [] => 0%nat | (_, values) :: _ => length values end in
    if (pair_count =? 0)%nat then Raise (ValueError "at least one matched pair is required")
    else res_mapM (λ k, resample pair_deltas (map (draw pair_count k) (seq 0 pair_count)))
           (seq 0 (Z.to_nat resamples)).

(** ** Results *)

Record CandidateScore := mkCandidateScore {
  cs_candidate_id : string;
  cs_paired_deltas_ms : list float;
  cs_median_delta_ms : float;
  cs_iqr_delta_ms : float;
  cs_bootstrap_ci95_ms : float * float;
  cs_positive_delta_share : float;
  cs_top1_selection_frequency : float;
  cs_span_count : Z;
  cs_owners : list string;
  cs_edge_kinds : list string;
  cs_traceloom_link_count : Z }.

Record AttributionResult := mkAttributionResult {
  ar_schema : string;
  ar_case_id : string;
  ar_m0_status : string;
  ar_top1 : option string;
  ar_top3 : list string;
  ar_candidates : list CandidateScore;
  ar_dominance_score : float;
  ar_confidence_score : float;
  ar_unexplained_residual_share : float;
  ar_insufficient_evidence_floor_ms : float;
  ar_bootstrap_seed : Z;
  ar_bootstrap_resamples : Z;
  ar_abstained : bool;
  ar_abstain_reasons : list string;
  ar_proposed_counterfactual : option (list (string * string));
  ar_input_complete : bool;
  ar_input_event_loss_count : Z }.

(** [sorted(...)] of a set of texts *)
Definition sorted_texts (texts : gset string) : list string := merge_sort String.le (elements texts).

Definition _validate_scorer_inputs (candidate_ids : list string) (floor : number)
    (bootstrap_seed bootstrap_resamples : Z) : res unit :=
  ensure (negb (is_nil candidate_ids) && forallb (bounded_string 128) candidate_ids
          && bool_decide (NoDup candidate_ids) && str_in ABSTENTION candidate_ids
          && negb (length candidate_ids =? 1)%nat)
    (ValueError "candidate_ids must be a unique bounded vocabulary with measurable candidates and the abstention candidate") ;;
  finite ← _finite_number (JScalar (match floor with NInt n => SInt n | NFloat x => SFloat x end));
  ensure (is_some_b finite && negb (num_lt floor (NInt 0)))
    (ValueError "insufficient_evidence_floor_ms must be finite and non-negative") ;;
  ensure (bootstrap_seed =? BOOTSTRAP_SEED) (ValueError "bootstrap_seed is fixed at 2026082701") ;;
  ensure (bootstrap_resamples =? BOOTSTRAP_RESAMPLES) (ValueError "bootstrap_resamples is fixed at 10000").

(** The body of the loop over the pairs *)
Definition score_pair (databases : string → option Connection) (p : MatchedPair)
    (st : scoring_state * list (string * list float)) : res (scoring_state * list (string * list float)) :=
  state ← res_foldM (observe databases) (arms p) st.1;
  totals ← pair_totals p;
  Ok (state, map (λ cv, (cv.1, cv.2 ++ [pair_delta cv.1 totals])) st.2).

Definition measurable (candidate_ids : list string) : list string :=
  List.filter (λ c, negb (String.eqb c ABSTENTION)) candidate_ids.

Definition initial_scoring (candidates : list string) : scoring_state * list (string * list float) :=
  (mkScoring ∅ (list_to_map (map (λ c, (c, empty_packet)) candidates)) 0, map (λ c, (c, [])) candidates).

Definition score_candidate (evidence : gmap string evidence_packet) (pair_deltas : list (string * list float))
    (samples : list (list (string * float))) (positive_total : float) (resamples : Z)
    (cm : string * float) : res CandidateScore :=
  let '(candidate, m) := cm in
  match assoc candidate pair_deltas, evidence !! candidate with
  | Some values, Some packet =>
      interval ← _percentile_interval (bootstrap_medians samples candidate);
      iqr ← _iqr values;
      frequency ← int_truediv (top1_count samples candidate) resamples;
      Ok (mkCandidateScore candidate values m iqr interval (fdiv m positive_total) frequency
        (Z.of_nat (size (pk_span_ids packet))) (sorted_texts (pk_owners packet))
        (sorted_texts (pk_edge_kinds packet)) (pk_traceloom_link_count packet))
  | _, _ => Raise (KeyError candidate)
  end.

(** [if top]: no candidate, or the empty text *)
Definition has_top (top : option (string * float)) : bool :=
  match top with Some (c, _) => negb (String.eqb c "") | None => false end.

(** [scores[0].bootstrap_ci95_ms[0] <= 0.0 <= scores[0].bootstrap_ci95_ms[1]] *)
Definition crosses_zero (scores : list CandidateScore) : bool :=
  match scores with
  | s :: _ => fle (cs_bootstrap_ci95_ms s).1 f0 && fle f0 (cs_bootstrap_ci95_ms s).2
  | [] => false
  end.

(** The reasons to abstain, on top of those of the evidence *)
Definition decision_reasons (below top_named : bool) (dominance residual : float)
    (scores : list CandidateScore) (evidence_reasons : gset string) : gset string :=
  add_reason (crosses_zero scores) "top_candidate_bootstrap_ci_crosses_zero"
  (add_reason (flt (fadd MAX_RESIDUAL_SHARE (lit 1 (10 ^ 12))) residual) "excess_unexplained_residual"
  (add_reason (flt dominance MIN_DOMINANCE_SHARE) "no_single_root_cause"
  (add_reason (negb top_named) "no_positive_candidate_delta"
  (add_reason below "below_insufficient_evidence_floor" evidence_reasons)))).

(** The shares of the top candidate and of the rest *)
Definition dominance_of (top : option (string * float)) (positive_total : float) : float :=
  match top with
  | Some (c, m) =>
      if negb (String.eqb c "") && negb (feq positive_total f0) then fdiv (py_max f0 m) positive_total else f0
  | None => f0
  end.

Definition residual_of (dominance positive_total : float) : float :=
  if feq positive_total f0 then of_Z 1 else fsub (of_Z 1) dominance.

(** What is known once the pairs were read: the state of the evidence, the differences and
    their medians, in the order of the candidates *)
Record case_scores := mkCaseScores {
  sc_state : scoring_state;
  sc_pair_deltas : list (string * list float);
  sc_medians : list (string * float) }.

Definition read_pairs (databases : string → option Connection) (candidates : list string)
    (pairs : list MatchedPair) : res case_scores :=
  scored ← res_foldM (score_pair databases) pairs (initial_scoring candidates);
  medians ← res_mapM (λ cv, m ← median cv.2; Ok (cv.1, m)) scored.2;
  Ok (mkCaseScores scored.1 scored.2 medians).

(** [sum(max(0.0, value) for value in medians.values())] *)
Definition positive_total_of (medians : list (string * float)) : float :=
  fsum (map (λ cm, py_max f0 cm.2) medians).

(** The candidates whose median is positive, in their rank *)
Definition ranked_ids_of (medians : list (string * float)) : list (string * float) :=
  List.filter (λ cm, flt f0 cm.2) (ranked medians).

(** The fields of the result *)
Definition publish (case_id : string) (ranked_ids : list (string * float)) (scores : list CandidateScore)
    (dominance residual floor_ms : float) (seed resamples : Z) (state : scoring_state)
    (reasons : gset string) : AttributionResult :=
  let top := fst <$> head ranked_ids in
  let abstained := negb (bool_decide (reasons = ∅)) in
  let frequency := match scores with s :: _ => cs_top1_selection_frequency s | [] => f0 end in
  mkAttributionResult RESULT_SCHEMA case_id "NOT_M0_PROVEN" (if abstained then None else top)
    (take 3 ranked_ids.*1) scores dominance (py_min dominance frequency) residual floor_ms seed resamples
    abstained (sorted_texts reasons)
    (if abstained then None
     else (λ c, [("candidate_id", c); ("constraint", "change_only_predicted_mechanism")]) <$> top)
    (bool_decide (ss_reasons state = ∅)) (ss_loss_count state).

Section Scorer.
  (** [random.Random(seed).randrange]: the [i]-th draw below [n] in the [k]-th resample *)
  Context (draws : Z → nat → nat → nat → nat).
  Context (databases : string → option Connection).

Definition _score_validated_case (case_id : string) (pairs : list MatchedPair) (candidate_ids : list string)
    (floor : number) (bootstrap_seed bootstrap_resamples : Z) : res AttributionResult :=
  scored ← read_pairs databases (measurable candidate_ids) pairs;
  let positive_total := positive_total_of (sc_medians scored) in
  let ranked_ids := ranked_ids_of (sc_medians scored) in
  let top := head ranked_ids in
  let dominance := dominance_of top positive_total in
  let residual := residual_of dominance positive_total in
  samples ← _bootstrap (draws bootstrap_seed) (sc_pair_deltas scored) bootstrap_resamples;
  scores ← res_mapM (score_candidate (ss_evidence (sc_state scored)) (sc_pair_deltas scored) samples
                       positive_total bootstrap_resamples) ranked_ids;
  let reasons := decision_reasons (num_lt (NFloat positive_total) floor) (has_top top) dominance residual
                   scores (ss_reasons (sc_state scored)) in
  floor_ms ← num_to_float floor;
  Ok (publish case_id ranked_ids scores dominance residual floor_ms bootstrap_seed bootstrap_resamples
        (sc_state scored) reasons).

Definition score_case (frames : nat) (bundle : jdict) (candidate_ids : list string) (floor : number)
    (bootstrap_seed bootstrap_resamples : Z) : res AttributionResult :=
  _validate_scorer_inputs candidate_ids floor bootstrap_seed bootstrap_resamples ;;
  validated ← validate_case_bundle frames bundle candidate_ids;
  _score_validated_case validated.1 validated.2 candidate_ids floor bootstrap_seed bootstrap_resamples.

End Scorer.
