(* ===== verification/BlindScoringProps.v ===== *)
(** * blind_attribution.py: what a published cause rests on

    A result with a [top1] was read from evidence without a reason to abstain, and its
    cause is the candidate of the greatest paired median: [published_grounded]. *)

From Stdlib Require Import ZArith Lia Ascii String.
From Stdlib Require Import SpecFloat.
From stdpp Require Import base strings gmap sets sorting list.
From S2P Require Import Prelude PyValue Binary64 JsonValue CaseRecords SpanGraph CaseBundle TraceLoom.
From S2P Require Import BlindViews DevelopmentCase BlindScoring.

(** ** Reasons *)

Lemma add_reason_empty b s reasons : add_reason b s reasons = ∅ ↔ b = false ∧ reasons = ∅.
Proof. unfold add_reason. destruct b; [|by split; [|intros [? ?]]]. split; [set_solver|by intros [? ?]]. Qed.

Lemma no_reason s reasons : Ok (add_reason true s reasons) ≠ Ok ∅.
Proof. intros [= H]. set_solver. Qed.

Lemma existsb_negb_false {A} (p : A → bool) l :
  existsb (λ x, negb (p x)) l = false ↔ Forall (λ x, p x = true) l.
Proof.
  induction l as [|x l IH]; simpl; [by split|].
  by rewrite orb_false_iff, negb_false_iff, Forall_cons, IH.
Qed.

(** ** Evidence without a reason *)

(** A row that the resolver returned for a span: it has a lineage, and on a device an
    occurrence of the span's interval whose cost covers what the span accounts for *)
Definition row_supports (spans : list LifecycleSpan) (r : resolved_link) : Prop :=
  rl_resolved r = true ∧ rl_source_lineage r ≠ [] ∧
  ∃ s, span_record spans (jget "span_id" (rl_link r)) = Ok (Some s) ∧
    (is_device (ls_clock_domain s) = true → ∃ o, rl_tree_occurrence r = Some o ∧
      json_eq (to_start_ns o) (JInt (ls_start_ns s)) = true ∧
      json_eq (to_end_ns o) (JInt (ls_end_ns s)) = true ∧ cost_covers s (to_total_us o) = Ok true).

(** The links were resolved in the database of the run, all of them. *)
Definition links_verified (databases : string → option Connection) (ob : Observation) : Prop :=
  ob_traceloom_links ob = [] ∨
  ∃ database rows, databases (ob_run_id ob) = Some database ∧
    resolve_explicit_links (conn:=database) (map tl_json (ob_traceloom_links ob)) = Ok rows ∧
    length rows = length (ob_traceloom_links ob) ∧ Forall (row_supports (ob_lifecycle_spans ob)) rows.

(** The span has an edge that is not mere precedence, or a supported link. *)
Definition linked (ob : Observation) (s : LifecycleSpan) : Prop :=
  (∃ e, e ∈ ob_lifecycle_edges ob ∧ le_kind e ≠ "precedes" ∧
        (le_source_span_id e = ls_span_id s ∨ le_target_span_id e = ls_span_id s)) ∨
  (∃ l, l ∈ ob_traceloom_links ob ∧ tl_span_id l = ls_span_id s ∧ is_supported (tl_support_state l) = true).

Record clean_observation (databases : string → option Connection) (ob : Observation) : Prop := mkClean {
  clean_status : es_identity_complete (ob_evidence_status ob) = true ∧
    es_event_loss_count (ob_evidence_status ob) = 0 ∧
    es_clock_ambiguous (ob_evidence_status ob) = false ∧
    es_configuration_matched (ob_evidence_status ob) = true;
  clean_support : Forall (λ e, is_supported (ne_support_state e) = true) (ob_normalized_events ob) ∧
    Forall (λ s, is_supported (ls_support_state s) = true) (ob_lifecycle_spans ob) ∧
    Forall (λ l, is_supported (tl_support_state l) = true) (ob_traceloom_links ob);
  clean_links : links_verified databases ob;
  clean_spans : Forall (linked ob) (ob_lifecycle_spans ob) }.

Lemma check_row_clean spans r reasons :
  rl_resolved r = true → check_row spans r reasons = Ok ∅ → reasons = ∅ ∧ row_supports spans r.
Proof.
  unfold check_row, row_supports. intros Hr H.
  destruct (span_record spans _) as [[s|]|] eqn:Es; try done.
  assert (∀ R, add_reason (is_nil (rl_source_lineage r)) "traceloom_resolution_failure" reasons = R →
    R = ∅ → reasons = ∅ ∧ rl_source_lineage r ≠ []) as Hl.
  { intros R <- [Hn ?]%add_reason_empty. split; [done|]. by destruct (rl_source_lineage r). }
  destruct (is_device (ls_clock_domain s)) eqn:Ed.
  - destruct (rl_tree_occurrence r) as [o|]; [|by apply no_reason in H].
    apply bind_ok in H as (covers & Hc & H).
    injection H as [Hcov [[Hs He]%negb_false_iff%andb_true_iff H]%add_reason_empty]%add_reason_empty.
    apply negb_false_iff in Hcov as ->. destruct (Hl _ eq_refl H) as [? ?]. split_and!; try done.
    exists s. split; [done|]. intros _. by exists o.
  - injection H as H. destruct (Hl _ eq_refl H) as [? ?]. split_and!; try done.
    exists s. split; [done|]. by rewrite Ed.
Qed.

Lemma verify_clean databases ob reasons :
  _verify_traceloom_evidence databases ob reasons = Ok ∅ → reasons = ∅ ∧ links_verified databases ob.
Proof.
  unfold _verify_traceloom_evidence, links_verified. intros H.
  destruct (ob_traceloom_links ob) as [|l ls] eqn:El; [injection H as ->; by split; [|left]|].
  rewrite <- El in *. destruct (databases _) as [database|]; [|by apply no_reason in H].
  destruct (resolve_explicit_links _) as [rows|[]] eqn:Er; try done; [|by apply no_reason in H].
  destruct (_ || _) eqn:Ec; [by apply no_reason in H|].
  apply orb_false_iff in Ec as [Hn%negb_false_iff%Nat.eqb_eq Hr%existsb_negb_false].
  assert (∀ rows reasons, Forall (λ r, rl_resolved r = true) rows →
    res_foldM (check_row (ob_lifecycle_spans ob)) rows reasons = Ok ∅ →
    reasons = ∅ ∧ Forall (row_supports (ob_lifecycle_spans ob)) rows) as Hf.
  { clear. intros rows. induction rows as [|r rows IH]; intros reasons Hr H; cbn [res_foldM] in H.
    - injection H as ->. split; [done|constructor].
    - apply Forall_cons in Hr as [Hr Hrs]. apply bind_ok in H as (mid & Hc & H).
      destruct (IH _ Hrs H) as [-> Hs]. destruct (check_row_clean _ _ _ Hr Hc) as [-> Hrow].
      split; [done|by constructor]. }
  destruct (Hf _ _ Hr H) as [-> Hs]. split; [done|]. right. by exists database, rows.
Qed.

Lemma incident_linked edges id :
  ¬ incident_kinds edges id ⊆ {["precedes"]} →
  ∃ e, e ∈ edges ∧ le_kind e ≠ "precedes" ∧ (le_source_span_id e = id ∨ le_target_span_id e = id).
Proof.
  intros Hn. destruct (set_choose_or_empty (incident_kinds edges id ∖ {["precedes"]})) as [(k & Hk)|Hno].
  - unfold incident_kinds in Hk. apply elem_of_difference in Hk as [Hk Hp].
    apply elem_of_list_to_set, list_elem_of_fmap in Hk as (e & -> & He).
    apply list_elem_of_In, filter_In in He as [He%list_elem_of_In Hid]. exists e. split; [done|].
    split; [set_solver|]. apply orb_true_iff in Hid as [?%String.eqb_eq|?%String.eqb_eq]; auto.
  - destruct Hn. intros k Hk. apply dec_stable. set_solver.
Qed.

Lemma collect_span_clean ob s st st' :
  collect_span ob s st = Ok st' → st'.2 = ∅ → st.2 = ∅ ∧ linked ob s.
Proof.
  unfold collect_span. destruct st as [evidence reasons]. destruct (evidence !! _) as [p|]; [|done].
  intros [= <-] [Hb ->]%add_reason_empty. split; [done|]. unfold linked.
  apply andb_false_iff in Hb as [Hk%bool_decide_eq_false|Hl%Z.eqb_neq].
  - left. apply incident_linked. set_solver.
  - right. unfold supported_link_count in Hl.
    destruct (List.filter _ _) as [|l ls] eqn:E; [done|].
    assert (l ∈ l :: ls) as Hin by left. rewrite <- E in Hin.
    apply list_elem_of_In, filter_In in Hin as [Hin%list_elem_of_In [Hs Hid%String.eqb_eq]%andb_true_iff].
    by exists l.
Qed.

Lemma status_reasons_clean ob reasons :
  status_reasons ob reasons = ∅ →
  reasons = ∅ ∧
  (es_identity_complete (ob_evidence_status ob) = true ∧
    es_event_loss_count (ob_evidence_status ob) = 0 ∧
    es_clock_ambiguous (ob_evidence_status ob) = false ∧
    es_configuration_matched (ob_evidence_status ob) = true) ∧
  Forall (λ e, is_supported (ne_support_state e) = true) (ob_normalized_events ob) ∧
  Forall (λ s, is_supported (ls_support_state s) = true) (ob_lifecycle_spans ob) ∧
  Forall (λ l, is_supported (tl_support_state l) = true) (ob_traceloom_links ob).
Proof.
  unfold status_reasons. intros H. repeat (apply add_reason_empty in H as [? H]). bool_prop.
  by rewrite !existsb_negb_false in *.
Qed.

Lemma observe_clean databases ob st st' :
  observe databases ob st = Ok st' → ss_reasons st' = ∅ → ss_reasons st = ∅ ∧ clean_observation databases ob.
Proof.
  unfold observe. intros H Hr. apply bind_ok in H as (reasons & Hv & H).
  apply bind_ok in H as ([evidence last] & Hc & H). injection H as <-. simpl in Hr. subst last.
  unfold _collect_candidate_evidence in Hc.
  apply (res_foldM_back _ (λ st, st.2 = ∅) (linked ob)) in Hc as [Hreasons Hspans];
    [|intros ???; apply collect_span_clean|done].
  simpl in Hreasons. subst reasons. apply verify_clean in Hv as [Hs Hl].
  apply status_reasons_clean in Hs as (? & ? & ?). split; [done|by constructor].
Qed.

Definition clean_pair (databases : string → option Connection) (p : MatchedPair) : Prop :=
  Forall (clean_observation databases) (arms p).

Lemma pairs_clean databases pairs st st' :
  res_foldM (score_pair databases) pairs st = Ok st' → ss_reasons st'.1 = ∅ → Forall (clean_pair databases) pairs.
Proof.
  intros H Hr. apply (res_foldM_back _ (λ st, ss_reasons st.1 = ∅) (clean_pair databases)) in H as [_ H]; try done.
  clear. intros p a b H Hr. unfold score_pair in H. apply bind_ok in H as (s & Hs & H).
  apply bind_ok in H as (t & _ & H). injection H as <-. simpl in Hr.
  by apply (res_foldM_back _ (λ s, ss_reasons s = ∅) (clean_observation databases)) in Hs;
    [|intros ???; apply observe_clean|].
Qed.

(** ** Differences *)

Lemma pair_deltas_spec databases pairs st st' :
  res_foldM (score_pair databases) pairs st = Ok st' →
  ∃ totals, res_mapM pair_totals pairs = Ok totals ∧
    st'.2 = map (λ cv, (cv.1, cv.2 ++ map (pair_delta cv.1) totals)) st.2.
Proof.
  revert st. induction pairs as [|p pairs IH]; intros st H; cbn [res_foldM res_mapM] in *.
  - injection H as <-. exists []. split; [done|]. symmetry. etrans; [|apply map_id].
    apply map_ext. intros [c v]. simpl. by rewrite app_nil_r.
  - apply bind_ok in H as (mid & Hp & H). apply IH in H as (totals & Ht & ->).
    unfold score_pair in Hp. apply bind_ok in Hp as (s & _ & Hp). apply bind_ok in Hp as (t & Hpt & Hp).
    injection Hp as <-. exists (t :: totals). rewrite Hpt. simpl. rewrite Ht. split; [done|].
    rewrite map_map. apply map_ext. intros [c v]. simpl. by rewrite <- app_assoc.
Qed.

(** The medians of the candidates, in their order *)
Lemma read_pairs_spec databases candidates pairs sc :
  read_pairs databases candidates pairs = Ok sc →
  ∃ totals, res_mapM pair_totals pairs = Ok totals ∧
    sc_pair_deltas sc = map (λ c, (c, map (pair_delta c) totals)) candidates ∧
    Forall2 (λ c cm, cm.1 = c ∧ median (map (pair_delta c) totals) = Ok cm.2) candidates (sc_medians sc) ∧
    (ss_reasons (sc_state sc) = ∅ → Forall (clean_pair databases) pairs).
Proof.
  unfold read_pairs. intros H. apply bind_ok in H as ([st deltas] & Hs & H).
  apply bind_ok in H as (medians & Hm & H). injection H as <-. simpl in *.
  pose proof (pair_deltas_spec _ _ _ _ Hs) as (totals & Ht & Hd). simpl in Hd. rewrite map_map in Hd.
  simpl in Hd. subst deltas. exists totals. split_and!; try done.
  - apply res_mapM_ok in Hm. clear Hs. revert medians Hm.
    induction candidates as [|c l IH]; intros medians Hm; simpl in Hm; inversion Hm; subst; constructor; [|auto].
    match goal with H : (_ ≫= _) = _ |- _ => apply bind_ok in H as (m & Hmed & H); injection H as <- end. done.
  - intros Hr. by eapply pairs_clean.
Qed.

(** ** The ranking *)

Lemma ranks_before_spec a b :
  is_nan a.2 = false → is_nan b.2 = false →
  ranks_before a b = true ↔
  lex_lt (rank_of b.2) (rank_of a.2) ∨ (rank_of a.2 = rank_of b.2 ∧ ¬ String.le b.1 a.1).
Proof.
  intros Ha Hb. unfold ranks_before, feq, flt, SFeqb, SFltb. rewrite compare_opp.
  pose proof (compare_rank b.2 a.2 Hb Ha) as Hc. unfold lex_lt in *.
  destruct (SFcompare b.2 a.2) as [[]|]; try done; simpl.
  - rewrite Hc, negb_true_iff, bool_decide_eq_false. split; [by right|]. intros [?|[_ ?]]; [lia|done].
  - split; [by left|done].
  - split; [done|]. intros [?|[E _]]; [lia|]. rewrite E in Hc. lia.
Qed.

Lemma ranks_before_irrefl a : is_nan a.2 = false → ranks_before a a = false.
Proof.
  intros Ha. apply not_true_iff_false. rewrite ranks_before_spec by done. unfold lex_lt.
  intros [?|[_ []]]; [lia|done].
Qed.

Lemma ranks_before_trans a b c :
  is_nan a.2 = false → is_nan b.2 = false → is_nan c.2 = false →
  ranks_before a b = true → ranks_before b c = true → ranks_before a c = true.
Proof.
  intros Ha Hb Hc. rewrite !ranks_before_spec by done. unfold lex_lt.
  intros [H1|[E1 H1]] [H2|[E2 H2]]; [left; lia|left; rewrite <- E2; lia|left; rewrite E1; lia|].
  right. rewrite E1, E2. split; [done|]. intros Hle. destruct (total String.le b.1 a.1) as [|Hab]; [done|].
  apply H2. by transitivity (a.1).
Qed.

Definition no_nan (l : list (string * float)) : Prop := Forall (λ cm, is_nan cm.2 = false) l.

(** The first of the list ranks before every other. *)
Definition head_first (l : list (string * float)) : Prop :=
  ∀ h, head l = Some h → ∀ y, y ∈ l → ranks_before y h = false.

Lemma insert_ranked_first x l : no_nan (x :: l) → head_first l → head_first (insert_before ranks_before x l).
Proof.
  intros [Hx Hl]%Forall_cons Hf h Hh y. destruct l as [|z l]; simpl in *.
  { injection Hh as <-. rewrite list_elem_of_singleton. intros ->. by apply ranks_before_irrefl. }
  pose proof (proj1 (Forall_forall _ _) Hl) as Hn.
  destruct (ranks_before x z) eqn:E; simpl in Hh; injection Hh as <-; intros [->|Hy]%elem_of_cons.
  - by apply ranks_before_irrefl.
  - apply not_true_iff_false. intros Hb.
    pose proof (Hf z eq_refl y Hy) as Hz. rewrite (ranks_before_trans y x z) in Hz; try done.
    + by apply Hn.
    + apply Hn. by left.
  - apply ranks_before_irrefl, Hn. by left.
  - rewrite insert_before_Permutation in Hy. apply elem_of_cons in Hy as [->|Hy]; [done|].
    apply Hf; [done|]. by right.
Qed.

Lemma ranked_spec l : ranked l ≡ₚ l ∧ (no_nan l → head_first (ranked l)).
Proof.
  split; [apply stable_sort_Permutation|]. unfold ranked, stable_sort.
  assert (∀ acc, no_nan (acc ++ l) → head_first acc →
    head_first (foldl (λ acc x, insert_before ranks_before x acc) acc l)) as H; [|intros Hn; by apply H].
  induction l as [|x l IH]; intros acc Hn Hacc; simpl; [done|]. apply IH.
  - unfold no_nan in *. rewrite insert_before_Permutation. simpl. by rewrite Permutation_middle.
  - apply insert_ranked_first; [|done]. unfold no_nan in *. rewrite Forall_app, Forall_cons in Hn.
    constructor; naive_solver.
Qed.

Lemma filter_head {A} (p : A → bool) l x :
  head (List.filter p l) = Some x → x ∈ l ∧ p x = true ∧ (∀ h, head l = Some h → h = x ∨ p h = false).
Proof.
  intros H. destruct (List.filter p l) as [|y r] eqn:E; [done|]. injection H as ->.
  assert (x ∈ x :: r) as Hx by left. rewrite <- E in Hx. apply list_elem_of_In, filter_In in Hx as [Hx Hp].
  split; [by apply list_elem_of_In|]. split; [done|]. intros h Hh. destruct l as [|z l]; [done|].
  injection Hh as ->. simpl in E. destruct (p h) eqn:Ep; [left; by injection E as ->|by right].
Qed.

(** The first of the ranked candidates has the greatest median, and the least name of
    the candidates that share it. *)
Lemma top_greatest medians x :
  no_nan medians → head (ranked_ids_of medians) = Some x →
  x ∈ medians ∧ flt f0 x.2 = true ∧
  ∀ y, y ∈ medians → fle y.2 x.2 = true ∧ (feq y.2 x.2 = true → String.le x.1 y.1).
Proof.
  intros Hn H. destruct (ranked_spec medians) as [Hp Hf]. specialize (Hf Hn).
  unfold ranked_ids_of in H. apply filter_head in H as (Hx & Hpos & Hhead). rewrite Hp in Hx.
  split; [done|]. split; [done|]. pose proof (proj1 (Forall_forall _ _) Hn) as Hnan.
  assert (∀ y, y ∈ medians → ranks_before y x = false) as Hmin.
  { destruct (ranked medians) as [|h r] eqn:E; [by rewrite <- Hp in Hx; apply not_elem_of_nil in Hx|].
    destruct (Hhead h eq_refl) as [->|Hneg].
    - intros y Hy. apply (Hf x eq_refl). by rewrite Hp.
    - intros y Hy. exfalso. assert (h ∈ medians) as Hh by (rewrite <- Hp; left).
      assert (x ∈ h :: r) as Hxr by by rewrite Hp.
      pose proof (Hf h eq_refl x Hxr) as Hb. apply not_true_iff_false in Hb. apply Hb.
      apply ranks_before_spec; [by apply Hnan..|]. left. apply flt_rank; [by apply Hnan..|].
      apply (fle_flt_trans _ f0); [|done]. apply not_flt_fle; [done|by apply Hnan|done]. }
  intros y Hy. pose proof (Hmin y Hy) as Hb. apply not_true_iff_false in Hb.
  rewrite ranks_before_spec in Hb by by apply Hnan. split.
  - apply fle_rank; [by apply Hnan..|]. tauto.
  - intros [H1 H2]%feq_fle. apply fle_rank in H1, H2; [|by apply Hnan..]. apply dec_stable.
    intros Hle. apply Hb. right. split; [|done].
    destruct (rank_of x.2) as [[? ?] ?], (rank_of y.2) as [[? ?] ?]. unfold lex_lt in *. simpl in *.
    f_equal; [f_equal|]; lia.
Qed.

(** ** What is published *)

Lemma assoc_graph {A} (f : string → A) l c v : assoc c (map (λ c, (c, f c)) l) = Some v → v = f c.
Proof.
  induction l as [|x l IH]; simpl; [done|]. destruct (String.eqb x c) eqn:E; [|done].
  apply String.eqb_eq in E as ->. by intros [= <-].
Qed.

Lemma decision_reasons_empty below is_named dominance residual scores reasons :
  decision_reasons below is_named dominance residual scores reasons = ∅ →
  reasons = ∅ ∧ is_named = true ∧ flt dominance MIN_DOMINANCE_SHARE = false ∧
  flt (fadd MAX_RESIDUAL_SHARE (lit 1 (10 ^ 12))) residual = false ∧ crosses_zero scores = false.
Proof.
  unfold decision_reasons. intros H. repeat (apply add_reason_empty in H as [? H]).
  rewrite negb_false_iff in *. by split_and!.
Qed.

Lemma score_candidate_ok evidence pair_deltas samples total n cm s :
  score_candidate evidence pair_deltas samples total n cm = Ok s →
  cs_candidate_id s = cm.1 ∧ cs_median_delta_ms s = cm.2 ∧
  assoc cm.1 pair_deltas = Some (cs_paired_deltas_ms s) ∧
  _percentile_interval (bootstrap_medians samples cm.1) = Ok (cs_bootstrap_ci95_ms s).
Proof.
  unfold score_candidate. destruct cm as [c m], (assoc c pair_deltas) as [values|] eqn:E,
    (evidence !! c) as [packet|]; try done.
  intros H. apply bind_ok in H as (interval & Hi & H). apply bind_ok in H as (iqr & _ & H).
  apply bind_ok in H as (frequency & _ & H). by injection H as <-.
Qed.

Lemma publish_top case_id ranked_ids scores dominance residual floor_ms seed n state reasons top :
  ar_top1 (publish case_id ranked_ids scores dominance residual floor_ms seed n state reasons) = Some top →
  reasons = ∅ ∧ ∃ m rest, ranked_ids = (top, m) :: rest.
Proof.
  unfold publish. cbn [ar_top1]. case_bool_decide as E; [|done]. simpl.
  destruct ranked_ids as [|[c m] rest]; [done|]. intros [= ->]. split; [done|]. by exists m, rest.
Qed.

Lemma measurable_spec candidate_ids c : c ∈ measurable candidate_ids ↔ c ∈ candidate_ids ∧ c ≠ ABSTENTION.
Proof.
  unfold measurable. rewrite list_elem_of_In, filter_In, <- list_elem_of_In.
  by rewrite negb_true_iff, String.eqb_neq.
Qed.

Lemma medians_elem (f : string → res float) candidates medians c m :
  Forall2 (λ c cm, cm.1 = c ∧ f c = Ok cm.2) candidates medians →
  (c, m) ∈ medians ↔ c ∈ candidates ∧ f c = Ok m.
Proof.
  induction 1 as [|x [c' m'] l ms [Hc Hm] _ IH]; simpl in *.
  - split; [by intros ?%not_elem_of_nil|by intros [?%not_elem_of_nil _]].
  - subst c'. rewrite !elem_of_cons, IH. split.
    + intros [[= -> ->]|[? ?]]; auto.
    + intros [[->|?] Hf]; [|by right]. left. congruence.
Qed.

Lemma ranked_head medians c m rest :
  ranked_ids_of medians = (c, m) :: rest → (c, m) ∈ medians ∧ flt f0 m = true.
Proof.
  intros H. destruct (filter_head (λ cm, flt f0 cm.2) (ranked medians) (c, m)) as (Hx & Hpos & _).
  - unfold ranked_ids_of in H. by rewrite H.
  - by rewrite (proj1 (ranked_spec medians)) in Hx.
Qed.

(** The medians of the candidates, none of which is NaN *)
Definition medians_ordered (candidates : list string)
    (totals : list (list (string * float) * list (string * float))) : Prop :=
  ∀ c m, c ∈ candidates → median (map (pair_delta c) totals) = Ok m → is_nan m = false.

(** A comparison of the decision that does not fail: the limit is kept, or there is no
    order to fail in. *)
Lemma limit_kept x y : is_nan y = false → flt x y = false → is_nan x = true ∨ fle y x = true.
Proof. intros Hy H. destruct (is_nan x) eqn:E; [by left|right]. by apply not_flt_fle. Qed.

Lemma limit_kept_above x y : is_nan x = false → flt x y = false → is_nan y = true ∨ fle y x = true.
Proof. intros Hx H. destruct (is_nan y) eqn:E; [by left|right]. by apply not_flt_fle. Qed.

(** C26. A scored case that names a [top1] rests on clean evidence: in both arms of every
    pair the identities are complete, no event was lost, the clock and the configuration
    are sound, every event, span and link is supported, the links were all resolved in the
    run's database with costs that cover the device spans, and every span is linked.  The
    cause is a candidate other than the abstention; its score holds the differences of the
    pairs and their median, which is positive, and its bootstrap interval does not contain
    zero.  The dominance share is at least its limit and the residual share at most its
    limit, each unless it is NaN, which the code's comparisons let pass (a share of
    infinite medians).  If no candidate's median is NaN, no other candidate has a greater
    median, and among those with the same median the cause has the least name. *)
Theorem published_grounded draws databases case_id pairs candidate_ids floor seed n r top :
  _score_validated_case draws databases case_id pairs candidate_ids floor seed n = Ok r →
  ar_top1 r = Some top →
  Forall (clean_pair databases) pairs ∧ top ∈ candidate_ids ∧ top ≠ ABSTENTION ∧
  (is_nan (ar_dominance_score r) = true ∨ fle MIN_DOMINANCE_SHARE (ar_dominance_score r) = true) ∧
  (is_nan (ar_unexplained_residual_share r) = true ∨
   fle (ar_unexplained_residual_share r) (fadd MAX_RESIDUAL_SHARE (lit 1 (10 ^ 12))) = true) ∧
  ∃ totals s rest,
    res_mapM pair_totals pairs = Ok totals ∧ ar_candidates r = s :: rest ∧ cs_candidate_id s = top ∧
    cs_paired_deltas_ms s = map (pair_delta top) totals ∧
    median (map (pair_delta top) totals) = Ok (cs_median_delta_ms s) ∧
    flt f0 (cs_median_delta_ms s) = true ∧
    fle (cs_bootstrap_ci95_ms s).1 f0 && fle f0 (cs_bootstrap_ci95_ms s).2 = false ∧
    (medians_ordered (measurable candidate_ids) totals →
     ∀ c m, c ∈ candidate_ids → c ≠ ABSTENTION → median (map (pair_delta c) totals) = Ok m →
       fle m (cs_median_delta_ms s) = true ∧ (feq m (cs_median_delta_ms s) = true → String.le top c)).
Proof.
  unfold _score_validated_case. intros H Htop.
  apply bind_ok in H as (sc & Hsc & H). apply bind_ok in H as (samples & _ & H).
  apply bind_ok in H as (scores & Hs & H). apply bind_ok in H as (floor_ms & _ & H). injection H as <-.
  apply publish_top in Htop as (Hr & m & rest & Hrank).
  apply decision_reasons_empty in Hr as (Hreasons & _ & Hdom & Hres & Hci).
  apply limit_kept in Hdom; [|by vm_compute]. apply limit_kept_above in Hres; [|by vm_compute].
  apply read_pairs_spec in Hsc as (totals & Ht & Hdeltas & Hmed & Hclean).
  rewrite Hrank in Hs |- *. cbn [publish ar_dominance_score ar_unexplained_residual_share ar_candidates head] in *.
  apply res_mapM_ok in Hs. inversion Hs as [|? s ? srest Hscore Hrest]; subst.
  apply score_candidate_ok in Hscore as (Hid & Hmm & Hd & _). simpl in Hid, Hmm, Hd.
  rewrite Hdeltas in Hd. apply assoc_graph in Hd.
  assert (∀ c m, (c, m) ∈ sc_medians sc ↔ c ∈ measurable candidate_ids ∧ median (map (pair_delta c) totals) = Ok m)
    as Hin by exact (λ c m, medians_elem _ _ _ c m Hmed).
  assert ((top, m) ∈ sc_medians sc ∧ flt f0 m = true) as [Htm Hpos] by by eapply ranked_head.
  apply Hin in Htm as [Hmeas Hm]. apply measurable_spec in Hmeas as [Hc Hne].
  rewrite Hrank in Hdom, Hres. split_and!; [by apply Hclean|assumption..|].
  exists totals, s, srest. rewrite Hmm. split_and!; try assumption; [reflexivity|].
  intros Hno c m' Hc' Hne' Hm'.
  destruct (top_greatest (sc_medians sc) (top, m)) as (_ & _ & Hgreat).
  - apply Forall_forall. intros [c1 m1] [??]%Hin. by apply (Hno c1).
  - by rewrite Hrank.
  - exact (Hgreat (c, m') (proj2 (Hin c m') (conj (proj2 (measurable_spec _ _) (conj Hc' Hne')) Hm'))).
Qed.

(** Draws that are in range, for the example below *)
Definition strided_draws (seed : Z) (n k i : nat) : nat := (k + k * i) `mod` n.

Definition development_result : res (list MatchedPair * AttributionResult) :=
  validated ← validate_case_bundle 100 development_case candidate_vocabulary;
  r ← _score_validated_case strided_draws (λ _, None) validated.1 validated.2 candidate_vocabulary
        (NInt 5) BOOTSTRAP_SEED 4;
  Ok (validated.2, r).

Lemma published_grounded_witness :
  ∃ pairs r, development_result = Ok (pairs, r) ∧ ar_top1 r = Some "queue_or_admission" ∧
    Forall (clean_pair (λ _, None)) pairs ∧ "queue_or_admission" ≠ ABSTENTION.
Proof.
  assert (∃ pairs r, development_result = Ok (pairs, r) ∧ ar_top1 r = Some "queue_or_admission")
    as (pairs & r & Hr & Htop) by (eexists _, _; split; vm_compute; reflexivity).
  exists pairs, r. split; [exact Hr|]. split; [exact Htop|]. unfold development_result in Hr. revert Hr Htop.
  generalize strided_draws candidate_vocabulary development_case (NInt 5) BOOTSTRAP_SEED 4.
  intros draws ids case floor seed n Hr Htop.
  apply bind_ok in Hr as ([case_id pairs'] & _ & Hr). apply bind_ok in Hr as (r' & Hr & E).
  injection E as <- <-.
  destruct (published_grounded _ _ _ _ _ _ _ _ _ _ Hr Htop) as (Hc & _ & Hne & _).
  split; assumption.
Defined.
