(* ===== verification/BlindResult.v ===== *)
(** * blind_attribution.py: the recheck of a result before it is written

    [write_locked_method_result] validates a result, whichever diagnosis method made it,
    and creates its file; [check_method_result] is all of it but the file.  The parser of
    timestamps is an argument: it differs between the versions of Python in use.

    What an accepted result satisfies: [method_result_sound]. *)

From Stdlib Require Import ZArith Lia Ascii String.
From stdpp Require Import base strings gmap sets sorting list.
From S2P Require Import Prelude PyValue Binary64 JsonValue CaseRecords CaseBundle BlindViews BlindScoring.
From S2P Require Import CaseBundleProps DevelopmentCase.

(** ** Numbers of both types *)

Definition num_add (a b : number) : res number :=
  match a, b with
  | NInt a, NInt b => Ok (NInt (a + b))
  | _, _ => x ← num_to_float a; y ← num_to_float b; Ok (NFloat (fadd x y))
  end.

Definition num_sub (a b : number) : res number :=
  match a, b with
  | NInt a, NInt b => Ok (NInt (a - b))
  | _, _ => x ← num_to_float a; y ← num_to_float b; Ok (NFloat (fsub x y))
  end.

(** [n / 2] *)
Definition num_half (n : number) : res number :=
  match n with
  | NInt n => x ← int_truediv n 2; Ok (NFloat x)
  | NFloat x => Ok (NFloat (fdiv x (of_Z 2)))
  end.

Definition sorted_numbers (l : list number) : list number := stable_sort num_lt l.

(** [sum(...)] *)
Definition num_sum (l : list number) : res number := res_foldM (λ x acc, num_add acc x) l (NInt 0).

(** [statistics.median] *)
Definition num_median (values : list number) : res number :=
  let d := sorted_numbers values in
  let n := length d in
  if (n =? 0)%nat then Raise (ValueError "no median for empty data")
  else if Nat.odd n then Ok (nth (n / 2) d (NInt 0))
  else total ← num_add (nth (n / 2 - 1) d (NInt 0)) (nth (n / 2) d (NInt 0)); num_half total.

(** [_iqr] *)
Definition num_iqr (values : list number) : res number :=
  let ordered := sorted_numbers values in
  upper ← _nearest_rank ordered (lit 75 100);
  lower ← _nearest_rank ordered (lit 25 100);
  num_sub upper lower.

Definition BILLIONTH : float := lit 1 (10 ^ 9).

(** [math.isclose(a, b, abs_tol=1e-9)], with the default relative tolerance of [1e-9] *)
Definition isclose (a b : number) : res bool :=
  x ← num_to_float a;
  y ← num_to_float b;
  Ok (feq x y
      || is_finite x && is_finite y
         && (let diff := fabs (fsub y x) in
             fle diff (fabs (fmul BILLIONTH y)) || fle diff (fabs (fmul BILLIONTH x)) || fle diff BILLIONTH)).

(** ** Fields *)

(** A finite number, or the error of the field *)
Definition finite_or (msg : string) (v : json) : res number :=
  n ← _finite_number v;
  match n with Some n => Ok n | None => invalid msg end.

Definition in_unit (n : number) : bool := negb (num_lt n (NInt 0)) && negb (num_lt (NInt 1) n).

(** The numbers are not NaN here, so that [0 <= x] is [not x < 0]. *)
Definition unit_field (where_ : string) (d : jdict) (key : string) : res number :=
  let msg := where_ +:+ "." +:+ key +:+ " must be in [0, 1]" in
  n ← finite_or msg (jget key d);
  require (in_unit n) msg ;;
  Ok n.

Definition nonnegative_field (where_ : string) (d : jdict) (key : string) : res number :=
  let msg := where_ +:+ "." +:+ key +:+ " must be non-negative" in
  n ← finite_or msg (jget key d);
  require (negb (num_lt n (NInt 0))) msg ;;
  Ok n.

(** A list of bounded texts without a duplicate *)
Definition texts_field (limit : Z) (v : json) (bad duplicates : string) : res (list string) :=
  l ← as_list v bad;
  texts ← res_mapM (λ v, as_text limit v bad) l;
  require (bool_decide (NoDup texts)) duplicates ;;
  Ok texts.

(** ** The score of a candidate *)

(** What the checks of the result read in a score *)
Record method_score := mkMethodScore {
  ms_candidate_id : string;
  ms_paired_deltas_ms : list number;
  ms_positive_delta_share : number }.

Definition SCORE_KEYS :=
  ["candidate_id"; "paired_deltas_ms"; "median_delta_ms"; "iqr_delta_ms"; "bootstrap_ci95_ms";
   "positive_delta_share"; "top1_selection_frequency"; "span_count"; "owners"; "edge_kinds";
   "traceloom_link_count"].

Definition check_interval (where_ : string) (v : json) : res unit :=
  let msg := where_ +:+ ".bootstrap_ci95_ms is invalid" in
  l ← as_list v msg;
  match l with
  | [lower; upper] =>
      lower ← finite_or msg lower;
      upper ← finite_or msg upper;
      require (negb (num_lt upper lower)) msg
  | _ => invalid msg
  end.

(** [float(value)] close to what the deltas give *)
Definition check_close (value expected : number) (msg : string) : res unit :=
  x ← num_to_float value;
  close ← isclose (NFloat x) expected;
  require close msg.

Definition check_evidence (where_ : string) (d : jdict) : res unit :=
  span_count ← count_field where_ d "span_count";
  link_count ← count_field where_ d "traceloom_link_count";
  require (negb (span_count =? 0)) (where_ +:+ ".span_count must be positive") ;;
  owners ← texts_field 128 (jget "owners" d) (where_ +:+ ".owners is invalid")
    (where_ +:+ ".owners contains duplicates");
  kinds ← texts_field 128 (jget "edge_kinds" d) (where_ +:+ ".edge_kinds is invalid")
    (where_ +:+ ".edge_kinds contains duplicates");
  require (negb (is_nil owners)) (where_ +:+ ".owners must not be empty") ;;
  require (forallb (λ k, str_in k _EDGE_KINDS) kinds) (where_ +:+ ".edge_kinds is unsupported") ;;
  require (existsb (λ k, negb (String.eqb k "precedes")) kinds || negb (link_count =? 0))
    (where_ +:+ " lacks causal or ownership evidence").

Definition _validate_candidate_score (allowed : list string) (index : nat) (score : json) : res method_score :=
  let where_ := index_of "method_result.candidates" index in
  d ← as_object score (where_ +:+ " must be an object");
  _exact_keys d SCORE_KEYS where_ [] ;;
  let outside := where_ +:+ ".candidate_id is outside the vocabulary" in
  candidate ← as_text 128 (jget "candidate_id" d) outside;
  require (str_in candidate allowed) outside ;;
  let bad := where_ +:+ ".paired_deltas_ms is invalid" in
  items ← as_list (jget "paired_deltas_ms" d) bad;
  require (5 <=? Z.of_nat (length items)) bad ;;
  deltas ← res_mapM (finite_or bad) items;
  check_interval where_ (jget "bootstrap_ci95_ms" d) ;;
  m ← finite_or (where_ +:+ ".median_delta_ms must be finite") (jget "median_delta_ms" d);
  iqr ← finite_or (where_ +:+ ".iqr_delta_ms must be finite") (jget "iqr_delta_ms" d);
  require (num_lt (NInt 0) m) (where_ +:+ ".median_delta_ms must be positive") ;;
  require (negb (num_lt iqr (NInt 0))) (where_ +:+ ".iqr_delta_ms must be non-negative") ;;
  expected ← num_median deltas;
  check_close m expected (where_ +:+ ".median_delta_ms does not match deltas") ;;
  expected ← num_iqr deltas;
  check_close iqr expected (where_ +:+ ".iqr_delta_ms does not match deltas") ;;
  share ← unit_field where_ d "positive_delta_share";
  _ ← unit_field where_ d "top1_selection_frequency";
  check_evidence where_ d ;;
  Ok (mkMethodScore candidate deltas share).

Fixpoint validate_scores (allowed : list string) (index : nat) (scores : list json) : res (list method_score) :=
  match scores with
  | [] => Ok []
  | v :: scores =>
      s ← _validate_candidate_score allowed index v;
      rest ← validate_scores allowed (S index) scores;
      Ok (s :: rest)
  end.

(** ** The result *)

Definition RESULT_KEYS :=
  ["schema"; "case_id"; "method"; "m0_status"; "top1"; "top3"; "candidates"; "dominance_score";
   "confidence_score"; "unexplained_residual_share"; "insufficient_evidence_floor_ms"; "bootstrap_seed";
   "bootstrap_resamples"; "abstained"; "abstain_reasons"; "proposed_counterfactual"; "input_complete";
   "input_event_loss_count"; "started_at"; "ended_at"; "time_to_localize_ms"; "automated_wall_clock_ms"].

Definition at_result (key : string) : string := "method_result." +:+ key.

(** [top1]: absent, or a candidate *)
Definition check_top1 (measurable_candidates : list string) (v : json) : res (option string) :=
  match v with
  | JNull => Ok None
  | _ =>
      let msg := at_result "top1 is outside the candidate vocabulary" in
      top1 ← as_text 128 v msg;
      require (str_in top1 measurable_candidates) msg ;;
      Ok (Some top1)
  end.

Definition check_top3 (measurable_candidates : list string) (v : json) : res (list string) :=
  let msg := at_result "top3 is invalid" in
  l ← as_list v msg;
  require (Z.of_nat (length l) <=? 3) msg ;;
  top3 ← res_mapM (λ v, top ← as_text 128 v msg; require (str_in top measurable_candidates) msg ;; Ok top) l;
  require (bool_decide (NoDup top3)) msg ;;
  Ok top3.

(** The candidates, against [top3] and each other *)
Definition check_candidates_of (measurable_candidates top3 : list string) (v : json) : res (list method_score) :=
  l ← as_list v (at_result "candidates must be a list");
  scores ← validate_scores measurable_candidates 0 l;
  let ids := map ms_candidate_id scores in
  require (bool_decide (NoDup ids)) (at_result "candidates contains duplicate ids") ;;
  require (bool_decide (take 3 ids = top3)) (at_result "top3 must match ranked candidates") ;;
  require (match scores with
           | [] => true
           | s :: rest => forallb (λ t, (length (ms_paired_deltas_ms t) =? length (ms_paired_deltas_ms s))%nat) rest
           end) "method_result candidates must use the same matched-pair count" ;;
  Ok scores.

(** The decision against the ranking *)
Definition check_decision (abstained : bool) (top1 : option string) (ids : list string) : res unit :=
  require (negb (abstained && is_some_b top1)) "an abstained result cannot publish a top1 decision" ;;
  require (abstained || is_some_b top1) "a non-abstained result requires top1" ;;
  require (abstained || bool_decide (is_Some (head ids) ∧ head ids = top1))
    (at_result "top1 must match the first candidate").

(** Dominance, residual and confidence, against the shares of the candidates *)
Definition check_shares (d : jdict) (scores : list method_score) : res unit :=
  dominance ← unit_field "method_result" d "dominance_score";
  confidence ← unit_field "method_result" d "confidence_score";
  residual ← unit_field "method_result" d "unexplained_residual_share";
  total ← num_add dominance residual;
  close ← isclose total (NFloat (of_Z 1));
  require close "method_result dominance and residual shares must sum to one" ;;
  limit ← num_add dominance (NFloat (lit 1 (10 ^ 12)));
  require (negb (num_lt limit confidence)) "method_result confidence cannot exceed dominance" ;;
  match map ms_positive_delta_share scores with
  | [] =>
      require (negb (num_lt (NInt 0) dominance) && negb (num_lt residual (NInt 1)))
        "method_result without candidates must have zero dominance"
  | (first :: _) as shares =>
      total ← num_sum shares;
      close ← isclose total (NFloat (of_Z 1));
      require close "method_result candidate shares must sum to one" ;;
      close ← isclose first dominance;
      require close "method_result dominance must equal the top candidate share"
  end.

(** The counterfactual; the errors of indexing a value that is not an object are one. *)
Definition check_counterfactual (abstained : bool) (top1 : option string) (v : json) : res unit :=
  match v with
  | JNull => require abstained "a non-abstained result requires a rank-one counterfactual"
  | JObject c =>
      _exact_keys c ["candidate_id"; "constraint"] "method_result.proposed_counterfactual" [] ;;
      require (json_eq (jget "candidate_id" c) (match top1 with Some t => JStr t | None => JNull end)
               && json_eq (jget "constraint" c) (JStr "change_only_predicted_mechanism"))
        "method_result counterfactual is inconsistent" ;;
      require (negb abstained) "an abstained result cannot propose a counterfactual"
  | _ => Raise TypeError
  end.

(** The completeness of the input *)
Definition check_input (d : jdict) : res (bool * Z) :=
  complete ← bool_field "method_result" d "input_complete";
  loss ← as_int 0 (jget "input_event_loss_count" d)
    (at_result "input_event_loss_count must be a non-negative integer");
  require (negb (negb (loss =? 0) && complete)) "a lossy method result cannot claim complete input" ;;
  Ok (complete, loss).

(** What a timestamp parses to: whether it has a time zone, and its instant *)
Record timestamp := mkTimestamp {
  has_zone : bool;
  instant : Z }.

(** What the check reads in a result *)
Record method_result := mkMethodResult {
  me_top1 : option string;
  me_top3 : list string;
  me_scores : list method_score;
  me_abstained : bool;
  me_reasons : list string;
  me_input : bool * Z }.

Section result.
  (** [datetime.fromisoformat], [None] for the [ValueError] *)
  Context (fromisoformat : string → option timestamp).

Definition check_timestamps (d : jdict) : res unit :=
  started_at ← text_field "method_result" 128 d "started_at";
  ended_at ← text_field "method_result" 128 d "ended_at";
  _ ← nonnegative_field "method_result" d "time_to_localize_ms";
  _ ← nonnegative_field "method_result" d "automated_wall_clock_ms";
  match fromisoformat started_at, fromisoformat ended_at with
  | Some s, Some e =>
      require (has_zone s && has_zone e && (instant s <=? instant e))
        "method result timestamps are unordered or lack timezone"
  | _, _ => invalid "method result timestamps must be ISO-8601"
  end.

Definition check_method_result (d : jdict) (candidate_ids : list string) : res method_result :=
  _exact_keys d RESULT_KEYS "method_result" [] ;;
  require (json_eq (jget "schema" d) (JStr RESULT_SCHEMA)) ("method result schema must be " +:+ RESULT_SCHEMA) ;;
  _ ← text_field "method_result" 64 d "case_id";
  require (match jget "method" d with JStr m => str_in m VIEW_NAMES | _ => false end)
    "method result names an unknown comparison method" ;;
  require (json_eq (jget "m0_status" d) (JStr "NOT_M0_PROVEN"))
    "development result must remain NOT_M0_PROVEN" ;;
  require (negb (is_nil candidate_ids) && forallb (bounded_string 128) candidate_ids)
    "method result candidate vocabulary is invalid" ;;
  require (bool_decide (NoDup candidate_ids)) "method result candidate vocabulary is duplicated" ;;
  top1 ← check_top1 (measurable candidate_ids) (jget "top1" d);
  top3 ← check_top3 (measurable candidate_ids) (jget "top3" d);
  scores ← check_candidates_of (measurable candidate_ids) top3 (jget "candidates" d);
  abstained ← bool_field "method_result" d "abstained";
  check_decision abstained top1 (map ms_candidate_id scores) ;;
  check_shares d scores ;;
  _ ← nonnegative_field "method_result" d "insufficient_evidence_floor_ms";
  require (json_eq (jget "bootstrap_seed" d) (JInt BOOTSTRAP_SEED)) (at_result "bootstrap_seed changed") ;;
  require (json_eq (jget "bootstrap_resamples" d) (JInt BOOTSTRAP_RESAMPLES))
    (at_result "bootstrap_resamples changed") ;;
  reasons ← texts_field 128 (jget "abstain_reasons" d) (at_result "abstain_reasons is invalid")
    (at_result "abstain_reasons contains duplicates");
  require (Bool.eqb abstained (negb (is_nil reasons)))
    "method_result abstention and reasons must be mutually consistent" ;;
  check_counterfactual abstained top1 (jget "proposed_counterfactual" d) ;;
  input ← check_input d;
  check_timestamps d ;;
  Ok (mkMethodResult top1 top3 scores abstained reasons input).

End result.

(** ** What an accepted result says *)

(** The score of a candidate: at least five finite differences, a positive median, a
    spread that is not negative, an ordered interval, a share and a frequency in the unit
    interval, owners and spans, and an edge kind that is not mere precedence or a link *)
Record score_ok (allowed : list string) (v : json) (s : method_score) : Prop := mkScoreOk {
  so_object : ∃ d median iqr lower upper,
    v = JObject d ∧ jget "candidate_id" d = JStr (ms_candidate_id s) ∧
    _finite_number (jget "median_delta_ms" d) = Ok (Some median) ∧ num_lt (NInt 0) median = true ∧
    _finite_number (jget "iqr_delta_ms" d) = Ok (Some iqr) ∧ num_lt iqr (NInt 0) = false ∧
    jget "bootstrap_ci95_ms" d = JList [lower; upper] ∧
    (∃ x y, _finite_number lower = Ok (Some x) ∧ _finite_number upper = Ok (Some y) ∧ num_lt y x = false);
  so_allowed : ms_candidate_id s ∈ allowed;
  so_deltas : 5 ≤ Z.of_nat (length (ms_paired_deltas_ms s));
  so_share : in_unit (ms_positive_delta_share s) = true;
  so_evidence : ∃ d spans links kinds owners,
    v = JObject d ∧ jget "span_count" d = JInt spans ∧ 0 < spans ∧ jget "traceloom_link_count" d = JInt links ∧
    jget "edge_kinds" d = JList (map (λ k, JStr k) kinds) ∧ jget "owners" d = JList (map (λ o, JStr o) owners) ∧
    owners ≠ [] ∧ (Forall (λ k, k ∈ _EDGE_KINDS) kinds) ∧ ((∃ k, k ∈ kinds ∧ k ≠ "precedes") ∨ 0 < links) }.

(** The result as a whole *)
Record result_ok (d : jdict) (candidate_ids : list string) (r : method_result) : Prop := mkResultOk {
  ro_fields : jget "top1" d = match me_top1 r with Some t => JStr t | None => JNull end ∧
    jget "top3" d = JList (map (λ t, JStr t) (me_top3 r)) ∧ jget "abstained" d = JBool (me_abstained r) ∧
    jget "abstain_reasons" d = JList (map (λ t, JStr t) (me_reasons r));
  ro_scores : ∃ l, jget "candidates" d = JList l ∧ Forall2 (score_ok (measurable candidate_ids)) l (me_scores r);
  ro_distinct : NoDup (map ms_candidate_id (me_scores r));
  ro_same_pairs : ∀ s t, s ∈ me_scores r → t ∈ me_scores r →
    length (ms_paired_deltas_ms s) = length (ms_paired_deltas_ms t);
  ro_top3 : me_top3 r = take 3 (map ms_candidate_id (me_scores r));
  ro_reasons : me_abstained r = true ↔ me_reasons r ≠ [];
  ro_decision : me_top1 r = if me_abstained r then None else head (map ms_candidate_id (me_scores r));
  ro_published : me_abstained r = false → is_Some (me_top1 r);
  ro_counterfactual :
    if me_abstained r then jget "proposed_counterfactual" d = JNull
    else ∃ c t, jget "proposed_counterfactual" d = JObject c ∧ me_top1 r = Some t ∧
           jget "candidate_id" c = JStr t ∧ jget "constraint" c = JStr "change_only_predicted_mechanism";
  ro_input : (me_input r).1 = true → (me_input r).2 = 0 }.

Lemma finite_or_ok msg v n : finite_or msg v = Ok n → _finite_number v = Ok (Some n).
Proof. unfold finite_or. intros H. apply bind_ok in H as ([m|] & Hm & H); [|done]. by injection H as <-. Qed.

Lemma as_text_ok limit v msg s : as_text limit v msg = Ok s → v = JStr s.
Proof. destruct v as [|[]| |]; try done. intros H. apply bind_ok in H as (? & _ & H). by injection H as ->. Qed.

Lemma as_list_ok v msg l : as_list v msg = Ok l → v = JList l.
Proof. destruct v as [|[]| |]; try done. by intros [= ->]. Qed.

Lemma as_object_ok v msg d : as_object v msg = Ok d → v = JObject d.
Proof. destruct v as [|[]| |]; try done. by intros [= ->]. Qed.

Lemma count_field_int w d key n : count_field w d key = Ok n → jget key d = JInt n ∧ 0 ≤ n.
Proof.
  unfold count_field, as_int. destruct (jget key d) as [|[]| |]; try done. intros H.
  apply bind_ok in H as (? & Hn%require_ok%Z.leb_le & H). by injection H as ->.
Qed.

Lemma texts_field_ok limit v bad duplicates texts :
  texts_field limit v bad duplicates = Ok texts → v = JList (map (λ s, JStr s) texts) ∧ NoDup texts.
Proof.
  unfold texts_field. intros H. apply bind_ok in H as (l & ->%as_list_ok & H).
  apply bind_ok in H as (r & Hr%res_mapM_ok & H). apply bind_ok in H as (? & Hn & H). injection H as ->. required.
  split; [|done]. f_equal. clear Hn. induction Hr as [|v s l r Hs%as_text_ok _ IH]; simpl; congruence.
Qed.

Lemma check_interval_ok w v u :
  check_interval w v = Ok u →
  ∃ lower upper x y, v = JList [lower; upper] ∧ _finite_number lower = Ok (Some x) ∧
    _finite_number upper = Ok (Some y) ∧ num_lt y x = false.
Proof.
  unfold check_interval. intros H. apply bind_ok in H as ([|lower [|upper [|]]] & ->%as_list_ok & H); try done.
  apply bind_ok in H as (x & Hx%finite_or_ok & H). apply bind_ok in H as (y & Hy%finite_or_ok & H). required.
  by exists lower, upper, x, y.
Qed.

Lemma check_evidence_ok w d u :
  check_evidence w d = Ok u →
  ∃ spans links kinds owners,
    jget "span_count" d = JInt spans ∧ 0 < spans ∧ jget "traceloom_link_count" d = JInt links ∧
    jget "edge_kinds" d = JList (map (λ k, JStr k) kinds) ∧ jget "owners" d = JList (map (λ o, JStr o) owners) ∧
    owners ≠ [] ∧ (Forall (λ k, k ∈ _EDGE_KINDS) kinds) ∧ ((∃ k, k ∈ kinds ∧ k ≠ "precedes") ∨ 0 < links).
Proof.
  unfold check_evidence. intros H. apply bind_ok in H as (spans & [Hs Hs0]%count_field_int & H).
  apply bind_ok in H as (links & [Hl Hl0]%count_field_int & H). apply bind_ok in H as (? & Hn & H).
  apply bind_ok in H as (owners & [Ho _]%texts_field_ok & H). apply bind_ok in H as (kinds & [Hk _]%texts_field_ok & H).
  apply bind_ok in H as (? & Hne & H). apply bind_ok in H as (? & Hkinds & H). required.
  apply Z.eqb_neq in Hn. exists spans, links, kinds, owners. split_and!; try done; [lia|by intros ->| |].
  - apply Forall_forall. intros k Hin. rewrite forallb_forall in Hkinds.
    apply str_in_spec, Hkinds. by apply list_elem_of_In.
  - apply orb_true_iff in H as [He|He%negb_true_iff%Z.eqb_neq]; [left|right; lia].
    apply existsb_exists in He as (k & Hin%list_elem_of_In & Hne'%negb_true_iff%String.eqb_neq). by exists k.
Qed.

Lemma unit_field_ok w d key n : unit_field w d key = Ok n → in_unit n = true.
Proof.
  unfold unit_field. intros H. apply bind_ok in H as (m & _ & H). apply bind_ok in H as (? & Hu%require_ok & H).
  by injection H as <-.
Qed.

Lemma validate_score_ok allowed index v s :
  _validate_candidate_score allowed index v = Ok s → score_ok allowed v s.
Proof.
  unfold _validate_candidate_score. intros H. apply bind_ok in H as (d & ->%as_object_ok & H).
  apply bind_ok in H as (? & _ & H). apply bind_ok in H as (candidate & Hc%as_text_ok & H).
  apply bind_ok in H as (? & Hin%require_ok%str_in_spec & H). apply bind_ok in H as (items & _ & H).
  apply bind_ok in H as (? & Hlen%require_ok%Z.leb_le & H). apply bind_ok in H as (deltas & Hd%res_mapM_ok & H).
  apply bind_ok in H as (? & Hi%check_interval_ok & H). apply bind_ok in H as (m & Hm%finite_or_ok & H).
  apply bind_ok in H as (iqr & Hq%finite_or_ok & H). apply bind_ok in H as (? & Hmp%require_ok & H).
  apply bind_ok in H as (? & Hqp%require_ok%negb_true_iff & H). do 4 apply bind_ok in H as (? & _ & H).
  apply bind_ok in H as (share & Hs%unit_field_ok & H). apply bind_ok in H as (? & _ & H).
  apply bind_ok in H as (? & He%check_evidence_ok & H). injection H as <-.
  destruct Hi as (lower & upper & low & high & Hl & Hx & Hy & Hxy). apply Forall2_length in Hd. constructor; simpl.
  - exists d, m, iqr, lower, upper. split_and!; try done. by exists low, high.
  - done.
  - by rewrite <- Hd.
  - done.
  - destruct He as (spans & links & kinds & owners & He). exists d, spans, links, kinds, owners. by split.
Qed.

Lemma validate_scores_ok allowed index l scores :
  validate_scores allowed index l = Ok scores → Forall2 (score_ok allowed) l scores.
Proof.
  revert index scores. induction l as [|v l IH]; intros index scores H; cbn [validate_scores] in H.
  - injection H as <-. constructor.
  - apply bind_ok in H as (s & Hs%validate_score_ok & H). apply bind_ok in H as (rest & Hr%IH & H).
    injection H as <-. by constructor.
Qed.

Lemma check_top1_ok allowed v top1 :
  check_top1 allowed v = Ok top1 → v = match top1 with Some t => JStr t | None => JNull end.
Proof.
  unfold check_top1. destruct v; [by intros [= <-]|..]; intros H;
    apply bind_ok in H as (t & Ht%as_text_ok & H); apply bind_ok in H as (? & _ & H); by injection H as <-.
Qed.

Lemma check_top3_ok allowed v top3 : check_top3 allowed v = Ok top3 → v = JList (map (λ t, JStr t) top3).
Proof.
  unfold check_top3. intros H. apply bind_ok in H as (l & ->%as_list_ok & H). apply bind_ok in H as (? & _ & H).
  apply bind_ok in H as (r & Hr%res_mapM_ok & H). apply bind_ok in H as (? & _ & H). injection H as ->. f_equal.
  induction Hr as [|v s l r Hs _ IH]; simpl; [done|]. apply bind_ok in Hs as (t & Ht%as_text_ok & Hs).
  apply bind_ok in Hs as (? & _ & Hs). injection Hs as <-. congruence.
Qed.

Lemma bool_field_ok w d key b : bool_field w d key = Ok b → jget key d = JBool b.
Proof. unfold bool_field. destruct (jget key d) as [|[]| |]; try done. by intros [= ->]. Qed.

Lemma check_candidates_of_ok allowed top3 v scores :
  check_candidates_of allowed top3 v = Ok scores →
  (∃ l, v = JList l ∧ Forall2 (score_ok allowed) l scores) ∧ NoDup (map ms_candidate_id scores) ∧
  top3 = take 3 (map ms_candidate_id scores) ∧
  ∀ s t, s ∈ scores → t ∈ scores → length (ms_paired_deltas_ms s) = length (ms_paired_deltas_ms t).
Proof.
  unfold check_candidates_of. intros H. apply bind_ok in H as (l & ->%as_list_ok & H).
  apply bind_ok in H as (r & Hr%validate_scores_ok & H). apply bind_ok in H as (? & Hn & H).
  apply bind_ok in H as (? & Ht & H). apply bind_ok in H as (? & Hsame & H). injection H as ->. required.
  split_and!; try done; [by exists l|].
  destruct scores as [|s0 rest]; [by intros s t ?%not_elem_of_nil|].
  assert (∀ s, s ∈ s0 :: rest → length (ms_paired_deltas_ms s) = length (ms_paired_deltas_ms s0)) as Hs.
  { intros s [->|Hs]%elem_of_cons; [done|]. rewrite forallb_forall in Hsame.
    by apply Nat.eqb_eq, Hsame, list_elem_of_In. }
  intros s t Hs1 Ht1. by rewrite (Hs s), (Hs t).
Qed.

Lemma check_decision_ok abstained top1 ids u :
  check_decision abstained top1 ids = Ok u →
  top1 = (if abstained then None else head ids) ∧ (abstained = false → is_Some top1).
Proof.
  unfold check_decision. intros H. apply bind_ok in H as (? & H1%require_ok & H).
  apply bind_ok in H as (? & H2%require_ok & H3%require_ok). destruct abstained; simpl in *.
  - by destruct top1.
  - apply bool_decide_eq_true in H3 as [Hs <-]. done.
Qed.

Lemma check_counterfactual_ok abstained top1 v u :
  check_counterfactual abstained top1 v = Ok u → (abstained = false → is_Some top1) →
  if abstained then v = JNull
  else ∃ c t, v = JObject c ∧ top1 = Some t ∧ jget "candidate_id" c = JStr t ∧
         jget "constraint" c = JStr "change_only_predicted_mechanism".
Proof.
  unfold check_counterfactual. intros H Hp. destruct v as [| | |c]; try done.
  - apply require_ok in H. by rewrite H.
  - apply bind_ok in H as (? & _ & H). apply bind_ok in H as (? & Hc & Ha). required.
    rewrite Ha. destruct (Hp Ha) as [t ->]. exists c, t. split_and!; try done; by apply json_eq_text.
Qed.

(** C32. A result that is accepted for writing is consistent: its candidates are distinct
    measurable ones, each with a positive median over the same number of pairs and with
    evidence that is more than precedence; the top three are the first of them; it
    abstains exactly when it gives reasons, then without a decision or a counterfactual,
    and otherwise its decision is the first candidate and the counterfactual changes it;
    an input that lost events is not called complete. *)
Theorem method_result_sound fromisoformat d candidate_ids r :
  check_method_result fromisoformat d candidate_ids = Ok r → result_ok d candidate_ids r.
Proof.
  unfold check_method_result. intros H. do 7 apply bind_ok in H as (? & _ & H).
  apply bind_ok in H as (top1 & Ht1%check_top1_ok & H). apply bind_ok in H as (top3 & Ht3%check_top3_ok & H).
  apply bind_ok in H as (scores & (Hs & Hn & Ht & Hl)%check_candidates_of_ok & H).
  apply bind_ok in H as (abstained & Hab%bool_field_ok & H).
  apply bind_ok in H as (? & [Hd Hp]%check_decision_ok & H). do 4 apply bind_ok in H as (? & _ & H).
  apply bind_ok in H as (reasons & [Hre _]%texts_field_ok & H).
  apply bind_ok in H as (? & Hr%require_ok & H).
  apply bind_ok in H as (? & Hc & H). apply check_counterfactual_ok in Hc; [|done].
  apply bind_ok in H as ([complete loss] & Hin & H). apply bind_ok in H as (? & _ & H). injection H as <-.
  constructor; simpl; try done.
  - apply Bool.eqb_prop in Hr as ->. by destruct reasons.
  - unfold check_input in Hin. apply bind_ok in Hin as (? & _ & Hin). apply bind_ok in Hin as (? & _ & Hin).
    apply bind_ok in Hin as (? & Hloss%require_ok & Hin). injection Hin as -> ->. intros ->.
    apply negb_true_iff, andb_false_iff in Hloss as [Hloss|]; [|done].
    by apply negb_false_iff, Z.eqb_eq in Hloss.
Qed.

(** ** The results of the scorer *)

(** [asdict] *)
Definition score_to_dict (s : CandidateScore) : json :=
  JObject [("candidate_id", JStr (cs_candidate_id s));
    ("paired_deltas_ms", JList (map (λ x, JFloat x) (cs_paired_deltas_ms s)));
    ("median_delta_ms", JFloat (cs_median_delta_ms s)); ("iqr_delta_ms", JFloat (cs_iqr_delta_ms s));
    ("bootstrap_ci95_ms", JList [JFloat (cs_bootstrap_ci95_ms s).1; JFloat (cs_bootstrap_ci95_ms s).2]);
    ("positive_delta_share", JFloat (cs_positive_delta_share s));
    ("top1_selection_frequency", JFloat (cs_top1_selection_frequency s));
    ("span_count", JInt (cs_span_count s)); ("owners", JList (map (λ o, JStr o) (cs_owners s)));
    ("edge_kinds", JList (map (λ k, JStr k) (cs_edge_kinds s)));
    ("traceloom_link_count", JInt (cs_traceloom_link_count s))].

Definition text_or_null (o : option string) : json := match o with Some s => JStr s | None => JNull end.

(** The payload of [timed_score_case], given what it reads from the clocks *)
Definition result_payload (r : AttributionResult) (started_at ended_at : string) (elapsed_ms : float) : jdict :=
  [("schema", JStr (ar_schema r)); ("case_id", JStr (ar_case_id r)); ("m0_status", JStr (ar_m0_status r));
   ("top1", text_or_null (ar_top1 r)); ("top3", JList (map (λ t, JStr t) (ar_top3 r)));
   ("candidates", JList (map score_to_dict (ar_candidates r)));
   ("dominance_score", JFloat (ar_dominance_score r)); ("confidence_score", JFloat (ar_confidence_score r));
   ("unexplained_residual_share", JFloat (ar_unexplained_residual_share r));
   ("insufficient_evidence_floor_ms", JFloat (ar_insufficient_evidence_floor_ms r));
   ("bootstrap_seed", JInt (ar_bootstrap_seed r)); ("bootstrap_resamples", JInt (ar_bootstrap_resamples r));
   ("abstained", JBool (ar_abstained r)); ("abstain_reasons", JList (map (λ t, JStr t) (ar_abstain_reasons r)));
   ("proposed_counterfactual",
    match ar_proposed_counterfactual r with
    | Some c => JObject (map (λ kv, (kv.1, JStr kv.2)) c)
    | None => JNull
    end);
   ("input_complete", JBool (ar_input_complete r)); ("input_event_loss_count", JInt (ar_input_event_loss_count r));
   ("method", JStr "full_lifecycle_dag"); ("started_at", JStr started_at); ("ended_at", JStr ended_at);
   ("time_to_localize_ms", JFloat elapsed_ms); ("automated_wall_clock_ms", JFloat elapsed_ms)].

(** Timestamps of one digit, in UTC *)
Definition digit_timestamp (s : string) : option timestamp :=
  match s with
  | String c EmptyString => Some (mkTimestamp true (code c))
  | _ => None
  end.

(** The draws of an example: a few resamples stand for the ten thousand. *)
Definition example_draws (seed : Z) (n k i : nat) : nat := (k + k * i) `mod` n.

Definition set_field (key : string) (v : json) (d : jdict) : jdict :=
  map (λ kv, if String.eqb kv.1 key then (key, v) else kv) d.

(** The scorer on the development case, with the edges of the case filtered *)
Definition score_development (keep : bool) : res jdict :=
  validated ← validate_case_bundle 100 development_case candidate_vocabulary;
  let cut ob := if keep then ob else mkObservation (ob_run_id ob) (ob_configuration_id ob) (ob_clock_model_id ob)
    (ob_evidence_status ob) (ob_normalized_events ob) (ob_lifecycle_spans ob) [] (ob_traceloom_links ob) in
  let pairs := map (λ p, mkMatchedPair (mp_pair_id p) (mp_order p) (cut (mp_baseline p)) (cut (mp_treatment p)))
    validated.2 in
  r ← _score_validated_case example_draws (λ _, None) validated.1 pairs candidate_vocabulary (NInt 5)
        BOOTSTRAP_SEED 4;
  Ok (set_field "bootstrap_resamples" (JInt BOOTSTRAP_RESAMPLES) (result_payload r "1" "2" (of_Z 3))).

(** Without edges the scorer abstains, for [unlinked_lifecycle_span], but still ranks the
    candidates: the result of the abstention is refused. *)
Example unlinked_abstention_refused :
  ∃ d, score_development false = Ok d ∧ jget "abstained" d = JBool true ∧
    jget "abstain_reasons" d = JList [JStr "unlinked_lifecycle_span"] ∧
    check_method_result digit_timestamp d candidate_vocabulary
    = Raise (CaseValidationError "method_result.candidates[0] lacks causal or ownership evidence").
Proof. eexists. split; [vm_compute; reflexivity|]. split_and!; vm_compute; reflexivity. Qed.

Lemma method_result_sound_witness :
  ∃ d r, score_development true = Ok d ∧ check_method_result digit_timestamp d candidate_vocabulary = Ok r ∧
    me_top1 r = Some "queue_or_admission" ∧ result_ok d candidate_vocabulary r.
Proof.
  assert (∃ d r, score_development true = Ok d ∧
    check_method_result digit_timestamp d candidate_vocabulary = Ok r ∧
    me_top1 r = Some "queue_or_admission") as (d & r & Hd & Hr & Ht).
  { eexists _, _. split; [vm_compute; reflexivity|]. split; vm_compute; reflexivity. }
  exists d, r. split; [exact Hd|]. split; [exact Hr|]. split; [exact Ht|]. clear Hd Ht. revert Hr.
  generalize candidate_vocabulary. intros ids Hr. exact (method_result_sound _ _ _ _ Hr).
Defined.
