(* ===== verification/NullCalibration.v ===== *)
(** * preblind_calibration.py: the noise of runs without an intervention

    [summarize_runtime_run] reduces the parsed records of one run to an arm,
    [build_calibration_report] checks five pairs of arms and takes the noise floor of the
    scorer from their differences.

    The five pairs of a report are matched and the floor bounds their noise:
    [calibration_sound].  An accepted arm stands for a run whose recording was complete:
    [calibration_arm_grounded]. *)

From Stdlib Require Import ZArith Lia Ascii String.
From stdpp Require Import base strings gmap sets sorting list.
From S2P Require Import Prelude PyValue Binary64 JsonValue CaseBundle BlindViews BlindScoring DevelopmentCase.

Definition CALIBRATION_SCHEMA := "request-lifecycle-preblind-null-calibration/v1".
Definition ABSTENTION_CANDIDATE := "insufficient_evidence_or_multi_cause".
Definition PAIR_KEYS := ["pair_id"; "order"; "workload_id"; "configuration_id"; "arm_a"; "arm_b"].
Definition ARM_KEYS :=
  ["run_id"; "intervention"; "evidence_valid"; "request_count"; "candidate_totals_ms"; "error_count"].

Definition _SPAN_CANDIDATES : list ((string * string) * string) :=
  [(("render_started", "render_done"), "frontend_tokenization");
   (("tokenization_started", "tokenization_done"), "frontend_tokenization");
   (("queued", "scheduled"), "queue_or_admission");
   (("requeued", "admission_started"), "queue_or_admission");
   (("admission_started", "resumed"), "queue_or_admission");
   (("prefill_started", "prefill_done"), ABSTENTION_CANDIDATE);
   (("decode_started", "decode_done"), "decode_execution");
   (("communication_started", "communication_done"), "communication_or_synchronization");
   (("serialization_started", "serialization_done"), "response_streaming");
   (("delivery_started", "delivery_done"), "response_streaming");
   (("cleanup_started", "cleanup_done"), "cleanup_or_resource_release")].

(** ** Checks *)

Definition ensure_valid (b : bool) (msg : string) : res unit := ensure b (CalibrationValidationError msg).

(** [_exact_keys]: the keys are the expected ones *)
Definition exact_keys (value : jdict) (expected : list string) (where_ : string) : res unit :=
  ensure_valid (forallb (λ k, str_in k expected) value.*1 && forallb (λ k, str_in k value.*1) expected)
    (where_ +:+ " keys differ").

(** [_bounded_text] *)
Definition text_within (limit : Z) (where_ : string) (value : json) : res string :=
  match value with
  | JStr s =>
      ensure_valid (negb (String.eqb s "") && (Z.of_nat (String.length s) <=? limit))
        (where_ +:+ " must be bounded text") ;;
      Ok s
  | _ => Raise (CalibrationValidationError (where_ +:+ " must be bounded text"))
  end.

(** What an arm contributes *)
Record calibration_arm := mkArm {
  ca_run_id : string;
  ca_request_count : Z;
  ca_totals : list (string * number) }.

(** A duration of the totals: [isfinite(float(duration))] and not negative *)
Definition duration_of (where_ : string) (v : json) : res number :=
  let bad := CalibrationValidationError (where_ +:+ " must be finite and non-negative") in
  match v with
  | JInt n => _ ← float_of_int n; ensure (0 <=? n) bad ;; Ok (NInt n)
  | JFloat x => ensure (is_finite x && negb (flt x f0)) bad ;; Ok (NFloat x)
  | _ => Raise bad
  end.

Definition read_total (where_ : string) (kv : string * json) : res (string * number) :=
  _ ← text_within 128 (where_ +:+ ".candidate_totals_ms key") (JStr kv.1);
  n ← duration_of (where_ +:+ ".candidate_totals_ms[" +:+ kv.1 +:+ "]") kv.2;
  Ok (kv.1, n).

Definition is_true (v : json) : bool := match v with JBool b => b | _ => false end.

Definition _validate_arm (where_ : string) (run_ids : list string) (value : json) : res calibration_arm :=
  match value with
  | JObject d =>
      exact_keys d ARM_KEYS where_ ;;
      run_id ← text_within 64 (where_ +:+ ".run_id") (jget "run_id" d);
      ensure_valid (negb (str_in run_id run_ids)) (where_ +:+ ".run_id must be unique") ;;
      ensure_valid (json_eq (jget "intervention" d) (JStr "none")) (where_ +:+ " must be no-intervention") ;;
      ensure_valid (is_true (jget "evidence_valid" d)) (where_ +:+ " evidence must be valid") ;;
      let positive := where_ +:+ ".request_count must be positive" in
      match plain_int (jget "request_count" d) with
      | Some count =>
          ensure_valid (0 <? count) positive ;;
          ensure_valid (bool_decide (plain_int (jget "error_count" d) = Some 0))
            (where_ +:+ ".error_count must be zero") ;;
          match jget "candidate_totals_ms" d with
          | JObject ((_ :: _) as totals) =>
              totals ← res_mapM (read_total where_) totals;
              Ok (mkArm run_id count totals)
          | _ => Raise (CalibrationValidationError (where_ +:+ ".candidate_totals_ms must be a nonempty object"))
          end
      | None => Raise (CalibrationValidationError positive)
      end
  | _ => Raise (CalibrationValidationError (where_ +:+ " must be an object"))
  end.

(** ** The report *)

(** What all pairs have in common, from the first one *)
Record matched_runs := mkMatchedRuns {
  mt_workload_id : string;
  mt_configuration_id : string;
  mt_request_count : Z;
  mt_candidates : gset string }.

Record pair_deltas := mkPairDeltas {
  pd_pair_id : string;
  pd_candidate_deltas_ms : list (string * float);
  pd_total_positive_ms : float }.

(** The variables of the loop over the pairs *)
Record calibration := mkCalibration {
  cb_pair_ids : list string;
  cb_run_ids : list string;
  cb_matched : option matched_runs;
  cb_pairs : list pair_deltas }.

(** [float(b_totals[candidate]) - float(a_totals[candidate])] *)
Definition delta_of (a b : list (string * number)) (candidate : string) : res (string * float) :=
  match assoc candidate b, assoc candidate a with
  | Some y, Some x => y ← num_to_float y; x ← num_to_float x; Ok (candidate, fsub y x)
  | _, _ => Raise (KeyError candidate)
  end.

Definition positive_delta (d : string * float) : float := py_max f0 d.2.

Definition not_abstention (d : string * float) : bool := negb (String.eqb d.1 ABSTENTION_CANDIDATE).

Definition total_positive (deltas : list (string * float)) : float :=
  fsum (map positive_delta (List.filter not_abstention deltas)).

Definition key_set (totals : list (string * number)) : gset string := list_to_set totals.*1.

(** The pair uses what the pairs before it use. *)
Definition same_setup (workload_id configuration_id : string) (matched : option matched_runs) : bool :=
  match matched with
  | Some m => String.eqb workload_id (mt_workload_id m) && String.eqb configuration_id (mt_configuration_id m)
  | None => true
  end.

Definition same_count (count : Z) (matched : option matched_runs) : bool :=
  match matched with Some m => count =? mt_request_count m | None => true end.

Definition same_candidates (candidates : gset string) (matched : option matched_runs) : bool :=
  match matched with Some m => bool_decide (candidates = mt_candidates m) | None => true end.

Definition calibrate_pair (index : nat) (order : string) (pair : jdict) (c : calibration) : res calibration :=
  let where_ := index_of "pairs" index in
  exact_keys pair PAIR_KEYS where_ ;;
  pair_id ← text_within 64 (where_ +:+ ".pair_id") (jget "pair_id" pair);
  ensure_valid (negb (str_in pair_id (cb_pair_ids c))) (where_ +:+ ".pair_id must be unique") ;;
  ensure_valid (json_eq (jget "order" pair) (JStr order)) "calibration order must alternate AB/BA" ;;
  workload_id ← text_within 128 (where_ +:+ ".workload_id") (jget "workload_id" pair);
  configuration_id ← text_within 128 (where_ +:+ ".configuration_id") (jget "configuration_id" pair);
  ensure_valid (same_setup workload_id configuration_id (cb_matched c))
    "all calibration pairs must use the same workload and configuration" ;;
  a ← _validate_arm (where_ +:+ ".arm_a") (cb_run_ids c) (jget "arm_a" pair);
  b ← _validate_arm (where_ +:+ ".arm_b") (cb_run_ids c ++ [ca_run_id a]) (jget "arm_b" pair);
  ensure_valid (ca_request_count a =? ca_request_count b) (where_ +:+ " has unmatched request counts") ;;
  ensure_valid (same_count (ca_request_count a) (cb_matched c))
    "all calibration pairs must use the same request count" ;;
  let candidates := key_set (ca_totals a) in
  ensure_valid (bool_decide (candidates = key_set (ca_totals b))) (where_ +:+ " has unmatched candidates") ;;
  ensure_valid (same_candidates candidates (cb_matched c))
    "all calibration pairs must use the same candidate set" ;;
  deltas ← res_mapM (delta_of (ca_totals a) (ca_totals b)) (merge_sort String.le (ca_totals a).*1);
  Ok (mkCalibration (cb_pair_ids c ++ [pair_id]) (cb_run_ids c ++ [ca_run_id a; ca_run_id b])
    (Some (default (mkMatchedRuns workload_id configuration_id (ca_request_count a) candidates) (cb_matched c)))
    (cb_pairs c ++ [mkPairDeltas pair_id deltas (total_positive deltas)])).

Definition expected_order := ["AB"; "BA"; "AB"; "BA"; "AB"].

Fixpoint calibrate_pairs (index : nat) (orders : list string) (pairs : list jdict) (c : calibration)
    : res calibration :=
  match orders, pairs with
  | order :: orders, p :: pairs =>
      c ← calibrate_pair index order p c;
      calibrate_pairs (S index) orders pairs c
  | _, _ => Ok c
  end.

Definition pair_report (p : pair_deltas) : json :=
  JObject [("pair_id", JStr (pd_pair_id p));
    ("candidate_deltas_ms", JObject (map (λ d, (d.1, JFloat d.2)) (pd_candidate_deltas_ms p)));
    ("total_positive_matched_delta_ms", JFloat (pd_total_positive_ms p))].

Definition calibration_report (pairs : list pair_deltas) (null_p95 floor : float) : jdict :=
  [("schema", JStr CALIBRATION_SCHEMA); ("evidence_class", JStr "real-online");
   ("purpose", JStr "public pre-blind no-intervention service-jitter calibration");
   ("opaque_case_accessed", JBool false); ("pair_count", JInt 5);
   ("pair_orders", JList (map (λ o, JStr o) expected_order));
   ("pair_candidate_deltas", JList (map pair_report pairs));
   ("total_positive_matched_deltas_ms", JList (map (λ p, JFloat (pd_total_positive_ms p)) pairs));
   ("null_delta_p95_ms", JFloat null_p95); ("insufficient_evidence_floor_ms", JFloat floor);
   ("scorer_configuration",
    JObject [("minimum_absolute_floor_ms", JFloat (of_Z 5)); ("insufficient_evidence_floor_ms", JFloat floor);
      ("single_root_dominance", JFloat MIN_DOMINANCE_SHARE);
      ("maximum_unexplained_residual_share", JFloat MAX_RESIDUAL_SHARE);
      ("bootstrap_seed", JInt BOOTSTRAP_SEED); ("bootstrap_resamples", JInt BOOTSTRAP_RESAMPLES)])].

Definition build_calibration_report (pairs : list jdict) : res jdict :=
  ensure_valid (length pairs =? 5)%nat "calibration requires exactly five pairs" ;;
  c ← calibrate_pairs 0 expected_order pairs (mkCalibration [] [] None []);
  floor ← calibrate_noise_floor (map (λ p, JFloat (pd_total_positive_ms p)) (cb_pairs c));
  Ok (calibration_report (cb_pairs c) floor.1 floor.2).

(** ** One run *)

Section run.
  (** [str] of a float or a container *)
  Context (other : json → string).

  Abbreviation str := (text_of other).

(** [row.get(key, "")] *)
Definition get_or_empty (key : string) (row : jdict) : json := default (JStr "") (assoc key row).

(** The variables of the loop over the records: the starts by process and span, the totals *)
Definition open_spans : Type := gmap (string * string) jdict.

Definition span_candidate (start row : jdict) : option string :=
  snd <$> List.find (λ c, bool_decide (c.1 = (str (jget "event_name" start), str (jget "event_name" row))))
            _SPAN_CANDIDATES.

(** [(end_ns - start_ns) / 1e6], of integers in order *)
Definition span_duration (start row : jdict) : res float :=
  let bad := CalibrationValidationError "runtime span has invalid timestamps" in
  match plain_int (jget "timestamp_ns" start), plain_int (jget "timestamp_ns" row) with
  | Some start_ns, Some end_ns =>
      ensure (start_ns <=? end_ns) bad ;;
      ns ← float_of_int (end_ns - start_ns);
      Ok (fdiv ns (of_Z 1000000))
  | _, _ => Raise bad
  end.

Definition add_record (row : jdict) (st : open_spans * list (string * float))
    : res (open_spans * list (string * float)) :=
  if negb (json_eq (jget "record_type" row) (JStr "event")) then Ok st
  else
    let process_uuid := str (get_or_empty "process_uuid" row) in
    let starts := match jget "start_span_id" row with
                  | JStr id => <[(process_uuid, id) := row]> st.1
                  | _ => st.1
                  end in
    match jget "end_span_id" row with
    | JStr id =>
        match starts !! (process_uuid, id) with
        | Some start =>
            match span_candidate start row with
            | Some candidate => ms ← span_duration start row; Ok (starts, add_total candidate ms st.2)
            | None => Ok (starts, st.2)
            end
        | None => Ok (starts, st.2)
        end
    | _ => Ok (starts, st.2)
    end.

(** [_candidate_totals] *)
Definition run_totals (records : list jdict) : res (list (string * float)) :=
  st ← res_foldM add_record records (∅, []);
  Ok (map (λ kv, (kv.1, round_digits 9 kv.2)) (merge_sort PyValue.key_le st.2)).

Definition is_record (record_type : string) (row : jdict) : bool :=
  json_eq (jget "record_type" row) (JStr record_type).

(** [str(row["process_uuid"])] of the records of a type *)
Definition process_uuids (record_type : string) (records : list jdict) : res (list string) :=
  res_mapM (λ row, match assoc "process_uuid" row with
                   | Some v => Ok (str v)
                   | None => Raise (KeyError "process_uuid")
                   end) (List.filter (is_record record_type) records).

Definition count_of (x : string) (l : list string) : nat := length (List.filter (String.eqb x) l).

(** [Counter(a) == Counter(b)] *)
Definition counter_eq (a b : list string) : bool := forallb (λ x, (count_of x a =? count_of x b)%nat) (a ++ b).

(** The process closed its trace without a loss. *)
Definition drained (row : jdict) : bool :=
  json_eq (jget "close_outcome" row) (JStr "drained")
  && json_eq (jget "dropped_data_count" row) (JInt 0)
  && json_eq (jget "dropped_control_count" row) (JInt 0)
  && json_eq (jget "writer_failure_count" row) (JInt 0).

Definition summaries_valid (starts summaries : list string) (summary_rows : list jdict) : bool :=
  negb (is_nil starts) && counter_eq starts summaries
  && forallb (λ x, (count_of x starts =? 1)%nat) starts && forallb drained summary_rows.

Definition is_loss (row : jdict) : bool := contains "loss" (str (get_or_empty "record_type" row)).

Definition failed (result : json) : bool :=
  match result with
  | JObject d =>
      negb (json_eq (jget "http_status" d) (JInt 200))
      || negb (match jget "error" d with JNull => true | _ => false end)
  | _ => true
  end.

Definition run_valid (analysis : jdict) (records : list jdict) (starts summaries : list string)
    (results : list json) (totals : list (string * float)) : bool :=
  is_true (jget "evidence_valid" analysis)
  && summaries_valid starts summaries (List.filter (is_record "process_summary") records)
  && (length (List.filter is_loss records) =? 0)%nat && (length (List.filter failed results) =? 0)%nat
  && negb (is_nil totals).

Definition summarize_runtime_run (analysis clients manifest : jdict) (records : list jdict) : res jdict :=
  match jget "results" clients with
  | JList ((_ :: _) as results) =>
      starts ← process_uuids "process_start" records;
      summaries ← process_uuids "process_summary" records;
      totals ← run_totals records;
      run_id ← text_within 64 "manifest.run_id" (jget "run_id" manifest);
      Ok [("run_id", JStr run_id); ("intervention", JStr "none");
          ("evidence_valid", JBool (run_valid analysis records starts summaries results totals));
          ("request_count", JInt (Z.of_nat (length results)));
          ("candidate_totals_ms", JObject (map (λ kv, (kv.1, JFloat kv.2)) totals));
          ("error_count", JInt (Z.of_nat (length (List.filter failed results))))]
  | _ => Raise (CalibrationValidationError "client results must be nonempty")
  end.
End run.

(** ** What an accepted arm says *)

Lemma is_true_ok v : is_true v = true → v = JBool true.
Proof. destruct v as [|[]| |]; try done. simpl. by intros ->. Qed.

Lemma text_within_ok limit w v s : text_within limit w v = Ok s → v = JStr s.
Proof. destruct v as [|[]| |]; try done. intros H. apply bind_ok in H as (? & _ & H). by injection H as ->. Qed.

Lemma plain_int_ok v n : plain_int v = Some n → v = JInt n.
Proof. destruct v as [|[]| |]; try done. by intros [= ->]. Qed.

(** A duration that is finite as a float and not negative *)
Definition valid_duration (n : number) : Prop :=
  match n with NInt n => 0 ≤ n ∧ is_finite (of_Z n) = true | NFloat x => is_finite x = true ∧ flt x f0 = false end.

(** The number as the report's input has it *)
Definition number_json (n : number) : json :=
  match n with NInt n => JInt n | NFloat x => JFloat x end.

(** The arm of a run without an intervention, an error or a loss; the totals are those of
    the input, entry by entry. *)
Record arm_ok (v : json) (a : calibration_arm) : Prop := mkArmOk {
  ao_fields : ∃ d, v = JObject d ∧ jget "run_id" d = JStr (ca_run_id a) ∧
    jget "intervention" d = JStr "none" ∧ jget "evidence_valid" d = JBool true ∧
    jget "request_count" d = JInt (ca_request_count a) ∧ jget "error_count" d = JInt 0 ∧
    jget "candidate_totals_ms" d = JObject (map (λ t, (t.1, number_json t.2)) (ca_totals a));
  ao_requests : 0 < ca_request_count a;
  ao_totals : ca_totals a ≠ [] ∧ Forall (λ t, valid_duration t.2) (ca_totals a) }.

Lemma read_total_ok w kv t :
  read_total w kv = Ok t → valid_duration t.2 ∧ kv = (t.1, number_json t.2).
Proof.
  unfold read_total. intros H. apply bind_ok in H as (? & _ & H). apply bind_ok in H as (n & Hn & H).
  injection H as <-. unfold duration_of in Hn. destruct kv as [k v]. simpl in *.
  destruct v as [|[]| |]; try done.
  - apply bind_ok in Hn as (? & Hx & Hn). injection Hn as <-. apply ensure_ok, andb_true_iff in Hx as [? ?%negb_true_iff].
    by split.
  - apply bind_ok in Hn as (y & Hy & Hn). apply bind_ok in Hn as (? & Hx%ensure_ok%Z.leb_le & Hn).
    injection Hn as <-. split; [|done]. split; [done|]. unfold float_of_int in Hy. by destruct (is_finite _).
Qed.

Lemma validate_arm_ok w run_ids v a :
  _validate_arm w run_ids v = Ok a → arm_ok v a ∧ ca_run_id a ∉ run_ids.
Proof.
  unfold _validate_arm, ensure_valid. destruct v as [| | |d]; try done. intros H.
  apply bind_ok in H as (? & _ & H). apply bind_ok in H as (run_id & Hr%text_within_ok & H).
  apply bind_ok in H as (? & Hfresh%ensure_ok%negb_true_iff%str_in_spec_false & H).
  apply bind_ok in H as (? & Hi%ensure_ok%json_eq_text & H).
  apply bind_ok in H as (? & He%ensure_ok%is_true_ok & H).
  destruct (plain_int (jget "request_count" d)) as [count|] eqn:Ec; [|done]. apply plain_int_ok in Ec.
  apply bind_ok in H as (? & Hc%ensure_ok%Z.ltb_lt & H).
  apply bind_ok in H as (? & Herr%ensure_ok%bool_decide_eq_true%plain_int_ok & H).
  destruct (jget "candidate_totals_ms" d) as [| | |[|t ts]] eqn:Et; try done.
  apply bind_ok in H as (totals & Ht%res_mapM_ok & H). injection H as <-. split; [|done].
  assert (∀ l, Forall2 (λ x y, read_total w x = Ok y) l totals →
    Forall (λ t, valid_duration t.2) totals ∧ l = map (λ t, (t.1, number_json t.2)) totals) as Hall.
  { clear. intros l. induction 1 as [|x y l l' Hxy _ [IH1 IH2]]; [by split|].
    apply read_total_ok in Hxy as [? ->]. split; [by constructor|by rewrite IH2]. }
  destruct (Hall _ Ht) as [Hv Htotals]. rewrite Htotals in Et.
  constructor; simpl; [by exists d|done|]. split; [by inversion Ht|done].
Qed.

(** ** What a report says *)

(** The arms of a pair and its row in the report *)
Record pair_evidence := mkPairEvidence {
  pe_a : calibration_arm;
  pe_b : calibration_arm;
  pe_row : pair_deltas }.

Definition run_ids_of_pair (e : pair_evidence) : list string := [ca_run_id (pe_a e); ca_run_id (pe_b e)].

(** The difference of a candidate: its total in arm b less its total in arm a *)
Definition difference_of (a b : list (string * number)) (d : string * float) : Prop :=
  ∃ na nb x y, assoc d.1 a = Some na ∧ assoc d.1 b = Some nb ∧ num_to_float na = Ok x ∧
    num_to_float nb = Ok y ∧ d.2 = fsub y x.

(** The sum of the positive differences from the left, the abstention excluded *)
Fixpoint null_noise (acc : float) (deltas : list (string * float)) : float :=
  match deltas with
  | [] => acc
  | (c, x) :: deltas =>
      null_noise
        (if decide (c = "insufficient_evidence_or_multi_cause") then acc
         else if flt f0 x then fadd acc x else fadd acc f0) deltas
  end.

Record calibrated (m : matched_runs) (op : string * jdict) (e : pair_evidence) : Prop := mkCalibrated {
  cd_order : jget "order" op.2 = JStr op.1;
  cd_setup : jget "workload_id" op.2 = JStr (mt_workload_id m) ∧
    jget "configuration_id" op.2 = JStr (mt_configuration_id m);
  cd_arms : arm_ok (jget "arm_a" op.2) (pe_a e) ∧ arm_ok (jget "arm_b" op.2) (pe_b e);
  cd_count : ca_request_count (pe_a e) = mt_request_count m ∧ ca_request_count (pe_b e) = mt_request_count m;
  cd_candidates : key_set (ca_totals (pe_a e)) = mt_candidates m ∧ key_set (ca_totals (pe_b e)) = mt_candidates m;
  cd_deltas : (pd_candidate_deltas_ms (pe_row e)).*1 ≡ₚ (ca_totals (pe_a e)).*1 ∧
    StronglySorted String.le (pd_candidate_deltas_ms (pe_row e)).*1 ∧
    Forall (difference_of (ca_totals (pe_a e)) (ca_totals (pe_b e))) (pd_candidate_deltas_ms (pe_row e));
  cd_total : pd_total_positive_ms (pe_row e) = null_noise f0 (pd_candidate_deltas_ms (pe_row e)) }.

Lemma deltas_ok a b names deltas :
  res_mapM (delta_of a b) names = Ok deltas → deltas.*1 = names ∧ Forall (difference_of a b) deltas.
Proof.
  intros H%res_mapM_ok. induction H as [|c d names deltas Hd _ [IH1 IH2]]; [by split|].
  unfold delta_of in Hd. destruct (assoc c b) as [nb|] eqn:Eb, (assoc c a) as [na|] eqn:Ea; try discriminate Hd.
  apply bind_ok in Hd as (y & Hy & Hd). apply bind_ok in Hd as (x & Hx & Hd). injection Hd as <-.
  rewrite fmap_cons, IH1. split; [reflexivity|]. constructor; [|exact IH2].
  exists na, nb, x, y. split_and!; try assumption. reflexivity.
Qed.

Lemma total_positive_noise deltas : total_positive deltas = null_noise f0 deltas.
Proof.
  unfold total_positive, fsum. generalize f0 at 1 2. induction deltas as [|[c x] deltas IH]; intros acc; [reflexivity|].
  cbn [List.filter null_noise]. unfold not_abstention at 1. cbn [fst].
  destruct (String.eqb_spec c ABSTENTION_CANDIDATE) as [E|E]; cbn [negb];
    [rewrite decide_True by exact E|rewrite decide_False by exact E]; [exact (IH acc)|].
  cbn [map foldl]. rewrite <- IH. unfold positive_delta at 1, py_max. cbn [snd].
  destruct (flt f0 x); reflexivity.
Qed.

Lemma calibrate_pair_ok index order p c c' :
  calibrate_pair index order p c = Ok c' →
  ∃ m e, calibrated m (order, p) e ∧ cb_matched c' = Some m ∧ (∀ m0, cb_matched c = Some m0 → m = m0) ∧
    pd_pair_id (pe_row e) ∉ cb_pair_ids c ∧ ca_run_id (pe_a e) ∉ cb_run_ids c ∧
    ca_run_id (pe_b e) ∉ (cb_run_ids c ++ [ca_run_id (pe_a e)]) ∧
    cb_pair_ids c' = cb_pair_ids c ++ [pd_pair_id (pe_row e)] ∧
    cb_run_ids c' = cb_run_ids c ++ run_ids_of_pair e ∧ cb_pairs c' = cb_pairs c ++ [pe_row e].
Proof.
  unfold calibrate_pair, ensure_valid. intros H. apply bind_ok in H as (? & _ & H).
  apply bind_ok in H as (id & _ & H). apply bind_ok in H as (? & Hid%ensure_ok & H).
  apply bind_ok in H as (? & Ho%ensure_ok%json_eq_text & H).
  apply bind_ok in H as (w & Hw%text_within_ok & H). apply bind_ok in H as (cf & Hcf%text_within_ok & H).
  apply bind_ok in H as (? & Hset%ensure_ok & H). apply bind_ok in H as (a & [Ha Hra]%validate_arm_ok & H).
  apply bind_ok in H as (b & [Hb Hrb]%validate_arm_ok & H). apply bind_ok in H as (? & Hn%ensure_ok & H).
  apply bind_ok in H as (? & Hcount%ensure_ok & H). apply bind_ok in H as (? & Hk%ensure_ok & H).
  apply bind_ok in H as (? & Hcand%ensure_ok & H). apply bind_ok in H as (deltas & Hd & H). injection H as <-.
  assert (deltas.*1 ≡ₚ (ca_totals a).*1 ∧ StronglySorted String.le deltas.*1 ∧
    Forall (difference_of (ca_totals a) (ca_totals b)) deltas) as Hdeltas.
  { apply deltas_ok in Hd as [-> Hd]. split_and!; [apply merge_sort_Permutation| |exact Hd].
    apply StronglySorted_merge_sort; apply _. }
  apply bool_decide_eq_true in Hk. apply Z.eqb_eq in Hn. apply negb_true_iff, str_in_spec_false in Hid.
  exists (default (mkMatchedRuns w cf (ca_request_count a) (key_set (ca_totals a))) (cb_matched c)).
  exists (mkPairEvidence a b (mkPairDeltas id deltas (total_positive deltas))).
  split; [|split_and!; try done; by intros m0 ->].
  destruct (cb_matched c) as [m|]; simpl in *.
  - apply andb_true_iff in Hset as [->%String.eqb_eq ->%String.eqb_eq]. apply Z.eqb_eq in Hcount.
    apply bool_decide_eq_true in Hcand. constructor; simpl; try assumption; try (by split).
    + by rewrite <- Hcount.
    + by rewrite <- Hk.
    + apply total_positive_noise.
  - constructor; simpl; try assumption; try (by split). apply total_positive_noise.
Qed.

Lemma calibrate_pairs_ok index orders pairs c c' :
  calibrate_pairs index orders pairs c = Ok c' → length orders = length pairs →
  ∃ es, (∀ m, cb_matched c' = Some m → Forall2 (calibrated m) (zip orders pairs) es) ∧
    (∀ m, cb_matched c = Some m → cb_matched c' = Some m) ∧ (pairs ≠ [] → is_Some (cb_matched c')) ∧
    cb_pairs c' = cb_pairs c ++ map pe_row es ∧
    (NoDup (cb_pair_ids c) → NoDup (cb_pair_ids c ++ map pd_pair_id (map pe_row es))) ∧
    (NoDup (cb_run_ids c) → NoDup (cb_run_ids c ++ concat (map run_ids_of_pair es))).
Proof.
  revert index pairs c. induction orders as [|order orders IH]; intros index [|p pairs] c H Hlen; try done.
  - injection H as ->. exists []. simpl. rewrite !app_nil_r. by split_and!.
  - cbn [calibrate_pairs] in H. apply bind_ok in H as (c1 & Hp & H). injection Hlen as Hlen.
    destruct (IH _ _ _ H Hlen) as (es & Hes & Hm & _ & Hps & Hids & Hruns).
    apply calibrate_pair_ok in Hp as (m & e & He & Hm1 & Hm0 & Hi & Ha & Hb & Ei & Er & Ep).
    apply Hm in Hm1 as Hm'. exists (e :: es). simpl. split_and!.
    + intros m' Hm''. rewrite Hm' in Hm''. injection Hm'' as <-. constructor; [done|by apply Hes].
    + intros m' H0. by rewrite <- (Hm0 m' H0).
    + by rewrite Hm'.
    + by rewrite Hps, Ep, <- app_assoc.
    + intros Hn. rewrite Ei, <- app_assoc in Hids. apply Hids. apply NoDup_app. split_and!; [done| |apply NoDup_singleton].
      intros x Hx ->%list_elem_of_singleton. done.
    + intros Hn. rewrite Er, <- app_assoc in Hruns. apply Hruns. unfold run_ids_of_pair.
      change [ca_run_id (pe_a e); ca_run_id (pe_b e)] with ([ca_run_id (pe_a e)] ++ [ca_run_id (pe_b e)]).
      rewrite app_assoc. apply NoDup_app. split_and!; [|by intros x Hx ->%list_elem_of_singleton|apply NoDup_singleton].
      apply NoDup_app. split_and!; [done|by intros x Hx ->%list_elem_of_singleton|apply NoDup_singleton].
Qed.

Lemma null_delta_float x y : null_delta (JFloat x) = Ok y → y = fabs x.
Proof.
  unfold null_delta, _finite_number. simpl. destruct (is_finite x); [|done]. by intros [= <-].
Qed.

(** C33. A calibration report stands on five pairs of runs that are matched: alternating
    order, ten distinct runs without an intervention, an error or lost evidence, one
    workload, configuration, number of requests and set of candidates, valid totals.  The
    row of a pair holds, for each candidate in the order of the names, the difference of
    the totals that the two arms of the input give for it, and the sum of the positive
    differences, the abstention excluded; the floor is the greatest of these sums (of
    their absolute values), but at least the absolute minimum. *)
Theorem calibration_sound pairs report :
  build_calibration_report pairs = Ok report →
  ∃ es m p95 floor,
    report = calibration_report (map pe_row es) p95 floor ∧
    Forall2 (calibrated m) (zip expected_order pairs) es ∧ length pairs = 5%nat ∧
    NoDup (map pd_pair_id (map pe_row es)) ∧ NoDup (concat (map run_ids_of_pair es)) ∧
    Forall (λ e, fle (fabs (pd_total_positive_ms (pe_row e))) floor = true) es ∧
    fle MIN_ABSOLUTE_FLOOR_MS floor = true ∧
    (floor = MIN_ABSOLUTE_FLOOR_MS ∨ ∃ e, e ∈ es ∧ floor = fabs (pd_total_positive_ms (pe_row e))).
Proof.
  unfold build_calibration_report, ensure_valid. intros H. apply bind_ok in H as (? & Hn%ensure_ok%Nat.eqb_eq & H).
  apply bind_ok in H as (c & Hc & H). apply bind_ok in H as ([p95 floor] & Hf & H). injection H as <-.
  destruct (calibrate_pairs_ok _ _ _ _ _ Hc (eq_sym Hn)) as (es & Hes & _ & Hm & Hps & Hids & Hruns).
  destruct Hm as [m Hm]; [by intros ->|].
  simpl in Hps, Hids, Hruns. rewrite Hps in Hf |- *. exists es, m, p95, floor.
  apply (proj2 (noise_floor_max _)) in Hf as (xs & Hxs & Hin & Hall & Hle & Hmin & Heq).
  assert (xs = map (λ e, fabs (pd_total_positive_ms (pe_row e))) es) as ->.
  { apply res_mapM_ok in Hxs. clear -Hxs. revert xs Hxs. induction es as [|e es IH]; intros xs Hxs; inversion Hxs; subst.
    - done.
    - simpl. f_equal; [|by apply IH].
      match goal with Hx : null_delta _ = Ok _ |- _ => exact (null_delta_float _ _ Hx) end. }
  split; [done|]. split; [by apply Hes|]. split; [done|]. split; [apply Hids, NoDup_nil_2|].
  split; [apply Hruns, NoDup_nil_2|]. split; [|split; [done|]].
  - apply Forall_fmap in Hall. eapply Forall_impl; [exact Hall|]. intros e He. by eapply fle_trans.
  - destruct Heq as [-> | ->]; [right|by left]. apply list_elem_of_fmap in Hin as (e & -> & He). by exists e.
Qed.

(** ** The runs behind the arms *)

Lemma count_of_occ x l : count_of x l = count_occ String.string_dec l x.
Proof.
  unfold count_of. induction l as [|y l IH]; simpl; [done|].
  destruct (String.eqb_spec x y), (String.string_dec y x); simpl; congruence.
Qed.

Lemma counter_eq_Permutation a b : counter_eq a b = true → a ≡ₚ b.
Proof.
  unfold counter_eq. rewrite forallb_forall. intros H. apply (Permutation_count_occ String.string_dec). intros x.
  rewrite <- !count_of_occ. destruct (decide (x ∈ a ++ b)) as [Hx|Hx].
  - by apply Nat.eqb_eq, H, list_elem_of_In.
  - rewrite elem_of_app in Hx. rewrite !count_of_occ.
    rewrite !(proj1 (count_occ_not_In _ _ _)); [done|..]; rewrite <- list_elem_of_In; naive_solver.
Qed.

Lemma counts_one_NoDup a : forallb (λ x, (count_of x a =? 1)%nat) a = true → NoDup a.
Proof.
  rewrite forallb_forall. intros H. apply NoDup_ListNoDup, (NoDup_count_occ' String.string_dec).
  intros x Hx. rewrite <- count_of_occ. by apply Nat.eqb_eq, H.
Qed.

Lemma filter_none {A} (p : A → bool) l : length (List.filter p l) = 0%nat → Forall (λ x, p x = false) l.
Proof.
  intros H. apply Forall_forall. intros x Hx. destruct (p x) eqn:E; [|done].
  assert (x ∈ List.filter p l) as Hin by (apply list_elem_of_In, filter_In; by rewrite <- list_elem_of_In).
  destruct (List.filter p l); [by apply not_elem_of_nil in Hin|done].
Qed.

(** A client request that was answered *)
Definition answered (result : json) : Prop :=
  ∃ d, result = JObject d ∧ json_eq (jget "http_status" d) (JInt 200) = true ∧ jget "error" d = JNull.

Lemma not_failed result : failed result = false → answered result.
Proof.
  unfold failed, answered. destruct result as [| | |d]; try done.
  intros [Hs%negb_false_iff He%negb_false_iff]%orb_false_iff. exists d. split_and!; try done.
  by destruct (jget "error" d).
Qed.

(** An arm that the calibration accepts stands for a run whose recording was complete:
    the analysis is valid, every client request was answered, every process that started
    wrote one summary, drained and without a dropped record or a writer failure, and no
    record reports a loss. *)
Theorem calibration_arm_grounded other analysis clients manifest records arm w run_ids a :
  summarize_runtime_run other analysis clients manifest records = Ok arm →
  _validate_arm w run_ids (JObject arm) = Ok a →
  jget "evidence_valid" analysis = JBool true ∧
  (∃ results, jget "results" clients = JList results ∧ ca_request_count a = Z.of_nat (length results) ∧
     Forall answered results) ∧
  (∃ starts summaries, process_uuids other "process_start" records = Ok starts ∧
     process_uuids other "process_summary" records = Ok summaries ∧
     starts ≠ [] ∧ NoDup starts ∧ summaries ≡ₚ starts) ∧
  Forall (λ row, is_record "process_summary" row = true → drained row = true) records ∧
  Forall (λ row, is_loss other row = false) records.
Proof.
  unfold summarize_runtime_run. intros H Ha. destruct (jget "results" clients) as [| |[|r rs]|] eqn:Er; try done.
  apply bind_ok in H as (starts & Hst & H). apply bind_ok in H as (summaries & Hsu & H).
  apply bind_ok in H as (totals & _ & H). apply bind_ok in H as (run_id & _ & H). injection H as <-.
  apply validate_arm_ok in Ha as [[(d & [= <-] & _ & _ & Hv & Hc & He & _) _ _] _].
  cbn [jget assoc String.eqb Ascii.eqb Bool.eqb default] in Hv, Hc, He. injection Hv as Hv. injection Hc as <-.
  unfold run_valid, summaries_valid in Hv. rewrite !andb_true_iff in Hv.
  destruct Hv as ((((Hana%is_true_ok & (((Hne & Hcnt%counter_eq_Permutation) & Hone%counts_one_NoDup) & Hdr))
    & Hloss%Nat.eqb_eq%filter_none) & Hfail%Nat.eqb_eq%filter_none) & _).
  split; [done|]. split.
  { exists (r :: rs). split_and!; [done..|]. eapply Forall_impl; [exact Hfail|]. apply not_failed. }
  split.
  { exists starts, summaries. split_and!; try done. by intros ->. }
  split; [|done]. rewrite forallb_forall in Hdr. apply Forall_forall. intros row Hrow Hs.
  apply Hdr, filter_In. by rewrite <- list_elem_of_In.
Qed.

(** ** An example *)

Definition null_arm (run : string) (queue : Z) : json :=
  JObject [("run_id", JStr run); ("intervention", JStr "none"); ("evidence_valid", JBool true);
    ("request_count", JInt 4);
    ("candidate_totals_ms", JObject [("queue_or_admission", JFloat (of_Z queue)); ("decode_execution", JInt 20)]);
    ("error_count", JInt 0)].

Definition null_pair (id order : string) (a b : Z) : jdict :=
  [("pair_id", JStr id); ("order", JStr order); ("workload_id", JStr "w"); ("configuration_id", JStr "c");
   ("arm_a", null_arm (id +:+ "-a") a); ("arm_b", null_arm (id +:+ "-b") b)].

Definition null_pairs : list jdict :=
  [null_pair "p1" "AB" 10 12; null_pair "p2" "BA" 10 11; null_pair "p3" "AB" 10 19; null_pair "p4" "BA" 10 10;
   null_pair "p5" "AB" 10 8].

Lemma calibration_sound_witness :
  ∃ report, build_calibration_report null_pairs = Ok report ∧
    jget "insufficient_evidence_floor_ms" report = JFloat (of_Z 9) ∧
    ∃ es p95 floor, report = calibration_report (map pe_row es) p95 floor ∧
      NoDup (concat (map run_ids_of_pair es)) ∧
      Forall (λ e, fle (fabs (pd_total_positive_ms (pe_row e))) floor = true) es.
Proof.
  assert (∃ report, build_calibration_report null_pairs = Ok report ∧
    jget "insufficient_evidence_floor_ms" report = JFloat (of_Z 9)) as (report & Hr & Hf).
  { eexists. split; [vm_compute; reflexivity|vm_compute; reflexivity]. }
  exists report. split; [exact Hr|]. split; [exact Hf|]. clear Hf. revert Hr. generalize null_pairs.
  intros pairs Hr. destruct (calibration_sound pairs report Hr) as (es & m & p95 & floor & He & _ & _ & _ & Hn & Hall & _).
  exists es, p95, floor. split; [exact He|]. split; [exact Hn|exact Hall].
Defined.

Definition run_record (record_type : string) (fields : jdict) : jdict :=
  ("record_type", JStr record_type) :: ("process_uuid", JStr "u") :: fields.

Definition example_run : list jdict :=
  [run_record "process_start" [];
   run_record "event" [("event_name", JStr "queued"); ("start_span_id", JStr "s"); ("timestamp_ns", JInt 1000000)];
   run_record "event" [("event_name", JStr "scheduled"); ("end_span_id", JStr "s"); ("timestamp_ns", JInt 3500000)];
   run_record "process_summary" [("close_outcome", JStr "drained"); ("dropped_data_count", JInt 0);
     ("dropped_control_count", JInt 0); ("writer_failure_count", JInt 0)]].

Definition example_summary : res jdict :=
  summarize_runtime_run (λ _, "") [("evidence_valid", JBool true)]
    [("results", JList [JObject [("http_status", JInt 200); ("error", JNull)]])] [("run_id", JStr "run-1")]
    example_run.

Lemma calibration_arm_grounded_witness :
  ∃ arm a, example_summary = Ok arm ∧ _validate_arm "arm" [] (JObject arm) = Ok a ∧
    ca_totals a = [("queue_or_admission", NFloat (lit 25 10))] ∧
    Forall (λ row, is_loss (λ _, "") row = false) example_run.
Proof.
  assert (∃ arm a, example_summary = Ok arm ∧ _validate_arm "arm" [] (JObject arm) = Ok a ∧
    ca_totals a = [("queue_or_admission", NFloat (lit 25 10))]) as (arm & a & Hs & Ha & Ht).
  { eexists _, _. split; [vm_compute; reflexivity|]. split; vm_compute; reflexivity. }
  exists arm, a. split; [exact Hs|]. split; [exact Ha|]. split; [exact Ht|]. clear Ht. unfold example_summary in Hs.
  revert Hs Ha. generalize example_run. intros records Hs Ha.
  destruct (calibration_arm_grounded _ _ _ _ _ _ _ _ _ Hs Ha) as (_ & _ & _ & _ & Hl). exact Hl.
Defined.
