(* ===== verification/Workload.v ===== *)
(** * oasst1_workload.py: the requests of the campaign

    A projection of conversation trees to requests: of every exportable tree the longest
    eligible path of messages is a candidate, and the longest candidates are dealt out to
    the repetitions.  The trees are parsed JSON, one per line of the data file; fetching and
    verifying the file are left out, and the tokenizer is an argument.

    The repetitions partition the pool: [repetitions_partition]. *)

From Stdlib Require Import ZArith Lia Ascii String.
From stdpp Require Import base strings gmap sets sorting list.
From S2P Require Import Prelude PyValue Binary64 JsonValue.

Definition OASST1_REVISION := "fdf72ae0827c1cda404aff25b6603abec9e3399b".
Definition OASST1_FILENAME := "2023-04-12_oasst_ready.trees.jsonl.gz".
Definition PROJECTION_VERSION := "oasst1-longest-safe-en-v1".
Definition DEFAULT_POOL_SIZE : nat := 640.
Definition DEFAULT_REPETITIONS : nat := 10.
Definition DEFAULT_REQUESTS_PER_REPETITION : nat := 64.
Definition DEFAULT_MAX_OUTPUT_TOKENS : Z := 192.
Definition DEFAULT_MAX_MODEL_LEN : Z := 10880.

Record ChatMessage := mkChatMessage {
  cm_role : string;
  cm_content : string }.

Record Oasst1Request := mkOasst1Request {
  oa_request_id : string;
  oa_repetition : Z;
  oa_ordinal : Z;
  oa_message_tree_id : string;
  oa_source_message_id : string;
  oa_prompt_char_count : Z;
  oa_messages : list ChatMessage;
  oa_max_output_tokens : Z;
  oa_temperature : float }.

Record ContextPreflight := mkContextPreflight {
  cx_request_count : Z;
  cx_min_input_tokens : Z;
  cx_median_input_tokens : number;
  cx_max_input_tokens : Z;
  cx_repetition_input_tokens : list Z;
  cx_max_output_tokens : Z;
  cx_max_model_len : Z }.

(** [_Candidate] *)
Record candidate := mkCandidate {
  cd_message_tree_id : string;
  cd_source_message_id : string;
  cd_prompt_char_count : Z;
  cd_messages : list ChatMessage }.

(** ** Eligible messages *)

Definition _label_is_safe (message : jdict) (label_name : string) : bool :=
  match jget "labels" message with
  | JObject labels =>
      match assoc label_name labels with
      | Some (JObject label) => json_eq (jget "value" label) (JInt 0)
      | Some _ => false
      | None => true
      end
  | _ => true
  end.

(** [str.isspace] of the characters up to 255 *)
Definition is_space (c : ascii) : bool :=
  let n := code c in
  (9 <=? n) && (n <=? 13) || (28 <=? n) && (n <=? 32) || (n =? 133) || (n =? 160).

(** [bool(text.strip())] *)
Definition not_blank (text : string) : bool := negb (str_forall is_space text).

Definition is_false (v : json) : bool := match v with JBool b => negb b | _ => false end.

Definition _message_is_eligible (message : jdict) : res bool :=
  role ← json_in (jget "role" message) ["prompter"; "assistant"];
  Ok (role && json_eq (jget "lang" message) (JStr "en") && is_false (jget "synthetic" message)
      && is_false (jget "deleted" message) && negb (is_false (jget "review_result" message))
      && match jget "text" message with JStr text => not_blank text | _ => false end
      && _label_is_safe message "pii" && _label_is_safe message "not_appropriate").

Definition is_prompter (message : jdict) : bool := json_eq (jget "role" message) (JStr "prompter").

(** For an eligible message, whose text is a text *)
Definition _to_chat_message (message : jdict) : ChatMessage :=
  mkChatMessage (if is_prompter message then "user" else "assistant")
    (match jget "text" message with JStr text => text | _ => "" end).

(** ** Candidates *)

(** [len("\n".join(...))] *)
Definition joined_length (path : list ChatMessage) : Z :=
  sum_list_Z (map (λ m, Z.of_nat (String.length (cm_content m))) path) + Z.max 0 (Z.of_nat (length path) - 1).

(** The candidate that ends with the message *)
Definition candidate_at (tree_id : string) (message : jdict) (path : list ChatMessage) : list candidate :=
  if is_prompter message then
    match jget "message_id" message with
    | JStr id => [mkCandidate tree_id id (joined_length path) path]
    | _ => []
    end
  else [].

(** The inner function [visit]; a reply that is not an object is skipped. *)
Fixpoint visit_message (tree_id : string) (path : list ChatMessage) (path_is_eligible : bool) (message : json)
    : res (list candidate) :=
  match message with
  | JObject d =>
      eligible ← (if path_is_eligible then _message_is_eligible d else Ok false);
      let current := if (eligible : bool) then path ++ [_to_chat_message d] else path in
      replies ← (fix find (e : jdict) : res (list candidate) :=
        match e with
        | [] => Ok []
        | (k, v) :: e =>
            if String.eqb k "replies" then
              match v with
              | JList l =>
                  (fix visit_all (l : list json) : res (list candidate) :=
                    match l with
                    | [] => Ok []
                    | reply :: l =>
                        a ← visit_message tree_id current eligible reply;
                        b ← visit_all l;
                        Ok (a ++ b)
                    end) l
              | _ => Ok []
              end
            else find e
        end) d;
      Ok ((if eligible then candidate_at tree_id d current else []) ++ replies)
  | _ => Ok []
  end.

Definition _tree_candidates (tree : jdict) : res (list candidate) :=
  if negb (json_eq (jget "tree_state" tree) (JStr "ready_for_export")) then Ok []
  else
    match jget "message_tree_id" tree, jget "prompt" tree with
    | JStr tree_id, JObject root => visit_message tree_id [] true (JObject root)
    | _, _ => Ok []
    end.

Definition str_lt (a b : string) : bool := negb (bool_decide (String.le b a)).

(** [(-count, source_message_id)] *)
Definition longer_path (a b : candidate) : bool :=
  if cd_prompt_char_count a =? cd_prompt_char_count b
  then str_lt (cd_source_message_id a) (cd_source_message_id b)
  else cd_prompt_char_count b <? cd_prompt_char_count a.

Definition _best_candidate (tree : jdict) : res (option candidate) :=
  candidates ← _tree_candidates tree;
  Ok (match candidates with
      | [] => None
      | c :: cs => Some (foldl (λ best c, if longer_path c best then c else best) c cs)
      end).

(** [_load_oasst1_candidates], from the parsed lines *)
Definition load_candidates (trees : list json) : res (list candidate) :=
  found ← res_mapM (λ v, match v with JObject tree => _best_candidate tree | _ => Raise TypeError end) trees;
  Ok (omap (M:=list) id found).

(** ** Repetitions *)

(** [(message_tree_id, source_message_id)] *)
Definition by_tree (a b : candidate) : bool :=
  if String.eqb (cd_message_tree_id a) (cd_message_tree_id b)
  then str_lt (cd_source_message_id a) (cd_source_message_id b)
  else str_lt (cd_message_tree_id a) (cd_message_tree_id b).

(** [(-prompt_char_count, message_tree_id, source_message_id)] *)
Definition by_length (a b : candidate) : bool :=
  if cd_prompt_char_count a =? cd_prompt_char_count b then by_tree a b
  else cd_prompt_char_count b <? cd_prompt_char_count a.

(** [l[start::step]] *)
Definition slice_step {A} (start step : nat) (l : list A) : list A :=
  omap (λ i, l !! (start + i * step)%nat) (seq 0 (length l)).

(** [f"{n:0{width}d}"] of a number that is not negative *)
Definition pad (width : nat) (n : nat) : string :=
  let digits := str_of_Z (Z.of_nat n) in
  str_concat "" (repeat "0" (width - String.length digits)) +:+ digits.

Definition request_of (repetition : nat) (oc : nat * candidate) : Oasst1Request :=
  let '(ordinal, c) := oc in
  mkOasst1Request
    ("issue19-oasst1-r" +:+ pad 2 repetition +:+ "-" +:+ pad 3 ordinal +:+ "-" +:+ cd_source_message_id c)
    (Z.of_nat repetition) (Z.of_nat ordinal) (cd_message_tree_id c) (cd_source_message_id c)
    (cd_prompt_char_count c) (cd_messages c) DEFAULT_MAX_OUTPUT_TOKENS f0.

Definition repetition_requests (pool : list candidate) (repetitions requests_per_repetition repetition : nat)
    : res (list Oasst1Request) :=
  let selected := stable_sort by_tree (slice_step repetition repetitions pool) in
  let requests := map (request_of repetition) (enumerate selected) in
  ensure (length requests =? requests_per_repetition)%nat AssertionError ;;
  Ok requests.

(** [build_oasst1_repetitions] after the file was read *)
Definition deal_repetitions (candidates : list candidate)
    (pool_size repetitions requests_per_repetition : nat) : res (list (list Oasst1Request)) :=
  let candidates := stable_sort by_length candidates in
  ensure (pool_size <=? length candidates)%nat
    (ValueError ("OASST1 projection needs " +:+ str_of_Z (Z.of_nat pool_size) +:+ " trees, found "
                 +:+ str_of_Z (Z.of_nat (length candidates)))) ;;
  res_mapM (repetition_requests (take pool_size candidates) repetitions requests_per_repetition)
    (seq 0 repetitions).

Definition build_oasst1_repetitions (trees : list json) (pool_size repetitions requests_per_repetition : nat)
    : res (list (list Oasst1Request)) :=
  ensure (pool_size =? repetitions * requests_per_repetition)%nat
    (ValueError "pool size must equal repetitions times requests per repetition") ;;
  candidates ← load_candidates trees;
  deal_repetitions candidates pool_size repetitions requests_per_repetition.

(** ** The context gate *)

Section gate.
  (** The number of tokens of the templated chat, or the tokenizer's exception *)
  Context (encoded_length : list ChatMessage → res Z).

Definition admit_request (max_model_len : Z) (request : Oasst1Request) (st : option Z * list Z)
    : res (option Z * list Z) :=
  tokens ← encoded_length (oa_messages request);
  ensure (tokens + oa_max_output_tokens request <=? max_model_len)
    (ValueError ("request " +:+ oa_request_id request +:+ " exceeds the context gate")) ;;
  ensure (match st.1 with Some n => n =? oa_max_output_tokens request | None => true end)
    (ValueError "requests do not share one max_output_tokens value") ;;
  Ok (Some (oa_max_output_tokens request), st.2 ++ [tokens]).

(** One repetition: the state of the loop, and the total of the repetition *)
Definition admit_repetition (max_model_len : Z) (requests : list Oasst1Request)
    (st : (option Z * list Z) * list Z) : res ((option Z * list Z) * list Z) :=
  after ← res_foldM (admit_request max_model_len) requests st.1;
  Ok (after, st.2 ++ [sum_list_Z (drop (length st.1.2) after.2)]).

(** [statistics.median] of integers *)
Definition int_median (values : list Z) : res number :=
  let d := merge_sort Z.le values in
  let n := length d in
  if Nat.odd n then Ok (NInt (nth (n / 2) d 0))
  else x ← int_truediv (nth (n / 2 - 1) d 0 + nth (n / 2) d 0) 2; Ok (NFloat x).

Definition preflight_context_lengths (repetitions : list (list Oasst1Request)) (max_model_len : Z)
    : res ContextPreflight :=
  st ← res_foldM (admit_repetition max_model_len) repetitions ((None, []), []);
  match st.1.1, st.1.2 with
  | Some max_output_tokens, first :: rest =>
      m ← int_median (first :: rest);
      Ok (mkContextPreflight (Z.of_nat (length (first :: rest))) (foldl Z.min first rest) m
        (foldl Z.max first rest) st.2 max_output_tokens max_model_len)
  | _, _ => Raise (ValueError "context preflight requires at least one request")
  end.

End gate.

(** ** The projection *)

Definition request_row (r : Oasst1Request) : json :=
  JObject [("request_id", JStr (oa_request_id r)); ("repetition", JInt (oa_repetition r));
    ("ordinal", JInt (oa_ordinal r)); ("message_tree_id", JStr (oa_message_tree_id r));
    ("source_message_id", JStr (oa_source_message_id r)); ("prompt_char_count", JInt (oa_prompt_char_count r));
    ("max_output_tokens", JInt (oa_max_output_tokens r)); ("temperature", JFloat (oa_temperature r))].

Definition project_request (r : Oasst1Request) (st : list string * list json) : res (list string * list json) :=
  ensure (negb (str_in (oa_message_tree_id r) st.1)) (ValueError "OASST1 projection contains a duplicate tree") ;;
  Ok (oa_message_tree_id r :: st.1, st.2 ++ [request_row r]).

Definition build_projection_manifest (repetitions : list (list Oasst1Request)) : res jdict :=
  st ← res_foldM project_request (concat repetitions) ([], []);
  Ok [("data_source", JStr "OpenAssistant/oasst1"); ("data_revision", JStr OASST1_REVISION);
      ("data_file", JStr OASST1_FILENAME); ("projection_version", JStr PROJECTION_VERSION);
      ("repetition_count", JInt (Z.of_nat (length repetitions)));
      ("request_count", JInt (Z.of_nat (length st.2))); ("requests", JList st.2)].

(** ** Dealing the pool out *)

Lemma omap_none {A B} (f : A → option B) l : (∀ x, x ∈ l → f x = None) → omap f l = [].
Proof.
  induction l as [|x l IH]; intros H; [done|]. cbn. rewrite (H x) by by left. apply IH. intros y Hy.
  apply H. by right.
Qed.

(** Indices past the end add nothing. *)
Lemma slice_bound {A} (start step m : nat) (l : list A) :
  (0 < step)%nat → (length l ≤ m)%nat →
  omap (λ i, l !! (start + i * step)%nat) (seq 0 m) = slice_step start step l.
Proof.
  intros Hs Hm. unfold slice_step. replace m with (length l + (m - length l))%nat by lia.
  rewrite seq_app, omap_app. rewrite (omap_none _ (seq (0 + length l) _)); [by rewrite app_nil_r|].
  intros i Hi%elem_of_seq. apply lookup_ge_None. nia.
Qed.

Lemma slice_cons {A} (start step : nat) (l1 l2 : list A) x :
  length l1 = step → l1 !! start = Some x → slice_step start step (l1 ++ l2) = x :: slice_step start step l2.
Proof.
  intros Hl Hx. pose proof (lookup_lt_Some _ _ _ Hx) as Hlt. unfold slice_step at 1.
  rewrite length_app, Hl. destruct (step + length l2)%nat as [|m] eqn:E; [lia|].
  assert ((l1 ++ l2) !! (start + 0 * step)%nat = Some x) as H0.
  { rewrite Nat.mul_0_l, Nat.add_0_r, lookup_app_l by lia. done. }
  change (seq 0 (S m)) with ([0%nat] ++ seq 1 m). rewrite omap_app. cbn [omap list_omap]. rewrite H0.
  cbn [app]. f_equal. rewrite <- (slice_bound start step m l2) by lia.
  apply list_omap_ext. rewrite <- seq_shift. apply Forall2_fmap_l, Forall_Forall2_diag, Forall_forall.
  intros j _. unfold compose. rewrite lookup_app_r by lia. f_equal. lia.
Qed.

(** Step by step the slices take everything once. *)
Lemma slices_partition {A} (n k : nat) (l : list A) :
  length l = (n * k)%nat →
  concat (map (λ r, slice_step r n l) (seq 0 n)) ≡ₚ l ∧
  ∀ r, (r < n)%nat → length (slice_step r n l) = k.
Proof.
  revert l. induction k as [|k IH]; intros l Hl.
  - rewrite Nat.mul_0_r in Hl. apply nil_length_inv in Hl as ->. split; [|done].
    generalize 0%nat at 1. induction n as [|n IHn]; intros s; simpl; [done|]. apply IHn.
  - destruct (IH (drop n l)) as [Hp Hlen]; [rewrite length_drop; lia|].
    assert (length (take n l) = n) as Ht by (rewrite length_take; lia).
    assert (∀ r, (r < n)%nat → ∃ x, take n l !! r = Some x ∧ slice_step r n l = x :: slice_step r n (drop n l)) as Hs.
    { intros r Hr. destruct (lookup_lt_is_Some_2 (take n l) r) as [x Hx]; [lia|]. exists x. split; [done|].
      rewrite <- (take_drop n l) at 1. by apply slice_cons. }
    split.
    + transitivity (take n l ++ drop n l); [|by rewrite take_drop]. rewrite <- Hp. clear Hp Hlen IH Hl.
      assert (∀ pre suf, take n l = pre ++ suf →
        concat (map (λ r, slice_step r n l) (seq (length pre) (length suf)))
        ≡ₚ suf ++ concat (map (λ r, slice_step r n (drop n l)) (seq (length pre) (length suf)))) as H.
      { intros pre suf. revert pre. induction suf as [|x suf IHs]; intros pre Hpre; [done|].
        cbn [length seq map concat]. destruct (Hs (length pre)) as (y & Hy & ->).
        { rewrite <- Ht, Hpre, length_app. simpl. lia. }
        rewrite Hpre, list_lookup_middle in Hy by done. injection Hy as <-.
        specialize (IHs (pre ++ [x])). rewrite length_app in IHs. simpl in IHs. rewrite Nat.add_1_r in IHs.
        rewrite IHs by by rewrite <- app_assoc. simpl. apply perm_skip.
        rewrite !app_assoc. f_equiv. apply Permutation_app_comm. }
      specialize (H [] (take n l) eq_refl). rewrite Ht in H. simpl in H. done.
    + intros r Hr. destruct (Hs r Hr) as (x & _ & ->). simpl. by rewrite Hlen.
Qed.

(** What a request was made from *)
Definition source_of (r : Oasst1Request) : candidate :=
  mkCandidate (oa_message_tree_id r) (oa_source_message_id r) (oa_prompt_char_count r) (oa_messages r).

Definition longest_first (a b : candidate) : Prop := cd_prompt_char_count b ≤ cd_prompt_char_count a.

#[export] Instance longest_first_trans : Transitive longest_first.
Proof. intros a b c. unfold longest_first. lia. Qed.

Lemma by_length_sorted l : StronglySorted longest_first (stable_sort by_length l).
Proof.
  apply stable_sort_sorted; [apply _|..]; intros a b; unfold by_length, longest_first;
    destruct (Z.eqb_spec (cd_prompt_char_count a) (cd_prompt_char_count b)); [lia|..]; lia.
Qed.

(** The requests of one repetition *)
Definition numbered (repetition : nat) (requests : list Oasst1Request) : Prop :=
  ∀ i q, requests !! i = Some q → oa_repetition q = Z.of_nat repetition ∧ oa_ordinal q = Z.of_nat i.

Lemma repetition_requests_ok pool n k r requests :
  repetition_requests pool n k r = Ok requests →
  length requests = k ∧ map source_of requests ≡ₚ slice_step r n pool ∧ numbered r requests.
Proof.
  unfold repetition_requests. intros H. apply bind_ok in H as (? & Hk%ensure_ok%Nat.eqb_eq & H). injection H as <-.
  split; [done|]. split.
  - rewrite map_map. etrans; [|apply (stable_sort_Permutation by_tree)].
    etrans; [|rewrite <- enumerate_values; reflexivity]. erewrite map_ext; [reflexivity|].
    by intros [i [t m c ms]].
  - intros i q Hq. apply list_lookup_fmap_Some in Hq as ([j c] & -> & Hj). unfold enumerate in Hj.
    apply lookup_zip_Some in Hj as [Hj _]. apply lookup_seq in Hj as [-> _]. done.
Qed.

Lemma repetition_requests_total pool n k r :
  length (slice_step r n pool) = k → ∃ requests, repetition_requests pool n k r = Ok requests.
Proof.
  intros Hk. unfold repetition_requests. rewrite length_map. unfold enumerate. rewrite length_zip, length_seq.
  rewrite (Permutation_length (stable_sort_Permutation by_tree _)), Hk, Nat.min_id, Nat.eqb_refl. by eexists.
Qed.

(** What was dealt out, and that it was *)
Lemma dealt_ok candidates size n k reps :
  deal_repetitions candidates size n k = Ok reps →
  Forall2 (λ r requests, repetition_requests (take size (stable_sort by_length candidates)) n k r = Ok requests)
    (seq 0 n) reps.
Proof. unfold deal_repetitions. intros (? & _ & H)%bind_ok. by apply res_mapM_ok. Qed.

Lemma dealt_lookup candidates size n k reps r requests :
  deal_repetitions candidates size n k = Ok reps → reps !! r = Some requests →
  length requests = k ∧ numbered r requests.
Proof.
  intros H%dealt_ok Hr. destruct (Forall2_lookup_r _ _ _ _ _ H Hr) as (r' & Hr' & Hq).
  apply lookup_seq in Hr' as [-> _]. by apply repetition_requests_ok in Hq as (? & _ & ?).
Qed.

Lemma dealt_sources candidates n k reps :
  (n * k ≤ length candidates)%nat → deal_repetitions candidates (n * k) n k = Ok reps →
  map source_of (concat reps) ≡ₚ take (n * k) (stable_sort by_length candidates).
Proof.
  intros Hn H%dealt_ok. revert H. set (pool := take _ _). intros H.
  assert (length pool = (n * k)%nat) as Hlen.
  { subst pool. rewrite length_take, (Permutation_length (stable_sort_Permutation by_length candidates)). lia. }
  rewrite <- (proj1 (slices_partition n k pool Hlen)). clear Hlen. revert H. generalize (seq 0 n).
  intros rs H. induction H as [|r requests rs reps Hr _ IH]; [done|].
  apply repetition_requests_ok in Hr as (_ & Hr & _). simpl. by rewrite map_app, Hr, IH.
Qed.

Lemma dealt_total candidates n k :
  (n * k ≤ length candidates)%nat → ∃ reps, deal_repetitions candidates (n * k) n k = Ok reps.
Proof.
  intros Hn. rewrite <- (Permutation_length (stable_sort_Permutation by_length candidates)) in Hn.
  unfold deal_repetitions. rewrite (proj2 (Nat.leb_le _ _) Hn). cbn -[seq].
  destruct (slices_partition n k (take (n * k) (stable_sort by_length candidates))) as [_ Hlen].
  { rewrite length_take. lia. }
  destruct (res_mapM_total (repetition_requests (take (n * k) (stable_sort by_length candidates)) n k)
    (λ _ _, True) (seq 0 n)) as (reps & Hr & _); [|by exists reps].
  apply Forall_forall. intros r Hr%elem_of_seq.
  destruct (repetition_requests_total (take (n * k) (stable_sort by_length candidates)) n k r) as [requests Hq].
  { apply Hlen. lia. }
  by exists requests.
Qed.

(** C39. Dealing succeeds exactly when there are enough candidates.  The repetitions then
    partition a pool of the longest candidates: each candidate of the pool is the source of
    one request, none that was left out has a longer prompt, and every repetition has the
    same number of requests, numbered from zero. *)
Theorem repetitions_partition candidates n k :
  ((∃ repetitions, deal_repetitions candidates (n * k) n k = Ok repetitions) ↔ (n * k ≤ length candidates)%nat) ∧
  ∀ repetitions, deal_repetitions candidates (n * k) n k = Ok repetitions →
    length repetitions = n ∧
    (∀ r requests, repetitions !! r = Some requests → length requests = k ∧ numbered r requests) ∧
    ∃ pool rest, candidates ≡ₚ pool ++ rest ∧ map source_of (concat repetitions) ≡ₚ pool ∧
      ∀ c c', c ∈ pool → c' ∈ rest → cd_prompt_char_count c' ≤ cd_prompt_char_count c.
Proof.
  assert (∀ reps, deal_repetitions candidates (n * k) n k = Ok reps → (n * k ≤ length candidates)%nat) as Henough.
  { unfold deal_repetitions. intros reps (? & Hn%ensure_ok%Nat.leb_le & _)%bind_ok.
    by rewrite (Permutation_length (stable_sort_Permutation by_length candidates)) in Hn. }
  split; [split; [by intros [reps H%Henough]|apply dealt_total]|]. intros reps H. split.
  { pose proof (Forall2_length _ _ _ (dealt_ok _ _ _ _ _ H)) as Hl. by rewrite length_seq in Hl. }
  split; [intros r requests; by apply dealt_lookup with (1 := H)|].
  eexists _, (drop (n * k) (stable_sort by_length candidates)).
  split; [|split; [apply dealt_sources; eauto|]].
  - by rewrite take_drop, (stable_sort_Permutation by_length).
  - intros c c' Hc Hc'. pose proof (by_length_sorted candidates) as Hs.
    rewrite <- (take_drop (n * k) (stable_sort by_length candidates)) in Hs.
    exact (StronglySorted_app_1_elem_of longest_first _ _ _ _ Hs Hc Hc').
Qed.

(** The trees that were dealt out stay distinct. *)
Lemma dealt_trees candidates n k reps :
  (n * k ≤ length candidates)%nat → NoDup (map cd_message_tree_id candidates) →
  deal_repetitions candidates (n * k) n k = Ok reps → NoDup (map oa_message_tree_id (concat reps)).
Proof.
  intros Hn Hd H. apply (dealt_sources _ _ _ _ Hn) in H.
  assert (map oa_message_tree_id (concat reps) = map cd_message_tree_id (map source_of (concat reps))) as ->
    by by rewrite map_map.
  rewrite H. rewrite <- (stable_sort_Permutation by_length candidates) in Hd.
  rewrite <- (take_drop (n * k) (stable_sort by_length candidates)), map_app in Hd. by apply NoDup_app in Hd as [? _].
Qed.

(** The projection succeeds on distinct trees, with a row for each request. *)
Lemma project_requests rs seen rows :
  NoDup (map oa_message_tree_id rs) → (∀ r, r ∈ rs → oa_message_tree_id r ∉ seen) →
  ∃ seen', res_foldM project_request rs (seen, rows) = Ok (seen', rows ++ map request_row rs).
Proof.
  revert seen rows. induction rs as [|r rs IH]; intros seen rows Hd Hs.
  - exists seen. by rewrite app_nil_r.
  - assert (project_request r (seen, rows) = Ok (oa_message_tree_id r :: seen, rows ++ [request_row r])) as Hp.
    { unfold project_request. cbn [fst snd]. rewrite (proj2 (str_in_spec_false _ _)) by (apply Hs; by left). done. }
    apply NoDup_cons in Hd as [Hr Hd]. cbn [res_foldM]. rewrite Hp. cbn [mbind res_bind].
    destruct (IH (oa_message_tree_id r :: seen) (rows ++ [request_row r])) as [seen' H]; [done| |].
    + intros q Hq [Heq|Hin]%elem_of_cons; [|by apply (Hs q); [right|]].
      apply Hr. rewrite <- Heq. apply list_elem_of_fmap. eauto.
    + exists seen'. by rewrite H, <- app_assoc.
Qed.

Lemma projection_rows reps :
  NoDup (map oa_message_tree_id (concat reps)) →
  ∃ projection, build_projection_manifest reps = Ok projection ∧
    jget "data_revision" projection = JStr OASST1_REVISION ∧
    jget "requests" projection = JList (map request_row (concat reps)).
Proof.
  intros Hd. destruct (project_requests (concat reps) [] [] Hd) as [seen H].
  { intros r _. apply not_elem_of_nil. }
  unfold build_projection_manifest. rewrite H. by eexists.
Qed.

Definition example_candidate (tree : string) (n : Z) : candidate :=
  mkCandidate tree (tree +:+ "-m") n [mkChatMessage "user" tree].

Definition example_candidates : list candidate :=
  [example_candidate "a" 3; example_candidate "b" 9; example_candidate "c" 7; example_candidate "d" 1;
   example_candidate "e" 5].

Lemma repetitions_partition_witness :
  ∃ repetitions, deal_repetitions example_candidates (2 * 2) 2 2 = Ok repetitions ∧
    map (map oa_request_id) repetitions
    = [["issue19-oasst1-r00-000-b-m"; "issue19-oasst1-r00-001-e-m"];
       ["issue19-oasst1-r01-000-a-m"; "issue19-oasst1-r01-001-c-m"]] ∧
    ∃ pool rest, example_candidates ≡ₚ pool ++ rest ∧ map source_of (concat repetitions) ≡ₚ pool.
Proof.
  assert (∃ repetitions, deal_repetitions example_candidates (2 * 2) 2 2 = Ok repetitions ∧
    map (map oa_request_id) repetitions
    = [["issue19-oasst1-r00-000-b-m"; "issue19-oasst1-r00-001-e-m"];
       ["issue19-oasst1-r01-000-a-m"; "issue19-oasst1-r01-001-c-m"]]) as (reps & Hr & Hids).
  { eexists. split; vm_compute; reflexivity. }
  exists reps. split; [exact Hr|]. split; [exact Hids|]. clear Hids. revert Hr. generalize example_candidates.
  intros cs Hr. destruct (repetitions_partition cs 2 2) as [_ H].
  destruct (H reps Hr) as (_ & _ & pool & rest & Hp & Hs & _). exists pool, rest. split; [exact Hp|exact Hs].
Defined.
