(* ===== verification/ExecutionPlan.v ===== *)
(** * issue19_m0.py: the plan of the campaign and its gates

    [build_execution_manifest] turns the projection of [Workload] into ten service
    lifecycles of 64 requests; the gates decide what may run: the KV capacity for one full
    request, the result of a service smoke test, and the final readiness.  The probes of
    the environment (git, subprocesses, files) are left out.

    The manifest of a projection that was built is built, and its lifecycles are those of
    the projection: [execution_plan_total]. *)

From Stdlib Require Import ZArith Lia Ascii String.
From stdpp Require Import base strings gmap sets sorting list.
From S2P Require Import Prelude PyValue Binary64 JsonValue Workload.

Definition SEEDS : list Z := seqZ 2026082000 10.

Definition SCENARIO_TARGET_ORDINALS : list (string * nat) :=
  [("normal_completion", 0%nat); ("client_disconnect", 1%nat); ("client_timeout", 2%nat);
   ("duplicate_cancel", 3%nat); ("recovery", 4%nat); ("worker_exit", 5%nat)].

Definition SCENARIO_ORDER : list string := SCENARIO_TARGET_ORDINALS.*1.

Definition TARGET_MODEL := "Qwen/Qwen2.5-14B-Instruct".
Definition TARGET_DTYPE := "bfloat16".
Definition TARGET_MAX_MODEL_LEN : Z := DEFAULT_MAX_MODEL_LEN.
Definition TARGET_KV_CACHE_MEMORY_BYTES : Z := 2 * 1024 ^ 3.
Definition TARGET_CPU_OFFLOAD_BYTES : Z := 8 * 1024 ^ 3.
Definition TARGET_KV_BLOCK_SIZE : Z := 128.
Definition TARGET_CONNECTOR := "OffloadingConnector".
Definition TARGET_OFFLOADING_SPEC := "TieringOffloadingSpec".

Definition target_configuration : jdict :=
  [("target_class", JStr "specialty-target"); ("model", JStr TARGET_MODEL); ("dtype", JStr TARGET_DTYPE);
   ("tensor_parallel_size", JInt 1); ("max_model_len", JInt TARGET_MAX_MODEL_LEN); ("enforce_eager", JBool true);
   ("kv_cache_memory_bytes", JInt TARGET_KV_CACHE_MEMORY_BYTES); ("connector", JStr TARGET_CONNECTOR);
   ("offloading_spec", JStr TARGET_OFFLOADING_SPEC); ("cpu_offload_bytes", JInt TARGET_CPU_OFFLOAD_BYTES);
   ("lifecycle_reconcile", JBool false)].

(** ** The KV capacity gate *)

Section capacity.
  (** [int(text)], [None] for the [ValueError] *)
  Context (int_of_text : string → option Z).

(** [int(v)] of a configuration value: a float is truncated. *)
Definition to_int (v : json) : res Z :=
  match v with
  | JInt n => Ok n
  | JBool b => Ok (if b then 1 else 0)
  | JFloat x =>
      match x with
      | SpecFloat.S754_finite s m e =>
          let n := if 0 <=? e then Z.pos m * 2 ^ e else Z.pos m / 2 ^ (- e) in Ok (if s then - n else n)
      | SpecFloat.S754_zero _ => Ok 0
      | SpecFloat.S754_infinity _ => Raise (OverflowError "cannot convert float infinity to integer")
      | SpecFloat.S754_nan => Raise (ValueError "cannot convert float NaN to integer")
      end
  | JStr s => match int_of_text s with Some n => Ok n | None => Raise (ValueError "invalid literal for int()") end
  | _ => Raise TypeError
  end.

(** [config[key]] *)
Definition config_int (config : jdict) (key : string) : res Z :=
  match assoc key config with Some v => to_int v | None => Raise (KeyError key) end.

Definition floor_div (a b : Z) : res Z :=
  if b =? 0 then Raise ZeroDivisionError else Ok (a / b).

(** [config.get("head_dim") or hidden_size // attention_heads] *)
Definition head_dim (config : jdict) (hidden_size attention_heads : Z) : res Z :=
  if json_truthy (jget "head_dim" config) then to_int (jget "head_dim" config)
  else floor_div hidden_size attention_heads.

Definition remove_prefix (prefix s : string) : string :=
  if String.prefix prefix s
  then String.substring (String.length prefix) (String.length s - String.length prefix) s else s.

Definition element_sizes : list (string * Z) := [("bfloat16", 2); ("float16", 2); ("float32", 4)].

(** The bytes of one token, given [str] of a value that is not a text *)
Definition bytes_per_token (other : json → string) (config : jdict) : res (string * Z) :=
  hidden_size ← config_int config "hidden_size";
  attention_heads ← config_int config "num_attention_heads";
  kv_heads ← config_int config "num_key_value_heads";
  layers ← config_int config "num_hidden_layers";
  dim ← head_dim config hidden_size attention_heads;
  let dtype := remove_prefix "torch." (text_of other (default (JStr TARGET_DTYPE) (assoc "torch_dtype" config))) in
  match assoc dtype element_sizes with
  | Some element_size => Ok (dtype, 2 * layers * kv_heads * dim * element_size)
  | None => Raise (KeyError dtype)
  end.

Record capacity_gate := mkCapacityGate {
  cg_passed : bool;
  cg_dtype : string;
  cg_bytes_per_token : Z;
  cg_capacity_tokens : Z;
  cg_required_bytes : Z }.

(** [inspect_kv_capacity_gate] on the parsed configuration; every exception becomes a gate
    that did not pass, here the exception itself. *)
Definition inspect_kv_capacity_gate (other : json → string) (config : jdict)
    (max_model_len kv_cache_memory_bytes block_size : Z) : res capacity_gate :=
  per_token ← bytes_per_token other config;
  let bytes_per_block := per_token.2 * block_size in
  capacity_blocks ← floor_div kv_cache_memory_bytes bytes_per_block;
  let capacity_tokens := capacity_blocks * block_size in
  required_blocks ← floor_div (max_model_len + block_size - 1) block_size;
  Ok (mkCapacityGate (max_model_len <=? capacity_tokens) per_token.1 per_token.2 capacity_tokens
        (required_blocks * bytes_per_block)).

(** The capacity gate passes exactly when the blocks of one full request fit into the
    memory of the cache. *)
Theorem capacity_gate_iff other config max_model_len memory block_size g :
  inspect_kv_capacity_gate other config max_model_len memory block_size = Ok g →
  0 < cg_bytes_per_token g → 0 < block_size →
  (cg_passed g = true ↔ cg_required_bytes g ≤ memory) ∧
  cg_capacity_tokens g * cg_bytes_per_token g ≤ memory < (cg_capacity_tokens g + block_size) * cg_bytes_per_token g ∧
  max_model_len * cg_bytes_per_token g ≤ cg_required_bytes g.
Proof.
  unfold inspect_kv_capacity_gate, floor_div. intros H. apply bind_ok in H as ([dtype b] & _ & H). simpl in H.
  destruct (b * block_size =? 0) eqn:Eb; [done|]. destruct (block_size =? 0) eqn:Es; [done|].
  injection H as <-. simpl. intros Hb Hs. rewrite Z.leb_le.
  assert (0 < b * block_size) as Hbb by nia.
  pose proof (Z.mul_div_le memory (b * block_size) Hbb) as Hlo.
  pose proof (Z.mul_succ_div_gt memory (b * block_size) Hbb) as Hhi.
  pose proof (Z.mul_div_le (max_model_len + block_size - 1) block_size Hs) as Hlo2.
  pose proof (Z.mul_succ_div_gt (max_model_len + block_size - 1) block_size Hs) as Hhi2.
  revert Hlo Hhi Hlo2 Hhi2. generalize (memory / (b * block_size)) ((max_model_len + block_size - 1) / block_size).
  intros blocks needed Hlo Hhi Hlo2 Hhi2. split_and!; [split|nia|nia|nia].
  - intros Hc. assert (needed ≤ blocks) by nia. nia.
  - intros Hc. assert (needed ≤ blocks) by nia. nia.
Qed.
End capacity.

(** ** The manifest *)

Record lifecycle := mkLifecycle {
  lc_repetition : nat;
  lc_seed : Z;
  lc_request_ids : list json;
  lc_scenario_targets : list (string * json);
  lc_survivors : list json }.

(** [repetition not in grouped]: the index of the group whose key equals the value *)
Definition group_index (v : json) : res nat :=
  match v with
  | JList _ | JObject _ => Raise TypeError
  | _ =>
      match List.find (λ i, json_eq v (JInt (Z.of_nat i))) (seq 0 10) with
      | Some i => Ok i
      | None => Raise (ValueError "projection repetition is outside 0..9")
      end
  end.

(** [grouped]: the rows with their repetition *)
Definition grouped_rows (rows : list json) : res (list (nat * jdict)) :=
  res_mapM (λ row, match row with
                   | JObject d => i ← group_index (jget "repetition" d); Ok (i, d)
                   | _ => Raise TypeError
                   end) rows.

(** [row["ordinal"]], as a number: the errors of other values are not distinguished. *)
Definition ordinal_of (row : jdict) : res number :=
  match assoc "ordinal" row with
  | Some (JScalar v) => match as_number v with Some n => Ok n | None => Raise TypeError end
  | Some _ => Raise TypeError
  | None => Raise (KeyError "ordinal")
  end.

Definition earlier (a b : number * jdict) : bool := num_lt a.1 b.1.

Definition request_id (row : jdict) : res json :=
  match assoc "request_id" row with Some v => Ok v | None => Raise (KeyError "request_id") end.

Definition num_eq (a b : number) : bool := bool_decide (num_compare a b = Some Eq).

Definition list_num_eq (a b : list number) : bool :=
  (length a =? length b)%nat && forallb (λ ab, num_eq ab.1 ab.2) (zip a b).

Definition index_or {A} (i : nat) (l : list A) : res A :=
  match l !! i with Some x => Ok x | None => Raise IndexError end.

Definition plan_lifecycle (rows : list (nat * jdict)) (rs : nat * Z) : res lifecycle :=
  let '(repetition, seed) := rs in
  keyed ← res_mapM (λ row, n ← ordinal_of row; Ok (n, row))
            (map snd (List.filter (λ r, (r.1 =? repetition)%nat) rows));
  let requests := stable_sort earlier keyed in
  ensure ((length requests =? 64)%nat && list_num_eq (map fst requests) (map (λ i, NInt (Z.of_nat i)) (seq 0 64)))
    (ValueError ("repetition " +:+ str_of_Z (Z.of_nat repetition) +:+ " is not an exact 64-request set")) ;;
  targets ← res_mapM (λ t, row ← index_or t.2 requests; id ← request_id row.2; Ok (t.1, id))
              SCENARIO_TARGET_ORDINALS;
  ids ← res_mapM (λ row, request_id row.2) requests;
  Ok (mkLifecycle repetition seed ids targets (drop 6 ids)).

Definition lifecycle_to_dict (l : lifecycle) : json :=
  JObject [("repetition", JInt (Z.of_nat (lc_repetition l))); ("seed", JInt (lc_seed l));
    ("service_lifecycle", JStr ("issue19-m0-" +:+ str_of_Z (lc_seed l)));
    ("request_ids", JList (lc_request_ids l)); ("scenario_order", JList (map (λ s, JStr s) SCENARIO_ORDER));
    ("scenario_targets", JObject (lc_scenario_targets l));
    ("unaffected_survivor_request_ids", JList (lc_survivors l)); ("worker_exit_is_final_action", JBool true)].

Definition SCENARIO_SEMANTICS : jdict :=
  [("normal_completion", JStr "complete one request through the real OpenAI route");
   ("client_disconnect", JStr "close the real streaming HTTP connection");
   ("client_timeout", JStr "enforce a 2.0 second client deadline");
   ("duplicate_cancel", JStr "call the same real AsyncLLM.abort identity twice");
   ("recovery", JStr "observe naturally triggered preemption and remote-KV recovery");
   ("worker_exit", JStr "kill only a verified child worker of this service, last")].

Definition SAFETY : jdict :=
  [("endpoint_scope", JStr "loopback-only"); ("worker_pid_must_be_owned_descendant", JBool true);
   ("npu_must_be_idle", JBool true); ("stop_if_preflight_blocked", JBool true);
   ("serving_callbacks", JStr "fail-open"); ("evidence_validation", JStr "fail-closed")].

Definition execution_manifest (lifecycles : list lifecycle) : jdict :=
  [("schema_version", JStr "issue19-m0-execution-plan/v1"); ("status", JStr "preflight-only");
   ("evidence_class", JStr "smoke-only"); ("intended_formal_evidence_class", JStr "real-online");
   ("observer_only", JBool true); ("lifecycle_reconcile", JBool false); ("treatment_implemented", JBool false);
   ("service_lifecycle_count", JInt 10); ("requests_per_lifecycle", JInt 64);
   ("client_timeout_seconds", JFloat (of_Z 2)); ("quiescence_stable_seconds", JInt 5);
   ("quiescence_timeout_seconds", JInt 120); ("communication_mode", JStr "issue2:kv-recovery-v1alpha1");
   ("target", JObject target_configuration); ("scenario_semantics", JObject SCENARIO_SEMANTICS);
   ("safety", JObject SAFETY); ("lifecycles", JList (map lifecycle_to_dict lifecycles))].

Definition build_execution_manifest (projection : jdict) : res jdict :=
  ensure (json_eq (jget "data_revision" projection) (JStr OASST1_REVISION))
    (ValueError "projection does not use the pinned OASST1 revision") ;;
  match jget "requests" projection with
  | JList rows =>
      rows ← grouped_rows rows;
      lifecycles ← res_mapM (plan_lifecycle rows) (enumerate SEEDS);
      Ok (execution_manifest lifecycles)
  | _ => Raise TypeError
  end.

(** ** The smoke test and the final gate *)

(** [v.get(key)], which raises for a value that is not an object *)
Definition get_from (v : json) (key : string) : res json :=
  match v with JObject d => Ok (jget key d) | _ => Raise AttributeError end.

Definition is_true (v : json) : bool := match v with JBool b => b | _ => false end.

Definition target_matches (resolved : json) : bool :=
  match resolved with
  | JObject d => forallb (λ kv, json_eq (jget kv.1 d) kv.2) target_configuration
  | _ => false
  end.

(** [result.get(key, {})] *)
Definition get_or_dict (key : string) (d : jdict) : json := default (JObject []) (assoc key d).

Definition initialization_checks (result : jdict) : res (list (string * bool)) :=
  status ← get_from (get_or_dict "health" result) "http_status";
  Ok [("schema", json_eq (jget "schema_version" result) (JStr "issue19-service-smoke/v1"));
      ("evidence_class", json_eq (jget "evidence_class" result) (JStr "smoke-only"));
      ("service_started", is_true (jget "service_started" result));
      ("health", json_eq status (JInt 200));
      ("connector_initialized", is_true (jget "connector_initialized" result));
      ("target_configuration", target_matches (jget "resolved_configuration" result))].

Definition trace_checks (result : jdict) : res (list (string * bool)) :=
  let trace := get_or_dict "trace_validation" result in
  terminal ← get_from trace "request_terminal_complete";
  recovery ← get_from trace "recovery_chain_complete";
  dropped ← get_from trace "dropped_data_count";
  failures ← get_from trace "writer_failure_count";
  Ok [("request_terminal_complete", is_true terminal); ("recovery_chain_complete", is_true recovery);
      ("dropped_data_count_zero", json_eq dropped (JInt 0)); ("writer_failure_count_zero", json_eq failures (JInt 0))].

(** [inspect_service_smoke_result] on the parsed result *)
Definition inspect_service_smoke_result (path : string) (result : jdict) : res jdict :=
  initialization ← initialization_checks result;
  trace ← trace_checks result;
  let initialization_passed := forallb snd initialization in
  let lifecycle_trace_complete := forallb snd trace in
  let as_json := map (λ kb : string * bool, (kb.1, JBool kb.2)) in
  Ok [("passed", JBool (initialization_passed && lifecycle_trace_complete));
      ("initialization_passed", JBool initialization_passed);
      ("lifecycle_trace_complete", JBool lifecycle_trace_complete); ("path", JStr path);
      ("initialization_checks", JObject (as_json initialization)); ("trace_checks", JObject (as_json trace))].

(** [list(dict.fromkeys(l))] *)
Fixpoint unique_in_order (seen l : list string) : list string :=
  match l with
  | [] => []
  | x :: l => if str_in x seen then unique_in_order seen l else x :: unique_in_order (x :: seen) l
  end.

Record readiness := mkReadiness {
  rd_blockers : list string;
  rd_ready_for_service_smoke : bool;
  rd_service_initialization_verified : bool;
  rd_m0_blockers : list string;
  rd_ready_for_m0 : bool }.

(** [finalize_readiness], from the blockers of the inspection *)
Definition finalize_readiness (blockers : list string) (service_smoke : jdict) : readiness :=
  let blockers := unique_in_order [] blockers in
  let initialized := json_truthy (jget "initialization_passed" service_smoke) in
  let traced := json_truthy (jget "lifecycle_trace_complete" service_smoke) in
  let m0_blockers := unique_in_order []
    (blockers ++ (if initialized then [] else ["service_smoke_initialization_not_verified"])
     ++ (if traced then [] else ["service_smoke_lifecycle_trace_incomplete"])) in
  mkReadiness blockers (match blockers with [] => true | _ => false end) initialized m0_blockers
    (match m0_blockers with [] => true | _ => false end).


(** ** The plan of a projection *)

(** What [plan_lifecycle] makes of the requests of a repetition *)
Definition planned (repetition : nat) (requests : list Oasst1Request) (l : lifecycle) : Prop :=
  let ids := map (λ q, JStr (oa_request_id q)) requests in
  lc_repetition l = repetition ∧ lc_seed l = 2026082000 + Z.of_nat repetition ∧
  lc_request_ids l = ids ∧ lc_survivors l = drop 6 ids ∧
  (lc_scenario_targets l).*1 = SCENARIO_ORDER ∧ (lc_scenario_targets l).*2 = take 6 ids.

Lemma group_index_of r : (r < 10)%nat → group_index (JInt (Z.of_nat r)) = Ok r.
Proof. intros Hr. do 10 (destruct r as [|r]; [reflexivity|]). lia. Qed.

Definition row_of (q : Oasst1Request) : jdict := match request_row q with JObject d => d | _ => [] end.
#[local] Arguments row_of : simpl never.

(** The grouped rows of repetitions that are numbered from [s] *)
Fixpoint tagged (s : nat) (reps : list (list Oasst1Request)) : list (nat * jdict) :=
  match reps with
  | [] => []
  | requests :: reps => map (λ q, (s, row_of q)) requests ++ tagged (S s) reps
  end.

Lemma grouped_rows_ok s reps :
  (s + length reps ≤ 10)%nat → (∀ r requests, reps !! r = Some requests → numbered (s + r) requests) →
  grouped_rows (map request_row (concat reps)) = Ok (tagged s reps).
Proof.
  unfold grouped_rows. rewrite res_mapM_ok. revert s. induction reps as [|requests reps IH]; intros s Hl Hn.
  { constructor. }
  simpl in Hl. cbn [concat tagged]. rewrite map_app. apply Forall2_app.
  - apply Forall2_fmap, Forall_Forall2_diag, Forall_forall. intros q [i Hq]%list_elem_of_lookup.
    destruct (Hn 0%nat requests eq_refl i q Hq) as [Hrep _]. rewrite Nat.add_0_r in Hrep.
    unfold row_of, request_row. rewrite Hrep. change (jget "repetition" _) with (JInt (Z.of_nat s)).
    rewrite group_index_of by lia. done.
  - apply IH; [lia|]. intros r rs Hr. specialize (Hn (S r) rs Hr). by rewrite Nat.add_succ_r in Hn.
Qed.

Lemma filter_tagged_other s r reps :
  (r < s)%nat → List.filter (λ x : nat * jdict, (x.1 =? r)%nat) (tagged s reps) = [].
Proof.
  revert s. induction reps as [|requests reps IH]; intros s Hr; [done|]. cbn [tagged].
  rewrite List.filter_app, (IH (S s)) by lia. rewrite app_nil_r. induction requests as [|q l IHl]; [done|].
  simpl. by rewrite (proj2 (Nat.eqb_neq s r)) by lia.
Qed.

Lemma filter_tagged s r requests reps :
  reps !! r = Some requests →
  map snd (List.filter (λ x : nat * jdict, (x.1 =? s + r)%nat) (tagged s reps)) = map row_of requests.
Proof.
  revert s r. induction reps as [|rs reps IH]; intros s r Hr; [done|]. cbn [tagged].
  rewrite List.filter_app, map_app. destruct r as [|r]; simpl in Hr.
  - injection Hr as ->. rewrite filter_tagged_other by lia. rewrite Nat.add_0_r, app_nil_r.
    clear IH. induction requests as [|q l IHl]; [done|]. simpl. rewrite Nat.eqb_refl. simpl. by rewrite IHl.
  - rewrite Nat.add_succ_r. specialize (IH (S s) r Hr). simpl in IH. rewrite IH.
    induction rs as [|q l IHl]; [done|]. simpl. by rewrite (proj2 (Nat.eqb_neq s _)) by lia.
Qed.

(** The requests of a repetition keep their order. *)
Definition numbered_row (iq : nat * Oasst1Request) : number * jdict := (NInt (Z.of_nat iq.1), row_of iq.2).

Lemma keyed_rows r requests :
  numbered r requests →
  res_mapM (λ row, n ← ordinal_of row; Ok (n, row)) (map row_of requests)
  = Ok (map numbered_row (enumerate requests)).
Proof.
  intros Hn. apply res_mapM_ok. apply Forall2_same_length_lookup_2.
  { rewrite !length_map. unfold enumerate. rewrite length_zip, length_seq. lia. }
  intros i a b Ha Hb. apply list_lookup_fmap_Some in Ha as (q & -> & Hq).
  apply list_lookup_fmap_Some in Hb as ([j q'] & -> & Hj). unfold enumerate in Hj.
  apply lookup_zip_Some in Hj as [Hj Hq']. apply lookup_seq in Hj as [-> _].
  rewrite Hq in Hq'. injection Hq' as <-. destruct (Hn i q Hq) as [_ Hord].
  unfold numbered_row. cbn [fst snd].
  assert (ordinal_of (row_of q) = Ok (NInt (oa_ordinal q))) as -> by reflexivity. by rewrite Hord.
Qed.

Lemma numbered_rows_sorted requests :
  stable_sort earlier (map numbered_row (enumerate requests)) = map numbered_row (enumerate requests).
Proof.
  apply stable_sort_id. unfold enumerate. generalize 0%nat at 1.
  induction requests as [|q l IH]; intros s; cbn [length seq zip zip_with map]; constructor; [apply IH|].
  apply Forall_forall. intros x Hx. apply list_elem_of_fmap in Hx as ([j p] & -> & Hj).
  apply elem_of_zip_l in Hj. apply elem_of_seq in Hj.
  unfold earlier, num_lt, numbered_row. simpl. destruct (Z.compare_spec (Z.of_nat j) (Z.of_nat s)); [done|lia|done].
Qed.

Lemma numbered_rows_ids requests :
  res_mapM (λ row : number * jdict, request_id row.2) (map numbered_row (enumerate requests))
  = Ok (map (λ q, JStr (oa_request_id q)) requests).
Proof.
  unfold enumerate. generalize 0%nat. induction requests as [|q l IH]; intros s; [done|].
  specialize (IH (S s)). simpl in IH |- *. by rewrite IH.
Qed.

Lemma numbered_rows_targets requests :
  (6 ≤ length requests)%nat →
  res_mapM (λ t : string * nat, row ← index_or t.2 (map numbered_row (enumerate requests));
            id ← request_id row.2; Ok (t.1, id)) SCENARIO_TARGET_ORDINALS
  = Ok (zip SCENARIO_ORDER (take 6 (map (λ q, JStr (oa_request_id q)) requests))).
Proof. intros Hl. do 6 (destruct requests as [|? requests]; [simpl in Hl; lia|]). reflexivity. Qed.

Lemma numbered_rows_ordinals requests :
  list_num_eq (map fst (map numbered_row (enumerate requests))) (map (λ i, NInt (Z.of_nat i)) (seq 0 (length requests)))
  = true.
Proof.
  assert (map fst (map numbered_row (enumerate requests)) = map (λ i, NInt (Z.of_nat i)) (seq 0 (length requests))) as ->.
  { unfold enumerate. generalize 0%nat. induction requests as [|q l IH]; intros s; [done|]. simpl. by rewrite <- IH. }
  unfold list_num_eq. rewrite Nat.eqb_refl. simpl. induction (seq 0 (length requests)) as [|i l IH]; [done|].
  simpl. rewrite IH, andb_true_r. unfold num_eq. simpl. by rewrite Z.compare_refl.
Qed.

Lemma plan_lifecycle_ok reps r requests :
  reps !! r = Some requests → numbered r requests → length requests = 64%nat →
  ∃ l, plan_lifecycle (tagged 0 reps) (r, 2026082000 + Z.of_nat r) = Ok l ∧ planned r requests l.
Proof.
  intros Hr Hn Hl. unfold plan_lifecycle.
  pose proof (filter_tagged 0 r requests reps Hr) as Hf. simpl in Hf. rewrite Hf. clear Hf.
  rewrite (keyed_rows r requests Hn). cbn [mbind res_bind].
  rewrite numbered_rows_sorted, numbered_rows_ids, numbered_rows_targets by lia.
  pose proof (numbered_rows_ordinals requests) as Ho. rewrite Hl in Ho. rewrite Ho.
  assert (length (map numbered_row (enumerate requests)) = 64%nat) as ->.
  { unfold enumerate. by rewrite length_map, length_zip, length_seq, Nat.min_id. }
  eexists. split; [reflexivity|]. unfold planned. cbn [lc_repetition lc_seed lc_request_ids lc_survivors lc_scenario_targets].
  assert (length (take 6 (map (λ q, JStr (oa_request_id q)) requests)) = 6%nat) as H6.
  { rewrite length_take, length_map, Hl. reflexivity. }
  repeat split; [apply fst_zip|apply snd_zip]; rewrite H6; reflexivity.
Qed.

(** C40. Whenever there are enough candidates of distinct trees, the requests are dealt out,
    projected and planned without an error.  The ten lifecycles are the ten repetitions:
    lifecycle [r] has the seed [2026082000 + r] and the requests of repetition [r] in their
    order, the first six are the targets of the six scenarios, the others the survivors. *)
Theorem execution_plan_total candidates :
  (DEFAULT_POOL_SIZE ≤ length candidates)%nat → NoDup (map cd_message_tree_id candidates) →
  ∃ repetitions projection lifecycles,
    deal_repetitions candidates DEFAULT_POOL_SIZE DEFAULT_REPETITIONS DEFAULT_REQUESTS_PER_REPETITION = Ok repetitions ∧
    build_projection_manifest repetitions = Ok projection ∧
    build_execution_manifest projection = Ok (execution_manifest lifecycles) ∧
    length lifecycles = 10%nat ∧
    ∀ r l, lifecycles !! r = Some l → ∃ requests, repetitions !! r = Some requests ∧ planned r requests l.
Proof.
  intros Hn Hd. destruct (dealt_total candidates 10 64 Hn) as [reps Hreps].
  pose proof (dealt_trees candidates 10 64 reps Hn Hd Hreps) as Htrees.
  destruct (projection_rows reps Htrees) as (projection & Hp & Hrev & Hrows).
  assert (length reps = 10%nat) as Hl.
  { pose proof (Forall2_length _ _ _ (dealt_ok _ _ _ _ _ Hreps)) as H. by rewrite length_seq in H. }
  destruct (res_mapM_total (plan_lifecycle (tagged 0 reps))
    (λ rs l, ∃ requests, reps !! rs.1 = Some requests ∧ planned rs.1 requests l) (enumerate SEEDS)) as (ls & Hls & Hplanned).
  { assert (Forall (λ rs, (rs.1 < 10)%nat ∧ rs.2 = 2026082000 + Z.of_nat rs.1) (enumerate SEEDS)) as Hs
      by (apply (bool_decide_unpack _); by vm_compute).
    eapply Forall_impl; [exact Hs|]. intros [r seed] [Hr Hseed]. simpl in Hr, Hseed. rewrite Hseed.
    destruct (lookup_lt_is_Some_2 reps r) as [requests Hq]; [lia|].
    destruct (dealt_lookup _ _ _ _ _ _ _ Hreps Hq) as [Hlen Hnum].
    destruct (plan_lifecycle_ok reps r requests Hq Hnum Hlen) as (l & ? & ?). by exists l; eauto. }
  exists reps, projection, ls. split; [exact Hreps|]. split; [exact Hp|]. split; [|split].
  - unfold build_execution_manifest. rewrite Hrev, Hrows.
    rewrite (grouped_rows_ok 0 reps) by (try lia; intros r rs Hr; by destruct (dealt_lookup _ _ _ _ _ _ _ Hreps Hr)).
    cbn [mbind res_bind]. rewrite Hls. reflexivity.
  - by apply Forall2_length in Hplanned.
  - intros r l Hr. destruct (Forall2_lookup_r _ _ _ _ _ Hplanned Hr) as ([j seed] & Hj & Hl').
    unfold enumerate in Hj. apply lookup_zip_Some in Hj as [Hj _]. by apply lookup_seq in Hj as [-> _].
Qed.

Definition example_pool : list candidate :=
  map (λ i, example_candidate ("tree-" +:+ pad 3 i) (Z.of_nat i)) (seq 0 640).

Lemma execution_plan_total_witness :
  ∃ repetitions projection lifecycles,
    deal_repetitions example_pool DEFAULT_POOL_SIZE DEFAULT_REPETITIONS DEFAULT_REQUESTS_PER_REPETITION = Ok repetitions ∧
    build_projection_manifest repetitions = Ok projection ∧
    build_execution_manifest projection = Ok (execution_manifest lifecycles) ∧ length lifecycles = 10%nat.
Proof.
  assert (DEFAULT_POOL_SIZE ≤ length example_pool)%nat as Hn by (apply Nat.leb_le; vm_compute; reflexivity).
  assert (NoDup (map cd_message_tree_id example_pool)) as Hd by (apply (bool_decide_unpack _); vm_compute; exact I).
  revert Hn Hd. generalize example_pool. intros pool Hn Hd.
  destruct (execution_plan_total pool Hn Hd) as (reps & projection & ls & H1 & H2 & H3 & H4 & _).
  exists reps, projection, ls. split; [exact H1|]. split; [exact H2|]. split; [exact H3|exact H4].
Defined.

(** The gate of the target model: 48 layers, 8 KV heads of 128, in bfloat16 *)
Definition example_config : jdict :=
  [("hidden_size", JInt 5120); ("num_attention_heads", JInt 40); ("num_key_value_heads", JInt 8);
   ("num_hidden_layers", JInt 48); ("torch_dtype", JStr "bfloat16")].

Lemma capacity_gate_iff_witness :
  ∃ g, inspect_kv_capacity_gate (λ _, None) (λ _, "") example_config TARGET_MAX_MODEL_LEN
         TARGET_KV_CACHE_MEMORY_BYTES TARGET_KV_BLOCK_SIZE = Ok g ∧
    cg_capacity_tokens g = 10880 ∧ (cg_passed g = true ↔ cg_required_bytes g ≤ TARGET_KV_CACHE_MEMORY_BYTES).
Proof.
  assert (∃ g, inspect_kv_capacity_gate (λ _, None) (λ _, "") example_config TARGET_MAX_MODEL_LEN
    TARGET_KV_CACHE_MEMORY_BYTES TARGET_KV_BLOCK_SIZE = Ok g ∧ cg_capacity_tokens g = 10880 ∧
    (0 <? cg_bytes_per_token g) = true) as (g & Hg & Hc & Hb).
  { eexists. split; [vm_compute; reflexivity|]. split; vm_compute; reflexivity. }
  exists g. split; [exact Hg|]. split; [exact Hc|]. clear Hc. apply Z.ltb_lt in Hb.
  assert (0 < TARGET_KV_BLOCK_SIZE) as Hs by (apply Z.ltb_lt; vm_compute; reflexivity).
  revert Hg Hb Hs. generalize example_config TARGET_MAX_MODEL_LEN TARGET_KV_CACHE_MEMORY_BYTES TARGET_KV_BLOCK_SIZE.
  intros config len memory size Hg Hb Hs.
  exact (proj1 (capacity_gate_iff (λ _, None) (λ _, "") config len memory size g Hg Hb Hs)).
Defined.

(** ** Readiness *)

Lemma unique_in_order_nil l : unique_in_order [] l = [] ↔ l = [].
Proof. by destruct l. Qed.

Lemma checks_passed (checks : list (string * bool)) :
  forallb snd checks = true ↔ Forall (λ check, check.2 = true) checks.
Proof. rewrite forallb_forall, List.Forall_forall. done. Qed.

(** M0 may run exactly when the inspection found no blocker and the smoke test of the
    service satisfied every check of its initialization and of its trace. *)
Theorem readiness_grounded path result blockers smoke :
  inspect_service_smoke_result path result = Ok smoke →
  rd_ready_for_m0 (finalize_readiness blockers smoke) = true ↔
  blockers = [] ∧
  ∃ initialization trace, initialization_checks result = Ok initialization ∧ trace_checks result = Ok trace ∧
    Forall (λ check, check.2 = true) (initialization ++ trace).
Proof.
  unfold inspect_service_smoke_result. intros (initialization & Hi & (trace & Ht & [= <-])%bind_ok)%bind_ok.
  setoid_rewrite Forall_app. rewrite Hi, Ht. unfold finalize_readiness.
  cbn -[unique_in_order forallb]. split.
  - destruct (unique_in_order [] (unique_in_order [] blockers ++ _)) as [|] eqn:E; [|done]. intros _.
    apply unique_in_order_nil, app_nil in E as [Hb [E1 E2]%app_nil].
    split; [by apply unique_in_order_nil|].
    exists initialization, trace. repeat split; apply checks_passed.
    + by destruct (forallb snd initialization).
    + by destruct (forallb snd trace).
  - intros (-> & init & tr & [= <-] & [= <-] & H1%checks_passed & H2%checks_passed). by rewrite H1, H2.
Qed.

Definition example_smoke : jdict :=
  [("schema_version", JStr "issue19-service-smoke/v1"); ("evidence_class", JStr "smoke-only");
   ("service_started", JBool true); ("health", JObject [("http_status", JInt 200)]);
   ("connector_initialized", JBool true); ("resolved_configuration", JObject target_configuration);
   ("trace_validation", JObject [("request_terminal_complete", JBool true); ("recovery_chain_complete", JBool true);
     ("dropped_data_count", JInt 0); ("writer_failure_count", JInt 0)])].

Lemma readiness_grounded_witness :
  ∃ smoke, inspect_service_smoke_result "smoke.json" example_smoke = Ok smoke ∧
    rd_ready_for_m0 (finalize_readiness [] smoke) = true ∧
    ∃ initialization trace, initialization_checks example_smoke = Ok initialization ∧
      trace_checks example_smoke = Ok trace ∧ Forall (λ check, check.2 = true) (initialization ++ trace).
Proof.
  assert (∃ smoke, inspect_service_smoke_result "smoke.json" example_smoke = Ok smoke ∧
    rd_ready_for_m0 (finalize_readiness [] smoke) = true) as (smoke & Hs & Hr).
  { eexists. split; vm_compute; reflexivity. }
  exists smoke. split; [exact Hs|]. split; [exact Hr|]. revert Hs Hr. generalize example_smoke.
  intros result Hs Hr. exact (proj2 (proj1 (readiness_grounded "smoke.json" result [] smoke Hs) Hr)).
Defined.
