(* ===== verification/ResourceLedger.v ===== *)
(** * run_issue19_m0_baseline.py: the ownership ledger of a run

    After a run, [_resource_ledger] rebuilds from the recorded events who owned which
    resource: the transitions of a KV lease or a transfer in the order of their timestamps.
    A resource that was acquired ends with the requests that returned it, with the worker
    that was killed, or among the orphans; anything else is an error of the evidence.  The
    rows are the parsed records, with the name of their file as [_source]; the witness that
    is missing is the empty object.

    What a complete ledger says: [ledger_sound]. *)

From Stdlib Require Import ZArith Lia Ascii String.
From stdpp Require Import base strings gmap sets sorting list.
From S2P Require Import Prelude PyValue Binary64 JsonValue PhaseEvaluation Workload ExecutionPlan BlindScoring.

Definition RECOVERY_STAGES :=
  ["preempt"; "restore_start"; "restore_done"; "scheduler_wakeup"; "admission"; "first_prefill_or_decode"].

Definition _RESOURCE_TRANSITIONS : list (string * string) :=
  [("resource_acquired", "acquire"); ("resource_transfer_pending", "transfer_pending");
   ("resource_released", "release"); ("resource_policy_retained", "policy_retain");
   ("resource_invalidated", "invalidate")].

(** The type, the identifier and the worker generation of a resource *)
Definition resource_key : Type := string * string * string.

Record resource := mkResource {
  rs_type : string;
  rs_id : string;
  rs_generation : string;
  rs_request_ids : list string;
  rs_transitions : list string;
  rs_units : list Z;
  rs_externally_invalidated : bool }.

(** The errors of the evidence *)
Inductive ledger_error :=
| BadIdentity (event_id : json)
| TransitionMismatch (event_id : json)
| MissingResourceTypes (types : list string)
| TransferMismatch (profile_only ledger_only : list string)
| MissingRelease (r : resource)
| InvalidSequence (r : resource).

Record resource_ledger := mkLedger {
  rl_event_count : Z;
  rl_resources : list resource;
  rl_errors : list ledger_error;
  rl_orphans : list resource;
  rl_external : list resource }.

Definition max_units (r : resource) : Z := foldl Z.max 0 (rs_units r).

Definition ledger_complete (l : resource_ledger) : bool :=
  match rl_errors l, rl_resources l with [], _ :: _ => true | _, _ => false end.

Definition orphan_units (l : resource_ledger) : Z := sum_list_Z (map max_units (rl_orphans l)).

Section ledger.
  (** [str] of a float or a container, and [int] of a text *)
  Context (other : json → string) (int_of_text : string → option Z).

  Abbreviation str := (text_of other).

(** ** Grouping *)

(** The transition that an event names *)
Definition event_transition (row : jdict) : option string :=
  assoc (str (jget "event_name" row)) _RESOURCE_TRANSITIONS.

Definition nonempty_text (v : json) : option string :=
  match v with JStr s => if String.eqb s "" then None else Some s | _ => None end.

(** The identity of a row with valid units *)
Definition identity_of (metadata : jdict) : option resource_key :=
  match nonempty_text (jget "resource_type" metadata), nonempty_text (jget "resource_id" metadata),
        nonempty_text (jget "worker_generation" metadata), nonempty_text (jget "runtime_request_id" metadata),
        plain_int (jget "resource_units" metadata) with
  | Some resource_type, Some resource_id, Some generation, Some _, Some units =>
      if 1 <=? units then Some (resource_type, resource_id, generation) else None
  | _, _, _, _, _ => None
  end.

(** [grouped.setdefault(key, []).append(row)] *)
Definition append_row (key : resource_key) (row : jdict) (grouped : gmap resource_key (list jdict))
    : gmap resource_key (list jdict) :=
  <[key := default [] (grouped !! key) ++ [row]]> grouped.

(** [row.get("metadata", {})], whose [get] is used *)
Definition metadata_of (row : jdict) : res jdict :=
  match get_or_dict "metadata" row with JObject d => Ok d | _ => Raise AttributeError end.

Definition group_row (row : jdict) (st : gmap resource_key (list jdict) * list ledger_error)
    : res (gmap resource_key (list jdict) * list ledger_error) :=
  match event_transition row with
  | None => Ok st
  | Some transition =>
      metadata ← metadata_of row;
      match identity_of metadata with
      | None => Ok (st.1, st.2 ++ [BadIdentity (jget "event_id" row)])
      | Some key =>
          if json_eq (jget "resource_transition" metadata) (JStr transition)
          then Ok (append_row key row st.1, st.2)
          else Ok (st.1, st.2 ++ [TransitionMismatch (jget "event_id" row)])
      end
  end.

(** [row.get("metadata", {}).get(key)] of a grouped row, whose metadata is an object *)
Definition row_meta (key : string) (row : jdict) : json :=
  match get_or_dict "metadata" row with JObject d => jget key d | _ => JNull end.

Definition transition_of (row : jdict) : string := str (row_meta "resource_transition" row).

(** ** The witness of a pending transfer *)

Definition witnessed_row (event_name transition transfer_id request_id generation : string) (timestamp_ns : json)
    : jdict :=
  [("event_name", JStr event_name); ("timestamp_ns", timestamp_ns);
   ("metadata",
    JObject [("runtime_request_id", JStr request_id); ("resource_type", JStr "offload_transfer");
      ("resource_id", JStr transfer_id); ("resource_transition", JStr transition); ("resource_units", JInt 1);
      ("worker_generation", JStr generation)]);
   ("_source", JStr "pending_transfer_witness")].

Definition opens (row : jdict) : bool :=
  json_eq (row_meta "resource_transition" row) (JStr "acquire")
  || json_eq (row_meta "resource_transition" row) (JStr "transfer_pending").

(** The pair of rows that the witness admits replaces what the trace has of it. *)
Definition add_witness (witness : jdict) (grouped : gmap resource_key (list jdict)) : gmap resource_key (list jdict) :=
  match nonempty_text (jget "transfer_id" witness), nonempty_text (jget "runtime_request_id" witness),
        nonempty_text (jget "worker_generation" witness), any_int (jget "timestamp_ns" witness) with
  | Some transfer_id, Some request_id, Some generation, Some _ =>
      let row := λ name transition,
        witnessed_row name transition transfer_id request_id generation (jget "timestamp_ns" witness) in
      let key := ("offload_transfer", transfer_id, generation) in
      <[key := [row "resource_acquired" "acquire"; row "resource_transfer_pending" "transfer_pending"]
               ++ List.filter (λ r, negb (opens r)) (default [] (grouped !! key))]> grouped
  | _, _, _, _ => grouped
  end.

Definition is_transfer (phase : string) (row : jdict) : bool :=
  json_eq (jget "record_type" row) (JStr "transfer_event") && json_eq (jget "transfer_phase" row) (JStr phase).

Definition text_value (v : json) : option string := match v with JStr s => Some s | _ => None end.

(** The transfers that the profile or the witness reports *)
Definition profile_transfers (profile : list jdict) (witness : jdict) : gset string :=
  list_to_set (omap (λ row, text_value (jget "transfer_id" row)) (List.filter (is_transfer "submit") profile))
  ∪ list_to_set (option_list (text_value (jget "transfer_id" witness))).

(** ** Sequences *)

Definition timestamp_of (row : jdict) : res Z :=
  match assoc "timestamp_ns" row with Some v => to_int int_of_text v | None => Raise (KeyError "timestamp_ns") end.

(** The rows with their timestamps, in the order of these *)
Definition in_order (rows : list jdict) : res (list (Z * jdict)) :=
  keyed ← res_mapM (λ row, t ← timestamp_of row; Ok (t, row)) rows;
  Ok (stable_sort (λ a b, a.1 <? b.1) keyed).

Definition expected (resource_type : string) : list (list string) :=
  if String.eqb resource_type "kv_capacity_lease"
  then [["acquire"; "release"]; ["acquire"; "policy_retain"]; ["acquire"; "invalidate"]]
  else if String.eqb resource_type "offload_transfer"
  then [["acquire"; "transfer_pending"; "release"]; ["acquire"; "transfer_pending"; "invalidate"]]
  else [].

(** When the generation of the killed worker ended *)
Definition generation_exit (worker_generation : option string) (worker_monitor_events : list jdict) : option Z :=
  match worker_generation, worker_monitor_events with
  | Some _, [event] => any_int (jget "timestamp_ns" event)
  | _, _ => None
  end.

(** A transfer that was pending when its worker was killed *)
Definition externally_closed (worker_generation : option string) (exit_ns : option Z) (key : resource_key)
    (transitions : list string) (ordered : list (Z * jdict)) : bool :=
  String.eqb key.1.1 "offload_transfer" && bool_decide (transitions = ["acquire"; "transfer_pending"])
  && bool_decide (Some key.2 = worker_generation)
  && match exit_ns, last ordered with Some exit_ns, Some row => row.1 <? exit_ns | _, _ => false end.

Definition row_units (row : jdict) : Z := default 0 (plain_int (row_meta "resource_units" row)).

Definition resource_of (worker_generation : option string) (exit_ns : option Z)
    (item : resource_key * list jdict) : res resource :=
  ordered ← in_order item.2;
  let transitions := map (λ row, transition_of row.2) ordered in
  Ok (mkResource item.1.1.1 item.1.1.2 item.1.2
        (sorted_texts (list_to_set (map (λ row, str (row_meta "runtime_request_id" row.2)) ordered)))
        transitions (map (λ row, row_units row.2) ordered)
        (externally_closed worker_generation exit_ns item.1 transitions ordered)).

Definition valid_sequence (r : resource) : bool :=
  (length (rs_request_ids r) =? 1)%nat && (bool_decide (rs_transitions r ∈ expected (rs_type r)) || rs_externally_invalidated r).

Definition profile_done (profile : list jdict) (resource_id : string) : bool :=
  existsb (λ row, is_transfer "done" row && json_eq (jget "transfer_id" row) (JStr resource_id)) profile.

Definition open_sequence (transitions : list string) : bool :=
  bool_decide (transitions ∈ [["acquire"]; ["acquire"; "transfer_pending"]]).

(** What becomes of a resource *)
Inductive verdict := External | Valid | Orphan | Unreleased | Invalid.

#[export] Instance verdict_eq_dec : EqDecision verdict.
Proof. solve_decision. Defined.

Definition judge (profile : list jdict) (transfers : gset string) (r : resource) : verdict :=
  if rs_externally_invalidated r then External
  else if valid_sequence r then Valid
  else if bool_decide (rs_id r ∈ transfers) && profile_done profile (rs_id r) then Unreleased
  else if open_sequence (rs_transitions r) then Orphan
  else Invalid.

Definition judged (profile : list jdict) (transfers : gset string) (v : verdict) : list resource → list resource :=
  List.filter (λ r, bool_decide (judge profile transfers r = v)).

Definition sequence_error (profile : list jdict) (transfers : gset string) (r : resource) : list ledger_error :=
  match judge profile transfers r with
  | Unreleased => [MissingRelease r]
  | Invalid => [InvalidSequence r]
  | _ => []
  end.

(** ** The ledger *)

Definition key_lt (a b : resource_key) : bool :=
  if String.eqb a.1.1 b.1.1 then
    if String.eqb a.1.2 b.1.2 then str_lt a.2 b.2 else str_lt a.1.2 b.1.2
  else str_lt a.1.1 b.1.1.

(** [sorted(grouped.items())]: the keys are distinct *)
Definition sorted_items (grouped : gmap resource_key (list jdict)) : list (resource_key * list jdict) :=
  stable_sort (λ a b, key_lt a.1 b.1) (map_to_list grouped).

Definition types_of (grouped : gmap resource_key (list jdict)) : gset string :=
  list_to_set (map (λ item : resource_key * list jdict, item.1.1.1) (map_to_list grouped)).

Definition transfer_ids (grouped : gmap resource_key (list jdict)) : gset string :=
  list_to_set (map (λ item : resource_key * list jdict, item.1.1.2)
    (List.filter (λ item : resource_key * list jdict, String.eqb item.1.1.1 "offload_transfer") (map_to_list grouped))).

Definition REQUIRED_TYPES : gset string := {["kv_capacity_lease"; "offload_transfer"]}.

(** The errors of the ledger as a whole *)
Definition set_errors (types transfers ids : gset string) : list ledger_error :=
  (match sorted_texts (REQUIRED_TYPES ∖ types) with [] => [] | missing => [MissingResourceTypes missing] end)
  ++ (if bool_decide (transfers = ids) then []
      else [TransferMismatch (sorted_texts (transfers ∖ ids)) (sorted_texts (ids ∖ transfers))]).

Definition _resource_ledger (base profile : list jdict) (worker_generation : option string)
    (worker_monitor_events : list jdict) (witness : jdict) : res resource_ledger :=
  st ← res_foldM group_row base (∅, []);
  let grouped := add_witness witness st.1 in
  let transfers := profile_transfers profile witness in
  let exit_ns := generation_exit worker_generation worker_monitor_events in
  let items := sorted_items grouped in
  resources ← res_mapM (resource_of worker_generation exit_ns) items;
  Ok (mkLedger (sum_list_Z (map (λ item : resource_key * list jdict, Z.of_nat (length item.2)) items)) resources
        (st.2 ++ set_errors (types_of grouped) transfers (transfer_ids grouped)
         ++ concat (map (sequence_error profile transfers) resources))
        (judged profile transfers Orphan resources) (judged profile transfers External resources)).
End ledger.

(** ** Ownership, specified *)

Inductive ownership := Free | Held | Pending | Closed.

(** What a transition does to a resource of a type *)
Inductive owns (resource_type : string) : ownership → string → ownership → Prop :=
| owns_lease : resource_type = "kv_capacity_lease" → owns resource_type Free "acquire" Held
| owns_lease_end t :
    resource_type = "kv_capacity_lease" → t ∈ ["release"; "policy_retain"; "invalidate"] →
    owns resource_type Held t Closed
| owns_transfer : resource_type = "offload_transfer" → owns resource_type Free "acquire" Held
| owns_submitted : resource_type = "offload_transfer" → owns resource_type Held "transfer_pending" Pending
| owns_transfer_end t :
    resource_type = "offload_transfer" → t ∈ ["release"; "invalidate"] → owns resource_type Pending t Closed.

Inductive owned (resource_type : string) : ownership → list string → ownership → Prop :=
| owned_nil a : owned resource_type a [] a
| owned_cons a b c t l : owns resource_type a t b → owned resource_type b l c → owned resource_type a (t :: l) c.

(** The expected sequences are those that close a free resource. *)
Lemma expected_iff resource_type l : l ∈ expected resource_type ↔ owned resource_type Free l Closed.
Proof.
  unfold expected. split.
  - destruct (String.eqb_spec resource_type "kv_capacity_lease") as [->|_]; [|
      destruct (String.eqb_spec resource_type "offload_transfer") as [->|_]; [|intros []%elem_of_nil]].
    all: rewrite !elem_of_cons, elem_of_nil; intros H; destruct_or?; subst; try done.
    all: repeat (econstructor; try done); set_solver.
  - intros H. repeat match goal with
      | H : owns _ _ _ _ |- _ => inversion H; clear H; subst
      | H : owned _ _ _ _ |- _ => inversion H; clear H; subst
      end; try discriminate; simpl; set_solver.
Qed.

(** The request that owned the resource returned it. *)
Definition returned (r : resource) : Prop :=
  (∃ q, rs_request_ids r = [q]) ∧ owned (rs_type r) Free (rs_transitions r) Closed.

(** A resource of the ledger with this key *)
Definition accounts_for (key : resource_key) (r : resource) : Prop :=
  (rs_type r, rs_id r, rs_generation r) = key.

(** When the witness saw the transfer open *)
Definition witness_time (witness : jdict) (key : resource_key) : option Z :=
  match nonempty_text (jget "transfer_id" witness), nonempty_text (jget "runtime_request_id" witness),
        nonempty_text (jget "worker_generation" witness), any_int (jget "timestamp_ns" witness) with
  | Some transfer_id, Some _, Some generation, Some t =>
      if bool_decide (key = ("offload_transfer", transfer_id, generation)) then Some t else None
  | _, _, _, _ => None
  end.

(** When a resource changed hands: the times of its recorded transitions, of which the
    witness replaces those that open a transfer *)
Inductive event_time (other : json → string) (int_of_text : string → option Z) (base : list jdict) (witness : jdict)
    (key : resource_key) : Z → Prop :=
| time_recorded row metadata t :
    row ∈ base → is_Some (event_transition other row) → metadata_of row = Ok metadata →
    identity_of metadata = Some key → witness_time witness key = None ∨ opens row = false →
    timestamp_of int_of_text row = Ok t → event_time other int_of_text base witness key t
| time_witnessed t : witness_time witness key = Some t → event_time other int_of_text base witness key t.

(** A transfer whose worker was killed while it was pending: nothing happened to it when
    the worker had ended. *)
Definition killed (times : resource_key → Z → Prop) (worker_generation : option string) (exit_ns : option Z)
    (r : resource) : Prop :=
  rs_type r = "offload_transfer" ∧ Some (rs_generation r) = worker_generation ∧
  owned (rs_type r) Free (rs_transitions r) Pending ∧
  ∃ exit, exit_ns = Some exit ∧ ∀ key t, accounts_for key r → times key t → t < exit.

Lemma killed_mono (P Q : resource_key → Z → Prop) wg exit_ns r :
  (∀ key t, accounts_for key r → P key t → Q key t) → killed Q wg exit_ns r → killed P wg exit_ns r.
Proof. intros HPQ (H1 & H2 & H3 & exit & H4 & H5). split_and!; [done..|]. exists exit. eauto. Qed.

(** A resource that nothing returned *)
Definition leaked (r : resource) : Prop :=
  rs_transitions r ∈ [["acquire"]; ["acquire"; "transfer_pending"]] ∧
  ¬ owned (rs_type r) Free (rs_transitions r) Closed.

(** ** The resources of a ledger *)

Lemma in_order_Permutation iot rows ordered : in_order iot rows = Ok ordered → map snd ordered ≡ₚ rows.
Proof.
  unfold in_order. intros (keyed & Hk%res_mapM_ok & [= <-])%bind_ok.
  rewrite (Permutation_map snd (stable_sort_Permutation _ keyed)).
  assert (map snd keyed = rows) as ->; [|done].
  induction Hk as [|row kr rows keyed H _ IH]; [done|]. apply bind_ok in H as (t & _ & [= <-]). simpl. by rewrite IH.
Qed.

(** These rows with their times, in the order of these *)
Definition timed (iot : string → option Z) (rows : list jdict) (ordered : list (Z * jdict)) : Prop :=
  map snd ordered ≡ₚ rows ∧ Forall (λ kr, timestamp_of iot kr.2 = Ok kr.1) ordered ∧
  StronglySorted (λ a b, a.1 ≤ b.1) ordered.

Lemma in_order_timed iot rows ordered : in_order iot rows = Ok ordered → timed iot rows ordered.
Proof.
  intros H. split; [by apply in_order_Permutation in H|]. unfold in_order in H.
  apply bind_ok in H as (keyed & Hk%res_mapM_ok & [= <-]). split.
  - rewrite stable_sort_Permutation. apply Forall_forall. intros kr [i Hi]%list_elem_of_lookup.
    destruct (Forall2_lookup_r _ _ _ _ _ Hk Hi) as (row & _ & (t & Ht & [= <-])%bind_ok). done.
  - apply stable_sort_sorted; [intros ? ? ? ? ?; lia|intros ? ? ?%Z.ltb_lt; lia|intros ? ? ?%Z.ltb_ge; lia].
Qed.

(** No row comes after the last. *)
Lemma timed_last iot rows ordered row t :
  timed iot rows ordered → row ∈ rows → timestamp_of iot row = Ok t → ∃ final, last ordered = Some final ∧ t ≤ final.1.
Proof.
  intros (Hp & Ht & Hs) Hrow Hrt. rewrite <- Hp, list_elem_of_fmap in Hrow. destruct Hrow as (kr & -> & Hin).
  rewrite Forall_forall in Ht. rewrite (Ht kr Hin) in Hrt. injection Hrt as <-.
  destruct (last ordered) as [final|] eqn:El; [|apply last_None in El; subst; by apply elem_of_nil in Hin].
  exists final. split; [done|]. apply last_Some in El as [init ->].
  rewrite elem_of_app, list_elem_of_singleton in Hin. destruct Hin as [Hin| ->]; [|done].
  by eapply (StronglySorted_app_1_elem_of _ _ _ kr final) in Hs; [|done|left].
Qed.

Section proofs.
Context (other : json → string).

(** The times of these rows *)
Definition row_time (iot : string → option Z) (rows : list jdict) (_ : resource_key) (t : Z) : Prop :=
  ∃ row, row ∈ rows ∧ timestamp_of iot row = Ok t.

Lemma resource_of_ok iot wg exit_ns item r :
  resource_of other iot wg exit_ns item = Ok r →
  rs_type r = item.1.1.1 ∧ rs_id r = item.1.1.2 ∧ rs_generation r = item.1.2 ∧
  rs_transitions r ≡ₚ map (transition_of other) item.2 ∧
  (rs_externally_invalidated r = true → killed (row_time iot item.2) wg exit_ns r).
Proof.
  unfold resource_of. intros (ordered & Ho & [= <-])%bind_ok.
  cbn [rs_type rs_id rs_generation rs_transitions rs_externally_invalidated]. split_and!; [done..| |].
  - apply in_order_Permutation in Ho. rewrite <- Ho, map_map. done.
  - destruct item as [[[resource_type resource_id] generation] rows]. unfold externally_closed, killed.
    cbn [fst snd rs_type rs_generation rs_transitions] in *. intros H. bool_prop.
    repeat match goal with H : bool_decide _ = true |- _ => apply bool_decide_eq_true in H end.
    destruct exit_ns as [exit|]; [|done]. destruct (last ordered) as [final|] eqn:El; [|done]. subst resource_type.
    split_and!; [done..| |].
    + match goal with H : map _ ordered = _ |- _ => rewrite H end.
      econstructor; [by apply owns_transfer|]. econstructor; [by apply owns_submitted|]. constructor.
    + exists exit. split; [done|]. intros key t _ (row & Hrow & Ht).
      destruct (timed_last _ _ _ _ _ (in_order_timed _ _ _ Ho) Hrow Ht) as (final' & Ef & Hle). rewrite El in Ef. injection Ef as <-. lia.
Qed.

(** A ledger without an error of a sequence judges every resource. *)
Lemma judged_all profile transfers resources r :
  concat (map (sequence_error profile transfers) resources) = [] → r ∈ resources →
  returned r ∨ r ∈ judged profile transfers External resources ∨ r ∈ judged profile transfers Orphan resources.
Proof.
  intros He Hr. assert (sequence_error profile transfers r = []) as H.
  { apply list_elem_of_split in Hr as (l1 & l2 & ->). rewrite map_app, concat_app in He. simpl in He.
    by apply app_nil in He as [_ [? _]%app_nil]. }
  unfold judged. rewrite !list_elem_of_In, !filter_In, <- !list_elem_of_In, !bool_decide_eq_true.
  unfold sequence_error in H. destruct (judge profile transfers r) eqn:E; try done; [by eauto| |by eauto].
  left. unfold judge in E. destruct (rs_externally_invalidated r) eqn:Ex; [done|].
  destruct (valid_sequence r) eqn:Ev; [|repeat case_match; done].
  unfold valid_sequence in Ev. rewrite Ex, orb_false_r in Ev. apply andb_true_iff in Ev as [H1 H2].
  split; [|apply bool_decide_eq_true in H2; by apply expected_iff].
  destruct (rs_request_ids r) as [|q [|]]; try done. by eexists.
Qed.

Lemma judged_elem profile transfers v resources r :
  r ∈ judged profile transfers v resources → r ∈ resources ∧ judge profile transfers r = v.
Proof.
  unfold judged. rewrite !list_elem_of_In, filter_In, bool_decide_eq_true. done.
Qed.

Lemma judge_external profile transfers r :
  judge profile transfers r = External → rs_externally_invalidated r = true.
Proof. unfold judge. by repeat case_match. Qed.

Lemma judge_orphan profile transfers r : judge profile transfers r = Orphan → leaked r.
Proof.
  unfold judge, open_sequence. repeat case_match; try done. intros _. bool_prop.
  match goal with H : bool_decide (rs_transitions r ∈ _) = true |- _ => apply bool_decide_eq_true in H as Ho end.
  split; [done|]. rewrite <- expected_iff. unfold expected.
  rewrite !elem_of_cons, elem_of_nil in Ho. destruct_or?; try done.
  all: repeat case_match; rewrite ?elem_of_cons, ?elem_of_nil; naive_solver congruence.
Qed.

(** ** The rows of a ledger *)

Definition recorded (row : jdict) (grouped : gmap resource_key (list jdict)) : Prop :=
  ∃ metadata key rows t, metadata_of row = Ok metadata ∧ identity_of metadata = Some key ∧
    event_transition other row = Some t ∧ transition_of other row = t ∧
    grouped !! key = Some rows ∧ row ∈ rows.

Lemma recorded_append row key row' grouped :
  recorded row grouped → recorded row (append_row key row' grouped).
Proof.
  intros (m & k & rows & t & Hm & Hk & Ht & Ht' & Hg & Hr). exists m, k. unfold append_row.
  destruct (decide (key = k)) as [->|Hne].
  - exists (rows ++ [row']), t. rewrite lookup_insert_eq, Hg. split_and!; try done. simpl. set_solver.
  - exists rows, t. by rewrite lookup_insert_ne.
Qed.

Lemma group_row_ok row st st' :
  group_row other row st = Ok st' → st'.2 = [] →
  st.2 = [] ∧ (∀ row', recorded row' st.1 → recorded row' st'.1) ∧
  (is_Some (event_transition other row) → recorded row st'.1).
Proof.
  unfold group_row. destruct (event_transition other row) as [t|] eqn:Et.
  2:{ intros [= <-] He. split_and!; [done|done|by intros []]. }
  intros (m & Hm & H)%bind_ok He. destruct (identity_of m) as [key|] eqn:Ek.
  2:{ injection H as <-. by apply app_nil in He as [_ ?]. }
  destruct (json_eq _ _) eqn:Ej; injection H as <-; [|by apply app_nil in He as [_ ?]].
  split; [done|]. split; [intros row'; apply recorded_append|]. intros _.
  exists m, key, (default [] (st.1 !! key) ++ [row]), t. unfold append_row. simpl. rewrite lookup_insert_eq.
  split_and!; try done; [|set_solver]. apply json_eq_text in Ej. unfold transition_of, row_meta.
  unfold metadata_of in Hm. destruct (get_or_dict "metadata" row) as [| | |d]; try done. injection Hm as ->.
  by rewrite Ej.
Qed.

Lemma group_rows_ok base st st' :
  res_foldM (group_row other) base st = Ok st' → st'.2 = [] →
  (∀ row, recorded row st.1 → recorded row st'.1) ∧
  (∀ row, row ∈ base → is_Some (event_transition other row) → recorded row st'.1).
Proof.
  revert st. induction base as [|row base IH]; intros st H He; cbn [res_foldM] in H.
  { injection H as ->. split; [done|]. by intros row ?%elem_of_nil. }
  apply bind_ok in H as (st1 & H1 & H). destruct (IH st1 H He) as [Hkeep Hall].
  assert (st1.2 = []) as He1.
  { revert H He. clear. revert st1. induction base as [|row base IH]; intros st1 H He; cbn [res_foldM] in H.
    - by injection H as ->.
    - apply bind_ok in H as (st2 & H2 & H). apply (group_row_ok _ _ _ H2), (IH st2 H He). }
  destruct (group_row_ok _ _ _ H1 He1) as (_ & Hk & Hr). split; [by eauto|].
  intros row' [->|Hin]%elem_of_cons Ht; eauto.
Qed.

(** The items of the ledger, as the lists that the definitions make of them *)
Lemma sorted_items_elem grouped key rows :
  (key, rows) ∈ sorted_items grouped ↔ grouped !! key = Some rows.
Proof. unfold sorted_items. by rewrite stable_sort_Permutation, elem_of_map_to_list. Qed.

Lemma types_of_elem grouped t : t ∈ types_of grouped ↔ ∃ key rows, grouped !! key = Some rows ∧ key.1.1 = t.
Proof.
  unfold types_of. rewrite elem_of_list_to_set, list_elem_of_fmap. split.
  - intros ([key rows] & -> & H%elem_of_map_to_list). by eauto.
  - intros (key & rows & H%elem_of_map_to_list & <-). by exists (key, rows).
Qed.

Lemma transfer_ids_elem grouped t :
  t ∈ transfer_ids grouped ↔ ∃ key rows, grouped !! key = Some rows ∧ key.1 = ("offload_transfer", t).
Proof.
  unfold transfer_ids. rewrite elem_of_list_to_set, list_elem_of_fmap. split.
  - intros ([[[ty id] g] rows] & -> & H). rewrite list_elem_of_In, filter_In, <- list_elem_of_In in H.
    destruct H as [H%elem_of_map_to_list Hty%String.eqb_eq]. simpl in Hty. subst ty. by exists (("offload_transfer", id), g), rows.
  - intros ([[ty id] g] & rows & H%elem_of_map_to_list & [= -> ->]). exists (("offload_transfer", t, g), rows).
    split; [done|]. by rewrite list_elem_of_In, filter_In, <- list_elem_of_In.
Qed.

Lemma set_errors_none types transfers ids :
  set_errors types transfers ids = [] → REQUIRED_TYPES ⊆ types ∧ transfers = ids.
Proof.
  unfold set_errors. intros [Hm Ht]%app_nil. split.
  - destruct (sorted_texts (REQUIRED_TYPES ∖ types)) eqn:E; [|done]. unfold sorted_texts in E.
    intros t Hin. destruct (decide (t ∈ types)) as [|Hn]; [done|].
    assert (t ∈ merge_sort String.le (elements (REQUIRED_TYPES ∖ types))) as H.
    { rewrite merge_sort_Permutation. set_solver. }
    rewrite E in H. by apply elem_of_nil in H.
  - by destruct (bool_decide_reflect (transfers = ids)).
Qed.
End proofs.

(** The resources of the ledger are those of its items. *)
Lemma resource_item other iot wg exit_ns grouped resources :
  Forall2 (λ item r, resource_of other iot wg exit_ns item = Ok r) (sorted_items grouped) resources →
  ∀ r, r ∈ resources → ∃ key rows, grouped !! key = Some rows ∧ accounts_for key r ∧
    (rs_externally_invalidated r = true → killed (row_time iot rows) wg exit_ns r).
Proof.
  intros Hres r [i Hi]%list_elem_of_lookup. destruct (Forall2_lookup_r _ _ _ _ _ Hres Hi) as ([key rows] & Hk & Hr).
  apply list_elem_of_lookup_2, sorted_items_elem in Hk. apply resource_of_ok in Hr as (H1 & H2 & H3 & _ & H4).
  exists key, rows. split; [done|]. split; [|done]. unfold accounts_for. rewrite H1, H2, H3. by destruct key as [[]].
Qed.

Lemma item_resource other iot wg exit_ns grouped resources :
  Forall2 (λ item r, resource_of other iot wg exit_ns item = Ok r) (sorted_items grouped) resources →
  ∀ key rows, grouped !! key = Some rows → ∃ r, r ∈ resources ∧ accounts_for key r ∧
    rs_transitions r ≡ₚ map (transition_of other) rows.
Proof.
  intros Hres key rows [i Hi]%sorted_items_elem%list_elem_of_lookup.
  destruct (Forall2_lookup_l _ _ _ _ _ Hres Hi) as (r & Hr & Hk).
  apply resource_of_ok in Hk as (H1 & H2 & H3 & H4 & _). exists r. split; [by eapply list_elem_of_lookup_2|].
  split; [|done]. unfold accounts_for. rewrite H1, H2, H3. by destruct key as [[]].
Qed.

(** The rows of a resource have the times of its recorded transitions and of the witness. *)
Lemma event_time_row other iot base witness st key rows t :
  res_foldM (group_row other) base (∅, []) = Ok st → st.2 = [] → add_witness witness st.1 !! key = Some rows →
  event_time other iot base witness key t → row_time iot rows key t.
Proof.
  intros Hst Hmal Hg Ht. destruct Ht as [row metadata t Hrow Htr Hm Hid Hopen Ht|t Hw].
  - destruct (proj2 (group_rows_ok _ _ _ _ Hst Hmal) row Hrow Htr) as (m & k & rows' & ? & Hm' & Hk & _ & _ & Hg' & Hin).
    rewrite Hm in Hm'. injection Hm' as <-. rewrite Hid in Hk. injection Hk as <-.
    exists row. split; [|done]. unfold add_witness, witness_time in *.
    repeat case_match; try (by rewrite Hg' in Hg; injection Hg as <-).
    + match goal with H : bool_decide _ = true |- _ => apply bool_decide_eq_true in H as -> end.
      rewrite lookup_insert_eq in Hg. unfold resource_key in *. rewrite Hg' in Hg. injection Hg as <-. destruct Hopen as [|Hopen]; [done|].
      right. right. rewrite list_elem_of_In, filter_In, <- list_elem_of_In, Hopen. done.
    + match goal with H : bool_decide _ = false |- _ => apply bool_decide_eq_false in H end.
      rewrite lookup_insert_ne in Hg by done. rewrite Hg' in Hg. by injection Hg as <-.
  - unfold add_witness, witness_time in *. repeat case_match; try done. injection Hw as ->.
    match goal with H : bool_decide _ = true |- _ => apply bool_decide_eq_true in H as -> end.
    rewrite lookup_insert_eq in Hg. injection Hg as <-. eexists. split; [by left|].
    unfold timestamp_of. change (assoc "timestamp_ns" _) with (Some (jget "timestamp_ns" witness)).
    unfold any_int in *. repeat case_match; simplify_eq; done.
Qed.

(** The resources that a ledger marks as externally invalidated were lost with the worker. *)
Lemma external_killed other iot base witness st wg exit_ns resources r :
  res_foldM (group_row other) base (∅, []) = Ok st → st.2 = [] →
  Forall2 (λ item r, resource_of other iot wg exit_ns item = Ok r) (sorted_items (add_witness witness st.1)) resources →
  r ∈ resources → rs_externally_invalidated r = true → killed (event_time other iot base witness) wg exit_ns r.
Proof.
  intros Hst Hmal Hres Hr Hx. destruct (resource_item _ _ _ _ _ _ Hres r Hr) as (key & rows & Hg & Ha & Hk).
  eapply killed_mono; [|by apply Hk]. intros key' t <- Ht. unfold accounts_for in Ha. rewrite Ha in *.
  by eapply event_time_row.
Qed.

(** C34. A complete ledger accounts for all ownership.  Every resource was returned by the
    one request that owned it, was a pending transfer of the killed worker to which nothing
    happened at or after that worker's end, or is reported as an orphan, and the reported ones are so.  Both kinds of
    resource occur, the transfers are those that the profile or the witness submitted, and
    without a witness every recorded transition is one of the resource that it names. *)
Theorem ledger_sound other int_of_text base profile worker_generation worker_monitor_events witness l :
  _resource_ledger other int_of_text base profile worker_generation worker_monitor_events witness = Ok l →
  ledger_complete l = true →
  (∀ r, r ∈ rl_resources l → returned r ∨ r ∈ rl_external l ∨ r ∈ rl_orphans l) ∧
  (∀ r, r ∈ rl_external l → r ∈ rl_resources l ∧
     killed (event_time other int_of_text base witness) worker_generation
       (generation_exit worker_generation worker_monitor_events) r) ∧
  (∀ r, r ∈ rl_orphans l → r ∈ rl_resources l ∧ leaked r) ∧
  (∃ r, r ∈ rl_resources l ∧ rs_type r = "kv_capacity_lease") ∧
  (∃ r, r ∈ rl_resources l ∧ rs_type r = "offload_transfer") ∧
  (∀ t, t ∈ profile_transfers profile witness ↔
     ∃ r, r ∈ rl_resources l ∧ rs_type r = "offload_transfer" ∧ rs_id r = t) ∧
  (witness = [] → ∀ row t, row ∈ base → event_transition other row = Some t →
     ∃ metadata key r, metadata_of row = Ok metadata ∧ identity_of metadata = Some key ∧
       r ∈ rl_resources l ∧ accounts_for key r ∧ t ∈ rs_transitions r).
Proof.
  unfold _resource_ledger. intros H Hc. apply bind_ok in H as (st & Hst & H).
  apply bind_ok in H as (resources & Hres%res_mapM_ok & [= <-]). unfold ledger_complete in Hc.
  cbn [rl_errors rl_resources rl_external rl_orphans] in *.
  destruct (st.2 ++ _) eqn:Herr; [clear Hc|done].
  apply app_nil in Herr as [Hmal [Hset%set_errors_none Hseq]%app_nil].
  pose proof (resource_item _ _ _ _ _ _ Hres) as Hback. pose proof (item_resource _ _ _ _ _ _ Hres) as Hforth.
  assert (∀ t, t ∈ REQUIRED_TYPES → ∃ r, r ∈ resources ∧ rs_type r = t) as Htypes.
  { intros t Ht. apply Hset, types_of_elem in Ht as (key & rows & (r & Hr & Ha & _)%Hforth & <-).
    exists r. split; [done|]. unfold accounts_for in Ha. by rewrite <- Ha. }
  split; [intros r; by apply judged_all|].
  split. { intros r [Hr Hj%judge_external]%judged_elem. split; [done|]. by eapply external_killed. }
  split. { intros r [Hr Hj%judge_orphan]%judged_elem. done. }
  split; [apply Htypes; unfold REQUIRED_TYPES; set_solver|].
  split; [apply Htypes; unfold REQUIRED_TYPES; set_solver|].
  split.
  - intros t. rewrite (proj2 Hset), transfer_ids_elem. split.
    + intros (key & rows & (r & Hr & Ha & _)%Hforth & Hk). exists r. unfold accounts_for in Ha.
      rewrite <- Ha in Hk. simpl in Hk. by injection Hk as -> ->.
    + intros (r & (key & rows & Hg & Ha & _)%Hback & Hty & Hid). exists key, rows. split; [done|].
      rewrite <- Ha, Hty, Hid. done.
  - intros -> row t Hrow Ht.
    destruct (proj2 (group_rows_ok _ _ _ _ Hst Hmal) row Hrow) as (m & key & rows & t' & Hm & Hk & Ht' & Htr & Hg & Hin).
    { by eexists. }
    destruct (Hforth key rows Hg) as (r & Hr & Ha & Hp). exists m, key, r. split_and!; try done.
    rewrite Hp, list_elem_of_fmap. exists row. split; [|done]. rewrite Ht in Ht'. injection Ht' as <-. done.
Qed.

(** A lease that was returned, and a transfer that was pending when its worker was killed *)
Definition transition_event (name transition resource_type resource_id generation request_id : string) (t : Z) : jdict :=
  [("record_type", JStr "event"); ("event_name", JStr name); ("timestamp_ns", JInt t);
   ("metadata",
    JObject [("runtime_request_id", JStr request_id); ("resource_type", JStr resource_type);
      ("resource_id", JStr resource_id); ("resource_transition", JStr transition); ("resource_units", JInt 2);
      ("worker_generation", JStr generation)])].

Definition example_base : list jdict :=
  [transition_event "resource_released" "release" "kv_capacity_lease" "lease-1" "g" "r1" 30;
   transition_event "resource_acquired" "acquire" "kv_capacity_lease" "lease-1" "g" "r1" 10;
   transition_event "resource_acquired" "acquire" "offload_transfer" "t1" "VllmWorker-0:7" "r2" 15;
   transition_event "resource_transfer_pending" "transfer_pending" "offload_transfer" "t1" "VllmWorker-0:7" "r2" 20].

Definition example_profile : list jdict :=
  [[("record_type", JStr "transfer_event"); ("transfer_phase", JStr "submit"); ("transfer_id", JStr "t1")]].

Definition example_exit : list jdict := [[("timestamp_ns", JInt 25)]].

Lemma ledger_sound_witness :
  ∃ l, _resource_ledger (λ _, "") (λ _, None) example_base example_profile (Some "VllmWorker-0:7") example_exit [] = Ok l ∧
    map rs_id (rl_resources l) = ["lease-1"; "t1"] ∧ map rs_id (rl_external l) = ["t1"] ∧ rl_orphans l = [] ∧
    ∀ r, r ∈ rl_resources l → returned r ∨ r ∈ rl_external l ∨ r ∈ rl_orphans l.
Proof.
  assert (∃ l, _resource_ledger (λ _, "") (λ _, None) example_base example_profile (Some "VllmWorker-0:7") example_exit []
    = Ok l ∧ ledger_complete l = true ∧ map rs_id (rl_resources l) = ["lease-1"; "t1"] ∧
    map rs_id (rl_external l) = ["t1"] ∧ rl_orphans l = []) as (l & Hl & Hc & H1 & H2 & H3).
  { eexists. split; [vm_compute; reflexivity|]. repeat split; vm_compute; reflexivity. }
  exists l. split; [exact Hl|]. split; [exact H1|]. split; [exact H2|]. split; [exact H3|]. clear H1 H2 H3.
  revert Hl Hc. generalize example_base example_profile example_exit. intros base profile events Hl Hc.
  exact (proj1 (ledger_sound (λ _, "") (λ _, None) base profile (Some "VllmWorker-0:7") events [] l Hl Hc)).
Defined.
