(* ===== verification/BaselineAnalysis.v ===== *)
(** * run_issue19_m0_baseline.py: the analysis of a run

    [_analyze] judges the run with the injected faults, [_normal_control_analysis] the run
    without them.  The records of the trace files, the log of the server and what the
    driver observed of the processes are arguments; the ledger is that of [ResourceLedger].

    What a correct run is: [correct_run]. *)

From Stdlib Require Import ZArith Lia Ascii String.
From stdpp Require Import base strings gmap sets sorting list.
From S2P Require Import Prelude PyValue Sha256 Binary64 JsonValue PhaseEvaluation Workload ExecutionPlan BlindScoring.
From S2P Require Import CaseBundle NullCalibration ResourceLedger.

Definition TERMINAL_EVENTS := ["generation_done"; "aborted"; "cancelled"; "error"].

Definition UNAFFECTED_ORDINALS : list Z :=
  List.filter (λ ordinal, negb (existsb (λ t, ordinal =? Z.of_nat t) SCENARIO_TARGET_ORDINALS.*2)) (seqZ 0 64).

Record RequestResult := mkRequestResult {
  rq_request_id : string;
  rq_internal_request_id : string;
  rq_ordinal : Z;
  rq_role : string;
  rq_submitted_at_ns : Z;
  rq_first_token_at_ns : option Z;
  rq_ended_at_ns : Z;
  rq_http_status : option Z;
  rq_completion_tokens : Z;
  rq_finish_reason : option string;
  rq_saw_done : bool;
  rq_expected_fault_observed : bool;
  rq_error : option string }.

(** [n / 1e9] *)
Definition seconds (n : Z) : res float := x ← float_of_int n; Ok (fdiv x (of_Z 1000000000)).

Definition latency_seconds (r : RequestResult) : res float := seconds (rq_ended_at_ns r - rq_submitted_at_ns r).

Definition ttft_seconds (r : RequestResult) : res (option float) :=
  match rq_first_token_at_ns r with
  | Some t => x ← seconds (t - rq_submitted_at_ns r); Ok (Some x)
  | None => Ok None
  end.

Definition tpot_seconds (r : RequestResult) : res (option float) :=
  match rq_first_token_at_ns r with
  | Some t =>
      if rq_completion_tokens r <? 2 then Ok None
      else
        tokens ← float_of_int (rq_completion_tokens r - 1);
        x ← float_of_int (rq_ended_at_ns r - t);
        Ok (Some (fdiv x (fmul (of_Z 1000000000) tokens)))
  | None => Ok None
  end.

(** ** Distributions *)

Definition _percentile (values : list float) (percentile : float) : res (option float) :=
  match values with
  | [] => Ok None
  | _ =>
      let index := Z.max 0 (fceil (fmul percentile (of_Z (Z.of_nat (length values)))) - 1) in
      x ← index_or (Z.to_nat index) (sorted_by id values);
      Ok (Some x)
  end.

Definition json_float (x : option float) : json := match x with Some x => JFloat x | None => JNull end.

Definition summarize (values : list float) : res json :=
  p50 ← _percentile values (lit 50 100);
  p95 ← _percentile values (lit 95 100);
  p99 ← _percentile values (lit 99 100);
  Ok (JObject [("p50", json_float p50); ("p95", json_float p95); ("p99", json_float p99)]).

Definition is_role (role : string) (r : RequestResult) : bool := String.eqb (rq_role r) role.

Definition answered_200 (r : RequestResult) : bool := bool_decide (rq_http_status r = Some 200).

Definition SUCCESSFUL_ROLES := ["normal_completion"; "recovery"; "unaffected_survivor"].

Definition completed (r : RequestResult) : bool :=
  str_in (rq_role r) SUCCESSFUL_ROLES && answered_200 r && rq_saw_done r.

Definition _distribution (results : list RequestResult) : res jdict :=
  let completed := List.filter completed results in
  let survivors := List.filter (is_role "unaffected_survivor") completed in
  latencies ← res_mapM latency_seconds completed;
  latency ← summarize latencies;
  ttfts ← res_mapM ttft_seconds completed;
  ttft ← summarize (omap (M:=list) id ttfts);
  tpots ← res_mapM tpot_seconds completed;
  tpot ← summarize (omap (M:=list) id tpots);
  survivor_latencies ← res_mapM latency_seconds survivors;
  p99 ← _percentile survivor_latencies (lit 99 100);
  Ok [("latency_seconds", latency); ("ttft_seconds", ttft); ("tpot_seconds", tpot);
      ("unaffected_survivor_p99_seconds", json_float p99);
      ("completed_request_count", JInt (Z.of_nat (length completed)));
      ("unaffected_survivor_count", JInt (Z.of_nat (length survivors)))].

(** ** Records *)

(** The elements for which [f] holds; [f] may raise. *)
Fixpoint res_filter {A} (f : A → res bool) (l : list A) : res (list A) :=
  match l with
  | [] => Ok []
  | x :: l => b ← f x; l ← res_filter f l; Ok (if (b : bool) then x :: l else l)
  end.

(** [row.get("record_type") in {...}] *)
Definition of_types (types : list string) (records : list jdict) : res (list jdict) :=
  res_filter (λ row, json_in (jget "record_type" row) types) records.

(** [row.get("metadata", {}).get(key)] *)
Definition get_meta (key : string) (row : jdict) : res json := get_from (get_or_dict "metadata" row) key.

(** [hashlib.sha256(...).hexdigest()[:32]]; the text must be ASCII. *)
Definition _trace_id (run_id internal_request_id : string) : res string :=
  let text := run_id +:+ String (chr 0) internal_request_id in
  ensure (str_forall (λ c, code c <? 128) text) (ValueError "'ascii' codec can't encode character") ;;
  Ok (String.substring 0 32 (sha256_hexdigest text)).

Definition is_event_of (trace_id : string) (row : jdict) : bool :=
  is_record "event" row && json_eq (jget "trace_id" row) (JStr trace_id).

Section analysis.
  (** [str] of a float or a container, and [int] of a text *)
  Context (other : json → string) (int_of_text : string → option Z).

  Abbreviation str := (text_of other).

(** *** Shards *)

Record shard := mkShard {
  sh_stream : string;
  sh_source : string;
  sh_process_uuid : string }.

#[export] Instance shard_eq_dec : EqDecision shard.
Proof. solve_decision. Defined.

Definition shard_of (row : jdict) : string * string :=
  (str (get_or_empty "_source" row), str (get_or_empty "process_uuid" row)).

Definition shards_of (record_type : string) (records : list jdict) : gset (string * string) :=
  list_to_set (map shard_of (List.filter (is_record record_type) records)).

Definition pair_lt (a b : string * string) : bool :=
  if String.eqb a.1 b.1 then str_lt a.2 b.2 else str_lt a.1 b.1.

Definition unclosed_of (start_type summary_type stream : string) (records : list jdict) : list shard :=
  map (λ p : string * string, mkShard stream p.1 p.2)
    (stable_sort pair_lt (elements (shards_of start_type records ∖ shards_of summary_type records))).

Definition _unclosed_observer_shards (records : list jdict) : list shard :=
  unclosed_of "process_start" "process_summary" "trace" records
  ++ unclosed_of "profile_start" "profile_summary" "profile" records.

Definition _externally_closed_worker_shards (records : list jdict) (unclosed : list shard) (worker_pid : json)
    : res (list shard) :=
  match any_int worker_pid with
  | None => Ok []
  | Some _ =>
      starts ← of_types ["process_start"; "profile_start"] records;
      let uuids : gset string := list_to_set
        (omap (λ row, if json_eq (jget "pid" row) worker_pid then text_value (jget "process_uuid" row) else None) starts) in
      match elements uuids, length unclosed with
      | [process_uuid], 2%nat =>
          let found : gset (string * string) := list_to_set (map (λ s, (sh_stream s, sh_process_uuid s)) unclosed) in
          Ok (if bool_decide (found = {[ ("trace", process_uuid); ("profile", process_uuid) ]}) then unclosed else [])
      | _, _ => Ok []
      end
  end.

(** *** Terminal chains *)

Definition SINGLE_CAUSES :=
  ["complete"; "client_disconnect"; "client_timeout"; "explicit_cancel"; "engine_failure"; "error"].

(** The names and causes of a chain, in order *)
Definition chain_valid (chain : list (string * string)) : bool :=
  match chain with
  | [(_, cause)] => str_in cause SINGLE_CAUSES
  | [(name1, cause1); (name2, cause2)] =>
      String.eqb name1 "error" && String.eqb name2 "error" && String.eqb cause1 "engine_failure"
        && String.eqb cause2 "engine_failure"
      || String.eqb name2 "aborted" && String.eqb cause2 "explicit_cancel"
         && str_in cause1 ["client_disconnect"; "client_timeout"; "explicit_cancel"]
  | _ => false
  end.

Definition _terminal_chain_valid (events : list jdict) : res bool :=
  let sources := map (λ event, str (get_or_empty "_source" event)) events in
  if is_nil events || str_in "" sources || negb (bool_decide (NoDup sources)) then Ok false
  else
    ordered ← in_order int_of_text events;
    chain ← res_mapM (λ event : Z * jdict, cause ← get_meta "terminal_cause" event.2;
                        Ok (str (jget "event_name" event.2), str cause)) ordered;
    Ok (chain_valid chain).

(** The terminal events of a request *)
Definition terminal_events (trace_id : string) (base : list jdict) : res (list jdict) :=
  res_filter (λ row, if is_event_of trace_id row then json_in (jget "event_name" row) TERMINAL_EVENTS else Ok false) base.

(** *** Recovery *)

(** [indexes == sorted(indexes)] *)
Fixpoint ascending (l : list nat) : bool :=
  match l with
  | a :: ((b :: _) as l) => (a <=? b)%nat && ascending l
  | _ => true
  end.

(** The stages come in their order, each at its first occurrence. *)
Definition stages_complete (stages : list string) : bool :=
  let indexes := omap (λ stage, position stage stages) RECOVERY_STAGES in
  (length indexes =? length RECOVERY_STAGES)%nat && ascending indexes.

Definition is_recovery_of (runtime_id : string) (row : jdict) : bool :=
  is_record "recovery_event" row && json_eq (jget "runtime_request_id" row) (JStr runtime_id).

Definition episode_complete (rows : list jdict) (episode : string) : res bool :=
  ordered ← in_order int_of_text (List.filter (λ row, json_eq (jget "episode_id" row) (JStr episode)) rows);
  Ok (stages_complete (map (λ row : Z * jdict, str (jget "stage" row.2)) ordered)).

Fixpoint any_complete (rows : list jdict) (episodes : list string) : res bool :=
  match episodes with
  | [] => Ok false
  | episode :: episodes =>
      complete ← episode_complete rows episode;
      if (complete : bool) then Ok true else any_complete rows episodes
  end.

Definition _complete_recovery (profile : list jdict) (runtime_id : string) : res bool :=
  let rows := List.filter (is_recovery_of runtime_id) profile in
  any_complete rows (unique_in_order [] (omap (λ row, text_value (jget "episode_id" row)) rows)).

(** *** Boundaries *)

(** The boundaries, with the events that start and end them *)
Definition BOUNDARIES : list (string * (list string * list string)) :=
  [("queue_to_schedule", (["queued"], ["scheduled"]));
   ("schedule_to_prefill_done", (["scheduled"], ["prefill_done"]));
   ("prefill_to_decode_done", (["prefill_started"], ["decode_done"]));
   ("preempt_to_resume", (["preempted"], ["resumed"]));
   ("terminal_to_last_release", (TERMINAL_EVENTS, ["resource_released"; "resource_invalidated"]))].

(** The timestamps of the events with these names *)
Definition times_of (names : list string) (events : list jdict) : list Z :=
  omap (λ row, if str_in (str (jget "event_name" row)) names then any_int (jget "timestamp_ns" row) else None) events.

(** [add_boundary]: from the first start to the last end *)
Definition boundary_of (starts ends : list string) (events : list jdict) : res (option float) :=
  match times_of starts events, times_of ends events with
  | s :: ss, e :: es =>
      let start := foldl Z.min s ss in
      let end_ := foldl Z.max e es in
      if start <=? end_ then x ← seconds (end_ - start); Ok (Some x) else Ok None
  | _, _ => Ok None
  end.

Definition request_boundary (base : list jdict) (run_id : string) (starts ends : list string) (r : RequestResult)
    : res (option float) :=
  if existsb (Z.eqb (rq_ordinal r)) UNAFFECTED_ORDINALS then
    trace_id ← _trace_id run_id (rq_internal_request_id r);
    boundary_of starts ends (List.filter (is_event_of trace_id) base)
  else Ok None.

Definition _lifecycle_boundary_p99 (base : list jdict) (results : list RequestResult) (run_id : string) : res jdict :=
  res_mapM (λ boundary : string * (list string * list string),
    values ← res_mapM (request_boundary base run_id boundary.2.1 boundary.2.2) results;
    let values := omap (M:=list) id values in
    p99 ← _percentile values (lit 99 100);
    Ok (boundary.1, JObject [("count", JInt (Z.of_nat (length values))); ("p99", json_float p99)])) BOUNDARIES.

(** *** What both analyses read of the traces *)

Record trace_facts := mkTraceFacts {
  tf_base : list jdict;
  tf_profile : list jdict;
  tf_summaries : list jdict;
  tf_losses : list jdict;
  tf_unclosed : list shard;
  tf_clean : bool }.

Definition summary_drained (row : jdict) : bool :=
  json_eq (jget "close_outcome" row) (JStr "drained") && json_eq (jget "dropped_data_count" row) (JInt 0)
  && json_eq (jget "writer_failure_count" row) (JInt 0).

Definition facts_of (records : list jdict) : res trace_facts :=
  summaries ← of_types ["process_summary"; "profile_summary"] records;
  losses ← of_types ["loss_interval"; "profile_loss_interval"] records;
  Ok (mkTraceFacts (List.filter (λ row, json_truthy (jget "schema_version" row)) records)
        (List.filter (λ row, json_truthy (jget "schema" row)) records) summaries losses
        (_unclosed_observer_shards records) (negb (is_nil summaries) && forallb summary_drained summaries)).

(** [d[key] = value] *)
Fixpoint dict_put {A} (key : string) (value : A) (d : list (string * A)) : list (string * A) :=
  match d with
  | [] => [(key, value)]
  | (k, v) :: d => if String.eqb k key then (k, value) :: d else (k, v) :: dict_put key value d
  end.

Definition dict_of {A} (items : list (string * A)) : list (string * A) :=
  foldl (λ d item, dict_put item.1 item.2 d) [] items.

Definition client_succeeded (r : RequestResult) : bool :=
  answered_200 r && rq_saw_done r && negb (is_some_b (rq_error r)) && (0 <? rq_completion_tokens r).

(** *** The ledger and the shards as JSON *)

Definition json_texts (l : list string) : json := JList (map (λ s, JStr s) l).

Definition resource_fields (r : resource) : jdict :=
  [("resource_type", JStr (rs_type r)); ("resource_id", JStr (rs_id r));
   ("worker_generation", JStr (rs_generation r)); ("runtime_request_ids", json_texts (rs_request_ids r));
   ("transitions", json_texts (rs_transitions r)); ("resource_units", JList (map (λ n, JInt n) (rs_units r)));
   ("max_resource_units", JInt (max_units r)); ("externally_invalidated", JBool (rs_externally_invalidated r))].

Definition error_to_dict (e : ledger_error) : json :=
  JObject (match e with
  | BadIdentity event_id => [("event_id", event_id); ("reason", JStr "identity")]
  | TransitionMismatch event_id => [("event_id", event_id); ("reason", JStr "transition_mismatch")]
  | MissingResourceTypes types => [("reason", JStr "missing_resource_types"); ("types", json_texts types)]
  | TransferMismatch profile_only ledger_only =>
      [("reason", JStr "transfer_profile_ledger_mismatch"); ("profile_only", json_texts profile_only);
       ("ledger_only", json_texts ledger_only)]
  | MissingRelease r => ("reason", JStr "missing_release_observation") :: resource_fields r
  | InvalidSequence r => ("reason", JStr "invalid_resource_sequence") :: resource_fields r
  end).

Definition resources_json (l : list resource) : json := JList (map (λ r, JObject (resource_fields r)) l).

Definition ledger_to_dict (l : resource_ledger) : json :=
  JObject [("resource_event_count", JInt (rl_event_count l));
    ("resource_count", JInt (Z.of_nat (length (rl_resources l)))); ("resources", resources_json (rl_resources l));
    ("errors", JList (map error_to_dict (rl_errors l))); ("complete", JBool (ledger_complete l));
    ("orphan_resources", resources_json (rl_orphans l)); ("orphan_resource_units", JInt (orphan_units l));
    ("externally_invalidated_resources", resources_json (rl_external l))].

Definition shard_to_dict (s : shard) : json :=
  JObject [("stream", JStr (sh_stream s)); ("source", JStr (sh_source s)); ("process_uuid", JStr (sh_process_uuid s))].

Definition json_shards (l : list shard) : json := JList (map shard_to_dict l).

(** *** The run without faults *)

(** The control's chain is one completion. *)
Definition control_chain (events : list jdict) : res bool :=
  match events with
  | [event] =>
      if json_eq (jget "event_name" event) (JStr "generation_done") then
        cause ← get_meta "terminal_cause" event;
        Ok (json_eq cause (JStr "complete"))
      else Ok false
  | _ => Ok false
  end.

Definition request_chain (chain : list jdict → res bool) (base : list jdict) (run_id : string) (r : RequestResult)
    : res (string * (list jdict * bool)) :=
  trace_id ← _trace_id run_id (rq_internal_request_id r);
  events ← terminal_events trace_id base;
  valid ← chain events;
  Ok (rq_request_id r, (events, valid)).

Definition chains_valid (chains : list (string * (list jdict * bool))) : bool :=
  forallb (λ item : string * (list jdict * bool), item.2.2) chains.

Definition chains_json (chains : list (string * (list jdict * bool))) : json :=
  JObject (map (λ item : string * (list jdict * bool), (item.1, JBool item.2.2)) chains).

Definition json_returncode (code : option Z) : json := match code with Some n => JInt n | None => JNull end.

Definition control_valid (results : list RequestResult) (chains : list (string * (list jdict * bool))) (quiescent : bool)
    (facts : trace_facts) (incomplete_files : list string) (ledger : resource_ledger) (leaked_offload_mmaps : list string)
    (worker_alive engine_alive : bool) (server_returncode : option Z) : bool :=
  (length results =? 64)%nat && forallb client_succeeded results && chains_valid chains && quiescent
  && (tf_clean facts && is_nil (tf_losses facts) && is_nil incomplete_files && is_nil (tf_unclosed facts))
  && ledger_complete ledger && is_nil (rl_orphans ledger) && is_nil leaked_offload_mmaps
  && negb worker_alive && negb engine_alive && bool_decide (server_returncode = Some 0).

Definition _normal_control_analysis (records : list jdict) (incomplete_files : list string) (run_id : string)
    (results : list RequestResult) (quiescent : bool) (leaked_offload_mmaps : list string)
    (worker_alive engine_alive : bool) (server_returncode : option Z) : res jdict :=
  facts ← facts_of records;
  items ← res_mapM (request_chain control_chain (tf_base facts) run_id) results;
  let chains := dict_of items in
  ledger ← _resource_ledger other int_of_text (tf_base facts) (tf_profile facts) None [] [];
  distribution ← _distribution results;
  boundaries ← _lifecycle_boundary_p99 (tf_base facts) results run_id;
  Ok [("arm", JStr "normal-control");
      ("evidence_valid", JBool (control_valid results chains quiescent facts incomplete_files ledger
         leaked_offload_mmaps worker_alive engine_alive server_returncode));
      ("client_correct", JBool (forallb client_succeeded results)); ("exact_terminal", JBool (chains_valid chains));
      ("terminal_chain_validity", chains_json chains);
      ("observer_complete", JBool (tf_clean facts && is_nil (tf_losses facts) && is_nil incomplete_files
         && is_nil (tf_unclosed facts)));
      ("summary_count", JInt (Z.of_nat (length (tf_summaries facts))));
      ("loss_record_count", JInt (Z.of_nat (length (tf_losses facts))));
      ("incomplete_trace_files", json_texts incomplete_files);
      ("unclosed_observer_shards", json_shards (tf_unclosed facts)); ("resource_ledger", ledger_to_dict ledger);
      ("leaked_offload_mmaps", json_texts leaked_offload_mmaps);
      ("worker_pid_alive_after_shutdown", JBool worker_alive); ("engine_pid_alive_after_shutdown", JBool engine_alive);
      ("server_returncode", json_returncode server_returncode); ("distribution", JObject distribution);
      ("lifecycle_boundary_p99_seconds", JObject boundaries)].

(** *** The run with the faults *)

(** [s.count(p)]: occurrences that do not overlap; the first [skip] characters were read. *)
Fixpoint count_text (p s : string) (skip : nat) : Z :=
  match s with
  | EmptyString => 0
  | String _ rest =>
      match skip with
      | S skip => count_text p rest skip
      | O => if String.prefix p s then 1 + count_text p rest (String.length p - 1) else count_text p rest 0
      end
  end.

(** What the driver hands over, besides the results *)
Record fault_run := mkFaultRun {
  fr_run_id : string;
  fr_incomplete_files : list string;
  fr_quiescent : bool;
  fr_quiescence_state : jdict;
  fr_worker_signal_ns : Z;
  fr_worker_event : jdict;
  fr_leaked_offload_mmaps : list string;
  fr_target_pid_alive : bool;
  fr_engine_pid_alive : bool;
  fr_server_returncode : option Z;
  fr_server_log : string }.

(** A transfer without exactly one submission and one end *)
Record unmatched_transfer := mkUnmatched {
  um_transfer_id : string;
  um_runtime_request_id : json;
  um_process_uuid : json;
  um_submit_count : Z;
  um_done_count : Z;
  um_submitted_before_exit : bool }.

Definition in_phase (phase : string) (row : jdict) : bool := json_eq (jget "transfer_phase" row) (JStr phase).

(** [row.get("timestamp_ns", signal + 1) < signal] *)
Definition before_signal (signal : Z) (row : jdict) : res bool :=
  match assoc "timestamp_ns" row with
  | None => Ok false
  | Some (JScalar v) => match as_number v with Some n => Ok (num_lt n (NInt signal)) | None => Raise TypeError end
  | Some _ => Raise TypeError
  end.

Definition unmatched_of (signal : Z) (transfer_id : string) (rows : list jdict) : res (list unmatched_transfer) :=
  let submits := List.filter (in_phase "submit") rows in
  let dones := List.filter (in_phase "done") rows in
  if (length submits =? 1)%nat && (length dones =? 1)%nat then Ok []
  else
    before ← match submits with row :: _ => before_signal signal row | [] => Ok false end;
    let row := match submits, rows with row :: _, _ => row | [], row :: _ => row | [], [] => [] end in
    Ok [mkUnmatched transfer_id (jget "runtime_request_id" row) (jget "process_uuid" row)
          (Z.of_nat (length submits)) (Z.of_nat (length dones)) before].

Definition transfer_rows (profile : list jdict) : list (string * jdict) :=
  omap (λ row, id ← text_value (jget "transfer_id" row); Some (id, row)) (List.filter (is_record "transfer_event") profile).

(** The transfers in the order of their first rows *)
Definition transfers_of (profile : list jdict) : list (string * list jdict) :=
  let rows := transfer_rows profile in
  map (λ id, (id, map snd (List.filter (λ row : string * jdict, String.eqb row.1 id) rows))) (unique_in_order [] rows.*1).

Definition structure_valid (unmatched : list unmatched_transfer) : bool :=
  forallb (λ u, (um_submit_count u =? 1) && ((um_done_count u =? 0) || (um_done_count u =? 1))) unmatched.

Definition unmatched_to_dict (u : unmatched_transfer) : json :=
  JObject [("transfer_id", JStr (um_transfer_id u)); ("runtime_request_id", um_runtime_request_id u);
    ("process_uuid", um_process_uuid u); ("submit_count", JInt (um_submit_count u));
    ("done_count", JInt (um_done_count u)); ("submitted_before_worker_exit", JBool (um_submitted_before_exit u))].

(** [by_role.get(role)]: the last result of the role *)
Definition by_role (role : string) (results : list RequestResult) : option RequestResult :=
  last (List.filter (is_role role) results).

Definition client_correct (r : RequestResult) : bool :=
  if str_in (rq_role r) SUCCESSFUL_ROLES then client_succeeded r else rq_expected_fault_observed r.

Definition duplicate_attempts (state : jdict) (results : list RequestResult) : res json :=
  match by_role "duplicate_cancel" results with
  | Some duplicate =>
      match get_or_dict "observer" state with
      | JObject observer =>
          match get_or_dict "abort_attempts" observer with
          | JObject attempts => Ok (default (JInt 0) (assoc (rq_internal_request_id duplicate) attempts))
          | _ => Raise AttributeError
          end
      | _ => Raise AttributeError
      end
  | None => Ok (JInt 0)
  end.

(** The items of a list of the state *)
Definition state_items (state : jdict) (part key : string) : res (list string) :=
  match get_or_dict part state with
  | JObject d =>
      match assoc key d with
      | Some (JList l) => Ok (map str l)
      | None => Ok []
      | Some _ => Raise TypeError
      end
  | _ => Raise AttributeError
  end.

Definition _active_ids (state : jdict) : res (gset string) :=
  engine ← state_items state "engine" "active_internal_request_ids";
  observer ← state_items state "observer" "active_request_ids";
  Ok (list_to_set (engine ++ observer)).

(** The worker that was signalled *)
Definition worker_pid_of (worker_event : jdict) : json :=
  match get_or_dict "target" worker_event with JObject d => jget "pid" d | _ => JNull end.

Definition generation_of (worker_pid : json) : option string :=
  (λ _, "VllmWorker-0:" +:+ str worker_pid) <$> any_int worker_pid.

Definition json_option_text (o : option string) : json := match o with Some s => JStr s | None => JNull end.

(** The failures that the monitor and the request of the worker report *)
Definition monitor_events (generation : option string) (base : list jdict) : res (list jdict) :=
  res_filter (λ row,
    if is_record "event" row then
      cause ← get_meta "terminal_cause" row;
      owner ← get_meta "worker_generation" row;
      Ok (json_eq cause (JStr "engine_failure") && json_eq owner (json_option_text generation))
    else Ok false) base.

Definition worker_request_events (run_id : string) (worker : option RequestResult) (base : list jdict)
    : res (list jdict) :=
  match worker with
  | Some worker =>
      trace_id ← _trace_id run_id (rq_internal_request_id worker);
      res_filter (λ row,
        if is_event_of trace_id row then
          cause ← get_meta "terminal_cause" row;
          Ok (json_eq cause (JStr "engine_failure"))
        else Ok false) base
  | None => Ok []
  end.

(** The witness as the checks of the failure and the ledger read it *)
Definition witness_json (worker_event : jdict) : json := get_or_dict "pending_transfer_witness" worker_event.

Definition witness_dict (v : json) : res jdict :=
  match v with JObject d => Ok d | _ => if json_truthy v then Raise AttributeError else Ok [] end.

(** The witness belongs to the signalled worker and precedes the signal. *)
Definition witness_matches (worker_pid : json) (generation : option string) (signal : Z) (witness : jdict) : bool :=
  json_eq (jget "pid" witness) worker_pid && json_eq (jget "worker_generation" witness) (json_option_text generation)
  && is_some_b (text_value (jget "transfer_id" witness))
  && match any_int (jget "timestamp_ns" witness) with Some t => t <? signal | None => false end.

Definition failure_witnessed (run : fault_run) (worker_pid : json) (generation : option string)
    (monitor requests : list jdict) : res bool :=
  let event := fr_worker_event run in
  if json_eq (jget "injection" event) (JStr "pending-transfer-sigkill")
     && NullCalibration.is_true (jget "ownership_verified" event) && json_eq (jget "signal" event) (JStr "SIGKILL")
  then
    match witness_json event with
    | JObject witness =>
        Ok (witness_matches worker_pid generation (fr_worker_signal_ns run) witness
            && negb (fr_target_pid_alive run) && negb (fr_engine_pid_alive run)
            && bool_decide (fr_server_returncode run = Some 0)
            && (length monitor =? 1)%nat && (length requests =? 1)%nat)
    | _ => Raise AttributeError
    end
  else Ok false.

(** The verdict, from what was established *)
Record fault_facts := mkFaultFacts {
  ff_traces : trace_facts;
  ff_externally_closed : list shard;
  ff_chains : list (string * (list jdict * bool));
  ff_transfers : list (string * list jdict);
  ff_unmatched : list unmatched_transfer;
  ff_duplicate_attempts : json;
  ff_active : list string;
  ff_recovered : list string;
  ff_worker : option RequestResult;
  ff_monitor_events : list jdict;
  ff_worker_request_events : list jdict;
  ff_failure_witnessed : bool;
  ff_ledger : resource_ledger }.

Definition observer_complete (run : fault_run) (f : fault_facts) : bool :=
  tf_clean (ff_traces f) && is_nil (tf_losses (ff_traces f)) && is_nil (fr_incomplete_files run)
  && bool_decide (tf_unclosed (ff_traces f) = ff_externally_closed f) && structure_valid (ff_unmatched f).

Definition worker_zombies (run : fault_run) (f : fault_facts) : list string :=
  match ff_worker f with
  | Some worker =>
      if is_nil (ff_worker_request_events f) || fr_target_pid_alive run || fr_engine_pid_alive run
      then [rq_internal_request_id worker] else []
  | None => []
  end.

Definition zombie_request_ids (run : fault_run) (f : fault_facts) : list string :=
  sorted_texts (list_to_set ((if fr_quiescent run then [] else ff_active f) ++ worker_zombies run f)).

Definition orphan_lease_count (run : fault_run) (f : fault_facts) : Z :=
  Z.of_nat (length (rl_orphans (ff_ledger f))) + Z.of_nat (length (fr_leaked_offload_mmaps run)).

Definition evidence_valid (run : fault_run) (results : list RequestResult) (f : fault_facts) : bool :=
  forallb client_correct results && chains_valid (ff_chains f) && json_eq (ff_duplicate_attempts f) (JInt 2)
  && negb (is_nil (ff_recovered f)) && ff_failure_witnessed f && observer_complete run f
  && ledger_complete (ff_ledger f).

Definition state_conservation (run : fault_run) (f : fault_facts) : bool :=
  is_nil (zombie_request_ids run f) && (orphan_lease_count run f =? 0).

Definition chain_counts (chains : list (string * (list jdict * bool))) : json :=
  JObject (map (λ item : string * (list jdict * bool), (item.1, JInt (Z.of_nat (length item.2.1)))) chains).

Definition chain_names (chains : list (string * (list jdict * bool))) : json :=
  JObject (map (λ item : string * (list jdict * bool),
    (item.1, json_texts (map (λ row, str (jget "event_name" row)) item.2.1))) chains).

Definition analysis_dict (run : fault_run) (results : list RequestResult) (f : fault_facts)
    (distribution boundaries : jdict) : jdict :=
  let zombies := zombie_request_ids run f in
  [("evidence_class", JStr "real-online");
   ("metadata", JObject [("data_source", JStr "real-online-oasst1-fixed-projection")]);
   ("request_count", JInt (Z.of_nat (length results)));
   ("unaffected_request_count", JInt (Z.of_nat (length (List.filter (is_role "unaffected_survivor") results))));
   ("client_correct", JBool (forallb client_correct results)); ("exact_terminal", JBool (chains_valid (ff_chains f)));
   ("terminal_counts", chain_counts (ff_chains f)); ("terminal_names", chain_names (ff_chains f));
   ("terminal_chain_validity", chains_json (ff_chains f)); ("duplicate_abort_attempts", ff_duplicate_attempts f);
   ("recovery_complete", JBool (negb (is_nil (ff_recovered f))));
   ("recovery_complete_request_ids", json_texts (ff_recovered f));
   ("worker_failure_witnessed", JBool (ff_failure_witnessed f));
   ("worker_monitor_event_count", JInt (Z.of_nat (length (ff_monitor_events f))));
   ("worker_request_failure_event_count", JInt (Z.of_nat (length (ff_worker_request_events f))));
   ("observer_complete", JBool (observer_complete run f));
   ("summary_count", JInt (Z.of_nat (length (tf_summaries (ff_traces f)))));
   ("loss_record_count", JInt (Z.of_nat (length (tf_losses (ff_traces f)))));
   ("incomplete_trace_files", json_texts (fr_incomplete_files run));
   ("unclosed_observer_shards", json_shards (tf_unclosed (ff_traces f)));
   ("externally_closed_worker_shards", json_shards (ff_externally_closed f));
   ("leaked_offload_mmaps", json_texts (fr_leaked_offload_mmaps run));
   ("target_pid_alive_after_shutdown", JBool (fr_target_pid_alive run));
   ("engine_pid_alive_after_shutdown", JBool (fr_engine_pid_alive run));
   ("server_returncode", json_returncode (fr_server_returncode run));
   ("resource_tracker_warning_count",
    JInt (count_text "resource_tracker: There appear to be" (fr_server_log run) 0));
   ("active_at_quiescence", json_texts (ff_active f)); ("zombie_request_ids", json_texts zombies);
   ("zombie_request_count", JInt (Z.of_nat (length zombies)));
   ("transfer_count", JInt (Z.of_nat (length (ff_transfers f))));
   ("unmatched_transfers", JList (map unmatched_to_dict (ff_unmatched f)));
   ("worker_generation_invalidated_transfer_ids",
    json_texts (map rs_id (List.filter (λ r, String.eqb (rs_type r) "offload_transfer") (rl_external (ff_ledger f)))));
   ("resource_ledger", ledger_to_dict (ff_ledger f)); ("orphan_lease_count", JInt (orphan_lease_count run f));
   ("orphan_resource_units", JInt (orphan_units (ff_ledger f)));
   ("evidence_valid", JBool (evidence_valid run results f));
   ("state_conservation", JBool (state_conservation run f));
   ("correctness", JBool (evidence_valid run results f && state_conservation run f));
   ("pathology_observed", JBool (negb (state_conservation run f)));
   ("latency_pathology_evaluable", JBool false); ("latency_pathology_observed", JNull);
   ("latency_pathology_reason", JStr "no preregistered paired normal boundary");
   ("distribution", JObject distribution); ("lifecycle_boundary_p99_seconds", JObject boundaries)].

Definition fault_facts_of (records : list jdict) (run : fault_run) (results : list RequestResult) : res fault_facts :=
  facts ← facts_of records;
  let worker_pid := worker_pid_of (fr_worker_event run) in
  let generation := generation_of worker_pid in
  let worker := by_role "worker_exit" results in
  externally_closed ← _externally_closed_worker_shards records (tf_unclosed facts) worker_pid;
  chains ← res_mapM (request_chain _terminal_chain_valid (tf_base facts) (fr_run_id run)) results;
  let transfers := transfers_of (tf_profile facts) in
  unmatched ← res_mapM (λ t : string * list jdict, unmatched_of (fr_worker_signal_ns run) t.1 t.2) transfers;
  attempts ← duplicate_attempts (fr_quiescence_state run) results;
  active ← _active_ids (fr_quiescence_state run);
  recovered ← res_filter (λ r, _complete_recovery (tf_profile facts) (rq_internal_request_id r)) results;
  monitor ← monitor_events generation (tf_base facts);
  requests ← worker_request_events (fr_run_id run) worker (tf_base facts);
  witnessed ← failure_witnessed run worker_pid generation monitor requests;
  witness ← witness_dict (witness_json (fr_worker_event run));
  ledger ← _resource_ledger other int_of_text (tf_base facts) (tf_profile facts) generation monitor witness;
  Ok (mkFaultFacts facts externally_closed (dict_of chains) transfers (concat unmatched) attempts (sorted_texts active)
        (merge_sort String.le (map rq_internal_request_id recovered)) worker monitor requests witnessed ledger).

Definition _analyze (records : list jdict) (run : fault_run) (results : list RequestResult) : res jdict :=
  f ← fault_facts_of records run results;
  distribution ← _distribution results;
  boundaries ← _lifecycle_boundary_p99 (tf_base (ff_traces f)) results (fr_run_id run);
  Ok (analysis_dict run results f distribution boundaries).
End analysis.

(** ** What a correct run is *)

Lemma dict_put_fresh {A} key (v : A) d : key ∉ d.*1 → dict_put key v d = d ++ [(key, v)].
Proof.
  induction d as [|[k w] d IH]; intros Hk; [done|]. simpl in Hk |- *. apply not_elem_of_cons in Hk as [Hne Hk].
  destruct (String.eqb_spec k key) as [->|_]; [done|]. by rewrite IH.
Qed.

Lemma dict_of_distinct {A} (items : list (string * A)) : NoDup items.*1 → dict_of items = items.
Proof.
  unfold dict_of. change items with ([] ++ items) at 1 3. generalize (@nil (string * A)).
  induction items as [|[k v] items IH]; intros d Hd; simpl; [by rewrite app_nil_r|].
  rewrite dict_put_fresh.
  - rewrite IH; rewrite <- app_assoc; done.
  - rewrite fmap_app in Hd. apply NoDup_app in Hd as (_ & Hd & _). intros Hk. apply (Hd k Hk). by left.
Qed.

Lemma res_filter_ok {A} (f : A → res bool) l l' :
  res_filter f l = Ok l' → ∀ x, x ∈ l' → x ∈ l ∧ f x = Ok true.
Proof.
  revert l'. induction l as [|y l IH]; intros l' H x Hx; cbn [res_filter] in H.
  - injection H as <-. by apply elem_of_nil in Hx.
  - apply bind_ok in H as (b & Hb & (l1 & Hl & [= <-])%bind_ok). destruct b.
    + apply elem_of_cons in Hx as [->|Hx]; [by split; [left|]|]. destruct (IH _ Hl x Hx). split; [by right|done].
    + destruct (IH _ Hl x Hx). split; [by right|done].
Qed.

Lemma sorted_texts_nil (s : gset string) : sorted_texts s = [] → s = ∅.
Proof.
  unfold sorted_texts. intros H. apply leibniz_equiv, elements_empty_iff, Permutation_nil_r.
  by rewrite <- (merge_sort_Permutation String.le), H.
Qed.

Lemma is_nil_ok {A} (l : list A) : is_nil l = true ↔ l = [].
Proof. by destruct l. Qed.

(** Without an orphan, every resource was returned or lost with the killed worker. *)
Lemma ledger_conserved other iot base profile generation monitor witness l :
  _resource_ledger other iot base profile generation monitor witness = Ok l →
  ledger_complete l = true → rl_orphans l = [] →
  ∀ r, r ∈ rl_resources l →
    returned r ∨ killed (event_time other iot base witness) generation (generation_exit generation monitor) r.
Proof.
  unfold _resource_ledger. intros (st & Hst & (resources & Hres%res_mapM_ok & [= <-])%bind_ok)%bind_ok Hc Ho r Hr.
  unfold ledger_complete in Hc. cbn [rl_errors rl_resources rl_orphans] in *.
  destruct (st.2 ++ _) eqn:Herr; [clear Hc|done]. apply app_nil in Herr as [Hmal [_ Hseq]%app_nil].
  destruct (judged_all _ _ _ _ Hseq Hr) as [H|[H|H]]; [by left| |].
  - right. apply judged_elem in H as [_ H%judge_external]. by eapply external_killed.
  - rewrite Ho in H. by apply elem_of_nil in H.
Qed.

(** *** Clients *)

(** A served request was answered in full; every other one met the fault of its role. *)
Definition client_outcome (r : RequestResult) : Prop :=
  if decide (rq_role r ∈ ["normal_completion"; "recovery"; "unaffected_survivor"])
  then rq_http_status r = Some 200 ∧ rq_saw_done r = true ∧ rq_error r = None ∧ 0 < rq_completion_tokens r
  else rq_expected_fault_observed r = true.

Lemma client_correct_outcome r : client_correct r = true → client_outcome r.
Proof.
  unfold client_correct, client_outcome, SUCCESSFUL_ROLES. intros H. case_decide as Hin.
  - apply str_in_spec in Hin. rewrite Hin in H. unfold client_succeeded, answered_200 in H.
    rewrite !andb_true_iff, bool_decide_eq_true, Z.ltb_lt in H. destruct H as [[[Hs Hd] He] Ht].
    by destruct (rq_error r).
  - apply str_in_spec_false in Hin. by rewrite Hin in H.
Qed.

(** *** Rows *)

(** The records with a value under this field: those of the traces or those of the profile *)
Definition records_with (field : string) (records : list jdict) : list jdict :=
  List.filter (λ row, json_truthy (jget field row)) records.

Definition is_text (key s : string) (row : jdict) : bool := json_eq (jget key row) (JStr s).

Lemma get_meta_row key row v : get_meta key row = Ok v → row_meta key row = v.
Proof. unfold get_meta, row_meta, get_from. destruct (get_or_dict _ row); [done..|]. by intros [= <-]. Qed.

(** A filter that raises nothing is one of these elements. *)
Lemma res_filter_is {A} (f : A → res bool) (g : A → bool) l l' :
  (∀ x b, f x = Ok b → b = g x) → res_filter f l = Ok l' → l' = List.filter g l.
Proof.
  intros Hfg. revert l'. induction l as [|x l IH]; intros l' H; cbn [res_filter] in H; [by injection H as <-|].
  apply bind_ok in H as (b & ->%Hfg & (l1 & Hl & [= <-])%bind_ok). cbn [List.filter]. by rewrite (IH _ Hl).
Qed.

(** *** Terminal events *)

(** The terminal events of a request's trace *)
Definition terminal_row (trace_id : string) (row : jdict) : bool :=
  is_text "record_type" "event" row && is_text "trace_id" trace_id row
  && existsb (λ name, is_text "event_name" name row) ["generation_done"; "aborted"; "cancelled"; "error"].

Lemma json_in_is v l b : json_in v l = Ok b → b = existsb (λ s, json_eq v (JStr s)) l.
Proof. destruct v as [|[]| |]; try done; intros [= <-]; [by induction l..|done]. Qed.

Lemma terminal_events_rows trace_id base events :
  terminal_events trace_id base = Ok events → events = List.filter (terminal_row trace_id) base.
Proof.
  apply res_filter_is. intros row b. unfold is_event_of, is_record, terminal_row, is_text.
  destruct (json_eq _ _ && json_eq _ _); [apply json_in_is|by intros [= <-]].
Qed.

(** How a request ends: with one cause, with the engine's failure reported twice, or with
    the cancellation that follows its first cause *)
Inductive ending : list (string * string) → Prop :=
| ending_one name cause :
    cause ∈ ["complete"; "client_disconnect"; "client_timeout"; "explicit_cancel"; "engine_failure"; "error"] →
    ending [(name, cause)]
| ending_failure : ending [("error", "engine_failure"); ("error", "engine_failure")]
| ending_cancelled name cause :
    cause ∈ ["client_disconnect"; "client_timeout"; "explicit_cancel"] →
    ending [(name, cause); ("aborted", "explicit_cancel")].

Lemma chain_valid_ending chain : chain_valid chain = true → ending chain.
Proof.
  destruct chain as [|[n1 c1] [|[n2 c2] [|]]]; try done; cbn [chain_valid].
  - intros H%str_in_spec. by constructor.
  - rewrite orb_true_iff, !andb_true_iff, !String.eqb_eq, str_in_spec.
    intros [[[[-> ->] ->] ->]|[[-> ->] Hc]]; by constructor.
Qed.

(** The terminal events of the request come from different files, and in the order of their
    times they are one ending. *)
Definition one_terminal (other : json → string) (iot : string → option Z) (base : list jdict) (run_id : string)
    (r : RequestResult) : Prop :=
  ∃ trace_id events, _trace_id run_id (rq_internal_request_id r) = Ok trace_id ∧
    timed iot (List.filter (terminal_row trace_id) base) events ∧
    (let sources := map (λ event : Z * jdict, text_of other (get_or_empty "_source" event.2)) events in
     NoDup sources ∧ "" ∉ sources) ∧
    ending (map (λ event : Z * jdict,
      (text_of other (jget "event_name" event.2), text_of other (row_meta "terminal_cause" event.2))) events).

Lemma terminal_chain_ending other iot rows :
  _terminal_chain_valid other iot rows = Ok true →
  ∃ events, timed iot rows events ∧
    (let sources := map (λ event : Z * jdict, text_of other (get_or_empty "_source" event.2)) events in
     NoDup sources ∧ "" ∉ sources) ∧
    ending (map (λ event : Z * jdict,
      (text_of other (jget "event_name" event.2), text_of other (row_meta "terminal_cause" event.2))) events).
Proof.
  unfold _terminal_chain_valid. destruct (_ || _ || _) eqn:E; [done|].
  rewrite !orb_false_iff, str_in_spec_false, negb_false_iff, bool_decide_eq_true in E. destruct E as [[_ Hs] Hd].
  intros (ordered & Ho%in_order_timed & (chain & Hc%res_mapM_ok & [= Hv])%bind_ok)%bind_ok. exists ordered.
  split; [done|]. split.
  - destruct Ho as (Hp & _). assert (map (λ event, text_of other (get_or_empty "_source" event)) rows ≡ₚ
      map (λ event : Z * jdict, text_of other (get_or_empty "_source" event.2)) ordered) as Hm
      by (rewrite <- Hp, map_map; done).
    rewrite Hm in Hd, Hs. done.
  - apply chain_valid_ending. etransitivity; [|exact Hv]. f_equal. clear Hv Ho Hs Hd.
    induction Hc as [|event link ordered chain H _ IH]; [done|]. cbn [map].
    apply bind_ok in H as (cause & <-%get_meta_row & [= <-]). by rewrite IH.
Qed.

Lemma chains_one_terminal other iot base run_id results items :
  res_mapM (request_chain (_terminal_chain_valid other iot) base run_id) results = Ok items →
  NoDup (map rq_request_id results) → chains_valid (dict_of items) = true →
  Forall (one_terminal other iot base run_id) results.
Proof.
  intros H%res_mapM_ok Hd Hv.
  assert (items.*1 = map rq_request_id results) as Hkeys.
  { clear Hd Hv. induction H as [|r item results items Hr _ IH]; [done|]. simpl. f_equal; [|exact IH].
    unfold request_chain in Hr. apply bind_ok in Hr as (? & _ & (? & _ & (? & _ & [= <-])%bind_ok)%bind_ok). done. }
  rewrite dict_of_distinct in Hv by by rewrite Hkeys. unfold chains_valid in Hv. clear Hd Hkeys.
  induction H as [|r item results items Hr _ IH]; constructor.
  - unfold request_chain in Hr. apply bind_ok in Hr as (trace_id & Ht & (events & He & (valid & Hc & [= <-])%bind_ok)%bind_ok).
    simpl in Hv. apply andb_true_iff in Hv as [-> _]. apply terminal_events_rows in He as ->.
    apply terminal_chain_ending in Hc as (events & Hc). by exists trace_id, events.
  - apply IH. simpl in Hv. by apply andb_true_iff in Hv as [_ ?].
Qed.

(** *** Recovery *)

Definition first_at (l : list string) (x : string) (i : nat) : Prop := l !! i = Some x ∧ x ∉ take i l.

(** The six stages of a recovery occur, and the first occurrences are in this order. *)
Definition recovery_stages (stages : list string) : Prop :=
  ∃ positions, Sorted le positions ∧
    Forall2 (first_at stages)
      ["preempt"; "restore_start"; "restore_done"; "scheduler_wakeup"; "admission"; "first_prefill_or_decode"] positions.

(** The rows of a request's episode *)
Definition episode_row (runtime_id episode : string) (row : jdict) : bool :=
  is_text "record_type" "recovery_event" row && is_text "runtime_request_id" runtime_id row
  && is_text "episode_id" episode row.

(** Some episode of the request went through all stages, in the order of the times. *)
Definition recovered (other : json → string) (iot : string → option Z) (profile : list jdict) (runtime_id : string)
    : Prop :=
  ∃ episode rows, timed iot (List.filter (episode_row runtime_id episode) profile) rows ∧
    recovery_stages (map (λ row : Z * jdict, text_of other (jget "stage" row.2)) rows).

Lemma position_first x l i : position x l = Some i → first_at l x i.
Proof.
  revert i. induction l as [|y l IH]; intros i; [done|]. cbn [position].
  destruct (String.eqb_spec y x) as [->|Hne].
  - intros [= <-]. split; [done|apply not_elem_of_nil].
  - intros (j & Hj & ->)%fmap_Some. destruct (IH j Hj) as [Hl Hn]. split; [done|]. simpl.
    apply not_elem_of_cons. by split.
Qed.

Lemma ascending_sorted l : ascending l = true → Sorted le l.
Proof.
  induction l as [|a l IH]; intros H; [constructor|]. destruct l as [|b l]; [by repeat constructor|].
  cbn [ascending] in H. apply andb_true_iff in H as [Hab%Nat.leb_le Hl]. constructor; [by apply IH|by constructor].
Qed.

Lemma omap_full {A B} (f : A → option B) (l : list A) :
  (length (omap f l) ≤ length l)%nat ∧
  (length (omap f l) = length l → Forall2 (λ x y, f x = Some y) l (omap f l)).
Proof.
  induction l as [|x l [Hle IH]]; [by split; [|constructor]|].
  change (omap f (x :: l)) with (match f x with Some y => y :: omap f l | None => omap f l end).
  destruct (f x) eqn:E; cbn [length]; (split; [lia|]); intros H; [|lia].
  constructor; [done|]. apply IH. lia.
Qed.

Lemma stages_complete_recovery stages : stages_complete stages = true → recovery_stages stages.
Proof.
  unfold stages_complete. intros [Hl%Nat.eqb_eq Ha%ascending_sorted]%andb_true_iff.
  exists (omap (λ stage, position stage stages) RECOVERY_STAGES). split; [exact Ha|].
  eapply Forall2_impl; [exact (proj2 (omap_full _ _) Hl)|]. intros x i. apply position_first.
Qed.

Lemma filter_filter_bool {A} (f g : A → bool) l : List.filter f (List.filter g l) = List.filter (λ x, g x && f x) l.
Proof.
  induction l as [|x l IH]; [done|]. cbn [List.filter]. destruct (g x); cbn [List.filter andb]; by rewrite IH.
Qed.

Lemma complete_recovery_recovered other iot profile q :
  _complete_recovery other iot profile q = Ok true → recovered other iot profile q.
Proof.
  unfold _complete_recovery. generalize (unique_in_order [] (omap (λ row, text_value (jget "episode_id" row))
    (List.filter (is_recovery_of q) profile))) as episodes.
  induction episodes as [|episode episodes IH]; [done|]. cbn [any_complete].
  intros (complete & Hc & H)%bind_ok. destruct complete; [|by apply IH]. unfold episode_complete in Hc.
  rewrite filter_filter_bool in Hc. apply bind_ok in Hc as (ordered & Ho%in_order_timed & [= Hs]).
  exists episode, ordered. split; [exact Ho|by apply stages_complete_recovery].
Qed.

(** *** The failure of the worker *)

(** The witness of the pending transfer, and the reports of the monitor and of the request *)
Record worker_failure := mkWorkerFailure { wf_witness : jdict; wf_monitor : jdict; wf_request : jdict }.

Definition failure_row (row : jdict) : bool :=
  is_text "record_type" "event" row && json_eq (row_meta "terminal_cause" row) (JStr "engine_failure").

(** The worker's failure was witnessed: the driver killed the worker that it had verified to
    own the transfer, which was pending before the signal; the monitor reported the failure
    once, the request once, and every process ended. *)
Record failure_closed (other : json → string) (run : fault_run) (results : list RequestResult) (base : list jdict)
    (w : worker_failure) : Prop := mkFailureClosed {
  fc_injection : jget "injection" (fr_worker_event run) = JStr "pending-transfer-sigkill";
  fc_signal : jget "signal" (fr_worker_event run) = JStr "SIGKILL";
  fc_verified : jget "ownership_verified" (fr_worker_event run) = JBool true;
  fc_witness : assoc "pending_transfer_witness" (fr_worker_event run) = Some (JObject (wf_witness w));
  fc_pid : json_eq (jget "pid" (wf_witness w)) (worker_pid_of (fr_worker_event run)) = true;
  fc_generation : json_eq (jget "worker_generation" (wf_witness w))
    (json_option_text (generation_of other (worker_pid_of (fr_worker_event run)))) = true;
  fc_transfer : ∃ transfer_id, jget "transfer_id" (wf_witness w) = JStr transfer_id;
  fc_pending : ∃ t, any_int (jget "timestamp_ns" (wf_witness w)) = Some t ∧ t < fr_worker_signal_ns run;
  fc_target : fr_target_pid_alive run = false;
  fc_engine : fr_engine_pid_alive run = false;
  fc_server : fr_server_returncode run = Some 0;
  fc_monitor : List.filter (λ row, failure_row row && json_eq (row_meta "worker_generation" row)
      (json_option_text (generation_of other (worker_pid_of (fr_worker_event run))))) base = [wf_monitor w];
  fc_request : ∃ r trace_id, r ∈ results ∧ rq_role r = "worker_exit" ∧
    _trace_id (fr_run_id run) (rq_internal_request_id r) = Ok trace_id ∧
    List.filter (λ row, failure_row row && is_text "trace_id" trace_id row) base = [wf_request w] }.

Lemma monitor_events_rows generation base rows :
  monitor_events generation base = Ok rows →
  rows = List.filter (λ row, failure_row row
           && json_eq (row_meta "worker_generation" row) (json_option_text generation)) base.
Proof.
  apply res_filter_is. intros row b. unfold failure_row, is_text, is_record.
  destruct (json_eq (jget "record_type" row) _); [|by intros [= <-]].
  intros (cause & <-%get_meta_row & (owner & <-%get_meta_row & [= <-])%bind_ok)%bind_ok. done.
Qed.

Lemma worker_request_rows run_id worker base rows :
  worker_request_events run_id worker base = Ok rows → rows ≠ [] →
  ∃ r trace_id, worker = Some r ∧ _trace_id run_id (rq_internal_request_id r) = Ok trace_id ∧
    rows = List.filter (λ row, failure_row row && is_text "trace_id" trace_id row) base.
Proof.
  unfold worker_request_events. destruct worker as [r|]; [|by intros [= <-]].
  intros (trace_id & Ht & H)%bind_ok _. exists r, trace_id. split_and!; [done..|]. revert H. apply res_filter_is.
  intros row b. unfold failure_row, is_event_of, is_record, is_text.
  destruct (json_eq (jget "record_type" row) _); [|by intros [= <-]].
  destruct (json_eq (jget "trace_id" row) _); [|intros [= <-]; by rewrite andb_false_r].
  intros (cause & <-%get_meta_row & [= <-])%bind_ok. by rewrite andb_true_r.
Qed.

Lemma by_role_elem role results r : by_role role results = Some r → r ∈ results ∧ rq_role r = role.
Proof.
  unfold by_role. intros [l E]%last_Some. assert (r ∈ List.filter (is_role role) results) as H by (rewrite E; set_solver).
  rewrite list_elem_of_In, filter_In, <- list_elem_of_In in H. destruct H as [H1 H2%String.eqb_eq]. done.
Qed.

Lemma failure_witnessed_ok other run results base monitor requests :
  failure_witnessed run (worker_pid_of (fr_worker_event run)) (generation_of other (worker_pid_of (fr_worker_event run)))
    monitor requests = Ok true →
  monitor_events (generation_of other (worker_pid_of (fr_worker_event run))) base = Ok monitor →
  worker_request_events (fr_run_id run) (by_role "worker_exit" results) base = Ok requests →
  ∃ w, failure_closed other run results base w ∧ monitor = [wf_monitor w].
Proof.
  unfold failure_witnessed. destruct (json_eq _ _ && _ && _) eqn:Ee; [|done].
  apply andb_true_iff in Ee as [[Hi%json_eq_text Hv]%andb_true_iff Hs%json_eq_text].
  unfold witness_json. destruct (get_or_dict _ _) as [| | |witness] eqn:Ew; try done. intros [= H] Hm Hr.
  rewrite !andb_true_iff, !negb_true_iff, !Nat.eqb_eq, bool_decide_eq_true in H.
  destruct H as [[[[[Hmatch Htarget] Hengine] Hserver] Hml] Hrl].
  destruct monitor as [|m [|]]; try done. destruct requests as [|q [|]]; try done.
  unfold witness_matches in Hmatch. rewrite !andb_true_iff in Hmatch. destruct Hmatch as [[[Hp Hg] Ht] Htime].
  apply worker_request_rows in Hr as (r & trace_id & [Hin Hrole]%by_role_elem & Htrace & Hrows); [|done].
  exists (mkWorkerFailure witness m q). split; [|done]. constructor; cbn [wf_witness wf_monitor wf_request]; try done.
  - destruct (jget "ownership_verified" _) as [|[]| |]; try done. simpl in Hv. by subst.
  - unfold get_or_dict in Ew. destruct (assoc _ _) as [v|] eqn:Ea; simpl in Ew; [by subst|].
    injection Ew as <-. done.
  - destruct (jget "transfer_id" witness) as [|[]| |]; try done. by eexists.
  - destruct (any_int _) as [t|]; [|done]. exists t. split; [done|lia].
  - by apply monitor_events_rows in Hm.
  - by exists r, trace_id.
Qed.

(** *** Activity *)

(** The identifiers that the state of the engine or of the observer names *)
Definition named_items (part key : string) (state : jdict) : list json :=
  match get_or_dict part state with
  | JObject d => match jget key d with JList l => l | _ => [] end
  | _ => []
  end.

Definition quiet (state : jdict) : Prop :=
  named_items "engine" "active_internal_request_ids" state = [] ∧ named_items "observer" "active_request_ids" state = [].

Lemma state_items_named other state part key l :
  state_items other state part key = Ok l → map (text_of other) (named_items part key state) = l.
Proof.
  unfold state_items, named_items, jget. destruct (get_or_dict part state) as [| | |d]; try done.
  destruct (assoc key d) as [[| | |]|]; simpl; try done; by intros [= <-].
Qed.

Lemma active_quiet other state active : _active_ids other state = Ok active → active = ∅ → quiet state.
Proof.
  unfold _active_ids. intros (engine & He%state_items_named & (observer & Ho%state_items_named & [= <-])%bind_ok)%bind_ok.
  intros H. assert (engine ++ observer = []) as [-> ->]%app_nil.
  { destruct (engine ++ observer) as [|q l]; [done|]. simpl in H. set_solver. }
  split; by eapply map_eq_nil.
Qed.

Lemma facts_of_rows other records facts :
  facts_of other records = Ok facts →
  tf_base facts = records_with "schema_version" records ∧ tf_profile facts = records_with "schema" records.
Proof. unfold facts_of. by intros (? & _ & (? & _ & [= <-])%bind_ok)%bind_ok. Qed.

Lemma fault_facts_ok other iot records run results f :
  fault_facts_of other iot records run results = Ok f →
  let base := records_with "schema_version" records in
  let profile := records_with "schema" records in
  let generation := generation_of other (worker_pid_of (fr_worker_event run)) in
  (∃ items, res_mapM (request_chain (_terminal_chain_valid other iot) base (fr_run_id run)) results = Ok items ∧
     ff_chains f = dict_of items) ∧
  (∃ witness, witness_dict (witness_json (fr_worker_event run)) = Ok witness ∧
     _resource_ledger other iot base profile generation (ff_monitor_events f) witness = Ok (ff_ledger f)) ∧
  (∀ q, q ∈ ff_recovered f → ∃ r, r ∈ results ∧ rq_internal_request_id r = q ∧
     _complete_recovery other iot profile q = Ok true) ∧
  (∃ active, _active_ids other (fr_quiescence_state run) = Ok active ∧ ff_active f = sorted_texts active) ∧
  (ff_failure_witnessed f = true → ∃ w, failure_closed other run results base w ∧ ff_monitor_events f = [wf_monitor w]).
Proof.
  intros H base profile generation. unfold fault_facts_of in H. apply bind_ok in H as (facts & Hf & H).
  apply facts_of_rows in Hf as [Hb Hp]. rewrite Hb, Hp in H. fold base profile generation in H.
  apply bind_ok in H as (closed & _ & H).
  apply bind_ok in H as (items & Hi & H). apply bind_ok in H as (unmatched & _ & H).
  apply bind_ok in H as (attempts & _ & H). apply bind_ok in H as (active & Ha & H).
  apply bind_ok in H as (recovered & Hr & H). apply bind_ok in H as (monitor & Hm & H).
  apply bind_ok in H as (requests & Hq & H). apply bind_ok in H as (witnessed & Hw & H).
  apply bind_ok in H as (witness & Hd & H). apply bind_ok in H as (ledger & Hl & [= <-]).
  cbn [ff_chains ff_monitor_events ff_ledger ff_recovered ff_failure_witnessed ff_active].
  split; [by exists items|]. split; [by exists witness|]. split; [|split].
  - intros q Hin. rewrite merge_sort_Permutation, list_elem_of_fmap in Hin. destruct Hin as (r & -> & Hin).
    destruct (res_filter_ok _ _ _ Hr r Hin). by exists r.
  - by exists active.
  - intros ->. by eapply failure_witnessed_ok.
Qed.

(** The end of the worker is the time of the monitor's report. *)
Lemma killed_exit times generation monitor r :
  killed times generation (generation_exit generation [monitor]) r →
  killed times generation (any_int (jget "timestamp_ns" monitor)) r.
Proof. intros (H1 & H2 & H3 & exit & H4 & H5). split_and!; [done..|]. exists exit. by destruct generation. Qed.

(** C35. What it takes for a run with faults, whose requests have distinct identifiers, to
    be correct.  Every served client got a full answer with tokens and every other one the
    fault of its role.  The terminal events of every request come from different files and
    are, in the order of their times, one ending: a single cause, the engine's failure
    twice, or a cause with its explicit cancellation.  Some request has an episode in which
    the six stages of a recovery come in order.  The kill of the worker that owned a pending
    transfer was witnessed, by one report of the monitor and one of its request, and the
    processes ended.  The driver saw the server quiescent, or the state it saw last names no
    active request; no file leaked.  Every resource in the ledger was returned by its one
    request, or was a pending transfer of the killed worker to which nothing happened at or
    after the monitor's report. *)
Theorem correct_run other iot records run results d :
  _analyze other iot records run results = Ok d → jget "correctness" d = JBool true →
  NoDup (map rq_request_id results) →
  let base := records_with "schema_version" records in
  ∃ f w, fault_facts_of other iot records run results = Ok f ∧
    Forall client_outcome results ∧
    Forall (one_terminal other iot base (fr_run_id run)) results ∧
    (∃ r, r ∈ results ∧ recovered other iot (records_with "schema" records) (rq_internal_request_id r)) ∧
    failure_closed other run results base w ∧
    (fr_quiescent run = true ∨ quiet (fr_quiescence_state run)) ∧ fr_leaked_offload_mmaps run = [] ∧
    ∀ r, r ∈ rl_resources (ff_ledger f) →
      returned r ∨ killed (event_time other iot base (wf_witness w))
                     (generation_of other (worker_pid_of (fr_worker_event run)))
                     (any_int (jget "timestamp_ns" (wf_monitor w))) r.
Proof.
  intros H Hc Hd base. unfold _analyze in H.
  apply bind_ok in H as (f & Hf & (distribution & _ & (boundaries & _ & [= <-])%bind_ok)%bind_ok).
  assert (evidence_valid run results f && state_conservation run f = true) as Hv by by injection Hc. clear Hc.
  destruct (fault_facts_ok _ _ _ _ _ _ Hf) as ((items & Hi & Hchains) & (witness & Hwd & Hl) & Hr & (active & Ha & Hact) & Hw).
  unfold evidence_valid, state_conservation in Hv. rewrite !andb_true_iff, !is_nil_ok, Z.eqb_eq in Hv.
  destruct Hv as [[[[[[[Hclient Hchain] _] Hrec] Hwit] _] Hcomplete] [Hz Ho]].
  assert (rl_orphans (ff_ledger f) = [] ∧ fr_leaked_offload_mmaps run = []) as [Horph Hleak].
  { unfold orphan_lease_count in Ho. split; apply nil_length_inv; lia. }
  destruct (Hw Hwit) as (w & Hclosed & Hmon). exists f, w. split; [done|]. split.
  { apply Forall_forall. intros r Hin. rewrite forallb_forall in Hclient.
    by apply client_correct_outcome, Hclient, list_elem_of_In. }
  split; [rewrite Hchains in Hchain; by eapply chains_one_terminal|].
  split; [|split; [done|split; [|split; [done|]]]].
  - destruct (ff_recovered f) as [|q l] eqn:E; [done|]. destruct (Hr q) as (r & Hin & <- & Hq); [by left|].
    exists r. split; [done|by apply complete_recovery_recovered].
  - unfold zombie_request_ids in Hz. apply sorted_texts_nil in Hz. destruct (fr_quiescent run); [by left|right].
    apply (active_quiet _ _ _ Ha), sorted_texts_nil. rewrite <- Hact.
    destruct (ff_active f) as [|q l]; [done|]. simpl in Hz. set_solver.
  - intros r Hin. destruct (ledger_conserved _ _ _ _ _ _ _ _ Hl Hcomplete Horph r Hin) as [|Hk]; [by left|right].
    rewrite Hmon in Hk. apply killed_exit in Hk. unfold witness_json, get_or_dict in Hwd.
    rewrite (fc_witness _ _ _ _ _ Hclosed) in Hwd. by injection Hwd as <-.
Qed.

(** A run with a duplicate cancellation and a killed worker *)
Definition example_result (role id : string) : RequestResult :=
  mkRequestResult id id 0 role 0 None 1 None 0 None false true None.

Definition example_results : list RequestResult :=
  [example_result "duplicate_cancel" "c"; example_result "worker_exit" "w"].

Definition example_trace (id : string) : json :=
  match _trace_id "run" id with Ok t => JStr t | Raise _ => JNull end.

Definition example_terminal (name id cause : string) (generation : json) (t : Z) : jdict :=
  [("schema_version", JStr "v"); ("record_type", JStr "event"); ("event_name", JStr name);
   ("trace_id", example_trace id); ("timestamp_ns", JInt t); ("_source", JStr "trace.jsonl");
   ("metadata", JObject [("terminal_cause", JStr cause); ("worker_generation", generation)])].

Definition recovery_row (stage : string) (t : Z) : jdict :=
  [("schema", JStr "p"); ("record_type", JStr "recovery_event"); ("runtime_request_id", JStr "c");
   ("episode_id", JStr "e"); ("stage", JStr stage); ("timestamp_ns", JInt t)].

Definition example_records : list jdict :=
  [[("schema_version", JStr "v"); ("record_type", JStr "process_summary"); ("close_outcome", JStr "drained");
    ("dropped_data_count", JInt 0); ("writer_failure_count", JInt 0)];
   ("schema_version", JStr "v") :: transition_event "resource_acquired" "acquire" "kv_capacity_lease" "l" "g" "c" 10;
   ("schema_version", JStr "v") :: transition_event "resource_released" "release" "kv_capacity_lease" "l" "g" "c" 12;
   example_terminal "aborted" "c" "explicit_cancel" JNull 13;
   example_terminal "error" "w" "engine_failure" (JStr "VllmWorker-0:7") 25;
   [("schema", JStr "p"); ("record_type", JStr "transfer_event"); ("transfer_phase", JStr "submit");
    ("transfer_id", JStr "t1"); ("timestamp_ns", JInt 18)];
   recovery_row "preempt" 1; recovery_row "restore_start" 2; recovery_row "restore_done" 3;
   recovery_row "scheduler_wakeup" 4; recovery_row "admission" 5; recovery_row "first_prefill_or_decode" 6].

Definition example_fault_run : fault_run :=
  mkFaultRun "run" [] true [("observer", JObject [("abort_attempts", JObject [("c", JInt 2)])])] 22
    [("injection", JStr "pending-transfer-sigkill"); ("ownership_verified", JBool true); ("signal", JStr "SIGKILL");
     ("target", JObject [("pid", JInt 7)]);
     ("pending_transfer_witness",
      JObject [("pid", JInt 7); ("worker_generation", JStr "VllmWorker-0:7"); ("transfer_id", JStr "t1");
        ("runtime_request_id", JStr "w"); ("timestamp_ns", JInt 20)])]
    [] false false (Some 0) "".

Lemma correct_run_witness :
  ∃ d, _analyze (λ _, "") (λ _, None) example_records example_fault_run example_results = Ok d ∧
    jget "worker_generation_invalidated_transfer_ids" d = json_texts ["t1"] ∧
    ∃ w, failure_closed (λ _, "") example_fault_run example_results (records_with "schema_version" example_records) w.
Proof.
  assert (∃ d, _analyze (λ _, "") (λ _, None) example_records example_fault_run example_results = Ok d ∧
    jget "worker_generation_invalidated_transfer_ids" d = json_texts ["t1"] ∧
    jget "correctness" d = JBool true) as (d & Hd & Ht & Hc).
  { eexists. split; [vm_compute; reflexivity|]. split; vm_compute; reflexivity. }
  assert (NoDup (map rq_request_id example_results)) as Hn by (apply (bool_decide_unpack _); vm_compute; exact I).
  exists d. split; [exact Hd|]. split; [exact Ht|]. clear Ht. revert Hd Hc Hn.
  generalize example_records example_fault_run example_results. intros records run results Hd Hc Hn.
  destruct (correct_run (λ _, "") (λ _, None) records run results d Hd Hc Hn) as (f & w & _ & _ & _ & _ & Hw & _).
  exists w. exact Hw.
Defined.
