(* ===== verification/CampaignDecision.v ===== *)
(** * The decision of the campaign

    [_aggregate] of run_issue19_m0_baseline.py decides over the repetitions of a campaign,
    each a run with faults and its matched control, compared by [_paired_latency];
    [recompute_summary] of issue19_public_artifacts.py decides again from the exported
    analyses.  The analyses are parsed JSON.  Writing the summary and the median and
    spread of its latencies are left out.

    What a decision rests on: [go_decision].  Both decide alike: [public_decision_agrees]. *)

From Stdlib Require Import ZArith Lia Ascii String.
From stdpp Require Import base strings gmap sets sorting list.
From S2P Require Import Prelude PyValue Binary64 JsonValue Workload ExecutionPlan NullCalibration ResourceLedger.
From S2P Require Import BaselineAnalysis.

(** [v[key]] *)
Definition item (key : string) (v : json) : res json :=
  match v with
  | JObject d => match assoc key d with Some v => Ok v | None => Raise (KeyError key) end
  | _ => Raise TypeError
  end.

(** [isinstance(v, (int, float))], which holds of a [bool] *)
Definition number_of (v : json) : option number := match v with JScalar v => as_number v | _ => None end.

(** ** The comparison with the control *)

Record latency := mkLatency {
  lt_evaluable : bool;
  lt_observed : option bool;
  lt_reason : option string;
  lt_top1_boundary : option string;
  lt_p99 : option (number * number);
  lt_relative_delta : option float;
  lt_boundary_deltas : list (string * float) }.

Definition P99_THRESHOLD : float := lit 10 100.

Definition survivor_p99 (analysis : jdict) : res json :=
  distribution ← item "distribution" (JObject analysis);
  item "unaffected_survivor_p99_seconds" distribution.

(** [analysis["distribution"].get("unaffected_survivor_count") == 58] *)
Definition all_survived (analysis : jdict) : bool :=
  match jget "distribution" analysis with
  | JObject d => json_eq (jget "unaffected_survivor_count" d) (JInt (Z.of_nat (length UNAFFECTED_ORDINALS)))
  | _ => false
  end.

(** The latencies of a pair that can be compared *)
Definition comparable (fault control : jdict) (fault_p99 control_p99 : json) : option (number * number) :=
  if NullCalibration.is_true (jget "evidence_valid" fault) && NullCalibration.is_true (jget "evidence_valid" control) then
    match number_of fault_p99, number_of control_p99 with
    | Some f, Some c =>
        if num_lt (NInt 0) c && all_survived fault && all_survived control then Some (f, c) else None
    | _, _ => None
    end
  else None.

(** [row.get("p99")] of the rows of a boundary, and their difference *)
Definition boundary_delta (control_rows : json) (row : string * json) : res (list (string * float)) :=
  fault_value ← get_from row.2 "p99";
  control_row ← match control_rows with JObject d => Ok (get_or_dict row.1 d) | _ => Raise AttributeError end;
  control_value ← get_from control_row "p99";
  match number_of fault_value, number_of control_value with
  | Some f, Some c => f ← num_to_float f; c ← num_to_float c; Ok [(row.1, fsub f c)]
  | _, _ => Ok []
  end.

Definition boundary_deltas (fault control : jdict) : res (list (string * float)) :=
  rows ← item "lifecycle_boundary_p99_seconds" (JObject fault);
  match rows with
  | JObject [] => Ok []
  | JObject rows =>
      control_rows ← item "lifecycle_boundary_p99_seconds" (JObject control);
      deltas ← res_mapM (boundary_delta control_rows) rows;
      Ok (concat deltas)
  | _ => Raise AttributeError
  end.

(** The order of [sorted(..., reverse=True)] on pairs of a difference and a name *)
Definition greater_delta (a b : string * float) : bool :=
  if feq a.2 b.2 then str_lt b.1 a.1 else flt b.2 a.2.

Definition top1_boundary (deltas : list (string * float)) : option string :=
  fst <$> head (stable_sort greater_delta (List.filter (λ d, flt f0 d.2) deltas)).

Definition _paired_latency (fault control : jdict) : res latency :=
  fault_p99 ← survivor_p99 fault;
  control_p99 ← survivor_p99 control;
  match comparable fault control fault_p99 control_p99 with
  | None => Ok (mkLatency false None (Some "matched_normal_control_incomplete") None None None [])
  | Some (f, c) =>
      x ← num_to_float f;
      y ← num_to_float c;
      let relative_delta := fdiv (fsub x y) y in
      deltas ← boundary_deltas fault control;
      let crossed := fle P99_THRESHOLD relative_delta in
      match crossed, top1_boundary deltas with
      | true, None =>
          Ok (mkLatency false None (Some "p99_threshold_crossed_without_graph_top1") None (Some (f, c))
                (Some relative_delta) deltas)
      | _, top1 => Ok (mkLatency true (Some crossed) None top1 (Some (f, c)) (Some relative_delta) deltas)
      end
  end.

Definition json_number (n : number) : json := match n with NInt n => JInt n | NFloat x => JFloat x end.

Definition latency_to_dict (l : latency) : jdict :=
  [("evaluable", JBool (lt_evaluable l));
   ("observed", match lt_observed l with Some b => JBool b | None => JNull end);
   ("reason", json_option_text (lt_reason l))]
  ++ match lt_p99 l, lt_relative_delta l with
     | Some (f, c), Some delta =>
         [("fault_p99_seconds", json_number f); ("normal_control_p99_seconds", json_number c);
          ("relative_delta", JFloat delta)]
         ++ (if lt_evaluable l then [("top1_boundary", json_option_text (lt_top1_boundary l))] else [])
         ++ [("boundary_p99_delta_seconds", JObject (map (λ d, (d.1, JFloat d.2)) (lt_boundary_deltas l)))]
     | _, _ => []
     end.

(** ** A repetition *)

Definition arm_order (index : nat) : list string :=
  if Nat.even index then ["normal-control"; "fault"] else ["fault"; "normal-control"].

(** [{**fault, ...}] *)
Definition repetition_result (index : nat) (fault control : jdict) (l : latency) : jdict :=
  foldl (λ d kv, dict_put kv.1 kv.2 d) fault
    [("arm_order", json_texts (arm_order index)); ("normal_control", JObject control);
     ("paired_latency", JObject (latency_to_dict l));
     ("evidence_valid", JBool (NullCalibration.is_true (jget "evidence_valid" fault)
        && NullCalibration.is_true (jget "evidence_valid" control) && lt_evaluable l));
     ("latency_pathology_evaluable", JBool (lt_evaluable l));
     ("latency_pathology_observed", match lt_observed l with Some b => JBool b | None => JNull end);
     ("latency_pathology_reason", json_option_text (lt_reason l));
     ("latency_top1_boundary", json_option_text (lt_top1_boundary l))].

Definition judge_pair (ip : nat * (jdict * jdict)) : res jdict :=
  l ← _paired_latency ip.2.1 ip.2.2;
  Ok (repetition_result ip.1 ip.2.1 ip.2.2 l).

(** ** The decision *)

Record summary := mkSummary {
  sm_completed : Z;
  sm_evidence_valid : bool;
  sm_correctness : bool;
  sm_resource_count : Z;
  sm_latency_evaluable : bool;
  sm_latency_count : option Z;
  sm_boundary_counts : list (string * Z);
  sm_dominant : option string;
  sm_dominant_count : Z;
  sm_pathology_count : Z;
  sm_p99_values : list json;
  sm_go : bool;
  sm_decision : string }.

(** [result.get(key, False)], as a truth value *)
Definition holds (key : string) (result : jdict) : bool := json_truthy (default (JBool false) (assoc key result)).

(** [all(result[key] for result in results)] *)
Fixpoint all_items (key : string) (results : list jdict) : res bool :=
  match results with
  | [] => Ok true
  | result :: results =>
      v ← item key (JObject result);
      if json_truthy v then all_items key results else Ok false
  end.

(** [sum(bool(result[key]) for result in results)] *)
Definition count_items (key : string) (results : list jdict) : res Z :=
  values ← res_mapM (λ result, item key (JObject result)) results;
  Ok (Z.of_nat (length (List.filter json_truthy values))).

Definition add_boundary (counts : list (string * Z)) (result : jdict) : list (string * Z) :=
  if json_truthy (jget "latency_pathology_observed" result) then
    match text_value (jget "latency_top1_boundary" result) with
    | Some boundary => dict_put boundary (default 0 (assoc boundary counts) + 1) counts
    | None => counts
    end
  else counts.

(** [max(counts, key=counts.get)] *)
Definition dominant_of (counts : list (string * Z)) : option (string * Z) :=
  match counts with
  | [] => None
  | c :: counts => Some (foldl (λ best c, if best.2 <? c.2 then c else best) c counts)
  end.

Definition p99_values (results : list jdict) : res (list json) :=
  values ← res_mapM survivor_p99 results;
  Ok (List.filter (λ v, negb (json_eq v JNull)) values).

(** [_aggregate] *)
Definition _aggregate (results : list jdict) : res summary :=
  let arms_valid := forallb (holds "evidence_valid") results in
  correctness ← all_items "correctness" results;
  resource_count ← count_items "pathology_observed" results;
  let latency_evaluable := negb (match results with [] => true | _ => false end)
                           && forallb (holds "latency_pathology_evaluable") results in
  let evidence_valid := arms_valid && latency_evaluable in
  latency_count ← (if latency_evaluable then n ← count_items "latency_pathology_observed" results; Ok (Some n)
                   else Ok None);
  let counts := if latency_evaluable then foldl add_boundary [] results else [] in
  let dominant_count := default 0 (snd <$> dominant_of counts) in
  values ← p99_values results;
  let complete := (length results =? 10)%nat in
  let go := complete && evidence_valid && ((8 <=? resource_count) || (8 <=? dominant_count)) in
  Ok (mkSummary (Z.of_nat (length results)) evidence_valid correctness resource_count latency_evaluable latency_count
        counts (fst <$> dominant_of counts) dominant_count (Z.max resource_count dominant_count) values go
        (if negb complete then "INCOMPLETE"
         else if negb evidence_valid then "INVALID_EVIDENCE"
         else if go then "GO" else "NO_GO")).

(** The loop over the repetitions, which stops after one without valid evidence; every
    pass writes the summary so far. *)
Fixpoint run_repetitions (pairs : list (nat * (jdict * jdict))) (results : list jdict) : res (list jdict) :=
  match pairs with
  | [] => Ok results
  | p :: pairs =>
      result ← judge_pair p;
      let results := results ++ [result] in
      _ ← _aggregate results;
      if holds "evidence_valid" result then run_repetitions pairs results else Ok results
  end.

Definition campaign (pairs : list (nat * (jdict * jdict))) : res summary :=
  results ← run_repetitions pairs [];
  _aggregate results.

(** [recompute_summary], on the analyses of the ten repetitions *)
Definition recompute_summary (pairs : list (jdict * jdict)) : res summary :=
  results ← res_mapM judge_pair (enumerate pairs);
  let evidence_valid := forallb (holds "evidence_valid") results in
  correctness ← all_items "correctness" results;
  resource_count ← count_items "pathology_observed" results;
  let latency_evaluable := forallb (holds "latency_pathology_evaluable") results in
  latency_count ← (if latency_evaluable then n ← count_items "latency_pathology_observed" results; Ok (Some n)
                   else Ok None);
  let counts := if latency_evaluable then foldl add_boundary [] results else [] in
  let dominant_count := default 0 (snd <$> dominant_of counts) in
  values ← p99_values results;
  let valid := evidence_valid && latency_evaluable in
  let go := valid && ((8 <=? resource_count) || (8 <=? dominant_count)) in
  Ok (mkSummary (Z.of_nat (length results)) valid correctness resource_count latency_evaluable latency_count
        counts (fst <$> dominant_of counts) dominant_count (Z.max resource_count dominant_count) values go
        (if go then "GO" else if valid then "NO_GO" else "INVALID_EVIDENCE")).

(** ** Both decisions *)

Lemma run_repetitions_all pairs acc results :
  run_repetitions pairs acc = Ok results → length results = (length acc + length pairs)%nat →
  ∃ new, res_mapM judge_pair pairs = Ok new ∧ results = acc ++ new.
Proof.
  revert acc. induction pairs as [|p pairs IH]; intros acc H Hl; cbn [run_repetitions] in H.
  - injection H as <-. exists []. by rewrite app_nil_r.
  - apply bind_ok in H as (result & Hp & (? & _ & H)%bind_ok). cbn [res_mapM]. rewrite Hp. simpl in Hl.
    destruct (holds "evidence_valid" result).
    + destruct (IH _ H) as (new & Hn & ->); [rewrite length_app; simpl; lia|].
      exists (result :: new). simpl. rewrite Hn. by rewrite <- app_assoc.
    + injection H as <-. rewrite length_app in Hl. simpl in Hl.
      destruct pairs; [|simpl in Hl; lia]. by exists [result].
Qed.

(** C37. The decision that is recomputed from the exported analyses of ten repetitions is the
    decision of the campaign, if that finished all ten: the two summaries are equal. *)
Theorem public_decision_agrees pairs s :
  length pairs = 10%nat → campaign (enumerate pairs) = Ok s → sm_completed s = 10 →
  recompute_summary pairs = Ok s.
Proof.
  intros Hn H Hc. unfold campaign in H. apply bind_ok in H as (results & Hr & Ha).
  assert (length results = 10%nat) as Hl.
  { unfold _aggregate in Ha. do 4 apply bind_ok in Ha as (? & _ & Ha). injection Ha as <-. simpl in Hc. lia. }
  apply run_repetitions_all in Hr as (new & Hm & ->).
  2:{ unfold enumerate. rewrite length_zip, length_seq, Hn, Hl. done. }
  simpl in Ha, Hl. unfold recompute_summary. rewrite Hm. cbn [mbind res_bind].
  unfold _aggregate in Ha. rewrite Hl in Ha.
  assert (match new with [] => true | _ => false end = false) as Hne by by destruct new. rewrite Hne in Ha.
  revert Ha. generalize (forallb (holds "evidence_valid") new) (forallb (holds "latency_pathology_evaluable") new).
  intros valid evaluable Ha. cbn [negb andb Nat.eqb] in Ha.
  apply bind_ok in Ha as (correct & H1 & Ha). apply bind_ok in Ha as (count & H2 & Ha).
  apply bind_ok in Ha as (latencies & H3 & Ha). apply bind_ok in Ha as (values & H4 & Ha).
  rewrite H1. cbn [mbind res_bind]. rewrite H2. cbn [mbind res_bind]. rewrite H3. cbn [mbind res_bind]. rewrite H4.
  cbn [mbind res_bind]. rewrite <- Ha, Hl. destruct valid; [|done]. destruct evaluable; [|done].
  cbn [andb negb]. by destruct (_ || _).
Qed.

(** ** What a decision rests on *)

Lemma assoc_put {A} k key (v : A) d : assoc k (dict_put key v d) = if String.eqb key k then Some v else assoc k d.
Proof.
  induction d as [|[k' w] d IH]; simpl; [done|]. destruct (String.eqb_spec k' key) as [->|Hne]; simpl.
  - by destruct (String.eqb key k).
  - rewrite IH. destruct (String.eqb_spec k' k) as [->|], (String.eqb_spec key k) as [->|]; done.
Qed.

(** What the decision reads in the result of a pair *)
Lemma result_fields i fault control l :
  let r := repetition_result i fault control l in
  holds "evidence_valid" r
    = NullCalibration.is_true (jget "evidence_valid" fault) && NullCalibration.is_true (jget "evidence_valid" control)
      && lt_evaluable l ∧
  holds "latency_pathology_evaluable" r = lt_evaluable l ∧
  json_truthy (jget "latency_pathology_observed" r) = default false (lt_observed l) ∧
  text_value (jget "latency_top1_boundary" r) = lt_top1_boundary l ∧
  item "pathology_observed" (JObject r) = item "pathology_observed" (JObject fault).
Proof.
  unfold repetition_result, holds, jget, item. cbn [foldl fst snd]. rewrite !assoc_put.
  cbn [String.eqb Ascii.eqb Bool.eqb default json_truthy]. split_and!; try done.
  - by destruct (lt_observed l).
  - by destruct (lt_top1_boundary l).
Qed.

(** The boundary that a result adds to the counts *)
Definition boundary_named (r : jdict) : option string :=
  if json_truthy (jget "latency_pathology_observed" r) then text_value (jget "latency_top1_boundary" r) else None.

Lemma add_boundary_named counts r :
  add_boundary counts r = match boundary_named r with
                          | Some b => dict_put b (default 0 (assoc b counts) + 1) counts
                          | None => counts
                          end.
Proof. unfold add_boundary, boundary_named. by repeat case_match. Qed.

Definition count_named (b : string) (results : list jdict) : nat :=
  length (List.filter (λ r, bool_decide (boundary_named r = Some b)) results).

Lemma counts_ok results counts b :
  default 0 (assoc b (foldl add_boundary counts results))
  = default 0 (assoc b counts) + Z.of_nat (count_named b results).
Proof.
  revert counts. induction results as [|r results IH]; intros counts; [unfold count_named; simpl; lia|].
  cbn [foldl]. rewrite IH, add_boundary_named. unfold count_named. cbn [List.filter].
  destruct (boundary_named r) as [c|] eqn:E.
  - rewrite assoc_put. destruct (String.eqb_spec c b) as [->|Hne].
    + rewrite bool_decide_true by done. simpl. lia.
    + rewrite bool_decide_false by congruence. done.
  - by rewrite bool_decide_false.
Qed.

Lemma dict_put_keys {A} key (v : A) d : NoDup d.*1 → NoDup (dict_put key v d).*1.
Proof.
  intros Hd. destruct (decide (key ∈ d.*1)) as [Hin|Hn].
  - assert ((dict_put key v d).*1 = d.*1) as ->; [|done]. clear Hd.
    induction d as [|[k w] d IH]; [by apply elem_of_nil in Hin|]. simpl in Hin |- *.
    destruct (String.eqb_spec k key) as [->|Hne]; [done|]. simpl. f_equal. apply IH.
    apply elem_of_cons in Hin as [->|]; done.
  - rewrite dict_put_fresh by done. rewrite fmap_app. apply NoDup_app. split; [done|]. split; [|by apply NoDup_singleton].
    intros k Hk Hk'. simpl in Hk'. apply list_elem_of_singleton in Hk' as ->. done.
Qed.

Lemma counts_keys results counts : NoDup counts.*1 → NoDup (foldl add_boundary counts results).*1.
Proof.
  revert counts. induction results as [|r results IH]; intros counts Hd; [done|]. simpl. apply IH.
  rewrite add_boundary_named. destruct (boundary_named r); [by apply dict_put_keys|done].
Qed.

Lemma dominant_ok counts :
  match dominant_of counts with
  | Some best => best ∈ counts ∧ ∀ c, c ∈ counts → c.2 ≤ best.2
  | None => counts = []
  end.
Proof.
  destruct counts as [|c counts]; [done|]. simpl.
  assert (∀ best, let m := foldl (λ best c, if best.2 <? c.2 then c else best) best counts in
    (m = best ∨ m ∈ counts) ∧ best.2 ≤ m.2 ∧ ∀ c, c ∈ counts → c.2 ≤ m.2) as H.
  { induction counts as [|d counts IH]; intros best; simpl.
    - split; [by left|]. split; [lia|]. by intros x ?%elem_of_nil.
    - destruct (IH (if best.2 <? d.2 then d else best)) as (Hm & Hle & Hall).
      destruct (Z.ltb_spec best.2 d.2); (split; [destruct Hm as [->|]; [..|right; by right]; try (by left); right; by left|]);
        (split; [lia|]); intros x [->|Hx]%elem_of_cons; try lia; by apply Hall. }
  destruct (H c) as (Hm & Hle & Hall). split.
  - destruct Hm as [->|]; [by left|by right].
  - intros x [->|Hx]%elem_of_cons; [done|by apply Hall].
Qed.

Lemma elem_assoc {A} (d : list (string * A)) k v : NoDup d.*1 → (k, v) ∈ d → assoc k d = Some v.
Proof.
  induction d as [|[k' w] d IH]; intros Hd Hin; [by apply elem_of_nil in Hin|]. apply NoDup_cons in Hd as [Hk Hd].
  simpl. apply elem_of_cons in Hin as [[= -> ->]|Hin]; [by rewrite String.eqb_refl|].
  destruct (String.eqb_spec k' k) as [->|]; [|by apply IH]. destruct Hk. apply list_elem_of_fmap. by exists (k, v).
Qed.

(** Eight results name the same boundary. *)
Lemma dominant_count_ok results :
  8 ≤ default 0 (snd <$> dominant_of (foldl add_boundary [] results)) ↔ ∃ b, (8 ≤ count_named b results)%nat.
Proof.
  pose proof (dominant_ok (foldl add_boundary [] results)) as Hd.
  pose proof (counts_keys results [] (NoDup_nil_2 (A:=string))) as Hk.
  assert (∀ b, default 0 (assoc b (foldl add_boundary [] results)) = Z.of_nat (count_named b results)) as Hc.
  { intros b. by rewrite counts_ok. }
  destruct (dominant_of _) as [[b n]|]; simpl.
  - destruct Hd as [Hin Hmax]. apply (elem_assoc _ _ _ Hk) in Hin. simpl in Hmax. split.
    + intros Hn. exists b. specialize (Hc b). rewrite Hin in Hc. simpl in Hc. lia.
    + intros [b' Hb']. specialize (Hc b'). destruct (assoc b' _) as [n'|] eqn:E; simpl in Hc; [|lia].
      apply assoc_elem, Hmax in E. simpl in E. lia.
  - split; [lia|]. intros [b Hb]. specialize (Hc b). rewrite Hd in Hc. simpl in Hc. lia.
Qed.

Lemma count_items_ok key results n :
  count_items key results = Ok n → n = Z.of_nat (length (List.filter (λ r, json_truthy (jget key r)) results)).
Proof.
  unfold count_items. intros (values & Hv%res_mapM_ok & [= <-])%bind_ok. f_equal.
  induction Hv as [|r v results values Hr _ IH]; [done|]. simpl in Hr. cbn [List.filter].
  assert (jget key r = v) as ->. { unfold jget. destruct (assoc key r); [by injection Hr as ->|done]. }
  destruct (json_truthy v); simpl; [by f_equal|done].
Qed.

Definition pathological (r : jdict) : bool := json_truthy (jget "pathology_observed" r).

Lemma aggregate_go results s :
  _aggregate results = Ok s →
  sm_decision s = "GO" ↔
  length results = 10%nat ∧ Forall (λ r, holds "evidence_valid" r = true) results ∧
  Forall (λ r, holds "latency_pathology_evaluable" r = true) results ∧
  ((8 ≤ length (List.filter pathological results))%nat ∨ ∃ b, (8 ≤ count_named b results)%nat).
Proof.
  unfold _aggregate. intros H. apply bind_ok in H as (? & _ & (count & Hc%count_items_ok & H)%bind_ok).
  do 2 apply bind_ok in H as (? & _ & H). injection H as <-. cbn [sm_decision].
  assert (∀ key, forallb (holds key) results = true ↔ Forall (λ r, holds key r = true) results) as Hall.
  { intros key. rewrite forallb_forall, List.Forall_forall. done. }
  rewrite <- !Hall, <- dominant_count_ok, <- Nat.eqb_eq. subst count. fold pathological.
  destruct (Nat.eqb (length results) 10) eqn:Hl; [apply Nat.eqb_eq in Hl|split; [done|by intros [? _]]].
  assert (match results with [] => true | _ => false end = false) as -> by by destruct results.
  cbn [negb andb]. destruct (forallb (holds "evidence_valid") results); [|split; [done|by intros (_ & ? & _)]].
  destruct (forallb (holds "latency_pathology_evaluable") results); [|split; [done|by intros (_ & _ & ? & _)]].
  cbn [negb andb]. destruct (_ || _) eqn:E.
  - split; [|done]. intros _. split_and!; try done. apply orb_true_iff in E as [E|E]; apply Z.leb_le in E; [left; lia|by right].
  - split; [done|]. intros (_ & _ & _ & H). apply orb_false_iff in E as [E1 E2]. apply Z.leb_gt in E1, E2.
    destruct H; lia.
Qed.

(** What a comparison says: the increase of the survivors' p99 over the control against the
    threshold, and the boundary that grew the most *)
Lemma paired_latency_evaluable fault control l :
  _paired_latency fault control = Ok l → lt_evaluable l = true →
  ∃ vf vc f c x y deltas, survivor_p99 fault = Ok vf ∧ survivor_p99 control = Ok vc ∧
    comparable fault control vf vc = Some (f, c) ∧ num_to_float f = Ok x ∧ num_to_float c = Ok y ∧
    boundary_deltas fault control = Ok deltas ∧ lt_top1_boundary l = top1_boundary deltas ∧
    lt_observed l = Some (fle P99_THRESHOLD (fdiv (fsub x y) y)) ∧
    (lt_observed l = Some true → is_Some (lt_top1_boundary l)).
Proof.
  unfold _paired_latency. intros (vf & Hf & (vc & Hc & H)%bind_ok)%bind_ok He.
  destruct (comparable fault control vf vc) as [[f c]|] eqn:E; [|by injection H as <-].
  apply bind_ok in H as (x & Hx & (y & Hy & (deltas & Hd & H)%bind_ok)%bind_ok).
  exists vf, vc, f, c, x, y, deltas. revert H. generalize (fle P99_THRESHOLD (fdiv (fsub x y) y)). intros crossed H.
  destruct crossed, (top1_boundary deltas) as [b|]; injection H as <-; try discriminate He; split_and!;
    try assumption; try reflexivity; intros Ho; first [discriminate Ho|exact (mk_is_Some _ _ eq_refl)].
Qed.

(** A pair whose arms are valid and whose latencies can be compared *)
Record matched (p : jdict * jdict) (l : latency) : Prop := mkMatched {
  mp_latency : _paired_latency p.1 p.2 = Ok l;
  mp_fault : jget "evidence_valid" p.1 = JBool true;
  mp_control : jget "evidence_valid" p.2 = JBool true;
  mp_evaluable : lt_evaluable l = true }.

Definition slowed_at (boundary : string) (l : latency) : bool :=
  default false (lt_observed l) && bool_decide (lt_top1_boundary l = Some boundary).

Definition result_of (pl : (nat * (jdict * jdict)) * latency) : jdict :=
  repetition_result pl.1.1 pl.1.2.1 pl.1.2.2 pl.2.

Lemma judged_pairs ps results :
  Forall2 (λ p r, judge_pair p = Ok r) ps results →
  ∃ ls, Forall2 (λ p l, _paired_latency p.2.1 p.2.2 = Ok l) ps ls ∧ results = map result_of (zip ps ls).
Proof.
  induction 1 as [|p r ps results Hp _ (ls & Hls & ->)]; [by exists []|].
  unfold judge_pair in Hp. apply bind_ok in Hp as (l & Hl & [= <-]). exists (l :: ls). split; [by constructor|done].
Qed.

Lemma named_results b ps ls :
  length ps = length ls → count_named b (map result_of (zip ps ls)) = length (List.filter (slowed_at b) ls).
Proof.
  revert ls. induction ps as [|p ps IH]; intros [|l ls] Hl; try done. injection Hl as Hl. specialize (IH ls Hl).
  unfold count_named in IH |- *. cbn [zip zip_with map List.filter].
  destruct (result_fields p.1 p.2.1 p.2.2 l) as (_ & _ & Ho & Ht & _).
  assert (bool_decide (boundary_named (result_of (p, l)) = Some b) = slowed_at b l) as ->.
  { unfold boundary_named, slowed_at, result_of. cbn [fst snd]. rewrite Ho, Ht. destruct (default false _); [done|].
    by apply bool_decide_eq_false. }
  destruct (slowed_at b l); simpl; [by f_equal|exact IH].
Qed.

Definition pair_pathological (p : jdict * jdict) : bool := pathological p.1.

Lemma assoc_result key i fault control l :
  key ∉ ["arm_order"; "normal_control"; "paired_latency"; "evidence_valid"; "latency_pathology_evaluable";
         "latency_pathology_observed"; "latency_pathology_reason"; "latency_top1_boundary"] →
  jget key (repetition_result i fault control l) = jget key fault.
Proof.
  intros Hk. unfold repetition_result, jget. cbn [foldl fst snd]. rewrite !assoc_put.
  rewrite !not_elem_of_cons in Hk. destruct_and! Hk.
  repeat match goal with H : key ≠ ?k |- _ => rewrite (proj2 (String.eqb_neq k key)) by (by intros <-); clear H end.
  done.
Qed.

Lemma pathological_results ps ls :
  length ps = length ls →
  length (List.filter pathological (map result_of (zip ps ls)))
  = length (List.filter pair_pathological (map snd ps)).
Proof.
  revert ls. induction ps as [|p ps IH]; intros [|l ls] Hl; try done. injection Hl as Hl. specialize (IH ls Hl).
  cbn [zip zip_with map List.filter].
  assert (pathological (result_of (p, l)) = pair_pathological p.2) as ->.
  { unfold pair_pathological, pathological, result_of. cbn [fst snd]. rewrite assoc_result; [done|].
    by apply (bool_decide_unpack _). }
  destruct (pair_pathological p.2); simpl; [by f_equal|exact IH].
Qed.

(** The repetitions all run when every result is valid. *)
Lemma run_repetitions_length ps acc results :
  run_repetitions ps acc = Ok results →
  Forall (λ p, ∀ r, judge_pair p = Ok r → holds "evidence_valid" r = true) ps →
  length results = (length acc + length ps)%nat.
Proof.
  intros H Hall. revert acc H. induction Hall as [|p ps Hp _ IH]; intros acc H; cbn [run_repetitions] in H.
  - injection H as <-. simpl. lia.
  - apply bind_ok in H as (r & Hr & (? & _ & H)%bind_ok). rewrite (Hp r Hr) in H.
    rewrite (IH _ H), length_app. simpl. lia.
Qed.

Lemma enumerate_length {A} (l : list A) : length (enumerate l) = length l.
Proof. unfold enumerate. rewrite length_zip, length_seq. lia. Qed.

Lemma matched_results ps ls :
  Forall2 (λ p l, _paired_latency p.2.1 p.2.2 = Ok l) ps ls →
  Forall (λ r, holds "evidence_valid" r = true) (map result_of (zip ps ls)) ↔ Forall2 matched (map snd ps) ls.
Proof.
  induction 1 as [|p l ps ls Hp _ IH]; [by split; constructor|]. cbn [zip zip_with map].
  rewrite Forall_cons, Forall2_cons, IH.
  destruct (result_fields p.1 p.2.1 p.2.2 l) as (He & _).
  assert (holds "evidence_valid" (result_of (p, l)) = true ↔ matched p.2 l) as ->; [|done].
  unfold result_of. cbn [fst snd]. rewrite He, !andb_true_iff. split.
  - intros [[Hf%is_true_ok Hc%is_true_ok] Hv]. by constructor.
  - intros [_ -> -> ->]. done.
Qed.

Lemma evaluable_results ps ls :
  Forall2 matched (map snd ps) ls →
  Forall (λ r, holds "latency_pathology_evaluable" r = true) (map result_of (zip ps ls)).
Proof.
  revert ls. induction ps as [|p ps IH]; intros ls H; inversion H as [|? l ? ls' Hm Hrest]; subst; constructor.
  - unfold result_of. cbn [fst snd]. destruct (result_fields p.1 p.2.1 p.2.2 l) as (_ & -> & _). apply Hm.
  - by apply IH.
Qed.

(** C36. The campaign of ten repetitions decides for the treatment exactly when all ten
    pairs of runs are valid and comparable and, in at least eight of them, resources or
    requests were lost, or the survivors' p99 crossed the threshold with the same boundary
    growing the most. *)
Theorem go_decision pairs s :
  length pairs = 10%nat → campaign (enumerate pairs) = Ok s →
  sm_decision s = "GO" ↔
  ∃ ls, Forall2 matched pairs ls ∧
    ((8 ≤ length (List.filter pair_pathological pairs))%nat ∨
     ∃ boundary, (8 ≤ length (List.filter (slowed_at boundary) ls))%nat).
Proof.
  unfold campaign. intros Hn (results & Hr & Ha)%bind_ok. rewrite (aggregate_go _ _ Ha).
  pose proof (enumerate_values pairs) as Hvalues. pose proof (enumerate_length pairs) as Hlen.
  assert (length results = 10%nat → ∃ ls, Forall2 (λ p l, _paired_latency p.2.1 p.2.2 = Ok l) (enumerate pairs) ls ∧
    results = map result_of (zip (enumerate pairs) ls)) as Hjudged.
  { intros Hl. apply run_repetitions_all in Hr as (new & Hm%res_mapM_ok%judged_pairs & ->); [done|].
    by rewrite Hlen, Hn. }
  revert Hr Hvalues Hlen Hjudged. generalize (enumerate pairs). intros ps Hr Hvalues Hlen Hjudged. split.
  - intros (Hl & Hv & _ & Hcount). destruct (Hjudged Hl) as (ls & Hls & ->). exists ls.
    pose proof (Forall2_length _ _ _ Hls) as Hpl. rewrite (matched_results _ _ Hls) in Hv.
    assert (map snd ps = pairs) as Hsnd by exact Hvalues. rewrite Hsnd in Hv. split; [done|].
    rewrite (pathological_results _ _ Hpl), Hsnd in Hcount. destruct Hcount as [|[b Hb]]; [by left|right].
    exists b. by rewrite named_results in Hb.
  - intros (ls & Hm & Hcount). assert (map snd ps = pairs) as Hsnd by exact Hvalues.
    assert (length results = 10%nat) as Hl.
    { rewrite (run_repetitions_length _ _ _ Hr), Hlen, Hn; [done|]. rewrite <- Hsnd in Hm. clear -Hm.
      revert ls Hm. induction ps as [|p ps IH]; intros ls Hm; inversion Hm as [|? l ? ls' [Hp Hf Hc He] Hrest]; subst; constructor.
      - unfold judge_pair. intros r (l' & Hl' & [= <-])%bind_ok. rewrite Hp in Hl'. injection Hl' as <-.
        destruct (result_fields p.1 p.2.1 p.2.2 l) as (-> & _). by rewrite Hf, Hc, He.
      - by apply (IH ls'). }
    destruct (Hjudged Hl) as (ls' & Hls & ->). pose proof (Forall2_length _ _ _ Hls) as Hpl.
    assert (ls' = ls) as ->.
    { rewrite <- Hsnd in Hm. clear -Hm Hls. revert ls Hm. induction Hls as [|p l ps ls' Hp _ IH]; intros ls Hm;
        inversion Hm as [|? l2 ? ls2 [Hp2 _ _ _] Hrest]; subst; [done|]. rewrite Hp in Hp2. injection Hp2 as <-.
      f_equal. by apply IH. }
    rewrite <- Hsnd in Hm. split; [done|]. split; [by apply matched_results|]. split; [by apply evaluable_results|].
    rewrite (pathological_results _ _ Hpl), Hsnd. destruct Hcount as [|[b Hb]]; [by left|right].
    exists b. by rewrite named_results.
Qed.

(** Ten pairs whose faults lost a resource *)
Definition example_arm (p99 queue : Z) : jdict :=
  [("evidence_valid", JBool true); ("correctness", JBool false); ("pathology_observed", JBool true);
   ("distribution", JObject [("unaffected_survivor_p99_seconds", JFloat (lit p99 10));
                             ("unaffected_survivor_count", JInt 58)]);
   ("lifecycle_boundary_p99_seconds", JObject [("queue_to_schedule", JObject [("p99", JFloat (lit queue 10))])])].

Definition example_pairs : list (jdict * jdict) := repeat (example_arm 12 5, example_arm 10 3) 10.

Lemma go_decision_witness :
  ∃ s, campaign (enumerate example_pairs) = Ok s ∧ sm_decision s = "GO" ∧ sm_dominant s = Some "queue_to_schedule" ∧
    ∃ ls, Forall2 matched example_pairs ls.
Proof.
  assert (∃ s, campaign (enumerate example_pairs) = Ok s ∧ sm_decision s = "GO" ∧
    sm_dominant s = Some "queue_to_schedule") as (s & Hs & Hgo & Hd).
  { eexists. split; [vm_compute; reflexivity|]. split; vm_compute; reflexivity. }
  assert (length example_pairs = 10%nat) as Hn by (vm_compute; reflexivity).
  exists s. split; [exact Hs|]. split; [exact Hgo|]. split; [exact Hd|]. clear Hd. revert Hs Hgo Hn.
  generalize example_pairs. intros pairs Hs Hgo Hn.
  destruct (proj1 (go_decision pairs s Hn Hs) Hgo) as (ls & Hls & _). exists ls. exact Hls.
Defined.

Lemma public_decision_agrees_witness :
  ∃ s, campaign (enumerate example_pairs) = Ok s ∧ sm_decision s = "GO" ∧ recompute_summary example_pairs = Ok s.
Proof.
  assert (∃ s, campaign (enumerate example_pairs) = Ok s ∧ sm_decision s = "GO" ∧ sm_completed s = 10) as (s & Hs & Hgo & Hc).
  { eexists. split; [vm_compute; reflexivity|]. split; vm_compute; reflexivity. }
  assert (length example_pairs = 10%nat) as Hn by (vm_compute; reflexivity).
  exists s. split; [exact Hs|]. split; [exact Hgo|]. clear Hgo. revert Hs Hc Hn. generalize example_pairs.
  intros pairs Hs Hc Hn. exact (public_decision_agrees pairs s Hn Hs Hc).
Defined.
